(* ===== verification/_CoqProject ===== *)
-Q . S2P
Prelude.v
Defs.v
State.v
Logic.v
Memory.v
Spinlock.v
Sched.v
Sleeplock.v
Kalloc.v
Vm.v
PageTable.v
UserMem.v
Bio.v
BioList.v
BioCache.v
Virtio.v
VirtioSpec.v
BioSpec.v
Log.v
LogSpec.v
LogOps.v
Copy.v
Uart.v
Printf.v
Console.v
Fs.v
Pipe.v
File.v
Csr.v
Proc.v
Exec.v
Sysproc.v
Sysfile.v
Trap.v
PipeSpec.v
FsOps.v
FsRead.v
FsWrite.v
FsDir.v
TrapSpec.v
AddrSpace.v
ForkSpec.v
WaitSpec.v
Grep.v
User.v
Ulib.v
UlibSpec.v
Uprogs.v
UprogsSpec.v
LsSpec.v
Utests.v
UtestsSpec.v
Sh.v
ShTotal.v
ShRound.v
ShRun.v
ShRunSpec.v
Umalloc.v
UmallocSpec.v
UmallocSafe.v
Mkfs.v
MkfsSpec.v
MkfsImage.v
MkfsKernel.v
Asm.v
Tramp.v
Boot.v
AsmSpec.v
TrampSpec.v
BootSpec.v
InitCode.v
