(* ===== verification/Prelude.v ===== *)
(** * xv6-riscv (lazy-allocation variant): a verification development

    The program is the xv6 teaching kernel for RISC-V ([src/kernel]) with lazy
    allocation of user memory, its user programs ([src/user]) and the program
    that makes the disk image ([src/mkfs]).  The development translates their
    C code into Rocq functions and proves what makes it correct.

    ** The machine

    [State] holds the whole state of the kernel in one record [kernel]: locks,
    processor and process table ([k_sy]), physical memory and free list
    ([k_mm]), buffer cache, log, superblock and inodes ([k_fs]), files and
    pipes ([k_fi]), devices and control registers ([k_ms]).  Every C struct
    is a record with the fields of the source, every C integer a [Z] with its
    wrap-around written out ([u8] .. [u64], [s32] below), and RAM a finite map
    from physical addresses to bytes.

    Code is a value of [M A := env -> kernel -> outcome A], where the outcome
    is a result ([Ret]), a [panic] with its message ([Panic]), giving the
    processor up with nobody to give it back ([Off]), spinning on a lock that
    is never released ([Spin]), or running out of fuel ([Loop]).  The
    environment [env] is the list of what the other processes and devices do
    to the kernel while the code has given the processor up ([swtch]) or
    spins: one state transformer per turn.  Thus one thread's code is executed
    in full, and the rest of the system is arbitrary turns, restricted by
    each theorem to the turns it allows.

    [Logic] is the program logic: [wp T m Q k] says that [m] from [k] returns,
    with turns in [T], in a state satisfying [Q] (total correctness: no panic,
    no loop); [panics], [offs], [takes] and [parks] state the other outcomes.

    ** Components

    - [Defs], [State]: constants, macros and structs of the kernel headers.
    - [Memory]: [string.c] and the bytes of RAM.
    - [Spinlock], [Sched], [Sleeplock]: [spinlock.c], the scheduling half of
      [proc.c], [sleeplock.c].  [acquire], [release] and [holding] are
      written as sequences of their accesses to the lock ([code]), which one
      hart runs to the end ([run_code]) or many harts interleave ([hart_step]).
    - [Kalloc], [Vm]: [kalloc.c], [vm.c].  The symbols of the linker script
      are parameters (class [Linker], law [LinkerOk]).
    - [Bio], [Virtio], [Log], [Fs]: [bio.c], [virtio_disk.c], [log.c],
      [fs.c].  The cache calls the disk driver through the class [DiskDriver];
      [DiskLaw] is its contract, which [VirtioSpec] proves for the driver with
      any device that obeys [VirtioLaw].
    - [Copy], [Pipe], [File], [Proc], [Exec]: copies from and to user memory,
      [pipe.c], [file.c], the rest of [proc.c], [exec.c].  The destination of
      a copy ([dest]) is an address of the user or the kernel, or a place in a
      local variable.
    - [Uart], [Printf], [Console], [Csr]: [uart.c], [printf.c], [console.c],
      the control registers of [riscv.h] and [plic.c].
    - [Sysproc], [Sysfile], [Trap]: system calls, traps, [main].
    - [User], [Ulib], [Uprogs]: user processes.  A program is an interaction
      tree whose events are the system calls; [wpi] is total correctness under
      all answers an operating system may give (class [OS]).  [Ulib] is
      [ulib.c] and [user/printf.c] on a byte-level memory, [Uprogs] the
      programs [cat], [echo], [grep], [init], [kill], [ln], [ls], [mkdir],
      [rm], [wc] and [zombie]; the matcher of grep is in [Grep].  [Utests] has
      the load programs [forktest], [stressfs] and [grind].
    - [Sh], [ShRun]: the parser of [user/sh.c]; [runcmd] and [main].
    - [Umalloc]: [user/umalloc.c].  The allocator calls [sbrk] through the
      class [SbrkGrows], which the system call satisfies ([sbrk_up]).
    - [Mkfs]: [mkfs/mkfs.c], which makes the first disk image on the host.
    - [Asm], [Tramp], [Boot]: what is below C.  [Asm] is the machine (a record
      [hart] of registers, control registers, mode and memory), [Tramp] the
      code of [swtch.S], [trampoline.S] and [kernelvec.S] as lists of its
      instructions, [Boot] [entry.S], [start.c] and the timer interrupt.
    - [InitCode]: [user/initcode.S] and the array of [proc.c] that holds it.

    ** Theorems

    - Crash safety ([LogSpec], [LogOps]): whatever prefix of the disk writes
      of a commit reaches the disk, recovery yields the disk before or after
      the transaction; recovery may itself be interrupted and repeated; the
      last [end_op] makes the operation durable and erases it from the log on
      disk, so that a later recovery replays nothing; [begin_op] and [log_write]
      keep the log within its bounds.  Recovery also leaks the buffers it
      touches ([recovery_leaks_buffers]).
    - Buffer cache ([BioList], [BioCache], [BioSpec]): the doubly linked list
      is a ring with every buffer once; [bget] finds, recycles or panics as
      documented; [view], what the kernel sees of a block, is kept by every
      operation but an explicit change.
    - Disk driver ([VirtioSpec]): [virtio_disk_rw] with its descriptors,
      rings and interrupt handler is a read or a write of one block.
    - File system ([FsOps], [FsRead], [FsWrite], [FsDir]): [balloc] takes the
      lowest free block; [readi] delivers the contents of the file to a variable,
      to kernel memory or to user memory, and [writei]
      changes exactly the written range, allocating blocks within the bound of
      the log; a directory is a map from names to inodes, which [dirlookup]
      looks up and [dirlink] extends.
    - Initial file system ([MkfsSpec], [MkfsImage], [MkfsKernel]): when the
      files fit, [mkfs] makes an image that satisfies the invariants of the
      theorems about the kernel's file system and in which the kernel finds
      the files, their contents and their names.
    - Memory ([Kalloc], [PageTable], [UserMem], [TrapSpec]): the free list is
      a stack of distinct pages; page tables in RAM are finite maps
      ([pt_ok]), which [mappages] extends; [copyout] then [copyin] is the
      identity over mapped pages and pages that are allocated on the way, and
      the two places that allocate user memory lazily,
      [walkaddr] and the page-fault branch of [usertrap], map zeroed pages
      and leave the user's other bytes alone.
    - Address spaces ([AddrSpace], [ForkSpec], [WaitSpec]): [uvmcopy] copies
      a user's memory or undoes what it did, [proc_freepagetable] frees an
      address space; [fork] makes a child with copies of its parent's memory,
      registers and files, or gives back what it took; [wait] hands over the
      status of a child that exited and frees all it had.  Every page is
      accounted for, none is lost or freed twice.
    - Processes ([Spinlock], [Sched], [Sleeplock]): mutual exclusion for all
      interleavings of the accesses of [acquire] and [release], nesting
      of [push_off] and [pop_off], no lost wakeup, exactness of [wakeup].
    - Pipes ([PipeSpec]): a pipe is a bounded queue across the wrap of its
      counters; a reader of an empty pipe sleeps until [pipewrite] on another
      hart wakes it, is picked by the scheduler and returns the bytes.
    - User programs ([UlibSpec], [Grep], [UprogsSpec], [LsSpec], [UtestsSpec]): the library
      functions compute what their names say on strings in memory; [printf]
      prints its format, and [atoi] reads numbers back; grep's matcher decides
      its regular expressions; [cat], [wc] and [grep] print what they should
      of whole files, however reads are cut up; [ls] stays in its buffers;
      the generator of [grind] is the one it says it is, and [forktest] passes
      on a system it can fill.
    - Shell ([ShTotal], [ShRound], [ShRunSpec]): the parser terminates on
      every input, inverts a printer and reads every layout of a command
      ([typed]: white space wherever it may be, the newline at the end);
      [runcmd] turns a command into the
      tree of processes its syntax stands for ([plan]), with the right
      descriptors and no others.
    - User memory ([UmallocSpec], [UmallocSafe]): over every run of a program
      [malloc] hands out disjoint blocks, [free] merges them back, and all the
      memory is one block again at the end; [sbrk] through [syscall].
    - Below C ([AsmSpec], [TrampSpec], [BootSpec], [InitCode]): a trap from
      user space and back keeps the user's registers, across the two changes
      of the page table; [swtch] suspends and resumes a thread; [kernelvec] is
      transparent to the code it interrupts; every hart boots into [main];
      [timervec] keeps the timer going; the page tables that [walk] builds are
      the ones the machine translates by ([sv39_leaf]); the bytes of the first
      process are [initcode.S] and call [exec] of [/init].

    ** Bounds and fuel

    Loops with an explicit bound in the source run over the list of their
    indices.  The others take fuel: [mappages] one iteration per page of the
    range, the copies one per page plus the partial ones at both ends, [readi]
    and [writei] one per block plus the partial ones ([io_fuel]), the
    directory scans one per entry, the shell's parser a multiple of the length
    of the line, the string functions of the user library one per mapped
    byte, the allocator twice the headers there are.
    The theorems are about [Ret] outcomes, so each includes that the fuel is
    enough.  Waiting loops run as long as the environment has turns.

    ** Assumptions

    [LinkerOk]: the symbols of the linker script lie in RAM in order, the
    trampoline page below [etext], both page-aligned, and [end] at least a
    page below [PHYSTOP].  [VirtioLaw]: the device completes the request at the head of
    the available ring by transferring one block and posting status 0.
    [BootSymsOk]: the stacks and scratch areas used at boot lie aligned in RAM,
    and [main] and [timervec] are addresses; the registers of the timer are
    words of memory.  Witnesses instantiate the three.  The C code called from assembly returns as the
    calling convention says ([returns]).  The theorems about one thread require a state
    in which it holds no spinlock ([calm]).

    ** Not modelled

    Memory ordering between harts (spinlock steps are atomic and in order),
    caches and the TLB ([sfence.vma] does nothing); the encodings of the
    kernel's instructions (a routine is fetched from one page that allows it);
    the stack frames of compiled C code; interrupts inside kernel code, except
    where the code waits; [ramdisk.c], which the build leaves out; the tests
    [usertests] and [lazytests].  In the model of C code [swtch] is a turn of the environment and
    the jump to [userret] the pair of its arguments: [TrampSpec] justifies
    both, for the machine, without being linked to that model by a theorem. *)

From Stdlib Require Export ZArith Lia String.
From stdpp Require Export base tactics numbers list option gmap strings.

Declare Scope kernel_scope.
Delimit Scope kernel_scope with K.

Create HintDb kern.
Create HintDb kmem.

(** ** Machine integers

    C integers are [Z] values kept in range by explicit wrap-around. *)

Open Scope Z_scope.

Definition u8 (x : Z) : Z := x mod 2 ^ 8.
Definition u16 (x : Z) : Z := x mod 2 ^ 16.
Definition u32 (x : Z) : Z := x mod 2 ^ 32.
Definition u64 (x : Z) : Z := x mod 2 ^ 64.

(** Conversion to a signed [w]-bit integer (two's complement). *)
Definition swrap (w x : Z) : Z :=
  let y := x mod 2 ^ w in if y <? 2 ^ (w - 1) then y else y - 2 ^ w.
Definition s8 (x : Z) : Z := swrap 8 x.
Definition s16 (x : Z) : Z := swrap 16 x.
Definition s32 (x : Z) : Z := swrap 32 x.

(** C truth values. *)
Definition c_bool (b : bool) : Z := if b then 1 else 0.
Definition c_true (x : Z) : bool := negb (x =? 0).

(** Bytes of a character string constant. *)
Fixpoint bytes_of (s : string) : list Z :=
  match s with
  | EmptyString => []
  | String c s => Z.of_N (Ascii.N_of_ascii c) :: bytes_of s
  end.

(** Little-endian encoding of [n] bytes. *)
Fixpoint le_bytes (n : nat) (x : Z) : list Z :=
  match n with
  | O => []
  | S n => u8 x :: le_bytes n (x / 256)
  end.

Fixpoint le_val (l : list Z) : Z :=
  match l with
  | [] => 0
  | b :: l => b + 256 * le_val l
  end.

(** Overwrite [l] from index [i] with the elements of [x]; what falls outside
    [l] is lost, as [l] keeps its length. *)
Fixpoint splice {A} (l : list A) (i : nat) (x : list A) : list A :=
  match x with
  | [] => l
  | a :: x => splice (<[i := a]> l) (S i) x
  end.

(** The [n]-byte field at offset [off] of a struct stored in a byte array. *)
Definition getn (n : nat) (l : list Z) (off : Z) : Z :=
  le_val (take n (drop (Z.to_nat off) l)).
Definition putn (n : nat) (l : list Z) (off v : Z) : list Z :=
  splice l (Z.to_nat off) (le_bytes n v).

(** ** Tactics *)

(** Case analysis on the boolean comparisons of a goal, with the matching
    facts about [Z] as hypotheses. *)
Ltac zcase_one :=
  match goal with
  | |- context [?a =? ?b] => destruct (Z.eqb_spec a b)
  | |- context [?a <? ?b] => destruct (Z.ltb_spec a b)
  | |- context [?a <=? ?b] => destruct (Z.leb_spec a b)
  | |- context [?a >? ?b] => rewrite (Z.gtb_ltb a b)
  | |- context [?a >=? ?b] => rewrite (Z.geb_leb a b)
  end.
Ltac zcase := repeat (zcase_one; try lia; simpl).

(** ** Generic lemmas *)

Lemma u8_range x : 0 <= u8 x < 256.
Proof. apply Z.mod_pos_bound. lia. Qed.

Lemma u64_range x : 0 <= u64 x < 2 ^ 64.
Proof. apply Z.mod_pos_bound. lia. Qed.

Lemma u32_range x : 0 <= u32 x < 2 ^ 32.
Proof. apply Z.mod_pos_bound. lia. Qed.

Lemma u64_id x : 0 <= x < 2 ^ 64 -> u64 x = x.
Proof. apply Z.mod_small. Qed.

Lemma u32_id x : 0 <= x < 2 ^ 32 -> u32 x = x.
Proof. apply Z.mod_small. Qed.

Lemma u8_id x : 0 <= x < 256 -> u8 x = x.
Proof. intros H. apply Z.mod_small. lia. Qed.

Lemma swrap_range w x : 0 < w -> - 2 ^ (w - 1) <= swrap w x < 2 ^ (w - 1).
Proof.
  intros Hw. unfold swrap.
  assert (2 ^ w = 2 * 2 ^ (w - 1)) as E.
  { rewrite <- Z.pow_succ_r by lia. f_equal. lia. }
  pose proof (Z.mod_pos_bound x (2 ^ w) ltac:(lia)).
  zcase.
Qed.

Lemma swrap_id w x : 0 < w -> - 2 ^ (w - 1) <= x < 2 ^ (w - 1) -> swrap w x = x.
Proof.
  intros Hw H. unfold swrap.
  assert (2 ^ w = 2 * 2 ^ (w - 1)) as E.
  { rewrite <- Z.pow_succ_r by lia. f_equal. lia. }
  destruct (Z.ltb_spec x 0).
  - assert (x mod 2 ^ w = x + 2 ^ w) as ->.
    { rewrite <- (Z.mod_small (x + 2 ^ w) (2 ^ w)) by lia.
      rewrite <- (Z.mul_1_l (2 ^ w)) at 2. by rewrite Z.mod_add by lia. }
    zcase.
  - rewrite Z.mod_small by lia. zcase.
Qed.

Lemma length_le_bytes n x : length (le_bytes n x) = n.
Proof. revert x; induction n; simpl; auto. Qed.

Lemma le_val_bytes n x :
  0 <= x < 256 ^ Z.of_nat n -> le_val (le_bytes n x) = x.
Proof.
  revert x; induction n as [|n IH]; intros x Hx.
  { simpl in *. lia. }
  simpl. rewrite Nat2Z.inj_succ, Z.pow_succ_r in Hx by lia.
  rewrite IH.
  - unfold u8. change (2 ^ 8) with 256. pose proof (Z.div_mod x 256). lia.
  - split; [apply Z.div_pos; lia | apply Z.div_lt_upper_bound; lia].
Qed.

Lemma le_val_range l :
  Forall (fun b => 0 <= b < 256) l -> 0 <= le_val l < 256 ^ Z.of_nat (length l).
Proof.
  induction 1 as [|b l Hb Hl IH]; cbn [length le_val]; [lia|].
  rewrite Nat2Z.inj_succ, Z.pow_succ_r by lia. lia.
Qed.

Lemma le_bytes_range n x : Forall (fun b => 0 <= b < 256) (le_bytes n x).
Proof.
  revert x; induction n; intros x; simpl; constructor; auto using u8_range.
Qed.

Lemma length_splice {A} (l : list A) i x : length (splice l i x) = length l.
Proof.
  revert l i; induction x as [|a x IH]; intros l i; simpl; auto.
  by rewrite IH, length_insert.
Qed.

Lemma splice_lookup_lt {A} (l : list A) i x j :
  (j < i)%nat -> splice l i x !! j = l !! j.
Proof.
  revert l i; induction x as [|a x IH]; intros l i H; simpl; auto.
  rewrite IH by lia. by rewrite list_lookup_insert_ne by lia.
Qed.

Lemma splice_lookup_ge {A} (l : list A) i x j :
  (i + length x <= j)%nat -> splice l i x !! j = l !! j.
Proof.
  revert l i; induction x as [|a x IH]; intros l i H; simpl in *; auto.
  rewrite IH by lia. by rewrite list_lookup_insert_ne by lia.
Qed.

Lemma splice_lookup_in {A} (l : list A) i x j :
  (i <= j < i + length x)%nat -> (i + length x <= length l)%nat ->
  splice l i x !! j = x !! (j - i)%nat.
Proof.
  revert l i; induction x as [|a x IH]; intros l i H Hl; simpl in *; [lia|].
  destruct (decide (j = i)) as [->|].
  - rewrite splice_lookup_lt by lia. rewrite Nat.sub_diag.
    rewrite list_lookup_insert_eq by lia. done.
  - rewrite IH by (rewrite ?length_insert; lia).
    by replace (j - i)%nat with (S (j - S i)) by lia.
Qed.

(** Overwriting a whole list. *)
Lemma splice_app {A} (l : list A) i x y : splice l i (x ++ y) = splice (splice l i x) (i + length x) y.
Proof.
  revert l i. induction x as [|a x IH]; intros l i; simpl; [by rewrite Nat.add_0_r|].
  rewrite IH. f_equal. lia.
Qed.

Lemma splice_all {A} (l x : list A) : length x = length l -> splice l 0 x = x.
Proof.
  intros E. apply list_eq. intros j. destruct (decide (j < length x)%nat).
  - rewrite splice_lookup_in by lia. f_equal. lia.
  - rewrite splice_lookup_ge by lia. rewrite !lookup_ge_None_2; auto; lia.
Qed.

Lemma splice_cons {A} (a b : A) l x : splice (a :: l) 0 (b :: x) = b :: splice l 0 x.
Proof.
  simpl. revert l. assert (forall l i, splice (b :: l) (S i) x = b :: splice l i x) as H.
  { induction x as [|c x IH]; intros l i; simpl; [done|]. apply (IH (<[i:=c]> l)). }
  intros l. apply H.
Qed.

Lemma alter_ext_at {A} (f g : A -> A) (l : list A) i x :
  l !! i = Some x -> f x = g x -> alter f i l = alter g i l.
Proof.
  intros Hx E. apply list_eq. intros j. destruct (decide (i = j)) as [<-|].
  - rewrite !list_lookup_alter_eq, Hx. simpl. by rewrite E.
  - by rewrite !list_lookup_alter_ne.
Qed.

Lemma alter_id_at {A} (f : A -> A) (l : list A) i x :
  l !! i = Some x -> f x = x -> alter f i l = l.
Proof.
  intros Hx E. apply list_eq. intros j. destruct (decide (i = j)) as [<-|].
  - rewrite list_lookup_alter_eq, Hx. simpl. by rewrite E.
  - by rewrite list_lookup_alter_ne.
Qed.

Lemma alter_alter {A} (f g : A -> A) (l : list A) i :
  alter f i (alter g i l) = alter (fun x => f (g x)) i l.
Proof.
  apply list_eq. intros j. destruct (decide (i = j)) as [<-|].
  - rewrite !list_lookup_alter_eq. by destruct (l !! i).
  - by rewrite !list_lookup_alter_ne.
Qed.

(** The element a loop over [seq 0 n] or [seqZ 0 n] is at. *)
Lemma seq_split n dn i rest :
  seq 0 n = dn ++ i :: rest -> i = length dn /\ (i < n)%nat.
Proof.
  intros E. assert (seq 0 n !! length dn = Some i) as L.
  { rewrite E. by rewrite lookup_app_r, Nat.sub_diag by lia. }
  apply lookup_seq in L. lia.
Qed.

Lemma seqZ_split n dn i rest :
  seqZ 0 n = dn ++ i :: rest -> i = Z.of_nat (length dn) /\ i < n.
Proof.
  intros E. assert (seqZ 0 n !! length dn = Some i) as L.
  { rewrite E. by rewrite lookup_app_r, Nat.sub_diag by lia. }
  apply lookup_seqZ in L. lia.
Qed.

Lemma lookup_repeat {A} (x : A) n i : (i < n)%nat -> repeat x n !! i = Some x.
Proof. revert i. induction n as [|n IH]; intros [|i] Hi; simpl; try lia; auto with lia. Qed.

Lemma lor_range a b n : 0 <= n -> 0 <= a < 2 ^ n -> 0 <= b < 2 ^ n -> 0 <= Z.lor a b < 2 ^ n.
Proof.
  intros Hn Ha Hb. assert (0 <= Z.lor a b) as H0 by (apply Z.lor_nonneg; lia).
  split; [done|]. destruct (Z.eq_dec (Z.lor a b) 0) as [->|Hne]; [lia|].
  assert (forall x, 0 <= x < 2 ^ n -> Z.log2 x < n \/ x = 0) as Hx.
  { intros x Hx. destruct (Z.eq_dec x 0); [by right|]. left. apply Z.log2_lt_pow2; lia. }
  destruct (Hx a Ha) as [Ha'| ->], (Hx b Hb) as [Hb'| ->]; rewrite ?Z.lor_0_r, ?Z.lor_0_l; try lia.
  apply Z.log2_lt_pow2; [lia|]. rewrite Z.log2_lor by lia. lia.
Qed.

Lemma map_seqZ_shift {A} (f g : Z -> A) a b n :
  (forall i, 0 <= i < n -> f (a + i) = g (b + i)) -> map f (seqZ a n) = map g (seqZ b n).
Proof.
  intros H. rewrite <- (Z.add_0_r a), <- (Z.add_0_r b), <- !fmap_add_seqZ.
  change (f <$> (Z.add a <$> seqZ 0 n) = g <$> (Z.add b <$> seqZ 0 n)).
  rewrite <- !list_fmap_compose. apply map_ext_in.
  intros i Hi%list_elem_of_In%elem_of_seqZ. apply H. lia.
Qed.

Lemma map_seqZ_app {A} (f : Z -> A) a n m :
  0 <= n -> 0 <= m -> map f (seqZ a (n + m)) = map f (seqZ a n) ++ map f (seqZ (a + n) m).
Proof. intros Hn Hm. by rewrite seqZ_app, map_app by done. Qed.

Lemma find_ext {A} (f g : A -> bool) l : (forall x, f x = g x) -> find f l = find g l.
Proof. intros H. induction l as [|x l IH]; simpl; [done|]. by rewrite H, IH. Qed.

Lemma length_putn n l off v : length (putn n l off v) = length l.
Proof. apply length_splice. Qed.

Lemma take_drop_ext {A} n m (l l' : list A) :
  (forall i, (m <= i < m + n)%nat -> l !! i = l' !! i) -> take n (drop m l) = take n (drop m l').
Proof.
  intros H. apply list_eq. intros i. destruct (decide (i < n)%nat) as [Hi|Hi].
  - rewrite !lookup_take_lt, !lookup_drop by done. apply H. lia.
  - rewrite !lookup_take_ge by lia. done.
Qed.

Lemma getn_putn_eq n l off v :
  0 <= off -> (Z.to_nat off + n <= length l)%nat -> 0 <= v < 256 ^ Z.of_nat n ->
  getn n (putn n l off v) off = v.
Proof.
  intros Ho Hl Hv. unfold getn, putn. rewrite <- (le_val_bytes n v) at 2 by done. f_equal.
  apply list_eq. intros i. destruct (decide (i < n)%nat) as [Hi|Hi].
  - rewrite lookup_take_lt, lookup_drop by done.
    rewrite splice_lookup_in by (rewrite length_le_bytes; lia). f_equal. lia.
  - rewrite lookup_take_ge, lookup_ge_None_2 by (rewrite ?length_le_bytes; lia). done.
Qed.

Lemma getn_putn_ne n m l off off' v :
  0 <= off -> 0 <= off' -> off' + Z.of_nat n <= off \/ off + Z.of_nat m <= off' ->
  getn n (putn m l off v) off' = getn n l off'.
Proof.
  intros Ho Ho' Hd. unfold getn, putn. f_equal. apply take_drop_ext. intros i Hi.
  destruct Hd; [apply splice_lookup_lt|apply splice_lookup_ge; rewrite length_le_bytes]; lia.
Qed.

Lemma getn_range n l off :
  Forall (fun b => 0 <= b < 256) l -> 0 <= getn n l off < 256 ^ Z.of_nat n.
Proof.
  intros H. unfold getn. set (x := take n (drop (Z.to_nat off) l)).
  assert (Forall (fun b => 0 <= b < 256) x) as Hx by (apply Forall_take, Forall_drop, H).
  apply le_val_range in Hx as [H1 H2]. split; [done|].
  eapply Z.lt_le_trans; [done|]. apply Z.pow_le_mono_r; [lia|].
  assert (length x <= n)%nat by (unfold x; rewrite length_take; lia). lia.
Qed.
