(* ===== verification/Defs.v ===== *)
(** * Constants and macros of the kernel headers

    [param.h], [memlayout.h], the page macros of [riscv.h], [fs.h], [stat.h],
    [fcntl.h], [elf.h] and [syscall.h].  The arithmetic of the macros is that
    of the C expression: 64-bit unsigned, with its wrap-around. *)

From S2P Require Import Prelude.

(** ** param.h *)

Definition NPROC : nat := 64.
Definition NCPU : Z := 8.
Definition NOFILE : nat := 16.
Definition NFILE : nat := 100.
Definition NINODE : nat := 50.
Definition NDEV : Z := 10.
Definition ROOTDEV : Z := 1.
Definition MAXARG : Z := 32.
Definition MAXOPBLOCKS : Z := 10.
Definition LOGSIZE : Z := MAXOPBLOCKS * 3.
Definition NBUF : nat := 30.
Definition FSSIZE : Z := 1000.
Definition MAXPATH : Z := 128.

(** ** riscv.h: pages and page-table entries *)

Definition PGSIZE : Z := 4096.
Definition PGSHIFT : Z := 12.

Definition PGROUNDUP (sz : Z) : Z :=
  Z.land (u64 (sz + PGSIZE - 1)) (u64 (Z.lnot (PGSIZE - 1))).
Definition PGROUNDDOWN (a : Z) : Z := Z.land a (u64 (Z.lnot (PGSIZE - 1))).

Definition PTE_V : Z := Z.shiftl 1 0.
Definition PTE_R : Z := Z.shiftl 1 1.
Definition PTE_W : Z := Z.shiftl 1 2.
Definition PTE_X : Z := Z.shiftl 1 3.
Definition PTE_U : Z := Z.shiftl 1 4.

Definition PA2PTE (pa : Z) : Z := u64 (Z.shiftl (Z.shiftr pa 12) 10).
Definition PTE2PA (pte : Z) : Z := u64 (Z.shiftl (Z.shiftr pte 10) 12).
Definition PTE_FLAGS (pte : Z) : Z := Z.land pte 1023.

Definition PXMASK : Z := 511.
Definition PXSHIFT (level : Z) : Z := PGSHIFT + 9 * level.
Definition PX (level va : Z) : Z := Z.land (Z.shiftr va (PXSHIFT level)) PXMASK.

Definition MAXVA : Z := Z.shiftl 1 (9 + 9 + 9 + 12 - 1).

(** ** memlayout.h *)

Definition UART0 : Z := 268435456.
Definition UART0_IRQ : Z := 10.
Definition VIRTIO0 : Z := 268439552.
Definition VIRTIO0_IRQ : Z := 1.
Definition CLINT : Z := 33554432.
Definition PLIC : Z := 201326592.
Definition KERNBASE : Z := 2147483648.
Definition PHYSTOP : Z := KERNBASE + 128 * 1024 * 1024.
Definition TRAMPOLINE : Z := MAXVA - PGSIZE.
Definition KSTACK (p : Z) : Z := TRAMPOLINE - (p + 1) * 2 * PGSIZE.
Definition TRAPFRAME : Z := TRAMPOLINE - PGSIZE.

(** ** fs.h, stat.h, fcntl.h *)

Definition ROOTINO : Z := 1.
Definition BSIZE : Z := 1024.
Definition FSMAGIC : Z := 270544960.
Definition NDIRECT : Z := 12.
Definition NINDIRECT : Z := BSIZE / 4.
Definition MAXFILE : Z := NDIRECT + NINDIRECT.
(** [sizeof(struct dinode)]: four shorts, [size] and [NDIRECT+1] addresses. *)
Definition sizeof_dinode : Z := 4 * 2 + 4 + 4 * (NDIRECT + 1).
Definition IPB : Z := BSIZE / sizeof_dinode.
Definition BPB : Z := BSIZE * 8.
Definition DIRSIZ : Z := 14.
(** [sizeof(struct dirent)]: a ushort and the name. *)
Definition sizeof_dirent : Z := 2 + DIRSIZ.

Definition T_DIR : Z := 1.
Definition T_FILE : Z := 2.
Definition T_DEVICE : Z := 3.

Definition O_RDONLY : Z := 0.
Definition O_WRONLY : Z := 1.
Definition O_RDWR : Z := 2.
Definition O_CREATE : Z := 512.
Definition O_TRUNC : Z := 1024.

Definition CONSOLE : Z := 1.

(** ** struct trapframe ([proc.h])

    The fields of the structure, and the offsets the header notes beside
    them, which trampoline.S uses. *)

Inductive trapframe :=
| TF_kernel_satp | TF_kernel_sp | TF_kernel_trap | TF_epc | TF_kernel_hartid | TF_ra
| TF_sp | TF_gp | TF_tp | TF_t0 | TF_t1 | TF_t2
| TF_s0 | TF_s1 | TF_a0 | TF_a1 | TF_a2 | TF_a3
| TF_a4 | TF_a5 | TF_a6 | TF_a7 | TF_s2 | TF_s3
| TF_s4 | TF_s5 | TF_s6 | TF_s7 | TF_s8 | TF_s9
| TF_s10 | TF_s11 | TF_t3 | TF_t4 | TF_t5 | TF_t6.

Definition tf_offset (f : trapframe) : Z :=
  match f with
  | TF_kernel_satp => 0 | TF_kernel_sp => 8 | TF_kernel_trap => 16 | TF_epc => 24
  | TF_kernel_hartid => 32 | TF_ra => 40 | TF_sp => 48 | TF_gp => 56
  | TF_tp => 64 | TF_t0 => 72 | TF_t1 => 80 | TF_t2 => 88
  | TF_s0 => 96 | TF_s1 => 104 | TF_a0 => 112 | TF_a1 => 120
  | TF_a2 => 128 | TF_a3 => 136 | TF_a4 => 144 | TF_a5 => 152
  | TF_a6 => 160 | TF_a7 => 168 | TF_s2 => 176 | TF_s3 => 184
  | TF_s4 => 192 | TF_s5 => 200 | TF_s6 => 208 | TF_s7 => 216
  | TF_s8 => 224 | TF_s9 => 232 | TF_s10 => 240 | TF_s11 => 248
  | TF_t3 => 256 | TF_t4 => 264 | TF_t5 => 272 | TF_t6 => 280
  end.
Definition sizeof_trapframe : Z := 288.

(** ** Facts about the page macros *)

Lemma lnot_mask_land a :
  0 <= a < 2 ^ 64 -> Z.land a (u64 (Z.lnot 4095)) = a / 4096 * 4096.
Proof.
  intros Ha. change 4096 with (2 ^ 12).
  rewrite <- Z.shiftr_div_pow2, <- Z.shiftl_mul_pow2 by lia.
  apply Z.bits_inj'. intros n Hn. unfold u64.
  rewrite Z.land_spec, Z.shiftl_spec by lia.
  destruct (Z.ltb_spec n 12).
  - rewrite (Z.testbit_neg_r _ (n - 12)) by lia.
    rewrite Z.mod_pow2_bits_low by lia. rewrite Z.lnot_spec by lia.
    change 4095 with (Z.ones 12). rewrite Z.ones_spec_low by lia.
    apply andb_false_r.
  - rewrite Z.shiftr_spec by lia. replace (n - 12 + 12) with n by lia.
    destruct (Z.ltb_spec n 64).
    + rewrite Z.mod_pow2_bits_low by lia. rewrite Z.lnot_spec by lia.
      change 4095 with (Z.ones 12). rewrite Z.ones_spec_high by lia.
      apply andb_true_r.
    + replace a with (a mod 2 ^ 64) by (apply Z.mod_small; lia).
      rewrite Z.mod_pow2_bits_high by lia. done.
Qed.

(** Arithmetic on page addresses and page counts. *)
Ltac pages :=
  unfold PGSIZE in *; Z.to_euclidean_division_equations; lia.

Lemma PGROUNDDOWN_eq a : 0 <= a < 2 ^ 64 -> PGROUNDDOWN a = a / PGSIZE * PGSIZE.
Proof. apply lnot_mask_land. Qed.

Lemma PGROUNDUP_eq a :
  0 <= a -> a + PGSIZE <= 2 ^ 64 -> PGROUNDUP a = (a + PGSIZE - 1) / PGSIZE * PGSIZE.
Proof.
  intros H1 H2. unfold PGROUNDUP, PGSIZE in *.
  rewrite u64_id by lia. apply lnot_mask_land. lia.
Qed.

Lemma PGROUNDDOWN_aligned a :
  0 <= a < 2 ^ 64 -> a mod PGSIZE = 0 -> PGROUNDDOWN a = a.
Proof.
  intros H1 H2. rewrite PGROUNDDOWN_eq by done. unfold PGSIZE in *.
  pose proof (Z.div_mod a 4096). lia.
Qed.

Lemma PX_range level va : 0 <= PX level va < 512.
Proof.
  unfold PX, PXMASK. change 511 with (Z.ones 9). rewrite Z.land_ones by lia.
  apply Z.mod_pos_bound. lia.
Qed.

Lemma PX_eq level va :
  0 <= level -> PX level va = (va / 2 ^ (12 + 9 * level)) mod 512.
Proof.
  intros H. unfold PX, PXSHIFT, PGSHIFT, PXMASK. change 511 with (Z.ones 9).
  rewrite Z.land_ones, Z.shiftr_div_pow2 by lia. done.
Qed.

(** The three indices determine a page-aligned address below [MAXVA]. *)
Lemma PX_inj va va' :
  0 <= va < MAXVA -> 0 <= va' < MAXVA ->
  va mod PGSIZE = 0 -> va' mod PGSIZE = 0 ->
  PX 2 va = PX 2 va' -> PX 1 va = PX 1 va' -> PX 0 va = PX 0 va' -> va = va'.
Proof.
  rewrite !PX_eq by lia. unfold MAXVA, PGSIZE.
  change (2 ^ (12 + 9 * 2)) with (4096 * 512 * 512).
  change (2 ^ (12 + 9 * 1)) with (4096 * 512).
  change (2 ^ (12 + 9 * 0)) with 4096.
  change (Z.shiftl 1 (9 + 9 + 9 + 12 - 1)) with (4096 * 512 * 512 * 256).
  rewrite <- !Z.div_div by lia. intros Hv Hv' Ha Ha'.
  pose proof (Z.div_mod va 4096 ltac:(lia)).
  pose proof (Z.div_mod va' 4096 ltac:(lia)).
  set (p := va / 4096) in *. set (p' := va' / 4096) in *.
  pose proof (Z.div_mod p 512 ltac:(lia)). pose proof (Z.div_mod p' 512 ltac:(lia)).
  pose proof (Z.div_mod (p / 512) 512 ltac:(lia)).
  pose proof (Z.div_mod (p' / 512) 512 ltac:(lia)).
  assert (0 <= p / 512 / 512 < 512 /\ 0 <= p' / 512 / 512 < 512) as [B B'].
  { split; split; try (apply Z.div_pos; [apply Z.div_pos|]; lia);
      (apply Z.div_lt_upper_bound; [lia|]; apply Z.div_lt_upper_bound; lia). }
  rewrite (Z.mod_small (p / 512 / 512)), (Z.mod_small (p' / 512 / 512)) by lia.
  intros E2 E1 E0. lia.
Qed.

(** A page-table entry made from a page address and flags gives both back. *)
Lemma pte_val pa fl :
  0 <= pa < 2 ^ 56 -> pa mod PGSIZE = 0 -> 0 <= fl < 1024 ->
  Z.lor (PA2PTE pa) fl = pa / PGSIZE * 1024 + fl.
Proof.
  intros Hpa Hal Hfl. unfold PA2PTE, PGSIZE in *.
  rewrite Z.shiftr_div_pow2 by lia. change (2 ^ 12) with 4096.
  pose proof (Z.div_mod pa 4096 ltac:(lia)) as E.
  rewrite u64_id by (rewrite Z.shiftl_mul_pow2; lia).
  rewrite <- Z.add_nocarry_lor; [rewrite Z.shiftl_mul_pow2; lia|].
  apply Z.bits_inj'. intros n Hn.
  rewrite Z.land_spec, Z.shiftl_spec, Z.bits_0 by lia.
  destruct (Z.ltb_spec n 10).
  - by rewrite (Z.testbit_neg_r _ (n - 10)) by lia.
  - rewrite <- (Z.mod_small fl (2 ^ 10)) by lia.
    rewrite Z.mod_pow2_bits_high by lia. apply andb_false_r.
Qed.

Lemma PTE2PA_make pa fl :
  0 <= pa < 2 ^ 56 -> pa mod PGSIZE = 0 -> 0 <= fl < 1024 ->
  PTE2PA (Z.lor (PA2PTE pa) fl) = pa.
Proof.
  intros Hpa Hal Hfl. rewrite pte_val by done. unfold PTE2PA, PGSIZE in *.
  rewrite Z.shiftr_div_pow2, Z.shiftl_mul_pow2 by lia.
  change (2 ^ 10) with 1024. change (2 ^ 12) with 4096.
  rewrite Z.add_comm, Z.div_add, (Z.div_small fl) by lia.
  pose proof (Z.div_mod pa 4096 ltac:(lia)) as E.
  rewrite u64_id by lia. lia.
Qed.

Lemma PTE_FLAGS_make pa fl :
  0 <= pa < 2 ^ 56 -> pa mod PGSIZE = 0 -> 0 <= fl < 1024 ->
  PTE_FLAGS (Z.lor (PA2PTE pa) fl) = fl.
Proof.
  intros Hpa Hal Hfl. rewrite pte_val by done. unfold PTE_FLAGS.
  change 1023 with (Z.ones 10). rewrite Z.land_ones by lia. change (2 ^ 10) with 1024.
  rewrite Z.add_comm, Z.mod_add by lia. apply Z.mod_small. lia.
Qed.

Lemma land_small_flags x m : 0 <= m < 1024 -> Z.land x m = Z.land (PTE_FLAGS x) m.
Proof.
  intros Hm. unfold PTE_FLAGS. rewrite <- Z.land_assoc.
  f_equal. change 1023 with (Z.ones 10).
  rewrite Z.land_comm, Z.land_ones by lia. symmetry. apply Z.mod_small. lia.
Qed.
