(* ===== verification/State.v ===== *)
(** * Kernel state

    The C structs of the kernel headers as records, the global variables of
    the kernel as one record [kernel], and the monad in which the functions
    are written.

    A pointer into a statically allocated table ([proc], [ftable.file],
    [icache.inode], [bcache.buf]) is the index of the entry; a pointer into
    physical memory is its address. *)

From S2P Require Import Prelude Defs.

(** ** Names of locks and sleep channels

    A spinlock of the kernel is named by the variable it is part of.
    [L_buf i] and [L_inode i] are the spinlocks [lk] inside the sleep-locks
    of [bcache.buf[i]] and [icache.inode[i]]. *)

Inductive lockid :=
| L_kmem | L_pid | L_proc (p : nat) | L_bcache | L_buf (b : nat) | L_icache
| L_inode (i : nat) | L_log | L_ftable | L_pipe (pi : Z) | L_cons | L_uart_tx
| L_pr | L_ticks | L_vdisk.

(** The addresses passed to [sleep] and [wakeup]. *)
Inductive chan :=
| C_proc (p : nat)        (* a struct proc, in wait() *)
| C_log                   (* &log *)
| C_sleeplock (l : lockid) (* a struct sleeplock, named by its spinlock *)
| C_buf (b : nat)         (* a struct buf, in virtio_disk_rw() *)
| C_pipe_nread (pi : Z)   (* &pi->nread *)
| C_pipe_nwrite (pi : Z)  (* &pi->nwrite *)
| C_ticks                 (* &ticks *)
| C_cons_r                (* &cons.r *)
| C_uart_tx_r             (* &uart_tx_r *)
| C_disk_free.            (* &disk.free[0] *)

#[export] Instance lockid_eq_dec : EqDecision lockid.
Proof. solve_decision. Defined.
#[export] Instance chan_eq_dec : EqDecision chan.
Proof. solve_decision. Defined.

Definition lockid_code (l : lockid) : Z * Z :=
  match l with
  | L_kmem => (0, 0) | L_pid => (1, 0) | L_proc p => (2, Z.of_nat p)
  | L_bcache => (3, 0) | L_buf b => (4, Z.of_nat b) | L_icache => (5, 0)
  | L_inode i => (6, Z.of_nat i) | L_log => (7, 0) | L_ftable => (8, 0)
  | L_pipe pi => (9, pi) | L_cons => (10, 0) | L_uart_tx => (11, 0)
  | L_pr => (12, 0) | L_ticks => (13, 0) | L_vdisk => (14, 0)
  end.

Definition lockid_decode (c : Z * Z) : option lockid :=
  let (t, x) := c in
  match t with
  | 0 => Some L_kmem | 1 => Some L_pid | 2 => Some (L_proc (Z.to_nat x))
  | 3 => Some L_bcache | 4 => Some (L_buf (Z.to_nat x)) | 5 => Some L_icache
  | 6 => Some (L_inode (Z.to_nat x)) | 7 => Some L_log | 8 => Some L_ftable
  | 9 => Some (L_pipe x) | 10 => Some L_cons | 11 => Some L_uart_tx
  | 12 => Some L_pr | 13 => Some L_ticks | 14 => Some L_vdisk
  | _ => None
  end.

Lemma lockid_decode_code l : lockid_decode (lockid_code l) = Some l.
Proof. destruct l; simpl; rewrite ?Nat2Z.id; done. Qed.

#[export] Instance lockid_countable : Countable lockid :=
  inj_countable lockid_code lockid_decode lockid_decode_code.

(** ** Structs *)

#[local] Set Primitive Projections.

(** [struct spinlock] ([spinlock.h]); [lk_cpu] is the hart holding it. *)
Record spinlock := mk_spinlock {
  lk_locked : Z;
  lk_name : string;
  lk_cpu : option Z }.

(** [struct sleeplock] ([sleeplock.h]), less its spinlock, which is in the
    table of locks. *)
Record sleeplock := mk_sleeplock {
  sl_locked : Z;
  sl_name : string;
  sl_pid : Z }.

(** [struct context] ([proc.h]). *)
Record context := mk_context {
  ctx_ra : Z;
  ctx_sp : Z;
  ctx_s : list Z }.

(** [struct cpu] ([proc.h]) of the hart that runs the modelled thread. *)
Record cpu := mk_cpu {
  c_proc : option nat;
  c_noff : Z;
  c_intena : bool }.

Inductive procstate := UNUSED | SLEEPING | RUNNABLE | RUNNING | ZOMBIE.

#[export] Instance procstate_eq_dec : EqDecision procstate.
Proof. solve_decision. Defined.

(** [struct proc] ([proc.h]). *)
Record proc := mk_proc {
  p_state : procstate;
  p_parent : option nat;
  p_chan : option chan;
  p_killed : Z;
  p_xstate : Z;
  p_pid : Z;
  p_kstack : Z;
  p_sz : Z;
  p_pagetable : Z;
  p_trapframe : Z;
  p_context : context;
  p_ofile : list (option nat);
  p_cwd : option nat;
  p_name : list Z }.

(** [struct buf] ([buf.h]); [b_prev] and [b_next] are indices into
    [bcache.buf], where index [NBUF] is [bcache.head]. *)
Record buf := mk_buf {
  b_valid : Z;
  b_disk : Z;
  b_dev : Z;
  b_blockno : Z;
  b_lock : sleeplock;
  b_refcnt : Z;
  b_prev : nat;
  b_next : nat;
  b_data : list Z }.

(** [struct superblock] ([fs.h]). *)
Record superblock := mk_superblock {
  sb_magic : Z;
  sb_size : Z;
  sb_nblocks : Z;
  sb_ninodes : Z;
  sb_nlog : Z;
  sb_logstart : Z;
  sb_inodestart : Z;
  sb_bmapstart : Z }.

(** [struct logheader] and [struct log] ([log.c]). *)
Record logheader := mk_logheader {
  lh_n : Z;
  lh_block : list Z }.

Record log := mk_log {
  lg_start : Z;
  lg_size : Z;
  lg_outstanding : Z;
  lg_committing : Z;
  lg_dev : Z;
  lg_lh : logheader }.

(** [struct inode] ([file.h]). *)
Record inode := mk_inode {
  i_dev : Z;
  i_inum : Z;
  i_ref : Z;
  i_lock : sleeplock;
  i_valid : Z;
  i_type : Z;
  i_major : Z;
  i_minor : Z;
  i_nlink : Z;
  i_size : Z;
  i_addrs : list Z }.

(** [struct file] ([file.h]). *)
Inductive filetype := FD_NONE | FD_PIPE | FD_INODE | FD_DEVICE.

#[export] Instance filetype_eq_dec : EqDecision filetype.
Proof. solve_decision. Defined.

Record file := mk_file {
  f_type : filetype;
  f_ref : Z;
  f_readable : Z;
  f_writable : Z;
  f_pipe : Z;
  f_ip : option nat;
  f_off : Z;
  f_major : Z }.

(** [struct pipe] ([pipe.c]). *)
Record pipe := mk_pipe {
  pi_data : list Z;
  pi_nread : Z;
  pi_nwrite : Z;
  pi_readopen : Z;
  pi_writeopen : Z }.

(** [cons] of [console.c]. *)
Record cons_t := mk_cons {
  cs_buf : list Z;
  cs_r : Z;
  cs_w : Z;
  cs_e : Z }.

(** The transmit buffer of [uart.c], and the device registers it talks to:
    [ur_lsr] the values the following reads of LSR return, [ur_rhr] those of
    RHR, [ur_writes] the register writes made, newest first. *)
Record uart := mk_uart {
  ua_tx_buf : list Z;
  ua_tx_w : Z;
  ua_tx_r : Z;
  ur_lsr : list Z;
  ur_rhr : list Z;
  ur_writes : list (Z * Z) }.

(** What the address of a virtio descriptor points to: the header of the
    request on the stack of [virtio_disk_rw], the data of a buffer, or the
    status byte of [disk.info[i]]. *)
Inductive daddr :=
| D_null
| D_hdr (type sector : Z)
| D_data (b : nat)
| D_status (i : nat).

(** [struct VRingDesc] ([virtio.h]). *)
Record vring_desc := mk_desc {
  vd_addr : daddr;
  vd_len : Z;
  vd_flags : Z;
  vd_next : Z }.

(** [struct disk] ([virtio_disk.c]): descriptors, the avail ring and its
    index, the used ring and its index, the bookkeeping of the driver, and
    the device registers: the values reads return, and the writes made,
    newest first. *)
Record vdisk := mk_vdisk {
  vk_desc : list vring_desc;
  vk_avail_idx : Z;
  vk_avail : list Z;
  vk_used_id : Z;
  vk_used_elems : list Z;
  vk_free : list Z;
  vk_used_idx : Z;
  vk_info_b : list (option nat);
  vk_info_status : list Z;
  vk_regs : gmap Z Z;
  vk_writes : list (Z * Z) }.

(** [struct devsw] ([file.h]); the functions a driver puts there are those of
    [console.c]. *)
Inductive devfn := Consoleread | Consolewrite.
Record devsw := mk_devsw {
  dv_read : option devfn;
  dv_write : option devfn }.

(** The control registers of the running hart that [riscv.h] reads and
    writes; the SIE bit of [sstatus] is in [sync]. *)
Record csrs := mk_csrs {
  hr_sstatus : Z;
  hr_sepc : Z;
  hr_scause : Z;
  hr_stval : Z;
  hr_stvec : Z;
  hr_satp : Z;
  hr_sip : Z }.

(** The PLIC: the values the following reads of the claim register return,
    and the register writes made, newest first. *)
Record plic := mk_plic {
  pl_claims : list Z;
  pl_writes : list (Z * Z) }.

(** ** Parts of the kernel state *)

(** What the synchronisation code works on: the current hart ([tp], the SIE
    bit of [sstatus], its [struct cpu]), the spinlocks and the process
    table. *)
Record sync := mk_sync {
  sy_tp : Z;
  sy_sie : bool;
  sy_cpu : cpu;
  sy_locks : gmap lockid spinlock;
  sy_procs : list proc }.

(** Physical memory, [kmem.freelist] and [kernel_pagetable]. *)
Record memory := mk_memory {
  mm_ram : gmap Z Z;
  mm_freelist : Z;
  mm_kpt : Z }.

(** The disk: block contents, and the writes it has completed, oldest last. *)
Record disk := mk_disk {
  dk_blocks : gmap Z (list Z);
  dk_hist : list (Z * list Z) }.

(** The file system: disk, buffer cache ([NBUF] buffers, then the head),
    log, superblock and inode cache. *)
Record fsys := mk_fsys {
  fs_disk : disk;
  fs_bcache : list buf;
  fs_log : log;
  fs_sb : superblock;
  fs_icache : list inode }.

(** Open files, pipes and the device switch. *)
Record files := mk_files {
  fi_ftable : list file;
  fi_pipes : gmap Z pipe;
  fi_devsw : list devsw }.

(** Console, and the remaining globals: [ms_locking] is [pr.locking] of
    [printf.c], [ms_first] the static [first] of [forkret], [ms_started] the
    static [started] of [main.c]. *)
Record misc := mk_misc {
  ms_cons : cons_t;
  ms_uart : uart;
  ms_panicked : bool;
  ms_ticks : Z;
  ms_nextpid : Z;
  ms_initproc : option nat;
  ms_vd : vdisk;
  ms_hart : csrs;
  ms_plic : plic;
  ms_locking : Z;
  ms_first : Z;
  ms_started : Z }.

Record kernel := mk_kernel {
  k_sy : sync;
  k_mm : memory;
  k_fs : fsys;
  k_fi : files;
  k_ms : misc }.

(** ** Field updates *)

Definition set_sy (s : sync) (k : kernel) : kernel :=
  mk_kernel s (k_mm k) (k_fs k) (k_fi k) (k_ms k).
Definition set_mm (m : memory) (k : kernel) : kernel :=
  mk_kernel (k_sy k) m (k_fs k) (k_fi k) (k_ms k).
Definition set_fs (f : fsys) (k : kernel) : kernel :=
  mk_kernel (k_sy k) (k_mm k) f (k_fi k) (k_ms k).
Definition set_fi (f : files) (k : kernel) : kernel :=
  mk_kernel (k_sy k) (k_mm k) (k_fs k) f (k_ms k).
Definition set_ms (m : misc) (k : kernel) : kernel :=
  mk_kernel (k_sy k) (k_mm k) (k_fs k) (k_fi k) m.

Definition set_sie (b : bool) (s : sync) : sync :=
  mk_sync (sy_tp s) b (sy_cpu s) (sy_locks s) (sy_procs s).
Definition set_cpu (c : cpu) (s : sync) : sync :=
  mk_sync (sy_tp s) (sy_sie s) c (sy_locks s) (sy_procs s).
Definition set_locks (l : gmap lockid spinlock) (s : sync) : sync :=
  mk_sync (sy_tp s) (sy_sie s) (sy_cpu s) l (sy_procs s).
Definition set_procs (l : list proc) (s : sync) : sync :=
  mk_sync (sy_tp s) (sy_sie s) (sy_cpu s) (sy_locks s) l.

Definition set_c_proc (p : option nat) (c : cpu) : cpu :=
  mk_cpu p (c_noff c) (c_intena c).
Definition set_c_noff (n : Z) (c : cpu) : cpu :=
  mk_cpu (c_proc c) n (c_intena c).
Definition set_c_intena (b : bool) (c : cpu) : cpu :=
  mk_cpu (c_proc c) (c_noff c) b.

Definition set_ram (r : gmap Z Z) (m : memory) : memory :=
  mk_memory r (mm_freelist m) (mm_kpt m).
Definition set_freelist (a : Z) (m : memory) : memory :=
  mk_memory (mm_ram m) a (mm_kpt m).
Definition set_kpt (a : Z) (m : memory) : memory :=
  mk_memory (mm_ram m) (mm_freelist m) a.

Definition set_disk (d : disk) (f : fsys) : fsys :=
  mk_fsys d (fs_bcache f) (fs_log f) (fs_sb f) (fs_icache f).
Definition set_bcache (b : list buf) (f : fsys) : fsys :=
  mk_fsys (fs_disk f) b (fs_log f) (fs_sb f) (fs_icache f).
Definition set_log (l : log) (f : fsys) : fsys :=
  mk_fsys (fs_disk f) (fs_bcache f) l (fs_sb f) (fs_icache f).
Definition set_sb (s : superblock) (f : fsys) : fsys :=
  mk_fsys (fs_disk f) (fs_bcache f) (fs_log f) s (fs_icache f).
Definition set_icache (l : list inode) (f : fsys) : fsys :=
  mk_fsys (fs_disk f) (fs_bcache f) (fs_log f) (fs_sb f) l.

Definition set_ftable (x : list file) (f : files) : files :=
  mk_files x (fi_pipes f) (fi_devsw f).
Definition set_pipes (x : gmap Z pipe) (f : files) : files :=
  mk_files (fi_ftable f) x (fi_devsw f).
Definition set_devsw (x : list devsw) (f : files) : files :=
  mk_files (fi_ftable f) (fi_pipes f) x.

Definition set_cons (x : cons_t) (m : misc) : misc :=
  mk_misc x (ms_uart m) (ms_panicked m) (ms_ticks m) (ms_nextpid m)
    (ms_initproc m) (ms_vd m) (ms_hart m) (ms_plic m) (ms_locking m) (ms_first
    m) (ms_started m).
Definition set_uart (x : uart) (m : misc) : misc :=
  mk_misc (ms_cons m) x (ms_panicked m) (ms_ticks m) (ms_nextpid m)
    (ms_initproc m) (ms_vd m) (ms_hart m) (ms_plic m) (ms_locking m) (ms_first
    m) (ms_started m).
Definition set_panicked (x : bool) (m : misc) : misc :=
  mk_misc (ms_cons m) (ms_uart m) x (ms_ticks m) (ms_nextpid m) (ms_initproc
    m) (ms_vd m) (ms_hart m) (ms_plic m) (ms_locking m) (ms_first m)
    (ms_started m).
Definition set_ticks (x : Z) (m : misc) : misc :=
  mk_misc (ms_cons m) (ms_uart m) (ms_panicked m) x (ms_nextpid m)
    (ms_initproc m) (ms_vd m) (ms_hart m) (ms_plic m) (ms_locking m) (ms_first
    m) (ms_started m).
Definition set_nextpid (x : Z) (m : misc) : misc :=
  mk_misc (ms_cons m) (ms_uart m) (ms_panicked m) (ms_ticks m) x (ms_initproc
    m) (ms_vd m) (ms_hart m) (ms_plic m) (ms_locking m) (ms_first m)
    (ms_started m).
Definition set_initproc (x : option nat) (m : misc) : misc :=
  mk_misc (ms_cons m) (ms_uart m) (ms_panicked m) (ms_ticks m) (ms_nextpid m)
    x (ms_vd m) (ms_hart m) (ms_plic m) (ms_locking m) (ms_first m)
    (ms_started m).
Definition set_vd (x : vdisk) (m : misc) : misc :=
  mk_misc (ms_cons m) (ms_uart m) (ms_panicked m) (ms_ticks m) (ms_nextpid m)
    (ms_initproc m) x (ms_hart m) (ms_plic m) (ms_locking m) (ms_first m)
    (ms_started m).
Definition set_hart (x : csrs) (m : misc) : misc :=
  mk_misc (ms_cons m) (ms_uart m) (ms_panicked m) (ms_ticks m) (ms_nextpid m)
    (ms_initproc m) (ms_vd m) x (ms_plic m) (ms_locking m) (ms_first m)
    (ms_started m).
Definition set_plic (x : plic) (m : misc) : misc :=
  mk_misc (ms_cons m) (ms_uart m) (ms_panicked m) (ms_ticks m) (ms_nextpid m)
    (ms_initproc m) (ms_vd m) (ms_hart m) x (ms_locking m) (ms_first m)
    (ms_started m).
Definition set_locking (x : Z) (m : misc) : misc :=
  mk_misc (ms_cons m) (ms_uart m) (ms_panicked m) (ms_ticks m) (ms_nextpid m)
    (ms_initproc m) (ms_vd m) (ms_hart m) (ms_plic m) x (ms_first m)
    (ms_started m).
Definition set_first (x : Z) (m : misc) : misc :=
  mk_misc (ms_cons m) (ms_uart m) (ms_panicked m) (ms_ticks m) (ms_nextpid m)
    (ms_initproc m) (ms_vd m) (ms_hart m) (ms_plic m) (ms_locking m) x
    (ms_started m).
Definition set_started (x : Z) (m : misc) : misc :=
  mk_misc (ms_cons m) (ms_uart m) (ms_panicked m) (ms_ticks m) (ms_nextpid m)
    (ms_initproc m) (ms_vd m) (ms_hart m) (ms_plic m) (ms_locking m) (ms_first
    m) x.

Definition set_hr_sstatus (x : Z) (h : csrs) : csrs :=
  mk_csrs x (hr_sepc h) (hr_scause h) (hr_stval h) (hr_stvec h) (hr_satp h)
    (hr_sip h).
Definition set_hr_sepc (x : Z) (h : csrs) : csrs :=
  mk_csrs (hr_sstatus h) x (hr_scause h) (hr_stval h) (hr_stvec h) (hr_satp h)
    (hr_sip h).
Definition set_hr_scause (x : Z) (h : csrs) : csrs :=
  mk_csrs (hr_sstatus h) (hr_sepc h) x (hr_stval h) (hr_stvec h) (hr_satp h)
    (hr_sip h).
Definition set_hr_stval (x : Z) (h : csrs) : csrs :=
  mk_csrs (hr_sstatus h) (hr_sepc h) (hr_scause h) x (hr_stvec h) (hr_satp h)
    (hr_sip h).
Definition set_hr_stvec (x : Z) (h : csrs) : csrs :=
  mk_csrs (hr_sstatus h) (hr_sepc h) (hr_scause h) (hr_stval h) x (hr_satp h)
    (hr_sip h).
Definition set_hr_satp (x : Z) (h : csrs) : csrs :=
  mk_csrs (hr_sstatus h) (hr_sepc h) (hr_scause h) (hr_stval h) (hr_stvec h) x
    (hr_sip h).
Definition set_hr_sip (x : Z) (h : csrs) : csrs :=
  mk_csrs (hr_sstatus h) (hr_sepc h) (hr_scause h) (hr_stval h) (hr_stvec h)
    (hr_satp h) x.

Definition set_pl_claims (x : list Z) (p : plic) : plic :=
  mk_plic x (pl_writes p).
Definition set_pl_writes (x : list (Z * Z)) (p : plic) : plic :=
  mk_plic (pl_claims p) x.

Definition set_vk_desc (x : list vring_desc) (v : vdisk) : vdisk :=
  mk_vdisk x (vk_avail_idx v) (vk_avail v) (vk_used_id v) (vk_used_elems v)
    (vk_free v) (vk_used_idx v) (vk_info_b v) (vk_info_status v) (vk_regs v)
    (vk_writes v).
Definition set_vk_avail_idx (x : Z) (v : vdisk) : vdisk :=
  mk_vdisk (vk_desc v) x (vk_avail v) (vk_used_id v) (vk_used_elems v)
    (vk_free v) (vk_used_idx v) (vk_info_b v) (vk_info_status v) (vk_regs v)
    (vk_writes v).
Definition set_vk_avail (x : list Z) (v : vdisk) : vdisk :=
  mk_vdisk (vk_desc v) (vk_avail_idx v) x (vk_used_id v) (vk_used_elems v)
    (vk_free v) (vk_used_idx v) (vk_info_b v) (vk_info_status v) (vk_regs v)
    (vk_writes v).
Definition set_vk_used_id (x : Z) (v : vdisk) : vdisk :=
  mk_vdisk (vk_desc v) (vk_avail_idx v) (vk_avail v) x (vk_used_elems v)
    (vk_free v) (vk_used_idx v) (vk_info_b v) (vk_info_status v) (vk_regs v)
    (vk_writes v).
Definition set_vk_used_elems (x : list Z) (v : vdisk) : vdisk :=
  mk_vdisk (vk_desc v) (vk_avail_idx v) (vk_avail v) (vk_used_id v) x
    (vk_free v) (vk_used_idx v) (vk_info_b v) (vk_info_status v) (vk_regs v)
    (vk_writes v).
Definition set_vk_free (x : list Z) (v : vdisk) : vdisk :=
  mk_vdisk (vk_desc v) (vk_avail_idx v) (vk_avail v) (vk_used_id v)
    (vk_used_elems v) x (vk_used_idx v) (vk_info_b v) (vk_info_status v)
    (vk_regs v) (vk_writes v).
Definition set_vk_used_idx (x : Z) (v : vdisk) : vdisk :=
  mk_vdisk (vk_desc v) (vk_avail_idx v) (vk_avail v) (vk_used_id v)
    (vk_used_elems v) (vk_free v) x (vk_info_b v) (vk_info_status v) (vk_regs
    v) (vk_writes v).
Definition set_vk_info_b (x : list (option nat)) (v : vdisk) : vdisk :=
  mk_vdisk (vk_desc v) (vk_avail_idx v) (vk_avail v) (vk_used_id v)
    (vk_used_elems v) (vk_free v) (vk_used_idx v) x (vk_info_status v)
    (vk_regs v) (vk_writes v).
Definition set_vk_info_status (x : list Z) (v : vdisk) : vdisk :=
  mk_vdisk (vk_desc v) (vk_avail_idx v) (vk_avail v) (vk_used_id v)
    (vk_used_elems v) (vk_free v) (vk_used_idx v) (vk_info_b v) x (vk_regs v)
    (vk_writes v).
Definition set_vk_regs (x : gmap Z Z) (v : vdisk) : vdisk :=
  mk_vdisk (vk_desc v) (vk_avail_idx v) (vk_avail v) (vk_used_id v)
    (vk_used_elems v) (vk_free v) (vk_used_idx v) (vk_info_b v)
    (vk_info_status v) x (vk_writes v).
Definition set_vk_writes (x : list (Z * Z)) (v : vdisk) : vdisk :=
  mk_vdisk (vk_desc v) (vk_avail_idx v) (vk_avail v) (vk_used_id v)
    (vk_used_elems v) (vk_free v) (vk_used_idx v) (vk_info_b v)
    (vk_info_status v) (vk_regs v) x.

Definition set_sl_locked (x : Z) (s : sleeplock) : sleeplock :=
  mk_sleeplock x (sl_name s) (sl_pid s).
Definition set_sl_name (x : string) (s : sleeplock) : sleeplock :=
  mk_sleeplock (sl_locked s) x (sl_pid s).
Definition set_sl_pid (x : Z) (s : sleeplock) : sleeplock :=
  mk_sleeplock (sl_locked s) (sl_name s) x.

Definition set_p_state (x : procstate) (p : proc) : proc :=
  mk_proc x (p_parent p) (p_chan p) (p_killed p) (p_xstate p) (p_pid p)
    (p_kstack p) (p_sz p) (p_pagetable p) (p_trapframe p) (p_context p)
    (p_ofile p) (p_cwd p) (p_name p).
Definition set_p_parent (x : option nat) (p : proc) : proc :=
  mk_proc (p_state p) x (p_chan p) (p_killed p) (p_xstate p) (p_pid p)
    (p_kstack p) (p_sz p) (p_pagetable p) (p_trapframe p) (p_context p)
    (p_ofile p) (p_cwd p) (p_name p).
Definition set_p_chan (x : option chan) (p : proc) : proc :=
  mk_proc (p_state p) (p_parent p) x (p_killed p) (p_xstate p) (p_pid p)
    (p_kstack p) (p_sz p) (p_pagetable p) (p_trapframe p) (p_context p)
    (p_ofile p) (p_cwd p) (p_name p).
Definition set_p_killed (x : Z) (p : proc) : proc :=
  mk_proc (p_state p) (p_parent p) (p_chan p) x (p_xstate p) (p_pid p)
    (p_kstack p) (p_sz p) (p_pagetable p) (p_trapframe p) (p_context p)
    (p_ofile p) (p_cwd p) (p_name p).
Definition set_p_xstate (x : Z) (p : proc) : proc :=
  mk_proc (p_state p) (p_parent p) (p_chan p) (p_killed p) x (p_pid p)
    (p_kstack p) (p_sz p) (p_pagetable p) (p_trapframe p) (p_context p)
    (p_ofile p) (p_cwd p) (p_name p).
Definition set_p_pid (x : Z) (p : proc) : proc :=
  mk_proc (p_state p) (p_parent p) (p_chan p) (p_killed p) (p_xstate p) x
    (p_kstack p) (p_sz p) (p_pagetable p) (p_trapframe p) (p_context p)
    (p_ofile p) (p_cwd p) (p_name p).
Definition set_p_kstack (x : Z) (p : proc) : proc :=
  mk_proc (p_state p) (p_parent p) (p_chan p) (p_killed p) (p_xstate p)
    (p_pid p) x (p_sz p) (p_pagetable p) (p_trapframe p) (p_context p)
    (p_ofile p) (p_cwd p) (p_name p).
Definition set_p_sz (x : Z) (p : proc) : proc :=
  mk_proc (p_state p) (p_parent p) (p_chan p) (p_killed p) (p_xstate p)
    (p_pid p) (p_kstack p) x (p_pagetable p) (p_trapframe p) (p_context p)
    (p_ofile p) (p_cwd p) (p_name p).
Definition set_p_pagetable (x : Z) (p : proc) : proc :=
  mk_proc (p_state p) (p_parent p) (p_chan p) (p_killed p) (p_xstate p)
    (p_pid p) (p_kstack p) (p_sz p) x (p_trapframe p) (p_context p) (p_ofile
    p) (p_cwd p) (p_name p).
Definition set_p_trapframe (x : Z) (p : proc) : proc :=
  mk_proc (p_state p) (p_parent p) (p_chan p) (p_killed p) (p_xstate p)
    (p_pid p) (p_kstack p) (p_sz p) (p_pagetable p) x (p_context p) (p_ofile
    p) (p_cwd p) (p_name p).
Definition set_p_context (x : context) (p : proc) : proc :=
  mk_proc (p_state p) (p_parent p) (p_chan p) (p_killed p) (p_xstate p)
    (p_pid p) (p_kstack p) (p_sz p) (p_pagetable p) (p_trapframe p) x
    (p_ofile p) (p_cwd p) (p_name p).
Definition set_p_ofile (x : list (option nat)) (p : proc) : proc :=
  mk_proc (p_state p) (p_parent p) (p_chan p) (p_killed p) (p_xstate p)
    (p_pid p) (p_kstack p) (p_sz p) (p_pagetable p) (p_trapframe p)
    (p_context p) x (p_cwd p) (p_name p).
Definition set_p_cwd (x : option nat) (p : proc) : proc :=
  mk_proc (p_state p) (p_parent p) (p_chan p) (p_killed p) (p_xstate p)
    (p_pid p) (p_kstack p) (p_sz p) (p_pagetable p) (p_trapframe p)
    (p_context p) (p_ofile p) x (p_name p).
Definition set_p_name (x : list Z) (p : proc) : proc :=
  mk_proc (p_state p) (p_parent p) (p_chan p) (p_killed p) (p_xstate p)
    (p_pid p) (p_kstack p) (p_sz p) (p_pagetable p) (p_trapframe p)
    (p_context p) (p_ofile p) (p_cwd p) x.

Definition set_b_valid (x : Z) (b : buf) : buf :=
  mk_buf x (b_disk b) (b_dev b) (b_blockno b) (b_lock b) (b_refcnt b)
    (b_prev b) (b_next b) (b_data b).
Definition set_b_disk (x : Z) (b : buf) : buf :=
  mk_buf (b_valid b) x (b_dev b) (b_blockno b) (b_lock b) (b_refcnt b)
    (b_prev b) (b_next b) (b_data b).
Definition set_b_dev (x : Z) (b : buf) : buf :=
  mk_buf (b_valid b) (b_disk b) x (b_blockno b) (b_lock b) (b_refcnt b)
    (b_prev b) (b_next b) (b_data b).
Definition set_b_blockno (x : Z) (b : buf) : buf :=
  mk_buf (b_valid b) (b_disk b) (b_dev b) x (b_lock b) (b_refcnt b) (b_prev
    b) (b_next b) (b_data b).
Definition set_b_lock (x : sleeplock) (b : buf) : buf :=
  mk_buf (b_valid b) (b_disk b) (b_dev b) (b_blockno b) x (b_refcnt b)
    (b_prev b) (b_next b) (b_data b).
Definition set_b_refcnt (x : Z) (b : buf) : buf :=
  mk_buf (b_valid b) (b_disk b) (b_dev b) (b_blockno b) (b_lock b) x (b_prev
    b) (b_next b) (b_data b).
Definition set_b_prev (x : nat) (b : buf) : buf :=
  mk_buf (b_valid b) (b_disk b) (b_dev b) (b_blockno b) (b_lock b) (b_refcnt
    b) x (b_next b) (b_data b).
Definition set_b_next (x : nat) (b : buf) : buf :=
  mk_buf (b_valid b) (b_disk b) (b_dev b) (b_blockno b) (b_lock b) (b_refcnt
    b) (b_prev b) x (b_data b).
Definition set_b_data (x : list Z) (b : buf) : buf :=
  mk_buf (b_valid b) (b_disk b) (b_dev b) (b_blockno b) (b_lock b) (b_refcnt
    b) (b_prev b) (b_next b) x.

Definition set_lh_n (x : Z) (h : logheader) : logheader :=
  mk_logheader x (lh_block h).
Definition set_lh_block (x : list Z) (h : logheader) : logheader :=
  mk_logheader (lh_n h) x.

Definition set_lg_start (x : Z) (l : log) : log :=
  mk_log x (lg_size l) (lg_outstanding l) (lg_committing l) (lg_dev l)
    (lg_lh l).
Definition set_lg_size (x : Z) (l : log) : log :=
  mk_log (lg_start l) x (lg_outstanding l) (lg_committing l) (lg_dev l)
    (lg_lh l).
Definition set_lg_outstanding (x : Z) (l : log) : log :=
  mk_log (lg_start l) (lg_size l) x (lg_committing l) (lg_dev l) (lg_lh l).
Definition set_lg_committing (x : Z) (l : log) : log :=
  mk_log (lg_start l) (lg_size l) (lg_outstanding l) x (lg_dev l) (lg_lh l).
Definition set_lg_dev (x : Z) (l : log) : log :=
  mk_log (lg_start l) (lg_size l) (lg_outstanding l) (lg_committing l) x
    (lg_lh l).
Definition set_lg_lh (x : logheader) (l : log) : log :=
  mk_log (lg_start l) (lg_size l) (lg_outstanding l) (lg_committing l)
    (lg_dev l) x.

Definition set_i_dev (x : Z) (i : inode) : inode :=
  mk_inode x (i_inum i) (i_ref i) (i_lock i) (i_valid i) (i_type i) (i_major
    i) (i_minor i) (i_nlink i) (i_size i) (i_addrs i).
Definition set_i_inum (x : Z) (i : inode) : inode :=
  mk_inode (i_dev i) x (i_ref i) (i_lock i) (i_valid i) (i_type i) (i_major
    i) (i_minor i) (i_nlink i) (i_size i) (i_addrs i).
Definition set_i_ref (x : Z) (i : inode) : inode :=
  mk_inode (i_dev i) (i_inum i) x (i_lock i) (i_valid i) (i_type i) (i_major
    i) (i_minor i) (i_nlink i) (i_size i) (i_addrs i).
Definition set_i_lock (x : sleeplock) (i : inode) : inode :=
  mk_inode (i_dev i) (i_inum i) (i_ref i) x (i_valid i) (i_type i) (i_major
    i) (i_minor i) (i_nlink i) (i_size i) (i_addrs i).
Definition set_i_valid (x : Z) (i : inode) : inode :=
  mk_inode (i_dev i) (i_inum i) (i_ref i) (i_lock i) x (i_type i) (i_major
    i) (i_minor i) (i_nlink i) (i_size i) (i_addrs i).
Definition set_i_type (x : Z) (i : inode) : inode :=
  mk_inode (i_dev i) (i_inum i) (i_ref i) (i_lock i) (i_valid i) x (i_major
    i) (i_minor i) (i_nlink i) (i_size i) (i_addrs i).
Definition set_i_major (x : Z) (i : inode) : inode :=
  mk_inode (i_dev i) (i_inum i) (i_ref i) (i_lock i) (i_valid i) (i_type i)
    x (i_minor i) (i_nlink i) (i_size i) (i_addrs i).
Definition set_i_minor (x : Z) (i : inode) : inode :=
  mk_inode (i_dev i) (i_inum i) (i_ref i) (i_lock i) (i_valid i) (i_type i)
    (i_major i) x (i_nlink i) (i_size i) (i_addrs i).
Definition set_i_nlink (x : Z) (i : inode) : inode :=
  mk_inode (i_dev i) (i_inum i) (i_ref i) (i_lock i) (i_valid i) (i_type i)
    (i_major i) (i_minor i) x (i_size i) (i_addrs i).
Definition set_i_size (x : Z) (i : inode) : inode :=
  mk_inode (i_dev i) (i_inum i) (i_ref i) (i_lock i) (i_valid i) (i_type i)
    (i_major i) (i_minor i) (i_nlink i) x (i_addrs i).
Definition set_i_addrs (x : list Z) (i : inode) : inode :=
  mk_inode (i_dev i) (i_inum i) (i_ref i) (i_lock i) (i_valid i) (i_type i)
    (i_major i) (i_minor i) (i_nlink i) (i_size i) x.

Definition set_f_type (x : filetype) (f : file) : file :=
  mk_file x (f_ref f) (f_readable f) (f_writable f) (f_pipe f) (f_ip f)
    (f_off f) (f_major f).
Definition set_f_ref (x : Z) (f : file) : file :=
  mk_file (f_type f) x (f_readable f) (f_writable f) (f_pipe f) (f_ip f)
    (f_off f) (f_major f).
Definition set_f_readable (x : Z) (f : file) : file :=
  mk_file (f_type f) (f_ref f) x (f_writable f) (f_pipe f) (f_ip f) (f_off
    f) (f_major f).
Definition set_f_writable (x : Z) (f : file) : file :=
  mk_file (f_type f) (f_ref f) (f_readable f) x (f_pipe f) (f_ip f) (f_off
    f) (f_major f).
Definition set_f_pipe (x : Z) (f : file) : file :=
  mk_file (f_type f) (f_ref f) (f_readable f) (f_writable f) x (f_ip f)
    (f_off f) (f_major f).
Definition set_f_ip (x : option nat) (f : file) : file :=
  mk_file (f_type f) (f_ref f) (f_readable f) (f_writable f) (f_pipe f) x
    (f_off f) (f_major f).
Definition set_f_off (x : Z) (f : file) : file :=
  mk_file (f_type f) (f_ref f) (f_readable f) (f_writable f) (f_pipe f)
    (f_ip f) x (f_major f).
Definition set_f_major (x : Z) (f : file) : file :=
  mk_file (f_type f) (f_ref f) (f_readable f) (f_writable f) (f_pipe f)
    (f_ip f) (f_off f) x.

Definition set_pi_data (x : list Z) (p : pipe) : pipe :=
  mk_pipe x (pi_nread p) (pi_nwrite p) (pi_readopen p) (pi_writeopen p).
Definition set_pi_nread (x : Z) (p : pipe) : pipe :=
  mk_pipe (pi_data p) x (pi_nwrite p) (pi_readopen p) (pi_writeopen p).
Definition set_pi_nwrite (x : Z) (p : pipe) : pipe :=
  mk_pipe (pi_data p) (pi_nread p) x (pi_readopen p) (pi_writeopen p).
Definition set_pi_readopen (x : Z) (p : pipe) : pipe :=
  mk_pipe (pi_data p) (pi_nread p) (pi_nwrite p) x (pi_writeopen p).
Definition set_pi_writeopen (x : Z) (p : pipe) : pipe :=
  mk_pipe (pi_data p) (pi_nread p) (pi_nwrite p) (pi_readopen p) x.

Definition set_cs_buf (x : list Z) (c : cons_t) : cons_t :=
  mk_cons x (cs_r c) (cs_w c) (cs_e c).
Definition set_cs_r (x : Z) (c : cons_t) : cons_t :=
  mk_cons (cs_buf c) x (cs_w c) (cs_e c).
Definition set_cs_w (x : Z) (c : cons_t) : cons_t :=
  mk_cons (cs_buf c) (cs_r c) x (cs_e c).
Definition set_cs_e (x : Z) (c : cons_t) : cons_t :=
  mk_cons (cs_buf c) (cs_r c) (cs_w c) x.

Definition set_ua_tx_buf (x : list Z) (u : uart) : uart :=
  mk_uart x (ua_tx_w u) (ua_tx_r u) (ur_lsr u) (ur_rhr u) (ur_writes u).
Definition set_ua_tx_w (x : Z) (u : uart) : uart :=
  mk_uart (ua_tx_buf u) x (ua_tx_r u) (ur_lsr u) (ur_rhr u) (ur_writes u).
Definition set_ua_tx_r (x : Z) (u : uart) : uart :=
  mk_uart (ua_tx_buf u) (ua_tx_w u) x (ur_lsr u) (ur_rhr u) (ur_writes u).
Definition set_ur_lsr (x : list Z) (u : uart) : uart :=
  mk_uart (ua_tx_buf u) (ua_tx_w u) (ua_tx_r u) x (ur_rhr u) (ur_writes u).
Definition set_ur_rhr (x : list Z) (u : uart) : uart :=
  mk_uart (ua_tx_buf u) (ua_tx_w u) (ua_tx_r u) (ur_lsr u) x (ur_writes u).
Definition set_ur_writes (x : list (Z * Z)) (u : uart) : uart :=
  mk_uart (ua_tx_buf u) (ua_tx_w u) (ua_tx_r u) (ur_lsr u) (ur_rhr u) x.

#[local] Unset Primitive Projections.

(** ** The kernel monad

    A function of the kernel runs on the kernel state and may return, panic,
    or lose the processor.  [env] holds what the rest of the system does at
    the points where the running thread waits: each [swtch] to the scheduler
    and each failed attempt on a spinlock consumes one element, the state
    change made before the thread runs again.  When no element is left the
    thread stays off the processor ([Off]) or keeps spinning ([Spin]). *)

Definition env := list (kernel -> kernel).

Inductive outcome (A : Type) :=
| Ret (a : A) (e : env) (k : kernel)
| Panic (msg : string) (k : kernel)
| Off (k : kernel)
| Spin (k : kernel)
| Loop (k : kernel).
Arguments Ret {A} _ _ _.
Arguments Panic {A} _ _.
Arguments Off {A} _.
Arguments Spin {A} _.
Arguments Loop {A} _.

Definition M (A : Type) := env -> kernel -> outcome A.

Definition ret {A} (a : A) : M A := fun e k => Ret a e k.

Definition bind {A B} (m : M A) (f : A -> M B) : M B := fun e k =>
  match m e k with
  | Ret a e' k' => f a e' k'
  | Panic s k' => Panic s k'
  | Off k' => Off k'
  | Spin k' => Spin k'
  | Loop k' => Loop k'
  end.

Notation "'let*' x := m 'in' f" := (bind m (fun x => f))
  (at level 10, x pattern, m at level 100, f at level 200,
   format "'[v' 'let*'  x  :=  m  'in' '/' f ']'") : kernel_scope.
Notation "m ;; f" := (bind m (fun _ => f))
  (at level 100, f at level 200, right associativity,
   format "'[v' m  ;; '/' f ']'") : kernel_scope.
Open Scope kernel_scope.
Bind Scope kernel_scope with M.

(** [panic] of [printf.c] never returns. *)
Definition panic {A} (msg : string) : M A := fun e k => Panic msg k.

(** Behaviour C leaves undefined: the model stops. *)
Definition undefined {A} : M A := panic "undefined behaviour".

(** Read and change the state. *)
Definition gets {A} (f : kernel -> A) : M A := fun e k => Ret (f k) e k.
Definition modify (f : kernel -> kernel) : M unit := fun e k => Ret tt e (f k).

(** [swtch] to the scheduler, until the scheduler switches back. *)
Definition swtch_out : M unit := fun e k =>
  match e with
  | [] => Off k
  | f :: e => Ret tt e (f k)
  end.

(** [if(b) m] *)
Definition when (b : bool) (m : M unit) : M unit := if b then m else ret tt.

(** A [for] loop over [l] whose body may leave the loop with a result
    ([return], [goto] or [break] in the C code). *)
Fixpoint for_each {A R} (l : list A) (body : A -> M (option R)) : M (option R) :=
  match l with
  | [] => ret None
  | a :: l =>
      let* r := body a in
      match r with
      | Some r => ret (Some r)
      | None => for_each l body
      end
  end.

(** The same without early exit. *)
Fixpoint for_all {A} (l : list A) (body : A -> M unit) : M unit :=
  match l with
  | [] => ret tt
  | a :: l => body a ;; for_all l body
  end.

(** A loop that runs at most [n] times; [body] returns [Some r] to leave it. *)
Fixpoint loop {A R} (n : nat) (body : A -> M (A + R)) (a : A) : M R :=
  match n with
  | O => fun e k => Loop k
  | S n =>
      let* r := body a in
      match r with
      | inl a => loop n body a
      | inr r => ret r
      end
  end.

(** A loop each of whose iterations waits: it runs until the environment is
    used up. *)
Definition wait_loop {A R} (body : A -> M (A + R)) (a : A) : M R :=
  fun e k => loop (S (length e)) body a e k.

(** Reduce field accesses and field updates, and nothing else. *)
Ltac kproj_in_goal := cbn [
    lk_locked lk_name lk_cpu sl_locked sl_name sl_pid ctx_ra ctx_sp ctx_s
    c_proc c_noff c_intena p_state p_parent p_chan p_killed p_xstate p_pid
    p_kstack p_sz p_pagetable p_trapframe p_context p_ofile p_cwd p_name
    b_valid b_disk b_dev b_blockno b_lock b_refcnt b_prev b_next b_data
    sb_magic sb_size sb_nblocks sb_ninodes sb_nlog sb_logstart
    sb_inodestart sb_bmapstart lh_n lh_block lg_start lg_size
    lg_outstanding lg_committing lg_dev lg_lh i_dev i_inum i_ref i_lock
    i_valid i_type i_major i_minor i_nlink i_size i_addrs f_type f_ref
    f_readable f_writable f_pipe f_ip f_off f_major pi_data pi_nread
    pi_nwrite pi_readopen pi_writeopen cs_buf cs_r cs_w cs_e ua_tx_buf
    ua_tx_w ua_tx_r ur_lsr ur_rhr ur_writes sy_tp sy_sie sy_cpu sy_locks
    sy_procs mm_ram mm_freelist mm_kpt dk_blocks dk_hist fs_disk fs_bcache
    fs_log fs_sb fs_icache fi_ftable fi_pipes ms_cons ms_uart ms_panicked
    vd_addr vd_len vd_flags vd_next vk_desc vk_avail_idx vk_avail vk_used_id
    vk_used_elems vk_free vk_used_idx vk_info_b vk_info_status vk_regs
    vk_writes set_vk_desc set_vk_avail_idx set_vk_avail set_vk_used_id
    set_vk_used_elems set_vk_free set_vk_used_idx set_vk_info_b
    set_vk_info_status set_vk_regs set_vk_writes ms_vd set_vd
    ms_ticks ms_nextpid ms_initproc k_sy k_mm k_fs k_fi k_ms set_sy set_mm
    set_fs set_fi set_ms set_sie set_cpu set_locks set_procs set_c_proc
    set_c_noff set_c_intena set_ram set_freelist set_kpt set_disk
    set_bcache set_log set_sb set_icache set_ftable set_pipes set_cons
    set_uart set_panicked set_ticks set_nextpid set_initproc set_sl_locked
    set_sl_name set_sl_pid set_p_state set_p_parent set_p_chan
    set_p_killed set_p_xstate set_p_pid set_p_kstack set_p_sz
    set_p_pagetable set_p_trapframe set_p_context set_p_ofile set_p_cwd
    set_p_name set_b_valid set_b_disk set_b_dev set_b_blockno set_b_lock
    set_b_refcnt set_b_prev set_b_next set_b_data set_lh_n set_lh_block
    set_lg_start set_lg_size set_lg_outstanding set_lg_committing
    set_lg_dev set_lg_lh set_i_dev set_i_inum set_i_ref set_i_lock
    set_i_valid set_i_type set_i_major set_i_minor set_i_nlink set_i_size
    set_i_addrs set_f_type set_f_ref set_f_readable set_f_writable
    set_f_pipe set_f_ip set_f_off set_f_major set_pi_data set_pi_nread
    set_pi_nwrite set_pi_readopen set_pi_writeopen set_cs_buf set_cs_r
    set_cs_w set_cs_e set_ua_tx_buf set_ua_tx_w set_ua_tx_r set_ur_lsr
    set_ur_rhr set_ur_writes
    fi_devsw set_devsw dv_read dv_write ms_hart ms_plic ms_locking
    ms_first ms_started set_hart set_plic set_locking set_first
    set_started hr_sstatus hr_sepc hr_scause hr_stval hr_stvec hr_satp
    hr_sip pl_claims pl_writes set_hr_sstatus set_hr_sepc set_hr_scause
    set_hr_stval set_hr_stvec set_hr_satp set_hr_sip set_pl_claims
    set_pl_writes].
Ltac kproj_in H := cbn [
    lk_locked lk_name lk_cpu sl_locked sl_name sl_pid ctx_ra ctx_sp ctx_s
    c_proc c_noff c_intena p_state p_parent p_chan p_killed p_xstate p_pid
    p_kstack p_sz p_pagetable p_trapframe p_context p_ofile p_cwd p_name
    b_valid b_disk b_dev b_blockno b_lock b_refcnt b_prev b_next b_data
    sb_magic sb_size sb_nblocks sb_ninodes sb_nlog sb_logstart
    sb_inodestart sb_bmapstart lh_n lh_block lg_start lg_size
    lg_outstanding lg_committing lg_dev lg_lh i_dev i_inum i_ref i_lock
    i_valid i_type i_major i_minor i_nlink i_size i_addrs f_type f_ref
    f_readable f_writable f_pipe f_ip f_off f_major pi_data pi_nread
    pi_nwrite pi_readopen pi_writeopen cs_buf cs_r cs_w cs_e ua_tx_buf
    ua_tx_w ua_tx_r ur_lsr ur_rhr ur_writes sy_tp sy_sie sy_cpu sy_locks
    sy_procs mm_ram mm_freelist mm_kpt dk_blocks dk_hist fs_disk fs_bcache
    fs_log fs_sb fs_icache fi_ftable fi_pipes ms_cons ms_uart ms_panicked
    vd_addr vd_len vd_flags vd_next vk_desc vk_avail_idx vk_avail vk_used_id
    vk_used_elems vk_free vk_used_idx vk_info_b vk_info_status vk_regs
    vk_writes set_vk_desc set_vk_avail_idx set_vk_avail set_vk_used_id
    set_vk_used_elems set_vk_free set_vk_used_idx set_vk_info_b
    set_vk_info_status set_vk_regs set_vk_writes ms_vd set_vd
    ms_ticks ms_nextpid ms_initproc k_sy k_mm k_fs k_fi k_ms set_sy set_mm
    set_fs set_fi set_ms set_sie set_cpu set_locks set_procs set_c_proc
    set_c_noff set_c_intena set_ram set_freelist set_kpt set_disk
    set_bcache set_log set_sb set_icache set_ftable set_pipes set_cons
    set_uart set_panicked set_ticks set_nextpid set_initproc set_sl_locked
    set_sl_name set_sl_pid set_p_state set_p_parent set_p_chan
    set_p_killed set_p_xstate set_p_pid set_p_kstack set_p_sz
    set_p_pagetable set_p_trapframe set_p_context set_p_ofile set_p_cwd
    set_p_name set_b_valid set_b_disk set_b_dev set_b_blockno set_b_lock
    set_b_refcnt set_b_prev set_b_next set_b_data set_lh_n set_lh_block
    set_lg_start set_lg_size set_lg_outstanding set_lg_committing
    set_lg_dev set_lg_lh set_i_dev set_i_inum set_i_ref set_i_lock
    set_i_valid set_i_type set_i_major set_i_minor set_i_nlink set_i_size
    set_i_addrs set_f_type set_f_ref set_f_readable set_f_writable
    set_f_pipe set_f_ip set_f_off set_f_major set_pi_data set_pi_nread
    set_pi_nwrite set_pi_readopen set_pi_writeopen set_cs_buf set_cs_r
    set_cs_w set_cs_e set_ua_tx_buf set_ua_tx_w set_ua_tx_r set_ur_lsr
    set_ur_rhr set_ur_writes
    fi_devsw set_devsw dv_read dv_write ms_hart ms_plic ms_locking
    ms_first ms_started set_hart set_plic set_locking set_first
    set_started hr_sstatus hr_sepc hr_scause hr_stval hr_stvec hr_satp
    hr_sip pl_claims pl_writes set_hr_sstatus set_hr_sepc set_hr_scause
    set_hr_stval set_hr_stvec set_hr_satp set_hr_sip set_pl_claims
    set_pl_writes] in H.
Tactic Notation "kproj" := kproj_in_goal.
Tactic Notation "kproj" "in" hyp(H) := kproj_in H.
Tactic Notation "kproj" "in" "*" :=
  repeat match goal with H : _ |- _ => progress kproj_in H end; kproj_in_goal.

(** ** A concrete state

    The kernel as it stands when process 0, pid 1, runs in the kernel on hart
    0 with no lock held and everything else at its initial value.  It serves
    to evaluate the definitions. *)

Definition zero_context : context := mk_context 0 0 (repeat 0 12).
Definition zero_proc : proc :=
  mk_proc UNUSED None None 0 0 0 0 0 0 0 zero_context
    (repeat None NOFILE) None (repeat 0 16).
Definition zero_sleeplock : sleeplock := mk_sleeplock 0 "" 0.
Definition zero_buf : buf := mk_buf 0 0 0 0 zero_sleeplock 0 0 0 (repeat 0 (Z.to_nat BSIZE)).
Definition zero_inode : inode := mk_inode 0 0 0 zero_sleeplock 0 0 0 0 0 0 (repeat 0 13).
Definition zero_file : file := mk_file FD_NONE 0 0 0 0 None 0 0.
Definition zero_log : log := mk_log 0 0 0 0 0 (mk_logheader 0 (repeat 0 (Z.to_nat LOGSIZE))).

Definition zero_vdisk : vdisk :=
  mk_vdisk (repeat (mk_desc D_null 0 0 0) 8) 0 (repeat 0 8) 0 (repeat 0 8) (repeat 1 8) 0
    (repeat None 8) (repeat 0 8) ∅ [].

Definition static_locks : list lockid :=
  [L_kmem; L_pid; L_bcache; L_icache; L_log; L_ftable; L_cons; L_uart_tx; L_pr; L_ticks;
   L_vdisk] ++ map L_proc (seq 0 NPROC) ++ map L_buf (seq 0 NBUF) ++ map L_inode (seq 0 NINODE).
Definition free_locks : gmap lockid spinlock :=
  foldr (fun l m => <[l := mk_spinlock 0 "" None]> m) ∅ static_locks.

Lemma free_locks_lookup l : l ∈ static_locks -> free_locks !! l = Some (mk_spinlock 0 "" None).
Proof.
  unfold free_locks. induction static_locks as [|l' ls IH]; [by intros ?%elem_of_nil|].
  intros Hl. cbn [foldr]. destruct (decide (l = l')) as [->|].
  - apply lookup_insert_eq.
  - rewrite lookup_insert_ne by done. apply IH. by apply elem_of_cons in Hl as [|].
Qed.

Definition init_proc : proc := set_p_state RUNNING (set_p_pid 1 zero_proc).

Definition sample : kernel :=
  mk_kernel
    (mk_sync 0 true (mk_cpu (Some 0%nat) 0 false) free_locks
       (init_proc :: repeat zero_proc (NPROC - 1)))
    (mk_memory ∅ 0 0)
    (mk_fsys (mk_disk ∅ []) (repeat zero_buf (S NBUF)) zero_log
       (mk_superblock 0 0 0 0 0 0 0 0) (repeat zero_inode NINODE))
    (mk_files (repeat zero_file NFILE) ∅ (repeat (mk_devsw None None) (Z.to_nat NDEV)))
    (mk_misc (mk_cons (repeat 0 128) 0 0 0) (mk_uart (repeat 0 32) 0 0 [] [] [])
       false 0 1 (Some 0%nat) zero_vdisk (mk_csrs 0 0 0 0 0 0 0) (mk_plic [] []) 0 1 0).
