(* ===== verification/Logic.v ===== *)
(** * A program logic for the kernel monad

    [wp T m Q k]: started in [k], [m] returns (it neither panics nor blocks
    for ever) in a state satisfying [Q], when the rest of the system takes
    some turns allowed by [T] at the points where [m] waits.  With [no_turn]
    the run does not wait at all and its result is the same in every
    environment. *)

From S2P Require Import Prelude Defs State.

Definition turn := (kernel -> kernel) -> Prop.
Definition no_turn : turn := fun _ => False.

Definition wp {A} (T : turn) (m : M A) (Q : A -> kernel -> Prop) (k : kernel) : Prop :=
  exists ds a k',
    Forall T ds /\ (forall e, m (ds ++ e) k = Ret a e k') /\ Q a k'.

(** [m] panics with message [s] in every environment. *)
Definition panics {A} (m : M A) (s : string) (k : kernel) : Prop :=
  forall e, exists k', m e k = Panic s k'.

Section rules.
Context {T : turn}.

Lemma wp_ret {A} (a : A) (Q : A -> kernel -> Prop) k : Q a k -> wp T (ret a) Q k.
Proof. intros H. exists [], a, k. auto. Qed.

Lemma wp_gets {A} (f : kernel -> A) (Q : A -> kernel -> Prop) k :
  Q (f k) k -> wp T (gets f) Q k.
Proof. intros H. exists [], (f k), k. auto. Qed.

Lemma wp_modify f (Q : unit -> kernel -> Prop) k :
  Q tt (f k) -> wp T (modify f) Q k.
Proof. intros H. exists [], tt, (f k). auto. Qed.

Lemma wp_bind {A B} (m : M A) (f : A -> M B) Q k :
  wp T m (fun a k => wp T (f a) Q k) k -> wp T (bind m f) Q k.
Proof.
  intros (ds & a & k1 & Hds & Hm & ds2 & b & k2 & Hds2 & Hf & HQ).
  exists (ds ++ ds2), b, k2. split; [by apply Forall_app|]. split; [|done].
  intros e. rewrite <- app_assoc. unfold bind. rewrite Hm. apply Hf.
Qed.

Lemma wp_mono {A} (m : M A) (Q Q' : A -> kernel -> Prop) k :
  wp T m Q k -> (forall a k', Q a k' -> Q' a k') -> wp T m Q' k.
Proof. intros (ds & a & k' & H1 & H2 & H3) HQ. exists ds, a, k'. auto. Qed.

Lemma wp_eq {A} (m : M A) (Q : A -> kernel -> Prop) a k k' :
  (forall e, m e k = Ret a e k') -> Q a k' -> wp T m Q k.
Proof. intros H HQ. exists [], a, k'. auto. Qed.

Lemma wp_weaken {A} (T' : turn) (m : M A) (Q : A -> kernel -> Prop) k :
  wp T m Q k -> (forall f, T f -> T' f) -> wp T' m Q k.
Proof.
  intros (ds & a & k' & H1 & H2 & H3) HT. exists ds, a, k'.
  split; [|done]. eapply Forall_impl; eauto.
Qed.

Lemma wp_when (b : bool) (m : M unit) (Q : unit -> kernel -> Prop) k :
  (b = true -> wp T m Q k) -> (b = false -> Q tt k) -> wp T (when b m) Q k.
Proof. destruct b; simpl; auto using wp_ret. Qed.

(** Loops: an invariant over the elements already treated. *)
Lemma wp_for_all {A} (I : list A -> kernel -> Prop) (l : list A) body Q k :
  I [] k ->
  (forall done a rest k, l = done ++ a :: rest -> I done k ->
     wp T (body a) (fun _ k => I (done ++ [a]) k) k) ->
  (forall k, I l k -> Q tt k) ->
  wp T (for_all l body) Q k.
Proof.
  intros H0 Hstep HQ.
  assert (forall rest done k, l = done ++ rest -> I done k ->
            wp T (for_all rest body) (fun _ k => I l k) k) as Hgen.
  { induction rest as [|a rest IH]; intros done k' -> HI; simpl.
    - apply wp_ret. by rewrite app_nil_r in *.
    - apply wp_bind. eapply wp_mono; [by eapply Hstep|].
      intros ? k2 Hk2. apply (IH (done ++ [a])); [by rewrite <- app_assoc|done]. }
  eapply wp_mono; [apply (Hgen l [] k); auto|]. intros [] k' ?. auto.
Qed.

(** Loops that search: the body leaves the loop at the first element on which
    it returns a result. *)
Lemma wp_for_each {A R} (I : list A -> kernel -> Prop) (l : list A)
    (body : A -> M (option R)) Q k :
  I [] k ->
  (forall done a rest k, l = done ++ a :: rest -> I done k ->
     wp T (body a) (fun r k => match r with
                               | Some r => Q (Some r) k
                               | None => I (done ++ [a]) k end) k) ->
  (forall k, I l k -> Q None k) ->
  wp T (for_each l body) Q k.
Proof.
  intros H0 Hstep HQ.
  assert (forall rest done k, l = done ++ rest -> I done k ->
            wp T (for_each rest body) Q k) as Hgen.
  { induction rest as [|a rest IH]; intros done k' -> HI; simpl.
    - apply wp_ret. rewrite app_nil_r in *. auto.
    - apply wp_bind. eapply wp_mono; [by eapply Hstep|].
      intros [r|] k2 Hk2; simpl in *; [by apply wp_ret|].
      apply (IH (done ++ [a])); [by rewrite <- app_assoc|done]. }
  apply (Hgen l []); auto.
Qed.

Lemma wp_loop_step {A R} n (body : A -> M (A + R)) a Q k :
  wp T (body a) (fun r k => match r with
                            | inl a => wp T (loop n body a) Q k
                            | inr r => Q r k end) k ->
  wp T (loop (S n) body a) Q k.
Proof.
  intros H. simpl. apply wp_bind. eapply wp_mono; [done|].
  intros [a'|r] k'; simpl; auto using wp_ret.
Qed.

(** A waiting loop whose first iteration already leaves it. *)
Lemma wp_wait_loop {A R} (body : A -> M (A + R)) a Q k :
  wp no_turn (body a) (fun r k => match r with inl _ => False | inr r => Q r k end) k ->
  wp T (wait_loop body a) Q k.
Proof.
  intros (ds & r & k' & Hds & Hm & HQ).
  destruct ds as [|d ds]; [|by inversion Hds as [|?? [] _]].
  destruct r as [|r]; [done|].
  exists [], r, k'. split; [done|]. split; [|done].
  intros e. unfold wait_loop. simpl. unfold bind. specialize (Hm e). simpl in Hm.
  rewrite Hm. done.
Qed.

End rules.

(** A run without turns is exact. *)
Lemma wp_exact {A} (m : M A) Q k :
  wp no_turn m Q k -> exists a k', (forall e, m e k = Ret a e k') /\ Q a k'.
Proof.
  intros (ds & a & k' & Hds & Hm & HQ).
  destruct ds as [|d ds]; [by exists a, k'|]. by inversion Hds as [|?? [] _].
Qed.

Lemma wp_of_exact {A} T (m : M A) Q k : wp no_turn m Q k -> wp T m Q k.
Proof. intros H. eapply wp_weaken; [done|]. intros f []. Qed.

(** [m] takes exactly one turn, [f], and returns. *)
Definition takes {A} (f : kernel -> kernel) (m : M A) (Q : A -> kernel -> Prop) (k : kernel) : Prop :=
  exists a k', (forall e, m (f :: e) k = Ret a e k') /\ Q a k'.

Lemma takes_then {A B} f (m : M A) (g : A -> M B) Q k :
  takes f m (fun a k' => wp no_turn (g a) Q k') k -> takes f (bind m g) Q k.
Proof.
  intros (a & k1 & Hm & (b & k2 & Hg & HQ)%wp_exact). exists b, k2. split; [|done].
  intros e. unfold bind. by rewrite Hm.
Qed.

Lemma then_takes {A B} f (m : M A) (g : A -> M B) Q k :
  wp no_turn m (fun a k' => takes f (g a) Q k') k -> takes f (bind m g) Q k.
Proof.
  intros (a & k1 & Hm & (b & k2 & Hg & HQ))%wp_exact. exists b, k2. split; [|done].
  intros e. unfold bind. by rewrite Hm.
Qed.

(** [m] gives the processor up in [k1] and, in whatever state it gets it back,
    ends as the transformer [W] says. *)
Definition parks {A} (m : M A) (k1 : kernel) (W : (A -> kernel -> Prop) -> kernel -> Prop) (k : kernel) : Prop :=
  m [] k = Off k1 /\ forall f Q, W Q (f k1) -> takes f m Q k.

Lemma parks_bind {A B} (m : M A) (g : A -> M B) k1 W k :
  parks m k1 W k -> parks (bind m g) k1 (fun Q => W (fun a k' => wp no_turn (g a) Q k')) k.
Proof.
  intros [H1 H2]. split; [unfold bind; by rewrite H1|]. intros f Q HW. by apply takes_then, H2.
Qed.

Lemma then_parks {A B} (m : M A) (g : A -> M B) k1 W k :
  wp no_turn m (fun a k' => parks (g a) k1 W k') k -> parks (bind m g) k1 W k.
Proof.
  intros (a & k' & Hm & H1 & H2)%wp_exact. split; [unfold bind; by rewrite Hm|].
  intros f Q HW. apply then_takes. eapply wp_eq; [exact Hm|]. by apply H2.
Qed.

Lemma then_parks_some {A B} (m : M A) (g : A -> M B) (P : kernel -> ((B -> kernel -> Prop) -> kernel -> Prop) -> Prop) k :
  wp no_turn m (fun a k' => exists k1 W, P k1 W /\ parks (g a) k1 W k') k ->
  exists k1 W, P k1 W /\ parks (bind m g) k1 W k.
Proof.
  intros (a & k' & Hm & k1 & W & HP & H)%wp_exact. exists k1, W. split; [done|]. apply then_parks.
  eapply wp_eq; [exact Hm|done].
Qed.

Lemma parks_wait {A R} (body : A -> M (A + R)) a k1 W k :
  parks (body a) k1 W k ->
  parks (wait_loop body a) k1 (fun Q => W (fun r k => match r with
    | inl a => wp no_turn (body a) (fun r k => match r with inl _ => False | inr r => Q r k end) k
    | inr r => Q r k end)) k.
Proof.
  intros [H1 H2]. split.
  - unfold wait_loop. simpl. unfold bind. by rewrite H1.
  - intros f Q HW. destruct (H2 f _ HW) as ([a'|r] & k2 & Hm & HQ).
    + apply wp_exact in HQ as ([|r] & k3 & Hm2 & HQ); [done|]. exists r, k3. split; [|done].
      intros e. unfold wait_loop. simpl. unfold bind. rewrite Hm. simpl. unfold bind. by rewrite Hm2.
    + exists r, k2. split; [|done]. intros e. unfold wait_loop. simpl. unfold bind. by rewrite Hm.
Qed.

(** A waiting loop that waits once. *)
Lemma wp_wait_once {A R} (T : turn) f (body : A -> M (A + R)) a Q k :
  T f ->
  takes f (body a) (fun r k => match r with
    | inl a => wp no_turn (body a) (fun r k => match r with inl _ => False | inr r => Q r k end) k
    | inr r => Q r k end) k ->
  wp T (wait_loop body a) Q k.
Proof.
  intros HT ([a'|r] & k1 & Hm & HQ).
  - apply wp_exact in HQ as ([|r] & k2 & Hm2 & HQ); [done|]. exists [f], r, k2.
    split; [by constructor|]. split; [|done]. intros e. unfold wait_loop. simpl. unfold bind.
    rewrite Hm. simpl. unfold bind. by rewrite Hm2.
  - exists [f], r, k1. split; [by constructor|]. split; [|done]. intros e. unfold wait_loop. simpl.
    unfold bind. by rewrite Hm.
Qed.

Lemma panics_panic {A} s k : panics (panic s : M A) s k.
Proof. intros e. by exists k. Qed.

(** A panic in what follows a completed step. *)
Lemma panics_bind_wp {A B} (m : M A) (f : A -> M B) s k :
  wp no_turn m (fun a k' => panics (f a) s k') k -> panics (bind m f) s k.
Proof.
  intros (a & k' & Hm & Hf)%wp_exact e. unfold bind. rewrite Hm. apply Hf.
Qed.

Lemma panics_bind {A B} (m : M A) (f : A -> M B) s k :
  panics m s k -> panics (bind m f) s k.
Proof. intros H e. destruct (H e) as [k' E]. exists k'. unfold bind. by rewrite E. Qed.

(** [m] gives the processor up in a state satisfying [R], and gets it back
    from a turn [f] of the environment before doing [rest]. *)
Definition offs {A} (m : M A) (R : kernel -> Prop) (rest : (kernel -> kernel) -> kernel -> M A)
    (k : kernel) : Prop :=
  exists k', R k' /\ m [] k = Off k' /\ forall f e, m (f :: e) k = rest f k' e (f k').

Lemma offs_swtch (R : kernel -> Prop) k :
  R k -> offs swtch_out R (fun _ _ => ret tt) k.
Proof. intros H. exists k. done. Qed.

Lemma offs_bind_wp {A B} (m : M A) (f : A -> M B) R rest k :
  wp no_turn m (fun a k' => offs (f a) R rest k') k -> offs (bind m f) R rest k.
Proof.
  intros (a & k1 & Hm & k' & HR & H1 & H2)%wp_exact. exists k'. unfold bind.
  split; [done|]. split; [by rewrite Hm|]. intros g e. by rewrite Hm.
Qed.

Lemma offs_bind {A B} (m : M A) (f : A -> M B) R rest k :
  offs m R rest k -> offs (bind m f) R (fun g k' => bind (rest g k') f) k.
Proof.
  intros (k' & HR & H1 & H2). exists k'. unfold bind.
  split; [done|]. split; [by rewrite H1|]. intros g e. by rewrite H2.
Qed.

(** Sequencing is associative, up to the pointwise equality of computations. *)
Definition meq {A} (m m' : M A) : Prop := forall e k, m e k = m' e k.

#[export] Instance meq_equiv A : Equivalence (@meq A).
Proof.
  split; [by intros m e k | by intros m m' H e k; rewrite H |].
  intros m1 m2 m3 H1 H2 e k. by rewrite H1, H2.
Qed.

#[export] Instance bind_proper A B :
  Proper (meq ==> pointwise_relation A meq ==> meq) (@bind A B).
Proof.
  intros m m' Hm f f' Hf e k. unfold bind. rewrite Hm.
  destruct (m' e k); auto. apply Hf.
Qed.

#[export] Instance wp_proper A T :
  Proper (meq ==> eq ==> eq ==> iff) (@wp A T).
Proof.
  intros m m' Hm Q ? <- k ? <-.
  split; intros (ds & a & k' & H1 & H2 & H3); exists ds, a, k';
    (split; [done|]); (split; [|done]); intros e.
  - by rewrite <- Hm.
  - by rewrite Hm.
Qed.

Lemma bind_assoc {A B C} (m : M A) (f : A -> M B) (g : B -> M C) :
  meq (bind (bind m f) g) (bind m (fun a => bind (f a) g)).
Proof. intros e k. unfold bind. by destruct (m e k). Qed.

#[export] Hint Resolve wp_ret wp_gets wp_modify : kern.

(** One step of symbolic execution on the simplest commands. *)
Ltac wp_step :=
  lazymatch goal with
  | |- wp _ (bind _ _) _ _ => apply wp_bind
  | |- wp _ (ret _) _ _ => apply wp_ret
  | |- wp _ (gets _) _ _ => apply wp_gets
  | |- wp _ (modify _) _ _ => apply wp_modify
  end; cbv beta.
Ltac wp_steps := repeat wp_step.
