(* ===== verification/Memory.v ===== *)
(** * Physical memory and [kernel/string.c]

    RAM is a map from byte addresses to byte values; the kernel reaches it at
    [KERNBASE .. PHYSTOP), where its page table maps it directly.  Any other
    access faults, which the kernel turns into [panic("kerneltrap")].

    The functions of [string.c] that write through pointers into RAM
    ([memset], [memmove], [memcpy]) are loops of byte accesses; those that
    work on character arrays held in C structs or local variables are
    functions on the bytes of the array, where the bytes after the end of the
    list stand for the terminating NUL. *)

From S2P Require Import Prelude Defs State Logic.

(** ** Byte memory *)

Definition is_ram (a : Z) : bool := (KERNBASE <=? a) && (a <? PHYSTOP).

Definition rd (m : gmap Z Z) (a : Z) : Z := default 0 (m !! a).
Definition rdn (m : gmap Z Z) (a n : Z) : list Z :=
  map (fun i => rd m (a + i)) (seqZ 0 n).
Fixpoint wr (m : gmap Z Z) (a : Z) (l : list Z) : gmap Z Z :=
  match l with
  | [] => m
  | b :: l => wr (<[a := b]> m) (a + 1) l
  end.
Definition rd64 (m : gmap Z Z) (a : Z) : Z := le_val (rdn m a 8).
Definition wr64 (m : gmap Z Z) (a x : Z) : gmap Z Z := wr m a (le_bytes 8 x).

Definition ram (k : kernel) : gmap Z Z := mm_ram (k_mm k).
Definition with_ram (r : gmap Z Z) (k : kernel) : kernel :=
  set_mm (set_ram r (k_mm k)) k.

Definition load8 (a : Z) : M Z := fun e k =>
  if is_ram a then Ret (rd (ram k) a) e k else Panic "kerneltrap" k.
Definition store8 (a v : Z) : M unit := fun e k =>
  if is_ram a then Ret tt e (with_ram (<[a := v]> (ram k)) k)
  else Panic "kerneltrap" k.
Definition load64 (a : Z) : M Z := fun e k =>
  if is_ram a && is_ram (a + 7) then Ret (rd64 (ram k) a) e k
  else Panic "kerneltrap" k.
Definition store64 (a v : Z) : M unit := fun e k =>
  if is_ram a && is_ram (a + 7) then Ret tt e (with_ram (wr64 (ram k) a v) k)
  else Panic "kerneltrap" k.

(** ** string.c on RAM *)

Definition memset (dst c n : Z) : M Z :=
  for_all (seqZ 0 n) (fun i => store8 (dst + i) (u8 c)) ;;
  ret dst.

Definition memmove (dst src n : Z) : M Z :=
  (if (src <? dst) && (src + n >? dst) then
     for_all (reverse (seqZ 0 n))
       (fun i => let* v := load8 (src + i) in store8 (dst + i) v)
   else
     for_all (seqZ 0 n)
       (fun i => let* v := load8 (src + i) in store8 (dst + i) v)) ;;
  ret dst.

Definition memcpy (dst src n : Z) : M Z := memmove dst src n.

(** ** string.c on character arrays *)

Fixpoint memcmp (s1 s2 : list Z) (n : nat) : Z :=
  match n with
  | O => 0
  | S n =>
      let a := hd 0 s1 in let b := hd 0 s2 in
      if negb (a =? b) then a - b else memcmp (tl s1) (tl s2) n
  end.

Fixpoint strncmp (p q : list Z) (n : nat) : Z :=
  match n with
  | O => 0
  | S n =>
      let a := hd 0 p in let b := hd 0 q in
      if c_true a && (a =? b) then strncmp (tl p) (tl q) n else a - b
  end.

(** The bytes [strncpy] stores, and the destination array after it. *)
Fixpoint strncpy_bytes (t : list Z) (n : nat) : list Z :=
  match n with
  | O => []
  | S n =>
      let c := hd 0 t in
      if c =? 0 then 0 :: repeat 0 n else c :: strncpy_bytes (tl t) n
  end.
Definition strncpy (s t : list Z) (n : nat) : list Z :=
  splice s 0 (strncpy_bytes t n).

(** The bytes [safestrcpy] stores: the final [*s = 0] comes after the copied
    NUL when the source ends early. *)
Fixpoint safestrcpy_bytes (t : list Z) (n : nat) : list Z :=
  match n with
  | O => []
  | S O => [0]
  | S n =>
      let c := hd 0 t in
      if c =? 0 then [0; 0] else c :: safestrcpy_bytes (tl t) n
  end.
Definition safestrcpy (s t : list Z) (n : nat) : list Z :=
  splice s 0 (safestrcpy_bytes t n).

Fixpoint strlen (s : list Z) : nat :=
  match s with
  | [] => O
  | c :: s => if c =? 0 then O else S (strlen s)
  end.

(** ** Facts about byte memory *)

Lemma rd_insert m a b v : rd (<[a := v]> m) b = if a =? b then v else rd m b.
Proof.
  unfold rd. destruct (Z.eqb_spec a b) as [->|].
  - by rewrite lookup_insert_eq.
  - by rewrite lookup_insert_ne.
Qed.

Lemma lookup_wr m a l b :
  wr m a l !! b =
    if (a <=? b) && (b <? a + Z.of_nat (length l))
    then l !! Z.to_nat (b - a) else m !! b.
Proof.
  revert m a. induction l as [|x l IH]; intros m a; cbn [wr length].
  { zcase; done. }
  rewrite IH. destruct (decide (a = b)) as [->|Hne].
  - replace (b + 1 <=? b) with false by (symmetry; apply Z.leb_gt; lia).
    rewrite lookup_insert_eq, Z.sub_diag. cbn [andb].
    replace (b <=? b) with true by (symmetry; apply Z.leb_le; lia).
    replace (b <? b + Z.of_nat (S (length l))) with true
      by (symmetry; apply Z.ltb_lt; lia).
    done.
  - rewrite lookup_insert_ne by done. rewrite Nat2Z.inj_succ.
    destruct (Z.leb_spec (a + 1) b), (Z.leb_spec a b); try lia; simpl; auto.
    replace (a + 1 + Z.of_nat (length l)) with (a + Z.succ (Z.of_nat (length l))) by lia.
    destruct (Z.ltb_spec b (a + Z.succ (Z.of_nat (length l)))); auto.
    replace (Z.to_nat (b - a)) with (S (Z.to_nat (b - (a + 1)))) by lia. done.
Qed.

Lemma length_rdn m a n : 0 <= n -> length (rdn m a n) = Z.to_nat n.
Proof. intros H. unfold rdn. by rewrite length_map, length_seqZ. Qed.

Lemma lookup_rdn m a n i :
  0 <= i < n -> rdn m a n !! Z.to_nat i = Some (rd m (a + i)).
Proof.
  intros H. unfold rdn.
  assert (seqZ 0 n !! Z.to_nat i = Some i) as E.
  { apply lookup_seqZ. lia. }
  by rewrite list_lookup_fmap, E.
Qed.

Lemma rdn_map m a n : rdn m a n = map (rd m) (seqZ a n).
Proof. unfold rdn. apply map_seqZ_shift. done. Qed.

Lemma rdn_cons m a n :
  rd m a :: rdn m (a + 1) (Z.of_nat n) = rdn m a (Z.of_nat (S n)).
Proof.
  unfold rdn. rewrite Nat2Z.inj_succ, (seqZ_cons 0 (Z.succ _)), Z.pred_succ by lia.
  simpl map at 2. rewrite Z.add_0_r. f_equal. change (Z.succ 0) with (1 + 0).
  rewrite <- (fmap_add_seqZ 1 0).
  change (map (fun i => rd m (a + i)) (Z.add 1 <$> seqZ 0 (Z.of_nat n)))
    with ((fun i => rd m (a + i)) <$> (Z.add 1 <$> seqZ 0 (Z.of_nat n))).
  rewrite <- list_fmap_compose. apply map_ext. intros i. simpl. f_equal. lia.
Qed.

Lemma rd_wr_out m a l b :
  b < a \/ a + Z.of_nat (length l) <= b -> rd (wr m a l) b = rd m b.
Proof. intros H. unfold rd. rewrite lookup_wr. zcase; done. Qed.

Lemma rdn_wr_out m a l b n :
  b + n <= a \/ a + Z.of_nat (length l) <= b -> rdn (wr m a l) b n = rdn m b n.
Proof.
  intros H. apply map_ext_in. intros i Hi%list_elem_of_In%elem_of_seqZ.
  apply rd_wr_out. lia.
Qed.

Lemma rdn_wr m a l : rdn (wr m a l) a (Z.of_nat (length l)) = l.
Proof.
  apply list_eq. intros i. destruct (decide (i < length l)%nat).
  - rewrite <- (Nat2Z.id i), lookup_rdn by lia. unfold rd. rewrite lookup_wr.
    zcase; rewrite !Nat2Z.id. simpl.
    replace (Z.to_nat (a + Z.of_nat i - a)) with i by lia.
    destruct (l !! i) eqn:E; [done|]. apply lookup_ge_None in E. lia.
  - rewrite !lookup_ge_None_2; auto; [lia|]. rewrite length_rdn by lia. lia.
Qed.

Lemma rd64_wr64_eq m a x : 0 <= x < 2 ^ 64 -> rd64 (wr64 m a x) a = x.
Proof.
  intros H. unfold rd64, wr64.
  change 8 with (Z.of_nat (length (le_bytes 8 x))).
  rewrite rdn_wr. apply le_val_bytes. simpl. lia.
Qed.

Lemma rd64_wr_out m a l b :
  b + 8 <= a \/ a + Z.of_nat (length l) <= b -> rd64 (wr m a l) b = rd64 m b.
Proof. intros H. unfold rd64. by rewrite rdn_wr_out. Qed.

Lemma rd64_wr64_ne m a x b : b + 8 <= a \/ a + 8 <= b -> rd64 (wr64 m a x) b = rd64 m b.
Proof. intros H. apply rd64_wr_out. rewrite length_le_bytes. lia. Qed.

Lemma rd64_empty a : rd64 ∅ a = 0.
Proof. unfold rd64, rdn, rd. simpl. rewrite !lookup_empty. done. Qed.

(** Two memories that agree on a range give the same reads there. *)
Lemma rd64_ext m m' a :
  (forall b, a <= b < a + 8 -> rd m b = rd m' b) -> rd64 m a = rd64 m' a.
Proof.
  intros H. unfold rd64. f_equal. apply map_ext_in.
  intros i Hi%list_elem_of_In%elem_of_seqZ. apply H. lia.
Qed.

Lemma is_ram_spec a : is_ram a = true <-> KERNBASE <= a < PHYSTOP.
Proof. unfold is_ram. rewrite andb_true_iff, Z.leb_le, Z.ltb_lt. lia. Qed.

(** ** Rules for the accesses *)

Section rules.
Context {T : turn}.

Lemma wp_load8 a (Q : Z -> kernel -> Prop) k :
  KERNBASE <= a < PHYSTOP -> Q (rd (ram k) a) k -> wp T (load8 a) Q k.
Proof.
  intros Ha HQ. eapply wp_eq; [|done]. intros e. unfold load8.
  by rewrite (proj2 (is_ram_spec a) Ha).
Qed.

Lemma wp_store8 a v (Q : unit -> kernel -> Prop) k :
  KERNBASE <= a < PHYSTOP -> Q tt (with_ram (<[a := v]> (ram k)) k) ->
  wp T (store8 a v) Q k.
Proof.
  intros Ha HQ. eapply wp_eq; [|done]. intros e. unfold store8.
  by rewrite (proj2 (is_ram_spec a) Ha).
Qed.

Lemma wp_load64 a (Q : Z -> kernel -> Prop) k :
  KERNBASE <= a -> a + 8 <= PHYSTOP -> Q (rd64 (ram k) a) k -> wp T (load64 a) Q k.
Proof.
  intros H1 H2 HQ. eapply wp_eq; [|done]. intros e. unfold load64.
  rewrite (proj2 (is_ram_spec a)), (proj2 (is_ram_spec (a + 7))) by lia. done.
Qed.

Lemma wp_store64 a v (Q : unit -> kernel -> Prop) k :
  KERNBASE <= a -> a + 8 <= PHYSTOP -> Q tt (with_ram (wr64 (ram k) a v) k) ->
  wp T (store64 a v) Q k.
Proof.
  intros H1 H2 HQ. eapply wp_eq; [|done]. intros e. unfold store64.
  rewrite (proj2 (is_ram_spec a)), (proj2 (is_ram_spec (a + 7))) by lia. done.
Qed.

Lemma wr_snoc m a l x :
  wr m a (l ++ [x]) = <[a + Z.of_nat (length l) := x]> (wr m a l).
Proof.
  revert m a. induction l as [|y l IH]; intros m a; cbn [wr app length].
  - by rewrite Z.add_0_r.
  - rewrite IH. f_equal; lia.
Qed.

Lemma wr_app m a l l' : wr m a (l ++ l') = wr (wr m a l) (a + Z.of_nat (length l)) l'.
Proof.
  induction l' as [|x l' IH] using rev_ind; [by rewrite app_nil_r|].
  rewrite app_assoc, !wr_snoc, IH, length_app. f_equal. lia.
Qed.

(** [memset] stores the low byte of [c] in [dst .. dst+n). *)
Lemma wp_memset dst c n (Q : Z -> kernel -> Prop) k :
  KERNBASE <= dst -> dst + n <= PHYSTOP -> 0 <= n ->
  Q dst (with_ram (wr (ram k) dst (repeat (u8 c) (Z.to_nat n))) k) ->
  wp T (memset dst c n) Q k.
Proof.
  intros H1 H2 Hn HQ. unfold memset. apply wp_bind.
  apply (wp_for_all (fun l k' =>
    k' = with_ram (wr (ram k) dst (repeat (u8 c) (length l))) k)).
  - done.
  - intros dn a rest k' E ->.
    destruct (seqZ_split _ _ _ _ E) as [Ea ?].
    apply wp_store8; [lia|].
    rewrite length_app, repeat_app. cbn [length repeat]. rewrite wr_snoc.
    rewrite repeat_length, Ea. done.
  - intros k' ->. rewrite length_seqZ. by apply wp_ret.
Qed.

(** Copying byte by byte, in any order that reads each source byte before it
    is overwritten. *)
Lemma wp_copy_loop dst src n (l : list Z) (Q : unit -> kernel -> Prop) k :
  KERNBASE <= dst -> dst + n <= PHYSTOP -> KERNBASE <= src -> src + n <= PHYSTOP ->
  (forall i, i ∈ l -> 0 <= i < n) -> (forall i, 0 <= i < n -> i ∈ l) ->
  (forall l1 i l2 j, l = l1 ++ i :: l2 -> j ∈ l1 -> dst + j <> src + i) ->
  Q tt (with_ram (wr (ram k) dst (rdn (ram k) src n)) k) ->
  wp T (for_all l (fun i => let* v := load8 (src + i) in store8 (dst + i) v)) Q k.
Proof.
  intros Hd Hd' Hs Hs' Hin Hall Hord HQ.
  apply (wp_for_all (fun l1 k' => exists r, k' = with_ram r k /\
    (forall a, r !! a = if decide (a - dst ∈ l1) then Some (rd (ram k) (src + (a - dst)))
                        else ram k !! a))).
  - exists (ram k). split; [done|]. intros a. rewrite decide_False; [done|].
    apply not_elem_of_nil.
  - intros l1 i rest k' E (r & -> & Hr).
    assert (0 <= i < n) by (apply Hin; rewrite E; set_solver).
    apply wp_bind, wp_load8; [lia|]. apply wp_store8; [lia|].
    exists (<[dst + i := rd r (src + i)]> r). split; [done|].
    assert (rd r (src + i) = rd (ram k) (src + i)) as ->.
    { unfold rd at 1. rewrite Hr. rewrite decide_False; [done|].
      intros Hj. apply (Hord l1 i rest (src + i - dst)); auto. lia. }
    intros a. destruct (decide (dst + i = a)) as [<-|Hne].
    + rewrite lookup_insert_eq. replace (dst + i - dst) with i by lia.
      rewrite decide_True by set_solver. done.
    + rewrite lookup_insert_ne, Hr by done.
      assert (a - dst ≠ i) by lia.
      destruct (decide (a - dst ∈ l1)); [rewrite decide_True by set_solver; done|].
      rewrite decide_False by set_solver. done.
  - intros k' (r & -> & Hr).
    assert (r = wr (ram k) dst (rdn (ram k) src n)) as ->; [|done].
    apply map_eq. intros a. rewrite Hr, lookup_wr.
    destruct (decide (0 <= n)) as [Hn|Hn].
    2: { assert (rdn (ram k) src n = []) as ->.
         { unfold rdn, seqZ. by replace (Z.to_nat n) with O by lia. }
         rewrite decide_False by (intros ?%Hin; lia). simpl.
         zcase; done. }
    rewrite length_rdn, Z2Nat.id by done.
    destruct (decide (a - dst ∈ l)) as [Ha|Ha].
    + apply Hin in Ha. zcase; [].
      simpl. by rewrite lookup_rdn by lia.
    + assert (~ (0 <= a - dst < n)) by (intros X; apply Ha; auto).
      zcase; done.
Qed.

End rules.

Lemma wp_memmove {T} dst src n (Q : Z -> kernel -> Prop) k :
  KERNBASE <= dst -> dst + n <= PHYSTOP -> KERNBASE <= src -> src + n <= PHYSTOP ->
  Q dst (with_ram (wr (ram k) dst (rdn (ram k) src n)) k) ->
  wp T (memmove dst src n) Q k.
Proof.
  intros Hd Hd' Hs Hs' HQ. unfold memmove. rewrite Z.gtb_ltb.
  apply wp_bind.
  assert (forall i l1 l2 j, seqZ 0 n = l1 ++ i :: l2 -> j ∈ l1 -> j < i) as Hlt.
  { intros i l1 l2 j E Hj. apply list_elem_of_lookup in Hj as [x Hx].
    assert (seqZ 0 n !! x = Some j) as Lj.
    { rewrite E, lookup_app_l; [done|]. by apply lookup_lt_Some in Hx. }
    assert (seqZ 0 n !! length l1 = Some i) as Li.
    { rewrite E. by rewrite lookup_app_r, Nat.sub_diag by lia. }
    apply lookup_seqZ in Lj, Li. apply lookup_lt_Some in Hx. lia. }
  destruct (Z.ltb_spec src dst), (Z.ltb_spec dst (src + n)); simpl;
    (apply (wp_copy_loop _ _ n); try done;
      [intros i; rewrite ?elem_of_reverse, elem_of_seqZ; lia
      |intros i; rewrite ?elem_of_reverse, elem_of_seqZ; lia
      |intros l1 i l2 j E Hj | by apply wp_ret]).
  - (* copying backwards *)
    apply (f_equal reverse) in E.
    rewrite reverse_involutive, reverse_app, reverse_cons, <- app_assoc in E.
    assert (i < j); [|lia].
    apply elem_of_reverse, list_elem_of_split in Hj as (x & y & Hj).
    rewrite Hj in E. simpl in E.
    apply (Hlt j (reverse l2 ++ i :: x) y i); [|set_solver].
    by rewrite E, <- app_assoc.
  - pose proof (Hlt i l1 l2 j E Hj).
    assert (j ∈ seqZ 0 n) as ?%elem_of_seqZ by (rewrite E; set_solver).
    assert (i ∈ seqZ 0 n) as ?%elem_of_seqZ by (rewrite E; set_solver). lia.
  - pose proof (Hlt i l1 l2 j E Hj). lia.
  - pose proof (Hlt i l1 l2 j E Hj). lia.
Qed.

#[export] Hint Resolve wp_load8 wp_store8 wp_load64 wp_store64 : kern.

#[global] Arguments wr : simpl never.
#[global] Arguments rdn : simpl never.
#[global] Arguments wr64 : simpl never.
#[global] Arguments rd64 : simpl never.

(** ** Properties of string.c *)

(** [memmove] copies correctly whether or not the two areas overlap, and in
    either direction of overlap: the destination ends up with the bytes the
    source held before the call, and nothing else changes. *)
Theorem memmove_snapshot dst src n k :
  KERNBASE <= dst -> dst + n <= PHYSTOP -> KERNBASE <= src -> src + n <= PHYSTOP ->
  forall e, memmove dst src n e k =
    Ret dst e (with_ram (wr (ram k) dst (rdn (ram k) src n)) k).
Proof.
  intros Hd Hd' Hs Hs' e.
  destruct (wp_exact (memmove dst src n)
    (fun a k' => a = dst /\ k' = with_ram (wr (ram k) dst (rdn (ram k) src n)) k) k)
    as (a & k' & Hm & -> & ->); [|done].
  by apply wp_memmove.
Qed.

Lemma memmove_snapshot_witness :
  exists k', memmove (KERNBASE + 2) KERNBASE 4 [] sample = Ret (KERNBASE + 2) [] k'.
Proof. eexists. apply (memmove_snapshot (KERNBASE + 2) KERNBASE 4 sample); done. Defined.

(** The C string in an array of at most [n] bytes. *)
Fixpoint cstr (n : nat) (s : list Z) : list Z :=
  match n with
  | O => []
  | S n => let c := hd 0 s in if c =? 0 then [] else c :: cstr n (tl s)
  end.

Lemma strncmp_zero p q n : strncmp p q n = 0 <-> cstr n p = cstr n q.
Proof.
  revert p q. induction n as [|n IH]; intros p q; simpl; [done|].
  unfold c_true. destruct (Z.eqb_spec (hd 0 p) 0) as [Ep|Ep]; simpl.
  - rewrite Ep. destruct (Z.eqb_spec (hd 0 q) 0) as [Eq|Eq]; simpl.
    + rewrite Eq. done.
    + split; [lia|done].
  - destruct (Z.eqb_spec (hd 0 p) (hd 0 q)) as [E|E]; simpl.
    + rewrite <- E. destruct (Z.eqb_spec (hd 0 p) 0); [done|].
      rewrite IH. split; [by intros -> | congruence].
    + split; [lia|]. destruct (Z.eqb_spec (hd 0 q) 0); [done|]. congruence.
Qed.

(** [strncmp] is 0 exactly on strings that agree when cut at [n] bytes, so
    "equal names" is an equivalence: symmetric and transitive. *)
Theorem strncmp_equivalence p q r n :
  (strncmp p q n = 0 <-> cstr n p = cstr n q) /\ strncmp p p n = 0 /\
  (strncmp p q n = 0 -> strncmp q p n = 0) /\
  (strncmp p q n = 0 -> strncmp q r n = 0 -> strncmp p r n = 0).
Proof. rewrite !strncmp_zero. split_and!; naive_solver congruence. Qed.

Lemma cstr_zeros n : cstr n (repeat 0 n) = [].
Proof. by destruct n. Qed.

(** [strncpy] into an array of at least [n] bytes stores the string cut at
    [n] bytes, so a name written to a directory entry compares equal to the
    name it was made from. *)
Theorem strncpy_namecmp s t n :
  (n <= length s)%nat ->
  length (strncpy s t n) = length s /\ strncmp t (strncpy s t n) n = 0.
Proof.
  intros Hn. split; [apply length_splice|]. rewrite strncmp_zero.
  unfold strncpy. revert s t Hn.
  induction n as [|n IH]; intros s t Hn; [done|].
  destruct s as [|a s]; [simpl in Hn; lia|]. simpl in Hn.
  cbn [strncpy_bytes]. destruct (Z.eqb_spec (hd 0 t) 0) as [E|E].
  - rewrite splice_cons. cbn [cstr hd]. by rewrite E.
  - rewrite splice_cons. cbn [cstr hd tl].
    destruct (Z.eqb_spec (hd 0 t) 0); [done|]. f_equal. apply IH. lia.
Qed.

Lemma strncpy_namecmp_witness :
  strncmp [97; 98] (strncpy (repeat 255 14) [97; 98] 14) 14 = 0.
Proof. apply (strncpy_namecmp (repeat 255 14) [97; 98] 14). simpl. lia. Defined.

(** [safestrcpy] always leaves a NUL-terminated string of at most [n-1]
    bytes in the destination: the source cut at [n-1] bytes. *)
Theorem safestrcpy_terminated s t n :
  (0 < n)%nat -> (n <= length s)%nat ->
  cstr n (safestrcpy s t n) = cstr (n - 1) t /\
  length (safestrcpy s t n) = length s.
Proof.
  intros H0 Hn. split; [|apply length_splice]. unfold safestrcpy.
  revert s t H0 Hn. induction n as [|n IH]; intros s t H0 Hn; [lia|].
  destruct s as [|a s]; [simpl in Hn; lia|]. simpl in Hn.
  destruct n as [|n]; [done|]. cbn [safestrcpy_bytes].
  replace (S (S n) - 1)%nat with (S n) by lia.
  destruct (Z.eqb_spec (hd 0 t) 0) as [E|E].
  - rewrite splice_cons. cbn [cstr hd]. by rewrite E.
  - rewrite splice_cons. cbn [cstr hd tl].
    destruct (Z.eqb_spec (hd 0 t) 0); [done|]. f_equal.
    etransitivity; [apply (IH s (tl t)); lia|]. f_equal. lia.
Qed.

Lemma safestrcpy_terminated_witness :
  cstr 4 (safestrcpy (repeat 255 4) [97; 98; 99; 100; 101] 4) = [97; 98; 99].
Proof. apply (safestrcpy_terminated (repeat 255 4) [97; 98; 99; 100; 101] 4); simpl; lia. Defined.
