(* ===== verification/Spinlock.v ===== *)
(** * [kernel/spinlock.c]: spinlocks and interrupt nesting

    [push_off]/[pop_off] nest the disabling of interrupts on a hart;
    [acquire]/[release] take and give back a spinlock; their code is a
    sequence of accesses to the lock, run to the end by one hart or interleaved
    by many ([hart_step]).  The atomic swap of
    [acquire] spins while another hart holds the lock: each failed attempt
    takes one turn of the environment.

    [quiet s s'] relates the synchronisation state before and after a piece
    of code that gives back every lock it takes and otherwise only wakes
    sleeping processes up.  It is the frame condition of the functions of the
    other files. *)

From stdpp Require Import relations functions.
From S2P Require Import Prelude Defs State Logic.

(** ** Interrupt enable bit, hart and cpu (riscv.h, proc.c) *)

Definition upd_sy (f : sync -> sync) : M unit :=
  modify (fun k => set_sy (f (k_sy k)) k).

Definition intr_get : M bool := gets (fun k => sy_sie (k_sy k)).
Definition intr_off : M unit := upd_sy (set_sie false).
Definition intr_on : M unit := upd_sy (set_sie true).

Definition cpuid : M Z := gets (fun k => sy_tp (k_sy k)).
Definition mycpu : M cpu := gets (fun k => sy_cpu (k_sy k)).

(** ** push_off, pop_off *)

Definition push_off : M unit :=
  let* old := intr_get in
  intr_off ;;
  let* c := mycpu in
  when (c_noff c =? 0) (upd_sy (fun s => set_cpu (set_c_intena old (sy_cpu s)) s)) ;;
  upd_sy (fun s => set_cpu (set_c_noff (c_noff (sy_cpu s) + 1) (sy_cpu s)) s).

Definition pop_off : M unit :=
  let* on := intr_get in
  if on then panic "pop_off - interruptible" else
  let* c := mycpu in
  if c_noff c <? 1 then panic "pop_off" else
  upd_sy (fun s => set_cpu (set_c_noff (c_noff (sy_cpu s) - 1) (sy_cpu s)) s) ;;
  let* c := mycpu in
  when ((c_noff c =? 0) && c_intena c) intr_on.

(** ** Spinlocks *)

Definition zero_lock : spinlock := mk_spinlock 0 "" None.
Definition get_lock (s : sync) (l : lockid) : spinlock :=
  default zero_lock (sy_locks s !! l).
Definition put_lock (l : lockid) (lk : spinlock) (s : sync) : sync :=
  set_locks (<[l := lk]> (sy_locks s)) s.

Definition initlock (l : lockid) (name : string) : M unit :=
  upd_sy (put_lock l (mk_spinlock 0 name None)).

(** ** Code other harts can interleave with

    [acquire], [release] and [holding] are written as the sequence of their
    accesses to the shared lock.  [Atomic m f] does [m] without another hart
    in between and goes on with [f]; [Swap l c] is the loop on the atomic
    swap of [l], then [c].  [run_code] runs such code to its end on one hart, with
    turns of the environment only where the code spins; the section on mutual
    exclusion runs it action by action on many. *)
Inductive code (A : Type) : Type :=
| Done (a : A)
| Stop (msg : string)
| Atomic {B : Type} (m : M B) (f : B -> code A)
| Swap (l : lockid) (c : code A).
Arguments Done {A} _.
Arguments Stop {A} _.
Arguments Atomic {A B} _ _.
Arguments Swap {A} _ _.

Fixpoint code_bind {A B} (c : code A) (g : A -> code B) : code B :=
  match c with
  | Done a => g a
  | Stop msg => Stop msg
  | Atomic m f => Atomic m (fun b => code_bind (f b) g)
  | Swap l c => Swap l (code_bind c g)
  end.

(** [lk->locked && lk->cpu == mycpu()]: two reads of the lock. *)
Definition holding_code (l : lockid) : code bool :=
  Atomic (gets (fun k => lk_locked (get_lock (k_sy k) l))) (fun locked =>
  if c_true locked then
    Atomic (gets (fun k => lk_cpu (get_lock (k_sy k) l))) (fun c =>
    Atomic cpuid (fun id =>
    Done (bool_decide (c = Some id))))
  else Done false).

(** [__sync_lock_test_and_set(&lk->locked, 1)]: the old value, and the lock
    after the swap. *)
Definition test_and_set (lk : spinlock) : Z * spinlock :=
  (lk_locked lk, mk_spinlock 1 (lk_name lk) (lk_cpu lk)).

(** [while(__sync_lock_test_and_set(&lk->locked, 1) != 0) ;] *)
Fixpoint test_and_set_loop (l : lockid) (e : env) (k : kernel) : outcome unit :=
  let (old, lk) := test_and_set (get_lock (k_sy k) l) in
  let k' := set_sy (put_lock l lk (k_sy k)) k in
  if old =? 0 then Ret tt e k' else
  match e with
  | [] => Spin k'
  | f :: e => test_and_set_loop l e (f k')
  end.

(** [lk->cpu = c] and [__sync_lock_release(&lk->locked)]. *)
Definition with_lk_cpu (c : option Z) (lk : spinlock) : spinlock :=
  mk_spinlock (lk_locked lk) (lk_name lk) c.
Definition lock_release (lk : spinlock) : spinlock :=
  mk_spinlock 0 (lk_name lk) (lk_cpu lk).
Definition upd_lock (l : lockid) (f : spinlock -> spinlock) : M unit :=
  upd_sy (fun s => put_lock l (f (get_lock s l)) s).

Fixpoint run_code {A} (c : code A) : M A :=
  match c with
  | Done a => ret a
  | Stop msg => panic msg
  | Atomic m f => let* b := m in run_code (f b)
  | Swap l c => test_and_set_loop l ;; run_code c
  end.

Definition acquire_code (l : lockid) : code unit :=
  Atomic push_off (fun _ =>
  code_bind (holding_code l) (fun h =>
  if h then Stop "acquire" else
  Swap l (
  Atomic cpuid (fun id =>
  Atomic (upd_lock l (with_lk_cpu (Some id))) (fun _ =>
  Done tt))))).

Definition release_code (l : lockid) : code unit :=
  code_bind (holding_code l) (fun h =>
  if negb h then Stop "release" else
  Atomic (upd_lock l (with_lk_cpu None)) (fun _ =>
  Atomic (upd_lock l lock_release) (fun _ =>
  Atomic pop_off (fun _ =>
  Done tt)))).

Definition holding (l : lockid) : M bool := run_code (holding_code l).
Definition acquire (l : lockid) : M unit := run_code (acquire_code l).
Definition release (l : lockid) : M unit := run_code (release_code l).

(** ** The effect of the operations on the synchronisation state *)

(** Interrupts are off while a hart has outstanding [push_off]s. *)
Definition sync_ok (s : sync) : Prop :=
  0 <= c_noff (sy_cpu s) /\ (0 < c_noff (sy_cpu s) -> sy_sie s = false).

Definition lock_free (s : sync) (l : lockid) : Prop :=
  exists name, sy_locks s !! l = Some (mk_spinlock 0 name None).
Definition lock_held (s : sync) (l : lockid) : Prop :=
  exists name, sy_locks s !! l = Some (mk_spinlock 1 name (Some (sy_tp s))).

Definition sy_push (s : sync) : sync :=
  mk_sync (sy_tp s) false
    (mk_cpu (c_proc (sy_cpu s)) (c_noff (sy_cpu s) + 1)
       (if c_noff (sy_cpu s) =? 0 then sy_sie s else c_intena (sy_cpu s)))
    (sy_locks s) (sy_procs s).
Definition sy_pop (s : sync) : sync :=
  mk_sync (sy_tp s)
    (if (c_noff (sy_cpu s) - 1 =? 0) && c_intena (sy_cpu s) then true else sy_sie s)
    (mk_cpu (c_proc (sy_cpu s)) (c_noff (sy_cpu s) - 1) (c_intena (sy_cpu s)))
    (sy_locks s) (sy_procs s).
Definition sy_acquire (l : lockid) (s : sync) : sync :=
  put_lock l (mk_spinlock 1 (lk_name (get_lock s l)) (Some (sy_tp s))) (sy_push s).
Definition sy_release (l : lockid) (s : sync) : sync :=
  sy_pop (put_lock l (mk_spinlock 0 (lk_name (get_lock s l)) None) s).

(** ** Quiet changes *)

(** [p'] is [p], or [p] woken up. *)
Definition woken (p p' : proc) : Prop :=
  p' = p \/ (p_state p = SLEEPING /\ p' = set_p_state RUNNABLE p).

Record quiet (s s' : sync) : Prop := {
  q_tp : sy_tp s' = sy_tp s;
  q_sie : sy_sie s' = sy_sie s;
  q_proc : c_proc (sy_cpu s') = c_proc (sy_cpu s);
  q_noff : c_noff (sy_cpu s') = c_noff (sy_cpu s);
  q_intena : 0 < c_noff (sy_cpu s) -> c_intena (sy_cpu s') = c_intena (sy_cpu s);
  q_locks : sy_locks s' = sy_locks s;
  q_procs : Forall2 woken (sy_procs s) (sy_procs s') }.

#[export] Instance woken_preorder : PreOrder woken.
Proof.
  split.
  - intros p. by left.
  - intros p q r [->|[Hp ->]] [->|[Hq ->]]; try (by left); try (by right).
Qed.

#[export] Instance quiet_preorder : PreOrder quiet.
Proof.
  split.
  - intros s. split; try done.
  - intros s1 s2 s3 H1 H2. destruct H1, H2. split; try congruence.
    + intros Hn. rewrite q_intena1, q_intena0; congruence.
    + by etransitivity.
Qed.

Lemma quiet_sync_ok s s' : quiet s s' -> sync_ok s -> sync_ok s'.
Proof. intros [] []. split; [|intros ?]; congruence || (rewrite q_sie0; auto with lia). Qed.

Lemma quiet_lock_free s s' l : quiet s s' -> lock_free s l -> lock_free s' l.
Proof. intros [] [n H]. exists n. congruence. Qed.

Lemma quiet_lock_held s s' l : quiet s s' -> lock_held s l -> lock_held s' l.
Proof. intros [] [n H]. exists n. congruence. Qed.

Lemma sync_ok_acquire l s : sync_ok s -> sync_ok (sy_acquire l s).
Proof. intros []. split; simpl; [lia|done]. Qed.

Lemma lock_free_acquire l l' s : l <> l' -> lock_free s l -> lock_free (sy_acquire l' s) l.
Proof. intros Hne [n H]. exists n. simpl. by rewrite lookup_insert_ne. Qed.

Lemma lock_held_acquire l s : lock_held (sy_acquire l s) l.
Proof. eexists. simpl. by rewrite lookup_insert_eq. Qed.

#[export] Hint Resolve quiet_sync_ok quiet_lock_free quiet_lock_held sync_ok_acquire
  lock_free_acquire lock_held_acquire : kern.

(** Nothing but the locks and the interrupt bookkeeping changes between an
    [acquire] and the matching [release]. *)
Lemma quiet_critical l s s2 :
  sync_ok s -> lock_free s l -> quiet (sy_acquire l s) s2 -> quiet s (sy_release l s2).
Proof.
  intros [Hn Hs] [name Hl] [Q1 Q2 Q3 Q4 Q5 Q6 Q7]. simpl in *.
  specialize (Q5 ltac:(lia)).
  assert (get_lock s2 l = mk_spinlock 1 name (Some (sy_tp s))) as Eg.
  { unfold get_lock. rewrite Q6, lookup_insert_eq. simpl.
    unfold get_lock. by rewrite Hl. }
  split; simpl; auto.
  - rewrite Q4, Q5, Q2. replace (c_noff (sy_cpu s) + 1 - 1) with (c_noff (sy_cpu s)) by lia.
    destruct (Z.eqb_spec (c_noff (sy_cpu s)) 0) as [E|E]; simpl.
    + by destruct (sy_sie s).
    + rewrite Hs; [done|lia].
  - rewrite Q4. lia.
  - intros Hp. rewrite Q5. destruct (Z.eqb_spec (c_noff (sy_cpu s)) 0); [lia|done].
  - rewrite Eg, Q6. simpl. rewrite insert_insert_eq. by apply insert_id.
Qed.

(** ** Rules *)

Section rules.
Context {T : turn}.

Lemma wp_upd_sy f (Q : unit -> kernel -> Prop) k :
  Q tt (set_sy (f (k_sy k)) k) -> wp T (upd_sy f) Q k.
Proof. apply wp_modify. Qed.

Lemma wp_push_off (Q : unit -> kernel -> Prop) k :
  Q tt (set_sy (sy_push (k_sy k)) k) -> wp T push_off Q k.
Proof.
  intros HQ. eapply wp_eq; [|done]. intros e. unfold push_off, bind, intr_get, gets.
  unfold intr_off, upd_sy, modify, mycpu, gets, when. simpl. unfold sy_push.
  destruct (c_noff (sy_cpu (k_sy k)) =? 0); done.
Qed.

Lemma wp_pop_off (Q : unit -> kernel -> Prop) k :
  sy_sie (k_sy k) = false -> 1 <= c_noff (sy_cpu (k_sy k)) ->
  Q tt (set_sy (sy_pop (k_sy k)) k) -> wp T pop_off Q k.
Proof.
  intros Hs Hn HQ. eapply wp_eq; [|done]. intros e. unfold pop_off, bind, intr_get, gets.
  rewrite Hs. unfold mycpu, gets. simpl.
  destruct (Z.ltb_spec (c_noff (sy_cpu (k_sy k))) 1); [lia|].
  unfold upd_sy, modify, when, sy_pop. simpl.
  destruct ((c_noff (sy_cpu (k_sy k)) - 1 =? 0) && c_intena (sy_cpu (k_sy k)));
    done.
Qed.

Lemma test_and_set_free l name e k :
  sy_locks (k_sy k) !! l = Some (mk_spinlock 0 name None) ->
  test_and_set_loop l e k =
    Ret tt e (set_sy (put_lock l (mk_spinlock 1 name None) (k_sy k)) k).
Proof.
  intros Hl. assert (get_lock (k_sy k) l = mk_spinlock 0 name None) as E.
  { unfold get_lock. by rewrite Hl. }
  destruct e; simpl; rewrite E; done.
Qed.

Lemma run_code_bind {A B} (c : code A) (g : A -> code B) :
  meq (run_code (code_bind c g)) (let* a := run_code c in run_code (g a)).
Proof.
  induction c as [a|msg|C m f IH|l c IH]; simpl; [done|done| |]; rewrite bind_assoc.
  - apply bind_proper; [done|]. intros b. apply IH.
  - apply bind_proper; [done|]. intros _. apply IH.
Qed.

(** On one hart, with nothing in between, the code is the C text. *)
Lemma acquire_eq l : meq (acquire l) (
  push_off ;;
  let* h := holding l in
  if h then panic "acquire" else
  test_and_set_loop l ;;
  let* id := cpuid in
  upd_lock l (with_lk_cpu (Some id)) ;;
  ret tt).
Proof.
  unfold acquire, acquire_code. cbn [run_code]. apply bind_proper; [done|]. intros _.
  rewrite run_code_bind. apply bind_proper; [done|]. by intros [].
Qed.

Lemma release_eq l : meq (release l) (
  let* h := holding l in
  if negb h then panic "release" else
  upd_lock l (with_lk_cpu None) ;;
  upd_lock l lock_release ;;
  pop_off ;;
  ret tt).
Proof.
  unfold release, release_code. rewrite run_code_bind. apply bind_proper; [done|]. by intros [].
Qed.

(** What [holding] answers on hart [id]. *)
Definition lk_holding (id : Z) (lk : spinlock) : bool :=
  c_true (lk_locked lk) && bool_decide (lk_cpu lk = Some id).

Lemma wp_holding l (Q : bool -> kernel -> Prop) k :
  Q (lk_holding (sy_tp (k_sy k)) (get_lock (k_sy k) l)) k -> wp T (holding l) Q k.
Proof.
  intros HQ. unfold holding, holding_code. cbn [run_code]. apply wp_bind, wp_gets.
  unfold lk_holding in HQ. destruct (c_true _); [|by apply wp_ret].
  cbn [run_code]. apply wp_bind, wp_gets, wp_bind, wp_gets. by apply wp_ret.
Qed.

Lemma wp_acquire l (Q : unit -> kernel -> Prop) k :
  lock_free (k_sy k) l -> Q tt (set_sy (sy_acquire l (k_sy k)) k) ->
  wp T (acquire l) Q k.
Proof.
  intros [name Hl] HQ. rewrite acquire_eq. apply wp_bind, wp_push_off.
  apply wp_bind, wp_holding. unfold get_lock. simpl. rewrite Hl. simpl.
  wp_step. eapply wp_eq; [intros e; by eapply test_and_set_free|].
  wp_step. apply wp_gets, wp_bind, wp_upd_sy, wp_ret.
  unfold sy_acquire, get_lock, put_lock, with_lk_cpu in *. rewrite Hl in HQ.
  kproj. rewrite lookup_insert_eq. simpl default. kproj. by rewrite insert_insert_eq.
Qed.

Lemma wp_release_raw l (Q : unit -> kernel -> Prop) k :
  lock_held (k_sy k) l -> sy_sie (k_sy k) = false -> 1 <= c_noff (sy_cpu (k_sy k)) ->
  Q tt (set_sy (sy_release l (k_sy k)) k) -> wp T (release l) Q k.
Proof.
  intros [name Hl] Hs Hn HQ. rewrite release_eq. apply wp_bind, wp_holding.
  unfold get_lock, lk_holding. rewrite Hl. simpl.
  rewrite bool_decide_true by done. simpl.
  wp_step. apply wp_upd_sy. wp_step. apply wp_upd_sy.
  apply wp_bind, wp_pop_off; [exact Hs|exact Hn|]. apply wp_ret.
  unfold sy_release, get_lock, put_lock, with_lk_cpu, lock_release in *.
  rewrite Hl in *. kproj.
  rewrite lookup_insert_eq. simpl default in *. kproj. by rewrite insert_insert_eq.
Qed.

(** Leaving the critical section entered in state [s0]. *)
Lemma wp_release l s0 (Q : unit -> kernel -> Prop) k :
  sync_ok s0 -> lock_free s0 l -> quiet (sy_acquire l s0) (k_sy k) ->
  (forall s', quiet s0 s' -> sy_procs s' = sy_procs (k_sy k) -> Q tt (set_sy s' k)) ->
  wp T (release l) Q k.
Proof.
  intros Hok Hf Hq HQ. apply wp_release_raw.
  - eauto with kern.
  - rewrite (q_sie _ _ Hq). done.
  - rewrite (q_noff _ _ Hq). simpl. destruct Hok. lia.
  - apply HQ; [by apply quiet_critical|done].
Qed.

(** [push_off] and [pop_off] around a read. *)
Lemma wp_read_off {A} (f : kernel -> A) (Q : A -> kernel -> Prop) k :
  sync_ok (k_sy k) ->
  (forall s', quiet (k_sy k) s' -> sy_procs s' = sy_procs (k_sy k) ->
     Q (f (set_sy (sy_push (k_sy k)) k)) (set_sy s' k)) ->
  wp T (push_off ;; let* a := gets f in pop_off ;; ret a) Q k.
Proof.
  intros [Hn Hs] HQ. apply wp_bind, wp_push_off. wp_steps.
  apply wp_pop_off; simpl; [done|lia|]. apply wp_ret. apply HQ; [|done].
  split; simpl; auto; try lia; [| |reflexivity].
  - replace (c_noff (sy_cpu (k_sy k)) + 1 - 1) with (c_noff (sy_cpu (k_sy k))) by lia.
    destruct (Z.eqb_spec (c_noff (sy_cpu (k_sy k))) 0) as [E|E]; simpl.
    + by destruct (sy_sie (k_sy k)).
    + rewrite Hs; [done|lia].
  - intros Hp. destruct (Z.eqb_spec (c_noff (sy_cpu (k_sy k))) 0); [lia|done].
Qed.

End rules.

(** ** Properties of a single hart *)

(** Taking a free lock and releasing it succeeds in every environment and
    leaves the lock free, the interrupt state and the nesting depth as they
    were; in between the lock is held and interrupts are off. *)
Theorem acquire_release l k :
  sync_ok (k_sy k) -> lock_free (k_sy k) l ->
  exists s1 s2,
    (forall e, acquire l e k = Ret tt e (set_sy s1 k)) /\
    lock_held s1 l /\ sy_sie s1 = false /\
    (forall e, release l e (set_sy s1 k) = Ret tt e (set_sy s2 k)) /\
    quiet (k_sy k) s2 /\ lock_free s2 l.
Proof.
  intros Hok Hf.
  destruct (wp_exact (acquire l) (fun _ k' => k' = set_sy (sy_acquire l (k_sy k)) k) k)
    as ([] & ? & Ha & ->); [by apply wp_acquire|].
  destruct (wp_exact (release l)
    (fun _ k' => exists s', quiet (k_sy k) s' /\ k' = set_sy s' k)
    (set_sy (sy_acquire l (k_sy k)) k)) as ([] & ? & Hr & s2 & Hq & ->).
  { apply (wp_release l (k_sy k)); auto; [reflexivity|]. intros s' Hs' _. by exists s'. }
  exists (sy_acquire l (k_sy k)), s2. repeat (split; eauto with kern).
Qed.

Lemma sample_free l : l ∈ static_locks -> lock_free (k_sy sample) l.
Proof. intros H. exists "". by apply free_locks_lookup. Qed.

Lemma sample_sync_ok : sync_ok (k_sy sample).
Proof. split; simpl; [done|lia]. Qed.

#[export] Hint Resolve sample_sync_ok : kern.

Lemma acquire_release_witness :
  exists s1 s2, acquire L_kmem [] sample = Ret tt [] (set_sy s1 sample) /\
    release L_kmem [] (set_sy s1 sample) = Ret tt [] (set_sy s2 sample).
Proof.
  destruct (acquire_release L_kmem sample) as (s1 & s2 & H1 & _ & _ & H2 & _).
  - apply sample_sync_ok.
  - apply sample_free. left.
  - by exists s1, s2.
Defined.

(** [acquire] of a lock the hart already holds panics instead of
    deadlocking, and [release] of a lock it does not hold panics. *)
Theorem lock_misuse_panics l k :
  (lock_held (k_sy k) l -> panics (acquire l) "acquire" k) /\
  (lk_holding (sy_tp (k_sy k)) (get_lock (k_sy k) l) = false ->
   panics (release l) "release" k).
Proof.
  split.
  - intros [name Hl] e. rewrite acquire_eq. revert e.
    apply panics_bind_wp, wp_push_off, panics_bind_wp, wp_holding.
    unfold get_lock, lk_holding. simpl. rewrite Hl. simpl.
    rewrite bool_decide_true by done. apply panics_panic.
  - intros H e. rewrite release_eq. revert e. apply panics_bind_wp, wp_holding.
    rewrite H. apply panics_panic.
Qed.

Lemma lock_misuse_panics_witness :
  panics (acquire L_kmem) "acquire" (set_sy (sy_acquire L_kmem (k_sy sample)) sample) /\
  panics (release L_kmem) "release" sample.
Proof.
  split.
  - apply (lock_misuse_panics L_kmem (set_sy (sy_acquire L_kmem (k_sy sample)) sample)).
    apply lock_held_acquire.
  - apply (lock_misuse_panics L_kmem sample). vm_compute. done.
Defined.

(** [n] nested calls. *)
Definition push_offs (n : nat) : M unit := for_all (seq 0 n) (fun _ => push_off).
Definition pop_offs (n : nat) : M unit := for_all (seq 0 n) (fun _ => pop_off).

Lemma for_all_snoc {A} (l : list A) x (f : A -> M unit) :
  meq (for_all (l ++ [x]) f) (for_all l f ;; f x).
Proof.
  induction l as [|a l IH]; simpl.
  - intros e k. unfold bind, ret. by destruct (f x e k) as [[] ? ?| | | |].
  - rewrite bind_assoc. apply bind_proper; [done|]. intros ?. apply IH.
Qed.

Lemma push_offs_run n k e :
  push_offs n e k = Ret tt e (set_sy (Nat.iter n sy_push (k_sy k)) k).
Proof.
  induction n as [|n IH]; [done|].
  unfold push_offs. rewrite seq_S, for_all_snoc. unfold bind. fold (push_offs n).
  rewrite IH. simpl Nat.iter. set (s := Nat.iter n sy_push (k_sy k)).
  destruct (wp_exact push_off (fun _ k' => k' = set_sy (sy_push s) k) (set_sy s k))
    as ([] & ? & -> & ->); [by apply wp_push_off|done].
Qed.

(** The state after [n] pushes and [m] of the matching pops. *)
Record nested (s : sync) (n m : nat) (s' : sync) : Prop := {
  ne_noff : c_noff (sy_cpu s') = c_noff (sy_cpu s) + Z.of_nat (n - m);
  ne_proc : c_proc (sy_cpu s') = c_proc (sy_cpu s);
  ne_tp : sy_tp s' = sy_tp s;
  ne_locks : sy_locks s' = sy_locks s;
  ne_procs : sy_procs s' = sy_procs s;
  ne_off : (m < n)%nat -> sy_sie s' = false;
  ne_sie : m = n -> sy_sie s' = sy_sie s;
  ne_intena : (0 < n)%nat -> c_intena (sy_cpu s') =
    if c_noff (sy_cpu s) =? 0 then sy_sie s else c_intena (sy_cpu s);
  ne_intena0 : n = O -> c_intena (sy_cpu s') = c_intena (sy_cpu s) }.

Lemma nested_push s n : sync_ok s -> nested s n 0 (Nat.iter n sy_push s).
Proof.
  intros [Hn Hs]. induction n as [|n [H1 H2 H3 H4 H5 H6 H7 H8 H9]].
  { split; auto; simpl; lia. }
  simpl Nat.iter. split; simpl; auto; try lia.
  intros _. rewrite H1. destruct n as [|n].
  - rewrite H9, H7 by done. rewrite Z.add_0_r. done.
  - rewrite H8 by lia. destruct (Z.eqb_spec (c_noff (sy_cpu s) + Z.of_nat (S n - 0)) 0); lia || done.
Qed.

Lemma nested_pop s n m s' :
  sync_ok s -> (m < n)%nat -> nested s n m s' -> nested s n (S m) (sy_pop s').
Proof.
  intros [Hn Hs] Hm [H1 H2 H3 H4 H5 H6 H7 H8 H9].
  split; simpl; auto; try lia; rewrite ?H1, ?H8, ?H6 by lia; try lia.
  - intros ?. destruct (Z.eqb_spec (c_noff (sy_cpu s) + Z.of_nat (n - m) - 1) 0); lia || done.
  - intros <-. replace (S m - m)%nat with 1%nat by lia.
    replace (c_noff (sy_cpu s) + Z.of_nat 1 - 1) with (c_noff (sy_cpu s)) by lia.
    destruct (Z.eqb_spec (c_noff (sy_cpu s)) 0); simpl; [by destruct (sy_sie s)|].
    rewrite Hs; [done|lia].
Qed.

Lemma pop_offs_run n m s k :
  sync_ok s -> (m <= n)%nat ->
  exists s2, (forall e, pop_offs m e (set_sy (Nat.iter n sy_push s) k) = Ret tt e (set_sy s2 k))
             /\ nested s n m s2.
Proof.
  intros Hok. induction m as [|m IH]; intros Hm.
  { eexists. split; [done|]. by apply nested_push. }
  destruct (IH ltac:(lia)) as (s2 & F & Hne). exists (sy_pop s2).
  split; [|by apply nested_pop; auto with lia].
  intros e. unfold pop_offs. rewrite seq_S, for_all_snoc. unfold bind.
  fold (pop_offs m). rewrite F.
  destruct (wp_exact pop_off (fun _ k' => k' = set_sy (sy_pop s2) k) (set_sy s2 k))
    as ([] & ? & -> & ->); [|done].
  apply wp_pop_off; simpl; auto; [apply Hne; lia|].
  rewrite (ne_noff _ _ _ _ Hne). destruct Hok. lia.
Qed.

(** [pop_off]s match [push_off]s: after [n] of each the hart is where it
    started, and before the last [pop_off] interrupts are still off. *)
Theorem push_pop_nest n k :
  sync_ok (k_sy k) ->
  exists s1, (forall e, push_offs n e k = Ret tt e (set_sy s1 k)) /\
  forall m, (m <= n)%nat ->
  exists s2, (forall e, pop_offs m e (set_sy s1 k) = Ret tt e (set_sy s2 k)) /\
    ((m < n)%nat -> sy_sie s2 = false) /\ (m = n -> quiet (k_sy k) s2).
Proof.
  intros Hok. eexists. split; [intros e; apply push_offs_run|]. intros m Hm.
  destruct (pop_offs_run n m (k_sy k) k Hok Hm) as (s2 & F & [H1 H2 H3 H4 H5 H6 H7 H8 H9]).
  exists s2. split; [done|]. split; [done|]. intros ->. split; auto.
  - rewrite H1. lia.
  - intros Hpos. destruct n; [by rewrite H9|]. rewrite H8 by lia.
    destruct (Z.eqb_spec (c_noff (sy_cpu (k_sy k))) 0); lia || done.
  - by rewrite H5.
Qed.

Lemma push_pop_nest_witness :
  exists s1, push_offs 3 [] sample = Ret tt [] (set_sy s1 sample) /\
    exists s2, pop_offs 2 [] (set_sy s1 sample) = Ret tt [] (set_sy s2 sample) /\
      sy_sie s2 = false.
Proof.
  destruct (push_pop_nest 3 sample sample_sync_ok) as (s1 & H1 & H2).
  exists s1. split; [done|]. destruct (H2 2%nat) as (s2 & H3 & H4 & _); [lia|].
  exists s2. split; [done|]. apply H4. lia.
Defined.

(** ** Mutual exclusion between harts

    Any number of harts share the kernel.  Each has its own interrupt bit and
    [struct cpu], and runs [acquire_code l] and [release_code l] one action at
    a time, in any interleaving with the others; outside and inside the
    critical section it may do anything that leaves the lock [l] alone. *)

Inductive control :=
| Outside
| Acquiring (c : code unit)
| Inside
| Releasing (c : code unit).

Record hart := mk_hart { h_sie : bool; h_cpu : cpu; h_at : control }.
Record harts := mk_harts { hs_kernel : kernel; hs_hart : Z -> hart }.

(** The kernel as hart [h] sees it. *)
Definition hart_view (m : harts) (h : Z) : kernel :=
  let k := hs_kernel m in
  set_sy (mk_sync h (h_sie (hs_hart m h)) (h_cpu (hs_hart m h))
            (sy_locks (k_sy k)) (sy_procs (k_sy k))) k.

(** Hart [h] leaves the kernel as [k], and is at [x]. *)
Definition hart_put (m : harts) (h : Z) (k : kernel) (x : control) : harts :=
  mk_harts k (<[h := mk_hart (sy_sie (k_sy k)) (sy_cpu (k_sy k)) x]> (hs_hart m)).

(** One action. *)
Definition code_step (c : code unit) (k : kernel) : option (code unit * kernel) :=
  match c with
  | Done _ | Stop _ => None
  | Atomic m f =>
      match m [] k with
      | Ret b _ k' => Some (f b, k')
      | Panic msg k' => Some (Stop msg, k')
      | _ => None
      end
  | Swap l c' =>
      let (old, lk) := test_and_set (get_lock (k_sy k) l) in
      Some (if old =? 0 then c' else c, set_sy (put_lock l lk (k_sy k)) k)
  end.

Definition control_step (l : lockid) (x : control) (k : kernel) : option (control * kernel) :=
  match x with
  | Outside => Some (Acquiring (acquire_code l), k)
  | Acquiring (Done _) => Some (Inside, k)
  | Acquiring c => '(c', k') ← code_step c k; Some (Acquiring c', k')
  | Inside => Some (Releasing (release_code l), k)
  | Releasing (Done _) => Some (Outside, k)
  | Releasing c => '(c', k') ← code_step c k; Some (Releasing c', k')
  end.

Inductive hart_step (l : lockid) : harts -> harts -> Prop :=
| step_lock m h x k :
    control_step l (h_at (hs_hart m h)) (hart_view m h) = Some (x, k) ->
    hart_step l m (hart_put m h k x)
| step_other m h k :
    h_at (hs_hart m h) = Outside \/ h_at (hs_hart m h) = Inside /\ 1 <= c_noff (sy_cpu (k_sy k)) ->
    sync_ok (k_sy k) -> get_lock (k_sy k) l = get_lock (k_sy (hs_kernel m)) l ->
    hart_step l m (hart_put m h k (h_at (hs_hart m h))).

(** *** The lock word and its owner

    A hart is [Away] from the lock, or has set the word; [lk->cpu] names it
    while it is [Marked]. *)
Inductive phase := Away | Unmarked | Marked.

#[export] Instance phase_eq_dec : EqDecision phase.
Proof. solve_decision. Defined.

Definition lock_inv (lk : spinlock) (ph : Z -> phase) : Prop :=
  (lk_locked lk = 0 /\ lk_cpu lk = None /\ forall h, ph h = Away) \/
  (lk_locked lk = 1 /\ exists h, ph h <> Away /\ (forall h', ph h' <> Away -> h' = h) /\
     lk_cpu lk = if decide (ph h = Marked) then Some h else None).

(** What hart [h] may do to the lock. *)
Inductive lock_move (h : Z) : spinlock -> phase -> spinlock -> phase -> Prop :=
| lm_stay lk p : lock_move h lk p lk p
| lm_take lk : lk_locked lk = 0 -> lock_move h lk Away (test_and_set lk).2 Unmarked
| lm_mark lk : lock_move h lk Unmarked (with_lk_cpu (Some h) lk) Marked
| lm_clear lk : lock_move h lk Marked (with_lk_cpu None lk) Unmarked
| lm_release lk : lock_move h lk Unmarked (lock_release lk) Away.

Lemma lock_inv_owner lk ph h :
  lock_inv lk ph -> ph h <> Away ->
  lk_locked lk = 1 /\ (forall h', ph h' <> Away -> h' = h) /\
  lk_cpu lk = if decide (ph h = Marked) then Some h else None.
Proof.
  intros [(_ & _ & H)|(H1 & h0 & _ & H3 & H4)] Hp; [by rewrite H in Hp|].
  assert (h = h0) as <- by auto. auto.
Qed.

Lemma lock_inv_move h lk lk' ph p' :
  lock_inv lk ph -> lock_move h lk (ph h) lk' p' -> lock_inv lk' (<[h := p']> ph).
Proof.
  intros Hi Hm. assert (forall q, q <> Away -> lk_locked lk' = 1 ->
    (forall h', ph h' <> Away -> h' = h) -> lk_cpu lk' = (if decide (q = Marked) then Some h else None) ->
    lock_inv lk' (<[h := q]> ph)) as Hown.
  { intros q Hq E1 Ho E2. right. split; [done|]. exists h. rewrite fn_lookup_insert. split_and!; [done| |done].
    intros h'. destruct (decide (h' = h)) as [->|Hne]; [done|]. rewrite fn_lookup_insert_ne by done. auto. }
  inversion Hm as [lk0 p Ep|lk0 E Ep|lk0 Ep|lk0 Ep|lk0 Ep]; simplify_eq.
  - assert (forall h', (<[h := ph h]> ph) h' = ph h') as E.
    { intros h'. destruct (decide (h' = h)) as [->|]; [by rewrite fn_lookup_insert|by rewrite fn_lookup_insert_ne]. }
    destruct Hi as [(H1 & H2 & H3)|(H1 & h0 & H2 & H3 & H4)]; [left|right].
    + split_and!; [done..|]. intros h'. by rewrite E.
    + split; [done|]. exists h0. rewrite E. split_and!; [done| |done]. intros h'. rewrite E. auto.
  - destruct Hi as [(H1 & H2 & H3)|(H1 & _)]; [|congruence]. apply Hown; [done|done| |done].
    intros h' Hh. by rewrite H3 in Hh.
  - destruct (lock_inv_owner _ _ h Hi) as (H1 & H2 & H3); [congruence|]. by apply Hown.
  - destruct (lock_inv_owner _ _ h Hi) as (H1 & H2 & H3); [congruence|]. by apply Hown.
  - destruct (lock_inv_owner _ _ h Hi) as (H1 & H2 & H3); [congruence|]. left. split_and!; [done| |].
    + simpl. rewrite H3, decide_False by congruence. done.
    + intros h'. destruct (decide (h' = h)) as [->|Hne]; [by rewrite fn_lookup_insert|].
      rewrite fn_lookup_insert_ne by done. destruct (decide (ph h' = Away)) as [|Ha]; [done|by apply H2 in Ha].
Qed.

(** *** Where a hart stands in the code

    [point l h x p b]: with [x] still to run, hart [h] is in phase [p], and
    its own [push_off] is outstanding when [b]. *)

(** The code of [acquire] after the test of [holding], and after the swap. *)
Definition acquire_taken (l : lockid) : code unit :=
  Atomic cpuid (fun id => Atomic (upd_lock l (with_lk_cpu (Some id))) (fun _ => Done tt)).
Definition acquire_held (l : lockid) (h : bool) : code unit :=
  if h then Stop "acquire" else Swap l (acquire_taken l).
Definition release_popping : code unit := Atomic pop_off (fun _ => Done tt).
Definition release_cleared (l : lockid) : code unit :=
  Atomic (upd_lock l lock_release) (fun _ => release_popping).
Definition release_held (l : lockid) (h : bool) : code unit :=
  if negb h then Stop "release" else Atomic (upd_lock l (with_lk_cpu None)) (fun _ => release_cleared l).

(** The rest of [holding] once the word has been read as set, and once
    [lk->cpu] has been read as [c]. *)
Definition holding_id (g : bool -> code unit) (c : option Z) : code unit :=
  Atomic cpuid (fun id => g (bool_decide (c = Some id))).
Definition holding_cpu (l : lockid) (g : bool -> code unit) : code unit :=
  Atomic (gets (fun k => lk_cpu (get_lock (k_sy k) l))) (holding_id g).

Inductive point (l : lockid) (h : Z) : control -> phase -> bool -> Prop :=
| pt_outside : point l h Outside Away false
| pt_acquire : point l h (Acquiring (acquire_code l)) Away false
| pt_acquire_word : point l h (Acquiring (code_bind (holding_code l) (acquire_held l))) Away true
| pt_acquire_cpu : point l h (Acquiring (holding_cpu l (acquire_held l))) Away true
| pt_acquire_id c : c <> Some h -> point l h (Acquiring (holding_id (acquire_held l) c)) Away true
| pt_acquire_swap : point l h (Acquiring (acquire_held l false)) Away true
| pt_acquire_taken : point l h (Acquiring (acquire_taken l)) Unmarked true
| pt_acquire_mark :
    point l h (Acquiring (Atomic (upd_lock l (with_lk_cpu (Some h))) (fun _ => Done tt))) Unmarked true
| pt_acquire_done : point l h (Acquiring (Done tt)) Marked true
| pt_inside : point l h Inside Marked true
| pt_release : point l h (Releasing (release_code l)) Marked true
| pt_release_cpu : point l h (Releasing (holding_cpu l (release_held l))) Marked true
| pt_release_id : point l h (Releasing (holding_id (release_held l) (Some h))) Marked true
| pt_release_clear : point l h (Releasing (release_held l true)) Marked true
| pt_release_word : point l h (Releasing (release_cleared l)) Unmarked true
| pt_release_pop : point l h (Releasing release_popping) Away true
| pt_release_done : point l h (Releasing (Done tt)) Away false.

(** The interrupt state of a hart, with its [push_off] outstanding or not. *)
Definition hart_ok (b : bool) (s : sync) : Prop := sync_ok s /\ (b = true -> 1 <= c_noff (sy_cpu s)).

Lemma get_put_lock l lk s : get_lock (put_lock l lk s) l = lk.
Proof. unfold get_lock, put_lock. simpl. by rewrite lookup_insert_eq. Qed.

Lemma test_and_set_held lk : lk_locked lk = 1 -> (test_and_set lk).2 = lk.
Proof. destruct lk. simpl. by intros ->. Qed.

Lemma push_off_step k : push_off [] k = Ret tt [] (set_sy (sy_push (k_sy k)) k).
Proof.
  destruct (wp_exact push_off (fun _ k' => k' = set_sy (sy_push (k_sy k)) k) k) as ([] & ? & -> & ->);
    [by apply wp_push_off|done].
Qed.

Lemma pop_off_step k : hart_ok true (k_sy k) -> pop_off [] k = Ret tt [] (set_sy (sy_pop (k_sy k)) k).
Proof.
  intros [[Hn Hs] H1]. specialize (H1 eq_refl).
  destruct (wp_exact pop_off (fun _ k' => k' = set_sy (sy_pop (k_sy k)) k) k) as ([] & ? & -> & ->); [|done].
  apply wp_pop_off; [apply Hs; lia|done|done].
Qed.

Lemma hart_ok_push s : sync_ok s -> hart_ok true (sy_push s).
Proof. intros [Hn Hs]. split; [split; simpl; [lia|done]|simpl; lia]. Qed.

Lemma hart_ok_pop s : hart_ok true s -> hart_ok false (sy_pop s).
Proof.
  intros [[Hn Hs] H1]. specialize (H1 eq_refl). split; [|done]. split; simpl; [lia|]. intros Hp.
  destruct (Z.eqb_spec (c_noff (sy_cpu s) - 1) 0); [lia|]. simpl. apply Hs. lia.
Qed.

(** The next action leads to point [c] and does [mv] to the lock. *)
Ltac next c mv := do 4 eexists; split_and!; [done|by apply c|done|by apply mv].

(** From a point the hart moves on to the next one and does to the lock what
    the phases allow; [Away] harts find [lk->cpu] different from themselves,
    [Marked] ones find the lock theirs. *)
Lemma point_step l h x p b k :
  point l h x p b -> hart_ok b (k_sy k) -> sy_tp (k_sy k) = h ->
  lk_locked (get_lock (k_sy k) l) = 0 \/ lk_locked (get_lock (k_sy k) l) = 1 ->
  (p = Away -> lk_cpu (get_lock (k_sy k) l) <> Some h) ->
  (p = Marked -> lk_locked (get_lock (k_sy k) l) = 1 /\ lk_cpu (get_lock (k_sy k) l) = Some h) ->
  exists x' k' p' b', control_step l x k = Some (x', k') /\ point l h x' p' b' /\
    hart_ok b' (k_sy k') /\ lock_move h (get_lock (k_sy k) l) p (get_lock (k_sy k') l) p'.
Proof.
  intros Hp Hok Htp H01 Haway Hmark.
  destruct Hp as [| | | |c Hc| | | | | | | | | | | |]; cbn -[push_off pop_off].
  - next pt_acquire lm_stay.
  - rewrite push_off_step. cbn. do 4 eexists. split_and!; [done|apply pt_acquire_word| |apply lm_stay].
    apply hart_ok_push, Hok.
  - destruct H01 as [E|E]; rewrite E; cbn; [next pt_acquire_swap lm_stay|next pt_acquire_cpu lm_stay].
  - specialize (Haway eq_refl). next pt_acquire_id lm_stay.
  - rewrite Htp, bool_decide_false by done. next pt_acquire_swap lm_stay.
  - change (mk_spinlock 1 _ _) with (test_and_set (get_lock (k_sy k) l)).2.
    destruct H01 as [E|E]; rewrite E; cbn -[test_and_set]; do 4 eexists.
    + split_and!; [done|apply pt_acquire_taken|done|]. kproj. rewrite get_put_lock. by apply lm_take.
    + split_and!; [done|apply pt_acquire_swap|done|]. kproj. rewrite get_put_lock, test_and_set_held by done.
      apply lm_stay.
  - rewrite Htp. next pt_acquire_mark lm_stay.
  - do 4 eexists. split_and!; [done|apply pt_acquire_done|done|]. kproj. rewrite get_put_lock. apply lm_mark.
  - next pt_inside lm_stay.
  - next pt_release lm_stay.
  - destruct (Hmark eq_refl) as [E _]. rewrite E. next pt_release_cpu lm_stay.
  - destruct (Hmark eq_refl) as [_ E]. rewrite E. next pt_release_id lm_stay.
  - rewrite Htp, bool_decide_true by done. next pt_release_clear lm_stay.
  - do 4 eexists. split_and!; [done|apply pt_release_word|done|]. kproj. rewrite get_put_lock. apply lm_clear.
  - do 4 eexists. split_and!; [done|apply pt_release_pop|done|]. kproj. rewrite get_put_lock. apply lm_release.
  - rewrite pop_off_step by done. do 4 eexists. split_and!; [done|apply pt_release_done| |apply lm_stay].
    by apply hart_ok_pop.
  - next pt_outside lm_stay.
Qed.

(** *** The invariant of the harts *)
Record harts_inv (l : lockid) (m : harts) (ph : Z -> phase) : Prop := {
  hi_lock : lock_inv (get_lock (k_sy (hs_kernel m)) l) ph;
  hi_hart h : exists b, point l h (h_at (hs_hart m h)) (ph h) b /\ hart_ok b (k_sy (hart_view m h)) }.

Lemma harts_inv_next l m ph h :
  harts_inv l m ph -> exists x' k' p' b',
    control_step l (h_at (hs_hart m h)) (hart_view m h) = Some (x', k') /\ point l h x' p' b' /\
    hart_ok b' (k_sy k') /\ lock_move h (get_lock (k_sy (hs_kernel m)) l) (ph h) (get_lock (k_sy k') l) p'.
Proof.
  intros [Hl Hh]. destruct (Hh h) as (b & Hp & Hok).
  apply (point_step l h _ (ph h) b (hart_view m h)); [done|done|done| | |].
  - destruct Hl as [(E & _)|(E & _)]; auto.
  - intros Ha. change (lk_cpu (get_lock (k_sy (hs_kernel m)) l) <> Some h).
    destruct Hl as [(_ & -> & _)|(_ & h0 & H2 & _ & ->)]; [done|]. case_decide; congruence.
  - intros Hm. destruct (lock_inv_owner _ _ h Hl) as (H1 & _ & H3); [congruence|].
    rewrite decide_True in H3 by done. done.
Qed.

(** Hart [h] moves; the others stand where they were. *)
Lemma harts_inv_put l m ph h k x p b :
  harts_inv l m ph -> point l h x p b -> hart_ok b (k_sy k) ->
  lock_move h (get_lock (k_sy (hs_kernel m)) l) (ph h) (get_lock (k_sy k) l) p ->
  harts_inv l (hart_put m h k x) (<[h := p]> ph).
Proof.
  intros [Hl Hh] Hp Hok Hm. split; [by eapply lock_inv_move|]. intros h'.
  unfold hart_view. simpl. destruct (decide (h' = h)) as [->|Hne].
  - rewrite !fn_lookup_insert. by exists b.
  - rewrite !fn_lookup_insert_ne by done. apply Hh.
Qed.

Lemma harts_inv_step l m m' ph :
  hart_step l m m' -> harts_inv l m ph -> exists ph', harts_inv l m' ph'.
Proof.
  intros [m0 h x k E|m0 h k Hat Hok El] Hi.
  - destruct (harts_inv_next l m0 ph h Hi) as (x' & k' & p' & b' & E' & Hp & Ho & Hm).
    rewrite E in E'. injection E' as <- <-. eexists. by eapply harts_inv_put.
  - destruct (hi_hart _ _ _ Hi h) as (b & Hp & Hb). exists (<[h := ph h]> ph).
    eapply harts_inv_put; [done|done| |rewrite El; apply lm_stay]. split; [done|]. intros ->.
    destruct Hat as [Hat|[_ Hat]]; [|done]. rewrite Hat in Hp. by inversion Hp.
Qed.

Lemma harts_inv_reached l m m' :
  lock_free (k_sy (hs_kernel m)) l ->
  (forall h, h_at (hs_hart m h) = Outside /\ sync_ok (k_sy (hart_view m h))) ->
  rtc (hart_step l) m m' -> exists ph, harts_inv l m' ph.
Proof.
  intros [name Hf] Hout Hr. assert (exists ph, harts_inv l m ph) as Hi.
  { exists (fun _ => Away). split.
    - left. unfold get_lock. by rewrite Hf.
    - intros h. destruct (Hout h) as [-> Hok]. exists false. split; [apply pt_outside|by split]. }
  clear Hf Hout. induction Hr as [|m m1 m2 Hs _ IH]; [done|]. destruct Hi as [ph Hi].
  apply IH. by eapply harts_inv_step.
Qed.

Lemma harts_inv_inside l m ph h :
  harts_inv l m ph -> h_at (hs_hart m h) = Inside -> ph h = Marked /\ h_sie (hs_hart m h) = false.
Proof.
  intros Hi E. destruct (hi_hart _ _ _ Hi h) as (b & Hp & [[Hn Hs] H1]). rewrite E in Hp.
  inversion Hp; subst. split; [done|]. apply Hs. specialize (H1 eq_refl). lia.
Qed.

Lemma harts_inv_outside l m ph h : harts_inv l m ph -> h_at (hs_hart m h) = Outside -> ph h = Away.
Proof. intros Hi E. destruct (hi_hart _ _ _ Hi h) as (b & Hp & _). rewrite E in Hp. by inversion Hp. Qed.

(** C40: however the harts interleave the atomic actions of [acquire] and
    [release] on one lock with each other, and with other code that leaves
    the lock alone, from a state with the lock free and every hart outside:
    at most one hart is inside the critical section, there its interrupts are
    off and [holding] answers yes; [holding] answers no on a hart outside; no
    hart panics or is ever without a next action; and when every hart is
    outside again the lock is free. *)
Theorem mutual_exclusion l m m' :
  lock_free (k_sy (hs_kernel m)) l ->
  (forall h, h_at (hs_hart m h) = Outside /\ sync_ok (k_sy (hart_view m h))) ->
  rtc (hart_step l) m m' ->
  (forall h h', h_at (hs_hart m' h) = Inside -> h_at (hs_hart m' h') = Inside -> h = h') /\
  (forall h, h_at (hs_hart m' h) = Inside ->
     h_sie (hs_hart m' h) = false /\ wp no_turn (holding l) (fun r _ => r = true) (hart_view m' h)) /\
  (forall h, h_at (hs_hart m' h) = Outside ->
     wp no_turn (holding l) (fun r _ => r = false) (hart_view m' h)) /\
  (forall h msg, h_at (hs_hart m' h) <> Acquiring (Stop msg) /\ h_at (hs_hart m' h) <> Releasing (Stop msg)) /\
  (forall h, is_Some (control_step l (h_at (hs_hart m' h)) (hart_view m' h))) /\
  ((forall h, h_at (hs_hart m' h) = Outside) -> lk_locked (get_lock (k_sy (hs_kernel m')) l) = 0).
Proof.
  intros Hf Hout Hr. destruct (harts_inv_reached l m m' Hf Hout Hr) as [ph Hi].
  pose proof (hi_lock _ _ _ Hi) as Hl. split_and!.
  - intros h h' Hh Hh'. apply (harts_inv_inside _ _ _ _ Hi) in Hh as [Hh _], Hh' as [Hh' _].
    destruct (lock_inv_owner _ _ h' Hl) as (_ & Ho & _); [congruence|]. apply Ho. congruence.
  - intros h Hh. destruct (harts_inv_inside _ _ _ _ Hi Hh) as [Hm Hs]. split; [done|].
    destruct (lock_inv_owner _ _ h Hl) as (E1 & _ & E2); [congruence|]. rewrite decide_True in E2 by done.
    apply wp_holding. unfold lk_holding. change (get_lock (k_sy (hart_view m' h)) l) with (get_lock (k_sy (hs_kernel m')) l).
    rewrite E1, E2. by apply bool_decide_true.
  - intros h Hh%(harts_inv_outside _ _ _ _ Hi).
    apply wp_holding. unfold lk_holding. change (get_lock (k_sy (hart_view m' h)) l) with (get_lock (k_sy (hs_kernel m')) l).
    destruct Hl as [(-> & _)|(_ & h0 & H2 & _ & ->)]; [done|]. apply andb_false_iff. right.
    apply bool_decide_false. simpl. case_decide; congruence.
  - intros h msg. destruct (hi_hart _ _ _ Hi h) as (b & Hp & _). split; intros E; rewrite E in Hp; inversion Hp.
  - intros h. destruct (harts_inv_next l m' ph h Hi) as (x' & k' & _ & _ & -> & _). by eexists.
  - intros Ho. destruct Hl as [(E & _)|(_ & h & H2 & _)]; [done|]. destruct H2.
    by apply (harts_inv_outside _ _ _ _ Hi).
Qed.

(** Harts taking turns in a given order. *)
Fixpoint run_harts (l : lockid) (order : list Z) (m : harts) : option harts :=
  match order with
  | [] => Some m
  | h :: order =>
      '(x, k) ← control_step l (h_at (hs_hart m h)) (hart_view m h); run_harts l order (hart_put m h k x)
  end.

Lemma run_harts_steps l order m m' : run_harts l order m = Some m' -> rtc (hart_step l) m m'.
Proof.
  revert m. induction order as [|h order IH]; intros m; simpl; [by intros [= <-]|].
  destruct (control_step _ _ _) as [[x k]|] eqn:E; simpl; [|done]. intros Hr.
  eapply rtc_l; [by apply step_lock|]. by apply IH.
Qed.

Definition two_harts : harts := mk_harts sample (fun _ => mk_hart true (mk_cpu None 0 false) Outside).

(** Harts 0 and 1 both pass the test of [holding] before either swaps; hart 0
    wins, hart 1 spins twice, hart 0 leaves, and hart 1 gets in. *)
Definition two_order : list Z :=
  [0; 1; 0; 1; 0; 1; 0; 1; 0; 0; 0; 1; 0; 0; 0; 0; 0; 0; 0; 1; 1; 1; 1].

Lemma mutual_exclusion_witness : exists m',
  run_harts L_kmem two_order two_harts = Some m' /\ h_at (hs_hart m' 1) = Inside /\
  h_at (hs_hart m' 0) <> Inside /\ h_sie (hs_hart m' 1) = false.
Proof.
  assert (h_at ∘ (fun m => hs_hart m 1) <$> run_harts L_kmem two_order two_harts = Some Inside) as H1
    by (vm_compute; reflexivity).
  destruct (run_harts L_kmem two_order two_harts) as [m'|] eqn:E; [|discriminate H1].
  injection H1 as H1.
  exists m'. destruct (mutual_exclusion L_kmem two_harts m') as (Hx & Hi & _).
  - apply sample_free. left.
  - intros h. split; [done|]. split; simpl; [done|lia].
  - by eapply run_harts_steps.
  - split_and!; [done|done| |apply Hi, H1]. intros H0. by specialize (Hx 0 1 H0 H1).
Defined.
