(* ===== verification/Sched.v ===== *)
(** * The scheduling part of [kernel/proc.c]

    [myproc], [sched], [yield], [sleep], [wakeup], [wakeup1], [kill] and the
    scheduler loop.  A [swtch] out of a thread takes one turn of the
    environment: whatever the other threads and harts do until the scheduler
    switches back to it. *)

From S2P Require Import Prelude Defs State Logic Spinlock.

(** ** Process table *)

Definition procs (k : kernel) : list proc := sy_procs (k_sy k).
Definition proc_at (k : kernel) (i : nat) : proc := default zero_proc (procs k !! i).

Definition get_proc (i : nat) : M proc := gets (fun k => proc_at k i).
Definition upd_proc (i : nat) (f : proc -> proc) : M unit :=
  upd_sy (fun s => set_procs (alter f i (sy_procs s)) s).

(** ** Current process *)

Definition myproc : M (option nat) :=
  push_off ;;
  let* p := gets (fun k => c_proc (sy_cpu (k_sy k))) in
  pop_off ;;
  ret p.

(** Following a null [struct proc *] faults. *)
Definition deref {A} (p : option A) : M A :=
  match p with
  | Some a => ret a
  | None => panic "kerneltrap"
  end.

Definition curproc : M nat := let* p := myproc in deref p.

(** ** sched, yield *)

Definition sched : M unit :=
  let* p := curproc in
  let* h := holding (L_proc p) in
  if negb h then panic "sched p->lock" else
  let* c := mycpu in
  if negb (c_noff c =? 1) then panic "sched locks" else
  let* pr := get_proc p in
  if bool_decide (p_state pr = RUNNING) then panic "sched running" else
  let* on := intr_get in
  if on then panic "sched interruptible" else
  let* c := mycpu in
  let intena := c_intena c in
  swtch_out ;;
  upd_sy (fun s => set_cpu (set_c_intena intena (sy_cpu s)) s).

Definition yield : M unit :=
  let* p := curproc in
  acquire (L_proc p) ;;
  upd_proc p (set_p_state RUNNABLE) ;;
  sched ;;
  release (L_proc p).

(** ** sleep, wakeup *)

Definition sleep (c : chan) (lk : lockid) : M unit :=
  let* p := curproc in
  when (negb (bool_decide (lk = L_proc p)))
    (acquire (L_proc p) ;; release lk) ;;
  upd_proc p (set_p_chan (Some c)) ;;
  upd_proc p (set_p_state SLEEPING) ;;
  sched ;;
  upd_proc p (set_p_chan None) ;;
  when (negb (bool_decide (lk = L_proc p)))
    (release (L_proc p) ;; acquire lk).

Definition sleeping_on (c : chan) (p : proc) : bool :=
  bool_decide (p_state p = SLEEPING) && bool_decide (p_chan p = Some c).

Definition wakeup (c : chan) : M unit :=
  for_all (seq 0 NPROC) (fun i =>
    acquire (L_proc i) ;;
    let* p := get_proc i in
    when (sleeping_on c p) (upd_proc i (set_p_state RUNNABLE)) ;;
    release (L_proc i)).

(** The caller passes the process whose [wait] is to be ended. *)
Definition wakeup1 (i : nat) : M unit :=
  let* h := holding (L_proc i) in
  if negb h then panic "wakeup1" else
  let* p := get_proc i in
  when (bool_decide (p_chan p = Some (C_proc i)) && bool_decide (p_state p = SLEEPING))
    (upd_proc i (set_p_state RUNNABLE)).

Definition kill (pid : Z) : M Z :=
  let* r := for_each (seq 0 NPROC) (fun i =>
    acquire (L_proc i) ;;
    let* p := get_proc i in
    if p_pid p =? pid then
      upd_proc i (set_p_killed 1) ;;
      let* p := get_proc i in
      when (bool_decide (p_state p = SLEEPING)) (upd_proc i (set_p_state RUNNABLE)) ;;
      release (L_proc i) ;;
      ret (Some 0)
    else
      release (L_proc i) ;;
      ret None) in
  ret (default (-1) r).

(** ** The scheduler

    One pass of the [for(;;)] of [scheduler]: the number of processes seen is
    returned; the body of [swtch] is the run of the chosen process until it
    switches back, a turn of the environment. *)

Definition set_cproc (p : option nat) : M unit :=
  upd_sy (fun s => set_cpu (set_c_proc p (sy_cpu s)) s).

Definition scheduler_step (i : nat) (nproc : Z) : M Z :=
  acquire (L_proc i) ;;
  let* p := get_proc i in
  let nproc := if bool_decide (p_state p = UNUSED) then nproc else nproc + 1 in
  when (bool_decide (p_state p = RUNNABLE))
    (upd_proc i (set_p_state RUNNING) ;;
     set_cproc (Some i) ;;
     swtch_out ;;
     set_cproc None) ;;
  release (L_proc i) ;;
  ret nproc.

(** What is left of [scheduler_step] when process [i] switches back. *)
Definition scheduler_back (i : nat) : M unit :=
  set_cproc None ;;
  release (L_proc i).

Fixpoint scheduler_scan (l : list nat) (nproc : Z) : M Z :=
  match l with
  | [] => ret nproc
  | i :: l => let* nproc := scheduler_step i nproc in scheduler_scan l nproc
  end.

(** [wfi] when only init and the shell exist has no effect on the state. *)
Definition scheduler_pass : M unit :=
  intr_on ;;
  let* nproc := scheduler_scan (seq 0 NPROC) 0 in
  when (nproc <=? 2) intr_on.

Fixpoint scheduler (passes : nat) : M unit :=
  match passes with
  | O => fun e k => Loop k
  | S n => scheduler_pass ;; scheduler n
  end.

(** ** Effect of the wake-ups *)

Definition wake (c : chan) (p : proc) : proc :=
  if sleeping_on c p then set_p_state RUNNABLE p else p.

Definition procs_free (s : sync) : Prop :=
  length (sy_procs s) = NPROC /\ forall i, (i < NPROC)%nat -> lock_free s (L_proc i).

Lemma wake_woken c p : woken p (wake c p).
Proof.
  unfold wake. destruct (sleeping_on c p) eqn:E; [|by left]. right. split; [|done].
  unfold sleeping_on in E. apply andb_true_iff in E as [E _].
  by apply bool_decide_eq_true in E.
Qed.

Lemma woken_alter s i f :
  (forall p, woken p (f p)) -> Forall2 woken (sy_procs s) (alter f i (sy_procs s)).
Proof.
  intros H. apply Forall2_same_length_lookup. split; [by rewrite length_alter|].
  intros j p p' Hp Hp'. destruct (decide (i = j)) as [->|].
  - rewrite list_lookup_alter_eq, Hp in Hp'. simplify_eq/=. apply H.
  - rewrite list_lookup_alter_ne, Hp in Hp' by done. simplify_eq. reflexivity.
Qed.

Lemma quiet_set_procs s l : Forall2 woken (sy_procs s) l -> quiet s (set_procs l s).
Proof. by split. Qed.

Lemma quiet_procs_length s s' : quiet s s' -> length (sy_procs s') = length (sy_procs s).
Proof. intros H. symmetry. eapply Forall2_length, H. Qed.

Lemma quiet_woken k k' i : quiet (k_sy k) (k_sy k') -> woken (proc_at k i) (proc_at k' i).
Proof.
  intros Hq. pose proof (q_procs _ _ Hq) as H. unfold proc_at, procs.
  destruct (sy_procs (k_sy k) !! i) as [x|] eqn:E.
  - by destruct (Forall2_lookup_l _ _ _ _ _ H E) as (x' & -> & Hw).
  - apply lookup_ge_None in E. rewrite (Forall2_length _ _ _ H) in E. rewrite (lookup_ge_None_2 _ _ E). by left.
Qed.

Lemma quiet_procs_free s s' : quiet s s' -> procs_free s -> procs_free s'.
Proof.
  intros Hq [Hl Hf]. split; [by rewrite (quiet_procs_length _ _ Hq)|].
  intros i Hi. eauto with kern.
Qed.

Lemma procs_free_acquire l s :
  (forall i, l <> L_proc i) -> procs_free s -> procs_free (sy_acquire l s).
Proof. intros Hne [Hl Hf]. split; [done|]. intros i Hi. apply lock_free_acquire; auto. Qed.

#[export] Hint Resolve quiet_procs_free procs_free_acquire : kern.
#[export] Hint Extern 1 (_ <> L_proc _) => discriminate : kern.

(** ** Rules *)

Section rules.
Context {T : turn}.

Lemma wp_myproc (Q : option nat -> kernel -> Prop) k :
  sync_ok (k_sy k) ->
  (forall s', quiet (k_sy k) s' -> sy_procs s' = sy_procs (k_sy k) ->
     Q (c_proc (sy_cpu (k_sy k))) (set_sy s' k)) ->
  wp T myproc Q k.
Proof. intros H HQ. unfold myproc. apply wp_read_off; [done|]. apply HQ. Qed.

Lemma wp_curproc p (Q : nat -> kernel -> Prop) k :
  sync_ok (k_sy k) -> c_proc (sy_cpu (k_sy k)) = Some p ->
  (forall s', quiet (k_sy k) s' -> sy_procs s' = sy_procs (k_sy k) -> Q p (set_sy s' k)) ->
  wp T curproc Q k.
Proof.
  intros H Hp HQ. unfold curproc. apply wp_bind, wp_myproc; [done|].
  intros s' Hs' E. rewrite Hp. by apply wp_ret, HQ.
Qed.

Lemma wp_upd_proc i f (Q : unit -> kernel -> Prop) k :
  Q tt (set_sy (set_procs (alter f i (procs k)) (k_sy k)) k) -> wp T (upd_proc i f) Q k.
Proof. apply wp_upd_sy. Qed.

Lemma wp_wakeup_one c i (Q : unit -> kernel -> Prop) k :
  sync_ok (k_sy k) -> lock_free (k_sy k) (L_proc i) -> (i < length (procs k))%nat ->
  (forall s', quiet (k_sy k) s' -> sy_procs s' = alter (wake c) i (procs k) ->
     Q tt (set_sy s' k)) ->
  wp T (acquire (L_proc i) ;;
        let* p := get_proc i in
        when (sleeping_on c p) (upd_proc i (set_p_state RUNNABLE)) ;;
        release (L_proc i)) Q k.
Proof.
  intros Hok Hf Hi HQ. destruct (lookup_lt_is_Some_2 (procs k) i Hi) as [p Hp].
  apply wp_bind, wp_acquire; [done|]. wp_step. apply wp_gets.
  unfold proc_at, procs in *. kproj. simpl sy_procs. rewrite Hp. simpl default.
  wp_step. apply (wp_mono _ (fun _ k' =>
    k' = set_sy (set_procs (alter (wake c) i (procs k)) (sy_acquire (L_proc i) (k_sy k))) k)).
  - apply wp_when; intros Hs.
    + apply wp_upd_proc. unfold procs. kproj.
      by rewrite (alter_ext_at _ (wake c) _ _ p) by (unfold wake; by rewrite ?Hs).
    + unfold procs. by rewrite (alter_id_at (wake c) _ _ p) by (unfold wake; by rewrite ?Hs).
  - intros [] k' ->. apply (wp_release _ (k_sy k)); [done..| |].
    + apply quiet_set_procs, woken_alter, wake_woken.
    + intros s' Hq E. by apply HQ.
Qed.

(** [wakeup] wakes exactly the processes sleeping on the channel. *)
Lemma wp_wakeup c (Q : unit -> kernel -> Prop) k :
  sync_ok (k_sy k) -> procs_free (k_sy k) ->
  (forall s', quiet (k_sy k) s' -> sy_procs s' = map (wake c) (procs k) -> Q tt (set_sy s' k)) ->
  wp T (wakeup c) Q k.
Proof.
  intros Hok [Hlen Hf] HQ. unfold wakeup.
  apply (wp_for_all (fun dn k' => exists s', k' = set_sy s' k /\ quiet (k_sy k) s' /\
    sy_procs s' = map (wake c) (take (length dn) (procs k)) ++ drop (length dn) (procs k))).
  - exists (k_sy k). by rewrite take_0, drop_0.
  - intros dn i rest k' E (s & -> & Hq & Hp).
    destruct (seq_split _ _ _ _ E) as [-> Hi]. set (i := length dn) in *.
    destruct (lookup_lt_is_Some_2 (procs k) i) as [p Hpi]; [by rewrite <- Hlen in Hi|].
    apply wp_wakeup_one; [eauto with kern..| |].
    { unfold procs. kproj. rewrite (quiet_procs_length _ _ Hq). lia. }
    intros s' Hq' Hp'. exists s'. split; [done|]. split; [by etransitivity|].
    rewrite Hp'. unfold procs at 1. kproj. rewrite Hp, length_app, Nat.add_1_r. fold i.
    assert (length (map (wake c) (take i (procs k))) = i) as El.
    { rewrite length_map, length_take. unfold procs. lia. }
    rewrite alter_app_r_alt, El, Nat.sub_diag by lia.
    rewrite (take_S_r _ _ p), map_app, <- app_assoc by done.
    by rewrite (drop_S _ p i) by done.
  - intros k' (s & -> & Hq & Hp). apply HQ; [done|].
    rewrite Hp, length_seq. unfold procs. rewrite <- Hlen.
    by rewrite firstn_all, drop_all, app_nil_r.
Qed.

End rules.

(** ** Properties *)

(** [wakeup] makes runnable exactly the processes that sleep on the given
    channel, in every environment, and gives back all locks. *)
Theorem wakeup_exact c k :
  sync_ok (k_sy k) -> procs_free (k_sy k) ->
  exists s', (forall e, wakeup c e k = Ret tt e (set_sy s' k)) /\
    quiet (k_sy k) s' /\ sy_procs s' = map (wake c) (procs k).
Proof.
  intros Hok Hf. destruct (wp_exact (wakeup c) (fun _ k' => exists s', k' = set_sy s' k /\
    quiet (k_sy k) s' /\ sy_procs s' = map (wake c) (procs k)) k)
    as ([] & ? & He & s' & -> & Hq & Hp); [|by exists s'].
  apply wp_wakeup; eauto.
Qed.

Lemma sample_procs_free : procs_free (k_sy sample).
Proof.
  split; [done|]. intros i Hi. apply sample_free. unfold static_locks.
  apply elem_of_app. right. apply elem_of_app. left.
  apply list_elem_of_fmap. exists i. split; [done|]. apply elem_of_seq. lia.
Qed.

#[export] Hint Resolve sample_procs_free : kern.

(** [sample] with process 1 asleep on the log. *)
Definition sample_asleep : kernel :=
  set_sy (set_procs (alter (fun p => set_p_chan (Some C_log) (set_p_state SLEEPING p)) 1%nat
                       (procs sample)) (k_sy sample)) sample.

Lemma wakeup_exact_witness :
  exists s', wakeup C_log [] sample_asleep = Ret tt [] (set_sy s' sample_asleep) /\
    p_state (default zero_proc (sy_procs s' !! 1%nat)) = RUNNABLE.
Proof.
  destruct (wakeup_exact C_log sample_asleep) as (s' & H1 & _ & H2).
  - apply sample_sync_ok.
  - apply sample_procs_free.
  - exists s'. split; [done|]. by rewrite H2.
Defined.

(** The locks after [l1] has been given up and [l2] taken. *)
Definition swap_locks (l1 l2 : lockid) (s : sync) : gmap lockid spinlock :=
  <[l2 := mk_spinlock 1 (lk_name (get_lock s l2)) (Some (sy_tp s))]>
    (<[l1 := mk_spinlock 0 (lk_name (get_lock s l1)) None]> (sy_locks s)).

(** What a process in [sleep] has set up when it leaves the processor. *)
Record asleep (p : nat) (c : chan) (lk : lockid) (k k' : kernel) : Prop := {
  as_proc : procs k' = alter (fun q => set_p_state SLEEPING (set_p_chan (Some c) q)) p (procs k);
  as_lk : lock_free (k_sy k') lk;
  as_plock : lock_held (k_sy k') (L_proc p);
  as_noff : c_noff (sy_cpu (k_sy k')) = 1;
  as_off : sy_sie (k_sy k') = false;
  as_tp : sy_tp (k_sy k') = sy_tp (k_sy k);
  as_cproc : c_proc (sy_cpu (k_sy k')) = Some p;
  as_intena : c_intena (sy_cpu (k_sy k')) = c_intena (sy_cpu (k_sy k));
  as_locks : sy_locks (k_sy k') = swap_locks lk (L_proc p) (k_sy k);
  as_rest : k' = set_sy (k_sy k') k }.

Lemma lk_holding_held s l : lock_held s l -> lk_holding (sy_tp s) (get_lock s l) = true.
Proof.
  intros [name H]. unfold lk_holding, get_lock. rewrite H. simpl.
  by rewrite bool_decide_true.
Qed.

Lemma offs_sched p (R : kernel -> Prop) k :
  c_proc (sy_cpu (k_sy k)) = Some p -> lock_held (k_sy k) (L_proc p) ->
  c_noff (sy_cpu (k_sy k)) = 1 -> sy_sie (k_sy k) = false ->
  p_state (proc_at k p) <> RUNNING ->
  (forall s', quiet (k_sy k) s' -> sy_procs s' = sy_procs (k_sy k) -> R (set_sy s' k)) ->
  offs sched R (fun _ k' =>
    bind (ret tt) (fun _ => upd_sy (fun s =>
      set_cpu (set_c_intena (c_intena (sy_cpu (k_sy k'))) (sy_cpu s)) s))) k.
Proof.
  intros Hc Hl Hn Hs Hst HR. unfold sched.
  apply offs_bind_wp, (wp_curproc p); [split; lia || done|done|]. intros s Hq Hp.
  apply offs_bind_wp, wp_holding. rewrite lk_holding_held by eauto with kern. simpl.
  apply offs_bind_wp, wp_gets. kproj. rewrite (q_noff _ _ Hq), Hn. simpl.
  apply offs_bind_wp, wp_gets. unfold proc_at, procs in *. kproj. rewrite Hp.
  rewrite bool_decide_false by done. apply offs_bind_wp, wp_gets. kproj.
  rewrite (q_sie _ _ Hq), Hs. apply offs_bind_wp, wp_gets. kproj.
  exists (set_sy s k). split; [by apply HR|]. by split.
Qed.

(** [l] is the only spinlock the hart holds. *)
Record solo (s : sync) (l : lockid) : Prop := {
  so_held : lock_held s l;
  so_noff : c_noff (sy_cpu s) = 1;
  so_off : sy_sie s = false }.

(** [s'] holds [l2] instead of [l1]. *)
Record handover (l1 l2 : lockid) (s s' : sync) : Prop := {
  ho_solo : solo s' l2;
  ho_free : lock_free s' l1;
  ho_procs : sy_procs s' = sy_procs s;
  ho_proc : c_proc (sy_cpu s') = c_proc (sy_cpu s);
  ho_tp : sy_tp s' = sy_tp s;
  ho_intena : c_intena (sy_cpu s') = c_intena (sy_cpu s);
  ho_locks : sy_locks s' = swap_locks l1 l2 s }.

Lemma solo_quiet s s' l : quiet s s' -> solo s l -> solo s' l.
Proof.
  intros Hq [H1 H2 H3]. split; [eauto with kern|..].
  - by rewrite (q_noff _ _ Hq).
  - by rewrite (q_sie _ _ Hq).
Qed.

Lemma solo_sync_ok s l : solo s l -> sync_ok s.
Proof. intros [H1 H2 H3]. split; [lia|done]. Qed.

#[export] Hint Resolve solo_quiet solo_sync_ok : kern.

Lemma lock_held_acquire_ne l l' s :
  l <> l' -> lock_held s l -> lock_held (sy_acquire l' s) l.
Proof.
  intros Hne [n H]. exists n. unfold sy_acquire, put_lock. kproj. simpl sy_locks.
  by rewrite lookup_insert_ne.
Qed.

Lemma release_frees l s : lock_free (sy_release l s) l.
Proof. eexists. unfold sy_release, put_lock. simpl sy_locks. by rewrite lookup_insert_eq. Qed.

Lemma get_lock_acquire_ne l l' s : l <> l' -> get_lock (sy_acquire l' s) l = get_lock s l.
Proof. intros Hne. unfold get_lock, sy_acquire, put_lock. kproj. by rewrite lookup_insert_ne. Qed.

Lemma get_lock_release_ne l l' s : l <> l' -> get_lock (sy_release l' s) l = get_lock s l.
Proof.
  intros Hne. unfold get_lock, sy_release, sy_pop, put_lock. kproj. by rewrite lookup_insert_ne.
Qed.

Lemma wp_acquire_release {T} l1 l2 (Q : unit -> kernel -> Prop) k :
  l1 <> l2 -> solo (k_sy k) l1 -> lock_free (k_sy k) l2 ->
  (forall s', handover l1 l2 (k_sy k) s' -> Q tt (set_sy s' k)) ->
  wp T (acquire l2 ;; release l1) Q k.
Proof.
  intros Hne [Hh Hn Hs] Hf HQ. apply wp_bind, wp_acquire; [done|].
  apply wp_release_raw; [by apply lock_held_acquire_ne|done|simpl; lia|].
  apply HQ. split; [split|..]; [| | |apply release_frees|done|done|done| |].
  - eexists. unfold sy_release, sy_acquire, put_lock. simpl sy_locks.
    rewrite lookup_insert_ne, lookup_insert_eq by done. done.
  - simpl. lia.
  - simpl. rewrite Hn. done.
  - simpl. by rewrite Hn.
  - transitivity (<[l1 := mk_spinlock 0 (lk_name (get_lock (sy_acquire l2 (k_sy k)) l1)) None]>
         (sy_locks (sy_acquire l2 (k_sy k)))); [done|].
    rewrite get_lock_acquire_ne by done. by apply insert_insert_ne.
Qed.

Lemma wp_release_acquire {T} l1 l2 (Q : unit -> kernel -> Prop) k :
  l1 <> l2 -> solo (k_sy k) l1 -> lock_free (k_sy k) l2 ->
  (forall s', handover l1 l2 (k_sy k) s' -> Q tt (set_sy s' k)) ->
  wp T (release l1 ;; acquire l2) Q k.
Proof.
  intros Hne [Hh Hn Hs] [name Hf] HQ. apply wp_bind, wp_release_raw; [done..|lia|].
  apply wp_acquire.
  { exists name. unfold sy_release, put_lock. simpl sy_locks. by rewrite lookup_insert_ne. }
  apply HQ. split; [split|..]; [apply lock_held_acquire| | | |done|done|done| |].
  - simpl. lia.
  - done.
  - apply lock_free_acquire; [done|apply release_frees].
  - simpl. rewrite Hn, Hs. simpl. by destruct (c_intena (sy_cpu (k_sy k))).
  - transitivity (<[l2 := mk_spinlock 1 (lk_name (get_lock (sy_release l1 (k_sy k)) l2)) (Some (sy_tp (k_sy k)))]>
         (sy_locks (sy_release l1 (k_sy k)))); [done|].
    by rewrite get_lock_release_ne.
Qed.

(** What [sleep] does once the process has the processor back. *)
Definition sleep_resume (p : nat) (lk : lockid) (k' : kernel) : M unit :=
  bind (bind (ret tt) (fun _ => upd_sy (fun s =>
      set_cpu (set_c_intena (c_intena (sy_cpu (k_sy k'))) (sy_cpu s)) s)))
    (fun _ => upd_proc p (set_p_chan None) ;; (release (L_proc p) ;; acquire lk)).

Lemma offs_sleep p c lk k :
  lk <> L_proc p -> c_proc (sy_cpu (k_sy k)) = Some p ->
  (p < length (procs k))%nat ->
  solo (k_sy k) lk -> lock_free (k_sy k) (L_proc p) ->
  offs (sleep c lk) (asleep p c lk k) (fun _ k' => sleep_resume p lk k') k.
Proof.
  intros Hne Hc Hlen Hlk Hpl.
  assert (negb (bool_decide (lk = L_proc p)) = true) as Eb by (by rewrite bool_decide_false).
  unfold sleep. apply offs_bind_wp, (wp_curproc p); [eauto with kern|done|].
  intros s Hq Hp. rewrite Eb. unfold when.
  apply offs_bind_wp, wp_acquire_release; [done|eauto with kern..|].
  intros s2 [Hso Hfr Hp2 Hc2 Ht2 Hi2 Hl2]. kproj in Hp2. kproj in Hc2. kproj in Ht2. kproj in Hi2. kproj in Hl2.
  apply offs_bind_wp, wp_upd_proc, offs_bind_wp, wp_upd_proc.
  unfold procs. kproj. rewrite alter_alter. apply offs_bind.
  destruct (lookup_lt_is_Some_2 (procs k) p Hlen) as [pr Hpr].
  apply (offs_sched p); kproj; [|apply Hso..| |].
  - rewrite Hc2, (q_proc _ _ Hq). done.
  - unfold proc_at, procs. kproj. rewrite list_lookup_alter_eq, Hp2, Hp.
    unfold procs in Hpr. rewrite Hpr. done.
  - intros s3 Hq3 Hp3. split; kproj.
    + unfold procs. kproj. rewrite Hp3. kproj. by rewrite Hp2, Hp.
    + by eapply (quiet_lock_free _ _ _ Hq3).
    + eapply (quiet_lock_held _ _ _ Hq3). apply Hso.
    + rewrite (q_noff _ _ Hq3). apply Hso.
    + rewrite (q_sie _ _ Hq3). apply Hso.
    + rewrite (q_tp _ _ Hq3). kproj. by rewrite Ht2, (q_tp _ _ Hq).
    + rewrite (q_proc _ _ Hq3). kproj. by rewrite Hc2, (q_proc _ _ Hq).
    + rewrite (q_intena _ _ Hq3) by (kproj; rewrite (so_noff _ _ Hso); lia). kproj.
      rewrite Hi2. apply Hq. rewrite (so_noff _ _ Hlk). lia.
    + rewrite (q_locks _ _ Hq3). kproj. rewrite Hl2. unfold swap_locks, get_lock.
      by rewrite (q_locks _ _ Hq), (q_tp _ _ Hq).
    + done.
Qed.

Lemma wp_sleep_resume p lk k' (Q : unit -> kernel -> Prop) kb :
  let k1 := set_sy (set_procs (alter (set_p_chan None) p (procs kb))
    (set_cpu (set_c_intena (c_intena (sy_cpu (k_sy k'))) (sy_cpu (k_sy kb))) (k_sy kb))) kb in
  lk <> L_proc p -> solo (k_sy kb) (L_proc p) -> lock_free (k_sy kb) lk ->
  (forall s', handover (L_proc p) lk (k_sy k1) s' -> Q tt (set_sy s' k1)) ->
  wp no_turn (sleep_resume p lk k') Q kb.
Proof.
  intros k1 Hne Hso Hfr HQ. unfold sleep_resume. do 2 apply wp_bind. apply wp_ret, wp_upd_sy, wp_bind, wp_upd_proc.
  apply wp_release_acquire; [congruence|destruct Hso; by split|done|exact HQ].
Qed.

Lemma parks_sleep p c lk k :
  lk <> L_proc p -> c_proc (sy_cpu (k_sy k)) = Some p ->
  (p < length (procs k))%nat -> solo (k_sy k) lk -> lock_free (k_sy k) (L_proc p) ->
  exists k', asleep p c lk k k' /\ parks (sleep c lk) k' (wp no_turn (sleep_resume p lk k')) k.
Proof.
  intros Hne Hc Hlen Hlk Hpl. destruct (offs_sleep p c lk k) as (k' & Ha & H1 & H2); [done..|].
  exists k'. split; [done|]. split; [done|]. intros f Q (a & k2 & E & HQ)%wp_exact. exists a, k2.
  split; [|done]. intros e. by rewrite H2.
Qed.

(** The processor comes back by the turn [f]. *)
Lemma takes_sleep (f : kernel -> kernel) p c lk (Q : unit -> kernel -> Prop) k :
  lk <> L_proc p -> c_proc (sy_cpu (k_sy k)) = Some p ->
  (p < length (procs k))%nat -> solo (k_sy k) lk -> lock_free (k_sy k) (L_proc p) ->
  (forall k', asleep p c lk k k' ->
     let k1 := set_sy (set_procs (alter (set_p_chan None) p (procs (f k')))
       (set_cpu (set_c_intena (c_intena (sy_cpu (k_sy k'))) (sy_cpu (k_sy (f k')))) (k_sy (f k')))) (f k') in
     solo (k_sy (f k')) (L_proc p) /\ lock_free (k_sy (f k')) lk /\
     forall s', handover (L_proc p) lk (k_sy k1) s' -> Q tt (set_sy s' k1)) ->
  takes f (sleep c lk) Q k.
Proof.
  intros Hne Hc Hlen Hlk Hpl HQ. destruct (parks_sleep p c lk k) as (k' & Ha & _ & Hp); [done..|].
  destruct (HQ k' Ha) as (Hso & Hfr & HQ'). by apply Hp, wp_sleep_resume.
Qed.

(** [sleep] gives up the processor only after it has put the process to
    sleep on the channel and released the caller's lock, holding just the
    process's own lock with interrupts off, so that a [wakeup] that follows
    cannot be lost.  When it is switched back to (whatever happened in
    between), it clears the channel and returns with the caller's lock held. *)
Theorem sleep_parks p c lk k :
  lk <> L_proc p -> c_proc (sy_cpu (k_sy k)) = Some p ->
  (p < length (procs k))%nat ->
  solo (k_sy k) lk -> lock_free (k_sy k) (L_proc p) ->
  exists k', asleep p c lk k k' /\ sleep c lk [] k = Off k' /\
    forall f e, solo (k_sy (f k')) (L_proc p) -> lock_free (k_sy (f k')) lk ->
      exists k'', sleep c lk (f :: e) k = Ret tt e k'' /\
        solo (k_sy k'') lk /\ lock_free (k_sy k'') (L_proc p) /\
        procs k'' = alter (set_p_chan None) p (procs (f k')).
Proof.
  intros Hne Hc Hlen Hlk Hpl. destruct (parks_sleep p c lk k) as (k' & Ha & H1 & H2); [done..|].
  exists k'. split; [done|]. split; [done|]. intros f e Hso Hfr.
  destruct (H2 f (fun _ k'' => solo (k_sy k'') lk /\ lock_free (k_sy k'') (L_proc p) /\
    procs k'' = alter (set_p_chan None) p (procs (f k')))) as ([] & k'' & He & HQ); [|by exists k''].
  apply wp_sleep_resume; [done..|]. intros s [Hs1 Hs2 Hs3 _ _ _ _]. unfold procs. kproj. by rewrite Hs3.
Qed.

(** The scheduler switches to a process that is ready to run, and goes on
    with [scheduler_back] when the process switches back. *)
Lemma offs_scheduler_step i nproc (R : kernel -> Prop) k :
  lock_free (k_sy k) (L_proc i) -> (i < length (procs k))%nat -> p_state (proc_at k i) = RUNNABLE ->
  R (set_sy (set_cpu (set_c_proc (Some i) (sy_cpu (sy_push (k_sy k))))
      (set_procs (alter (set_p_state RUNNING) i (procs k)) (sy_acquire (L_proc i) (k_sy k)))) k) ->
  offs (scheduler_step i nproc) R (fun _ _ => scheduler_back i ;; ret (nproc + 1)) k.
Proof.
  intros Hl Hi Hst HR. unfold scheduler_step. apply offs_bind_wp, wp_acquire; [done|]. apply offs_bind_wp, wp_gets.
  change (proc_at (set_sy _ k) i) with (proc_at k i). cbv zeta. rewrite Hst.
  change (bool_decide (RUNNABLE = UNUSED)) with false. change (bool_decide (RUNNABLE = RUNNABLE)) with true. cbn [when].
  eexists. split; [exact HR|]. split; [done|]. intros f e. rewrite bind_assoc. reflexivity.
Qed.

(** ** Code of another hart

    [m] run by hart [h], with its own interrupt bit and [struct cpu]; those
    of this hart stay as they are. *)
Definition hart_sync (h : Z) (sie : bool) (c : cpu) (s : sync) : sync :=
  mk_sync h sie c (sy_locks s) (sy_procs s).

Definition on_hart {A} (h : Z) (sie : bool) (c : cpu) (m : M A) : M A := fun e k =>
  let back k' := set_sy (hart_sync (sy_tp (k_sy k)) (sy_sie (k_sy k)) (sy_cpu (k_sy k)) (k_sy k')) k' in
  match m e (set_sy (hart_sync h sie c (k_sy k)) k) with
  | Ret a e' k' => Ret a e' (back k')
  | Panic msg k' => Panic msg (back k')
  | Off k' => Off (back k')
  | Spin k' => Spin (back k')
  | Loop k' => Loop (back k')
  end.

Lemma wp_on_hart {A} h sie c (m : M A) (Q : A -> kernel -> Prop) k :
  wp no_turn m (fun a k' => Q a
    (set_sy (hart_sync (sy_tp (k_sy k)) (sy_sie (k_sy k)) (sy_cpu (k_sy k)) (k_sy k')) k'))
    (set_sy (hart_sync h sie c (k_sy k)) k) ->
  wp no_turn (on_hart h sie c m) Q k.
Proof. intros (a & k' & E & HQ)%wp_exact. eapply wp_eq; [|exact HQ]. intros e. unfold on_hart. by rewrite E. Qed.

(** What [kill] does to the process it finds. *)
Definition kill_one (p : proc) : proc :=
  let p := set_p_killed 1 p in
  if bool_decide (p_state p = SLEEPING) then set_p_state RUNNABLE p else p.

Lemma quiet_refl_procs s s' :
  quiet s s' -> sy_procs s' = sy_procs s -> forall l, quiet (set_procs l s) (set_procs l s').
Proof. intros [] E l. by split. Qed.

Lemma wp_kill_at {T} i p s (Q : option Z -> kernel -> Prop) k :
  sync_ok s -> lock_free s (L_proc i) -> sy_procs s !! i = Some p ->
  (forall s', quiet (set_procs (alter kill_one i (sy_procs s)) s) s' ->
     sy_procs s' = alter kill_one i (sy_procs s) -> Q (Some 0) (set_sy s' k)) ->
  wp T (upd_proc i (set_p_killed 1) ;;
        let* p := get_proc i in
        when (bool_decide (p_state p = SLEEPING)) (upd_proc i (set_p_state RUNNABLE)) ;;
        release (L_proc i) ;;
        ret (Some 0)) Q (set_sy (sy_acquire (L_proc i) s) k).
Proof.
  intros Hok Hf Hp HQ. apply wp_bind, wp_upd_proc, wp_bind, wp_gets.
  set (l1 := alter (set_p_killed 1) i (sy_procs s)).
  assert (l1 !! i = Some (set_p_killed 1 p)) as H1.
  { unfold l1. by rewrite list_lookup_alter_eq, Hp. }
  unfold proc_at, procs. kproj. simpl sy_procs. fold l1. rewrite H1. simpl default.
  apply wp_bind, (wp_mono _ (fun _ k' => k' = set_sy
    (sy_acquire (L_proc i) (set_procs (alter kill_one i (sy_procs s)) s)) k)).
  - assert (forall f, f (set_p_killed 1 p) = kill_one p ->
      alter f i l1 = alter kill_one i (sy_procs s)) as Ef.
    { intros f E. unfold l1. rewrite alter_alter. by apply (alter_ext_at _ _ _ _ p). }
    apply wp_when; intros Hs.
    + apply wp_upd_proc. unfold procs. kproj. rewrite (Ef (set_p_state RUNNABLE)); [done|].
      unfold kill_one. by rewrite Hs.
    + rewrite <- (Ef id) by (unfold kill_one; by rewrite Hs).
      by rewrite (alter_id_at id _ _ _ H1).
  - intros [] k' ->. apply wp_bind, (wp_release _ (set_procs (alter kill_one i (sy_procs s)) s));
      [done..|reflexivity|]. intros s' Hq Hp'. by apply wp_ret, HQ.
Qed.

Lemma sleep_parks_witness :
  exists k', sleep C_log L_log [] (set_sy (sy_acquire L_log (k_sy sample)) sample) = Off k' /\
    asleep 0%nat C_log L_log (set_sy (sy_acquire L_log (k_sy sample)) sample) k'.
Proof.
  destruct (sleep_parks 0%nat C_log L_log (set_sy (sy_acquire L_log (k_sy sample)) sample))
    as (k' & H1 & H2 & _).
  - done.
  - done.
  - simpl. lia.
  - split; [apply lock_held_acquire|done..].
  - apply lock_free_acquire; [done|]. apply sample_procs_free. unfold NPROC. lia.
  - exists k'. split; [exact H2|exact H1].
Defined.

(** [kill] marks the first process with the given pid as killed and makes
    it runnable if it sleeps, and returns 0; when there is none it returns -1
    and changes nothing.  All locks are given back either way. *)
Theorem kill_spec pid k :
  sync_ok (k_sy k) -> procs_free (k_sy k) ->
  exists s' r, (forall e, kill pid e k = Ret r e (set_sy s' k)) /\
    match list_find (fun p => p_pid p = pid) (procs k) with
    | Some (i, _) => r = 0 /\ quiet (set_procs (alter kill_one i (procs k)) (k_sy k)) s' /\
                     sy_procs s' = alter kill_one i (procs k)
    | None => r = -1 /\ quiet (k_sy k) s' /\ sy_procs s' = procs k
    end.
Proof.
  intros Hok [Hlen Hf].
  destruct (wp_exact (kill pid) (fun r k' => exists s', k' = set_sy s' k /\
    match list_find (fun p => p_pid p = pid) (procs k) with
    | Some (i, _) => r = 0 /\ quiet (set_procs (alter kill_one i (procs k)) (k_sy k)) s' /\
                     sy_procs s' = alter kill_one i (procs k)
    | None => r = -1 /\ quiet (k_sy k) s' /\ sy_procs s' = procs k
    end) k) as (r & ? & He & s' & -> & Hr); [|by exists s', r].
  unfold kill. apply wp_bind.
  apply (wp_for_each (fun dn k' => exists s', k' = set_sy s' k /\ quiet (k_sy k) s' /\
    sy_procs s' = procs k /\
    Forall (fun p => p_pid p <> pid) (take (length dn) (procs k)))).
  - by exists (k_sy k).
  - intros dn i rest k' E (s & -> & Hq & Hp & Hno).
    destruct (seq_split _ _ _ _ E) as [-> Hi]. set (i := length dn) in *.
    destruct (lookup_lt_is_Some_2 (procs k) i) as [p Hpi]; [by rewrite <- Hlen in Hi|].
    apply wp_bind, wp_acquire; [eauto with kern|]. apply wp_bind, wp_gets.
    assert (proc_at (set_sy (sy_acquire (L_proc i) (k_sy (set_sy s k))) (set_sy s k)) i = p) as ->.
    { unfold proc_at, procs. kproj. simpl sy_procs. by rewrite Hp, Hpi. }
    destruct (Z.eqb_spec (p_pid p) pid) as [Epid|Epid].
    + apply (wp_kill_at i p s); [eauto with kern..|by rewrite Hp|].
      rewrite Hp. intros s' Hq' Hp'. apply wp_ret. exists s'. split; [done|].
      assert (list_find (fun p => p_pid p = pid) (procs k) = Some (i, p)) as ->.
      { apply list_find_Some. split; [done|]. split; [done|]. intros j q Hq2 Hj.
        rewrite Forall_lookup in Hno. apply (Hno j). by rewrite lookup_take_lt. }
      split; [done|]. split; [|done].
      etransitivity; [|done]. by apply quiet_refl_procs.
    + apply wp_bind, (wp_release _ s); [eauto with kern..|reflexivity|].
      intros s' Hq' Hp'. apply wp_ret. exists s'. split; [done|].
      split; [by etransitivity|]. rewrite Hp'. split; [done|].
      rewrite length_app, Nat.add_1_r. fold i. rewrite (take_S_r _ _ p) by done.
      apply Forall_app. auto.
  - intros k' (s & -> & Hq & Hp & Hno). apply wp_ret. exists s. split; [done|].
    assert (list_find (fun p => p_pid p = pid) (procs k) = None) as ->; [|done].
    apply list_find_None. rewrite length_seq, <- Hlen in Hno. unfold procs in *.
    by rewrite firstn_all in Hno.
Qed.

Lemma kill_spec_witness :
  exists s', kill 1 [] sample = Ret 0 [] (set_sy s' sample) /\
    p_killed (default zero_proc (sy_procs s' !! 0%nat)) = 1.
Proof.
  destruct (kill_spec 1 sample) as (s' & r & H1 & H2 & _ & H3).
  - apply sample_sync_ok.
  - apply sample_procs_free.
  - exists s'. rewrite H1, H2, H3. done.
Defined.
