(* ===== verification/Sleeplock.v ===== *)
(** * [kernel/sleeplock.c]: long-term locks

    A sleep-lock lives in a [struct buf] or a [struct inode]; it is named by
    its inner spinlock, [L_buf i] or [L_inode i]. *)

From S2P Require Import Prelude Defs State Logic Spinlock Sched.

(** The sleep-lock with inner spinlock [l]. *)
Definition get_sl (l : lockid) (k : kernel) : sleeplock :=
  match l with
  | L_buf b => default zero_sleeplock (b_lock <$> fs_bcache (k_fs k) !! b)
  | L_inode i => default zero_sleeplock (i_lock <$> fs_icache (k_fs k) !! i)
  | _ => zero_sleeplock
  end.

Definition put_sl (l : lockid) (s : sleeplock) (k : kernel) : kernel :=
  match l with
  | L_buf b =>
      set_fs (set_bcache (alter (set_b_lock s) b (fs_bcache (k_fs k))) (k_fs k)) k
  | L_inode i =>
      set_fs (set_icache (alter (set_i_lock s) i (fs_icache (k_fs k))) (k_fs k)) k
  | _ => k
  end.

Definition upd_sl (l : lockid) (f : sleeplock -> sleeplock) : M unit :=
  modify (fun k => put_sl l (f (get_sl l k)) k).

Definition initsleeplock (l : lockid) (name : string) : M unit :=
  initlock l "sleep lock" ;;
  upd_sl l (set_sl_name name) ;;
  upd_sl l (set_sl_locked 0) ;;
  upd_sl l (set_sl_pid 0).

Definition acquiresleep (l : lockid) : M unit :=
  acquire l ;;
  wait_loop (fun _ : unit =>
    let* sl := gets (get_sl l) in
    if c_true (sl_locked sl) then sleep (C_sleeplock l) l ;; ret (inl tt)
    else ret (inr tt)) tt ;;
  upd_sl l (set_sl_locked 1) ;;
  let* p := curproc in
  let* pr := get_proc p in
  upd_sl l (set_sl_pid (p_pid pr)) ;;
  release l.

Definition releasesleep (l : lockid) : M unit :=
  acquire l ;;
  upd_sl l (set_sl_locked 0) ;;
  upd_sl l (set_sl_pid 0) ;;
  wakeup (C_sleeplock l) ;;
  release l.

Definition holdingsleep (l : lockid) : M bool :=
  acquire l ;;
  let* sl := gets (get_sl l) in
  let* r := (if c_true (sl_locked sl) then
               let* p := curproc in
               let* pr := get_proc p in
               ret (sl_pid sl =? p_pid pr)
             else ret false) in
  release l ;;
  ret r.

(** ** Facts *)

(** [l] is the spinlock of a sleep-lock that exists. *)
Definition is_sl (l : lockid) (k : kernel) : Prop :=
  match l with
  | L_buf b => (b < length (fs_bcache (k_fs k)))%nat
  | L_inode i => (i < length (fs_icache (k_fs k)))%nat
  | _ => False
  end.

Lemma get_put_sl l s k : is_sl l k -> get_sl l (put_sl l s k) = s.
Proof.
  destruct l as [| | | |b| |i| | | | | | | |]; simpl; try done; intros H;
    (rewrite list_lookup_alter_eq; apply lookup_lt_is_Some_2 in H as [x Hx]; by rewrite Hx).
Qed.

Lemma put_put_sl l s s' k : put_sl l s (put_sl l s' k) = put_sl l s k.
Proof.
  destruct l; try done; unfold put_sl; kproj; rewrite alter_alter; done.
Qed.

Lemma is_sl_put l s l' k : is_sl l' (put_sl l s k) <-> is_sl l' k.
Proof. destruct l, l'; simpl; rewrite ?length_alter; done. Qed.

Lemma k_sy_put_sl l s k : k_sy (put_sl l s k) = k_sy k.
Proof. by destruct l. Qed.

Lemma set_sy_put_sl l s s' k : set_sy s' (put_sl l s k) = put_sl l s (set_sy s' k).
Proof. by destruct l. Qed.

Lemma get_sl_set_sy l s k : get_sl l (set_sy s k) = get_sl l k.
Proof. by destruct l. Qed.

Lemma proc_at_put_sl l s k i : proc_at (put_sl l s k) i = proc_at k i.
Proof. by destruct l. Qed.

(** The process that runs, and its pid. *)
Definition cur_pid (k : kernel) (pid : Z) : Prop :=
  exists p, c_proc (sy_cpu (k_sy k)) = Some p /\ p_pid (proc_at k p) = pid.

Lemma woken_pid p p' : woken p p' -> p_pid p' = p_pid p.
Proof. by intros [->|[_ ->]]. Qed.

Lemma quiet_pid s s' i :
  quiet s s' -> p_pid (default zero_proc (sy_procs s' !! i)) =
                p_pid (default zero_proc (sy_procs s !! i)).
Proof.
  intros Hq. pose proof (q_procs _ _ Hq) as H.
  destruct (sy_procs s !! i) as [p|] eqn:E.
  - destruct (Forall2_lookup_l _ _ _ _ _ H E) as (p' & -> & Hw). by apply woken_pid.
  - apply lookup_ge_None in E. rewrite (Forall2_length _ _ _ H) in E.
    by rewrite (lookup_ge_None_2 _ _ E).
Qed.

Lemma cur_pid_quiet k s' pid : quiet (k_sy k) s' -> cur_pid k pid -> cur_pid (set_sy s' k) pid.
Proof.
  intros Hq (p & H1 & H2). exists p. split; [by rewrite <- H1; apply Hq|].
  rewrite <- H2. by apply quiet_pid.
Qed.

Section rules.
Context {T : turn}.

(** Reading the pid of the current process. *)
Lemma wp_curpid {A} (g : Z -> M A) pid (Q : A -> kernel -> Prop) k :
  sync_ok (k_sy k) -> cur_pid k pid ->
  (forall s', quiet (k_sy k) s' -> sy_procs s' = procs k -> wp T (g pid) Q (set_sy s' k)) ->
  wp T (let* p := curproc in let* pr := get_proc p in g (p_pid pr)) Q k.
Proof.
  intros Hok (p & H1 & H2) HQ. apply wp_bind, (wp_curproc p); [done..|].
  intros s' Hq Hp. apply wp_bind, wp_gets. unfold proc_at, procs in *. kproj.
  rewrite Hp, H2. by apply HQ.
Qed.

Lemma wp_acquiresleep l pid (Q : unit -> kernel -> Prop) k :
  is_sl l k -> sync_ok (k_sy k) -> lock_free (k_sy k) l -> cur_pid k pid ->
  sl_locked (get_sl l k) = 0 ->
  (forall s', quiet (k_sy k) s' ->
     Q tt (set_sy s' (put_sl l (mk_sleeplock 1 (sl_name (get_sl l k)) pid) k))) ->
  wp T (acquiresleep l) Q k.
Proof.
  intros Hl Hok Hf Hpid H0 HQ. unfold acquiresleep. apply wp_bind, wp_acquire; [done|].
  apply wp_bind, wp_wait_loop, wp_bind, wp_gets. rewrite get_sl_set_sy, H0. simpl.
  apply wp_ret, wp_bind, wp_modify. rewrite get_sl_set_sy.
  apply (wp_curpid (fun x => upd_sl l (set_sl_pid x) ;; release l) pid).
  - rewrite k_sy_put_sl. eauto with kern.
  - destruct Hpid as (p & H1 & H2). exists p. rewrite k_sy_put_sl, proc_at_put_sl. done.
  - intros s' Hq Hp. rewrite k_sy_put_sl in Hq.
    apply wp_bind, wp_modify. rewrite !set_sy_put_sl, put_put_sl.
    rewrite get_put_sl by (by destruct l).
    apply (wp_release _ (k_sy k)); [done..| |].
    + by rewrite k_sy_put_sl.
    + intros s2 Hq2 _. rewrite set_sy_put_sl. specialize (HQ s2 Hq2).
      rewrite set_sy_put_sl in HQ. exact HQ.
Qed.

Lemma wp_releasesleep l (Q : unit -> kernel -> Prop) k :
  is_sl l k -> sync_ok (k_sy k) -> lock_free (k_sy k) l -> procs_free (k_sy k) ->
  (forall s', quiet (k_sy k) s' ->
     Q tt (set_sy s' (put_sl l (mk_sleeplock 0 (sl_name (get_sl l k)) 0) k))) ->
  wp T (releasesleep l) Q k.
Proof.
  intros Hl Hok Hf Hpf HQ. unfold releasesleep. apply wp_bind, wp_acquire; [done|].
  apply wp_bind, wp_modify, wp_bind, wp_modify.
  rewrite put_put_sl, get_put_sl, get_sl_set_sy by (by destruct l).
  apply wp_bind, wp_wakeup; rewrite ?k_sy_put_sl; [eauto with kern..| |].
  { apply procs_free_acquire; [by destruct l|done]. }
  intros s' Hq _. apply (wp_release _ (k_sy k)); [done..| |].
  - done.
  - intros s2 Hq2 _. rewrite !set_sy_put_sl. specialize (HQ s2 Hq2).
    rewrite set_sy_put_sl in HQ. exact HQ.
Qed.

Lemma wp_holdingsleep l pid (Q : bool -> kernel -> Prop) k :
  is_sl l k -> sync_ok (k_sy k) -> lock_free (k_sy k) l -> cur_pid k pid ->
  (forall s', quiet (k_sy k) s' ->
     Q (c_true (sl_locked (get_sl l k)) && (sl_pid (get_sl l k) =? pid)) (set_sy s' k)) ->
  wp T (holdingsleep l) Q k.
Proof.
  intros Hl Hok Hf Hpid HQ. unfold holdingsleep. apply wp_bind, wp_acquire; [done|].
  apply wp_bind, wp_gets. rewrite get_sl_set_sy.
  apply wp_bind, (wp_mono _ (fun r k' => exists s', quiet (sy_acquire l (k_sy k)) s' /\
    k' = set_sy s' k /\ r = c_true (sl_locked (get_sl l k)) && (sl_pid (get_sl l k) =? pid))).
  - destruct (c_true (sl_locked (get_sl l k))); [|apply wp_ret; eexists; by repeat split].
    apply (wp_curpid (fun x => ret (sl_pid (get_sl l k) =? x)) pid); [eauto with kern|done|].
    intros s' Hq _. apply wp_ret. exists s'. done.
  - intros r k' (s' & Hq & -> & ->). apply wp_bind, (wp_release _ (k_sy k)); [done..|].
    intros s2 Hq2 _. by apply wp_ret, HQ.
Qed.

End rules.

(** ** A thread that holds no spinlock

    What the code above the locks can rely on between its critical sections:
    every spinlock is free, interrupts are not held off, and the current
    process is running. *)
Record calm (s : sync) : Prop := {
  ca_ok : sync_ok s;
  ca_noff : c_noff (sy_cpu s) = 0;
  ca_free l : l ∈ static_locks -> lock_free s l;
  ca_len : length (sy_procs s) = NPROC;
  ca_run : exists p pr, c_proc (sy_cpu s) = Some p /\ sy_procs s !! p = Some pr /\
    p_state pr = RUNNING /\ p_chan pr = None }.

(** The pid of the running process. *)
Definition run_pid (s : sync) : Z :=
  match c_proc (sy_cpu s) with
  | Some p => p_pid (default zero_proc (sy_procs s !! p))
  | None => 0
  end.

Lemma quiet_calm s s' : quiet s s' -> calm s -> calm s'.
Proof.
  intros Hq [H1 H2 H3 H4 (p & pr & H5 & H6 & H7 & H8)]. split.
  - eauto with kern.
  - by rewrite (q_noff _ _ Hq).
  - eauto with kern.
  - by rewrite (quiet_procs_length _ _ Hq).
  - destruct (Forall2_lookup_l _ _ _ _ _ (q_procs _ _ Hq) H6) as (pr' & Hp' & Hw).
    exists p, pr'. rewrite (q_proc _ _ Hq). destruct Hw as [->|[? _]]; [done|congruence].
Qed.

Lemma quiet_run_pid s s' : quiet s s' -> run_pid s' = run_pid s.
Proof.
  intros Hq. unfold run_pid. rewrite (q_proc _ _ Hq).
  destruct (c_proc _); [|done]. by apply quiet_pid.
Qed.

Lemma calm_pid k : calm (k_sy k) -> cur_pid k (run_pid (k_sy k)).
Proof.
  intros [_ _ _ _ (p & pr & H1 & _)]. exists p. split; [done|].
  unfold run_pid. by rewrite H1.
Qed.

Lemma L_proc_static i : (i < NPROC)%nat -> L_proc i ∈ static_locks.
Proof.
  intros Hi. unfold static_locks. rewrite !elem_of_app. right. left.
  apply list_elem_of_fmap. exists i. split; [done|]. apply elem_of_seq. lia.
Qed.

Lemma L_buf_static i : (i < NBUF)%nat -> L_buf i ∈ static_locks.
Proof.
  intros Hi. unfold static_locks. rewrite !elem_of_app. right. right. left.
  apply list_elem_of_fmap. exists i. split; [done|]. apply elem_of_seq. lia.
Qed.

Lemma L_inode_static i : (i < NINODE)%nat -> L_inode i ∈ static_locks.
Proof.
  intros Hi. unfold static_locks. rewrite !elem_of_app. right. right. right.
  apply list_elem_of_fmap. exists i. split; [done|]. apply elem_of_seq. lia.
Qed.

Lemma calm_procs_free s : calm s -> procs_free s.
Proof. intros [_ _ H H' _]. split; [done|]. intros i Hi. by apply H, L_proc_static. Qed.

Lemma sample_calm : calm (k_sy sample).
Proof.
  split; [apply sample_sync_ok|done|apply sample_free|done|].
  exists 0%nat, init_proc. done.
Qed.

#[export] Hint Resolve quiet_calm ca_ok ca_free calm_pid calm_procs_free : kern.

(** A sleep-lock that is free can be taken without waiting; it then
    records the pid of the calling process, for which [holdingsleep] answers
    yes, and after [releasesleep] it is free again.  No spinlock stays held. *)
Theorem sleeplock_cycle l pid k :
  is_sl l k -> sync_ok (k_sy k) -> lock_free (k_sy k) l -> procs_free (k_sy k) ->
  cur_pid k pid -> sl_locked (get_sl l k) = 0 ->
  exists k1 k2, (forall e, acquiresleep l e k = Ret tt e k1) /\
    quiet (k_sy k) (k_sy k1) /\ sl_locked (get_sl l k1) = 1 /\ sl_pid (get_sl l k1) = pid /\
    (forall e, exists k', holdingsleep l e k1 = Ret true e k') /\
    (forall e, releasesleep l e k1 = Ret tt e k2) /\
    quiet (k_sy k) (k_sy k2) /\ sl_locked (get_sl l k2) = 0.
Proof.
  intros Hl Hok Hf Hpf Hpid H0. set (sl1 := mk_sleeplock 1 (sl_name (get_sl l k)) pid).
  destruct (wp_exact (acquiresleep l)
    (fun _ k' => exists s', quiet (k_sy k) s' /\ k' = set_sy s' (put_sl l sl1 k)) k)
    as ([] & ? & H1 & s1 & Hq1 & ->); [apply (wp_acquiresleep l pid); eauto|].
  assert (get_sl l (set_sy s1 (put_sl l sl1 k)) = sl1) as E1.
  { by rewrite get_sl_set_sy, get_put_sl. }
  assert (is_sl l (set_sy s1 (put_sl l sl1 k))) as Hl1 by (by rewrite set_sy_put_sl, is_sl_put; destruct l).
  assert (cur_pid (set_sy s1 (put_sl l sl1 k)) pid) as Hpid1.
  { apply cur_pid_quiet; [by rewrite k_sy_put_sl|]. destruct Hpid as (p & ? & ?).
    exists p. by rewrite k_sy_put_sl, proc_at_put_sl. }
  destruct (wp_exact (holdingsleep l) (fun r k' => r = true) (set_sy s1 (put_sl l sl1 k)))
    as (r & ? & H2 & ->).
  { apply (wp_holdingsleep l pid); kproj; eauto with kern.
    intros. rewrite E1. simpl. by rewrite Z.eqb_refl. }
  destruct (wp_exact (releasesleep l)
    (fun _ k' => quiet s1 (k_sy k') /\ sl_locked (get_sl l k') = 0)
    (set_sy s1 (put_sl l sl1 k))) as ([] & k2 & H3 & Hq3 & H4).
  { apply wp_releasesleep; kproj; eauto with kern. intros s' Hq. split; [done|].
    by rewrite get_sl_set_sy, get_put_sl. }
  exists (set_sy s1 (put_sl l sl1 k)), k2. rewrite E1. kproj.
  split_and!; eauto. by etransitivity.
Qed.

Lemma sleeplock_cycle_witness :
  exists k1, acquiresleep (L_buf 3) [] sample = Ret tt [] k1 /\
    sl_pid (get_sl (L_buf 3) k1) = 1.
Proof.
  destruct (sleeplock_cycle (L_buf 3) 1 sample) as (k1 & k2 & H1 & _ & _ & H2 & _).
  - simpl. lia.
  - apply sample_sync_ok.
  - apply sample_free, L_buf_static. unfold NBUF. lia.
  - apply sample_procs_free.
  - by exists 0%nat.
  - done.
  - by exists k1.
Defined.
