(* ===== verification/Kalloc.v ===== *)
(** * [kernel/kalloc.c]: the physical page allocator

    Free pages form a singly linked list threaded through the pages
    themselves: [kmem.freelist] is the address of the first one, and the first
    eight bytes of a free page hold the address of the next. *)

From S2P Require Import Prelude Defs State Logic Memory Spinlock Sched.

(** ** Symbols placed by the linker ([kernel.ld]) *)

Class Linker := {
  sym_etext : Z;       (* end of the kernel text *)
  sym_end : Z;         (* first address after the kernel *)
  sym_trampoline : Z;  (* the page of trampoline.S *)
  sym_kernelvec : Z;
  sym_uservec : Z;
  sym_userret : Z;
  sym_usertrap : Z;
  sym_forkret : Z }.

(** What [kernel.ld] fixes: the kernel starts at [KERNBASE], its text and the
    trampoline are padded to whole pages, and it fits in RAM. *)
Class LinkerOk (L : Linker) : Prop := {
  etext_lo : KERNBASE < sym_etext;
  etext_end : sym_etext <= sym_end;
  end_hi : sym_end + PGSIZE <= PHYSTOP;
  etext_aligned : sym_etext mod PGSIZE = 0;
  trampoline_lo : KERNBASE <= sym_trampoline;
  trampoline_hi : sym_trampoline + PGSIZE <= sym_etext;
  trampoline_aligned : sym_trampoline mod PGSIZE = 0 }.

Section kalloc.
Context {L : Linker}.

(** ** Operations *)

Definition upd_mm (f : memory -> memory) : M unit :=
  modify (fun k => set_mm (f (k_mm k)) k).

Definition kfree (pa : Z) : M unit :=
  if negb (pa mod PGSIZE =? 0) || (pa <? sym_end) || (pa >=? PHYSTOP)
  then panic "kfree" else
  memset pa 1 PGSIZE ;;
  let r := pa in
  acquire L_kmem ;;
  let* head := gets (fun k => mm_freelist (k_mm k)) in
  store64 r head ;;
  upd_mm (set_freelist r) ;;
  release L_kmem.

Definition kalloc : M Z :=
  acquire L_kmem ;;
  let* r := gets (fun k => mm_freelist (k_mm k)) in
  when (c_true r) (let* next := load64 r in upd_mm (set_freelist next)) ;;
  release L_kmem ;;
  when (c_true r) (memset r 5 PGSIZE ;; ret tt) ;;
  ret r.

(** [for(; p + PGSIZE <= pa_end; p += PGSIZE) kfree(p)] *)
Fixpoint freerange_loop (fuel : nat) (p pa_end : Z) : M unit :=
  match fuel with
  | O => fun e k => Loop k
  | S fuel =>
      if p + PGSIZE <=? pa_end then kfree p ;; freerange_loop fuel (p + PGSIZE) pa_end
      else ret tt
  end.

(** The fuel is one more than the number of pages in the range. *)
Definition freerange (pa_start pa_end : Z) : M unit :=
  let p := PGROUNDUP pa_start in
  freerange_loop (S (Z.to_nat ((pa_end - p) / PGSIZE))) p pa_end.

Definition kinit : M unit :=
  initlock L_kmem "kmem" ;;
  freerange sym_end PHYSTOP.

(** ** Representation *)

(** A page the allocator manages. *)
Definition page_ok (p : Z) : Prop :=
  p mod PGSIZE = 0 /\ sym_end <= p /\ p + PGSIZE <= PHYSTOP.

Fixpoint chain (m : gmap Z Z) (head : Z) (l : list Z) : Prop :=
  match l with
  | [] => head = 0
  | p :: l => head = p /\ page_ok p /\ chain m (rd64 m p) l
  end.

(** The free pages of [k] are those of [l], in list order, each once. *)
Definition free_pages (k : kernel) (l : list Z) : Prop :=
  chain (ram k) (mm_freelist (k_mm k)) l /\ NoDup l.

Definition fill (c : Z) : list Z := repeat (u8 c) (Z.to_nat PGSIZE).

(** ** Facts about pages and the chain *)

Lemma length_fill c : Z.of_nat (length (fill c)) = PGSIZE.
Proof. unfold fill. rewrite repeat_length. done. Qed.

Lemma page_disjoint p q :
  p mod PGSIZE = 0 -> q mod PGSIZE = 0 -> p <> q -> p + PGSIZE <= q \/ q + PGSIZE <= p.
Proof.
  intros. pages.
Qed.

Lemma page_ok_ram {LO : LinkerOk L} p : page_ok p -> KERNBASE <= p /\ p + PGSIZE <= PHYSTOP.
Proof. intros (H1 & H2 & H3). destruct LO. lia. Qed.

Lemma page_ok_pos {LO : LinkerOk L} p : page_ok p -> 0 < p < 2 ^ 56.
Proof. intros (H1 & H2)%page_ok_ram. unfold PHYSTOP, KERNBASE, PGSIZE in *. lia. Qed.

(** [m'] agrees with [m] on page [p]. *)
Definition same_page (m m' : gmap Z Z) (p : Z) : Prop :=
  forall a, p <= a < p + PGSIZE -> rd m' a = rd m a.

Lemma same_page_rd64 m m' p off :
  same_page m m' p -> 0 <= off -> off + 8 <= PGSIZE -> rd64 m' (p + off) = rd64 m (p + off).
Proof. intros H H1 H2. apply rd64_ext. intros b Hb. apply H. lia. Qed.

Lemma same_page_wr m a l p :
  a + Z.of_nat (length l) <= p \/ p + PGSIZE <= a -> same_page m (wr m a l) p.
Proof. intros H b Hb. apply rd_wr_out. lia. Qed.

Lemma same_page_trans m1 m2 m3 p :
  same_page m1 m2 p -> same_page m2 m3 p -> same_page m1 m3 p.
Proof. intros H1 H2 a Ha. by rewrite H2, H1. Qed.

Lemma chain_ext m m' head l :
  chain m head l -> (forall p, p ∈ l -> same_page m m' p) -> chain m' head l.
Proof.
  revert head. induction l as [|p l IH]; intros head; simpl; [done|].
  intros (-> & Hp & Hc) H. split; [done|]. split; [done|].
  assert (rd64 m' p = rd64 m p) as ->.
  { rewrite <- (Z.add_0_r p). apply same_page_rd64; [apply H; set_solver|lia|done]. }
  apply IH; [done|]. intros q Hq. apply H. set_solver.
Qed.

Lemma chain_page_ok m head l p : chain m head l -> p ∈ l -> page_ok p.
Proof.
  revert head. induction l as [|q l IH]; intros head; simpl; [by intros _ ?%not_elem_of_nil|].
  intros (_ & Hq & Hc) [->|Hp]%elem_of_cons; eauto.
Qed.

(** Writing inside one page leaves the chain of the other pages alone. *)
Lemma chain_wr m head l p off x :
  chain m head l -> p ∉ l -> p mod PGSIZE = 0 ->
  0 <= off -> off + Z.of_nat (length x) <= PGSIZE -> chain (wr m (p + off) x) head l.
Proof.
  intros Hc Hp Hal H1 H2. eapply chain_ext; [done|]. intros q Hq.
  assert (q <> p) by congruence. destruct (chain_page_ok _ _ _ _ Hc Hq) as (Hqa & _).
  destruct (page_disjoint q p); try done; apply same_page_wr; lia.
Qed.

Lemma rd_fill m p c a : p <= a < p + PGSIZE -> rd (wr m p (fill c)) a = u8 c.
Proof.
  intros Ha. unfold rd. rewrite lookup_wr, length_fill.
  destruct (Z.leb_spec p a), (Z.ltb_spec a (p + PGSIZE)); try lia. simpl.
  unfold fill. rewrite lookup_repeat; [done|]. unfold PGSIZE in *. lia.
Qed.

Lemma wp_memset_page {T} p c (Q : Z -> kernel -> Prop) k :
  KERNBASE <= p -> p + PGSIZE <= PHYSTOP -> Q p (with_ram (wr (ram k) p (fill c)) k) ->
  wp T (memset p c PGSIZE) Q k.
Proof. intros H1 H2 HQ. by apply wp_memset. Qed.

#[global] Opaque fill wr rdn.

(** ** Changes confined to memory

    [k'] differs from [k] only in RAM and the free list, and by quiet changes
    of the synchronisation state. *)
Record only_mm (k k' : kernel) : Prop := {
  om_quiet : quiet (k_sy k) (k_sy k');
  om_procs : procs k' = procs k;
  om_kpt : mm_kpt (k_mm k') = mm_kpt (k_mm k);
  om_fs : k_fs k' = k_fs k;
  om_fi : k_fi k' = k_fi k;
  om_ms : k_ms k' = k_ms k }.

#[export] Instance only_mm_preorder : PreOrder only_mm.
Proof.
  split.
  - intros k. split; done.
  - intros k1 k2 k3 [] []. split; try congruence. by etransitivity.
Qed.

Lemma only_mm_sync_ok k k' : only_mm k k' -> sync_ok (k_sy k) -> sync_ok (k_sy k').
Proof. intros []. by apply quiet_sync_ok. Qed.

Lemma only_mm_lock_free k k' l : only_mm k k' -> lock_free (k_sy k) l -> lock_free (k_sy k') l.
Proof. intros []. by apply quiet_lock_free. Qed.

Lemma only_mm_ram m k : only_mm k (with_ram m k).
Proof. split; done. Qed.

(** ** Rules *)

Section rules.
Context {LO : LinkerOk L} {T : turn}.

Lemma wp_upd_mm f (Q : unit -> kernel -> Prop) k :
  Q tt (set_mm (f (k_mm k)) k) -> wp T (upd_mm f) Q k.
Proof. apply wp_modify. Qed.

(** Allocation: null when there is no free page, otherwise the first free
    page, filled with 5s and no longer in the list. *)
Lemma wp_kalloc l (Q : Z -> kernel -> Prop) k :
  sync_ok (k_sy k) -> lock_free (k_sy k) L_kmem -> free_pages k l ->
  (forall s', quiet (k_sy k) s' -> sy_procs s' = procs k ->
    match l with
    | [] => Q 0 (set_sy s' k)
    | p :: l' => forall next, page_ok p -> p ∉ l' ->
        let k' := set_sy s' (set_mm (mk_memory (wr (ram k) p (fill 5)) next (mm_kpt (k_mm k))) k) in
        free_pages k' l' -> Q p k'
    end) ->
  wp T kalloc Q k.
Proof.
  intros Hok Hf [Hc Hnd] HQ. unfold kalloc. apply wp_bind, wp_acquire; [done|].
  apply wp_bind, wp_gets. kproj. destruct l as [|p l]; simpl in Hc.
  - rewrite Hc. simpl. apply wp_bind, wp_ret, wp_bind, (wp_release _ (k_sy k)); [done..|].
    intros s' Hq Hp. apply wp_bind, wp_ret, wp_ret. by apply HQ.
  - destruct Hc as (-> & Hp & Hc). apply NoDup_cons in Hnd as [Hpl Hnd].
    pose proof (page_ok_pos _ Hp). pose proof (page_ok_ram _ Hp).
    assert (c_true p = true) as -> by (unfold c_true; zcase; done). simpl.
    apply wp_bind, wp_bind, wp_load64; [lia|unfold PGSIZE in *; lia|].
    apply wp_upd_mm, wp_bind, (wp_release _ (k_sy k)); [done..|].
    intros s' Hq Hpr. apply wp_bind, wp_bind, wp_memset_page; [lia..|].
    apply wp_ret, wp_ret, HQ; [done..|]. split; [|done]. unfold ram. kproj.
    rewrite <- (Z.add_0_r p). apply chain_wr; [|done|apply Hp|lia|].
    + by rewrite Z.add_0_r.
    + rewrite length_fill. lia.
Qed.

(** Freeing puts the page, filled with 1s, at the head of the list. *)
Lemma wp_kfree l pa (Q : unit -> kernel -> Prop) k :
  sync_ok (k_sy k) -> lock_free (k_sy k) L_kmem -> free_pages k l ->
  page_ok pa -> pa ∉ l ->
  (forall s' m, quiet (k_sy k) s' -> sy_procs s' = procs k ->
     (forall p, p mod PGSIZE = 0 -> p <> pa -> same_page (ram k) m p) ->
     let k' := set_sy s' (set_mm (mk_memory m pa (mm_kpt (k_mm k))) k) in
     free_pages k' (pa :: l) -> Q tt k') ->
  wp T (kfree pa) Q k.
Proof.
  intros Hok Hf [Hc Hnd] Hpa Hl HQ. unfold kfree.
  pose proof (page_ok_ram _ Hpa). destruct Hpa as (Hal & Hlo & Hhi).
  rewrite Hal. replace (pa <? sym_end) with false by (symmetry; apply Z.ltb_ge; lia).
  rewrite Z.geb_leb. replace (PHYSTOP <=? pa) with false
    by (symmetry; apply Z.leb_gt; unfold PGSIZE in *; lia). simpl.
  apply wp_bind, wp_memset_page; [lia..|].
  apply wp_bind, wp_acquire; [done|]. apply wp_bind, wp_gets.
  apply wp_bind, wp_store64; [lia|unfold PGSIZE in *; lia|].
  apply wp_bind, wp_upd_mm, (wp_release _ (k_sy k)); [done..|].
  intros s' Hq Hpr. unfold ram. kproj.
  assert (0 <= mm_freelist (k_mm k) < 2 ^ 64) as Hhead.
  { destruct l as [|q l]; simpl in Hc; [rewrite Hc; lia|].
    destruct Hc as (-> & Hq' & _). pose proof (page_ok_pos _ Hq'). lia. }
  apply (HQ s' (wr64 (wr (ram k) pa (fill 1)) pa (mm_freelist (k_mm k)))); [exact Hq|exact Hpr| |].
  - intros p Hp Hne. destruct (page_disjoint p pa) as [?|?]; try done;
      (eapply same_page_trans; cycle 1;
       [apply same_page_wr; rewrite length_le_bytes; unfold PGSIZE in *; lia
       |apply same_page_wr; rewrite length_fill; lia]).
  - split; [|by apply NoDup_cons]. unfold ram. kproj. cbn [chain]. split; [done|].
    split; [done|]. rewrite rd64_wr64_eq by done.
    rewrite <- (Z.add_0_r pa). unfold wr64. rewrite <- (Z.add_0_r pa) at 1.
    apply chain_wr; rewrite ?length_le_bytes, ?Z.add_0_r; try done; try lia.
    rewrite <- (Z.add_0_r pa). apply chain_wr; try done; try lia.
Qed.

(** The same rules with the state after the call described by [only_mm]. *)
Lemma kalloc_rule l (Q : Z -> kernel -> Prop) k :
  sync_ok (k_sy k) -> lock_free (k_sy k) L_kmem -> free_pages k l ->
  (l = [] -> forall k', only_mm k k' -> k_mm k' = k_mm k -> Q 0 k') ->
  (forall p l', l = p :: l' -> page_ok p -> p ∉ l' ->
     forall k', only_mm k k' -> free_pages k' l' -> ram k' = wr (ram k) p (fill 5) -> Q p k') ->
  wp T kalloc Q k.
Proof.
  intros Hok Hf Hfp H0 H1. apply (wp_kalloc l); [done..|]. intros s' Hq Hp.
  destruct l as [|p l].
  - by apply H0.
  - intros next Hpo Hni k' Hfp'. by apply (H1 p l).
Qed.

Lemma kfree_rule l pa (Q : unit -> kernel -> Prop) k :
  sync_ok (k_sy k) -> lock_free (k_sy k) L_kmem -> free_pages k l ->
  page_ok pa -> pa ∉ l ->
  (forall k', only_mm k k' -> free_pages k' (pa :: l) ->
     (forall p, p mod PGSIZE = 0 -> p <> pa -> same_page (ram k) (ram k') p) -> Q tt k') ->
  wp T (kfree pa) Q k.
Proof.
  intros Hok Hf Hfp Hpa Hl HQ. apply (wp_kfree l); [done..|].
  intros s' m Hq Hp Hs k' Hfp'. by apply HQ.
Qed.

(** The [n] pages from [p] on. *)
Fixpoint pages_from (p : Z) (n : nat) : list Z :=
  match n with O => [] | S n => p :: pages_from (p + PGSIZE) n end.

Lemma elem_of_pages_from p n q :
  p mod PGSIZE = 0 ->
  q ∈ pages_from p n <-> (q mod PGSIZE = 0 /\ p <= q < p + PGSIZE * Z.of_nat n).
Proof.
  revert p. induction n as [|n IH]; intros p Hp; cbn [pages_from].
  - rewrite elem_of_nil. lia.
  - rewrite elem_of_cons, IH by pages. split; [intros [->|?]|intros ?]; pages.
Qed.

Lemma wp_freerange_loop n l p pa_end (Q : unit -> kernel -> Prop) k :
  sync_ok (k_sy k) -> lock_free (k_sy k) L_kmem -> free_pages k l ->
  p mod PGSIZE = 0 -> sym_end <= p -> pa_end mod PGSIZE = 0 -> pa_end <= PHYSTOP ->
  pa_end = p + PGSIZE * Z.of_nat n -> (forall q, q ∈ l -> q < p) ->
  (forall s' m h, quiet (k_sy k) s' -> sy_procs s' = procs k ->
     let k' := set_sy s' (set_mm (mk_memory m h (mm_kpt (k_mm k))) k) in
     free_pages k' (reverse (pages_from p n) ++ l) -> Q tt k') ->
  wp T (freerange_loop (S n) p pa_end) Q k.
Proof.
  revert l p k. induction n as [|n IH]; intros l p k Hok Hf Hfp Hp Hlo He Hhi Hn Hl HQ.
  - cbn [freerange_loop]. replace (p + PGSIZE <=? pa_end) with false
      by (symmetry; apply Z.leb_gt; pages).
    apply wp_ret. apply (HQ (k_sy k) (mm_ram (k_mm k)) (mm_freelist (k_mm k))); done.
  - remember (S n) as n1. cbn [freerange_loop]. subst n1.
    replace (p + PGSIZE <=? pa_end) with true
      by (symmetry; apply Z.leb_le; pages).
    apply wp_bind, (wp_kfree l); [done..| | |].
    + unfold page_ok. pages.
    + intros Hin%Hl. lia.
    + intros s' m Hq Hpr _ k' Hfp'. apply (IH (p :: l)); try done.
      * by eapply quiet_sync_ok.
      * by eapply quiet_lock_free.
      * pages.
      * pages.
      * pages.
      * intros q [->|Hq'%Hl]%elem_of_cons; unfold PGSIZE; lia.
      * intros s2 m2 h2 Hq2 Hpr2 k2 Hfp2.
        apply (HQ s2 m2 h2); [by etrans|unfold procs in *; by rewrite Hpr2|].
        cbn [pages_from]. rewrite reverse_cons, <- app_assoc. done.
Qed.

End rules.

(** ** Properties *)

(** [kinit] puts every whole page between the end of the kernel and the
    end of RAM into the free list exactly once, whatever RAM held before. *)
Theorem kinit_frees_all {LO : LinkerOk L} k :
  sync_ok (k_sy k) -> mm_freelist (k_mm k) = 0 ->
  exists k' l, (forall e, kinit e k = Ret tt e k') /\ free_pages k' l /\
    (forall p, p ∈ l <-> page_ok p) /\ quiet (put_lock L_kmem (mk_spinlock 0 "kmem" None) (k_sy k)) (k_sy k').
Proof.
  intros Hok H0. set (s0 := put_lock L_kmem (mk_spinlock 0 "kmem" None) (k_sy k)).
  set (p0 := PGROUNDUP sym_end). set (n := Z.to_nat ((PHYSTOP - p0) / PGSIZE)).
  assert (p0 = (sym_end + PGSIZE - 1) / PGSIZE * PGSIZE) as Ep.
  { destruct LO. apply PGROUNDUP_eq; unfold PGSIZE, PHYSTOP, KERNBASE in *; lia. }
  assert (PHYSTOP = p0 + PGSIZE * Z.of_nat n /\ p0 mod PGSIZE = 0 /\ sym_end <= p0 < sym_end + PGSIZE)
    as (En & Ha & Hlo).
  { destruct LO. subst n. unfold PHYSTOP, KERNBASE in *. clearbody p0. subst p0. pages. }
  destruct (wp_exact kinit (fun _ k' => free_pages k' (reverse (pages_from p0 n)) /\
    quiet s0 (k_sy k')) k) as ([] & k' & Hr & Hf & Hq).
  - unfold kinit. apply wp_bind, wp_upd_sy. unfold freerange. fold p0 n.
    apply (wp_freerange_loop n []); try done; try lia.
    + exists "kmem". apply lookup_insert_eq.
    + split; [exact H0|constructor].
    + intros q Hq. by apply elem_of_nil in Hq.
    + intros s' m h Hq _ k' Hf. rewrite app_nil_r in Hf. done.
  - exists k', (reverse (pages_from p0 n)). split_and!; [done..| |done].
    intros p. rewrite elem_of_reverse, elem_of_pages_from, <- En by done.
    unfold page_ok. clearbody p0. destruct LO. unfold PHYSTOP, KERNBASE in *. split; intros; pages.
Qed.

(** [kalloc] on the pages [l] returns null when [l] is empty and changes
    nothing; otherwise it returns the first page, aligned and inside the
    managed range, filled with junk, and exactly the rest stays free. *)
Theorem kalloc_spec {LO : LinkerOk L} l k :
  sync_ok (k_sy k) -> lock_free (k_sy k) L_kmem -> free_pages k l ->
  exists r k', (forall e, kalloc e k = Ret r e k') /\ quiet (k_sy k) (k_sy k') /\
    match l with
    | [] => r = 0 /\ k_mm k' = k_mm k
    | p :: l' => r = p /\ page_ok p /\ p ∉ l' /\ free_pages k' l' /\
        rdn (ram k') p PGSIZE = fill 5 /\
        (forall q, q mod PGSIZE = 0 -> q <> p -> same_page (ram k) (ram k') q)
    end.
Proof.
  intros Hok Hl Hf.
  destruct (wp_exact kalloc (fun r k' => quiet (k_sy k) (k_sy k') /\
    match l with
    | [] => r = 0 /\ k_mm k' = k_mm k
    | p :: l' => r = p /\ page_ok p /\ p ∉ l' /\ free_pages k' l' /\
        rdn (ram k') p PGSIZE = fill 5 /\
        (forall q, q mod PGSIZE = 0 -> q <> p -> same_page (ram k) (ram k') q)
    end) k) as (r & k' & Hr & H); [|by exists r, k'].
  apply (wp_kalloc l); [done..|]. intros s' Hq Hp. destruct l as [|p l]; [done|].
  intros next Hpok Hni k' Hf'. split; [done|]. split_and!; try done.
  - rewrite <- (length_fill 5). apply rdn_wr.
  - intros q Ha Hne. apply same_page_wr. rewrite length_fill.
    destruct Hpok as [Hpa _]. destruct (page_disjoint p q); auto.
Qed.

(** [kfree] panics on an address that is not page-aligned, lies in the
    kernel or beyond RAM; on an allocated page it succeeds, and the next
    [kalloc] gives that page again: the allocator is a stack of pages. *)
Theorem kfree_spec {LO : LinkerOk L} l pa k :
  sync_ok (k_sy k) -> lock_free (k_sy k) L_kmem -> free_pages k l -> pa ∉ l ->
  (~ page_ok pa -> panics (kfree pa) "kfree" k) /\
  (page_ok pa -> exists k', (forall e, kfree pa e k = Ret tt e k') /\
     quiet (k_sy k) (k_sy k') /\ free_pages k' (pa :: l) /\
     (forall q, q mod PGSIZE = 0 -> q <> pa -> same_page (ram k) (ram k') q)).
Proof.
  intros Hok Hl Hf Hni. split; intros Hpa.
  - unfold kfree. destruct (negb (pa mod PGSIZE =? 0) || (pa <? sym_end) || (pa >=? PHYSTOP)) eqn:E;
      [apply panics_panic|]. exfalso. apply Hpa.
    apply orb_false_iff in E as [[E1 E2]%orb_false_iff E3].
    rewrite negb_false_iff, Z.eqb_eq in E1. rewrite Z.ltb_ge in E2.
    rewrite Z.geb_leb, Z.leb_gt in E3. unfold page_ok, PHYSTOP, KERNBASE in *. pages.
  - destruct (wp_exact (kfree pa) (fun _ k' => quiet (k_sy k) (k_sy k') /\ free_pages k' (pa :: l) /\
     (forall q, q mod PGSIZE = 0 -> q <> pa -> same_page (ram k) (ram k') q)) k)
      as ([] & k' & Hr & H); [|by exists k'].
    apply (wp_kfree l); [done..|]. intros s' m Hq _ Hs k' Hf'. split_and!; done.
Qed.

End kalloc.

#[export] Hint Resolve only_mm_sync_ok only_mm_lock_free : kern.

(** ** Instances *)

(** A kernel image of 132 KiB. *)
Definition sample_linker : Linker := {|
  sym_etext := 0x80008000; sym_end := 0x80021000; sym_trampoline := 0x80007000;
  sym_kernelvec := 0x80005000; sym_uservec := 0x80007000; sym_userret := 0x80007090;
  sym_usertrap := 0x80002000; sym_forkret := 0x80001a00 |}.

Lemma sample_linker_ok : LinkerOk sample_linker.
Proof. by split. Qed.

Lemma kinit_frees_all_witness :
  exists k' l, (@kinit sample_linker [] sample = Ret tt [] k') /\ @free_pages sample_linker k' l /\
    0x80021000 ∈ l.
Proof.
  destruct (@kinit_frees_all sample_linker sample_linker_ok sample) as (k' & l & H1 & H2 & H3 & _).
  - apply sample_sync_ok.
  - done.
  - exists k', l. split; [exact (H1 [])|]. split; [exact H2|]. by apply H3.
Defined.

(** [sample] with one free page, the last of RAM. *)
Definition sample_page : kernel := set_mm (mk_memory ∅ 0x87fff000 0) sample.

Lemma sample_page_free : @free_pages sample_linker sample_page [0x87fff000].
Proof. split; [by vm_compute|apply NoDup_singleton]. Qed.

Lemma kalloc_spec_witness :
  exists k', @kalloc [] sample_page = Ret 0x87fff000 [] k' /\ @free_pages sample_linker k' [].
Proof.
  destruct (@kalloc_spec sample_linker sample_linker_ok [0x87fff000] sample_page)
    as (r & k' & H1 & _ & -> & _ & _ & H2 & _).
  - apply sample_sync_ok.
  - apply sample_free. left.
  - apply sample_page_free.
  - exists k'. exact (conj (H1 []) H2).
Defined.

Lemma kfree_spec_witness :
  exists k', @kfree sample_linker 0x87ffe000 [] sample_page = Ret tt [] k' /\
    @free_pages sample_linker k' [0x87ffe000; 0x87fff000].
Proof.
  destruct (@kfree_spec sample_linker sample_linker_ok [0x87fff000] 0x87ffe000 sample_page)
    as (_ & H).
  - apply sample_sync_ok.
  - apply sample_free. left.
  - apply sample_page_free.
  - by intros ?%list_elem_of_singleton.
  - destruct H as (k' & H1 & _ & H2 & _); [by vm_compute|].
    exists k'. exact (conj (H1 []) H2).
Defined.
