(* ===== verification/Vm.v ===== *)
(** * [kernel/vm.c]: Sv39 page tables

    Page tables are pages of 512 little-endian entries in RAM; the functions
    below walk and change them with 64-bit loads and stores.  A buffer of the
    kernel that is not in modelled RAM (a local array, a struct) is the list
    of its bytes: [copyout] takes such a list, [copyin] and [copyinstr] return
    the bytes they stored, together with their result. *)

From S2P Require Import Prelude Defs State Logic Memory Spinlock Sched Kalloc.

(** ** Copies between RAM and kernel buffers *)

Definition store_bytes (dst : Z) (l : list Z) : M unit :=
  for_all (seqZ 0 (Z.of_nat (length l))) (fun i => store8 (dst + i) (nth (Z.to_nat i) l 0)).

Fixpoint load_bytes (src : Z) (n : nat) : M (list Z) :=
  match n with
  | O => ret []
  | S n =>
      let* b := load8 src in
      let* l := load_bytes (src + 1) n in
      ret (b :: l)
  end.

Section vm.
Context {L : Linker}.

(** ** walk *)

Definition pte_flag (pte flag : Z) : bool := c_true (Z.land pte flag).

(** The body of the loop of [walk] at one level: the next table, or 0. *)
Definition walk_level (pagetable va : Z) (alloc : bool) (level : Z) : M Z :=
  let pte := pagetable + 8 * PX level va in
  let* v := load64 pte in
  if pte_flag v PTE_V then ret (PTE2PA v)
  else if negb alloc then ret 0
  else
    let* pagetable := kalloc in
    if pagetable =? 0 then ret 0
    else
      memset pagetable 0 PGSIZE ;;
      store64 pte (Z.lor (PA2PTE pagetable) PTE_V) ;;
      ret pagetable.

Definition walk (pagetable va : Z) (alloc : bool) : M Z :=
  if va >=? MAXVA then panic "walk" else
  let* pagetable := walk_level pagetable va alloc 2 in
  if pagetable =? 0 then ret 0 else
  let* pagetable := walk_level pagetable va alloc 1 in
  if pagetable =? 0 then ret 0 else
  ret (pagetable + 8 * PX 0 va).

(** ** mappages *)

Fixpoint mappages_loop (fuel : nat) (pagetable a last pa perm : Z) : M Z :=
  match fuel with
  | O => fun e k => Loop k
  | S fuel =>
      let* pte := walk pagetable a true in
      if pte =? 0 then ret (-1) else
      let* v := load64 pte in
      if pte_flag v PTE_V then panic "remap" else
      store64 pte (Z.lor (Z.lor (PA2PTE pa) perm) PTE_V) ;;
      if a =? last then ret 0
      else mappages_loop fuel pagetable (a + PGSIZE) last (u64 (pa + PGSIZE)) perm
  end.

(** The loop ends at [last], or when [a] reaches [MAXVA] and [walk] panics. *)
Definition mappages (pagetable va size pa perm : Z) : M Z :=
  let a := PGROUNDDOWN va in
  let last := PGROUNDDOWN (u64 (va + size - 1)) in
  let stop := if a <=? last then last else MAXVA in
  mappages_loop (S (Z.to_nat ((stop - a) / PGSIZE))) pagetable a last pa perm.

Definition kvmmap (va pa sz perm : Z) : M unit :=
  let* kpt := gets (fun k => mm_kpt (k_mm k)) in
  let* r := mappages kpt va sz pa perm in
  if negb (r =? 0) then panic "kvmmap" else ret tt.

Definition kvminit : M unit :=
  let* kpt := kalloc in
  upd_mm (set_kpt kpt) ;;
  memset kpt 0 PGSIZE ;;
  kvmmap UART0 UART0 PGSIZE (Z.lor PTE_R PTE_W) ;;
  kvmmap VIRTIO0 VIRTIO0 PGSIZE (Z.lor PTE_R PTE_W) ;;
  kvmmap CLINT CLINT 0x10000 (Z.lor PTE_R PTE_W) ;;
  kvmmap PLIC PLIC 0x400000 (Z.lor PTE_R PTE_W) ;;
  kvmmap KERNBASE KERNBASE (sym_etext - KERNBASE) (Z.lor PTE_R PTE_X) ;;
  kvmmap sym_etext sym_etext (PHYSTOP - sym_etext) (Z.lor PTE_R PTE_W) ;;
  kvmmap TRAMPOLINE sym_trampoline PGSIZE (Z.lor PTE_R PTE_X).

Definition kvmpa (va : Z) : M Z :=
  let off := va mod PGSIZE in
  let* kpt := gets (fun k => mm_kpt (k_mm k)) in
  let* pte := walk kpt va false in
  if pte =? 0 then panic "kvmpa" else
  let* v := load64 pte in
  if negb (pte_flag v PTE_V) then panic "kvmpa" else
  ret (u64 (PTE2PA v + off)).

(** ** walkaddr, with lazy allocation *)

(** [myproc()->trapframe-> ...] *)
Definition tf_load (p : nat) (f : trapframe) : M Z :=
  let* pr := get_proc p in load64 (p_trapframe pr + tf_offset f).
Definition tf_store (p : nat) (f : trapframe) (v : Z) : M unit :=
  let* pr := get_proc p in store64 (p_trapframe pr + tf_offset f) v.

Definition PTE_USER : Z := Z.lor (Z.lor (Z.lor PTE_W PTE_R) PTE_U) PTE_X.

Definition walkaddr (pagetable va : Z) : M Z :=
  if va >=? MAXVA then ret 0 else
  let* pte := walk pagetable va false in
  let* v := if pte =? 0 then ret 0 else load64 pte in
  if (pte =? 0) || negb (pte_flag v PTE_V) then
    let* p := curproc in
    let* pr := get_proc p in
    if va >=? p_sz pr then ret 0 else
    let* p := curproc in
    let* sp := tf_load p TF_sp in
    if va <? PGROUNDUP sp then ret 0 else
    let* pa := kalloc in
    if pa =? 0 then ret 0 else
    memset pa 0 PGSIZE ;;
    let va := PGROUNDDOWN va in
    let* p := curproc in
    let* pr := get_proc p in
    let* r := mappages (p_pagetable pr) va PGSIZE pa PTE_USER in
    if negb (r =? 0) then kfree pa ;; ret 0
    else ret pa
  else if negb (pte_flag v PTE_U) then ret 0
  else ret (PTE2PA v).

(** ** Unmapping *)

Definition uvmunmap_page (pagetable a : Z) (do_free : bool) : M unit :=
  let* pte := walk pagetable a false in
  if pte =? 0 then ret tt else
  let* v := load64 pte in
  if negb (pte_flag v PTE_V) then ret tt
  else if PTE_FLAGS v =? PTE_V then panic "uvmunmap: not a leaf"
  else
    when do_free (kfree (PTE2PA v)) ;;
    store64 pte 0.

Fixpoint uvmunmap_loop (fuel : nat) (pagetable a fin : Z) (do_free : bool) : M unit :=
  match fuel with
  | O => fun e k => Loop k
  | S fuel =>
      if a <? fin then
        uvmunmap_page pagetable a do_free ;;
        uvmunmap_loop fuel pagetable (u64 (a + PGSIZE)) fin do_free
      else ret tt
  end.

Definition uvmunmap (pagetable va npages : Z) (do_free : bool) : M unit :=
  if negb (va mod PGSIZE =? 0) then panic "uvmunmap: not aligned" else
  uvmunmap_loop (S (Z.to_nat npages)) pagetable va (u64 (va + u64 (npages * PGSIZE))) do_free.

Definition uvmdealloc (pagetable oldsz newsz : Z) : M Z :=
  if newsz >=? oldsz then ret oldsz else
  when (PGROUNDUP newsz <? PGROUNDUP oldsz)
    (let npages := s32 ((PGROUNDUP oldsz - PGROUNDUP newsz) / PGSIZE) in
     uvmunmap pagetable (PGROUNDUP newsz) (u64 npages) true) ;;
  ret newsz.

(** ** Creation and growth *)

Definition uvmcreate : M Z :=
  let* pagetable := kalloc in
  if pagetable =? 0 then ret 0 else
  memset pagetable 0 PGSIZE ;;
  ret pagetable.

Definition uvminit (pagetable : Z) (src : list Z) (sz : Z) : M unit :=
  if sz >=? PGSIZE then panic "inituvm: more than a page" else
  let* mem := kalloc in
  memset mem 0 PGSIZE ;;
  let* _ := mappages pagetable 0 PGSIZE mem PTE_USER in
  store_bytes mem (take (Z.to_nat sz) src).

Fixpoint uvmalloc_loop (fuel : nat) (pagetable oldsz a newsz : Z) : M Z :=
  match fuel with
  | O => fun e k => Loop k
  | S fuel =>
      if a <? newsz then
        let* mem := kalloc in
        if mem =? 0 then
          uvmdealloc pagetable a oldsz ;; ret 0
        else
          memset mem 0 PGSIZE ;;
          let* r := mappages pagetable a PGSIZE mem PTE_USER in
          if negb (r =? 0) then
            kfree mem ;; uvmdealloc pagetable a oldsz ;; ret 0
          else uvmalloc_loop fuel pagetable oldsz (u64 (a + PGSIZE)) newsz
      else ret newsz
  end.

Definition uvmalloc (pagetable oldsz newsz : Z) : M Z :=
  if newsz <? oldsz then ret oldsz else
  let oldsz := PGROUNDUP oldsz in
  uvmalloc_loop (S (S (Z.to_nat ((newsz - oldsz) / PGSIZE)))) pagetable oldsz oldsz newsz.

(** ** Freeing *)

(** The recursion of [freewalk] visits a different page at each depth. *)
Fixpoint freewalk (depth : nat) (pagetable : Z) : M unit :=
  match depth with
  | O => fun e k => Loop k
  | S depth =>
      for_all (seqZ 0 512) (fun i =>
        let* pte := load64 (pagetable + 8 * i) in
        if pte_flag pte PTE_V && negb (pte_flag pte (Z.lor (Z.lor PTE_R PTE_W) PTE_X)) then
          let child := PTE2PA pte in
          freewalk depth child ;;
          store64 (pagetable + 8 * i) 0
        else if pte_flag pte PTE_V then panic "freewalk: leaf"
        else ret tt) ;;
      kfree pagetable
  end.

Definition max_depth : nat := Z.to_nat ((PHYSTOP - KERNBASE) / PGSIZE).

Definition uvmfree (pagetable sz : Z) : M unit :=
  when (sz >? 0) (uvmunmap pagetable 0 (PGROUNDUP sz / PGSIZE) true) ;;
  freewalk max_depth pagetable.

(** ** Copying an address space *)

(** [Some i] when the loop left through [err] at address [i]. *)
Fixpoint uvmcopy_loop (fuel : nat) (old new i sz : Z) : M (option Z) :=
  match fuel with
  | O => fun e k => Loop k
  | S fuel =>
      if i <? sz then
        let next := uvmcopy_loop fuel old new (u64 (i + PGSIZE)) sz in
        let* pte := walk old i false in
        if pte =? 0 then next else
        let* v := load64 pte in
        if negb (pte_flag v PTE_V) then next else
        let pa := PTE2PA v in
        let flags := PTE_FLAGS v in
        let* mem := kalloc in
        if mem =? 0 then ret (Some i) else
        memmove mem pa PGSIZE ;;
        let* r := mappages new i PGSIZE mem flags in
        if negb (r =? 0) then kfree mem ;; ret (Some i)
        else next
      else ret None
  end.

Definition uvmcopy (old new sz : Z) : M Z :=
  let* r := uvmcopy_loop (S (S (Z.to_nat (sz / PGSIZE)))) old new 0 sz in
  match r with
  | None => ret 0
  | Some i => uvmunmap new 0 (i / PGSIZE) true ;; ret (-1)
  end.

Definition uvmclear (pagetable va : Z) : M unit :=
  let* pte := walk pagetable va false in
  if pte =? 0 then panic "uvmclear" else
  let* v := load64 pte in
  store64 pte (Z.land v (u64 (Z.lnot PTE_U))).

(** ** Copies between user and kernel memory *)

Fixpoint copyout_loop (fuel : nat) (pagetable dstva : Z) (src : list Z) : M Z :=
  match fuel with
  | O => fun e k => Loop k
  | S fuel =>
      let len := Z.of_nat (length src) in
      if len >? 0 then
        let va0 := PGROUNDDOWN dstva in
        let* pa0 := walkaddr pagetable va0 in
        if pa0 =? 0 then ret (-1) else
        let n := PGSIZE - (dstva - va0) in
        let n := if n >? len then len else n in
        store_bytes (pa0 + (dstva - va0)) (take (Z.to_nat n) src) ;;
        copyout_loop fuel pagetable (u64 (va0 + PGSIZE)) (drop (Z.to_nat n) src)
      else ret 0
  end.

(** The first page takes at least one byte, every later one [PGSIZE]. *)
Definition copyout (pagetable dstva : Z) (src : list Z) : M Z :=
  copyout_loop (length src / 4096 + 3) pagetable dstva src.

Fixpoint copyin_loop (fuel : nat) (pagetable srcva len : Z) (acc : list Z) : M (Z * list Z) :=
  match fuel with
  | O => fun e k => Loop k
  | S fuel =>
      if len >? 0 then
        let va0 := PGROUNDDOWN srcva in
        let* pa0 := walkaddr pagetable va0 in
        if pa0 =? 0 then ret (-1, acc) else
        let n := PGSIZE - (srcva - va0) in
        let n := if n >? len then len else n in
        let* l := load_bytes (pa0 + (srcva - va0)) (Z.to_nat n) in
        copyin_loop fuel pagetable (u64 (va0 + PGSIZE)) (len - n) (acc ++ l)
      else ret (0, acc)
  end.

Definition copyin (pagetable srcva len : Z) : M (Z * list Z) :=
  copyin_loop (Z.to_nat len / 4096 + 3) pagetable srcva len [].

(** The inner loop of [copyinstr] over one page: the bytes stored, and
    whether a NUL was among them. *)
Fixpoint copyinstr_page (p : Z) (n : nat) (acc : list Z) : M (bool * list Z) :=
  match n with
  | O => ret (false, acc)
  | S n =>
      let* c := load8 p in
      if c =? 0 then ret (true, acc ++ [0])
      else copyinstr_page (p + 1) n (acc ++ [c])
  end.

Fixpoint copyinstr_loop (fuel : nat) (pagetable srcva max : Z) (acc : list Z) : M (Z * list Z) :=
  match fuel with
  | O => fun e k => Loop k
  | S fuel =>
      if max >? 0 then
        let va0 := PGROUNDDOWN srcva in
        let* pa0 := walkaddr pagetable va0 in
        if pa0 =? 0 then ret (-1, acc) else
        let n := PGSIZE - (srcva - va0) in
        let n := if n >? max then max else n in
        let* r := copyinstr_page (pa0 + (srcva - va0)) (Z.to_nat n) acc in
        let '(got_null, acc) := r in
        if got_null : bool then ret (0, acc)
        else copyinstr_loop fuel pagetable (u64 (va0 + PGSIZE)) (max - n) acc
      else ret (-1, acc)
  end.

Definition copyinstr (pagetable srcva max : Z) : M (Z * list Z) :=
  copyinstr_loop (Z.to_nat max / 4096 + 3) pagetable srcva max [].

End vm.
