(* ===== verification/PageTable.v ===== *)
(** * Page tables as finite maps

    The tables of one page table form a tree of depth three.  [T] maps the
    path of indices from the root to the page holding the table: the root at
    [[]], and below the table at [p] the table its entry [i] points to at
    [p ++ [i]].  Of the entries of the root the lower half is in use, for the
    addresses below [MAXVA].  [pt_ok m T root] says that RAM [m] holds the tree [T];
    [leaf m T va] is the last-level entry for [va], 0 when there is no table
    for it.  [walk] and [mappages] are shown to implement lookup and update of
    [leaf]. *)

From S2P Require Import Prelude Defs State Logic Memory Spinlock Sched Kalloc Vm.

Section pt.
Context {L : Linker} {LO : LinkerOk L}.

Record pt_ok (m : gmap Z Z) (T : gmap (list Z) Z) (root : Z) : Prop := {
  pt_root : T !! [] = Some root;
  pt_path p c : T !! p = Some c -> (length p <= 2)%nat /\ Forall (fun i => 0 <= i < 512) p;
  pt_low i p c : T !! (i :: p) = Some c -> i < 256;
  pt_page p c : T !! p = Some c -> page_ok c;
  pt_inj p q c : T !! p = Some c -> T !! q = Some c -> p = q;
  pt_up p i c : T !! (p ++ [i]) = Some c -> is_Some (T !! p);
  pt_link p c i : T !! p = Some c -> (length p < 2)%nat -> 0 <= i < 512 ->
    match T !! (p ++ [i]) with
    | Some d => rd64 m (c + 8 * i) = Z.lor (PA2PTE d) PTE_V
    | None => pte_flag (rd64 m (c + 8 * i)) PTE_V = false
    end }.

Definition is_table (T : gmap (list Z) Z) (c : Z) : Prop := exists p, T !! p = Some c.

Definition pte_addr (T : gmap (list Z) Z) (va : Z) : option Z :=
  match T !! [PX 2 va; PX 1 va] with
  | Some c => Some (c + 8 * PX 0 va)
  | None => None
  end.

Definition leaf (m : gmap Z Z) (T : gmap (list Z) Z) (va : Z) : Z :=
  match pte_addr T va with Some a => rd64 m a | None => 0 end.

(** ** Entries *)

Lemma pte_table d : page_ok d -> PTE2PA (Z.lor (PA2PTE d) PTE_V) = d /\
  pte_flag (Z.lor (PA2PTE d) PTE_V) PTE_V = true /\
  0 <= Z.lor (PA2PTE d) PTE_V < 2 ^ 64.
Proof.
  intros Hd. pose proof (page_ok_pos _ Hd) as Hp. destruct Hd as [Ha _].
  assert (0 <= PTE_V < 1024) as Hv by done.
  split_and!.
  - apply PTE2PA_make; [lia|done..].
  - unfold pte_flag, c_true. rewrite land_small_flags, PTE_FLAGS_make by (lia || done). done.
  - rewrite pte_val by (lia || done). change PTE_V with 1. pages.
  - rewrite pte_val by (lia || done). change PTE_V with 1. pages.
Qed.

(** Words of page tables. *)
Definition word (c i : Z) : Z := c + 8 * i.

Lemma word_disjoint c i d j :
  c mod PGSIZE = 0 -> d mod PGSIZE = 0 -> 0 <= i < 512 -> 0 <= j < 512 ->
  (c, i) <> (d, j) -> c + 8 * i + 8 <= d + 8 * j \/ d + 8 * j + 8 <= c + 8 * i.
Proof.
  intros Hc Hd Hi Hj Hne. destruct (decide (c = d)) as [->|Hcd].
  - assert (i <> j) by congruence. lia.
  - destruct (page_disjoint c d); try done; unfold PGSIZE in *; lia.
Qed.

Lemma rd64_wr64_word m c i d j v :
  c mod PGSIZE = 0 -> d mod PGSIZE = 0 -> 0 <= i < 512 -> 0 <= j < 512 -> 0 <= v < 2 ^ 64 ->
  rd64 (wr64 m (c + 8 * i) v) (d + 8 * j) =
    if decide ((c, i) = (d, j)) then v else rd64 m (d + 8 * j).
Proof.
  intros Hc Hd Hi Hj Hv. case_decide as E.
  - simplify_eq. by apply rd64_wr64_eq.
  - apply rd64_wr64_ne. destruct (word_disjoint c i d j); auto.
Qed.

Lemma rd64_zero_page m p i : 0 <= i < 512 -> rd64 (wr m p (fill 0)) (p + 8 * i) = 0.
Proof.
  intros Hi. transitivity (rd64 ∅ (p + 8 * i)).
  - apply rd64_ext. intros b Hb. rewrite rd_fill by (unfold PGSIZE; lia). done.
  - apply rd64_empty.
Qed.

Lemma rd64_wr_page m d l e j :
  d mod PGSIZE = 0 -> e mod PGSIZE = 0 -> e <> d -> Z.of_nat (length l) = PGSIZE ->
  0 <= j < 512 -> rd64 (wr m d l) (e + 8 * j) = rd64 m (e + 8 * j).
Proof.
  intros Hd He Hne Hl Hj. apply rd64_wr_out.
  destruct (page_disjoint d e); try done; unfold PGSIZE in *; lia.
Qed.

(** ** Changing RAM under a page table *)

Lemma pt_ok_ext m m' T root :
  pt_ok m T root -> (forall c, is_table T c -> same_page m m' c) ->
  pt_ok m' T root /\ (forall va, leaf m' T va = leaf m T va).
Proof.
  intros H Hs. assert (forall c i, is_table T c -> 0 <= i < 512 ->
    rd64 m' (c + 8 * i) = rd64 m (c + 8 * i)) as Hw.
  { intros c i Hc Hi. apply (same_page_rd64 m m' c (8 * i)); [auto|lia|unfold PGSIZE; lia]. }
  split.
  - split; [apply H..|]. intros p c i Hp Hl Hi. rewrite Hw by (done || by exists p). by apply H.
  - intros va. unfold leaf, pte_addr. destruct (T !! _) as [c|] eqn:E; [|done].
    apply Hw; [by eexists|apply PX_range].
Qed.

Lemma add_lookup (T : gmap (list Z) Z) (p q : list Z) (d : Z) :
  q <> p -> <[p := d]> T !! q = T !! q.
Proof. intros H. by rewrite lookup_insert_ne. Qed.

Section add.
Context (m m' : gmap Z Z) (T : gmap (list Z) Z) (root c i d : Z) (p : list Z).
Hypothesis Hpt : pt_ok m T root.
Hypothesis Hp : T !! p = Some c.
Hypothesis Hlen : (length p < 2)%nat.
Hypothesis Hi : 0 <= i < 512.
Hypothesis Hlow : p = [] -> i < 256.
Hypothesis Hnone : T !! (p ++ [i]) = None.
Hypothesis Hd : page_ok d.
Hypothesis Hnew : ~ is_table T d.
Hypothesis Hzero : forall j, 0 <= j < 512 -> rd64 m' (d + 8 * j) = 0.
Hypothesis Hentry : rd64 m' (c + 8 * i) = Z.lor (PA2PTE d) PTE_V.
Hypothesis Hsame : forall q e j, T !! q = Some e -> 0 <= j < 512 -> (e, j) <> (c, i) ->
  rd64 m' (e + 8 * j) = rd64 m (e + 8 * j).

Lemma pt_add_link q e j :
  <[p ++ [i] := d]> T !! q = Some e -> (length q < 2)%nat -> 0 <= j < 512 ->
  match <[p ++ [i] := d]> T !! (q ++ [j]) with
  | Some x => rd64 m' (e + 8 * j) = Z.lor (PA2PTE x) PTE_V
  | None => pte_flag (rd64 m' (e + 8 * j)) PTE_V = false
  end.
Proof.
  intros Hq Hlq Hj. destruct (decide (q = p ++ [i])) as [->|Hne].
  - rewrite lookup_insert_eq in Hq. simplify_eq. rewrite add_lookup.
    2:{ intros E%(f_equal length). rewrite !length_app in E. simpl in E. lia. }
    destruct (T !! ((p ++ [i]) ++ [j])) as [x|] eqn:E.
    + apply (pt_up _ _ _ Hpt) in E as [? E]. congruence.
    + by rewrite Hzero.
  - rewrite add_lookup in Hq by done. destruct (decide ((q, j) = (p, i))) as [E|E].
    + simplify_eq. by rewrite lookup_insert_eq.
    + rewrite add_lookup by (intros [-> ->]%app_inj_tail; done).
      rewrite (Hsame q e j); [by apply Hpt|done|done|].
      intros E'. simplify_eq. apply E. f_equal. by eapply pt_inj.
Qed.

Lemma pt_add : pt_ok m' (<[p ++ [i] := d]> T) root.
Proof.
  split.
  - rewrite add_lookup; [apply Hpt|by destruct p].
  - intros q e Hq. destruct (decide (q = p ++ [i])) as [->|Hne].
    + destruct (pt_path _ _ _ Hpt _ _ Hp) as [_ HF]. rewrite length_app. simpl.
      split; [lia|]. apply Forall_app. auto.
    + rewrite add_lookup in Hq by done. by eapply pt_path.
  - intros x q e Hq. destruct (decide (x :: q = p ++ [i])) as [E|Hne].
    + destruct p as [|y p']; simplify_eq/=; [by apply Hlow|]. by eapply pt_low.
    + rewrite add_lookup in Hq by done. by eapply pt_low.
  - intros q e Hq. destruct (decide (q = p ++ [i])) as [->|Hne].
    + rewrite lookup_insert_eq in Hq. by simplify_eq.
    + rewrite add_lookup in Hq by done. by eapply pt_page.
  - intros q q' e Hq Hq'.
    destruct (decide (q = p ++ [i])) as [->|H1], (decide (q' = p ++ [i])) as [->|H2];
      rewrite ?lookup_insert_eq, ?add_lookup in Hq by done;
      rewrite ?lookup_insert_eq, ?add_lookup in Hq' by done; simplify_eq; try done.
    + destruct Hnew. by exists q'.
    + destruct Hnew. by exists q.
    + by eapply pt_inj.
  - intros q j e Hq. destruct (decide (q ++ [j] = p ++ [i])) as [[-> ->]%app_inj_tail|Hne].
    + rewrite add_lookup; [by eexists|]. intros E%(f_equal length).
      rewrite length_app in E. simpl in E. lia.
    + rewrite add_lookup in Hq by done. apply (pt_up _ _ _ Hpt) in Hq as [x Hx].
      rewrite add_lookup; [by eexists|]. congruence.
  - apply pt_add_link.
Qed.

Lemma leaf_add va : leaf m' (<[p ++ [i] := d]> T) va = leaf m T va.
Proof.
  unfold leaf, pte_addr. pose proof (PX_range 0 va) as Hr.
  destruct (decide ([PX 2 va; PX 1 va] = p ++ [i])) as [E|E].
  - rewrite E, lookup_insert_eq, Hnone. by apply Hzero.
  - rewrite add_lookup by done. destruct (T !! [PX 2 va; PX 1 va]) as [e|] eqn:Ee; [|done].
    eapply Hsame; [done..|]. intros E'. simplify_eq.
    assert (p = [PX 2 va; PX 1 va]) as -> by (by eapply pt_inj). simpl in Hlen. lia.
Qed.

End add.

(** ** Page tables beside the free list *)

Record vm_ok (k : kernel) (T : gmap (list Z) Z) (root : Z) (l : list Z) : Prop := {
  vo_free : free_pages k l;
  vo_pt : pt_ok (ram k) T root;
  vo_sep c : is_table T c -> c ∉ l }.

(** New tables were taken from the free list and linked in; no page outside
    the tables changed. *)
Record extend (m : gmap Z Z) (T : gmap (list Z) Z) (l : list Z)
    (m' : gmap Z Z) (T' : gmap (list Z) Z) (l' : list Z) : Prop := {
  ex_new : exists new, l = new ++ l' /\
    (forall c, is_table T' c -> is_table T c \/ c ∈ new) /\
    (forall q, q mod PGSIZE = 0 -> q ∉ new -> ~ is_table T q -> same_page m m' q);
  ex_sub : T ⊆ T' }.

(** At most [n] pages were taken from the free list, and all are tables now. *)
Definition linked (n : nat) (l l' : list Z) (T' : gmap (list Z) Z) : Prop :=
  (forall c, c ∈ l -> c ∉ l' -> is_table T' c) /\ (length l <= length l' + n)%nat.

(** Moreover no last-level entry changed. *)
Record grow (n : nat) (m : gmap Z Z) (T : gmap (list Z) Z) (l : list Z)
    (m' : gmap Z Z) (T' : gmap (list Z) Z) (l' : list Z) : Prop := {
  gr_ext : extend m T l m' T' l';
  gr_linked : linked n l l' T';
  gr_leaf va : leaf m' T' va = leaf m T va }.

Lemma extend_refl m T l : extend m T l m T l.
Proof. split; [|done]. exists []. split_and!; [done|auto|]. intros q _ _ _ a _. done. Qed.

Lemma extend_trans m T l m1 T1 l1 m2 T2 l2 :
  extend m T l m1 T1 l1 -> extend m1 T1 l1 m2 T2 l2 -> extend m T l m2 T2 l2.
Proof.
  intros [(n1 & -> & Ht1 & Hs1) Hsub1] [(n2 & -> & Ht2 & Hs2) Hsub2]. split.
  - exists (n1 ++ n2). split; [by rewrite app_assoc|]. split.
    + intros c [Hc|Hc]%Ht2; [apply Ht1 in Hc as [?|?]; [by left|]|]; right;
        apply elem_of_app; auto.
    + intros q Hq Hn Hnt. rewrite not_elem_of_app in Hn. destruct Hn as [Hn1 Hn2].
      eapply same_page_trans; [by apply Hs1|]. apply Hs2; [done..|].
      intros [?|?]%Ht1; done.
  - by etransitivity.
Qed.

Lemma linked_refl n l T : linked n l l T.
Proof. split; [by intros c H1 H2|lia]. Qed.

Lemma linked_mono n n' l l' T : linked n l l' T -> (n <= n')%nat -> linked n' l l' T.
Proof. intros [H1 H2] Hn. split; [done|lia]. Qed.

Lemma linked_trans n n' l l1 l2 T1 T2 : linked n l l1 T1 -> linked n' l1 l2 T2 -> T1 ⊆ T2 -> linked (n + n') l l2 T2.
Proof.
  intros [H1 N1] [H2 N2] Hs. split; [|lia]. intros c Hc Hc2. destruct (decide (c ∈ l1)) as [Hc1|Hc1]; [by apply H2|].
  destruct (H1 c Hc Hc1) as [p Hp]. exists p. by eapply lookup_weaken.
Qed.

Lemma grow_refl n m T l : grow n m T l m T l.
Proof. split; [apply extend_refl|apply linked_refl|done]. Qed.

Lemma grow_trans n n' m T l m1 T1 l1 m2 T2 l2 :
  grow n m T l m1 T1 l1 -> grow n' m1 T1 l1 m2 T2 l2 -> grow (n + n') m T l m2 T2 l2.
Proof.
  intros [H1 L1 E1] [H2 L2 E2]. split; [by eapply extend_trans|eapply linked_trans; [done..|apply H2]|].
  intros va. by rewrite E2, E1.
Qed.

Lemma free_pages_ext k k' l :
  free_pages k l -> mm_freelist (k_mm k') = mm_freelist (k_mm k) ->
  (forall p, p ∈ l -> same_page (ram k) (ram k') p) -> free_pages k' l.
Proof.
  intros [Hc Hn] E Hs. split; [|done]. rewrite E. by eapply chain_ext.
Qed.

Lemma table_page T m root c : pt_ok m T root -> is_table T c -> page_ok c.
Proof. intros H [p Hp]. by eapply pt_page. Qed.

Lemma pte_addr_ram m T root va a :
  pt_ok m T root -> pte_addr T va = Some a -> KERNBASE <= a /\ a + 8 <= PHYSTOP.
Proof.
  intros H. unfold pte_addr. destruct (T !! _) as [c|] eqn:E; [|done]. intros [= <-].
  apply (pt_page _ _ _ H), page_ok_ram in E. pose proof (PX_range 0 va).
  unfold PGSIZE in *. lia.
Qed.

Lemma same_page_fill m d x q :
  d mod PGSIZE = 0 -> q mod PGSIZE = 0 -> q <> d -> same_page m (wr m d (fill x)) q.
Proof.
  intros Hd Hq Hne. apply same_page_wr. rewrite length_fill.
  destruct (page_disjoint d q); auto.
Qed.

Lemma same_page_word m c i v q :
  c mod PGSIZE = 0 -> q mod PGSIZE = 0 -> 0 <= i < 512 -> q <> c ->
  same_page m (wr64 m (c + 8 * i) v) q.
Proof.
  intros Hc Hq Hi Hne. apply same_page_wr. rewrite length_le_bytes.
  destruct (page_disjoint c q); auto; unfold PGSIZE in *; lia.
Qed.

(** A table taken from the free list, cleared and linked in at entry [i] of
    the table [c]. *)
Lemma vm_ok_add k k1 k' T root l p c i d :
  vm_ok k T root (d :: l) -> T !! p = Some c -> (length p < 2)%nat -> 0 <= i < 512 ->
  (p = [] -> i < 256) -> T !! (p ++ [i]) = None -> page_ok d -> d ∉ l ->
  free_pages k1 l -> ram k1 = wr (ram k) d (fill 5) ->
  mm_freelist (k_mm k') = mm_freelist (k_mm k1) ->
  ram k' = wr64 (wr (ram k1) d (fill 0)) (c + 8 * i) (Z.lor (PA2PTE d) PTE_V) ->
  vm_ok k' (<[p ++ [i] := d]> T) root l /\
  grow 1 (ram k) T (d :: l) (ram k') (<[p ++ [i] := d]> T) l.
Proof.
  intros [Hf Hpt Hsep] Hp Hl Hi Hlow Hn Hd Hdl Hf1 Hr1 Hfl Hr.
  destruct (pte_table d Hd) as (_ & _ & Hv).
  assert (page_ok c) as [Hca _] by (by eapply pt_page). pose proof (proj1 Hd) as Hda.
  assert (~ is_table T d) as Hnt by (intros H%Hsep; apply H; left).
  assert (c <> d) as Hcd by (intros ->; apply Hnt; by exists p).
  assert (forall q, q mod PGSIZE = 0 -> q <> d -> q <> c -> same_page (ram k1) (ram k') q) as Hs1.
  { intros q Hq Hqd Hqc. rewrite Hr. eapply same_page_trans; [by apply (same_page_fill _ d 0)|].
    by apply same_page_word. }
  assert (forall q e j, T !! q = Some e -> 0 <= j < 512 -> (e, j) <> (c, i) ->
    rd64 (ram k') (e + 8 * j) = rd64 (ram k) (e + 8 * j)) as Hsame.
  { intros q e j He Hj Hne. assert (page_ok e) as [Hea _] by (by eapply pt_page).
    assert (e <> d) by (intros ->; apply Hnt; by exists q).
    rewrite Hr, rd64_wr64_word, decide_False by congruence || done.
    rewrite rd64_wr_page, Hr1, rd64_wr_page by (done || apply length_fill). done. }
  assert (forall j, 0 <= j < 512 -> rd64 (ram k') (d + 8 * j) = 0) as Hzero.
  { intros j Hj. rewrite Hr, rd64_wr64_word, decide_False by congruence || done.
    by apply rd64_zero_page. }
  assert (rd64 (ram k') (c + 8 * i) = Z.lor (PA2PTE d) PTE_V) as Hent.
  { by rewrite Hr, rd64_wr64_eq. }
  assert (forall q, q mod PGSIZE = 0 -> q <> d -> same_page (ram k) (ram k1) q) as Hs0.
  { intros q Hq Hqd. rewrite Hr1. by apply same_page_fill. }
  clear Hr Hr1. split; split; [..|split| |].
  - eapply free_pages_ext; [done|done|]. intros q Hq.
    destruct (chain_page_ok _ _ _ q (proj1 Hf1) Hq) as [Hqa _].
    apply Hs1. { exact Hqa. } { intros ->. exact (Hdl Hq). }
    intros ->. apply (Hsep c); [by exists p|by right].
  - by apply (pt_add (ram k) (ram k') T root c i d p).
  - intros e [q Hq]. destruct (decide (q = p ++ [i])) as [->|Hne].
    + rewrite lookup_insert_eq in Hq. by simplify_eq.
    + rewrite add_lookup in Hq by done. intros He. eapply Hsep; [by exists q|by right].
  - exists [d]. split; [done|]. split.
    + intros e [q Hq]. destruct (decide (q = p ++ [i])) as [->|Hne].
      * rewrite lookup_insert_eq in Hq. simplify_eq. right. left.
      * rewrite add_lookup in Hq by done. left. by exists q.
    + intros q Hq Hqd Hqt. assert (q <> d) by (intros ->; apply Hqd; left).
      eapply same_page_trans; [by apply Hs0|]. apply Hs1; [done..|]. intros ->. apply Hqt. by exists p.
  - by apply insert_subseteq.
  - split; [|cbn; lia]. intros e [->|He]%elem_of_cons Hne; [|done]. exists (p ++ [i]). apply lookup_insert_eq.
  - intros va. by apply (leaf_add (ram k) (ram k') T root c i d p).
Qed.

(** Storing a last-level entry. *)
Lemma pte_addr_inj m T root va va' a :
  pt_ok m T root -> 0 <= va < MAXVA -> 0 <= va' < MAXVA ->
  va mod PGSIZE = 0 -> va' mod PGSIZE = 0 ->
  pte_addr T va = Some a -> pte_addr T va' = Some a -> va = va'.
Proof.
  intros Hpt Hv Hv' Ha Ha'. unfold pte_addr.
  destruct (T !! [PX 2 va; PX 1 va]) as [c|] eqn:E; [|done].
  destruct (T !! [PX 2 va'; PX 1 va']) as [c'|] eqn:E'; [|done].
  intros [= <-] [= Heq]. pose proof (PX_range 0 va). pose proof (PX_range 0 va').
  destruct (pt_page _ _ _ Hpt _ _ E) as [Hc _], (pt_page _ _ _ Hpt _ _ E') as [Hc' _].
  assert ((c, PX 0 va) = (c', PX 0 va')) as [= <- Hx0].
  { destruct (decide ((c, PX 0 va) = (c', PX 0 va'))) as [|Hne]; [done|].
    destruct (word_disjoint c (PX 0 va) c' (PX 0 va')); try done; lia. }
  assert ([PX 2 va; PX 1 va] = [PX 2 va'; PX 1 va']) as [= Hx2 Hx1] by (by eapply pt_inj).
  by apply PX_inj.
Qed.

Lemma leaf_set k T root l va a v :
  vm_ok k T root l -> 0 <= va < MAXVA -> va mod PGSIZE = 0 -> pte_addr T va = Some a ->
  0 <= v < 2 ^ 64 ->
  let k' := with_ram (wr64 (ram k) a v) k in
  vm_ok k' T root l /\ extend (ram k) T l (ram k') T l /\
  (forall va', 0 <= va' < MAXVA -> va' mod PGSIZE = 0 ->
     leaf (ram k') T va' = if decide (va' = va) then v else leaf (ram k) T va').
Proof.
  intros [Hf Hpt Hsep] Hva Hal Hpa Hv k'. pose proof (PX_range 0 va) as Hx.
  unfold pte_addr in Hpa. destruct (T !! [PX 2 va; PX 1 va]) as [c|] eqn:Hc; [|done].
  injection Hpa as <-. destruct (pt_page _ _ _ Hpt _ _ Hc) as [Hca _].
  assert (forall q, q mod PGSIZE = 0 -> q <> c -> same_page (ram k) (ram k') q) as Hs.
  { intros q Hq Hne. by apply same_page_word. }
  split_and!; [split| split|].
  - eapply free_pages_ext; [done|done|]. intros q Hq.
    destruct (chain_page_ok _ _ _ q (proj1 Hf) Hq) as [Hqa _].
    apply Hs; [done|]. intros ->. by apply (Hsep c); [eexists|].
  - split; [apply Hpt..|]. intros p e i Hp Hl Hi.
    destruct (pt_page _ _ _ Hpt _ _ Hp) as [Hea _].
    replace (rd64 (ram k') (e + 8 * i)) with (rd64 (ram k) (e + 8 * i)); [by apply Hpt|].
    symmetry. apply (same_page_rd64 _ _ _ (8 * i)); [|lia|unfold PGSIZE; lia].
    apply Hs; [done|]. intros ->.
    assert (p = [PX 2 va; PX 1 va]) as -> by (by eapply pt_inj). simpl in Hl. lia.
  - done.
  - exists []. split_and!; [done|auto|]. intros q Hq _ Hnt. apply Hs; [done|].
    intros ->. apply Hnt. by eexists.
  - done.
  - intros va' Hva' Hal'. unfold leaf.
    destruct (pte_addr T va') as [a'|] eqn:Ea'; cycle 1.
    { case_decide as E; [|done]. subst. unfold pte_addr in Ea'. by rewrite Hc in Ea'. }
    case_decide as E.
    + subst va'. unfold pte_addr in Ea'. rewrite Hc in Ea'. injection Ea' as <-.
      by apply rd64_wr64_eq.
    + assert (a' <> c + 8 * PX 0 va) as Hne.
      { intros ->. apply E. eapply pte_addr_inj; [done..|]. unfold pte_addr. by rewrite Hc. }
      unfold pte_addr in Ea'. destruct (T !! [PX 2 va'; PX 1 va']) as [c'|] eqn:Hc'; [|done].
      injection Ea' as <-. pose proof (PX_range 0 va').
      destruct (pt_page _ _ _ Hpt _ _ Hc') as [Hca' _].
      unfold k', with_ram, ram at 1. kproj. rewrite rd64_wr64_word by done.
      case_decide; [|done]. destruct Hne. congruence.
Qed.

Section rules.
Context {tn : turn}.

Lemma load_pte_rule T m root p c i (Q : Z -> kernel -> Prop) k :
  pt_ok m T root -> T !! p = Some c -> 0 <= i < 512 -> Q (rd64 (ram k) (c + 8 * i)) k ->
  wp tn (load64 (c + 8 * i)) Q k.
Proof.
  intros Hpt Hp Hi HQ. apply (pt_page _ _ _ Hpt), page_ok_ram in Hp.
  apply wp_load64; [lia|unfold PGSIZE in *; lia|done].
Qed.

Lemma walk_level_some T root p c d level va alloc (Q : Z -> kernel -> Prop) k :
  pt_ok (ram k) T root -> T !! p = Some c -> (length p < 2)%nat ->
  T !! (p ++ [PX level va]) = Some d -> Q d k -> wp tn (walk_level c va alloc level) Q k.
Proof.
  intros Hpt Hp Hl Hd HQ. unfold walk_level. pose proof (PX_range level va) as Hr.
  apply wp_bind, (load_pte_rule T (ram k) root p); [done..|].
  pose proof (pt_link _ _ _ Hpt p c _ Hp Hl Hr) as Hk. rewrite Hd in Hk.
  destruct (pte_table d) as (H3 & H4 & _); [by eapply pt_page|].
  rewrite Hk, H4, H3. by apply wp_ret.
Qed.

Lemma walk_level_none T root p c level va (Q : Z -> kernel -> Prop) k :
  pt_ok (ram k) T root -> T !! p = Some c -> (length p < 2)%nat ->
  T !! (p ++ [PX level va]) = None -> Q 0 k -> wp tn (walk_level c va false level) Q k.
Proof.
  intros Hpt Hp Hl Hd HQ. unfold walk_level. pose proof (PX_range level va) as Hr.
  apply wp_bind, (load_pte_rule T (ram k) root p); [done..|].
  pose proof (pt_link _ _ _ Hpt p c _ Hp Hl Hr) as Hk. rewrite Hd in Hk.
  rewrite Hk. by apply wp_ret.
Qed.

Lemma table_nonzero T m root p c : pt_ok m T root -> T !! p = Some c -> (c =? 0) = false.
Proof.
  intros Hpt Hp. apply (pt_page _ _ _ Hpt), page_ok_pos in Hp. apply Z.eqb_neq. lia.
Qed.

(** [walk] without allocation only reads. *)
Lemma walk_lookup_rule T root va (Q : Z -> kernel -> Prop) k :
  pt_ok (ram k) T root -> 0 <= va < MAXVA -> Q (default 0 (pte_addr T va)) k ->
  wp tn (walk root va false) Q k.
Proof.
  intros Hpt Hva HQ. unfold walk. rewrite Z.geb_leb, (proj2 (Z.leb_gt _ _)) by lia.
  unfold pte_addr in HQ. pose proof (pt_root _ _ _ Hpt) as Hroot.
  apply wp_bind. destruct (T !! [PX 2 va]) as [c|] eqn:E2.
  - apply (walk_level_some T root [] root c); [done|done|simpl; lia|done|].
    rewrite (table_nonzero T (ram k) root [PX 2 va] c) by done. apply wp_bind.
    destruct (T !! [PX 2 va; PX 1 va]) as [d|] eqn:E1.
    + apply (walk_level_some T root [PX 2 va] c d); [done|done|simpl; lia|done|].
      rewrite (table_nonzero T (ram k) root [PX 2 va; PX 1 va] d) by done. by apply wp_ret.
    + apply (walk_level_none T root [PX 2 va] c); [done|done|simpl; lia|done|]. by apply wp_ret.
  - apply (walk_level_none T root [] root); [done|done|simpl; lia|done|]. apply wp_ret.
    destruct (T !! [PX 2 va; PX 1 va]) eqn:E1; [|done].
    apply (pt_up _ _ _ Hpt [PX 2 va]) in E1 as [? E1]. congruence.
Qed.

Lemma walk_level_alloc T root l p c level va (Q : Z -> kernel -> Prop) k :
  sync_ok (k_sy k) -> lock_free (k_sy k) L_kmem -> vm_ok k T root l ->
  T !! p = Some c -> (length p < 2)%nat -> (p = [] -> PX level va < 256) ->
  (forall r k' T' l', only_mm k k' -> vm_ok k' T' root l' ->
     grow 1 (ram k) T l (ram k') T' l' ->
     (r = 0 /\ l' = [] \/ T' !! (p ++ [PX level va]) = Some r) -> Q r k') ->
  wp tn (walk_level c va true level) Q k.
Proof.
  intros Hok Hlf Hvm Hp Hl Hlow HQ. pose proof (vo_pt _ _ _ _ Hvm) as Hpt.
  destruct (T !! (p ++ [PX level va])) as [d|] eqn:Hd.
  { apply (walk_level_some T root p c d); try done. eapply HQ; [reflexivity|done|apply grow_refl|by right]. }
  unfold walk_level. pose proof (PX_range level va) as Hr.
  apply wp_bind, (load_pte_rule T (ram k) root p); [done..|].
  pose proof (pt_link _ _ _ Hpt p c _ Hp Hl Hr) as Hk. rewrite Hd in Hk.
  rewrite Hk. apply wp_bind, (kalloc_rule l); [done|done|apply Hvm| |].
  - intros -> k' Hmm Hm. apply wp_ret. destruct Hvm as [Hf _ Hsep].
    apply (HQ 0 k' T []); [done| | |by left].
    + split; [|unfold ram; by rewrite Hm|done]. unfold free_pages, ram. by rewrite Hm.
    + unfold ram. rewrite Hm. apply grow_refl.
  - intros d l' -> Hdok Hdl k1 Hmm Hf1 Hr1. pose proof (page_ok_pos _ Hdok).
    pose proof (page_ok_ram _ Hdok). rewrite (proj2 (Z.eqb_neq d 0)) by lia.
    apply wp_bind, wp_memset_page; [lia..|].
    pose proof (page_ok_ram _ (pt_page _ _ _ Hpt _ _ Hp)).
    apply wp_bind, wp_store64; [lia|unfold PGSIZE in *; lia|]. apply wp_ret.
    match goal with |- Q d ?kk => set (k2 := kk) end.
    destruct (vm_ok_add k k1 k2 T root l' p c (PX level va) d Hvm Hp Hl Hr Hlow Hd Hdok Hdl Hf1 Hr1
      eq_refl eq_refl) as [Hv' Hg'].
    apply (HQ d k2 (<[p ++ [PX level va] := d]> T) l'); [|exact Hv'|exact Hg'|].
    + etransitivity; [exact Hmm|]. split; try reflexivity.
    + right. apply lookup_insert_eq.
Qed.

Lemma PX_low va : 0 <= va < MAXVA -> PX 2 va < 256.
Proof.
  intros Hva. rewrite PX_eq by lia. change (2 ^ (12 + 9 * 2)) with 0x40000000. change MAXVA with (0x40000000 * 256) in Hva.
  assert (0 <= va / 0x40000000 < 256) by (split; [apply Z.div_pos|apply Z.div_lt_upper_bound]; lia).
  rewrite Z.mod_small; lia.
Qed.

(** [walk] with allocation: null only when memory ran out. *)
Lemma walk_alloc_rule T root l va (Q : Z -> kernel -> Prop) k :
  sync_ok (k_sy k) -> lock_free (k_sy k) L_kmem -> vm_ok k T root l -> 0 <= va < MAXVA ->
  (forall r k' T' l', only_mm k k' -> vm_ok k' T' root l' ->
     grow 2 (ram k) T l (ram k') T' l' ->
     (r = 0 /\ l' = [] \/ pte_addr T' va = Some r) -> Q r k') ->
  wp tn (walk root va true) Q k.
Proof.
  intros Hok Hlf Hvm Hva HQ. unfold walk. rewrite Z.geb_leb, (proj2 (Z.leb_gt _ _)) by lia.
  pose proof (pt_root _ _ _ (vo_pt _ _ _ _ Hvm)) as Hroot.
  apply wp_bind, (walk_level_alloc T root l [] root); [done..|simpl; lia|intros _; by apply PX_low|].
  intros r k1 T1 l1 Hm1 Hvm1 Hg1 [[-> ->]|Hr1].
  { apply wp_ret. apply (HQ 0 k1 T1 []); [done|done| |by left]. destruct Hg1 as [G1 G2 G3]. split; [done|apply (linked_mono 1); [done|lia]|done]. }
  rewrite (table_nonzero T1 (ram k1) root _ r) by (done || apply Hvm1).
  apply wp_bind, (walk_level_alloc T1 root l1 [PX 2 va] r); [eauto with kern..|done|simpl; lia|done|].
  intros r2 k2 T2 l2 Hm2 Hvm2 Hg2 Hr2.
  assert (only_mm k k2) by (by etransitivity).
  pose proof (grow_trans _ _ _ _ _ _ _ _ _ _ _ Hg1 Hg2) as Hg.
  destruct Hr2 as [[-> ->]|Hr2].
  { apply wp_ret. by apply (HQ 0 k2 T2 []); [..|left]. }
  rewrite (table_nonzero T2 (ram k2) root _ r2) by (done || apply Hvm2). apply wp_ret.
  apply (HQ _ k2 T2 l2); [done..|]. right. unfold pte_addr. simpl app in Hr2. by rewrite Hr2.
Qed.

(** ** mappages *)

Definition map_range (a n pa perm : Z) (lf : Z -> Z) (va : Z) : Z :=
  if (a <=? va) && (va <? a + n * PGSIZE)
  then Z.lor (Z.lor (PA2PTE (pa + (va - a))) perm) PTE_V else lf va.

Lemma pte_entry pa perm :
  0 <= pa < 2 ^ 56 -> pa mod PGSIZE = 0 -> 0 <= perm < 1024 ->
  Z.lor (Z.lor (PA2PTE pa) perm) PTE_V = Z.lor (PA2PTE pa) (Z.lor perm PTE_V) /\
  0 <= Z.lor perm PTE_V < 1024 /\
  0 <= Z.lor (Z.lor (PA2PTE pa) perm) PTE_V < 2 ^ 64.
Proof.
  intros Hpa Ha Hp. rewrite <- Z.lor_assoc. split; [done|].
  assert (0 <= Z.lor perm PTE_V < 1024) as Hl by (by apply (lor_range _ _ 10)).
  split; [done|]. rewrite pte_val by done. unfold PGSIZE in *.
  pose proof (Z.div_mod pa 4096). lia.
Qed.

Lemma map_range_0 a pa perm lf va : map_range a 0 pa perm lf va = lf va.
Proof.
  unfold map_range. destruct (Z.leb_spec a va), (Z.ltb_spec va (a + 0 * PGSIZE)); try done. lia.
Qed.

Lemma map_range_1 a pa perm lf va :
  a mod PGSIZE = 0 -> va mod PGSIZE = 0 ->
  map_range a 1 pa perm lf va =
    if decide (va = a) then Z.lor (Z.lor (PA2PTE pa) perm) PTE_V else lf va.
Proof.
  intros Ha Hva. unfold map_range. case_decide as E.
  - subst. rewrite Z.leb_refl, (proj2 (Z.ltb_lt _ _)) by (unfold PGSIZE; lia). simpl.
    by rewrite Z.sub_diag, Z.add_0_r.
  - destruct (Z.leb_spec a va), (Z.ltb_spec va (a + 1 * PGSIZE)); try done. exfalso. pages.
Qed.

Lemma map_range_cons a j pa perm lf lf1 va :
  a mod PGSIZE = 0 -> va mod PGSIZE = 0 -> 0 <= j ->
  lf1 va = map_range a 1 pa perm lf va ->
  map_range (a + PGSIZE) j (pa + PGSIZE) perm lf1 va = map_range a (j + 1) pa perm lf va.
Proof.
  intros Ha Hva Hj H1. unfold map_range at 1. rewrite H1, map_range_1 by done.
  unfold map_range. case_decide as E.
  - subst va. rewrite Z.leb_refl, (proj2 (Z.leb_gt (a + PGSIZE) a)) by (unfold PGSIZE; lia).
    rewrite (proj2 (Z.ltb_lt a (a + (j + 1) * PGSIZE))) by pages. simpl.
    by rewrite Z.sub_diag, Z.add_0_r.
  - assert ((a + PGSIZE <=? va) = (a <=? va)) as ->.
    { destruct (Z.leb_spec (a + PGSIZE) va), (Z.leb_spec a va); try done; exfalso; pages. }
    replace (a + PGSIZE + j * PGSIZE) with (a + (j + 1) * PGSIZE) by lia.
    replace (pa + PGSIZE + (va - (a + PGSIZE))) with (pa + (va - a)) by lia. done.
Qed.

(** One iteration of the loop of [mappages]. *)
Lemma map_one_rule {A} T root l a pa perm (rest : M A) (f : Z -> M A) (Q : A -> kernel -> Prop) k :
  sync_ok (k_sy k) -> lock_free (k_sy k) L_kmem -> vm_ok k T root l ->
  0 <= a < MAXVA -> a mod PGSIZE = 0 -> 0 <= pa < 2 ^ 56 -> pa mod PGSIZE = 0 ->
  0 <= perm < 1024 -> pte_flag (leaf (ram k) T a) PTE_V = false ->
  (forall k' T', only_mm k k' -> vm_ok k' T' root [] -> grow 2 (ram k) T l (ram k') T' [] ->
     wp tn (f (-1)) Q k') ->
  (forall k' T' l', only_mm k k' -> vm_ok k' T' root l' -> extend (ram k) T l (ram k') T' l' ->
     linked 2 l l' T' ->
     (forall va, 0 <= va < MAXVA -> va mod PGSIZE = 0 ->
        leaf (ram k') T' va = map_range a 1 pa perm (leaf (ram k) T) va) ->
     wp tn rest Q k') ->
  wp tn (let* pte := walk root a true in
         if pte =? 0 then f (-1) else
         let* v := load64 pte in
         if pte_flag v PTE_V then panic "remap" else
         store64 pte (Z.lor (Z.lor (PA2PTE pa) perm) PTE_V) ;; rest) Q k.
Proof.
  intros Hok Hlf Hvm Ha Hal Hpa Hpal Hperm Hfl H0 H1.
  apply wp_bind, (walk_alloc_rule T root l); [done..|].
  intros r k1 T1 l1 Hm1 Hvm1 Hg1 [[-> ->]|Hr]; [by apply (H0 k1 T1)|].
  pose proof (pte_addr_ram _ _ _ _ _ (vo_pt _ _ _ _ Hvm1) Hr) as [Hr1 Hr2].
  rewrite (proj2 (Z.eqb_neq r 0)) by (unfold KERNBASE in *; lia).
  apply wp_bind, wp_load64; [done..|].
  assert (rd64 (ram k1) r = leaf (ram k) T a) as ->.
  { rewrite <- (gr_leaf _ _ _ _ _ _ _ Hg1). unfold leaf. by rewrite Hr. }
  rewrite Hfl. apply wp_bind, wp_store64; [done..|].
  destruct (pte_entry pa perm) as (_ & _ & Hv); [done..|].
  destruct (leaf_set k1 T1 root l1 a r _ Hvm1 Ha Hal Hr Hv) as (Hvm2 & Hx2 & Hl2).
  eapply H1; [|exact Hvm2|eapply extend_trans; [apply Hg1|exact Hx2]|apply Hg1|].
  - etransitivity; [exact Hm1|apply only_mm_ram].
  - intros va Hva Hal'. rewrite Hl2, map_range_1 by done.
    case_decide; [done|]. by apply Hg1.
Qed.

(** What [mappages] over [n] pages from [a] may leave behind: all of them
    mapped and result 0, or the first [j] of them when memory ran out. *)
Definition mapped_to (a n pa perm : Z) (T : gmap (list Z) Z) (root : Z) (l : list Z) (k : kernel)
    (r : Z) (k' : kernel) : Prop :=
  exists j T' l', only_mm k k' /\ vm_ok k' T' root l' /\ extend (ram k) T l (ram k') T' l' /\
    linked (Z.to_nat (2 * n)) l l' T' /\
    (forall va, 0 <= va < MAXVA -> va mod PGSIZE = 0 ->
       leaf (ram k') T' va = map_range a j pa perm (leaf (ram k) T) va) /\
    (r = 0 /\ j = n \/ r = -1 /\ 0 <= j < n /\ l' = []).

Lemma mappages_loop_rule n T root l a pa perm (Q : Z -> kernel -> Prop) k :
  sync_ok (k_sy k) -> lock_free (k_sy k) L_kmem -> vm_ok k T root l ->
  0 <= a -> a mod PGSIZE = 0 -> a + Z.of_nat n * PGSIZE < MAXVA ->
  0 <= pa -> pa mod PGSIZE = 0 -> pa + Z.of_nat n * PGSIZE < 2 ^ 56 -> 0 <= perm < 1024 ->
  (forall va, a <= va <= a + Z.of_nat n * PGSIZE -> va mod PGSIZE = 0 ->
     pte_flag (leaf (ram k) T va) PTE_V = false) ->
  (forall r k', mapped_to a (Z.of_nat n + 1) pa perm T root l k r k' -> Q r k') ->
  wp tn (mappages_loop (S n) root a (a + Z.of_nat n * PGSIZE) pa perm) Q k.
Proof.
  revert T l a pa k. induction n as [|n IH];
    intros T l a pa k Hok Hlf Hvm Ha Hal Hlim Hpa Hpal Hplim Hperm Hfl HQ.
  all: assert (0 <= a < MAXVA) by (unfold PGSIZE in *; lia).
  all: assert (0 <= pa < 2 ^ 56) by (unfold PGSIZE in *; lia).
  all: apply (map_one_rule T root l a pa perm _ ret); try done; [apply Hfl; [unfold PGSIZE; lia|done]|..].
  1, 3: intros k' T' Hm Hvm' Hg; apply wp_ret, HQ; exists 0, T', []; split_and!; try done;
    [apply Hg|apply (linked_mono 2); [apply Hg|lia]|intros va _ _; by rewrite map_range_0, (gr_leaf _ _ _ _ _ _ _ Hg)|right; split_and!; lia || done].
  - intros k' T' l' Hm Hvm' Hx Hlk Hl. rewrite Z.mul_0_l, Z.add_0_r, Z.eqb_refl.
    apply wp_ret, HQ. exists 1, T', l'. split_and!; auto.
  - intros k' T' l' Hm Hvm' Hx Hlk Hl.
    rewrite (proj2 (Z.eqb_neq _ _)) by (unfold PGSIZE; lia).
    replace (u64 (pa + PGSIZE)) with (pa + PGSIZE) by (symmetry; apply u64_id; unfold PGSIZE in *; lia).
    replace (a + Z.of_nat (S n) * PGSIZE) with (a + PGSIZE + Z.of_nat n * PGSIZE) in * by lia.
    apply (IH T' l'); [eauto with kern..|done| | |lia| | |lia|done| |].
    + unfold PGSIZE; lia.
    + pages.
    + unfold PGSIZE; lia.
    + pages.
    + intros va Hva Hval. rewrite Hl, map_range_1 by (done || unfold PGSIZE in *; lia).
      rewrite decide_False by (unfold PGSIZE in *; lia). apply Hfl; [unfold PGSIZE in *; lia|done].
    + intros r k2 (j & T2 & l2 & Hm2 & Hvm2 & Hx2 & Hlk2 & Hl2 & Hr). apply HQ.
      assert (0 <= j) by lia. exists (j + 1), T2, l2. split_and!; [by etransitivity|done|by eapply extend_trans| | |].
      * eapply linked_mono; [eapply linked_trans; [done..|apply Hx2]|lia].
      * intros va Hva Hval. rewrite Hl2 by done. apply map_range_cons; auto.
      * destruct Hr as [[-> ->]|(-> & ? & ->)]; [left|right]; split_and!; lia || done.
Qed.

End rules.

(** Mapping [size] bytes at [va] to [pa] either succeeds, and then every
    page of the range translates to its frame with the given permissions and
    every other address translates as before, or reports -1, which only
    happens when memory ran out, with a prefix of the range mapped.  Only
    page-table pages are written; new ones come from the free list, and no
    page is lost. *)
Theorem mappages_spec T root l va size pa perm k :
  sync_ok (k_sy k) -> lock_free (k_sy k) L_kmem -> vm_ok k T root l ->
  0 <= va -> 0 < size -> va + size <= MAXVA ->
  0 <= pa -> pa mod PGSIZE = 0 -> pa + size <= 2 ^ 55 -> 0 <= perm < 1024 ->
  (forall a, va - PGSIZE < a < va + size -> a mod PGSIZE = 0 ->
     pte_flag (leaf (ram k) T a) PTE_V = false) ->
  exists r k', (forall e, mappages root va size pa perm e k = Ret r e k') /\
    mapped_to (va / PGSIZE * PGSIZE) ((va + size - 1) / PGSIZE - va / PGSIZE + 1) pa perm T root l k r k'.
Proof.
  intros Hok Hlf Hvm Hva Hsz Hlim Hpa Hpal Hplim Hperm Hfl. apply wp_exact. unfold mappages.
  assert (MAXVA = 4096 * 67108864) as EM by done.
  rewrite u64_id, !PGROUNDDOWN_eq by lia.
  set (a := va / PGSIZE * PGSIZE). set (n := Z.to_nat ((va + size - 1) / PGSIZE - va / PGSIZE)).
  assert ((va + size - 1) / PGSIZE * PGSIZE = a + Z.of_nat n * PGSIZE) as ->.
  { subst a n. rewrite Z2Nat.id; [lia|]. pages. }
  rewrite (proj2 (Z.leb_le a _)) by (unfold PGSIZE; lia).
  replace ((a + Z.of_nat n * PGSIZE - a) / PGSIZE) with (Z.of_nat n) by pages.
  rewrite Nat2Z.id.
  assert (a mod PGSIZE = 0 /\ 0 <= a <= va /\ va - PGSIZE < a /\ a + Z.of_nat n * PGSIZE < va + size /\
    (va + size - 1) / PGSIZE - va / PGSIZE + 1 = Z.of_nat n + 1)
    as (H1 & H2 & H3 & H4 & ->) by (subst a n; pages).
  clearbody a n.
  apply (mappages_loop_rule n T root l); try done; try lia.
  intros a' Ha' Hal'. apply Hfl; [lia|done].
Qed.

End pt.

(** ** A concrete address space

    One page mapped at user address 0, and one free page. *)

#[local] Existing Instance sample_linker.
#[local] Existing Instance sample_linker_ok.

Definition pg_root : Z := 0x87ff0000.
Definition pg_l1 : Z := 0x87ff1000.
Definition pg_l0 : Z := 0x87ff2000.
Definition pg_frame : Z := 0x87ff3000.

Definition sample_T0 : gmap (list Z) Z := {[ [] := pg_root ]}.
Definition sample_T : gmap (list Z) Z := <[ [0; 0] := pg_l0 ]> (<[ [0] := pg_l1 ]> sample_T0).
Definition sample_m1 : gmap Z Z := wr64 ∅ (pg_root + 8 * 0) (Z.lor (PA2PTE pg_l1) PTE_V).
Definition sample_m2 : gmap Z Z := wr64 sample_m1 (pg_l1 + 8 * 0) (Z.lor (PA2PTE pg_l0) PTE_V).
Definition sample_m : gmap Z Z :=
  wr64 sample_m2 (pg_l0 + 8 * 0) (Z.lor (Z.lor (PA2PTE pg_frame) PTE_USER) PTE_V).
Definition sample_empty : kernel := set_mm (mk_memory ∅ 0x87fff000 0) sample.
Definition sample_vm : kernel := set_mm (mk_memory sample_m 0x87fff000 0) sample.

Lemma sample_pages : page_ok pg_root /\ page_ok pg_l1 /\ page_ok pg_l0 /\ page_ok pg_frame.
Proof. by vm_compute. Qed.

Lemma sample_pt0 : pt_ok ∅ sample_T0 pg_root.
Proof.
  unfold sample_T0. split.
  - apply lookup_singleton_eq.
  - intros p c [<- <-]%lookup_singleton_Some. split; [simpl; lia|constructor].
  - by intros x p c [E _]%lookup_singleton_Some.
  - intros p c [<- <-]%lookup_singleton_Some. apply sample_pages.
  - intros p q c [<- _]%lookup_singleton_Some [<- _]%lookup_singleton_Some. done.
  - intros p i c [H _]%lookup_singleton_Some. by destruct p.
  - intros p c i [<- <-]%lookup_singleton_Some _ Hi.
    rewrite lookup_singleton_ne by done. by rewrite rd64_empty.
Qed.

Lemma sample_vm0 : vm_ok sample_empty sample_T0 pg_root [0x87fff000].
Proof.
  split; [|apply sample_pt0|].
  - split; [by vm_compute|apply NoDup_singleton].
  - unfold sample_T0. intros c [p Hp]. apply lookup_singleton_Some in Hp as [_ <-].
    by intros ?%list_elem_of_singleton.
Qed.

(** Entry 0 of an otherwise empty table. *)
Lemma sample_entry m c v d j :
  c mod PGSIZE = 0 -> d mod PGSIZE = 0 -> 0 <= j < 512 -> 0 <= v < 2 ^ 64 ->
  rd64 (wr64 m (c + 8 * 0) v) (d + 8 * j) =
    if decide ((c, 0) = (d, j)) then v else rd64 m (d + 8 * j).
Proof. intros. by apply rd64_wr64_word. Qed.

Lemma sample_pt1 : pt_ok sample_m1 (<[ [0] := pg_l1 ]> sample_T0) pg_root.
Proof.
  apply (pt_add ∅ sample_m1 sample_T0 pg_root pg_root 0 pg_l1 []); try done.
  - apply sample_pt0.
  - simpl. lia.
  - intros [p Hp]. unfold sample_T0 in Hp. apply lookup_singleton_Some in Hp as [_ E]. done.
  - intros j Hj. unfold sample_m1. rewrite sample_entry, decide_False by done. apply rd64_empty.
  - intros q e j Hq Hj Hne. unfold sample_T0 in Hq. apply lookup_singleton_Some in Hq as [_ <-].
    unfold sample_m1. rewrite sample_entry by done. by rewrite decide_False by congruence.
Qed.

Lemma sample_T1_cases p c : <[ [0] := pg_l1 ]> sample_T0 !! p = Some c ->
  p = [] /\ c = pg_root \/ p = [0] /\ c = pg_l1.
Proof.
  intros Hp. destruct (decide (p = [0])) as [->|Hne].
  - rewrite lookup_insert_eq in Hp. right. by simplify_eq.
  - rewrite add_lookup in Hp by done. unfold sample_T0 in Hp.
    apply lookup_singleton_Some in Hp as [<- <-]. by left.
Qed.

Lemma sample_T_cases p c : sample_T !! p = Some c ->
  p = [] /\ c = pg_root \/ p = [0] /\ c = pg_l1 \/ p = [0; 0] /\ c = pg_l0.
Proof.
  unfold sample_T. intros Hp. destruct (decide (p = [0; 0])) as [->|Hne].
  - rewrite lookup_insert_eq in Hp. right. right. by simplify_eq.
  - rewrite add_lookup in Hp by done. apply sample_T1_cases in Hp as [?|?]; auto.
Qed.

Lemma sample_pt2 : pt_ok sample_m2 sample_T pg_root.
Proof.
  apply (pt_add sample_m1 sample_m2 _ pg_root pg_l1 0 pg_l0 [0]); try done.
  - apply sample_pt1.
  - simpl. lia.
  - intros [p Hp]. apply sample_T1_cases in Hp as [[_ E]|[_ E]]; done.
  - intros j Hj. unfold sample_m2, sample_m1. rewrite !sample_entry by done.
    rewrite !decide_False by done. apply rd64_empty.
  - intros q e j Hq Hj Hne. apply sample_T1_cases in Hq as [[_ ->]|[_ ->]];
      unfold sample_m2; rewrite sample_entry by done; by rewrite decide_False by congruence.
Qed.

Lemma sample_vm_ok2 :
  vm_ok (set_mm (mk_memory sample_m2 0x87fff000 0) sample) sample_T pg_root [0x87fff000].
Proof.
  split; [|apply sample_pt2|].
  - split; [by vm_compute|apply NoDup_singleton].
  - intros c [p Hp] H%list_elem_of_singleton. subst c.
    apply sample_T_cases in Hp as [[_ E]|[[_ E]|[_ E]]]; done.
Qed.

Lemma sample_vm_ok : vm_ok sample_vm sample_T pg_root [0x87fff000] /\
  forall va, 0 <= va < MAXVA -> va mod PGSIZE = 0 ->
    leaf (ram sample_vm) sample_T va =
      if decide (va = 0) then Z.lor (Z.lor (PA2PTE pg_frame) PTE_USER) PTE_V else 0.
Proof.
  destruct (leaf_set _ sample_T pg_root _ 0 pg_l0 (Z.lor (Z.lor (PA2PTE pg_frame) PTE_USER) PTE_V)
    sample_vm_ok2) as (H1 & _ & H2); [by vm_compute..|].
  split; [exact H1|]. intros va Hva Hal. etransitivity; [exact (H2 va Hva Hal)|].
  case_decide as E; [done|]. unfold leaf, pte_addr.
  destruct (sample_T !! [PX 2 va; PX 1 va]) as [c|] eqn:Ec; [|done].
  pose proof (PX_range 0 va) as Hr.
  apply sample_T_cases in Ec as [[? ?]|[[? ?]|[Ep ->]]]; [done..|]. simplify_eq.
  change (ram _) with sample_m2. unfold sample_m2, sample_m1. rewrite !sample_entry by done.
  rewrite !decide_False by done. apply rd64_empty.
Qed.

Lemma mappages_spec_witness :
  exists r k', mappages pg_root 0x3000 0x2000 0x10001000 6 [] sample_empty = Ret r [] k' /\
    mapped_to 0x3000 2 0x10001000 6 sample_T0 pg_root [0x87fff000] sample_empty r k'.
Proof.
  destruct (mappages_spec sample_T0 pg_root [0x87fff000] 0x3000 0x2000 0x10001000 6 sample_empty)
    as (r & k' & H1 & H2).
  - apply sample_sync_ok.
  - apply sample_free. left.
  - apply sample_vm0.
  - done.
  - done.
  - done.
  - done.
  - done.
  - done.
  - done.
  - intros a _ _. unfold leaf, pte_addr, sample_T0. by rewrite lookup_singleton_ne by done.
  - exists r, k'. exact (conj (H1 []) H2).
Defined.
