(* ===== verification/UserMem.v ===== *)
(** * User address spaces

    The user memory behind a page table as a function from addresses to
    bytes, and the functions of vm.c that read and write it: [walkaddr] with
    its lazy allocation, [copyout], [copyin] and [copyinstr]. *)

From S2P Require Import Prelude Defs State Logic Memory Spinlock Sched Kalloc Vm PageTable.

Section rules0.
Context {tn : turn}.

Lemma wp_store_bytes dst l (Q : unit -> kernel -> Prop) k :
  KERNBASE <= dst -> dst + Z.of_nat (length l) <= PHYSTOP ->
  Q tt (with_ram (wr (ram k) dst l) k) -> wp tn (store_bytes dst l) Q k.
Proof.
  intros H1 H2 HQ. unfold store_bytes.
  apply (wp_for_all (fun d k' => k' = with_ram (wr (ram k) dst (take (length d) l)) k)).
  - done.
  - intros d i rest k' E ->. destruct (seqZ_split _ _ _ _ E) as [Ei Hi].
    apply wp_store8; [lia|]. rewrite length_app, Nat.add_1_r.
    destruct (lookup_lt_is_Some_2 l (length d)) as [x Hx]; [lia|].
    rewrite (take_S_r _ _ x), wr_snoc, length_take_le by (done || lia).
    subst i. by rewrite Nat2Z.id, (nth_lookup_Some _ _ _ _ Hx).
  - intros k' ->. rewrite length_seqZ, Nat2Z.id, firstn_all. done.
Qed.

Lemma wp_load_bytes src n (Q : list Z -> kernel -> Prop) k :
  KERNBASE <= src -> src + Z.of_nat n <= PHYSTOP ->
  Q (rdn (ram k) src (Z.of_nat n)) k -> wp tn (load_bytes src n) Q k.
Proof.
  revert src Q. induction n as [|n IH]; intros src Q H1 H2 HQ; cbn [load_bytes].
  - by apply wp_ret.
  - apply wp_bind, wp_load8; [lia|]. apply wp_bind, IH; [lia..|]. apply wp_ret.
    by rewrite rdn_cons.
Qed.

End rules0.

Section um.
Context {L : Linker} {LO : LinkerOk L}.

(** The free list in memory is one list. *)
Lemma chain_unique m h l l' : chain m h l -> chain m h l' -> l = l'.
Proof.
  revert h l'. induction l as [|p l IH]; intros h [|p' l']; cbn [chain]; [done| | |].
  - intros -> (E & H & _). pose proof (page_ok_pos _ H). lia.
  - intros (-> & H & _) E. pose proof (page_ok_pos _ H). lia.
  - intros (-> & _ & H) (<- & _ & H'). f_equal. by eapply IH.
Qed.

(** ** The user's view of memory *)

Definition pg (va : Z) : Z := va / PGSIZE * PGSIZE.

(** The entry for [va] is valid and open to user mode. *)
Definition user_pte (m : gmap Z Z) (T : gmap (list Z) Z) (va : Z) : bool :=
  pte_flag (leaf m T va) PTE_V && pte_flag (leaf m T va) PTE_U.

Definition frame (m : gmap Z Z) (T : gmap (list Z) Z) (va : Z) : Z := PTE2PA (leaf m T va).

(** The byte at user address [va]. *)
Definition ubyte (m : gmap Z Z) (T : gmap (list Z) Z) (va : Z) : Z :=
  rd m (frame m T (pg va) + (va - pg va)).

(** Every user page has a frame of its own, which is neither a table nor
    free. *)
Record space_ok (k : kernel) (T : gmap (list Z) Z) (root : Z) (l : list Z) : Prop := {
  so_vm : vm_ok k T root l;
  so_frame va : 0 <= va < MAXVA -> va mod PGSIZE = 0 -> user_pte (ram k) T va = true ->
    page_ok (frame (ram k) T va) /\ frame (ram k) T va ∉ l /\ ~ is_table T (frame (ram k) T va);
  so_inj va va' : 0 <= va < MAXVA -> va mod PGSIZE = 0 -> user_pte (ram k) T va = true ->
    0 <= va' < MAXVA -> va' mod PGSIZE = 0 -> user_pte (ram k) T va' = true ->
    frame (ram k) T va = frame (ram k) T va' -> va = va' }.

(** All pages of the range are user pages. *)
Definition user_range (m : gmap Z Z) (T : gmap (list Z) Z) (va n : Z) : Prop :=
  0 <= va /\ va + n <= MAXVA /\
  forall a, va <= a < va + n -> user_pte m T (pg a) = true.

Lemma pg_spec a : 0 <= a -> pg a mod PGSIZE = 0 /\ 0 <= pg a <= a /\ a < pg a + PGSIZE.
Proof. unfold pg. intros. pages. Qed.

Lemma pg_unique p a : p mod PGSIZE = 0 -> p <= a < p + PGSIZE -> pg a = p.
Proof. unfold pg. intros. pages. Qed.

Lemma MAXVA_val : MAXVA = 4096 * 67108864.
Proof. done. Qed.

(** ** Writing user memory *)

Definition over (va : Z) (b : list Z) (f : Z -> Z) (a : Z) : Z :=
  if (va <=? a) && (a <? va + Z.of_nat (length b)) then nth (Z.to_nat (a - va)) b 0 else f a.

Definition is_user (m : gmap Z Z) (T : gmap (list Z) Z) (a : Z) : Prop :=
  0 <= a < MAXVA /\ user_pte m T (pg a) = true.

(** [m'] is [m] with the bytes [b] written at user address [va]: the tables
    are as they were, and so are all pages but the frames of the range. *)
Record written (m : gmap Z Z) (T : gmap (list Z) Z) (l : list Z) (va : Z) (b : list Z)
    (m' : gmap Z Z) : Prop := {
  wn_leaf a : leaf m' T a = leaf m T a;
  wn_table c : is_table T c -> same_page m m' c;
  wn_free c : c ∈ l -> same_page m m' c;
  wn_byte a : is_user m T a -> ubyte m' T a = over va b (ubyte m T) a;
  wn_other q : q mod PGSIZE = 0 -> (forall a, va <= a < va + Z.of_nat (length b) -> frame m T (pg a) <> q) ->
    same_page m m' q }.

Lemma written_user m T l va b m' a : written m T l va b m' -> user_pte m' T a = user_pte m T a.
Proof. intros H. unfold user_pte. by rewrite (wn_leaf _ _ _ _ _ _ H). Qed.

Lemma written_frame m T l va b m' a : written m T l va b m' -> frame m' T a = frame m T a.
Proof. intros H. unfold frame. by rewrite (wn_leaf _ _ _ _ _ _ H). Qed.

Lemma written_space m' k T root l va b :
  space_ok k T root l -> written (ram k) T l va b m' -> space_ok (with_ram m' k) T root l.
Proof.
  intros Hsp Hw. pose proof (so_vm _ _ _ _ Hsp) as [Hf Hpt Hsep].
  split; unfold with_ram, ram in *; kproj.
  - split; [|by eapply pt_ok_ext; [|apply Hw]|done].
    eapply free_pages_ext; [done|done|]. apply Hw.
  - intros a Ha Hal Hu. rewrite (written_user _ _ _ _ _ _ _ Hw) in Hu.
    rewrite (written_frame _ _ _ _ _ _ _ Hw). by apply Hsp.
  - intros a a' Ha Hal Hu Ha' Hal' Hu'. rewrite !(written_frame _ _ _ _ _ _ _ Hw).
    rewrite !(written_user _ _ _ _ _ _ _ Hw) in *. by apply (so_inj _ _ _ _ Hsp).
Qed.

Lemma written_nil m T l va : written m T l va [] m.
Proof.
  split; try done. intros a _. unfold over. simpl. rewrite Z.add_0_r.
  by destruct (Z.leb_spec va a), (Z.ltb_spec a va); [lia|..].
Qed.

Lemma written_trans m m1 m2 T l va b1 b2 :
  written m T l va b1 m1 -> written m1 T l (va + Z.of_nat (length b1)) b2 m2 ->
  written m T l va (b1 ++ b2) m2.
Proof.
  intros H1 H2. split.
  - intros a. by rewrite (wn_leaf _ _ _ _ _ _ H2), (wn_leaf _ _ _ _ _ _ H1).
  - intros c Hc. eapply same_page_trans; by eapply wn_table.
  - intros c Hc. eapply same_page_trans; by eapply wn_free.
  - intros a Ha. rewrite (wn_byte _ _ _ _ _ _ H2).
    2:{ destruct Ha. split; [done|]. by rewrite (written_user _ _ _ _ _ _ _ H1). }
    unfold over. rewrite (wn_byte _ _ _ _ _ _ H1) by done. unfold over.
    rewrite length_app.
    destruct (Z.leb_spec (va + Z.of_nat (length b1)) a), (Z.leb_spec va a),
      (Z.ltb_spec a (va + Z.of_nat (length b1))),
      (Z.ltb_spec a (va + Z.of_nat (length b1) + Z.of_nat (length b2))),
      (Z.ltb_spec a (va + Z.of_nat (length b1 + length b2))); simpl; try lia; try done.
    + rewrite app_nth2 by lia. f_equal. lia.
    + rewrite app_nth1 by lia. done.
  - intros q Hq Hne. rewrite length_app in Hne. eapply same_page_trans; [apply (wn_other _ _ _ _ _ _ H1 q Hq)|apply (wn_other _ _ _ _ _ _ H2 q Hq)]; intros a Ha.
    + apply Hne. lia.
    + rewrite (written_frame _ _ _ _ _ _ _ H1). apply Hne. lia.
Qed.

(** A write inside one user page. *)
Lemma written_page k T root l va b :
  space_ok k T root l -> 0 <= va < MAXVA -> user_pte (ram k) T (pg va) = true ->
  va - pg va + Z.of_nat (length b) <= PGSIZE ->
  written (ram k) T l va b (wr (ram k) (frame (ram k) T (pg va) + (va - pg va)) b).
Proof.
  intros Hsp Hva Hu Hlen. destruct (pg_spec va) as (P1 & P2 & P3); [lia|].
  set (m' := wr _ _ _). set (f := frame (ram k) T (pg va)).
  destruct (so_frame _ _ _ _ Hsp (pg va)) as (Hf & Hfl & Hft); [lia|done..|]. fold f in Hf, Hfl, Hft.
  assert (forall q, q mod PGSIZE = 0 -> q <> f -> same_page (ram k) m' q) as Hs.
  { intros q Hq Hne. apply same_page_wr. fold f.
    destruct (page_disjoint q f Hq (proj1 Hf) Hne); lia. }
  pose proof (so_vm _ _ _ _ Hsp) as [Hfr Hpt Hsep].
  assert (forall c, is_table T c -> same_page (ram k) m' c) as Htab.
  { intros c Hc. apply Hs; [by eapply table_page|]. by intros ->. }
  assert (forall a, leaf m' T a = leaf (ram k) T a) as Hleaf.
  { by apply (pt_ok_ext _ _ _ _ Hpt Htab). }
  split; try done.
  - intros c Hc. apply Hs; [|by intros ->].
    destruct (chain_page_ok _ _ _ c (proj1 Hfr) Hc) as [Hqa _]. done.
  - intros a [Ha Hau]. destruct (pg_spec a) as (A1 & A2 & A3); [lia|].
    unfold ubyte, frame. rewrite Hleaf. fold (frame (ram k) T (pg a)).
    unfold over. destruct (decide (pg a = pg va)) as [E|E].
    + unfold m'. rewrite E. fold f. unfold rd. rewrite lookup_wr.
      replace (f + (va - pg va) <=? f + (a - pg va)) with (va <=? a)
        by (apply eq_true_iff_eq; rewrite !Z.leb_le; lia).
      replace (f + (a - pg va) <? f + (va - pg va) + Z.of_nat (length b))
        with (a <? va + Z.of_nat (length b)) by (apply eq_true_iff_eq; rewrite !Z.ltb_lt; lia).
      destruct ((va <=? a) && (a <? va + Z.of_nat (length b))); [|reflexivity].
      rewrite nth_lookup. f_equal. f_equal. lia.
    + rewrite (Hs (frame (ram k) T (pg a))); [| |intros Ef|lia].
      * destruct (Z.leb_spec va a), (Z.ltb_spec a (va + Z.of_nat (length b))); simpl; try done.
        destruct E. apply pg_unique; [done|]. lia.
      * apply (so_frame _ _ _ _ Hsp); [lia|done..].
      * apply E. apply (so_inj _ _ _ _ Hsp); try done; lia.
  - intros q Hq Hne. destruct b as [|c b]; [by intros ??|]. apply Hs; [done|]. intros ->. apply (Hne va); [cbn; lia|done].
Qed.

(** ** walkaddr on mapped pages *)

Section rules.
Context {tn : turn}.

Lemma load_leaf_rule T root va {A} (f : Z -> Z -> M A) Q k :
  pt_ok (ram k) T root -> 0 <= va < MAXVA ->
  wp tn (f (default 0 (pte_addr T va)) (leaf (ram k) T va)) Q k ->
  wp tn (let* pte := walk root va false in
         let* v := if pte =? 0 then ret 0 else load64 pte in f pte v) Q k.
Proof.
  intros Hpt Hva HQ. apply wp_bind, (walk_lookup_rule T root); [done..|].
  unfold leaf in HQ. destruct (pte_addr T va) as [a|] eqn:E; simpl in *.
  - destruct (pte_addr_ram _ _ _ _ _ Hpt E).
    rewrite (proj2 (Z.eqb_neq a 0)) by (unfold KERNBASE in *; lia).
    by apply wp_bind, wp_load64.
  - by apply wp_bind, wp_ret.
Qed.

Lemma leaf_addr_nonzero T m root va :
  pt_ok m T root -> pte_flag (leaf m T va) PTE_V = true -> (default 0 (pte_addr T va) =? 0) = false.
Proof.
  intros Hpt. unfold leaf. destruct (pte_addr T va) as [a|] eqn:E; [|done]. intros _.
  destruct (pte_addr_ram _ _ _ _ _ Hpt E). apply Z.eqb_neq. unfold KERNBASE in *. simpl. lia.
Qed.

Lemma walkaddr_rule T root va (Q : Z -> kernel -> Prop) k :
  pt_ok (ram k) T root -> 0 <= va < MAXVA -> user_pte (ram k) T va = true ->
  Q (frame (ram k) T va) k -> wp tn (walkaddr root va) Q k.
Proof.
  intros Hpt Hva Hu HQ. unfold walkaddr. rewrite Z.geb_leb, (proj2 (Z.leb_gt _ _)) by lia.
  unfold user_pte in Hu. apply andb_true_iff in Hu as [Hv Hu].
  apply (load_leaf_rule T root va); [done..|].
  rewrite (leaf_addr_nonzero T (ram k) root) by done. rewrite Hv, Hu. by apply wp_ret.
Qed.

(** ** Copies to and from mapped memory *)

Lemma rdn_ubyte m T a n :
  0 <= a -> a - pg a + n <= PGSIZE ->
  rdn m (frame m T (pg a) + (a - pg a)) n = map (ubyte m T) (seqZ a n).
Proof.
  intros Ha Hn. rewrite rdn_map. apply map_seqZ_shift. intros i Hi. unfold ubyte.
  destruct (pg_spec a Ha) as (H1 & H2 & H3).
  rewrite (pg_unique (pg a) (a + i)) by (done || lia). f_equal. lia.
Qed.

(** The part of a range that lies in its first page. *)
Definition chunk (va len : Z) : Z :=
  let n := PGSIZE - (va - pg va) in if n >? len then len else n.

Lemma chunk_spec va len :
  0 <= va -> 0 < len ->
  0 < chunk va len <= len /\ va - pg va + chunk va len <= PGSIZE /\
  (chunk va len < len -> va + chunk va len = pg va + PGSIZE).
Proof.
  intros Hva Hlen. destruct (pg_spec va Hva) as (H1 & H2 & H3). unfold chunk.
  rewrite Z.gtb_ltb. destruct (Z.ltb_spec len (PGSIZE - (va - pg va))); lia.
Qed.

Lemma user_range_next m T va len :
  user_range m T va len -> 0 < len ->
  user_range m T (pg va + PGSIZE) (len - chunk va len) /\
  pg va + PGSIZE <= MAXVA /\ 0 <= pg va < MAXVA /\ user_pte m T (pg va) = true.
Proof.
  intros (H0 & Hm & Hu) Hlen. destruct (pg_spec va H0) as (H1 & H2 & H3).
  destruct (chunk_spec va len H0 Hlen) as (H4 & H5 & H6). pose proof MAXVA_val.
  assert (pg va + PGSIZE <= MAXVA) by (unfold PGSIZE in *; Z.to_euclidean_division_equations; lia).
  split_and!; try lia.
  - split_and!; [lia| |intros a Ha; apply Hu; lia]. lia.
  - apply Hu. lia.
Qed.

Lemma copyin_loop_rule T root l fuel srcva len acc (Q : Z * list Z -> kernel -> Prop) k :
  space_ok k T root l -> 0 <= len -> user_range (ram k) T srcva len ->
  srcva - pg srcva + len <= Z.of_nat fuel * PGSIZE ->
  Q (0, acc ++ map (ubyte (ram k) T) (seqZ srcva len)) k ->
  wp tn (copyin_loop (S fuel) root srcva len acc) Q k.
Proof.
  intros Hsp. revert srcva len acc.
  induction fuel as [|fuel IH]; intros srcva len acc Hlen Hur Hfuel HQ;
    destruct (pg_spec srcva (proj1 Hur)) as (H1 & H2 & H3).
  all: destruct (decide (len = 0)) as [->|Hne];
    [cbn [copyin_loop]; apply wp_ret; by rewrite app_nil_r in HQ|try lia].
  assert (0 < len) as Hpos by lia.
  destruct (chunk_spec srcva len) as (C1 & C2 & C3); [lia..|].
  destruct (user_range_next _ _ _ _ Hur Hpos) as (Hnext & Hm & Hp & Hu).
  remember (S fuel) as f1 eqn:E1; cbn [copyin_loop]; subst f1.
  rewrite Z.gtb_ltb, (proj2 (Z.ltb_lt 0 len)) by lia.
  rewrite PGROUNDDOWN_eq by (pose proof MAXVA_val; destruct Hur; lia). fold (pg srcva).
  apply wp_bind, (walkaddr_rule T root); [apply Hsp|done..|].
  destruct (so_frame _ _ _ _ Hsp (pg srcva)) as (Hf & _); [done..|].
  pose proof (page_ok_pos _ Hf). pose proof (page_ok_ram _ Hf).
  rewrite (proj2 (Z.eqb_neq _ 0)) by lia. fold (chunk srcva len).
  apply wp_bind, wp_load_bytes; [lia|rewrite Z2Nat.id by lia; lia|].
  rewrite Z2Nat.id, rdn_ubyte, u64_id by (pose proof MAXVA_val; lia).
  apply IH; [lia|done| |].
  - rewrite (pg_unique (pg srcva + PGSIZE) (pg srcva + PGSIZE)) by pages. unfold PGSIZE in *. lia.
  - rewrite <- app_assoc. replace len with (chunk srcva len + (len - chunk srcva len)) in HQ at 1 by lia.
    rewrite map_seqZ_app in HQ by lia.
    destruct (decide (chunk srcva len = len)) as [E|E].
    + rewrite E, Z.sub_diag in *. done.
    + rewrite C3 in HQ by lia. done.
Qed.

Lemma copyout_loop_rule T root l fuel dstva src (Q : Z -> kernel -> Prop) k :
  space_ok k T root l -> user_range (ram k) T dstva (Z.of_nat (length src)) ->
  dstva - pg dstva + Z.of_nat (length src) <= Z.of_nat fuel * PGSIZE ->
  (forall m', written (ram k) T l dstva src m' -> Q 0 (with_ram m' k)) ->
  wp tn (copyout_loop (S fuel) root dstva src) Q k.
Proof.
  revert dstva src k.
  induction fuel as [|fuel IH]; intros dstva src k Hsp Hur Hfuel HQ;
    destruct (pg_spec dstva (proj1 Hur)) as (H1 & H2 & H3).
  all: destruct src as [|x src0];
    [cbn [copyout_loop]; apply wp_ret; apply (HQ (ram k)), written_nil|try (simpl in Hfuel; lia)].
  set (src := x :: src0) in *. set (len := Z.of_nat (length src)) in *.
  assert (0 < len) as Hpos by (unfold len, src; simpl; lia).
  destruct (chunk_spec dstva len) as (C1 & C2 & C3); [lia..|].
  destruct (user_range_next _ _ _ _ Hur Hpos) as (Hnext & Hm & Hp & Hu).
  remember (S fuel) as f1 eqn:E1; cbn [copyout_loop]; subst f1. fold len.
  rewrite Z.gtb_ltb, (proj2 (Z.ltb_lt 0 len)) by lia.
  rewrite PGROUNDDOWN_eq by (pose proof MAXVA_val; destruct Hur; lia). fold (pg dstva).
  apply wp_bind, (walkaddr_rule T root); [apply Hsp|done..|].
  destruct (so_frame _ _ _ _ Hsp (pg dstva)) as (Hf & _); [done..|].
  pose proof (page_ok_pos _ Hf). pose proof (page_ok_ram _ Hf).
  rewrite (proj2 (Z.eqb_neq _ 0)) by lia. fold (chunk dstva len).
  set (b := take (Z.to_nat (chunk dstva len)) src).
  assert (Z.of_nat (length b) = chunk dstva len) as Hb.
  { unfold b. rewrite length_take. unfold len in *. lia. }
  apply wp_bind, wp_store_bytes; [lia|lia|].
  rewrite u64_id by (pose proof MAXVA_val; lia).
  assert (written (ram k) T l dstva b (wr (ram k) (frame (ram k) T (pg dstva) + (dstva - pg dstva)) b)) as Hw.
  { apply (written_page k T root); [done| |done|lia]. destruct Hur. lia. }
  assert (Z.of_nat (length (drop (Z.to_nat (chunk dstva len)) src)) = len - chunk dstva len) as Hdl.
  { rewrite length_drop. unfold len in *. lia. }
  apply IH.
  - by eapply written_space.
  - rewrite Hdl. destruct Hnext as (N1 & N2 & N3). split_and!; [done..|].
    intros a Ha. unfold with_ram, ram at 1. kproj. rewrite (written_user _ _ _ _ _ _ _ Hw). by apply N3.
  - rewrite Hdl, (pg_unique (pg dstva + PGSIZE) (pg dstva + PGSIZE)) by pages. unfold PGSIZE in *. lia.
  - intros m' Hw'. apply HQ. rewrite <- (take_drop (Z.to_nat (chunk dstva len)) src).
    eapply written_trans; [exact Hw|]. fold b. rewrite Hb.
    destruct (decide (chunk dstva len = len)) as [E|E]; [|by rewrite C3 by lia].
    destruct (drop _ src); [|simpl in Hdl; lia].
    destruct Hw' as [W1 W2 W3 W4 W5]. split; [done|done|done| |intros q Hq _; apply W5; [done|cbn; lia]]. intros a Ha. rewrite W4 by done.
    unfold over. simpl. rewrite !Z.add_0_r.
    destruct (Z.leb_spec (pg dstva + PGSIZE) a), (Z.ltb_spec a (pg dstva + PGSIZE)),
      (Z.leb_spec (dstva + chunk dstva len) a), (Z.ltb_spec a (dstva + chunk dstva len));
      simpl; lia || done.
Qed.

End rules.

(** ** New pages in an address space *)

(** [p] is a page of its own: neither free, nor a table, nor a frame. *)
Definition fresh (k : kernel) (T : gmap (list Z) Z) (l : list Z) (p : Z) : Prop :=
  page_ok p /\ p ∉ l /\ ~ is_table T p /\
  forall va, 0 <= va < MAXVA -> va mod PGSIZE = 0 -> user_pte (ram k) T va = true ->
    frame (ram k) T va <> p.

Lemma extend_table m T l m' T' l' c :
  extend m T l m' T' l' -> is_table T' c -> is_table T c \/ c ∈ l.
Proof.
  intros [(new & -> & Ht & _) _] [?|?]%Ht; [by left|]. right. apply elem_of_app. by left.
Qed.

Lemma extend_free m T l m' T' l' c : extend m T l m' T' l' -> c ∈ l' -> c ∈ l.
Proof. intros [(new & -> & _) _] H. apply elem_of_app. by right. Qed.

Lemma extend_same m T l m' T' l' c :
  extend m T l m' T' l' -> page_ok c -> c ∉ l -> ~ is_table T c -> same_page m m' c.
Proof.
  intros [(new & -> & _ & Hs) _] [Hc _] Hl Ht. apply Hs; [done| |done].
  intros H. apply Hl, elem_of_app. by left.
Qed.

(** Tables were added and at most the entry of [v] was set, to frame [p]. *)
Lemma space_extend k k' T T' root l l' v p :
  space_ok k T root l -> vm_ok k' T' root l' -> extend (ram k) T l (ram k') T' l' ->
  fresh k T l p ->
  (forall va, 0 <= va < MAXVA -> va mod PGSIZE = 0 ->
     leaf (ram k') T' va = leaf (ram k) T va \/ (va = v /\ PTE2PA (leaf (ram k') T' va) = p)) ->
  space_ok k' T' root l'.
Proof.
  intros Hsp Hvm Hx (Hp1 & Hp2 & Hp3 & Hp4) Hl.
  assert (forall va, 0 <= va < MAXVA -> va mod PGSIZE = 0 -> user_pte (ram k') T' va = true ->
    (user_pte (ram k) T va = true /\ frame (ram k') T' va = frame (ram k) T va) \/
    (va = v /\ frame (ram k') T' va = p)) as Hc.
  { intros va Hva Hal. unfold user_pte, frame. destruct (Hl va Hva Hal) as [->|[-> E]]; auto. }
  split; [done| |].
  - intros va Hva Hal Hu. destruct (Hc va Hva Hal Hu) as [[Hu' ->]|[-> ->]].
    + destruct (so_frame _ _ _ _ Hsp va Hva Hal Hu') as (F1 & F2 & F3). split_and!; [done| |].
      * intros ?%(extend_free _ _ _ _ _ _ _ Hx). done.
      * by intros [?|?]%(extend_table _ _ _ _ _ _ _ Hx).
    + split_and!; [done| |].
      * intros ?%(extend_free _ _ _ _ _ _ _ Hx). done.
      * by intros [?|?]%(extend_table _ _ _ _ _ _ _ Hx).
  - intros va va' Hva Hal Hu Hva' Hal' Hu'.
    destruct (Hc va Hva Hal Hu) as [[Hu1 ->]|[-> ->]], (Hc va' Hva' Hal' Hu') as [[Hu2 ->]|[-> ->]].
    + by apply (so_inj _ _ _ _ Hsp).
    + intros E. by destruct (Hp4 va).
    + intros E. by destruct (Hp4 va').
    + done.
Qed.

(** The bytes of the user pages that were there stay. *)
Lemma space_extend_bytes k k' T T' root l l' a :
  space_ok k T root l -> extend (ram k) T l (ram k') T' l' ->
  leaf (ram k') T' (pg a) = leaf (ram k) T (pg a) ->
  is_user (ram k) T a -> is_user (ram k') T' a /\ ubyte (ram k') T' a = ubyte (ram k) T a.
Proof.
  intros Hsp Hx Hl [Ha Hu]. destruct (pg_spec a) as (A1 & A2 & A3); [lia|].
  split; [split; [done|]; unfold user_pte; by rewrite Hl|].
  unfold ubyte, frame. rewrite Hl. fold (frame (ram k) T (pg a)).
  destruct (so_frame _ _ _ _ Hsp (pg a)) as (F1 & F2 & F3); [lia|done..|].
  eapply extend_same; [done..|]. lia.
Qed.

(** A page leaves the free list to become a data page. *)
Lemma space_take k k' T root l p :
  space_ok k T root (p :: l) -> page_ok p -> p ∉ l -> free_pages k' l ->
  (forall q, q mod PGSIZE = 0 -> q <> p -> same_page (ram k) (ram k') q) ->
  space_ok k' T root l /\ fresh k' T l p /\ extend (ram k) T (p :: l) (ram k') T l /\
  (forall va, leaf (ram k') T va = leaf (ram k) T va).
Proof.
  intros Hsp Hp Hpl Hf Hs. pose proof (so_vm _ _ _ _ Hsp) as [Hfr Hpt Hsep].
  assert (~ is_table T p) as Hnt by (intros H%Hsep; apply H; left).
  destruct (pt_ok_ext (ram k) (ram k') T root Hpt) as [Hpt' Hl].
  { intros c Hc. apply Hs; [by eapply table_page|]. by intros ->. }
  assert (forall va, user_pte (ram k') T va = user_pte (ram k) T va) as Hu
    by (intros va; unfold user_pte; by rewrite Hl).
  assert (forall va, frame (ram k') T va = frame (ram k) T va) as Hfm
    by (intros va; unfold frame; by rewrite Hl).
  split_and!; [split|split_and!| |done]; try done.
  - split; [done..|]. intros c Hc Hin. apply (Hsep c Hc). by right.
  - intros va Hva Hal. rewrite Hu, Hfm. intros Hv.
    destruct (so_frame _ _ _ _ Hsp va Hva Hal Hv) as (F1 & F2 & F3). split_and!; [done| |done].
    intros Hin. apply F2. by right.
  - intros va va'. rewrite !Hu, !Hfm. apply Hsp.
  - intros va Hva Hal. rewrite Hu, Hfm. intros Hv E.
    destruct (so_frame _ _ _ _ Hsp va Hva Hal Hv) as (F1 & F2 & F3). apply F2. rewrite E. left.
  - split; [|done]. exists [p]. split_and!; [done|auto|]. intros q Hq Hqp _. apply Hs; [done|].
    intros ->. apply Hqp. left.
Qed.

(** A page that is in no use goes back to the free list. *)
Lemma space_give k k' T root l p :
  space_ok k T root l -> fresh k T l p -> free_pages k' (p :: l) ->
  (forall q, q mod PGSIZE = 0 -> q <> p -> same_page (ram k) (ram k') q) ->
  space_ok k' T root (p :: l) /\ (forall va, leaf (ram k') T va = leaf (ram k) T va) /\
  (forall a, is_user (ram k) T a -> is_user (ram k') T a /\ ubyte (ram k') T a = ubyte (ram k) T a).
Proof.
  intros Hsp (Hp1 & Hp2 & Hp3 & Hp4) Hf Hs. pose proof (so_vm _ _ _ _ Hsp) as [Hfr Hpt Hsep].
  destruct (pt_ok_ext (ram k) (ram k') T root Hpt) as [Hpt' Hl].
  { intros c Hc. apply Hs; [by eapply table_page|]. by intros ->. }
  assert (forall va, user_pte (ram k') T va = user_pte (ram k) T va) as Hu
    by (intros va; unfold user_pte; by rewrite Hl).
  assert (forall va, frame (ram k') T va = frame (ram k) T va) as Hfm
    by (intros va; unfold frame; by rewrite Hl).
  split_and!; [split|done|].
  - split; [done..|]. intros c Hc [->|Hin]%elem_of_cons; [done|]. by apply (Hsep c Hc).
  - intros va Hva Hal. rewrite Hu, Hfm. intros Hv.
    destruct (so_frame _ _ _ _ Hsp va Hva Hal Hv) as (F1 & F2 & F3). split_and!; [done| |done].
    intros [E|Hin]%elem_of_cons; [|done]. by apply (Hp4 va).
  - intros va va'. rewrite !Hu, !Hfm. apply Hsp.
  - intros a [Ha Hau]. destruct (pg_spec a) as (A1 & A2 & A3); [lia|].
    split; [split; [done|by rewrite Hu]|]. unfold ubyte. rewrite Hfm.
    apply (Hs (frame (ram k) T (pg a))); [|by apply Hp4; [lia|..]|lia].
    apply (so_frame _ _ _ _ Hsp); [lia|done..].
Qed.

(** Mapping a single page. *)
Lemma mappages_one_rule {tn} T root l va pa perm (Q : Z -> kernel -> Prop) k :
  sync_ok (k_sy k) -> lock_free (k_sy k) L_kmem -> vm_ok k T root l ->
  0 <= va < MAXVA -> va mod PGSIZE = 0 -> 0 <= pa < 2 ^ 56 -> pa mod PGSIZE = 0 -> 0 <= perm < 1024 ->
  pte_flag (leaf (ram k) T va) PTE_V = false ->
  (forall r k', mapped_to va 1 pa perm T root l k r k' -> Q r k') ->
  wp tn (mappages root va PGSIZE pa perm) Q k.
Proof.
  intros Hok Hlf Hvm Hva Hal Hpa Hpal Hperm Hfl HQ. pose proof MAXVA_val as EM.
  unfold mappages. rewrite PGROUNDDOWN_aligned by (done || lia).
  rewrite u64_id by (unfold PGSIZE; lia). rewrite PGROUNDDOWN_eq by (unfold PGSIZE; lia).
  replace ((va + PGSIZE - 1) / PGSIZE * PGSIZE) with (va + Z.of_nat 0 * PGSIZE) by pages.
  rewrite Z.mul_0_l, Z.add_0_r, Z.leb_refl, Z.sub_diag.
  change (S (Z.to_nat (0 / PGSIZE))) with 1%nat.
  replace va with (va + Z.of_nat 0 * PGSIZE) at 2 by lia.
  apply (mappages_loop_rule 0 T root l); try done; try lia.
  intros va' Hva' _. replace va' with va by lia. done.
Qed.

Lemma mappages_page_rule {tn} T root l va pa perm (Q : Z -> kernel -> Prop) k :
  sync_ok (k_sy k) -> lock_free (k_sy k) L_kmem -> vm_ok k T root l ->
  0 <= va < MAXVA -> va mod PGSIZE = 0 -> page_ok pa -> 0 <= perm < 1024 ->
  pte_flag (leaf (ram k) T va) PTE_V = false ->
  (forall r k', mapped_to va 1 pa perm T root l k r k' -> Q r k') ->
  wp tn (mappages root va PGSIZE pa perm) Q k.
Proof.
  intros Hok Hlf Hvm Hva Hal Hpa. pose proof (page_ok_pos _ Hpa). pose proof (proj1 Hpa).
  apply mappages_one_rule; done || lia.
Qed.

(** What an attempt to give the user a page at [va] may do: nothing, when
    memory ran out, or map a page of zeros there and nowhere else, without
    touching pages in other use; either way the user's other bytes stay. *)
Definition lazy_page (T : gmap (list Z) Z) (root perm va : Z) (k : kernel) (r : Z) (k' : kernel) : Prop :=
  exists T' l', only_mm k k' /\ space_ok k' T' root l' /\
    (forall a, is_user (ram k) T a ->
       is_user (ram k') T' a /\ ubyte (ram k') T' a = ubyte (ram k) T a) /\
    (r = 0 /\ (length l' <= 1)%nat /\
       (forall a, 0 <= a < MAXVA -> a mod PGSIZE = 0 -> leaf (ram k') T' a = leaf (ram k) T a) \/
     page_ok r /\ leaf (ram k') T' va = Z.lor (Z.lor (PA2PTE r) perm) PTE_V /\
       (forall a, va <= a < va + PGSIZE -> is_user (ram k') T' a /\ ubyte (ram k') T' a = 0) /\
       (forall a, 0 <= a < MAXVA -> a mod PGSIZE = 0 -> a <> va -> leaf (ram k') T' a = leaf (ram k) T a) /\
       (forall q l, space_ok k T root l -> fresh k T l q -> fresh k' T' l' q /\ same_page (ram k) (ram k') q)).

(** Permissions that let user code in. *)
Definition user_perm (perm : Z) : Prop := 0 <= perm < 1024 /\ pte_flag perm PTE_U = true.

Lemma pte_user r perm : page_ok r -> user_perm perm ->
  let e := Z.lor (Z.lor (PA2PTE r) perm) PTE_V in
  PTE2PA e = r /\ pte_flag e PTE_V = true /\ pte_flag e PTE_U = true.
Proof.
  intros Hr [Hp Hu]. pose proof (page_ok_pos _ Hr). destruct Hr as [Ha _].
  destruct (pte_entry r perm) as (-> & H1 & _); [lia|done|done|].
  unfold pte_flag in *. split; [apply PTE2PA_make; lia || done|].
  rewrite (land_small_flags _ PTE_V), (land_small_flags _ PTE_U), PTE_FLAGS_make by (lia || done).
  rewrite !Z.land_lor_distr_l. change (Z.land PTE_V PTE_U) with 0. change (Z.land PTE_V PTE_V) with 1.
  rewrite Z.lor_0_r. split; [|done]. unfold c_true. apply negb_true_iff, Z.eqb_neq.
  rewrite Z.lor_comm. intros E. apply Z.lor_eq_0_iff in E as [E _]. done.
Qed.

Section lazy.
Context (k k2 k4 : kernel) (T T4 : gmap (list Z) Z) (root va pa perm j : Z) (l' l4 : list Z).
Hypothesis Hsp : space_ok k T root (pa :: l').
Hypothesis Hperm : user_perm perm.
Hypothesis Hva : 0 <= va < MAXVA.
Hypothesis Hal : va mod PGSIZE = 0.
Hypothesis Hfl : pte_flag (leaf (ram k) T va) PTE_V = false.
(** [pa] was taken from the free list and cleared ... *)
Hypothesis Hsp2 : space_ok k2 T root l'.
Hypothesis Hfresh : fresh k2 T l' pa.
Hypothesis Hx2 : extend (ram k) T (pa :: l') (ram k2) T l'.
Hypothesis Hl2 : forall a, leaf (ram k2) T a = leaf (ram k) T a.
Hypothesis Hz : forall a, pa <= a < pa + PGSIZE -> rd (ram k2) a = 0.
(** ... and mapped at [va], when [j] is 1. *)
Hypothesis Hm : only_mm k k4.
Hypothesis Hvm4 : vm_ok k4 T4 root l4.
Hypothesis Hx4 : extend (ram k2) T l' (ram k4) T4 l4.
Hypothesis Hl4 : forall a, 0 <= a < MAXVA -> a mod PGSIZE = 0 ->
  leaf (ram k4) T4 a = map_range va j pa perm (leaf (ram k2) T) a.

Lemma lazy_bytes a : 0 <= j <= 1 -> is_user (ram k) T a ->
  is_user (ram k4) T4 a /\ ubyte (ram k4) T4 a = ubyte (ram k) T a.
Proof.
  intros Hj Hu. pose proof Hu as [Ha Hu']. destruct (pg_spec a) as (A1 & A2 & A3); [lia|].
  eapply (space_extend_bytes k k4 T T4); [done|by eapply extend_trans| |done].
  rewrite Hl4 by (done || lia). rewrite <- Hl2.
  destruct (Z.eq_dec j 0) as [->|]; [apply map_range_0|]. replace j with 1 by lia.
  rewrite map_range_1, decide_False; try done.
  intros E. unfold user_pte in Hu'. by rewrite E, Hfl in Hu'.
Qed.

Lemma lazy_others : j = 1 ->
  (forall a, 0 <= a < MAXVA -> a mod PGSIZE = 0 -> a <> va -> leaf (ram k4) T4 a = leaf (ram k) T a) /\
  (forall q l, space_ok k T root l -> fresh k T l q -> fresh k4 T4 l4 q /\ same_page (ram k) (ram k4) q).
Proof.
  intros Hj.
  assert (forall a, 0 <= a < MAXVA -> a mod PGSIZE = 0 -> a <> va -> leaf (ram k4) T4 a = leaf (ram k) T a) as Hl.
  { intros a Ha Haal Hne. by rewrite Hl4, Hj, map_range_1, decide_False, Hl2. }
  split; [done|]. intros q l Hsl (Q1 & Q2 & Q3 & Q4).
  assert (l = pa :: l') as -> by (eapply chain_unique; [apply Hsl|apply Hsp]).
  pose proof (extend_trans _ _ _ _ _ _ _ _ _ Hx2 Hx4) as Hx. split; [|by eapply extend_same].
  split_and!; [done| | |].
  - intros ?%(extend_free _ _ _ _ _ _ _ Hx). done.
  - by intros [?|?]%(extend_table _ _ _ _ _ _ _ Hx).
  - intros a Ha Haal. destruct (decide (a = va)) as [->|Hne].
    + intros _. unfold frame. rewrite Hl4, Hj, map_range_1, decide_True by done.
      destruct (pte_user pa perm (proj1 Hfresh) Hperm) as (-> & _). intros ->. apply Q2. left.
    + unfold user_pte, frame. rewrite Hl by done. by apply Q4.
Qed.

Lemma lazy_mapped : j = 1 -> lazy_page T root perm va k pa k4.
Proof.
  intros Hj. pose proof Hfresh as (F1 & F2 & F3 & _). destruct (pte_user pa perm F1 Hperm) as (U1 & U2 & U3).
  assert (leaf (ram k4) T4 va = Z.lor (Z.lor (PA2PTE pa) perm) PTE_V) as Ev.
  { by rewrite Hl4, Hj, map_range_1, decide_True. }
  exists T4, l4. split_and!; [done| |intros a; apply lazy_bytes; lia|right; split_and!; [done..| |by apply lazy_others|by apply lazy_others]].
  - eapply (space_extend k2 k4 T T4 root l' l4 va pa); [done..|].
    intros a Ha Haal. destruct (decide (a = va)) as [->|Hne]; [right; by rewrite Ev|left].
    rewrite Hl4, Hj, map_range_1 by done. by rewrite decide_False.
  - intros a Ha. rewrite <- (pg_unique va a) in Ev by done. pose proof MAXVA_val as EM.
    split; [split; [|unfold user_pte; by rewrite Ev, U2, U3]|].
    + split; [lia|]. pages.
    + unfold ubyte, frame. rewrite Ev, U1. rewrite (pg_unique va a) by done.
      rewrite <- (Hz (pa + (a - va))) by lia. eapply extend_same; [done..|]. lia.
Qed.

Lemma lazy_unmapped : j = 0 -> l4 = [] -> space_ok k4 T4 root [] /\ fresh k4 T4 [] pa.
Proof.
  intros Hj El. subst l4. pose proof Hfresh as (F1 & F2 & F3 & F4).
  assert (forall a, 0 <= a < MAXVA -> a mod PGSIZE = 0 -> leaf (ram k4) T4 a = leaf (ram k2) T a) as Hl.
  { intros a Ha Haal. by rewrite Hl4, Hj, map_range_0. }
  split.
  - eapply (space_extend k2 k4 T T4 root l' [] va pa); [done..|]. intros a Ha Haal. left. by apply Hl.
  - split_and!; [done|by intros ?%elem_of_nil| |].
    + by intros [?|?]%(extend_table _ _ _ _ _ _ _ Hx4).
    + intros a Ha Haal. unfold user_pte, frame. rewrite Hl by done. by apply F4.
Qed.

End lazy.

(** [k2] is [k] with a page [pa] taken from the free list and cleared. *)
Record taken (T : gmap (list Z) Z) (root : Z) (k : kernel) (pa : Z) (l : list Z) (k2 : kernel) : Prop := {
  tk_from : space_ok k T root (pa :: l);
  tk_mm : only_mm k k2;
  tk_space : space_ok k2 T root l;
  tk_fresh : fresh k2 T l pa;
  tk_extend : extend (ram k) T (pa :: l) (ram k2) T l;
  tk_leaf a : leaf (ram k2) T a = leaf (ram k) T a;
  tk_zero a : pa <= a < pa + PGSIZE -> rd (ram k2) a = 0 }.

Lemma taken_intro T root k pa l k1 :
  space_ok k T root (pa :: l) -> page_ok pa -> pa ∉ l -> only_mm k k1 -> free_pages k1 l ->
  ram k1 = wr (ram k) pa (fill 5) ->
  taken T root k pa l (with_ram (wr (ram k1) pa (fill 0)) k1).
Proof.
  intros Hsp Hpa Hpl Hm1 Hf1 Hr1. pose proof (proj1 Hpa) as Hpal. pose proof (page_ok_pos _ Hpa).
  set (k2 := with_ram _ k1).
  destruct (space_take k k2 T root l pa Hsp Hpa Hpl) as (Hsp2 & Hfresh & Hx2 & Hl2).
  { eapply free_pages_ext; [exact Hf1|done|]. intros q Hq.
    destruct (chain_page_ok _ _ _ q (proj1 Hf1) Hq) as [Hqa _].
    apply same_page_fill; [done..|]. intros ->. exact (Hpl Hq). }
  { intros q Hq Hne. eapply same_page_trans; [by apply (same_page_fill _ pa 5)|].
    rewrite <- Hr1. by apply same_page_fill. }
  split; [exact Hsp|etransitivity; [exact Hm1|apply only_mm_ram]|exact Hsp2|exact Hfresh|exact Hx2|exact Hl2|].
  intros a Ha. by apply rd_fill.
Qed.

Lemma taken_sync T root k pa l k2 s :
  taken T root k pa l k2 -> quiet (k_sy k2) s -> sy_procs s = sy_procs (k_sy k2) ->
  taken T root k pa l (set_sy s k2).
Proof.
  intros [H1 H2 [[S1 S2 S3] S4 S5] H4 H5 H6 H7] Hq Hp. split; [exact H1|etransitivity; [exact H2|by split]| |exact H4|exact H5|exact H6|exact H7].
  split; [split|..]; assumption.
Qed.

Lemma space_ok_mm k k' T root l : k_mm k' = k_mm k -> space_ok k T root l -> space_ok k' T root l.
Proof.
  intros Hmm [[H1 H2 H3] H4 H5]. assert (ram k' = ram k) as E by (unfold ram; by rewrite Hmm).
  split; [split|..]; rewrite ?E; try done. unfold free_pages. rewrite E. by rewrite Hmm.
Qed.

Lemma fresh_mm k k' T l q : k_mm k' = k_mm k -> fresh k T l q -> fresh k' T l q.
Proof. intros Hmm. unfold fresh, ram. by rewrite Hmm. Qed.

(** Memory ran out at once. *)
Lemma lazy_none T root perm va k k' :
  space_ok k T root [] -> only_mm k k' -> k_mm k' = k_mm k -> lazy_page T root perm va k 0 k'.
Proof.
  intros Hsp Hm Hmm. assert (ram k' = ram k) as E by (unfold ram; by rewrite Hmm).
  exists T, []. rewrite E. split_and!; [done|by eapply space_ok_mm|auto|left; split_and!; simpl; auto].
Qed.

(** The attempt may start after a change that leaves memory alone. *)
Lemma lazy_page_from T root perm va k k0 r k' :
  only_mm k k0 -> k_mm k0 = k_mm k -> lazy_page T root perm va k0 r k' -> lazy_page T root perm va k r k'.
Proof.
  intros Hm Hmm (T' & l' & H1 & H2 & H3 & H4). assert (ram k0 = ram k) as E by (unfold ram; by rewrite Hmm).
  rewrite E in *. exists T', l'. split_and!; [by etransitivity|done|done|].
  destruct H4 as [H4|(A1 & A2 & A3 & A4 & A5)]; [by left|right]. split_and!; [done..|].
  intros q l Hs Hf. apply (A5 q l); [by eapply space_ok_mm|by eapply fresh_mm].
Qed.

(** Mapping the page that was taken, or giving it back. *)
Lemma lazy_put_rule {tn A} T root perm va pa l (y z : M A) (Q : A -> kernel -> Prop) k k2 :
  sync_ok (k_sy k) -> lock_free (k_sy k) L_kmem -> taken T root k pa l k2 -> user_perm perm ->
  0 <= va < MAXVA -> va mod PGSIZE = 0 -> pte_flag (leaf (ram k) T va) PTE_V = false ->
  (forall k', lazy_page T root perm va k pa k' -> wp tn y Q k') ->
  (forall k', lazy_page T root perm va k 0 k' -> wp tn z Q k') ->
  wp tn (let* r := mappages root va PGSIZE pa perm in
         if negb (r =? 0) then kfree pa ;; z else y) Q k2.
Proof.
  intros Hok Hlf [Hsp Hm2 Hsp2 Hfresh Hx2 Hl2 Hz] Hperm Hva Hal Hfl Hy Hz'. pose proof (proj1 Hfresh) as Hpa.
  apply wp_bind, (mappages_page_rule T root l); [eauto with kern..|apply Hsp2|done|done|done|apply Hperm| |].
  { by rewrite Hl2. }
  intros r k4 (j & T4 & l4 & Hm4 & Hvm4 & Hx4 & _ & Hl4 & Hr).
  assert (only_mm k k4) as Hm by (by etransitivity).
  destruct Hr as [[-> Hj]|(-> & Hj & ->)]; cbn [negb Z.eqb].
  - by apply Hy, (lazy_mapped k k2 k4 T T4 root va pa perm j l l4).
  - destruct (lazy_unmapped k2 k4 T T4 root va pa perm j l []) as [Hs4 Hf4]; [done..|lia|done|].
    apply wp_bind, (kfree_rule []); [eauto with kern|eauto with kern|apply Hs4|done|by intros ?%elem_of_nil|].
    intros k5 Hm5 Hf5 Hsame5. destruct (space_give k4 k5 T4 root [] pa) as (Hs5 & Hl5 & Hb5); [done..|].
    apply Hz'. exists T4, [pa]. split_and!; [by etransitivity|done| |left; split_and!; [done|simpl; lia|]].
    + intros a Hu.
      assert (is_user (ram k4) T4 a /\ ubyte (ram k4) T4 a = ubyte (ram k) T a) as [B1 B2].
      { apply lazy_bytes with (k2 := k2) (root := root) (va := va) (pa := pa) (perm := perm) (j := j) (l' := l) (l4 := []);
          done || lia. }
      apply Hb5 in B1 as [B1 ->]. done.
    + intros a Ha Haal. rewrite Hl5, Hl4, <- Hl2 by done. replace j with 0 by lia. apply map_range_0.
Qed.

(** The part of [walkaddr] after the checks: allocate, clear, map. *)
Lemma lazy_map_rule {tn} T root l va p (Q : Z -> kernel -> Prop) k :
  sync_ok (k_sy k) -> lock_free (k_sy k) L_kmem -> space_ok k T root l ->
  c_proc (sy_cpu (k_sy k)) = Some p -> p_pagetable (proc_at k p) = root ->
  0 <= va < MAXVA -> va mod PGSIZE = 0 -> pte_flag (leaf (ram k) T va) PTE_V = false ->
  (forall r k', lazy_page T root PTE_USER va k r k' -> Q r k') ->
  wp tn (let* pa := kalloc in
         if pa =? 0 then ret 0 else
         memset pa 0 PGSIZE ;;
         let va := PGROUNDDOWN va in
         let* p := curproc in
         let* pr := get_proc p in
         let* r := mappages (p_pagetable pr) va PGSIZE pa PTE_USER in
         if negb (r =? 0) then kfree pa ;; ret 0 else ret pa) Q k.
Proof.
  intros Hok Hlf Hsp Hc Hpt Hva Hal Hfl HQ. pose proof MAXVA_val.
  apply wp_bind, (kalloc_rule l); [done|done|apply Hsp| |].
  { intros -> k' Hm Hmm. apply wp_ret, HQ. by apply lazy_none. }
  intros pa l' -> Hpa Hpl k1 Hm1 Hf1 Hr1. pose proof (page_ok_pos _ Hpa). pose proof (page_ok_ram _ Hpa).
  rewrite (proj2 (Z.eqb_neq pa 0)) by lia. apply wp_bind, wp_memset_page; [lia..|].
  pose proof (taken_intro _ _ _ _ _ _ Hsp Hpa Hpl Hm1 Hf1 Hr1) as Htk. set (k2 := with_ram _ k1) in *.
  clearbody k2. clear Hr1 Hf1 Hm1 k1. pose proof (tk_mm _ _ _ _ _ _ Htk) as Hm2.
  cbv zeta. rewrite PGROUNDDOWN_aligned by (done || lia).
  apply wp_bind, (wp_curproc p); [eauto with kern|by rewrite (q_proc _ _ (om_quiet _ _ Hm2))|].
  intros s3 Hq3 Hp3. apply wp_bind, wp_gets.
  pose proof (taken_sync _ _ _ _ _ _ s3 Htk Hq3 Hp3) as Htk3.
  assert (p_pagetable (proc_at (set_sy s3 k2) p) = root) as ->.
  { unfold proc_at. rewrite (om_procs _ _ (tk_mm _ _ _ _ _ _ Htk3)). exact Hpt. }
  apply (lazy_put_rule T root PTE_USER va pa l' _ _ _ k); try done;
    intros k' Hk'; by apply wp_ret, HQ.
Qed.

(** [walkaddr] of an address that is not mapped. *)
Lemma walkaddr_miss_rule {tn} T root l va p (Q : Z -> kernel -> Prop) k :
  sync_ok (k_sy k) -> lock_free (k_sy k) L_kmem -> space_ok k T root l ->
  c_proc (sy_cpu (k_sy k)) = Some p -> p_pagetable (proc_at k p) = root ->
  KERNBASE <= p_trapframe (proc_at k p) -> p_trapframe (proc_at k p) + PGSIZE <= PHYSTOP ->
  0 <= va < MAXVA -> va mod PGSIZE = 0 -> pte_flag (leaf (ram k) T va) PTE_V = false ->
  let sp := rd64 (ram k) (p_trapframe (proc_at k p) + tf_offset TF_sp) in
  (forall r k', (if (va >=? p_sz (proc_at k p)) || (va <? PGROUNDUP sp)
     then r = 0 /\ only_mm k k' /\ k_mm k' = k_mm k
     else lazy_page T root PTE_USER va k r k') -> Q r k') ->
  wp tn (walkaddr root va) Q k.
Proof.
  intros Hok Hlf Hsp Hc Hpt Htf Htf' Hva Hal Hfl sp HQ. unfold walkaddr.
  rewrite Z.geb_leb, (proj2 (Z.leb_gt _ _)) by lia.
  apply (load_leaf_rule T root va); [apply Hsp|done|]. rewrite Hfl, orb_true_r.
  apply wp_bind, (wp_curproc p); [done..|]. intros s1 Hq1 Hp1. apply wp_bind, wp_gets.
  assert (forall s, sy_procs s = sy_procs (k_sy k) -> proc_at (set_sy s k) p = proc_at k p) as Epr.
  { intros s E. unfold proc_at, procs. kproj. by rewrite E. }
  rewrite Epr by done. destruct (va >=? p_sz (proc_at k p)) eqn:Esz; cbn [orb] in HQ.
  { apply wp_ret, HQ. split_and!; [done| |done]. by split. }
  apply wp_bind, (wp_curproc p); [eauto with kern|kproj; by rewrite (q_proc _ _ Hq1)|].
  kproj. intros s2 Hq2 Hp2. apply wp_bind, wp_bind, wp_gets. change (set_sy s2 (set_sy s1 k)) with (set_sy s2 k).
  rewrite Epr by (by rewrite Hp2). apply wp_load64; [simpl; lia|simpl; unfold PGSIZE in *; lia|].
  change (ram (set_sy s2 k)) with (ram k). fold sp.
  assert (only_mm k (set_sy s2 k)) as Hm2.
  { split; try done; [by etransitivity|]. unfold procs. kproj. by rewrite Hp2. }
  destruct (va <? PGROUNDUP sp) eqn:Esp.
  { apply wp_ret, HQ. done. }
  apply (lazy_map_rule T root l va p); [eauto with kern..| | | |done|done|done|].
  - by apply (space_ok_mm k).
  - by rewrite (q_proc _ _ (om_quiet _ _ Hm2)).
  - by rewrite Epr by (by rewrite Hp2).
  - intros r k' Hz. apply HQ. by eapply lazy_page_from.
Qed.

(** C39: for an address that is not mapped, [walkaddr] returns null and
    changes nothing unless the address lies between the stack pointer
    (rounded up) and the process size; there it maps a fresh page of zeros for
    the user and no other page, or returns null when memory ran out.  The user's other bytes
    never change. *)
Theorem walkaddr_lazy T root l va p k :
  sync_ok (k_sy k) -> lock_free (k_sy k) L_kmem -> space_ok k T root l ->
  c_proc (sy_cpu (k_sy k)) = Some p -> p_pagetable (proc_at k p) = root ->
  KERNBASE <= p_trapframe (proc_at k p) -> p_trapframe (proc_at k p) + PGSIZE <= PHYSTOP ->
  0 <= va < MAXVA -> va mod PGSIZE = 0 -> pte_flag (leaf (ram k) T va) PTE_V = false ->
  let sp := rd64 (ram k) (p_trapframe (proc_at k p) + tf_offset TF_sp) in
  exists r k', (forall e, walkaddr root va e k = Ret r e k') /\
    if (va >=? p_sz (proc_at k p)) || (va <? PGROUNDUP sp)
    then r = 0 /\ only_mm k k' /\ k_mm k' = k_mm k
    else lazy_page T root PTE_USER va k r k'.
Proof.
  intros Hok Hlf Hsp Hc Hpt Htf Htf' Hva Hal Hfl sp. apply wp_exact.
  apply (walkaddr_miss_rule T root l va p); auto.
Qed.

Lemma copyout_rule {tn : turn} T root l va src (Q : Z -> kernel -> Prop) k :
  space_ok k T root l -> user_range (ram k) T va (Z.of_nat (length src)) ->
  (forall m', written (ram k) T l va src m' -> Q 0 (with_ram m' k)) -> wp tn (copyout root va src) Q k.
Proof.
  intros Hsp Hur HQ. destruct (pg_spec va (proj1 Hur)) as (P1 & P2 & P3). unfold copyout.
  replace (length src / 4096 + 3)%nat with (S (length src / 4096 + 2)) by lia. apply (copyout_loop_rule T root l); [done|done| |done].
  pose proof (Nat.div_mod_eq (length src) 4096). pose proof (Nat.mod_upper_bound (length src) 4096). unfold PGSIZE in *. lia.
Qed.

(** ** Copies over pages that are mapped or can be brought in

    [uspace k T root l p sp]: process [p] runs in the address space [root],
    its trapframe is a page of its own and holds the stack pointer [sp]. *)
Record uspace (k : kernel) (T : gmap (list Z) Z) (root : Z) (l : list Z) (p : nat) (sp : Z) : Prop := {
  us_sync : sync_ok (k_sy k);
  us_lock : lock_free (k_sy k) L_kmem;
  us_space : space_ok k T root l;
  us_proc : c_proc (sy_cpu (k_sy k)) = Some p;
  us_root : p_pagetable (proc_at k p) = root;
  us_tf : fresh k T l (p_trapframe (proc_at k p));
  us_sp : rd64 (ram k) (p_trapframe (proc_at k p) + tf_offset TF_sp) = sp }.

(** The page at [va] is the user's, or part of the lazily grown heap. *)
Definition reachable (m : gmap Z Z) (T : gmap (list Z) Z) (sz sp va : Z) : Prop :=
  user_pte m T va = true \/
  pte_flag (leaf m T va) PTE_V = false /\ va < sz /\ PGROUNDUP sp <= va.

Definition reach_range (m : gmap Z Z) (T : gmap (list Z) Z) (sz sp va n : Z) : Prop :=
  0 <= va /\ va + n <= MAXVA /\ forall a, va <= a < va + n -> reachable m T sz sp (pg a).

(** The byte the user sees at [va]: pages that are not there yet read 0. *)
Definition lbyte (m : gmap Z Z) (T : gmap (list Z) Z) (va : Z) : Z :=
  if user_pte m T (pg va) then ubyte m T va else 0.

(** The user's view of [m'] is that of [m] with the bytes [b] at [va]; the
    pages of that range are there, and no page outside it was mapped or
    unmapped. *)
Record stored (m : gmap Z Z) (T : gmap (list Z) Z) (va : Z) (b : list Z)
    (m' : gmap Z Z) (T' : gmap (list Z) Z) : Prop := {
  sd_keep a : is_user m T a -> is_user m' T' a;
  sd_range a : va <= a < va + Z.of_nat (length b) -> is_user m' T' a;
  sd_byte a : is_user m' T' a -> ubyte m' T' a = over va b (lbyte m T) a;
  sd_leaf a : 0 <= a < MAXVA -> a mod PGSIZE = 0 ->
    (forall c, va <= c < va + Z.of_nat (length b) -> pg c <> a) -> leaf m' T' a = leaf m T a }.

Lemma over_out va b f a : ~ va <= a < va + Z.of_nat (length b) -> over va b f a = f a.
Proof. intros H. unfold over. destruct (Z.leb_spec va a), (Z.ltb_spec a (va + Z.of_nat (length b))); simpl; lia || done. Qed.

Lemma over_in va b f g a : va <= a < va + Z.of_nat (length b) -> over va b f a = over va b g a.
Proof. intros H. unfold over. by rewrite (proj2 (Z.leb_le _ _)), (proj2 (Z.ltb_lt _ _)) by lia. Qed.

Lemma over_app va b1 b2 f a :
  over va (b1 ++ b2) f a = over (va + Z.of_nat (length b1)) b2 (over va b1 f) a.
Proof.
  unfold over. rewrite length_app.
  destruct (Z.leb_spec (va + Z.of_nat (length b1)) a), (Z.leb_spec va a),
    (Z.ltb_spec a (va + Z.of_nat (length b1))),
    (Z.ltb_spec a (va + Z.of_nat (length b1) + Z.of_nat (length b2))),
    (Z.ltb_spec a (va + Z.of_nat (length b1 + length b2))); simpl; try lia; try done.
  - rewrite app_nth2 by lia. f_equal. lia.
  - rewrite app_nth1 by lia. done.
Qed.

Lemma lbyte_user m T a : is_user m T a -> lbyte m T a = ubyte m T a.
Proof. intros [_ H]. unfold lbyte. by rewrite H. Qed.

Lemma not_user m T a : 0 <= a < MAXVA -> ~ is_user m T a -> user_pte m T (pg a) = false.
Proof. intros Ha Hn. apply not_true_is_false. intros H. by apply Hn. Qed.

Lemma stored_nil m T va : stored m T va [] m T.
Proof.
  split; try done; [simpl; lia|]. intros a Ha. rewrite over_out by (simpl; lia). by rewrite lbyte_user.
Qed.

Lemma stored_trans m T va b1 m1 T1 b2 m2 T2 :
  stored m T va b1 m1 T1 -> stored m1 T1 (va + Z.of_nat (length b1)) b2 m2 T2 ->
  stored m T va (b1 ++ b2) m2 T2.
Proof.
  intros H1 H2. split.
  - intros a Ha. by apply H2, H1.
  - rewrite length_app. intros a Ha. destruct (decide (a < va + Z.of_nat (length b1))).
    + apply H2, (sd_range _ _ _ _ _ _ H1). lia.
    + apply (sd_range _ _ _ _ _ _ H2). lia.
  - intros a Ha. rewrite (sd_byte _ _ _ _ _ _ H2), over_app by done.
    destruct (decide (va + Z.of_nat (length b1) <= a < va + Z.of_nat (length b1) + Z.of_nat (length b2))) as [Hin|Hout];
      [by apply over_in|]. rewrite !(over_out _ b2) by done. unfold lbyte at 1.
    destruct (user_pte m1 T1 (pg a)) eqn:E.
    + apply (sd_byte _ _ _ _ _ _ H1). split; [apply Ha|done].
    + assert (~ is_user m1 T1 a) as Hn by (intros [_ ?]; congruence).
      rewrite over_out by (intros Hin; by apply Hn, (sd_range _ _ _ _ _ _ H1)). unfold lbyte.
      rewrite (not_user m T a); [done|apply Ha|]. intros Hu. by apply Hn, (sd_keep _ _ _ _ _ _ H1).
  - rewrite length_app. intros a Ha Hal Hne. rewrite (sd_leaf _ _ _ _ _ _ H2), (sd_leaf _ _ _ _ _ _ H1); try done.
    + intros c Hc. apply Hne. lia.
    + intros c Hc. apply Hne. lia.
Qed.

(** The page at [va] is there now; the user sees the bytes as before. *)
Definition brought (m : gmap Z Z) (T : gmap (list Z) Z) (va : Z) (m' : gmap Z Z) (T' : gmap (list Z) Z) : Prop :=
  (forall a, is_user m T a -> is_user m' T' a) /\ user_pte m' T' va = true /\
  (forall a, is_user m' T' a -> ubyte m' T' a = lbyte m T a) /\
  (forall a, 0 <= a < MAXVA -> a mod PGSIZE = 0 -> a <> va -> leaf m' T' a = leaf m T a).

Lemma user_pte_leaf m T m' T' a : leaf m' T' a = leaf m T a -> user_pte m' T' a = user_pte m T a.
Proof. unfold user_pte. by intros ->. Qed.

Lemma lazy_brought T va k k' T' :
  0 <= va < MAXVA -> va mod PGSIZE = 0 -> pte_flag (leaf (ram k) T va) PTE_V = false ->
  (forall a, is_user (ram k) T a -> is_user (ram k') T' a /\ ubyte (ram k') T' a = ubyte (ram k) T a) ->
  (forall a, va <= a < va + PGSIZE -> is_user (ram k') T' a /\ ubyte (ram k') T' a = 0) ->
  (forall a, 0 <= a < MAXVA -> a mod PGSIZE = 0 -> a <> va -> leaf (ram k') T' a = leaf (ram k) T a) ->
  brought (ram k) T va (ram k') T'.
Proof.
  intros Hva Hal Hfl Hu Hz Hl. split_and!; [by intros a Ha; apply Hu| | |done].
  - destruct (Hz va) as [[_ H] _]; [unfold PGSIZE; lia|]. by rewrite (pg_unique va va) in H by (unfold PGSIZE in *; lia || done).
  - intros a Ha. destruct (pg_spec a) as (A1 & A2 & A3); [apply Ha|]. unfold lbyte.
    destruct (decide (pg a = va)) as [E|E].
    + rewrite E. unfold user_pte. rewrite Hfl. apply Hz. lia.
    + pose proof Ha as [Ha1 Ha2]. rewrite (user_pte_leaf (ram k) T) in Ha2 by (apply Hl; lia || done).
      rewrite Ha2. by apply Hu.
Qed.

Lemma uspace_written k T root l p sp va b m' :
  uspace k T root l p sp -> written (ram k) T l va b m' ->
  (forall a, va <= a < va + Z.of_nat (length b) -> is_user (ram k) T a) ->
  uspace (with_ram m' k) T root l p sp.
Proof.
  intros [U1 U2 U3 U4 U5 U6 U7] Hw Hr. pose proof (written_space m' k T root l va b U3 Hw) as Hs.
  pose proof U6 as (F1 & F2 & F3 & F4).
  split; [done|done|done|done|done| |].
  - split_and!; [done..|]. intros a Ha Hal. unfold with_ram, ram. kproj.
    rewrite (written_user _ _ _ _ _ _ _ Hw), (written_frame _ _ _ _ _ _ _ Hw). by apply F4.
  - rewrite <- U7. apply (same_page_rd64 (ram k)); [|done|done].
    apply (wn_other _ _ _ _ _ _ Hw); [apply F1|]. intros a Ha. destruct (Hr a Ha) as [Ha' Hu].
    destruct (pg_spec a) as (A1 & A2 & A3); [lia|]. apply F4; [lia|done..].
Qed.

(** A page is brought in and bytes are written inside it. *)
Lemma stored_page m T va b m1 T1 l1 m2 :
  b <> [] -> 0 <= va -> va - pg va + Z.of_nat (length b) <= PGSIZE -> va + Z.of_nat (length b) <= MAXVA ->
  brought m T (pg va) m1 T1 -> written m1 T1 l1 va b m2 -> stored m T va b m2 T1.
Proof.
  intros Hb Hva Hin Hmax (B1 & B2 & B3 & B4) Hw. destruct (pg_spec va Hva) as (P1 & P2 & P3).
  assert (forall a, is_user m1 T1 a <-> is_user m2 T1 a) as Hu.
  { intros a. unfold is_user. by rewrite (written_user _ _ _ _ _ _ _ Hw). }
  split.
  - intros a Ha. by apply Hu, B1.
  - intros a Ha. apply Hu. split; [lia|]. by rewrite (pg_unique (pg va) a) by (done || lia).
  - intros a Ha%Hu. rewrite (wn_byte _ _ _ _ _ _ Hw) by done. unfold over. by rewrite B3.
  - intros a Ha Hal Hne. rewrite (wn_leaf _ _ _ _ _ _ Hw). apply B4; [done|done|].
    intros ->. destruct b as [|x b]; [done|]. apply (Hne va); [simpl; lia|done].
Qed.

Lemma stored_nil_at m T va va' m' T' : stored m T va [] m' T' -> stored m T va' [] m' T'.
Proof.
  intros [S1 S2 S3 S4]. split; [done|simpl; lia| |].
  - intros a Ha. rewrite S3, !over_out by (simpl; lia || done). done.
  - intros a Ha Hal _. apply S4; [done|done|simpl; lia].
Qed.

Lemma reach_first m T sz sp va len :
  reach_range m T sz sp va len -> 0 < len ->
  0 <= pg va < MAXVA /\ pg va + PGSIZE <= MAXVA /\ reachable m T sz sp (pg va).
Proof.
  intros (H0 & Hm & Hr) Hlen. destruct (pg_spec va H0) as (H1 & H2 & H3). pose proof MAXVA_val.
  assert (pg va + PGSIZE <= MAXVA) by (unfold PGSIZE in *; Z.to_euclidean_division_equations; lia).
  split_and!; [lia..|]. apply Hr. lia.
Qed.

(** The rest of a range after its first page. *)
Lemma reach_rest m T sz sp va len b m' T' :
  reach_range m T sz sp va len -> 0 < len -> Z.of_nat (length b) = chunk va len -> stored m T va b m' T' ->
  reach_range m' T' sz sp (pg va + PGSIZE) (len - chunk va len).
Proof.
  intros Hrr Hlen Hb Hst. pose proof Hrr as (H0 & Hm & Hr). destruct (pg_spec va H0) as (P1 & P2 & P3).
  destruct (chunk_spec va len H0 Hlen) as (C1 & C2 & C3). destruct (reach_first _ _ _ _ _ _ Hrr Hlen) as (F1 & F2 & _).
  split_and!; [lia|lia|]. intros a Ha. destruct (pg_spec a) as (A1 & A2 & A3); [lia|].
  assert (leaf m' T' (pg a) = leaf m T (pg a)) as E.
  { apply Hst; [lia|done|]. intros c Hc. rewrite (pg_unique (pg va) c) by (done || lia). intros Ep.
    rewrite Ep in P3. lia. }
  unfold reachable, user_pte. rewrite E. apply Hr. lia.
Qed.

(** The rest of a range after its first bytes have been stored. *)
Lemma reach_after m T sz sp va len b n m' T' :
  reach_range m T sz sp va len -> stored m T va b m' T' -> 0 <= n -> Z.of_nat (length b) + n <= len ->
  reach_range m' T' sz sp (va + Z.of_nat (length b)) n.
Proof.
  intros (H0 & Hm & Hr) Hst Hn Hle. split_and!; [lia|lia|]. intros a Ha.
  destruct (pg_spec a) as (A1 & A2 & A3); [lia|]. set (c := va + Z.of_nat (length b) - 1).
  destruct (decide (b <> [] /\ pg c = pg a)) as [[Hb E]|E].
  - left. rewrite <- E. apply (sd_range _ _ _ _ _ _ Hst). destruct b; [done|simpl in *; lia].
  - assert (leaf m' T' (pg a) = leaf m T (pg a)) as El.
    { apply Hst; [lia|done|]. intros c' Hc' Ec. apply E. split; [intros ->; simpl in Hc'; lia|].
      destruct (pg_spec c') as (B1 & B2 & B3); [lia|]. apply pg_unique; [done|]. lia. }
    unfold reachable, user_pte. rewrite El. apply Hr. lia.
Qed.

(** [walkaddr] on a page of the user's, or of the lazily grown heap. *)
Lemma walkaddr_reach_rule {tn : turn} T root l p sp va (Q : Z -> kernel -> Prop) k :
  uspace k T root l p sp -> 0 <= va < MAXVA -> va mod PGSIZE = 0 ->
  reachable (ram k) T (p_sz (proc_at k p)) sp va ->
  (forall T' l' k', user_pte (ram k) T va = false -> only_mm k k' -> space_ok k' T' root l' ->
     (length l' <= 1)%nat -> stored (ram k) T 0 [] (ram k') T' -> Q 0 k') ->
  (forall T' l' k', only_mm k k' -> uspace k' T' root l' p sp ->
     brought (ram k) T va (ram k') T' -> Q (frame (ram k') T' va) k') ->
  wp tn (walkaddr root va) Q k.
Proof.
  intros Hus Hva Hal Hr Hout HQ. pose proof Hus as [U1 U2 U3 U4 U5 U6 U7]. destruct Hr as [Hu|(Hfl & Hsz & Hsp)].
  - apply (walkaddr_rule T root); [apply U3|done|done|]. apply (HQ T l); [done|done|].
    split_and!; try done. intros a Ha. by rewrite lbyte_user.
  - pose proof (proj1 U6) as Htf. pose proof (page_ok_ram _ Htf).
    apply (walkaddr_miss_rule T root l va p); [done..|lia|lia|done|done|done|]. cbv zeta. rewrite U7.
    rewrite Z.geb_leb, (proj2 (Z.leb_gt _ _)), (proj2 (Z.ltb_ge _ _)) by lia. cbn [orb].
    intros r k' (T' & l' & Hm & Hs' & Hkeep & Hcase).
    destruct Hcase as [(-> & Hlen & Hl)|(Hr & Hlv & Hz & Hl & Hfr)].
    + apply (Hout T' l'); [unfold user_pte; by rewrite Hfl|done..|].
      split; [by intros a Ha; apply Hkeep|simpl; lia| |by intros a Ha Haal _; apply Hl].
      intros a Ha. rewrite over_out by (simpl; lia). pose proof Ha as [Ha1 Ha2].
      destruct (pg_spec a) as (A1 & A2 & A3); [lia|].
      rewrite (user_pte_leaf (ram k) T) in Ha2 by (apply Hl; lia || done). rewrite lbyte_user by done. by apply Hkeep.
    + destruct (Hfr _ l U3 U6) as [Hf' Hsame].
      assert (proc_at k' p = proc_at k p) as Ep by (unfold proc_at; by rewrite (om_procs _ _ Hm)).
      replace r with (frame (ram k') T' va).
      2:{ unfold frame. rewrite Hlv. by apply pte_user. }
      apply (HQ T' l'); [done| |by eapply lazy_brought].
      split; rewrite ?Ep; [eauto with kern|eauto with kern|done| |done|done|].
      * by rewrite (q_proc _ _ (om_quiet _ _ Hm)).
      * by rewrite (same_page_rd64 (ram k) (ram k') _ _ Hsame).
Qed.

(** One page of [copyout], before the rest [next] of the loop. *)
Lemma copyout_reach_page {tn : turn} T root l p sp va src (next : M Z) (Q : Z -> kernel -> Prop) k :
  let len := Z.of_nat (length src) in
  uspace k T root l p sp -> reach_range (ram k) T (p_sz (proc_at k p)) sp va len -> 0 < len ->
  (forall T' l' k', user_pte (ram k) T (pg va) = false -> only_mm k k' -> space_ok k' T' root l' ->
     (length l' <= 1)%nat -> stored (ram k) T va [] (ram k') T' -> Q (-1) k') ->
  (forall T' l' k', only_mm k k' -> uspace k' T' root l' p sp ->
     stored (ram k) T va (take (Z.to_nat (chunk va len)) src) (ram k') T' -> wp tn next Q k') ->
  wp tn (let* pa0 := walkaddr root (pg va) in
         if pa0 =? 0 then ret (-1) else
         store_bytes (pa0 + (va - pg va)) (take (Z.to_nat (chunk va len)) src) ;; next) Q k.
Proof.
  intros len Hus Hrr Hpos Hout HQ. destruct (pg_spec va (proj1 Hrr)) as (P1 & P2 & P3).
  destruct (chunk_spec va len) as (C1 & C2 & C3); [lia..|].
  destruct (reach_first _ _ _ _ _ _ Hrr Hpos) as (F1 & F2 & F3). pose proof Hrr as (R1 & R2 & _).
  apply wp_bind, (walkaddr_reach_rule T root l p sp); [done..| |].
  { intros T' l' k' Hu Hm Hs Hl Hst. apply wp_ret, (Hout T' l'); [done..|]. by apply (stored_nil_at _ _ 0). }
  intros T1 l1 k1 Hm1 Hus1 Hbr. pose proof (us_space _ _ _ _ _ _ Hus1) as Hsp1.
  destruct (so_frame _ _ _ _ Hsp1 (pg va)) as (Hf & _); [done|done|apply Hbr|].
  pose proof (page_ok_pos _ Hf). pose proof (page_ok_ram _ Hf).
  rewrite (proj2 (Z.eqb_neq _ 0)) by lia. set (b := take (Z.to_nat (chunk va len)) src) in *.
  assert (Z.of_nat (length b) = chunk va len) as Hb by (unfold b; rewrite length_take; unfold len in *; lia).
  apply wp_bind, wp_store_bytes; [lia|lia|].
  assert (written (ram k1) T1 l1 va b (wr (ram k1) (frame (ram k1) T1 (pg va) + (va - pg va)) b)) as Hw
    by (apply (written_page k1 T1 root); [done|lia|apply Hbr|lia]).
  apply (HQ T1 l1); [by etransitivity; [|apply only_mm_ram]|eapply uspace_written; [done|done|]|].
  - intros a Ha. split; [lia|]. rewrite (pg_unique (pg va) a) by (done || lia). apply Hbr.
  - eapply stored_page; [|lia|lia|lia|done|done]. intros E. rewrite E in Hb. simpl in Hb. lia.
Qed.

Lemma copyout_reach_loop {tn : turn} T root l p sp fuel va src (Q : Z -> kernel -> Prop) k :
  uspace k T root l p sp -> reach_range (ram k) T (p_sz (proc_at k p)) sp va (Z.of_nat (length src)) ->
  va - pg va + Z.of_nat (length src) <= Z.of_nat fuel * PGSIZE ->
  (forall j T' l' k', ~ user_range (ram k) T va (Z.of_nat (length src)) -> (j < length src)%nat ->
     only_mm k k' -> space_ok k' T' root l' -> (length l' <= 1)%nat ->
     stored (ram k) T va (take j src) (ram k') T' -> Q (-1) k') ->
  (forall T' l' k', only_mm k k' -> uspace k' T' root l' p sp ->
     stored (ram k) T va src (ram k') T' -> Q 0 k') ->
  wp tn (copyout_loop (S fuel) root va src) Q k.
Proof.
  revert va src T l k. induction fuel as [|fuel IH]; intros va src T l k Hus Hrr Hfuel Hout HQ;
    destruct (pg_spec va (proj1 Hrr)) as (P1 & P2 & P3).
  all: destruct (decide (src = [])) as [->|Hne];
    [cbn [copyout_loop]; apply wp_ret; eapply HQ; [done|done|apply stored_nil]|].
  all: set (len := Z.of_nat (length src)) in *; assert (0 < len) as Hpos by (destruct src; [done|unfold len; simpl; lia]).
  { lia. }
  destruct (chunk_spec va len) as (C1 & C2 & C3); [lia..|].
  destruct (reach_first _ _ _ _ _ _ Hrr Hpos) as (F1 & F2 & _). pose proof MAXVA_val as EM. pose proof Hrr as (R1 & R2 & _).
  remember (S fuel) as f1 eqn:E1; cbn [copyout_loop]; subst f1. fold len.
  rewrite Z.gtb_ltb, (proj2 (Z.ltb_lt 0 len)), PGROUNDDOWN_eq, u64_id by (fold (pg va); lia). fold (pg va). fold (chunk va len).
  set (n := Z.to_nat (chunk va len)). assert (length (take n src) = n) as Hn by (rewrite length_take; unfold n, len in *; lia).
  apply (copyout_reach_page T root l p sp); [done..| |].
  { intros T' l' k' Hu Hm Hs Hl Hst. apply (Hout 0%nat T' l'); [|unfold len in Hpos; lia|done..].
    intros (_ & _ & H). rewrite H in Hu by lia. done. }
  fold len. fold n. intros T1 l1 k1 Hm1 Hus1 Hst1.
  assert (Z.of_nat (length (drop n src)) = len - chunk va len) as Hdl by (rewrite length_drop; unfold n, len in *; lia).
  assert (proc_at k1 p = proc_at k p) as Ep by (unfold proc_at; by rewrite (om_procs _ _ Hm1)).
  assert (forall j m' T', stored (ram k1) T1 (pg va + PGSIZE) (take j (drop n src)) m' T' ->
    stored (ram k) T va (take n src ++ take j (drop n src)) m' T') as Htr.
  { intros j m' T' Hst. eapply stored_trans; [done|]. rewrite Hn. replace (Z.of_nat n) with (chunk va len) by (unfold n; lia).
    destruct (decide (chunk va len = len)) as [E|E]; [|by rewrite C3 by lia].
    destruct (drop n src) as [|]; [|simpl in Hdl; lia]. rewrite take_nil in *. by eapply stored_nil_at. }
  apply (IH _ _ T1 l1); [done|rewrite Ep, Hdl; eapply reach_rest; [done|done|rewrite Hn; unfold n; lia|done]| | |].
  - rewrite Hdl, (pg_unique (pg va + PGSIZE) (pg va + PGSIZE)) by pages. unfold PGSIZE in *. lia.
  - intros j T' l' k' Hnu Hj Hm Hs Hl Hst. apply (Hout (n + j)%nat T' l'); [| |by etransitivity|done|done|].
    + intros (U1 & U2 & U3). apply Hnu. rewrite Hdl. split_and!; [lia|lia|]. intros a Ha.
      apply (sd_keep _ _ _ _ _ _ Hst1 a). split; [lia|]. apply U3. lia.
    + rewrite length_drop in Hj. lia.
    + rewrite <- take_take_drop. by apply Htr.
  - intros T' l' k' Hm Hu Hst. apply (HQ T' l'); [by etransitivity|done|].
    rewrite <- (take_drop n src), <- (firstn_all (drop n src)). apply Htr. by rewrite firstn_all.
Qed.

Lemma copyout_reach_rule {tn : turn} T root l p sp va src (Q : Z -> kernel -> Prop) k :
  uspace k T root l p sp -> reach_range (ram k) T (p_sz (proc_at k p)) sp va (Z.of_nat (length src)) ->
  (forall j T' l' k', ~ user_range (ram k) T va (Z.of_nat (length src)) -> (j < length src)%nat ->
     only_mm k k' -> space_ok k' T' root l' -> (length l' <= 1)%nat ->
     stored (ram k) T va (take j src) (ram k') T' -> Q (-1) k') ->
  (forall T' l' k', only_mm k k' -> uspace k' T' root l' p sp ->
     stored (ram k) T va src (ram k') T' -> Q 0 k') ->
  wp tn (copyout root va src) Q k.
Proof.
  intros Hus Hrr Hout HQ. destruct (pg_spec va (proj1 Hrr)) as (P1 & P2 & P3). unfold copyout.
  replace (length src / 4096 + 3)%nat with (S (length src / 4096 + 2)) by lia.
  apply (copyout_reach_loop T root l p sp); [done|done| |done|done].
  pose proof (Nat.div_mod_eq (length src) 4096). pose proof (Nat.mod_upper_bound (length src) 4096). unfold PGSIZE in *. lia.
Qed.

Lemma copyin_rule {tn : turn} T root l va len (Q : Z * list Z -> kernel -> Prop) k :
  space_ok k T root l -> 0 <= len -> user_range (ram k) T va len ->
  Q (0, map (ubyte (ram k) T) (seqZ va len)) k -> wp tn (copyin root va len) Q k.
Proof.
  intros Hsp Hlen Hur HQ. destruct (pg_spec va (proj1 Hur)) as (P1 & P2 & P3). unfold copyin.
  replace (Z.to_nat len / 4096 + 3)%nat with (S (Z.to_nat len / 4096 + 2)) by lia.
  apply (copyin_loop_rule T root l); [done|done|done| |done].
  pose proof (Nat.div_mod_eq (Z.to_nat len) 4096). pose proof (Nat.mod_upper_bound (Z.to_nat len) 4096).
  unfold PGSIZE in *. lia.
Qed.

Lemma stored_range m T va b m' T' :
  0 <= va -> va + Z.of_nat (length b) <= MAXVA -> stored m T va b m' T' ->
  user_range m' T' va (Z.of_nat (length b)) /\ map (ubyte m' T') (seqZ va (Z.of_nat (length b))) = b.
Proof.
  intros H1 H2 Hst. split.
  - split_and!; [done..|]. intros a Ha. by apply (sd_range _ _ _ _ _ _ Hst).
  - apply list_eq_same_length with (n := length b); [done|by rewrite length_map, length_seqZ, Nat2Z.id|].
    intros i x y Hi Hx Hy. rewrite list_lookup_fmap, lookup_seqZ_lt in Hx by lia.
    simpl in Hx. injection Hx as <-. rewrite (sd_byte _ _ _ _ _ _ Hst) by (apply (sd_range _ _ _ _ _ _ Hst); lia).
    unfold over. rewrite (proj2 (Z.leb_le _ _)), (proj2 (Z.ltb_lt _ _)) by lia. simpl.
    replace (Z.to_nat (va + Z.of_nat i - va)) with i by lia. by apply nth_lookup_Some.
Qed.

(** C38: copying bytes out to memory the running process may use, across
    pages that are mapped and pages of its lazily grown heap that are not
    there yet, succeeds, changes exactly the bytes of the range in the user's
    view, with new pages zero elsewhere, and maps no page outside the range;
    reading the range back in returns the bytes that were written.  It can
    only fail when some page of the range was missing and memory ran out;
    then a proper prefix of the bytes has been stored. *)
Theorem copyout_copyin T root l p sp va src k :
  uspace k T root l p sp -> reach_range (ram k) T (p_sz (proc_at k p)) sp va (Z.of_nat (length src)) ->
  exists r k' T' l', (forall e, copyout root va src e k = Ret r e k') /\
    only_mm k k' /\ space_ok k' T' root l' /\
    (r = 0 /\ stored (ram k) T va src (ram k') T' /\
       (forall e, copyin root va (Z.of_nat (length src)) e k' = Ret (0, src) e k') \/
     r = -1 /\ ~ user_range (ram k) T va (Z.of_nat (length src)) /\ (length l' <= 1)%nat /\
       exists j, (j < length src)%nat /\ stored (ram k) T va (take j src) (ram k') T').
Proof.
  intros Hus Hrr. pose proof Hrr as (R1 & R2 & _).
  destruct (wp_exact (copyout root va src) (fun r k' => exists T' l', only_mm k k' /\ space_ok k' T' root l' /\
    (r = 0 /\ stored (ram k) T va src (ram k') T' \/
     r = -1 /\ ~ user_range (ram k) T va (Z.of_nat (length src)) /\ (length l' <= 1)%nat /\
       exists j, (j < length src)%nat /\ stored (ram k) T va (take j src) (ram k') T')) k)
    as (r & k' & Hr & T' & l' & Hm & Hs & Hcase).
  { apply (copyout_reach_rule T root l p sp); [done..| |].
    - intros j T' l' k' Hnu Hj Hm Hs Hl Hst. exists T', l'. split_and!; [done..|]. right. split_and!; [done..|]. by exists j.
    - intros T' l' k' Hm Hu Hst. exists T', l'. split_and!; [done|apply Hu|]. by left. }
  exists r, k', T', l'. split_and!; [done..|]. destruct Hcase as [[-> Hst]|Hf]; [left|by right].
  split_and!; [done..|]. destruct (stored_range _ _ _ _ _ _ R1 R2 Hst) as [Hur Hb]. intros e.
  destruct (wp_exact (copyin root va (Z.of_nat (length src))) (fun r k1 => r = (0, src) /\ k1 = k') k')
    as (r & k1 & -> & -> & ->); [|done].
  apply (copyin_rule T' root l'); [done|lia|done|by rewrite Hb].
Qed.

End um.

(** ** Instances *)

#[local] Existing Instance sample_linker.
#[local] Existing Instance sample_linker_ok.

Lemma sample_user va : 0 <= va < MAXVA -> va mod PGSIZE = 0 ->
  user_pte (ram sample_vm) sample_T va = bool_decide (va = 0).
Proof.
  intros Hva Hal. unfold user_pte. rewrite (proj2 sample_vm_ok) by done.
  destruct (pte_user pg_frame PTE_USER) as (_ & H1 & H2); [apply sample_pages|done|].
  case_decide as E; [|by rewrite bool_decide_false]. by rewrite H1, H2, bool_decide_true.
Qed.

Lemma sample_space : space_ok sample_vm sample_T pg_root [0x87fff000].
Proof.
  split; [apply sample_vm_ok| |].
  - intros va Hva Hal. rewrite sample_user by done. intros ->%bool_decide_eq_true.
    unfold frame. rewrite (proj2 sample_vm_ok), decide_True by done.
    destruct (pte_user pg_frame PTE_USER) as (-> & _); [apply sample_pages|done|]. split_and!.
    + apply sample_pages.
    + by intros ?%list_elem_of_singleton.
    + intros [p Hp]. apply sample_T_cases in Hp as [[_ E]|[[_ E]|[_ E]]]; done.
  - intros va va' Hva Hal. rewrite sample_user by done. intros ->%bool_decide_eq_true.
    intros Hva' Hal'. rewrite sample_user by done. by intros ->%bool_decide_eq_true.
Qed.

(** Process 0 with this address space, 8 KiB long; its trapframe is all zero. *)
Definition sample_lazy : kernel :=
  set_sy (set_procs (alter (fun p => set_p_sz 8192 (set_p_pagetable pg_root
            (set_p_trapframe 0x87ff4000 p))) 0%nat (procs sample)) (k_sy sample_vm)) sample_vm.

Lemma sample_lazy_space : uspace sample_lazy sample_T pg_root [0x87fff000] 0%nat 0.
Proof.
  assert (space_ok sample_lazy sample_T pg_root [0x87fff000]) as Hs
    by (apply (space_ok_mm sample_vm); [reflexivity|apply sample_space]).
  split; [apply sample_sync_ok|apply sample_free; left|done|reflexivity|reflexivity| |by vm_compute].
  change (p_trapframe (proc_at sample_lazy 0)) with 0x87ff4000. split_and!.
  - by split_and!.
  - by intros ?%list_elem_of_singleton.
  - intros [q Hq]. apply sample_T_cases in Hq as [[_ E]|[[_ E]|[_ E]]]; done.
  - intros va Hva Hal. change (ram sample_lazy) with (ram sample_vm). rewrite sample_user by done.
    intros ->%bool_decide_eq_true. unfold frame. rewrite (proj2 sample_vm_ok), decide_True by done.
    destruct (pte_user pg_frame PTE_USER) as (-> & _); [apply sample_pages|done|]. done.
Qed.

Lemma sample_lazy_reach n : 0 <= n <= 8192 - 16 ->
  reach_range (ram sample_lazy) sample_T (p_sz (proc_at sample_lazy 0)) 0 16 n.
Proof.
  intros Hn. pose proof MAXVA_val. split_and!; [lia|lia|]. intros a Ha. change (ram sample_lazy) with (ram sample_vm).
  change (p_sz (proc_at sample_lazy 0)) with 8192. assert (pg a = 0 \/ pg a = 4096) as [->| ->] by (unfold pg; pages).
  - left. by rewrite sample_user.
  - right. split_and!; [|lia|by vm_compute]. rewrite (proj2 sample_vm_ok) by done. by vm_compute.
Qed.

(** Within the page at 0, and from it on to the missing page at 4096. *)
Lemma copyout_copyin_witness :
  (exists k', copyout pg_root 16 [1; 2; 3] [] sample_lazy = Ret 0 [] k' /\
     copyin pg_root 16 3 [] k' = Ret (0, [1; 2; 3]) [] k') /\
  (exists r k', copyout pg_root 16 (repeat 7 5000) [] sample_lazy = Ret r [] k' /\
     (r = 0 /\ copyin pg_root 16 5000 [] k' = Ret (0, repeat 7 5000) [] k' \/ r = -1)).
Proof.
  split.
  - destruct (copyout_copyin sample_T pg_root [0x87fff000] 0 0 16 [1; 2; 3] sample_lazy)
      as (r & k' & T' & l' & H1 & _ & _ & H).
    + apply sample_lazy_space.
    + apply sample_lazy_reach. simpl. lia.
    + destruct H as [(-> & _ & H)|(_ & H & _)].
      * exists k'. exact (conj (H1 []) (H [])).
      * destruct H. pose proof MAXVA_val. simpl. split_and!; [lia|lia|]. intros a Ha.
        replace (pg a) with 0 by (unfold pg; pages). change (ram sample_lazy) with (ram sample_vm). by rewrite sample_user.
  - destruct (copyout_copyin sample_T pg_root [0x87fff000] 0 0 16 (repeat 7 5000) sample_lazy)
      as (r & k' & T' & l' & H1 & _ & _ & H).
    + apply sample_lazy_space.
    + apply sample_lazy_reach. rewrite repeat_length. lia.
    + exists r, k'. split; [exact (H1 [])|]. rewrite repeat_length in H.
      destruct H as [(-> & _ & H)|(-> & _)]; [left|by right]. split; [done|exact (H [])].
Defined.

Lemma walkaddr_lazy_witness :
  exists r k', walkaddr pg_root 4096 [] sample_lazy = Ret r [] k' /\
    lazy_page sample_T pg_root PTE_USER 4096 sample_lazy r k'.
Proof.
  destruct (walkaddr_lazy sample_T pg_root [0x87fff000] 4096 0%nat sample_lazy)
    as (r & k' & H1 & H2).
  - apply sample_sync_ok.
  - apply sample_free. left.
  - destruct sample_space as [[S1 S2 S3] S4 S5]. split; [split|..]; assumption.
  - reflexivity.
  - reflexivity.
  - done.
  - done.
  - done.
  - done.
  - by vm_compute.
  - exists r, k'. split; [exact (H1 [])|exact H2].
Defined.
