(* ===== verification/Bio.v ===== *)
(** * [kernel/bio.c]: the buffer cache

    The buffers are [fs_bcache], in which index [NBUF] is [bcache.head]; the
    doubly linked list runs through [b_prev] and [b_next].  The disk driver is
    an interface: [disk_rw b write] transfers buffer [b] and returns when the
    transfer is complete. *)

From S2P Require Import Prelude Defs State Logic Spinlock Sched Sleeplock.

(** ** The interface to the disk driver *)

Class DiskDriver := { disk_rw : nat -> bool -> M unit }.

(** ** Operations *)

Definition head : nat := NBUF.

Definition bufs (k : kernel) : list buf := fs_bcache (k_fs k).
Definition buf_at (k : kernel) (b : nat) : buf := default zero_buf (bufs k !! b).
Definition get_buf (b : nat) : M buf := gets (fun k => buf_at k b).

Definition upd_fs (f : fsys -> fsys) : M unit := modify (fun k => set_fs (f (k_fs k)) k).
Definition set_buf (b : nat) (f : buf -> buf) (k : kernel) : kernel :=
  set_fs (set_bcache (alter f b (bufs k)) (k_fs k)) k.
Definition upd_buf (b : nat) (f : buf -> buf) : M unit := modify (set_buf b f).

Definition binit : M unit :=
  initlock L_bcache "bcache" ;;
  upd_buf head (set_b_prev head) ;;
  upd_buf head (set_b_next head) ;;
  for_all (seq 0 NBUF) (fun b =>
    let* h := get_buf head in
    upd_buf b (set_b_next (b_next h)) ;;
    upd_buf b (set_b_prev head) ;;
    initsleeplock (L_buf b) "buffer" ;;
    let* h := get_buf head in
    upd_buf (b_next h) (set_b_prev b) ;;
    upd_buf head (set_b_next b)).

(** A walk along the list in direction [dir] up to the first buffer that
    passes [test]; the list has [NBUF] buffers. *)
Fixpoint bget_scan (fuel : nat) (dir : buf -> nat) (test : buf -> bool) (b : nat) : M (option nat) :=
  match fuel with
  | O => fun e k => Loop k
  | S fuel =>
      if (b =? head)%nat then ret None else
      let* x := get_buf b in
      if test x then ret (Some b) else bget_scan fuel dir test (dir x)
  end.

Definition bget (dev blockno : Z) : M nat :=
  acquire L_bcache ;;
  let* h := get_buf head in
  let* r := bget_scan (S NBUF) b_next
              (fun b => (b_dev b =? dev) && (b_blockno b =? blockno)) (b_next h) in
  match r with
  | Some b =>
      upd_buf b (fun x => set_b_refcnt (u32 (b_refcnt x + 1)) x) ;;
      release L_bcache ;;
      acquiresleep (L_buf b) ;;
      ret b
  | None =>
      let* h := get_buf head in
      let* r := bget_scan (S NBUF) b_prev (fun b => b_refcnt b =? 0) (b_prev h) in
      match r with
      | Some b =>
          upd_buf b (set_b_dev dev) ;;
          upd_buf b (set_b_blockno blockno) ;;
          upd_buf b (set_b_valid 0) ;;
          upd_buf b (set_b_refcnt 1) ;;
          release L_bcache ;;
          acquiresleep (L_buf b) ;;
          ret b
      | None => panic "bget: no buffers"
      end
  end.

Definition brelse (b : nat) : M unit :=
  let* h := holdingsleep (L_buf b) in
  if negb h then panic "brelse" else
  releasesleep (L_buf b) ;;
  acquire L_bcache ;;
  upd_buf b (fun x => set_b_refcnt (u32 (b_refcnt x - 1)) x) ;;
  let* x := get_buf b in
  when (b_refcnt x =? 0)
    (upd_buf (b_next x) (set_b_prev (b_prev x)) ;;
     let* x := get_buf b in
     upd_buf (b_prev x) (set_b_next (b_next x)) ;;
     let* hd := get_buf head in
     upd_buf b (set_b_next (b_next hd)) ;;
     upd_buf b (set_b_prev head) ;;
     let* hd := get_buf head in
     upd_buf (b_next hd) (set_b_prev b) ;;
     upd_buf head (set_b_next b)) ;;
  release L_bcache.

Definition bpin (b : nat) : M unit :=
  acquire L_bcache ;;
  upd_buf b (fun x => set_b_refcnt (u32 (b_refcnt x + 1)) x) ;;
  release L_bcache.

Definition bunpin (b : nat) : M unit :=
  acquire L_bcache ;;
  upd_buf b (fun x => set_b_refcnt (u32 (b_refcnt x - 1)) x) ;;
  release L_bcache.

Section io.
Context {D : DiskDriver}.

Definition bread (dev blockno : Z) : M nat :=
  let* b := bget dev blockno in
  let* x := get_buf b in
  when (negb (c_true (b_valid x)))
    (disk_rw b false ;;
     upd_buf b (set_b_valid 1)) ;;
  ret b.

Definition bwrite (b : nat) : M unit :=
  let* h := holdingsleep (L_buf b) in
  if negb h then panic "bwrite" else
  disk_rw b true.

End io.
