(* ===== verification/BioList.v ===== *)
(** * The list of buffers of [bio.c]

    The doubly linked list threaded through [b_prev] and [b_next] represents
    a sequence of buffers, the most recently used first.  This file shows
    that [binit], the two scans of [bget] and the relinking of [brelse]
    implement the operations of that sequence. *)

From S2P Require Import Prelude Defs State Logic Spinlock Sched Sleeplock Bio.

(** ** Doubly linked paths *)

(** From [a] along [nx] one reaches the elements of [l] and then [z], and
    [pv] leads back. *)
Fixpoint path (nx pv : nat -> nat) (a : nat) (l : list nat) (z : nat) : Prop :=
  match l with
  | [] => nx a = z /\ pv z = a
  | x :: l => nx a = x /\ pv x = a /\ path nx pv x l z
  end.

Lemma path_app nx pv a l1 x l2 z :
  path nx pv a (l1 ++ x :: l2) z <-> path nx pv a l1 x /\ path nx pv x l2 z.
Proof. revert a. induction l1 as [|y l1 IH]; intros a; simpl; [tauto|]. rewrite IH. tauto. Qed.

Lemma path_ext nx nx' pv pv' a l z :
  path nx pv a l z -> (forall i, i ∈ a :: l -> nx' i = nx i) ->
  (forall i, i ∈ l ++ [z] -> pv' i = pv i) -> path nx' pv' a l z.
Proof.
  revert a. induction l as [|x l IH]; intros a; simpl.
  - intros [H1 H2] Hn Hp. rewrite Hn, Hp by set_solver. done.
  - intros (H1 & H2 & H3) Hn Hp. rewrite Hn, Hp by set_solver. split_and!; [done..|].
    apply IH; [done|..]; intros i Hi; [apply Hn|apply Hp]; set_solver.
Qed.

Lemma path_last nx pv a l z : path nx pv a l z -> last (a :: l) = Some (pv z).
Proof.
  revert a. induction l as [|x l IH]; intros a; cbn [path]; [by intros [_ ->]|].
  intros (_ & _ & H). apply IH in H. by rewrite last_cons_cons.
Qed.

Lemma path_prev_in nx pv a l z : path nx pv a l z -> pv z ∈ a :: l.
Proof. intros H%path_last. by apply last_Some_elem_of in H. Qed.

(** Let the last link of a path lead to [n] instead. *)
Lemma path_retarget nx pv nx' pv' a l z n :
  path nx pv a l z -> NoDup (a :: l) -> n ∉ l -> nx' (pv z) = n -> pv' n = pv z ->
  (forall i, i <> pv z -> nx' i = nx i) -> (forall i, i <> n -> pv' i = pv i) ->
  path nx' pv' a l n.
Proof.
  revert a. induction l as [|x l IH]; intros a; simpl.
  - intros [H1 H2] _ _ Hz Hn _ _. by rewrite H2 in *.
  - intros (H1 & H2 & H3) [Ha Hnd]%NoDup_cons Hnl Hz Hn Hnx Hpv.
    pose proof (path_prev_in _ _ _ _ _ H3) as Hin. split_and!.
    + rewrite Hnx; [done|]. intros ->. done.
    + rewrite Hpv; [done|]. intros ->. set_solver.
    + apply IH; try done. set_solver.
Qed.

(** Taking [b] out. *)
Lemma path_unlink nx pv nx' pv' a l1 b l2 z :
  path nx pv a (l1 ++ b :: l2) z -> NoDup (a :: l1 ++ b :: l2) -> z ∉ l1 ++ b :: l2 ->
  nx' (pv b) = nx b -> pv' (nx b) = pv b ->
  (forall i, i <> pv b -> nx' i = nx i) -> (forall i, i <> nx b -> pv' i = pv i) ->
  path nx' pv' a (l1 ++ l2) z.
Proof.
  rewrite path_app. intros [H1 H2] Hnd Hz Hnx Hpv Hnx' Hpv'.
  pose proof (path_prev_in _ _ _ _ _ H1) as Hin.
  rewrite app_comm_cons, NoDup_app in Hnd. destruct Hnd as (Hnd1 & Hdis & Hnd2).
  destruct l2 as [|y l2]; simpl in H2.
  - rewrite app_nil_r. destruct H2 as [<- H2].
    apply (path_retarget nx pv nx' pv' a l1 b); try done. set_solver.
  - destruct H2 as (Hy & Hyb & H2). subst y. apply path_app. split.
    + apply (path_retarget nx pv nx' pv' a l1 b); try done.
      intros Hn. apply (Hdis (nx b)); set_solver.
    + apply (path_ext nx nx' pv pv'); [done|..]; intros i Hi.
      * apply Hnx'. intros ->. apply (Hdis (pv b)); set_solver.
      * apply Hpv'. intros ->. apply elem_of_app in Hi as [Hi|Hi].
        -- apply NoDup_cons in Hnd2 as [_ Hnd2]. apply NoDup_cons in Hnd2 as [Hnd2 _]. done.
        -- set_solver.
Qed.

(** Putting [b] in front. *)
Lemma path_push nx pv nx' pv' a l b z :
  path nx pv a l z -> NoDup (a :: l) -> z ∉ l -> b ∉ a :: l -> b <> z ->
  nx' b = nx a -> nx' a = b -> pv' b = a -> pv' (nx a) = b ->
  (forall i, i <> a -> i <> b -> nx' i = nx i) ->
  (forall i, i <> nx a -> i <> b -> pv' i = pv i) ->
  path nx' pv' a (b :: l) z.
Proof.
  intros Hp Hnd Hz Hb Hbz H1 H2 H3 H4 Hnx Hpv. simpl. split_and!; [done..|].
  destruct l as [|x l]; simpl in *.
  - destruct Hp as [<- Hp]. done.
  - destruct Hp as (E & Hx & Hp). subst x. split_and!; [done..|].
    apply NoDup_cons in Hnd as [Ha Hnd]. apply NoDup_cons in Hnd as [Hna Hnd].
    apply (path_ext nx nx' pv pv'); [done|..]; intros i Hi.
    + apply Hnx; set_solver.
    + apply Hpv; set_solver.
Qed.

Lemma path_reverse nx pv a l z : path nx pv a l z -> path pv nx z (reverse l) a.
Proof.
  revert a. induction l as [|x l IH]; intros a; simpl.
  - intros [H1 H2]. done.
  - intros (H1 & H2 & H3). rewrite reverse_cons. apply path_app. split; [by apply IH|done].
Qed.

(** ** The list of the cache *)

Definition nx (k : kernel) (i : nat) : nat := b_next (buf_at k i).
Definition pv (k : kernel) (i : nat) : nat := b_prev (buf_at k i).

(** The buffers in the order of the list, [bcache.head] left out. *)
Record ring (k : kernel) (l : list nat) : Prop := {
  rg_path : path (nx k) (pv k) head l head;
  rg_nodup : NoDup l;
  rg_all b : b ∈ l <-> (b < NBUF)%nat;
  rg_len : length (bufs k) = S NBUF }.

(** A buffer without its links. *)
Definition core (x : buf) : buf := set_b_next 0 (set_b_prev 0 x).

Lemma buf_at_set i f k j :
  (i < length (bufs k))%nat ->
  buf_at (set_buf i f k) j = if decide (j = i) then f (buf_at k i) else buf_at k j.
Proof.
  intros Hi. unfold buf_at, set_buf, bufs. kproj. case_decide as E.
  - subst j. rewrite list_lookup_alter_eq.
    destruct (lookup_lt_is_Some_2 _ _ Hi) as [x Hx]. unfold bufs in Hx. by rewrite Hx.
  - by rewrite list_lookup_alter_ne by done.
Qed.

Lemma length_set_buf i f k : length (bufs (set_buf i f k)) = length (bufs k).
Proof. unfold set_buf, bufs. kproj. by rewrite length_alter. Qed.

Lemma set_buf_sy i f k : k_sy (set_buf i f k) = k_sy k.
Proof. done. Qed.

Lemma buf_at_set_sy s k i : buf_at (set_sy s k) i = buf_at k i.
Proof. done. Qed.

Lemma ring_bound k l i : ring k l -> i ∈ head :: l -> (i < length (bufs k))%nat.
Proof.
  intros Hr [->|Hi]%elem_of_cons; rewrite (rg_len _ _ Hr); [unfold head; lia|].
  apply (rg_all _ _ Hr) in Hi. lia.
Qed.

Lemma ring_head_notin k l : ring k l -> head ∉ l.
Proof. intros Hr Hi. apply (rg_all _ _ Hr) in Hi. unfold head in Hi. lia. Qed.

Lemma ring_perm k l : ring k l -> l ≡ₚ seq 0 NBUF.
Proof.
  intros Hr. apply NoDup_Permutation; [apply Hr|apply NoDup_seq|].
  intros b. rewrite (rg_all _ _ Hr), elem_of_seq. lia.
Qed.

Lemma ring_ext k k' l :
  ring k l -> length (bufs k') = length (bufs k) ->
  (forall i, nx k' i = nx k i /\ pv k' i = pv k i) -> ring k' l.
Proof.
  intros [H1 H2 H3 H4] Hlen Hext. split; try done; [|congruence].
  eapply path_ext; [done|..]; intros i _; apply Hext.
Qed.

(** ** The scans of [bget] *)

Section rules.
Context {tn : turn}.

Lemma bget_scan_rule (dir : buf -> nat) (g : nat -> nat) test fuel a l (Q : option nat -> kernel -> Prop) k :
  path (fun i => dir (buf_at k i)) g a l head -> head ∉ l -> (length l < fuel)%nat ->
  Q (find (fun b => test (buf_at k b)) l) k ->
  wp tn (bget_scan fuel dir test (dir (buf_at k a))) Q k.
Proof.
  revert fuel a. induction l as [|x l IH]; intros [|fuel] a Hp Hh Hf HQ; simpl in Hf; try lia.
  - destruct Hp as [-> _]. cbn [bget_scan]. rewrite Nat.eqb_refl. by apply wp_ret.
  - destruct Hp as (-> & _ & Hp). cbn [bget_scan].
    rewrite (proj2 (Nat.eqb_neq x head)) by (intros ->; apply Hh; left).
    apply wp_bind, wp_gets. simpl in HQ. destruct (test (buf_at k x)); [by apply wp_ret|].
    apply IH; [done| |lia|done]. intros H. apply Hh. by right.
Qed.

Lemma scan_next_rule test l (Q : option nat -> kernel -> Prop) k :
  ring k l -> Q (find (fun b => test (buf_at k b)) l) k ->
  wp tn (bget_scan (S NBUF) b_next test (nx k head)) Q k.
Proof.
  intros Hr HQ. apply (bget_scan_rule b_next (pv k) test _ head l); [apply Hr| | |done].
  - by eapply ring_head_notin.
  - rewrite (Permutation_length (ring_perm k l Hr)), length_seq. lia.
Qed.

Lemma scan_prev_rule test l (Q : option nat -> kernel -> Prop) k :
  ring k l -> Q (find (fun b => test (buf_at k b)) (reverse l)) k ->
  wp tn (bget_scan (S NBUF) b_prev test (pv k head)) Q k.
Proof.
  intros Hr HQ. apply (bget_scan_rule b_prev (nx k) test _ head (reverse l)); [| | |done].
  - apply path_reverse, Hr.
  - rewrite elem_of_reverse. by eapply ring_head_notin.
  - rewrite length_reverse, (Permutation_length (ring_perm k l Hr)), length_seq. lia.
Qed.

End rules.

(** ** The relinking of [brelse] *)

(** [b->next->prev = b->prev; b->prev->next = b->next;] *)
Definition unlink (b : nat) (k : kernel) : kernel :=
  let k1 := set_buf (nx k b) (set_b_prev (pv k b)) k in
  set_buf (pv k1 b) (set_b_next (nx k1 b)) k1.

(** [b->next = head.next; b->prev = &head; head.next->prev = b; head.next = b;] *)
Definition push_front (b : nat) (k : kernel) : kernel :=
  let k1 := set_buf b (set_b_next (nx k head)) k in
  let k2 := set_buf b (set_b_prev head) k1 in
  let k3 := set_buf (nx k2 head) (set_b_prev b) k2 in
  set_buf head (set_b_next b) k3.

(** [k'] differs from [k] only in the links of the buffers. *)
Record relinked (k k' : kernel) : Prop := {
  rl_len : length (bufs k') = length (bufs k);
  rl_core i : core (buf_at k' i) = core (buf_at k i);
  rl_rest : k' = set_fs (set_bcache (bufs k') (k_fs k)) k }.

Lemma relinked_set k k1 i f :
  relinked k k1 -> (i < length (bufs k1))%nat -> (forall x, core (f x) = core x) ->
  relinked k (set_buf i f k1).
Proof.
  intros [H1 H2 H3] Hi Hf. split.
  - by rewrite length_set_buf.
  - intros j. rewrite buf_at_set by done. case_decide; [|done]. subst. by rewrite Hf.
  - rewrite H3. done.
Qed.

Lemma relinked_refl k : relinked k k.
Proof. by split. Qed.

Lemma nx_set i f k j : (i < length (bufs k))%nat ->
  nx (set_buf i f k) j = if decide (j = i) then b_next (f (buf_at k i)) else nx k j.
Proof. intros Hi. unfold nx. rewrite buf_at_set by done. by case_decide. Qed.

Lemma pv_set i f k j : (i < length (bufs k))%nat ->
  pv (set_buf i f k) j = if decide (j = i) then b_prev (f (buf_at k i)) else pv k j.
Proof. intros Hi. unfold pv. rewrite buf_at_set by done. by case_decide. Qed.

Lemma path_neighbours f g a l z b :
  path f g a l z -> b ∈ l -> f b ∈ l ++ [z] /\ g b ∈ a :: l.
Proof.
  revert a. induction l as [|x l IH]; intros a; [by intros _ ?%elem_of_nil|].
  cbn [path]. intros (H1 & H2 & H3) [->|Hb]%elem_of_cons.
  - split; [|rewrite H2; left]. destruct l as [|y l]; cbn [path] in H3.
    + destruct H3 as [-> _]. set_solver.
    + destruct H3 as (-> & _). set_solver.
  - destruct (IH _ H3 Hb) as [Hi Hj]. set_solver.
Qed.

Section relink.
Context (k : kernel) (l1 l2 : list nat) (b : nat).
Hypothesis Hr : ring k (l1 ++ b :: l2).

Let Hb : b ∈ l1 ++ b :: l2.
Proof. set_solver. Qed.

Lemma unlink_bounds : (nx k b < length (bufs k))%nat /\ (pv k b < length (bufs k))%nat /\
  (b < length (bufs k))%nat /\ (head < length (bufs k))%nat /\ nx k b <> b /\ pv k b <> b /\ b <> head.
Proof.
  pose proof (path_neighbours _ _ _ _ _ _ (rg_path _ _ Hr) Hb) as [Hn Hp].
  pose proof (ring_head_notin _ _ Hr) as Hh. pose proof (rg_nodup _ _ Hr) as Hnd.
  assert (b <> head) as Hbh by (intros ->; done).
  pose proof (rg_path _ _ Hr) as Hpath. apply path_app in Hpath as [P1 P2].
  apply NoDup_app in Hnd as (N1 & N2 & N3). apply NoDup_cons in N3 as [N3 _].
  split_and!.
  - apply (ring_bound k _ _ Hr). set_solver.
  - apply (ring_bound k _ _ Hr). set_solver.
  - apply (ring_bound k _ _ Hr). set_solver.
  - apply (ring_bound k _ _ Hr). left.
  - destruct l2 as [|y l2']; cbn [path] in P2; destruct P2 as [-> _]; [done|]. intros ->. set_solver.
  - pose proof (path_prev_in _ _ _ _ _ P1) as Hin. intros E. rewrite E in Hin.
    apply elem_of_cons in Hin as [|Hin]; [done|]. apply (N2 b Hin). left.
  - done.
Qed.

Lemma unlink_path : path (nx (unlink b k)) (pv (unlink b k)) head (l1 ++ l2) head /\
  relinked k (unlink b k).
Proof.
  destruct unlink_bounds as (B1 & B2 & B3 & B4 & N1 & N2 & N3). unfold unlink.
  set (k1 := set_buf (nx k b) _ k).
  assert (nx k1 b = nx k b) as E1 by (unfold k1; rewrite nx_set by done; by case_decide).
  assert (pv k1 b = pv k b) as E2
    by (unfold k1; rewrite pv_set by done; case_decide; congruence).
  assert (length (bufs k1) = length (bufs k)) as El by apply length_set_buf.
  rewrite E1, E2. split.
  - apply (path_unlink (nx k) (pv k) _ _ head l1 b l2).
    + apply Hr.
    + apply NoDup_cons. split; [by eapply ring_head_notin|apply Hr].
    + by eapply ring_head_notin.
    + rewrite nx_set by lia. by rewrite decide_True.
    + rewrite pv_set by lia. case_decide as E.
      * unfold k1. rewrite E. unfold pv at 1. cbn. rewrite buf_at_set by done.
        rewrite <- E, decide_True by done. done.
      * unfold k1. rewrite pv_set by done. by rewrite decide_True.
    + intros i Hi. rewrite nx_set by lia. rewrite decide_False by done.
      unfold k1. rewrite nx_set by done. case_decide; [|done]. by subst.
    + intros i Hi. rewrite pv_set by lia. case_decide as E.
      * subst i. unfold k1. cbn. rewrite buf_at_set by done. by rewrite decide_False.
      * unfold k1. rewrite pv_set by done. by rewrite decide_False.
  - apply relinked_set; [|lia|done]. apply relinked_set; [apply relinked_refl|done|done].
Qed.

End relink.

(** The last two stores, once [b] points to the first buffer and to the
    head. *)
Lemma push_links k k2 l b :
  path (nx k) (pv k) head l head -> NoDup l -> head ∉ l -> b ∉ l -> b <> head ->
  (forall i, i ∈ head :: b :: l -> (i < length (bufs k2))%nat) ->
  (forall i, i <> b -> nx k2 i = nx k i /\ pv k2 i = pv k i) ->
  nx k2 b = nx k head -> pv k2 b = head ->
  let k' := set_buf head (set_b_next b) (set_buf (nx k2 head) (set_b_prev b) k2) in
  path (nx k') (pv k') head (b :: l) head /\ relinked k2 k'.
Proof.
  intros Hp Hnd Hh Hbl Hbh Hbd Hk2 Hk2n Hk2p.
  assert (head < length (bufs k2))%nat as B1 by (apply Hbd; left).
  assert (nx k head < length (bufs k2) /\ nx k head <> b)%nat as [B3 N3].
  { destruct l as [|x l]; cbn [path] in Hp; destruct Hp as [-> _]; [done|].
    split; [apply Hbd; right; right; left|]. intros ->. apply Hbl. left. }
  assert (nx k2 head = nx k head) as -> by (by apply Hk2).
  set (k3 := set_buf (nx k head) _ k2).
  assert (length (bufs k3) = length (bufs k2)) as L3 by (unfold k3; by rewrite length_set_buf).
  assert (forall i, nx k3 i = nx k2 i) as Hn3.
  { intros i. unfold k3. rewrite nx_set by lia. case_decide; [by subst|done]. }
  assert (forall i, pv k3 i = if decide (i = nx k head) then b else pv k2 i) as Hp3.
  { intros i. unfold k3. rewrite pv_set by lia. case_decide; [by subst|done]. }
  assert (forall i, nx (set_buf head (set_b_next b) k3) i = if decide (i = head) then b else nx k3 i) as Hn4.
  { intros i. rewrite nx_set by lia. by case_decide. }
  assert (forall i, pv (set_buf head (set_b_next b) k3) i = pv k3 i) as Hp4.
  { intros i. rewrite pv_set by lia. case_decide; [by subst|done]. }
  split.
  - apply (path_push (nx k) (pv k)); try done.
    + by apply NoDup_cons.
    + by intros [?|?]%elem_of_cons.
    + by rewrite Hn4, decide_False, Hn3.
    + by rewrite Hp4, Hp3, decide_False.
    + by rewrite Hp4, Hp3, decide_True.
    + intros i H1 H2. rewrite Hn4, decide_False, Hn3 by done. by apply Hk2.
    + intros i H1 H2. rewrite Hp4, Hp3, decide_False by done. by apply Hk2.
  - apply relinked_set; [|lia|done]. apply relinked_set; [apply relinked_refl|lia|done].
Qed.

(** The first two. *)
Lemma point_links k b : (b < length (bufs k))%nat ->
  let k2 := set_buf b (set_b_prev head) (set_buf b (set_b_next (nx k head)) k) in
  (forall i, i <> b -> buf_at k2 i = buf_at k i) /\ nx k2 b = nx k head /\ pv k2 b = head /\
  relinked k k2.
Proof.
  intros Hb k2. set (k1 := set_buf b (set_b_next (nx k head)) k) in k2.
  assert (b < length (bufs k1))%nat as Hb1 by (unfold k1; by rewrite length_set_buf).
  split_and!.
  - intros i Hi. unfold k2. rewrite buf_at_set, decide_False by done.
    unfold k1. by rewrite buf_at_set, decide_False by done.
  - unfold k2, nx. rewrite !buf_at_set, decide_True by done.
    unfold k1. by rewrite buf_at_set, decide_True by done.
  - unfold k2, pv. by rewrite !buf_at_set, decide_True by done.
  - apply relinked_set; [|done|done]. apply relinked_set; [apply relinked_refl|done|done].
Qed.

Lemma relinked_trans k1 k2 k3 : relinked k1 k2 -> relinked k2 k3 -> relinked k1 k3.
Proof.
  intros [A1 A2 A3] [C1 C2 C3]. split; [congruence| |].
  - intros i. by rewrite C2.
  - rewrite C3, A3. done.
Qed.

Lemma push_front_path k l b :
  path (nx k) (pv k) head l head -> NoDup l -> head ∉ l -> b ∉ l -> b <> head ->
  (forall i, i ∈ head :: b :: l -> (i < length (bufs k))%nat) ->
  path (nx (push_front b k)) (pv (push_front b k)) head (b :: l) head /\
  relinked k (push_front b k).
Proof.
  intros Hp Hnd Hh Hbl Hbh Hbd. destruct (point_links k b) as (H1 & H2 & H3 & H4).
  { apply Hbd. right. left. }
  unfold push_front. set (k2 := set_buf b (set_b_prev head) _) in *.
  destruct (push_links k k2 l b) as [H5 H6]; try done.
  - intros i Hi. rewrite (rl_len _ _ H4). by apply Hbd.
  - intros i Hi. unfold nx, pv. by rewrite H1.
  - split; [done|by eapply relinked_trans].
Qed.

(** [brelse] moves the buffer to the front of the list. *)
Lemma relink_ring k l1 l2 b :
  ring k (l1 ++ b :: l2) ->
  ring (push_front b (unlink b k)) (b :: l1 ++ l2) /\ relinked k (push_front b (unlink b k)).
Proof.
  intros Hr. destruct (unlink_path k l1 l2 b Hr) as [Hp Hl].
  pose proof (ring_head_notin _ _ Hr) as Hh. pose proof (rg_nodup _ _ Hr) as Hnd.
  apply NoDup_app in Hnd as (N1 & N2 & N3). apply NoDup_cons in N3 as [N3 N4].
  assert (b ∉ l1 ++ l2) as Hb by (intros [Hb|Hb]%elem_of_app; [apply (N2 b Hb); left|done]).
  destruct (push_front_path (unlink b k) (l1 ++ l2) b) as [Hp' Hl']; [done|..].
  - apply NoDup_app. split_and!; [done| |done]. intros x Hx Hx2. apply (N2 x Hx). by right.
  - set_solver.
  - done.
  - intros ->. set_solver.
  - intros i Hi. rewrite (rl_len _ _ Hl). apply (ring_bound k _ _ Hr). set_solver.
  - split.
    + split; [done| | |].
      * apply NoDup_cons. split; [done|]. apply NoDup_app. split_and!; [done| |done].
        intros x Hx Hx2. apply (N2 x Hx). by right.
      * intros x. rewrite <- (rg_all _ _ Hr). set_solver.
      * rewrite (rl_len _ _ Hl'), (rl_len _ _ Hl). apply Hr.
    + by eapply relinked_trans.
Qed.
