(* ===== verification/BioCache.v ===== *)
(** * The buffer cache as a cache

    [bget], [brelse], [bread] and [bwrite] on the list of [BioList]: which
    buffer is chosen, and what the cache says about the contents of the disk. *)

From S2P Require Import Prelude Defs State Logic Spinlock Sched Sleeplock Bio BioList.

Definition is_block (dev blockno : Z) (x : buf) : bool :=
  (b_dev x =? dev) && (b_blockno x =? blockno).
Definition unused (x : buf) : bool := b_refcnt x =? 0.

(** The buffer [b] was locked by the running process. *)
Definition locked_by (pid : Z) (x : buf) : buf :=
  set_b_lock (mk_sleeplock 1 (sl_name (b_lock x)) pid) x.

Lemma get_sl_buf b k : (b < length (bufs k))%nat -> get_sl (L_buf b) k = b_lock (buf_at k b).
Proof.
  intros Hb. unfold get_sl, buf_at, bufs in *.
  destruct (lookup_lt_is_Some_2 _ _ Hb) as [x Hx]. by rewrite Hx.
Qed.

Lemma put_sl_buf b s k : put_sl (L_buf b) s k = set_buf b (set_b_lock s) k.
Proof. done. Qed.

Lemma set_buf_compose b f g k : set_buf b g (set_buf b f k) = set_buf b (fun x => g (f x)) k.
Proof. unfold set_buf, bufs. kproj. by rewrite alter_alter. Qed.

Lemma set_buf_ext b f g k :
  (b < length (bufs k))%nat -> f (buf_at k b) = g (buf_at k b) -> set_buf b f k = set_buf b g k.
Proof.
  intros Hb H. unfold set_buf, buf_at, bufs in *. f_equal. f_equal.
  destruct (lookup_lt_is_Some_2 _ _ Hb) as [x Hx]. rewrite Hx in H. simpl in H.
  by apply (alter_ext_at _ _ _ _ x).
Qed.

Section rules.
Context {tn : turn}.

Lemma upd_buf_rule b f (Q : unit -> kernel -> Prop) k :
  Q tt (set_buf b f k) -> wp tn (upd_buf b f) Q k.
Proof. apply wp_modify. Qed.

(** The end of [bget]: the buffer has been chosen and changed by [f]. *)
Lemma bget_end_rule b f (Q : nat -> kernel -> Prop) k k1 :
  calm (k_sy k) -> (b < NBUF)%nat -> length (bufs k) = S NBUF ->
  (forall x, b_lock (f x) = b_lock x) -> sl_locked (b_lock (buf_at k b)) = 0 ->
  k1 = set_buf b f (set_sy (sy_acquire L_bcache (k_sy k)) k) ->
  (forall s', quiet (k_sy k) s' ->
     Q b (set_sy s' (set_buf b (fun x => locked_by (run_pid (k_sy k)) (f x)) k))) ->
  wp tn (release L_bcache ;; acquiresleep (L_buf b) ;; ret b) Q k1.
Proof.
  intros Hc Hb Hlen Hf Hsl -> HQ.
  assert (L_bcache ∈ static_locks) as Hlb by (right; right; left).
  assert (b < length (bufs k))%nat as Hb1 by lia.
  apply wp_bind, (wp_release _ (k_sy k)); [eauto with kern..|reflexivity|].
  intros s1 Hq1 Hp1. set (k2 := set_sy s1 _).
  assert (b < length (bufs k2))%nat as Hb2 by (unfold k2; change (b < length (bufs (set_buf b f k)))%nat; by rewrite length_set_buf).
  assert (buf_at k2 b = f (buf_at k b)) as E2.
  { change (buf_at (set_buf b f k) b = f (buf_at k b)). by rewrite buf_at_set, decide_True by done. }
  assert (calm (k_sy k2)) as Hc2 by (unfold k2; eauto with kern).
  apply wp_bind, (wp_acquiresleep (L_buf b) (run_pid (k_sy k2))).
  - done.
  - eauto with kern.
  - apply Hc2, L_buf_static. done.
  - by apply calm_pid.
  - by rewrite get_sl_buf, E2, Hf by done.
  - intros s' Hq'. apply wp_ret. rewrite get_sl_buf, E2, Hf, put_sl_buf by done.
    assert (run_pid (k_sy k2) = run_pid (k_sy k)) as -> by (by apply quiet_run_pid).
    set (g := set_b_lock _).
    change (set_sy s' (set_buf b g k2)) with (set_sy s' (set_buf b g (set_buf b f k))).
    rewrite set_buf_compose.
    rewrite (set_buf_ext b _ (fun x => locked_by (run_pid (k_sy k)) (f x))); [|done|].
    + apply HQ. etransitivity; [exact Hq1|exact Hq'].
    + unfold locked_by, g. by rewrite Hf.
Qed.

Lemma bget_hit_rule l b dev blockno (Q : nat -> kernel -> Prop) k :
  calm (k_sy k) -> ring k l ->
  find (fun b => is_block dev blockno (buf_at k b)) l = Some b ->
  sl_locked (b_lock (buf_at k b)) = 0 ->
  (forall s', quiet (k_sy k) s' ->
     Q b (set_sy s' (set_buf b (fun x => locked_by (run_pid (k_sy k))
                                  (set_b_refcnt (u32 (b_refcnt x + 1)) x)) k))) ->
  wp tn (bget dev blockno) Q k.
Proof.
  intros Hc Hr Hf Hsl HQ. assert (L_bcache ∈ static_locks) as Hlb by (right; right; left).
  unfold bget. apply wp_bind, wp_acquire; [eauto with kern|]. apply wp_bind, wp_gets.
  apply wp_bind, (scan_next_rule _ l); [by apply (ring_ext k)|].
  change (find _ l) with (find (fun b => is_block dev blockno (buf_at k b)) l). rewrite Hf.
  apply wp_bind, upd_buf_rule.
  apply (bget_end_rule b (fun x => set_b_refcnt (u32 (b_refcnt x + 1)) x) Q k); try done.
  - apply (rg_all _ _ Hr). by apply find_some in Hf as [Hf%list_elem_of_In _].
  - apply Hr.
Qed.

Definition recycle (dev blockno : Z) (x : buf) : buf :=
  set_b_refcnt 1 (set_b_valid 0 (set_b_blockno blockno (set_b_dev dev x))).

Lemma bget_miss_rule l b dev blockno (Q : nat -> kernel -> Prop) k :
  calm (k_sy k) -> ring k l ->
  find (fun b => is_block dev blockno (buf_at k b)) l = None ->
  find (fun b => unused (buf_at k b)) (reverse l) = Some b ->
  sl_locked (b_lock (buf_at k b)) = 0 ->
  (forall s', quiet (k_sy k) s' ->
     Q b (set_sy s' (set_buf b (fun x => locked_by (run_pid (k_sy k)) (recycle dev blockno x)) k))) ->
  wp tn (bget dev blockno) Q k.
Proof.
  intros Hc Hr Hn Hf Hsl HQ. assert (L_bcache ∈ static_locks) as Hlb by (right; right; left).
  unfold bget. apply wp_bind, wp_acquire; [eauto with kern|]. apply wp_bind, wp_gets.
  apply wp_bind, (scan_next_rule _ l); [by apply (ring_ext k)|].
  change (find _ l) with (find (fun b => is_block dev blockno (buf_at k b)) l). rewrite Hn.
  apply wp_bind, wp_gets. apply wp_bind, (scan_prev_rule _ l); [by apply (ring_ext k)|].
  change (find _ (reverse l)) with (find (fun b => unused (buf_at k b)) (reverse l)). rewrite Hf.
  do 4 apply wp_bind, upd_buf_rule. rewrite !set_buf_compose.
  apply (bget_end_rule b (recycle dev blockno) Q k); try done.
  - apply (rg_all _ _ Hr). apply find_some in Hf as [Hf%list_elem_of_In _].
    by rewrite elem_of_reverse in Hf.
  - apply Hr.
Qed.

Definition unlock (x : buf) : buf := set_b_lock (mk_sleeplock 0 (sl_name (b_lock x)) 0) x.
Definition unref (x : buf) : buf := set_b_refcnt (u32 (b_refcnt x - 1)) x.

Definition brelse_end (b : nat) (k : kernel) : kernel :=
  let k1 := set_buf b (fun x => unref (unlock x)) k in
  if b_refcnt (buf_at k1 b) =? 0 then push_front b (unlink b k1) else k1.

Definition held (pid : Z) (x : buf) : Prop :=
  sl_locked (b_lock x) = 1 /\ sl_pid (b_lock x) = pid.

Lemma holding_buf_rule b (Q : bool -> kernel -> Prop) k :
  calm (k_sy k) -> (b < NBUF)%nat -> length (bufs k) = S NBUF ->
  held (run_pid (k_sy k)) (buf_at k b) ->
  (forall s', quiet (k_sy k) s' -> Q true (set_sy s' k)) ->
  wp tn (holdingsleep (L_buf b)) Q k.
Proof.
  intros Hc Hb Hlen [H1 H2] HQ. assert (b < length (bufs k))%nat as Hb1 by lia.
  apply (wp_holdingsleep (L_buf b) (run_pid (k_sy k))); [done|eauto with kern| |by apply calm_pid|].
  - apply Hc, L_buf_static. done.
  - intros s' Hq. rewrite get_sl_buf, H1, H2 by done. rewrite Z.eqb_refl. by apply HQ.
Qed.

Lemma brelse_rule b (Q : unit -> kernel -> Prop) k :
  calm (k_sy k) -> (b < NBUF)%nat -> length (bufs k) = S NBUF ->
  held (run_pid (k_sy k)) (buf_at k b) ->
  (forall s', quiet (k_sy k) s' -> Q tt (set_sy s' (brelse_end b k))) ->
  wp tn (brelse b) Q k.
Proof.
  intros Hc Hb Hlen Hh HQ. assert (b < length (bufs k))%nat as Hb1 by lia.
  assert (L_bcache ∈ static_locks) as Hlb by (right; right; left).
  unfold brelse. apply wp_bind, holding_buf_rule; [done..|]. intros s1 Hq1. simpl.
  set (k1 := set_sy s1 k). assert (calm (k_sy k1)) as Hc1 by (unfold k1; eauto with kern).
  apply wp_bind, (wp_releasesleep (L_buf b)); [done|eauto with kern| |by apply calm_procs_free|].
  { by apply Hc1, L_buf_static. }
  intros s2 Hq2. rewrite get_sl_buf, put_sl_buf, (set_buf_ext b _ unlock) by done.
  assert (quiet (k_sy k) s2) as Hqq by (etransitivity; [exact Hq1|exact Hq2]).
  apply wp_bind, wp_acquire; [apply (quiet_lock_free (k_sy k)); eauto with kern|].
  apply wp_bind, upd_buf_rule, wp_bind, wp_gets. kproj.
  set (kk := set_buf b (fun x => unref (unlock x)) k).
  assert (forall f, set_buf b f (set_sy (sy_acquire L_bcache s2) (set_sy s2 (set_buf b unlock k1))) =
    set_sy (sy_acquire L_bcache s2) (set_buf b f (set_buf b unlock k))) as -> by done.
  rewrite set_buf_compose. unfold brelse_end in HQ. fold kk in HQ.
  change (set_buf b (fun x => set_b_refcnt (u32 (b_refcnt (unlock x) - 1)) (unlock x)) k) with kk.
  assert (sync_ok s2) by (apply (quiet_sync_ok (k_sy k)); eauto with kern).
  assert (lock_free s2 L_bcache) by (apply (quiet_lock_free (k_sy k)); eauto with kern).
  change (buf_at (set_sy (sy_acquire L_bcache s2) kk) b) with (buf_at kk b).
  apply wp_bind, wp_when; intros E; rewrite E in HQ.
  - apply wp_bind, upd_buf_rule, wp_bind, wp_gets, wp_bind, upd_buf_rule, wp_bind, wp_gets.
    apply wp_bind, upd_buf_rule, wp_bind, upd_buf_rule, wp_bind, wp_gets.
    apply wp_bind, upd_buf_rule, upd_buf_rule.
    apply (wp_release _ s2); [done..|reflexivity|]. intros s3 Hq3 _.
    apply (HQ s3). by etransitivity.
  - apply (wp_release _ s2); [done..|reflexivity|]. intros s3 Hq3 _.
    apply (HQ s3). by etransitivity.
Qed.

Lemma refcnt_rule b f (Q : unit -> kernel -> Prop) k :
  sync_ok (k_sy k) -> lock_free (k_sy k) L_bcache ->
  (forall s', quiet (k_sy k) s' -> Q tt (set_sy s' (set_buf b f k))) ->
  wp tn (acquire L_bcache ;; upd_buf b f ;; release L_bcache) Q k.
Proof.
  intros Hok Hfree HQ.
  apply wp_bind, wp_acquire; [eauto with kern|]. apply wp_bind, upd_buf_rule.
  apply (wp_release _ (k_sy k)); [eauto with kern..|reflexivity|]. intros s' Hq _. by apply HQ.
Qed.

End rules.

(** ** What the cache promises about the disk *)

(** The contents of block [n] of the disk. *)
Definition dblk (d : disk) (n : Z) : list Z :=
  default (repeat 0 (Z.to_nat BSIZE)) (dk_blocks d !! n).
Definition the_disk (k : kernel) : disk := fs_disk (k_fs k).
Definition put_disk (d : disk) (k : kernel) : kernel := set_fs (set_disk d (k_fs k)) k.
Definition disk_write (n : Z) (data : list Z) (d : disk) : disk :=
  mk_disk (<[n := data]> (dk_blocks d)) ((n, data) :: dk_hist d).
Definition put_vd (v : vdisk) (k : kernel) : kernel := set_ms (set_vd v (k_ms k)) k.

(** The contract of the driver: with the thread calm and no transfer in
    progress, [disk_rw] returns after some turns of the device; it has read
    the block into the buffer, or written the buffer to the block, and the
    driver is idle again. *)
Class DiskLaw (D : DiskDriver) := {
  disk_turn : turn;
  disk_idle : vdisk -> Prop;
  disk_read_law b (Q : unit -> kernel -> Prop) k :
    calm (k_sy k) -> disk_idle (ms_vd (k_ms k)) -> (b < NBUF)%nat -> length (bufs k) = S NBUF ->
    b_disk (buf_at k b) = 0 -> 0 <= b_blockno (buf_at k b) < FSSIZE ->
    (forall s' v', quiet (k_sy k) s' -> disk_idle v' ->
       Q tt (set_sy s' (put_vd v' (set_buf b (set_b_data
                (dblk (the_disk k) (b_blockno (buf_at k b)))) k)))) ->
    wp disk_turn (disk_rw b false) Q k;
  disk_write_law b (Q : unit -> kernel -> Prop) k :
    calm (k_sy k) -> disk_idle (ms_vd (k_ms k)) -> (b < NBUF)%nat -> length (bufs k) = S NBUF ->
    b_disk (buf_at k b) = 0 -> 0 <= b_blockno (buf_at k b) < FSSIZE ->
    (forall s' v', quiet (k_sy k) s' -> disk_idle v' ->
       Q tt (set_sy s' (put_vd v' (put_disk (disk_write (b_blockno (buf_at k b))
                (b_data (buf_at k b)) (the_disk k)) k)))) ->
    wp disk_turn (disk_rw b true) Q k }.

Section cache.
Context {D : DiskDriver} {DL : DiskLaw D}.

Definition pin (P : gmap Z Z) (n : Z) : Z := default 0 (P !! n).

Definition caches (x : buf) (n : Z) : Prop := b_dev x = ROOTDEV /\ b_blockno x = n.

(** One buffer: [H] says which buffers the thread holds, and for which block,
    [P] how many more references the log has to the buffer of a block. *)
Definition buf_ok (pid : Z) (h : option Z) (P : gmap Z Z) (x : buf) : Prop :=
  b_disk x = 0 /\ length (b_data x) = Z.to_nat BSIZE /\
  (b_dev x = ROOTDEV -> 0 <= b_blockno x < FSSIZE) /\
  match h with
  | Some n => caches x n /\ b_valid x <> 0 /\ held pid x /\ b_refcnt x = u32 (1 + pin P n)
  | None => sl_locked (b_lock x) = 0 /\
      b_refcnt x = if b_dev x =? ROOTDEV then u32 (pin P (b_blockno x)) else 0
  end.

Record bio_ok (k : kernel) (H : gmap nat Z) (P : gmap Z Z) : Prop := {
  bo_ring : exists l, ring k l;
  bo_idle : disk_idle (ms_vd (k_ms k));
  bo_disk n : length (dblk (the_disk k) n) = Z.to_nat BSIZE;
  bo_buf b : (b < NBUF)%nat -> buf_ok (run_pid (k_sy k)) (H !! b) P (buf_at k b);
  bo_held b n : H !! b = Some n -> (b < NBUF)%nat;
  bo_uniq b b' n : (b < NBUF)%nat -> (b' < NBUF)%nat ->
    caches (buf_at k b) n -> caches (buf_at k b') n -> b = b';
  bo_pin n : pin P n <> 0 ->
    exists b, (b < NBUF)%nat /\ caches (buf_at k b) n /\ b_valid (buf_at k b) <> 0;
  bo_range n : -1 <= pin P n <= 1;
  bo_clean b n : (b < NBUF)%nat -> caches (buf_at k b) n -> b_valid (buf_at k b) <> 0 ->
    H !! b = None -> pin P n = 0 -> b_data (buf_at k b) = dblk (the_disk k) n }.

(** The contents of block [n] as the kernel sees it. *)
Definition has_block (n : Z) (x : buf) : bool :=
  is_block ROOTDEV n x && c_true (b_valid x).
Definition view (k : kernel) (n : Z) : list Z :=
  match find (fun b => has_block n (buf_at k b)) (seq 0 NBUF) with
  | Some b => b_data (buf_at k b)
  | None => dblk (the_disk k) n
  end.

Lemma has_block_true n x : has_block n x = true <-> caches x n /\ b_valid x <> 0.
Proof.
  unfold has_block, is_block, caches, c_true.
  rewrite !andb_true_iff, negb_true_iff, !Z.eqb_eq, Z.eqb_neq. tauto.
Qed.

Lemma view_buf k H P b n :
  bio_ok k H P -> (b < NBUF)%nat -> caches (buf_at k b) n -> b_valid (buf_at k b) <> 0 ->
  view k n = b_data (buf_at k b).
Proof.
  intros Hb Hlt Hc Hv. unfold view. destruct (find _ _) as [b'|] eqn:E.
  - apply find_some in E as [E1%list_elem_of_In%elem_of_seq E2].
    apply has_block_true in E2 as [E2 _].
    by rewrite (bo_uniq _ _ _ Hb b' b n) by (done || lia).
  - assert (has_block n (buf_at k b) = false) as Hf.
    { apply (find_none _ _ E). apply list_elem_of_In, elem_of_seq. lia. }
    rewrite (proj2 (has_block_true n _)) in Hf; done.
Qed.

Lemma view_disk k n :
  (forall b, (b < NBUF)%nat -> caches (buf_at k b) n -> b_valid (buf_at k b) = 0) ->
  view k n = dblk (the_disk k) n.
Proof.
  intros Hn. unfold view. destruct (find _ _) as [b|] eqn:E; [|done].
  apply find_some in E as [E1%list_elem_of_In%elem_of_seq E2].
  apply has_block_true in E2 as [E2 E3]. destruct E3. apply Hn; [lia|done].
Qed.

Lemma view_cases k H P n : bio_ok k H P ->
  (exists b, (b < NBUF)%nat /\ caches (buf_at k b) n /\ b_valid (buf_at k b) <> 0 /\
     view k n = b_data (buf_at k b)) \/
  ((forall b, (b < NBUF)%nat -> caches (buf_at k b) n -> b_valid (buf_at k b) = 0) /\
     view k n = dblk (the_disk k) n).
Proof.
  intros Hb. unfold view. destruct (find _ _) as [b|] eqn:E.
  - left. apply find_some in E as [E1%list_elem_of_In%elem_of_seq E2].
    apply has_block_true in E2 as [E2 E3]. exists b. split_and!; auto. lia.
  - right. split; [|done]. intros b Hlt Hc.
    destruct (Z.eq_dec (b_valid (buf_at k b)) 0) as [|Hv]; [done|].
    assert (has_block n (buf_at k b) = false) as Hf.
    { apply (find_none _ _ E). apply list_elem_of_In, elem_of_seq. lia. }
    rewrite (proj2 (has_block_true n _)) in Hf; done.
Qed.

Lemma view_length k H P n :
  bio_ok k H P -> length (view k n) = Z.to_nat BSIZE.
Proof.
  intros Hb. destruct (view_cases k H P n Hb) as [(b & Hlt & _ & _ & ->)|[_ ->]]; [|apply Hb].
  by apply (bo_buf _ _ _ Hb b).
Qed.

(** A block that is neither held nor pinned is on the disk. *)
Lemma view_clean k P n :
  bio_ok k ∅ P -> pin P n = 0 -> view k n = dblk (the_disk k) n.
Proof.
  intros Hb Hp. destruct (view_cases k ∅ P n Hb) as [(b & Hlt & Hc & Hv & ->)|[_ E]]; [|done].
  by apply (bo_clean _ _ _ Hb).
Qed.

(** What the operations of the cache leave alone. *)
Record bio_frame (k k' : kernel) : Prop := {
  bf_quiet : quiet (k_sy k) (k_sy k');
  bf_mm : k_mm k' = k_mm k;
  bf_fi : k_fi k' = k_fi k;
  bf_ms : set_vd (ms_vd (k_ms k)) (k_ms k') = k_ms k;
  bf_log : fs_log (k_fs k') = fs_log (k_fs k);
  bf_sb : fs_sb (k_fs k') = fs_sb (k_fs k);
  bf_icache : fs_icache (k_fs k') = fs_icache (k_fs k) }.

#[export] Instance bio_frame_preorder : PreOrder bio_frame.
Proof.
  split.
  - intros k. by split.
  - intros k1 k2 k3 [] []. split; try congruence; [by etransitivity|].
    rewrite <- bf_ms0. rewrite <- bf_ms1. done.
Qed.

Lemma bio_frame_calm k k' : bio_frame k k' -> calm (k_sy k) -> calm (k_sy k').
Proof. intros []. by apply quiet_calm. Qed.

(** Buffer [b] becomes [y]; the others and the disk stay. *)
Record one_buf (k k' : kernel) (b : nat) (y : buf) : Prop := {
  ob_at i : (i < NBUF)%nat -> buf_at k' i = if decide (i = b) then y else buf_at k i;
  ob_ring : exists l, ring k' l;
  ob_idle : disk_idle (ms_vd (k_ms k'));
  ob_frame : bio_frame k k' }.

Lemma u32_small x : 0 <= x < 2 ^ 32 -> u32 x = x.
Proof. apply Z.mod_small. Qed.

Lemma refcnt_zero P p : -1 <= pin P p <= 1 -> u32 (pin P p) = 0 -> pin P p = 0.
Proof.
  intros Hr. unfold u32. intros E.
  destruct (Z.eq_dec (pin P p) (-1)) as [Ep|]; [rewrite Ep in E; done|].
  rewrite Z.mod_small in E; lia.
Qed.

Lemma caches_fun x n m : caches x n -> caches x m -> n = m.
Proof. intros [_ <-] [_ <-]. done. Qed.

(** An unused buffer that caches a block caches it clean. *)
Lemma unused_clean k H P b m :
  bio_ok k H P -> (b < NBUF)%nat -> H !! b = None -> b_refcnt (buf_at k b) = 0 ->
  caches (buf_at k b) m ->
  pin P m = 0 /\ (b_valid (buf_at k b) <> 0 -> view k m = dblk (the_disk k) m).
Proof.
  intros Hb Hlt Hh H0 Hc. assert (pin P m = 0) as Hp.
  { destruct (bo_buf _ _ _ Hb b Hlt) as (_ & _ & _ & Ho). rewrite Hh in Ho.
    destruct Ho as [_ Ho]. destruct Hc as [E1 E2]. rewrite H0, E1, E2, Z.eqb_refl in Ho.
    apply refcnt_zero; [apply Hb|done]. }
  split; [done|]. intros Hv. rewrite (view_buf k H P b m) by done. by apply (bo_clean _ _ _ Hb).
Qed.

Section bread_ok.
Context (k k' : kernel) (H : gmap nat Z) (P : gmap Z Z) (b : nat) (n : Z) (y : buf).
Hypothesis Hb : bio_ok k H P.
Hypothesis Hone : one_buf k k' b y.
Hypothesis Hdisk : the_disk k' = the_disk k.
Hypothesis Hlt : (b < NBUF)%nat.
Hypothesis Hfree : H !! b = None.
Hypothesis Hn : 0 <= n < FSSIZE.
Hypothesis Hc : caches y n.
Hypothesis Hv : b_valid y <> 0.
Hypothesis Hdata : b_data y = view k n.
Hypothesis Hlen : length (b_data y) = Z.to_nat BSIZE.
Hypothesis Hheld : held (run_pid (k_sy k)) y.
Hypothesis Href : b_refcnt y = u32 (1 + pin P n).
Hypothesis Hbd : b_disk y = 0.
Hypothesis Hcase : caches (buf_at k b) n \/
  (b_refcnt (buf_at k b) = 0 /\ forall i, (i < NBUF)%nat -> ~ caches (buf_at k i) n).

Let at_b : buf_at k' b = y.
Proof. rewrite (ob_at _ _ _ _ Hone), decide_True; done. Qed.
Let at_other i : (i < NBUF)%nat -> i <> b -> buf_at k' i = buf_at k i.
Proof. intros Hi Hne. by rewrite (ob_at _ _ _ _ Hone), decide_False. Qed.

Lemma bread_uniq i j m : (i < NBUF)%nat -> (j < NBUF)%nat ->
  caches (buf_at k' i) m -> caches (buf_at k' j) m -> i = j.
Proof.
  assert (forall j, (j < NBUF)%nat -> j <> b -> ~ caches (buf_at k j) n) as Hno.
  { intros j' Hj' Hne Hcj. destruct Hcase as [Hcb|[_ Hall]]; [|by eapply Hall].
    apply Hne. by apply (bo_uniq _ _ _ Hb j' b n). }
  intros Hi Hj. destruct (decide (i = b)) as [->|Hib], (decide (j = b)) as [->|Hjb]; try done.
  - rewrite at_b, at_other by done. intros E1 E2. rewrite (caches_fun _ _ _ E1 Hc) in E2.
    by destruct (Hno j).
  - rewrite at_b, at_other by done. intros E1 E2. rewrite (caches_fun _ _ _ E2 Hc) in E1.
    by destruct (Hno i).
  - rewrite !at_other by done. by apply (bo_uniq _ _ _ Hb).
Qed.

Lemma bread_bio_ok : bio_ok k' (<[b := n]> H) P.
Proof.
  split.
  - apply Hone.
  - apply Hone.
  - rewrite Hdisk. apply Hb.
  - intros i Hi. rewrite (quiet_run_pid _ _ (bf_quiet _ _ (ob_frame _ _ _ _ Hone))).
    destruct (decide (i = b)) as [->|Hne].
    + rewrite at_b, lookup_insert_eq. split_and!; try done. intros _. by destruct Hc as [_ ->].
    + rewrite at_other, lookup_insert_ne by done. by apply Hb.
  - intros i m Hi. destruct (decide (i = b)) as [->|Hne]; [done|].
    rewrite lookup_insert_ne in Hi by done. by eapply bo_held.
  - apply bread_uniq.
  - intros m Hm. destruct (bo_pin _ _ _ Hb m Hm) as (i & Hi & Hci & Hvi).
    destruct (decide (i = b)) as [->|Hne]; [|exists i; by rewrite at_other].
    destruct Hcase as [Hcb|[H0 _]].
    + exists b. rewrite at_b. rewrite (caches_fun _ _ _ Hci Hcb). done.
    + destruct (unused_clean k H P b m) as [E _]; done.
  - apply Hb.
  - intros i m Hi Hci Hvi Hh Hp. destruct (decide (i = b)) as [->|Hne].
    + by rewrite lookup_insert_eq in Hh.
    + rewrite at_other in * by done. rewrite lookup_insert_ne in Hh by done. rewrite Hdisk.
      by apply (bo_clean _ _ _ Hb).
Qed.

Lemma bread_view m : view k' m = view k m.
Proof.
  pose proof bread_bio_ok as Hb'.
  assert (view k' n = view k n) as En.
  { rewrite (view_buf k' _ P b n Hb'), at_b; rewrite ?at_b; done. }
  destruct (decide (m = n)) as [->|Hmn]; [done|].
  destruct (view_cases k H P m Hb) as [(i & Hi & Hci & Hvi & Ei)|[Hno Ei]].
  - destruct (decide (i = b)) as [->|Hne].
    + destruct Hcase as [Hcb|[H0 _]]; [by destruct Hmn; eapply caches_fun|].
      destruct (unused_clean k H P b m) as [_ Ecl]; try done. rewrite Ecl by done.
      rewrite view_disk; [by rewrite Hdisk|]. intros j Hj Hcj.
      destruct (decide (j = b)) as [->|Hjb].
      * rewrite at_b in Hcj. destruct Hmn. by eapply caches_fun.
      * rewrite at_other in Hcj by done. destruct Hjb. by apply (bo_uniq _ _ _ Hb j b m).
    + rewrite (view_buf k' _ P i m Hb'), at_other; rewrite ?at_other; done.
  - rewrite Ei, view_disk; [by rewrite Hdisk|]. intros j Hj Hcj.
    destruct (decide (j = b)) as [->|Hjb].
    + rewrite at_b in Hcj. destruct Hmn. by eapply caches_fun.
    + rewrite at_other in * by done. by apply Hno.
Qed.

End bread_ok.

Lemma one_buf_set k H P s v b f :
  bio_ok k H P -> (b < NBUF)%nat -> quiet (k_sy k) s -> disk_idle v ->
  b_next (f (buf_at k b)) = b_next (buf_at k b) -> b_prev (f (buf_at k b)) = b_prev (buf_at k b) ->
  one_buf k (set_sy s (put_vd v (set_buf b f k))) b (f (buf_at k b)).
Proof.
  intros Hb Hlt Hq Hv Hn Hp. destruct (bo_ring _ _ _ Hb) as [l Hr].
  assert (b < length (bufs k))%nat as Hl by (rewrite (rg_len _ _ Hr); lia).
  assert (forall i, buf_at (set_sy s (put_vd v (set_buf b f k))) i =
    if decide (i = b) then f (buf_at k b) else buf_at k i) as Hat
    by (intros i; by apply buf_at_set).
  split; [auto| |done|by split].
  exists l. eapply (ring_ext k); [done|apply length_set_buf|].
  intros i. unfold nx, pv. rewrite Hat. case_decide; [subst; auto|done].
Qed.

(** A change to a buffer the thread holds. *)
Section held_set.
Context (k k' : kernel) (H H' : gmap nat Z) (P P' : gmap Z Z) (b : nat) (n : Z) (y : buf).
Hypothesis Hb : bio_ok k H P.
Hypothesis Hone : one_buf k k' b y.
Hypothesis Hh : H !! b = Some n.
Hypothesis Hh' : forall i, i <> b -> H' !! i = H !! i.
Hypothesis Hy : buf_ok (run_pid (k_sy k)) (H' !! b) P' y.
Hypothesis Hc : caches y n.
Hypothesis Hv : b_valid y <> 0.
Hypothesis Hp : forall m, m <> n -> pin P' m = pin P m.
Hypothesis Hpn : -1 <= pin P' n <= 1.
Hypothesis Hd : forall m, m <> n -> dblk (the_disk k') m = dblk (the_disk k) m.
Hypothesis Hdn : length (dblk (the_disk k') n) = Z.to_nat BSIZE.
Hypothesis Hclean : H' !! b = None -> pin P' n = 0 -> b_data y = dblk (the_disk k') n.

Let Hlt : (b < NBUF)%nat.
Proof. by eapply bo_held. Qed.
Let at_b : buf_at k' b = y.
Proof. rewrite (ob_at _ _ _ _ Hone), decide_True; done. Qed.
Let at_other i : (i < NBUF)%nat -> i <> b -> buf_at k' i = buf_at k i.
Proof. intros Hi Hne. by rewrite (ob_at _ _ _ _ Hone), decide_False. Qed.
Let Hcb : caches (buf_at k b) n /\ b_valid (buf_at k b) <> 0.
Proof. destruct (bo_buf _ _ _ Hb b Hlt) as (_ & _ & _ & Ho). rewrite Hh in Ho. tauto. Qed.
Let Hother i m : (i < NBUF)%nat -> i <> b -> caches (buf_at k i) m -> m <> n.
Proof. intros Hi Hne Hci ->. apply Hne. apply (bo_uniq _ _ _ Hb i b n); tauto. Qed.

Lemma held_set_ok : bio_ok k' H' P'.
Proof.
  split.
  - apply Hone.
  - apply Hone.
  - intros m. destruct (decide (m = n)) as [->|Hm]; [done|]. rewrite Hd by done. apply Hb.
  - intros i Hi. rewrite (quiet_run_pid _ _ (bf_quiet _ _ (ob_frame _ _ _ _ Hone))).
    destruct (decide (i = b)) as [->|Hne]; [by rewrite at_b|].
    rewrite at_other, Hh' by done. destruct (bo_buf _ _ _ Hb i Hi) as (B1 & B2 & B3 & B4).
    split_and!; try done. destruct (H !! i) as [m|].
    + rewrite Hp; [done|]. apply (Hother i); tauto.
    + destruct B4 as [B4 B5]. split; [done|]. rewrite B5. destruct (Z.eqb_spec (b_dev (buf_at k i)) ROOTDEV); [|done].
      rewrite Hp; [done|]. by apply (Hother i).
  - intros i m Hi. destruct (decide (i = b)) as [->|Hne]; [done|].
    rewrite Hh' in Hi by done. by eapply bo_held.
  - intros i j m Hi Hj.
    destruct (decide (i = b)) as [->|Hib], (decide (j = b)) as [->|Hjb]; rewrite ?at_b, ?at_other by done.
    + done.
    + intros E1 E2. rewrite (caches_fun _ _ _ E1 Hc) in E2. by destruct (Hother j n).
    + intros E1 E2. rewrite (caches_fun _ _ _ E2 Hc) in E1. by destruct (Hother i n).
    + by apply (bo_uniq _ _ _ Hb).
  - intros m Hm. destruct (decide (m = n)) as [->|Hmn]; [exists b; by rewrite at_b|].
    rewrite Hp in Hm by done. destruct (bo_pin _ _ _ Hb m Hm) as (i & Hi & Hci & Hvi).
    exists i. rewrite at_other; [done..|]. intros ->. destruct Hmn.
    apply (caches_fun (buf_at k b)); [done|apply Hcb].
  - intros m. destruct (decide (m = n)) as [->|Hm]; [done|]. rewrite Hp by done. apply Hb.
  - intros i m Hi Hci Hvi Hhi Hpm. destruct (decide (i = b)) as [->|Hne].
    + rewrite at_b in *. rewrite (caches_fun _ _ _ Hci Hc) in *. auto.
    + rewrite at_other in * by done. rewrite Hh' in Hhi by done.
      assert (m <> n) as Hmn by (by apply (Hother i)). rewrite Hd by done.
      apply (bo_clean _ _ _ Hb i m); try done. by rewrite <- Hp.
Qed.

Lemma held_set_view m : view k' m = if decide (m = n) then b_data y else view k m.
Proof.
  pose proof held_set_ok as Hb'. case_decide as E.
  - subst m. rewrite (view_buf k' _ _ b n Hb'), at_b; rewrite ?at_b; done.
  - destruct (view_cases k H P m Hb) as [(i & Hi & Hci & Hvi & ->)|[Hno ->]].
    + assert (i <> b) by (intros ->; apply E; apply (caches_fun (buf_at k b)); [done|apply Hcb]).
      rewrite (view_buf k' _ _ i m Hb'), at_other; rewrite ?at_other; done.
    + rewrite view_disk; [by apply Hd|]. intros j Hj Hcj. destruct (decide (j = b)) as [->|Hjb].
      * rewrite at_b in Hcj. destruct E. by apply (caches_fun y).
      * rewrite at_other in * by done. by apply Hno.
Qed.

End held_set.

Section rules.

Lemma bread_tail_rule b f n H P s (Q : nat -> kernel -> Prop) k :
  calm (k_sy k) -> bio_ok k H P -> (b < NBUF)%nat -> H !! b = None -> 0 <= n < FSSIZE ->
  quiet (k_sy k) s ->
  let x := buf_at k b in
  b_next (f x) = b_next x -> b_prev (f x) = b_prev x -> b_data (f x) = b_data x ->
  b_disk (f x) = b_disk x -> caches (f x) n -> held (run_pid (k_sy k)) (f x) ->
  b_refcnt (f x) = u32 (1 + pin P n) ->
  (b_valid (f x) <> 0 -> b_data x = view k n) ->
  (b_valid (f x) = 0 -> view k n = dblk (the_disk k) n) ->
  (caches x n \/ (b_refcnt x = 0 /\ forall i, (i < NBUF)%nat -> ~ caches (buf_at k i) n)) ->
  (forall k', bio_frame k k' -> bio_ok k' (<[b := n]> H) P -> the_disk k' = the_disk k ->
     (forall m, view k' m = view k m) -> Q b k') ->
  wp disk_turn (let* x := get_buf b in
         when (negb (c_true (b_valid x))) (disk_rw b false ;; upd_buf b (set_b_valid 1)) ;;
         ret b) Q (set_sy s (set_buf b f k)).
Proof.
  intros Hc Hb Hlt Hh Hn Hq x Hnx Hpv Hda Hdi Hca Hhe Hre Hv1 Hv0 Hcase HQ.
  destruct (bo_ring _ _ _ Hb) as [l Hr]. pose proof (rg_len _ _ Hr) as Hlen.
  assert (buf_at (set_sy s (set_buf b f k)) b = f x) as Ex
    by (rewrite buf_at_set_sy, buf_at_set, decide_True by (done || lia); done).
  destruct (bo_buf _ _ _ Hb b Hlt) as (Hd0 & Hbl & _).
  apply wp_bind, wp_gets. rewrite Ex. unfold c_true. rewrite negb_involutive.
  apply wp_bind, wp_when; intros Hv; [rewrite Z.eqb_eq in Hv|rewrite Z.eqb_neq in Hv].
  - apply wp_bind, disk_read_law; rewrite ?Ex; try done.
    + by eapply quiet_calm.
    + apply (bo_idle _ _ _ Hb).
    + change (length (bufs (set_buf b f k)) = S NBUF). by rewrite length_set_buf.
    + unfold x in *. congruence.
    + by rewrite (proj2 Hca).
    + intros s' v' Hq' Hi'. apply upd_buf_rule, wp_ret. rewrite (proj2 Hca).
      set (g := fun z => set_b_valid 1 (set_b_data (dblk (the_disk k) n) (f z))).
      assert (set_buf b (set_b_valid 1) (set_sy s' (put_vd v' (set_buf b
        (set_b_data (dblk (the_disk (set_sy s (set_buf b f k))) n)) (set_sy s (set_buf b f k))))) =
        set_sy s' (put_vd v' (set_buf b g k))) as ->.
      { change (set_sy s' (put_vd v' (set_buf b (set_b_valid 1) (set_buf b
          (set_b_data (dblk (the_disk k) n)) (set_buf b f k)))) = set_sy s' (put_vd v' (set_buf b g k))).
        by rewrite !set_buf_compose. }
      assert (one_buf k (set_sy s' (put_vd v' (set_buf b g k))) b (g x)) as Hone.
      { apply (one_buf_set k H P); try done. etransitivity; [exact Hq|exact Hq']. }
      apply HQ; [apply Hone| |done|].
      * apply (bread_bio_ok k _ H P b n (g x)); try done; [apply Hb|].
        unfold x in *. simpl. congruence.
      * apply (bread_view k _ H P b n (g x)); try done; [by rewrite Hv0|apply Hb|].
        unfold x in *. simpl. congruence.
  - apply wp_ret.
    assert (one_buf k (set_sy s (put_vd (ms_vd (k_ms k)) (set_buf b f k))) b (f x)) as Hone.
    { apply (one_buf_set k H P); try done. apply Hb. }
    change (set_sy s (set_buf b f k)) with (set_sy s (put_vd (ms_vd (k_ms k)) (set_buf b f k))).
    apply HQ; [apply Hone| |done|].
    + apply (bread_bio_ok k _ H P b n (f x)); try done; unfold x in *; congruence.
    + apply (bread_view k _ H P b n (f x)); try done; unfold x in *; rewrite ?Hda; auto; congruence.
Qed.

(** [bread] returns the buffer of the block, locked, with the contents the
    kernel has for it. *)
Lemma bread_rule n H P (Q : nat -> kernel -> Prop) k :
  calm (k_sy k) -> bio_ok k H P -> 0 <= n < FSSIZE ->
  (forall b m, H !! b = Some m -> m <> n /\ 0 <= pin P m) ->
  (exists b, (b < NBUF)%nat /\ (caches (buf_at k b) n \/ b_refcnt (buf_at k b) = 0)) ->
  (forall b k', (b < NBUF)%nat -> H !! b = None -> bio_frame k k' ->
     bio_ok k' (<[b := n]> H) P -> the_disk k' = the_disk k ->
     (forall m, view k' m = view k m) -> Q b k') ->
  wp disk_turn (bread ROOTDEV n) Q k.
Proof.
  intros Hc Hb Hn Hheld Hex HQ. destruct (bo_ring _ _ _ Hb) as [l Hr].
  assert (forall b, b ∈ l -> (b < NBUF)%nat) as Hl by (intros b; apply (rg_all _ _ Hr)).
  assert (forall b, (b < NBUF)%nat -> is_block ROOTDEV n (buf_at k b) = true <-> caches (buf_at k b) n) as Hib.
  { intros b _. unfold is_block, caches. by rewrite andb_true_iff, !Z.eqb_eq. }
  unfold bread. apply wp_bind.
  destruct (find (fun b => is_block ROOTDEV n (buf_at k b)) l) as [b|] eqn:Ef.
  - pose proof Ef as [Hin Hca]%find_some. apply list_elem_of_In, Hl in Hin. apply Hib in Hca; [|done].
    destruct (bo_buf _ _ _ Hb b Hin) as (B1 & B2 & B3 & B4).
    destruct (H !! b) as [m|] eqn:Eh.
    { destruct (Hheld b m Eh) as [Hne _]. destruct Hne. by eapply caches_fun; [apply B4|]. }
    destruct B4 as [Hsl Href].
    apply (bget_hit_rule l b); [done..|]. intros s' Hq.
    apply (bread_tail_rule b _ n H P); simpl; try done; [|intros Hv; symmetry; by eapply view_buf| |auto|eauto].
    + rewrite Href, (proj1 Hca), (proj2 Hca), Z.eqb_refl. unfold u32. rewrite Zplus_mod_idemp_l. f_equal. lia.
    + intros Hv. apply view_disk. intros i Hi Hci. by rewrite (bo_uniq _ _ _ Hb i b n).
  - assert (forall i, (i < NBUF)%nat -> ~ caches (buf_at k i) n) as Hno.
    { intros i Hi Hci. apply Hib in Hci; [|done].
      rewrite (find_none _ _ Ef i) in Hci; [done|]. apply list_elem_of_In. by apply (rg_all _ _ Hr). }
    destruct (find (fun b => unused (buf_at k b)) (reverse l)) as [b|] eqn:Eu.
    2:{ destruct Hex as (i & Hi & [Hci|H0]); [by destruct (Hno i)|].
        pose proof (find_none _ _ Eu i) as Hf. unfold unused in Hf. rewrite H0 in Hf.
        discriminate Hf. apply list_elem_of_In, elem_of_reverse. by apply (rg_all _ _ Hr). }
    pose proof Eu as [Hin Hun]%find_some. apply list_elem_of_In, elem_of_reverse, Hl in Hin.
    unfold unused in Hun. rewrite Z.eqb_eq in Hun.
    destruct (bo_buf _ _ _ Hb b Hin) as (B1 & B2 & B3 & B4).
    destruct (H !! b) as [m|] eqn:Eh.
    { destruct (Hheld b m Eh) as [_ Hp]. destruct B4 as (_ & _ & _ & B4). rewrite Hun in B4.
      pose proof (bo_range _ _ _ Hb m). rewrite u32_small in B4 by lia. lia. }
    assert (pin P n = 0) as Hpn.
    { destruct (Z.eq_dec (pin P n) 0) as [|Hp]; [done|].
      destruct (bo_pin _ _ _ Hb n Hp) as (i & Hi & Hci & _). by destruct (Hno i). }
    apply (bget_miss_rule l b); [done..|by destruct B4|]. intros s' Hq.
    apply (bread_tail_rule b _ n H P); simpl; try done; [by rewrite Hpn| |auto|eauto].
    intros _. apply view_disk. intros i Hi Hci. by destruct (Hno i).
Qed.

Lemma held_buf k H P b n :
  bio_ok k H P -> H !! b = Some n ->
  (b < NBUF)%nat /\ 0 <= n < FSSIZE /\ length (bufs k) = S NBUF /\
  let x := buf_at k b in
  b_disk x = 0 /\ length (b_data x) = Z.to_nat BSIZE /\ caches x n /\ b_valid x <> 0 /\
  held (run_pid (k_sy k)) x /\ b_refcnt x = u32 (1 + pin P n) /\ b_data x = view k n.
Proof.
  intros Hb Hh. assert (b < NBUF)%nat as Hlt by (by eapply bo_held).
  destruct (bo_buf _ _ _ Hb b Hlt) as (B1 & B2 & B3 & B4). rewrite Hh in B4.
  destruct B4 as (C1 & C2 & C3 & C4). destruct (bo_ring _ _ _ Hb) as [l Hr].
  cbv zeta. split_and!; try done; try apply C1; try apply C3.
  - by rewrite <- (proj2 C1); apply B3, C1.
  - by rewrite <- (proj2 C1); apply B3, C1.
  - apply Hr.
  - symmetry. by eapply view_buf.
Qed.

(** Storing into the data of a held buffer. *)
Lemma set_data_ok k H P b n d :
  bio_ok k H P -> H !! b = Some n -> length d = Z.to_nat BSIZE ->
  let k' := set_buf b (set_b_data d) k in
  bio_ok k' H P /\ bio_frame k k' /\ the_disk k' = the_disk k /\
  (forall m, view k' m = if decide (m = n) then d else view k m).
Proof.
  intros Hb Hh Hd k'.
  destruct (held_buf k H P b n Hb Hh) as (Hlt & Hn & Hl & H1 & H2 & H3 & H4 & H5 & H6 & _).
  assert (one_buf k k' b (set_b_data d (buf_at k b))) as Hone.
  { apply (one_buf_set k H P (k_sy k) (ms_vd (k_ms k)) b (set_b_data d)); try done. apply Hb. }
  assert (buf_ok (run_pid (k_sy k)) (H !! b) P (set_b_data d (buf_at k b))) as Hy.
  { rewrite Hh. destruct H3 as [E1 E2]. split_and!; try done; simpl; try congruence. }
  split_and!.
  - apply (held_set_ok k k' H H P P b n (set_b_data d (buf_at k b))); try done; try apply Hb.
    intros E. by rewrite Hh in E.
  - apply Hone.
  - done.
  - apply (held_set_view k k' H H P P b n (set_b_data d (buf_at k b))); try done; try apply Hb.
    intros E. by rewrite Hh in E.
Qed.

(** Editing the data of a held buffer, [f] from the old contents. *)
Lemma edit_rule b n H P (f : list Z -> list Z) (Q : unit -> kernel -> Prop) k :
  bio_ok k H P -> H !! b = Some n -> length (f (view k n)) = Z.to_nat BSIZE ->
  (forall k', bio_frame k k' -> bio_ok k' H P -> the_disk k' = the_disk k ->
     (forall m, view k' m = if decide (m = n) then f (view k n) else view k m) -> Q tt k') ->
  wp disk_turn (upd_buf b (fun x => set_b_data (f (b_data x)) x)) Q k.
Proof.
  intros Hb Hh Hl HQ. destruct (held_buf k H P b n Hb Hh) as (Hlt & _ & Hlen & _ & _ & _ & _ & _ & _ & E).
  destruct (set_data_ok k H P b n (f (view k n))) as (H1 & H2 & H3 & H4); [done..|].
  apply upd_buf_rule.
  replace (set_buf b _ k) with (set_buf b (set_b_data (f (view k n))) k); [by apply HQ|].
  apply set_buf_ext; [lia|]. by rewrite E.
Qed.

Lemma bwrite_rule b n H P (Q : unit -> kernel -> Prop) k :
  calm (k_sy k) -> bio_ok k H P -> H !! b = Some n ->
  (forall k', bio_frame k k' -> bio_ok k' H P ->
     the_disk k' = disk_write n (view k n) (the_disk k) ->
     (forall m, view k' m = view k m) -> Q tt k') ->
  wp disk_turn (bwrite b) Q k.
Proof.
  intros Hc Hb Hh HQ.
  destruct (held_buf k H P b n Hb Hh) as (Hlt & Hn & Hl & H1 & H2 & H3 & H4 & H5 & H6 & H7).
  unfold bwrite. apply wp_bind, holding_buf_rule; [done..|]. intros s1 Hq1. simpl.
  apply disk_write_law; try done; kproj.
  - by eapply quiet_calm.
  - apply (bo_idle _ _ _ Hb).
  - by rewrite buf_at_set_sy, (proj2 H3).
  - rewrite buf_at_set_sy, (proj2 H3), H7. intros s' v' Hq' Hi'.
    set (k' := set_sy s' _).
    assert (the_disk k' = disk_write n (view k n) (the_disk k)) as Hd by done.
    assert (one_buf k k' b (buf_at k b)) as Hone.
    { split; [intros i Hi; case_decide; [by subst|done]| |done|].
      - destruct (bo_ring _ _ _ Hb) as [l Hr]. exists l. by apply (ring_ext k).
      - split; try done. etransitivity; [exact Hq1|exact Hq']. }
    assert (forall m, dblk (the_disk k') m = if decide (m = n) then view k n else dblk (the_disk k) m) as Hdb.
    { intros m. rewrite Hd. unfold dblk, disk_write. kproj. case_decide as E.
      - subst. by rewrite lookup_insert_eq.
      - by rewrite lookup_insert_ne by done. }
    assert (bio_ok k' H P /\ forall m, view k' m = view k m) as [Hok Hview].
    { assert (buf_ok (run_pid (k_sy k)) (H !! b) P (buf_at k b)) as Hy by (by apply Hb).
      split.
      - apply (held_set_ok k k' H H P P b n (buf_at k b)); try done; try apply Hb.
        + intros m Hm. by rewrite Hdb, decide_False.
        + rewrite Hdb, decide_True by done. by rewrite <- H7.
        + intros E. by rewrite Hh in E.
      - intros m. rewrite (held_set_view k k' H H P P b n (buf_at k b)); try done; try apply Hb.
        + case_decide; [by subst|done].
        + intros m' Hm. by rewrite Hdb, decide_False.
        + rewrite Hdb, decide_True by done. by rewrite <- H7.
        + intros E. by rewrite Hh in E. }
    apply HQ; [apply Hone|done..].
Qed.

(** Relinking does not matter to the contents. *)
Lemma relink_ok k k' H P :
  bio_ok k H P -> relinked k k' -> (exists l, ring k' l) ->
  bio_ok k' H P /\ bio_frame k k' /\ the_disk k' = the_disk k /\ (forall m, view k' m = view k m).
Proof.
  intros Hb [_ Hcore Hrest] Hr.
  assert (forall {A} (g : buf -> A), (forall x, g (core x) = g x) ->
    forall i, g (buf_at k' i) = g (buf_at k i)) as Hg.
  { intros A g Hgc i. rewrite <- (Hgc (buf_at k' i)), <- (Hgc (buf_at k i)). by rewrite Hcore. }
  assert (k_sy k' = k_sy k) as Esy by (by rewrite Hrest).
  assert (the_disk k' = the_disk k) as Ed by (by rewrite Hrest).
  assert (forall i n, caches (buf_at k' i) n <-> caches (buf_at k i) n) as Hc.
  { intros i n. unfold caches. rewrite (Hg _ b_dev), (Hg _ b_blockno) by done. done. }
  assert (forall i, b_valid (buf_at k' i) = b_valid (buf_at k i)) as Hv by (by apply Hg).
  assert (forall i, b_data (buf_at k' i) = b_data (buf_at k i)) as Hda by (by apply Hg).
  split_and!.
  - split.
    + done.
    + rewrite Hrest. apply (bo_idle _ _ _ Hb).
    + rewrite Ed. apply Hb.
    + intros b Hlt. rewrite Esy. pose proof (bo_buf _ _ _ Hb b Hlt) as Ho. unfold buf_ok, held in *.
      rewrite Hda, (Hg _ b_disk), (Hg _ b_dev), (Hg _ b_blockno), (Hg _ b_lock), (Hg _ b_refcnt) by done.
      destruct (H !! b); [by rewrite Hc, Hv|done].
    + apply Hb.
    + intros b b' n H1 H2. rewrite !Hc. by apply (bo_uniq _ _ _ Hb).
    + intros n Hn. destruct (bo_pin _ _ _ Hb n Hn) as (b & H1 & H2 & H3). exists b.
      rewrite Hc, Hv. done.
    + apply Hb.
    + intros b n H1. rewrite Hc, Hv, Hda, Ed. by apply (bo_clean _ _ _ Hb).
  - rewrite Hrest. by split.
  - done.
  - intros m. unfold view. rewrite Ed.
    assert (forall b, has_block m (buf_at k' b) = has_block m (buf_at k b)) as Hh.
    { intros b. unfold has_block, is_block. rewrite Hv, (Hg _ b_dev), (Hg _ b_blockno) by done. done. }
    rewrite (find_ext _ (fun b => has_block m (buf_at k b)) _ Hh). destruct (find _ _); [apply Hda|done].
Qed.

Lemma brelse_cache_rule b n H P (Q : unit -> kernel -> Prop) k :
  calm (k_sy k) -> bio_ok k H P -> H !! b = Some n ->
  (pin P n = 0 -> view k n = dblk (the_disk k) n) ->
  (forall k', bio_frame k k' -> bio_ok k' (delete b H) P -> the_disk k' = the_disk k ->
     (forall m, view k' m = view k m) -> Q tt k') ->
  wp disk_turn (brelse b) Q k.
Proof.
  intros Hc Hb Hh Hcl HQ.
  destruct (held_buf k H P b n Hb Hh) as (Hlt & Hn & Hl & H1 & H2 & H3 & H4 & H5 & H6 & H7).
  apply brelse_rule; [done..|]. intros s' Hq.
  set (y := unref (unlock (buf_at k b))).
  set (k1 := set_sy s' (set_buf b (fun x => unref (unlock x)) k)).
  assert (one_buf k k1 b y) as Hone.
  { apply (one_buf_set k H P s' (ms_vd (k_ms k)) b (fun x => unref (unlock x))); try done. apply Hb. }
  assert (b_refcnt y = u32 (pin P n)) as Hry.
  { unfold y, unref. kproj. change (b_refcnt (unlock (buf_at k b))) with (b_refcnt (buf_at k b)).
    rewrite H6. unfold u32. rewrite Zminus_mod_idemp_l. f_equal. lia. }
  assert (buf_ok (run_pid (k_sy k)) (delete b H !! b) P y) as Hy.
  { rewrite lookup_delete_eq. destruct H3 as [E1 E2]. split_and!; try done.
    - intros _. by unfold y; simpl; rewrite E2.
    - rewrite Hry. unfold y. simpl. by rewrite E1, E2, Z.eqb_refl. }
  assert (bio_ok k1 (delete b H) P /\ forall m, view k1 m = view k m) as [Hb1 Hv1].
  { split.
    - apply (held_set_ok k k1 H (delete b H) P P b n y); try done; try apply Hb.
      + intros i Hi. by rewrite lookup_delete_ne.
      + intros _ Hp. change (b_data y) with (b_data (buf_at k b)). rewrite H7. by apply Hcl.
    - intros m. rewrite (held_set_view k k1 H (delete b H) P P b n y); try done; try apply Hb.
      + case_decide; [subst; exact H7|done].
      + intros i Hi. by rewrite lookup_delete_ne.
      + intros _ Hp. change (b_data y) with (b_data (buf_at k b)). rewrite H7. by apply Hcl. }
  unfold brelse_end. change (buf_at (set_buf b _ k) b) with (buf_at k1 b).
  destruct (b_refcnt (buf_at k1 b) =? 0).
  - destruct (ob_ring _ _ _ _ Hone) as [l Hr].
    assert (b ∈ l) as (l1 & l2 & ->)%list_elem_of_split by (by apply (rg_all _ _ Hr)).
    destruct (relink_ring k1 l1 l2 b Hr) as [Hr2 Hl2].
    destruct (relink_ok k1 (push_front b (unlink b k1)) (delete b H) P) as (Hb2 & Hf2 & Hd2 & Hv2);
      [done|done|by eexists|].
    change (Q tt (push_front b (unlink b k1))). apply HQ.
    + etransitivity; [apply Hone|done].
    + done.
    + by rewrite Hd2.
    + intros m. by rewrite Hv2.
  - apply (HQ k1); [apply Hone|done..].
Qed.

Lemma pin_insert P n v m : pin (<[n := v]> P) m = if decide (m = n) then v else pin P m.
Proof.
  unfold pin. case_decide as E; [subst; by rewrite lookup_insert_eq|].
  by rewrite lookup_insert_ne by done.
Qed.

(** [d] is 1 for [bpin] and -1 for [bunpin]. *)
Lemma repin_rule d b n H P (Q : unit -> kernel -> Prop) k :
  sync_ok (k_sy k) -> lock_free (k_sy k) L_bcache -> bio_ok k H P -> H !! b = Some n -> -1 <= pin P n + d <= 1 ->
  (forall k', bio_frame k k' -> bio_ok k' H (<[n := pin P n + d]> P) -> the_disk k' = the_disk k ->
     (forall m, view k' m = view k m) -> Q tt k') ->
  wp disk_turn (acquire L_bcache ;;
                upd_buf b (fun x => set_b_refcnt (u32 (b_refcnt x + d)) x) ;;
                release L_bcache) Q k.
Proof.
  intros Hok Hfree Hb Hh Hd HQ.
  destruct (held_buf k H P b n Hb Hh) as (Hlt & Hn & Hl & H1 & H2 & H3 & H4 & H5 & H6 & H7).
  apply refcnt_rule; [done|done|]. intros s' Hq. set (f := fun x => set_b_refcnt _ x).
  set (k' := set_sy s' (set_buf b f k)).
  assert (one_buf k k' b (f (buf_at k b))) as Hone.
  { apply (one_buf_set k H P s' (ms_vd (k_ms k)) b f); try done. apply Hb. }
  assert (buf_ok (run_pid (k_sy k)) (H !! b) (<[n := pin P n + d]> P) (f (buf_at k b))) as Hy.
  { rewrite Hh. destruct H3 as [E1 E2]. split_and!; try done; simpl; try congruence.
    rewrite pin_insert, decide_True, H6 by done. unfold u32. rewrite Zplus_mod_idemp_l. f_equal. lia. }
  assert (bio_ok k' H (<[n := pin P n + d]> P) /\ forall m, view k' m = view k m) as [Hb' Hv'].
  { split.
    - apply (held_set_ok k k' H H P (<[n := pin P n + d]> P) b n (f (buf_at k b))); try done; try apply Hb.
      + intros m Hm. by rewrite pin_insert, decide_False.
      + by rewrite pin_insert, decide_True.
      + intros E. by rewrite Hh in E.
    - intros m. rewrite (held_set_view k k' H H P (<[n := pin P n + d]> P) b n (f (buf_at k b)));
        try done; try apply Hb.
      + case_decide; [by subst|done].
      + intros m' Hm. by rewrite pin_insert, decide_False.
      + by rewrite pin_insert, decide_True.
      + intros E. by rewrite Hh in E. }
  apply HQ; [apply Hone|done..].
Qed.

(** As long as fewer blocks are held or pinned than there are buffers, some
    buffer is unused. *)
Lemma free_buffer k H P :
  bio_ok k H P -> (size H + size P < NBUF)%nat ->
  exists b, (b < NBUF)%nat /\ b_refcnt (buf_at k b) = 0.
Proof.
  intros Hb Hs. destruct (decide (Exists (fun b => b_refcnt (buf_at k b) = 0) (seq 0 NBUF))) as [He|He].
  { apply Exists_exists in He as (b & Hin%elem_of_seq & H0). exists b. split; [lia|done]. }
  exfalso. rewrite <- Forall_Exists_neg, Forall_forall in He.
  set (f := fun b => match H !! b with Some _ => inl b | None => inr (b_blockno (buf_at k b)) end).
  assert (forall b, (b < NBUF)%nat -> H !! b = None ->
    caches (buf_at k b) (b_blockno (buf_at k b)) /\ is_Some (P !! b_blockno (buf_at k b))) as Hbusy.
  { intros b Hlt Hn. destruct (bo_buf _ _ _ Hb b Hlt) as (_ & _ & _ & Ho). rewrite Hn in Ho.
    destruct Ho as [_ Ho]. assert (b_refcnt (buf_at k b) <> 0) as Hne by (apply He, elem_of_seq; lia).
    rewrite Ho in Hne. destruct (Z.eqb_spec (b_dev (buf_at k b)) ROOTDEV); [|done].
    split; [done|]. unfold pin in Hne. destruct (P !! b_blockno (buf_at k b)); [by eexists|done]. }
  assert (NoDup (f <$> seq 0 NBUF)) as Hnd.
  { apply NoDup_fmap_2_strong; [|apply NoDup_seq]. intros b b' Hb1%elem_of_seq Hb2%elem_of_seq. unfold f.
    destruct (H !! b) eqn:E1, (H !! b') eqn:E2; try done; [by intros [= ->]|]. intros [= E].
    destruct (Hbusy b) as [C1 _]; [lia|done|]. destruct (Hbusy b') as [C2 _]; [lia|done|].
    rewrite E in C1. by apply (bo_uniq _ _ _ Hb b b' (b_blockno (buf_at k b'))); [lia|lia|..]. }
  assert (f <$> seq 0 NBUF ⊆ (inl <$> elements (dom H)) ++ (inr <$> elements (dom P))) as Hsub.
  { intros z (b & -> & Hin%elem_of_seq)%list_elem_of_fmap. unfold f. apply elem_of_app.
    destruct (H !! b) eqn:E; [left|right]; apply list_elem_of_fmap.
    - exists b. split; [done|]. apply elem_of_elements. by apply elem_of_dom_2 in E.
    - exists (b_blockno (buf_at k b)). split; [done|]. apply elem_of_elements, elem_of_dom.
      apply Hbusy; [lia|done]. }
  apply NoDup_submseteq in Hsub; [|done]. apply submseteq_length in Hsub.
  rewrite length_app, !length_fmap, length_seq in Hsub.
  rewrite <- (size_dom H), <- (size_dom P) in Hs. unfold size, set_size in Hs. simpl in Hs. lia.
Qed.

End rules.

End cache.
