(* ===== verification/Virtio.v ===== *)
(** * [kernel/virtio_disk.c]: the disk driver

    The driver shares with the device a table of descriptors, the ring of
    requests made available and the ring of requests used; [struct disk] is
    the record [vdisk].  The address in a descriptor is symbolic: it names
    the request header, the data of a buffer or a status byte, so the
    translation of the header's stack address by [kvmpa] has no counterpart.
    Memory barriers order the accesses the model makes in order. *)

From S2P Require Import Prelude Defs State Logic Spinlock Sched Sleeplock Bio BioList BioCache.

(** ** Constants of [virtio.h] *)

Definition NUM : nat := 8.
Definition VIRTIO_MMIO_MAGIC_VALUE : Z := 0.
Definition VIRTIO_MMIO_VERSION : Z := 4.
Definition VIRTIO_MMIO_DEVICE_ID : Z := 8.
Definition VIRTIO_MMIO_VENDOR_ID : Z := 12.
Definition VIRTIO_MMIO_DEVICE_FEATURES : Z := 16.
Definition VIRTIO_MMIO_DRIVER_FEATURES : Z := 32.
Definition VIRTIO_MMIO_GUEST_PAGE_SIZE : Z := 40.
Definition VIRTIO_MMIO_QUEUE_SEL : Z := 48.
Definition VIRTIO_MMIO_QUEUE_NUM_MAX : Z := 52.
Definition VIRTIO_MMIO_QUEUE_NUM : Z := 56.
Definition VIRTIO_MMIO_QUEUE_PFN : Z := 64.
Definition VIRTIO_MMIO_QUEUE_NOTIFY : Z := 80.
Definition VIRTIO_MMIO_INTERRUPT_STATUS : Z := 96.
Definition VIRTIO_MMIO_INTERRUPT_ACK : Z := 100.
Definition VIRTIO_MMIO_STATUS : Z := 112.
Definition VIRTIO_CONFIG_S_ACKNOWLEDGE : Z := 1.
Definition VIRTIO_CONFIG_S_DRIVER : Z := 2.
Definition VIRTIO_CONFIG_S_DRIVER_OK : Z := 4.
Definition VIRTIO_CONFIG_S_FEATURES_OK : Z := 8.
Definition VIRTIO_BLK_F_RO : Z := 5.
Definition VIRTIO_BLK_F_SCSI : Z := 7.
Definition VIRTIO_BLK_F_CONFIG_WCE : Z := 11.
Definition VIRTIO_BLK_F_MQ : Z := 12.
Definition VIRTIO_F_ANY_LAYOUT : Z := 27.
Definition VIRTIO_RING_F_INDIRECT_DESC : Z := 28.
Definition VIRTIO_RING_F_EVENT_IDX : Z := 29.
Definition VRING_DESC_F_NEXT : Z := 1.
Definition VRING_DESC_F_WRITE : Z := 2.
Definition VIRTIO_BLK_T_IN : Z := 0.
Definition VIRTIO_BLK_T_OUT : Z := 1.

(** ** Access to the state *)

Definition the_vd (k : kernel) : vdisk := ms_vd (k_ms k).
Definition get_vd : M vdisk := gets the_vd.
Definition upd_vd (f : vdisk -> vdisk) : M unit := modify (fun k => put_vd (f (the_vd k)) k).

(** [*R(r)], read and written. *)
Definition read_reg (r : Z) : M Z := gets (fun k => default 0 (vk_regs (the_vd k) !! r)).
Definition write_reg (r v : Z) : M unit :=
  upd_vd (fun d => set_vk_writes ((r, u32 v) :: vk_writes d) (set_vk_regs (<[r := u32 v]> (vk_regs d)) d)).

Definition zero_desc : vring_desc := mk_desc D_null 0 0 0.
Definition desc_at (v : vdisk) (i : Z) : vring_desc := default zero_desc (vk_desc v !! Z.to_nat i).
Definition put_desc (i : Z) (x : vring_desc) (v : vdisk) : vdisk :=
  set_vk_desc (<[Z.to_nat i := x]> (vk_desc v)) v.
Definition put_free (i x : Z) (v : vdisk) : vdisk := set_vk_free (<[Z.to_nat i := x]> (vk_free v)) v.

(** ** Initialisation *)

Definition clear_bit (x n : Z) : Z := Z.ldiff x (2 ^ n).

Definition virtio_features (features : Z) : Z :=
  foldl clear_bit features
    [VIRTIO_BLK_F_RO; VIRTIO_BLK_F_SCSI; VIRTIO_BLK_F_CONFIG_WCE; VIRTIO_BLK_F_MQ;
     VIRTIO_F_ANY_LAYOUT; VIRTIO_RING_F_EVENT_IDX; VIRTIO_RING_F_INDIRECT_DESC].

(** [pages] is the address of [disk.pages], given by the linker. *)
Definition virtio_disk_init (pages : Z) : M unit :=
  initlock L_vdisk "virtio_disk" ;;
  let* magic := read_reg VIRTIO_MMIO_MAGIC_VALUE in
  let* version := read_reg VIRTIO_MMIO_VERSION in
  let* device := read_reg VIRTIO_MMIO_DEVICE_ID in
  let* vendor := read_reg VIRTIO_MMIO_VENDOR_ID in
  if negb (magic =? 1953655158) || negb (version =? 1) || negb (device =? 2) ||
     negb (vendor =? 1431127377)
  then panic "could not find virtio disk" else
  let status := VIRTIO_CONFIG_S_ACKNOWLEDGE in
  write_reg VIRTIO_MMIO_STATUS status ;;
  let status := Z.lor status VIRTIO_CONFIG_S_DRIVER in
  write_reg VIRTIO_MMIO_STATUS status ;;
  let* features := read_reg VIRTIO_MMIO_DEVICE_FEATURES in
  write_reg VIRTIO_MMIO_DRIVER_FEATURES (virtio_features features) ;;
  let status := Z.lor status VIRTIO_CONFIG_S_FEATURES_OK in
  write_reg VIRTIO_MMIO_STATUS status ;;
  let status := Z.lor status VIRTIO_CONFIG_S_DRIVER_OK in
  write_reg VIRTIO_MMIO_STATUS status ;;
  write_reg VIRTIO_MMIO_GUEST_PAGE_SIZE PGSIZE ;;
  write_reg VIRTIO_MMIO_QUEUE_SEL 0 ;;
  let* max := read_reg VIRTIO_MMIO_QUEUE_NUM_MAX in
  if max =? 0 then panic "virtio disk has no queue 0" else
  if max <? Z.of_nat NUM then panic "virtio disk max queue too short" else
  write_reg VIRTIO_MMIO_QUEUE_NUM (Z.of_nat NUM) ;;
  upd_vd (fun v => mk_vdisk (repeat zero_desc NUM) 0 (repeat 0 NUM) 0 (repeat 0 NUM)
    (vk_free v) (vk_used_idx v) (vk_info_b v) (vk_info_status v) (vk_regs v) (vk_writes v)) ;;
  write_reg VIRTIO_MMIO_QUEUE_PFN (Z.shiftr pages PGSHIFT) ;;
  for_all (seq 0 NUM) (fun i => upd_vd (put_free (Z.of_nat i) 1)).

(** ** Descriptors *)

Definition alloc_desc : M Z :=
  let* r := for_each (seq 0 NUM) (fun i =>
    let* v := get_vd in
    if c_true (default 0 (vk_free v !! i)) then
      upd_vd (put_free (Z.of_nat i) 0) ;; ret (Some (Z.of_nat i))
    else ret None) in
  ret (default (-1) r).

Definition free_desc (i : Z) : M unit :=
  if i >=? Z.of_nat NUM then panic "virtio_disk_intr 1" else
  let* v := get_vd in
  if c_true (default 0 (vk_free v !! Z.to_nat i)) then panic "virtio_disk_intr 2" else
  upd_vd (fun v => let x := desc_at v i in
    put_desc i (mk_desc D_null (vd_len x) (vd_flags x) (vd_next x)) v) ;;
  upd_vd (put_free i 1) ;;
  wakeup C_disk_free.

(** A descriptor is freed at most once, so a chain has at most [NUM] of them. *)
Definition free_chain (i : Z) : M unit :=
  loop (S NUM) (fun i =>
    free_desc i ;;
    let* v := get_vd in
    if c_true (Z.land (vd_flags (desc_at v i)) VRING_DESC_F_NEXT)
    then ret (inl (vd_next (desc_at v i)))
    else ret (inr tt)) i.

(** The indices [idx[0 .. i-1]] allocated so far, in order. *)
Fixpoint alloc3_loop (n : nat) (idx : list Z) : M (option (list Z)) :=
  match n with
  | O => ret (Some idx)
  | S n =>
      let* i := alloc_desc in
      if i <? 0 then for_all idx free_desc ;; ret None
      else alloc3_loop n (idx ++ [i])
  end.
Definition alloc3_desc : M (option (list Z)) := alloc3_loop 3 [].

(** ** Requests *)

Definition idx_at (idx : list Z) (i : nat) : Z := default 0 (idx !! i).

Definition virtio_disk_rw (b : nat) (write : bool) : M unit :=
  let* x := get_buf b in
  let sector := u32 (b_blockno x * (BSIZE / 512)) in
  acquire L_vdisk ;;
  let* idx := wait_loop (fun _ : unit =>
    let* r := alloc3_desc in
    match r with
    | Some idx => ret (inr idx)
    | None => sleep C_disk_free L_vdisk ;; ret (inl tt)
    end) tt in
  let idx0 := idx_at idx 0 in
  let idx1 := idx_at idx 1 in
  let idx2 := idx_at idx 2 in
  let type := if write then VIRTIO_BLK_T_OUT else VIRTIO_BLK_T_IN in
  upd_vd (put_desc idx0 (mk_desc (D_hdr type sector) 16 VRING_DESC_F_NEXT idx1)) ;;
  upd_vd (put_desc idx1 (mk_desc (D_data b) BSIZE
    (Z.lor (if write then 0 else VRING_DESC_F_WRITE) VRING_DESC_F_NEXT) idx2)) ;;
  upd_vd (fun v => set_vk_info_status (<[Z.to_nat idx0 := 0]> (vk_info_status v)) v) ;;
  upd_vd (put_desc idx2 (mk_desc (D_status (Z.to_nat idx0)) 1 VRING_DESC_F_WRITE 0)) ;;
  upd_buf b (set_b_disk 1) ;;
  upd_vd (fun v => set_vk_info_b (<[Z.to_nat idx0 := Some b]> (vk_info_b v)) v) ;;
  upd_vd (fun v => set_vk_avail
    (<[Z.to_nat (vk_avail_idx v mod Z.of_nat NUM) := idx0]> (vk_avail v)) v) ;;
  upd_vd (fun v => set_vk_avail_idx (u16 (vk_avail_idx v + 1)) v) ;;
  write_reg VIRTIO_MMIO_QUEUE_NOTIFY 0 ;;
  wait_loop (fun _ : unit =>
    let* x := get_buf b in
    if b_disk x =? 1 then sleep (C_buf b) L_vdisk ;; ret (inl tt)
    else ret (inr tt)) tt ;;
  upd_vd (fun v => set_vk_info_b (<[Z.to_nat idx0 := None]> (vk_info_b v)) v) ;;
  free_chain idx0 ;;
  release L_vdisk.

(** Each iteration moves [used_idx] one step towards [used->id] modulo [NUM]. *)
Definition virtio_disk_intr : M unit :=
  acquire L_vdisk ;;
  loop (S NUM) (fun _ : unit =>
    let* v := get_vd in
    if vk_used_idx v mod Z.of_nat NUM =? vk_used_id v mod Z.of_nat NUM then ret (inr tt) else
    let id := default 0 (vk_used_elems v !! Z.to_nat (vk_used_idx v)) in
    if negb (default 0 (vk_info_status v !! Z.to_nat id) =? 0)
    then panic "virtio_disk_intr status" else
    let* b := deref (mjoin (vk_info_b v !! Z.to_nat id)) in
    upd_buf b (set_b_disk 0) ;;
    wakeup (C_buf b) ;;
    upd_vd (fun v => set_vk_used_idx ((vk_used_idx v + 1) mod Z.of_nat NUM) v) ;;
    ret (inl tt)) tt ;;
  let* st := read_reg VIRTIO_MMIO_INTERRUPT_STATUS in
  write_reg VIRTIO_MMIO_INTERRUPT_ACK (Z.land st 3) ;;
  release L_vdisk.
