(* ===== verification/VirtioSpec.v ===== *)
(** * The disk driver and its device keep the contract of the buffer cache

    The device is a parameter: [vio_step] takes the shared rings, the buffers
    and the disk to what they are once it has served the request made
    available last.  [VirtioLaw] is what the virtio specification says of a
    block request.  With any such device [virtio_disk_rw] is an instance of
    [DiskLaw]: it transfers the block and leaves the driver idle. *)

From S2P Require Import Prelude Defs State Logic Spinlock Sched Sleeplock Bio BioList BioCache Virtio.

(** ** The device *)

Class VirtioDevice := vio_step : vdisk -> list buf -> disk -> vdisk * list buf * disk.

(** The request whose first descriptor is [head]: its type, first sector,
    buffer and status byte. *)
Definition vio_request (v : vdisk) (head : Z) : option (Z * Z * nat * nat) :=
  let d0 := desc_at v head in
  let d1 := desc_at v (vd_next d0) in
  let d2 := desc_at v (vd_next d1) in
  match vd_addr d0, vd_addr d1, vd_addr d2 with
  | D_hdr type sector, D_data b, D_status i =>
      if ((type =? VIRTIO_BLK_T_IN) || (type =? VIRTIO_BLK_T_OUT)) &&
         (vd_flags d0 =? VRING_DESC_F_NEXT) &&
         (vd_flags d1 =? Z.lor (if type =? VIRTIO_BLK_T_IN then VRING_DESC_F_WRITE else 0)
                               VRING_DESC_F_NEXT) &&
         (vd_len d1 =? BSIZE) && (vd_flags d2 =? VRING_DESC_F_WRITE) && (vd_len d2 =? 1)
      then Some (type, sector, b, i) else None
  | _, _, _ => None
  end.

(** The rings after the request has been used. *)
Definition vio_done (v : vdisk) (head : Z) (i : nat) : vdisk :=
  set_vk_used_id (u16 (vk_used_id v + 1))
    (set_vk_used_elems (<[Z.to_nat (vk_used_id v mod Z.of_nat NUM) := head]> (vk_used_elems v))
       (set_vk_info_status (<[i := 0]> (vk_info_status v)) v)).

Class VirtioLaw (V : VirtioDevice) := {
  vio_completes v bs d head type n b i :
    vk_avail_idx v = u16 (vk_used_id v + 1) ->
    vk_avail v !! Z.to_nat (vk_used_id v mod Z.of_nat NUM) = Some head ->
    vio_request v head = Some (type, n * (BSIZE / 512), b, i) ->
    vio_step v bs d =
      (vio_done v head i,
       if type =? VIRTIO_BLK_T_IN then alter (set_b_data (dblk d n)) b bs else bs,
       if type =? VIRTIO_BLK_T_IN then d
       else disk_write n (b_data (default zero_buf (bs !! b))) d) }.

(** A device that serves one request per step. *)
Definition sample_device : VirtioDevice := fun v bs d =>
  if vk_avail_idx v =? vk_used_id v then (v, bs, d) else
  match vk_avail v !! Z.to_nat (vk_used_id v mod Z.of_nat NUM) with
  | None => (v, bs, d)
  | Some head =>
      match vio_request v head with
      | None => (v, bs, d)
      | Some (type, sector, b, i) =>
          let n := sector / (BSIZE / 512) in
          (vio_done v head i,
           if type =? VIRTIO_BLK_T_IN then alter (set_b_data (dblk d n)) b bs else bs,
           if type =? VIRTIO_BLK_T_IN then d
           else disk_write n (b_data (default zero_buf (bs !! b))) d)
      end
  end.

Lemma u16_succ x : u16 (x + 1) <> x.
Proof.
  unfold u16. intros E. assert (0 <= x < 2 ^ 16) as Hx.
  { rewrite <- E. apply Z.mod_pos_bound. lia. }
  destruct (Z.eq_dec x (2 ^ 16 - 1)) as [->|Hne]; [vm_compute in E; lia|].
  rewrite Z.mod_small in E by lia. lia.
Qed.

#[export] Instance sample_device_law : VirtioLaw sample_device.
Proof.
  split. intros v bs d head type n b i Hav Hh Hr. unfold vio_step, sample_device.
  rewrite Hav. destruct (Z.eqb_spec (u16 (vk_used_id v + 1)) (vk_used_id v)) as [E|_].
  { by apply u16_succ in E. }
  rewrite Hh, Hr. replace (n * (BSIZE / 512) / (BSIZE / 512)) with n; [done|].
  change (BSIZE / 512) with 2. by rewrite Z.div_mul.
Qed.

Section spec.
Context {V : VirtioDevice} {VL : VirtioLaw V}.

Definition put_bufs (l : list buf) (k : kernel) : kernel := set_fs (set_bcache l (k_fs k)) k.

Definition device_complete (k : kernel) : kernel :=
  let '(v, bs, d) := vio_step (the_vd k) (bufs k) (the_disk k) in
  put_vd v (put_disk d (put_bufs bs k)).

(** The turn of the rest of the system while the process waits for the disk:
    the scheduler finishes its step and looks for work with interrupts on, the
    device serves the request and interrupts, the handler runs with
    interrupts off, and the scheduler takes the process up again. *)
Definition resume_turn : M unit :=
  let* p := gets (fun k => c_proc (sy_cpu (k_sy k))) in
  match p with
  | None => ret tt
  | Some p =>
      set_cproc None ;;
      release (L_proc p) ;;
      intr_on ;;
      modify device_complete ;;
      intr_off ;;
      virtio_disk_intr ;;
      intr_on ;;
      acquire (L_proc p) ;;
      let* pr := get_proc p in
      when (bool_decide (p_state pr = RUNNABLE))
        (upd_proc p (set_p_state RUNNING) ;; set_cproc (Some p))
  end.

Definition device_turn (k : kernel) : kernel :=
  match resume_turn [] k with
  | Ret _ _ k' => k'
  | _ => k
  end.

Definition virtio_turn : turn := fun f => f = device_turn.

Ltac change_vd v := match goal with |- context [the_vd ?k] => change (the_vd k) with v end.

(** ** The interrupt handler *)

Definition reg_write (r x : Z) (v : vdisk) : vdisk :=
  set_vk_writes ((r, u32 x) :: vk_writes v) (set_vk_regs (<[r := u32 x]> (vk_regs v)) v).

Definition handled (v : vdisk) : vdisk :=
  let v1 := set_vk_used_idx ((vk_used_idx v + 1) mod Z.of_nat NUM) v in
  reg_write VIRTIO_MMIO_INTERRUPT_ACK
    (Z.land (default 0 (vk_regs v !! VIRTIO_MMIO_INTERRUPT_STATUS)) 3) v1.

Lemma intr_rule {T} b (hd : Z) (Q : unit -> kernel -> Prop) k :
  let v := the_vd k in
  sync_ok (k_sy k) -> lock_free (k_sy k) L_vdisk -> procs_free (k_sy k) ->
  0 <= vk_used_idx v < 8 -> (vk_used_id v) mod 8 = (vk_used_idx v + 1) mod 8 ->
  vk_used_elems v !! Z.to_nat (vk_used_idx v) = Some hd ->
  vk_info_status v !! Z.to_nat hd = Some 0 -> vk_info_b v !! Z.to_nat hd = Some (Some b) ->
  (forall s', quiet (k_sy k) s' -> sy_procs s' = map (wake (C_buf b)) (procs k) ->
     Q tt (set_sy s' (put_vd (handled v) (set_buf b (set_b_disk 0) k)))) ->
  wp T virtio_disk_intr Q k.
Proof.
  intros v Hok Hf Hpf Hu Hid He Hst Hb HQ. unfold virtio_disk_intr.
  apply wp_bind, wp_acquire; [done|]. set (s1 := sy_acquire L_vdisk (k_sy k)).
  apply wp_bind, wp_loop_step, wp_bind, wp_gets.
  change (the_vd (set_sy s1 k)) with v. change (Z.of_nat NUM) with 8.
  destruct (Z.eqb_spec (vk_used_idx v mod 8) (vk_used_id v mod 8)) as [E|_].
  { exfalso. rewrite Hid in E. pages. }
  rewrite He. change (default 0 (Some hd)) with hd. rewrite Hst. change (default 0 (Some 0)) with 0.
  rewrite Hb. cbn [Z.eqb negb mjoin option_join deref].
  apply wp_bind, wp_ret. apply wp_bind, upd_buf_rule.
  apply wp_bind, wp_wakeup; [eauto with kern|by apply procs_free_acquire|].
  intros s2 Hq2 Hp2. apply wp_bind, wp_modify, wp_ret.
  apply wp_loop_step, wp_bind, wp_gets.
  set (v1 := set_vk_used_idx ((vk_used_idx v + 1) mod 8) v).
  change_vd v1.
  change (vk_used_idx v1) with ((vk_used_idx v + 1) mod 8). change (vk_used_id v1) with (vk_used_id v).
  rewrite Hid, Z.mod_mod, Z.eqb_refl by lia. apply wp_ret.
  apply wp_bind, wp_gets, wp_bind, wp_modify.
  apply (wp_release _ (k_sy k)); [done|done|exact Hq2|].
  intros s3 Hq3 Hp3. apply HQ; [done|]. rewrite Hp3. exact Hp2.
Qed.

(** ** The turn *)

(** The driver has made the request [head] available, and no other is in
    progress. *)
Record pending (v : vdisk) (head type n : Z) (b : nat) : Prop := {
  pe_avail : vk_avail_idx v = u16 (vk_used_id v + 1);
  pe_ring : vk_avail v !! Z.to_nat (vk_used_id v mod 8) = Some head;
  pe_req : vio_request v head = Some (type, n * (BSIZE / 512), b, Z.to_nat head);
  pe_used : vk_used_idx v = vk_used_id v mod 8;
  pe_elems : length (vk_used_elems v) = NUM;
  pe_status : (Z.to_nat head < length (vk_info_status v))%nat;
  pe_info : vk_info_b v !! Z.to_nat head = Some (Some b) }.

Lemma u16_mod8 x : (u16 x) mod 8 = x mod 8.
Proof. apply Z.mod_mod_divide. by exists 8192. Qed.

(** The state in which the process gets the processor back. *)
Record resumed (p : nat) (c : chan) (s s' : sync) : Prop := {
  re_tp : sy_tp s' = sy_tp s;
  re_sie : sy_sie s' = false;
  re_noff : c_noff (sy_cpu s') = 1;
  re_proc : c_proc (sy_cpu s') = Some p;
  re_locks : sy_locks s' = sy_locks s;
  re_procs : sy_procs s' = alter (set_p_state RUNNING) p (map (wake c) (sy_procs s)) }.

(** The device served the request, and the interrupt handler runs. *)
Lemma served_intr_rule {T} b head type n v (Q : unit -> kernel -> Prop) k :
  pending v head type n b -> the_vd k = vio_done v head (Z.to_nat head) ->
  sync_ok (k_sy k) -> lock_free (k_sy k) L_vdisk -> procs_free (k_sy k) ->
  (forall s', quiet (k_sy k) s' -> sy_procs s' = map (wake (C_buf b)) (procs k) ->
     Q tt (set_sy s' (put_vd (handled (the_vd k)) (set_buf b (set_b_disk 0) k)))) ->
  wp T virtio_disk_intr Q k.
Proof.
  intros [E1 E2 E3 E4 E5 E6 E7] Ev Hok Hf Hpf HQ.
  assert (0 <= vk_used_id v mod 8 < 8) as Hm8 by (apply Z.mod_pos_bound; lia).
  apply (intr_rule b head); [done|done|done|rewrite Ev; simpl..|done].
  - by rewrite E4.
  - rewrite u16_mod8, E4, Zplus_mod_idemp_l. done.
  - rewrite E4. apply list_lookup_insert_eq. rewrite E5. unfold NUM. lia.
  - by apply list_lookup_insert_eq.
  - exact E7.
Qed.

(** The scheduler takes up the process [p] that the interrupt woke. *)
Lemma dispatch_rule {T} p c pr l (Q : unit -> kernel -> Prop) k :
  lock_free (k_sy k) (L_proc p) -> procs k = map (wake c) l -> l !! p = Some pr -> sleeping_on c pr = true ->
  (let s := sy_acquire (L_proc p) (set_sie true (k_sy k)) in
   let s := set_procs (alter (set_p_state RUNNING) p (procs k)) s in
   Q tt (set_sy (set_cpu (set_c_proc (Some p) (sy_cpu s)) s) k)) ->
  wp T (intr_on ;; acquire (L_proc p) ;;
        let* pr := get_proc p in
        when (bool_decide (p_state pr = RUNNABLE))
          (upd_proc p (set_p_state RUNNING) ;; set_cproc (Some p))) Q k.
Proof.
  intros [name Hname] Hprocs Hpr Hsl HQ. apply wp_bind, wp_upd_sy. kproj.
  apply wp_bind, wp_acquire; [by exists name|]. kproj. apply wp_bind, wp_gets.
  match goal with |- context [proc_at ?k2 p] => assert (proc_at k2 p = set_p_state RUNNABLE pr) as -> end.
  { unfold proc_at, procs in *. kproj. change (sy_procs (sy_acquire _ _)) with (sy_procs (k_sy k)).
    rewrite Hprocs. change (map ?g ?l) with (g <$> l). rewrite list_lookup_fmap, Hpr. simpl.
    unfold wake. by rewrite Hsl. }
  rewrite bool_decide_true by done. apply wp_bind, wp_upd_proc, wp_upd_sy. unfold procs. kproj. exact HQ.
Qed.

(** Releasing and acquiring the lock again gives the locks back. *)
Lemma relock l s s2 : lock_held s l -> sy_tp s2 = sy_tp s -> sy_locks s2 = sy_locks (sy_release l s) ->
  sy_locks (sy_acquire l s2) = sy_locks s.
Proof.
  intros [name Hname] Ht El.
  change (<[l := mk_spinlock 1 (lk_name (get_lock s2 l)) (Some (sy_tp s2))]> (sy_locks s2) = sy_locks s).
  unfold get_lock. rewrite El, Ht. unfold sy_release, sy_pop, put_lock, get_lock. kproj.
  rewrite Hname, lookup_insert_eq, insert_insert_eq. apply insert_id. exact Hname.
Qed.

Lemma turn_rule {T} p b head type n (Q : unit -> kernel -> Prop) k :
  let s := k_sy k in
  c_proc (sy_cpu s) = Some p -> lock_held s (L_proc p) -> c_noff (sy_cpu s) = 1 -> sy_sie s = false ->
  lock_free s L_vdisk -> length (sy_procs s) = NPROC -> (p < NPROC)%nat ->
  (forall i, (i < NPROC)%nat -> i <> p -> lock_free s (L_proc i)) ->
  sleeping_on (C_buf b) (proc_at k p) = true ->
  pending (the_vd k) head type n b ->
  (forall s' v' bs' d', resumed p (C_buf b) s s' ->
     vio_step (the_vd k) (bufs k) (the_disk k) = (vio_done (the_vd k) head (Z.to_nat head), bs', d') ->
     v' = handled (vio_done (the_vd k) head (Z.to_nat head)) ->
     Q tt (set_sy s' (put_vd v' (put_disk d' (put_bufs (alter (set_b_disk 0) b bs') k))))) ->
  wp T resume_turn Q k.
Proof.
  intros s Hc Hh Hn Hs Hfv Hlen Hp Hfp Hsl Hpe HQ. unfold resume_turn.
  apply wp_bind, wp_gets. fold s. rewrite Hc.
  apply wp_bind, wp_upd_sy. fold s. set (sa := set_cpu _ s).
  apply wp_bind, wp_release_raw; [done|done|simpl; lia|]. kproj.
  change (sy_release (L_proc p) (k_sy (set_sy sa k))) with (sy_release (L_proc p) sa).
  set (sb := sy_release (L_proc p) sa).
  apply wp_bind, wp_upd_sy. kproj. set (sc := set_sie true sb).
  assert (forall l, l <> L_proc p -> sy_locks sc !! l = sy_locks s !! l) as Hlk.
  { intros l Hl. unfold sc, sb, sy_release, sy_pop, put_lock. kproj. by rewrite lookup_insert_ne. }
  assert (forall i, (i < NPROC)%nat -> lock_free sc (L_proc i)) as Hpf.
  { intros i Hi. destruct (decide (i = p)) as [->|Hne].
    - destruct (release_frees (L_proc p) sa) as [name Hname]. by exists name.
    - destruct (Hfp i Hi Hne) as [name Hname]. exists name. rewrite Hlk by congruence. done. }
  apply wp_bind, wp_modify. unfold device_complete.
  match goal with |- context [vio_step ?a ?b ?c] =>
    change (vio_step a b c) with (vio_step (the_vd k) (bufs k) (the_disk k)) end.
  pose proof (vio_completes (the_vd k) (bufs k) (the_disk k) head type n b (Z.to_nat head)
    (pe_avail _ _ _ _ _ Hpe) (pe_ring _ _ _ _ _ Hpe) (pe_req _ _ _ _ _ Hpe)) as Ev.
  destruct (vio_step (the_vd k) (bufs k) (the_disk k)) as [[v1 bs] d]. injection Ev as Ev _ _.
  apply wp_bind, wp_upd_sy. kproj. set (sd := set_sie false sc).
  change (put_vd v1 _) with (set_sy sc (put_vd v1 (put_disk d (put_bufs bs k)))). kproj. fold sd.
  apply wp_bind, (served_intr_rule b head type n (the_vd k) _ _ Hpe); [by rewrite <- Ev| | |by split|].
  { split; simpl; rewrite Hn; [lia|done]. }
  { destruct Hfv as [name Hname]. exists name. change (sy_locks sc !! L_vdisk = Some (mk_spinlock 0 name None)).
    by rewrite Hlk. }
  intros s2 Hq2 Hp2. kproj. change_vd v1. kproj in Hq2.
  destruct (lookup_lt_is_Some_2 (sy_procs s) p) as [pr Hpr]; [lia|].
  apply (dispatch_rule p (C_buf b) pr (sy_procs s)).
  - apply (quiet_lock_free _ _ _ Hq2). by apply Hpf.
  - exact Hp2.
  - exact Hpr.
  - unfold proc_at, procs in Hsl. fold s in Hsl. by rewrite Hpr in Hsl.
  - cbv zeta. apply (HQ _ (handled v1) bs d); [|by rewrite Ev|by rewrite Ev]. split; try done.
    + exact (q_tp _ _ Hq2).
    + simpl. rewrite (q_noff _ _ Hq2). simpl. lia.
    + apply (relock (L_proc p) s (set_sie true s2)); [done|exact (q_tp _ _ Hq2)|exact (q_locks _ _ Hq2)].
    + simpl. unfold procs. kproj. by rewrite Hp2.
Qed.

(** ** Waiting for the device *)

Lemma swap_swap l1 l2 s s' n1 n2 :
  l1 <> l2 -> sy_tp s' = sy_tp s -> sy_locks s !! l1 = Some (mk_spinlock 1 n1 (Some (sy_tp s))) ->
  sy_locks s !! l2 = Some (mk_spinlock 0 n2 None) -> sy_locks s' = swap_locks l1 l2 s ->
  swap_locks l2 l1 s' = sy_locks s.
Proof.
  intros Hne Ht H1 H2 E. unfold swap_locks, get_lock. rewrite E, Ht. unfold swap_locks, get_lock.
  rewrite H1, H2. simpl. apply map_eq. intros l.
  destruct (decide (l = l1)) as [->|]; [|destruct (decide (l = l2)) as [->|]].
  - rewrite lookup_insert_eq, lookup_insert_ne, lookup_insert_eq, H1 by congruence. done.
  - rewrite lookup_insert_ne, lookup_insert_eq, lookup_insert_eq, H2 by congruence. done.
  - by rewrite !lookup_insert_ne by congruence.
Qed.

(** The process that slept and was resumed is as before; others may be awake. *)
Lemma slept_procs p c pr l :
  l !! p = Some pr -> p_state pr = RUNNING -> p_chan pr = None ->
  Forall2 woken l (alter (set_p_chan None) p (alter (set_p_state RUNNING) p
    (map (wake c) (alter (fun q => set_p_state SLEEPING (set_p_chan (Some c) q)) p l)))).
Proof.
  intros Hp Hs Hc. change (map (wake c)) with (fmap (M := list) (wake c)).
  apply Forall2_same_length_lookup. split; [by rewrite !length_alter, length_fmap, length_alter|].
  intros i x y Hx Hy. destruct (decide (i = p)) as [->|Hne].
  - rewrite !list_lookup_alter_eq, list_lookup_fmap, list_lookup_alter_eq, Hx in Hy.
    injection Hy as <-. rewrite Hp in Hx. injection Hx as <-. left.
    unfold wake. case_match; destruct pr; simpl in *; by subst.
  - rewrite !list_lookup_alter_ne, list_lookup_fmap, list_lookup_alter_ne, Hx in Hy by done.
    injection Hy as <-. apply wake_woken.
Qed.

(** The turn taken from a process asleep on the buffer of the request. *)
Lemma asleep_turn p b head type n pr k k' :
  asleep p (C_buf b) L_vdisk k k' -> (p < NPROC)%nat -> length (procs k) = NPROC -> procs k !! p = Some pr ->
  (forall i, (i < NPROC)%nat -> lock_free (k_sy k) (L_proc i)) -> pending (the_vd k) head type n b ->
  exists s' bs' d', resumed p (C_buf b) (k_sy k') s' /\
    vio_step (the_vd k) (bufs k) (the_disk k) = (vio_done (the_vd k) head (Z.to_nat head), bs', d') /\
    device_turn k' = set_sy s' (put_vd (handled (vio_done (the_vd k) head (Z.to_nat head)))
      (put_disk d' (put_bufs (alter (set_b_disk 0) b bs') k))).
Proof.
  intros [A1 A2 A3 A4 A5 A6 A7 A8 A9 A10] Hlt Hlen Hpr Hfree Hpe.
  assert (the_vd k' = the_vd k) as Evd by (rewrite A10; done).
  destruct (wp_exact resume_turn (fun _ k'' => exists s' bs' d', resumed p (C_buf b) (k_sy k') s' /\
    vio_step (the_vd k) (bufs k) (the_disk k) = (vio_done (the_vd k) head (Z.to_nat head), bs', d') /\
    k'' = set_sy s' (put_vd (handled (vio_done (the_vd k) head (Z.to_nat head)))
      (put_disk d' (put_bufs (alter (set_b_disk 0) b bs') k)))) k')
    as ([] & k'' & He & s' & bs' & d' & H1 & H2 & ->).
  - apply (turn_rule p b head type n); try done.
    + fold (procs k'). rewrite A1. by rewrite length_alter.
    + intros i Hi Hne. destruct (Hfree i Hi) as [name Hname]. exists name. rewrite A9. unfold swap_locks.
      by rewrite !lookup_insert_ne by congruence.
    + unfold proc_at. rewrite A1, list_lookup_alter_eq, Hpr. simpl. unfold sleeping_on. simpl.
      by rewrite !bool_decide_true.
    + by rewrite Evd.
    + intros s' v' bs' d' Hr. rewrite A10 at 1 2 3 4. intros Ev ->. exists s', bs', d'. split; [done|]. split; [done|].
      rewrite A10. done.
  - exists s', bs', d'. split; [done|]. split; [done|]. unfold device_turn. by rewrite He.
Qed.

(** After the turn the process is where it was, with the lock it slept on. *)
Lemma back_quiet s0 p b pr k k' s' s2 :
  calm s0 -> quiet (sy_acquire L_vdisk s0) (k_sy k) -> c_proc (sy_cpu s0) = Some p ->
  procs k !! p = Some pr -> p_state pr = RUNNING -> p_chan pr = None ->
  lock_held (k_sy k) L_vdisk -> lock_free (k_sy k) (L_proc p) ->
  asleep p (C_buf b) L_vdisk k k' -> resumed p (C_buf b) (k_sy k') s' ->
  handover (L_proc p) L_vdisk (set_procs (alter (set_p_chan None) p (sy_procs s'))
    (set_cpu (set_c_intena (c_intena (sy_cpu (k_sy k'))) (sy_cpu s')) s')) s2 -> quiet (sy_acquire L_vdisk s0) s2.
Proof.
  intros Hcalm Hq Hp0 Hpr Hst Hch [n1 Hn1] [n2 Hn2] [A1 A2 A3 A4 A5 A6 A7 A8 A9 A10] Hre [B1 B2 B3 B4 B5 B6 B7].
  kproj in B3. kproj in B4. kproj in B5. kproj in B6. split.
  - rewrite B5, (re_tp _ _ _ _ Hre), A6. apply Hq.
  - rewrite (so_off _ _ B1). done.
  - rewrite B4, (re_proc _ _ _ _ Hre). simpl. by rewrite Hp0.
  - rewrite (so_noff _ _ B1). simpl. by rewrite (ca_noff _ Hcalm).
  - intros Hpos. rewrite B6, A8. by apply Hq.
  - rewrite B7, <- (q_locks _ _ Hq). apply (swap_swap L_vdisk (L_proc p) (k_sy k) _ n1 n2); try done.
    + kproj. by rewrite (re_tp _ _ _ _ Hre).
    + kproj. by rewrite (re_locks _ _ _ _ Hre).
  - etransitivity; [apply (q_procs _ _ Hq)|]. rewrite B3. rewrite (re_procs _ _ _ _ Hre).
    fold (procs k'). rewrite A1. by apply (slept_procs p (C_buf b) pr).
Qed.

Lemma disk_wait_rule s0 b head type n (Q : unit -> kernel -> Prop) k :
  calm s0 -> quiet (sy_acquire L_vdisk s0) (k_sy k) -> pending (the_vd k) head type n b ->
  (forall s' bs' d', quiet (sy_acquire L_vdisk s0) s' ->
     vio_step (the_vd k) (bufs k) (the_disk k) = (vio_done (the_vd k) head (Z.to_nat head), bs', d') ->
     Q tt (set_sy s' (put_vd (handled (vio_done (the_vd k) head (Z.to_nat head)))
            (put_disk d' (put_bufs (alter (set_b_disk 0) b bs') k))))) ->
  takes device_turn (sleep (C_buf b) L_vdisk) Q k.
Proof.
  intros Hcalm Hq Hpe HQ. destruct (ca_run _ Hcalm) as (p & pr0 & Hp0 & Hpr0 & Hst0 & Hch0).
  assert (p < NPROC)%nat as Hlt by (rewrite <- (ca_len _ Hcalm); by eapply lookup_lt_Some).
  assert (forall i, (i < NPROC)%nat -> lock_free (k_sy k) (L_proc i)) as Hfree.
  { intros i Hi. apply (quiet_lock_free _ _ _ Hq), lock_free_acquire; [done|]. by apply calm_procs_free. }
  assert (lock_held (k_sy k) L_vdisk) as Hheld by (eapply quiet_lock_held; [done|apply lock_held_acquire]).
  assert (c_noff (sy_cpu (k_sy k)) = 1) as Hnoff.
  { rewrite (q_noff _ _ Hq). simpl. rewrite (ca_noff _ Hcalm). done. }
  assert (length (procs k) = NPROC) as Hlen.
  { unfold procs. rewrite (quiet_procs_length _ _ Hq). apply Hcalm. }
  assert (exists pr, procs k !! p = Some pr /\ p_state pr = RUNNING /\ p_chan pr = None) as (pr & Hpr & Hst & Hch).
  { destruct (Forall2_lookup_l _ _ _ _ _ (q_procs _ _ Hq) Hpr0) as (pr & Hpr & Hw). exists pr.
    destruct Hw as [->|[? _]]; [done|congruence]. }
  apply (takes_sleep device_turn p (C_buf b) L_vdisk); [done| |by rewrite Hlen| |by apply Hfree|].
  { rewrite (q_proc _ _ Hq). exact Hp0. }
  { split; [done|done|]. rewrite (q_sie _ _ Hq). done. }
  intros k' Ha. cbv zeta.
  destruct (asleep_turn p b head type n pr k k' Ha Hlt Hlen Hpr Hfree Hpe) as (s' & bs' & d' & Hre & Ev & ->).
  split_and!; kproj.
  - split; [|apply Hre|apply Hre]. destruct (as_plock _ _ _ _ _ Ha) as [name Hname]. exists name.
    by rewrite (re_locks _ _ _ _ Hre), (re_tp _ _ _ _ Hre).
  - destruct (as_lk _ _ _ _ _ Ha) as [name Hname]. exists name. by rewrite (re_locks _ _ _ _ Hre).
  - intros s2 Hh. apply (HQ s2 bs' d'); [|done].
    exact (back_quiet s0 p b pr k k' s' s2 Hcalm Hq Hp0 Hpr Hst Hch Hheld (Hfree p Hlt) Ha Hre Hh).
Qed.

(** ** Descriptors *)

(** No request is in progress. *)
Record vd_idle (v : vdisk) : Prop := {
  vi_desc : length (vk_desc v) = NUM;
  vi_avail : length (vk_avail v) = NUM;
  vi_elems : length (vk_used_elems v) = NUM;
  vi_info : length (vk_info_b v) = NUM;
  vi_status : length (vk_info_status v) = NUM;
  vi_free : vk_free v = repeat 1 NUM;
  vi_idx : vk_avail_idx v = vk_used_id v;
  vi_range : 0 <= vk_used_id v < 2 ^ 16;
  vi_used : vk_used_idx v = vk_used_id v mod 8 }.

Lemma alloc3_rule {T} (Q : option (list Z) -> kernel -> Prop) k :
  vk_free (the_vd k) = repeat 1 NUM ->
  Q (Some [0; 1; 2]) (put_vd (set_vk_free [0; 0; 0; 1; 1; 1; 1; 1] (the_vd k)) k) ->
  wp T alloc3_desc Q k.
Proof.
  intros Hf HQ. eapply wp_eq; [|exact HQ]. intros e.
  destruct k as [sy mm fs fi [c u pa ti np ip [d ai av ui ue f us ib stt rg wr]]].
  cbn in Hf. subst f. reflexivity.
Qed.

Lemma free_desc_rule {T} i (Q : unit -> kernel -> Prop) k :
  0 <= i < 8 -> sync_ok (k_sy k) -> procs_free (k_sy k) ->
  vk_free (the_vd k) !! Z.to_nat i = Some 0 ->
  (forall s', quiet (k_sy k) s' ->
     let v := the_vd k in let x := desc_at v i in
     Q tt (set_sy s' (put_vd (put_free i 1 (put_desc i (mk_desc D_null (vd_len x) (vd_flags x) (vd_next x)) v)) k))) ->
  wp T (free_desc i) Q k.
Proof.
  intros Hi Hok Hpf Hf HQ. unfold free_desc. change (Z.of_nat NUM) with 8.
  rewrite Z.geb_leb. destruct (Z.leb_spec 8 i); [lia|].
  apply wp_bind, wp_gets. rewrite Hf. apply wp_bind, wp_modify, wp_bind, wp_modify.
  apply wp_wakeup; [done|done|]. intros s' Hq _. by apply HQ.
Qed.

(** The chain 0, 1, 2 is freed. *)
Lemma free_chain_rule {T} v d0 d1 d2 ds (Q : unit -> kernel -> Prop) k :
  the_vd k = set_vk_free [0; 0; 0; 1; 1; 1; 1; 1] (set_vk_desc (d0 :: d1 :: d2 :: ds) v) ->
  sync_ok (k_sy k) -> procs_free (k_sy k) ->
  c_true (Z.land (vd_flags d0) 1) = true -> vd_next d0 = 1 ->
  c_true (Z.land (vd_flags d1) 1) = true -> vd_next d1 = 2 ->
  c_true (Z.land (vd_flags d2) 1) = false ->
  (forall s' e0 e1 e2, quiet (k_sy k) s' ->
     Q tt (set_sy s' (put_vd (set_vk_free (repeat 1 NUM) (set_vk_desc (e0 :: e1 :: e2 :: ds) v)) k))) ->
  wp T (free_chain 0) Q k.
Proof.
  intros Ev Hok Hpf F0 N0 F1 N1 F2 HQ. unfold free_chain, VRING_DESC_F_NEXT.
  apply wp_loop_step, wp_bind, free_desc_rule; [lia|done|done|by rewrite Ev|].
  intros s1 Hq1. cbv zeta. rewrite Ev. apply wp_bind, wp_gets.
  match goal with |- context [the_vd ?k] => set (v1 := the_vd k); cbn in v1 end.
  change (vd_flags (desc_at v1 0)) with (vd_flags d0). change (vd_next (desc_at v1 0)) with (vd_next d0).
  rewrite F0, N0. apply wp_ret.
  apply wp_loop_step, wp_bind, free_desc_rule; [lia|by eauto with kern|by eauto with kern|done|].
  intros s2 Hq2. cbv zeta. change_vd v1. apply wp_bind, wp_gets.
  match goal with |- context [the_vd ?k] => set (v2 := the_vd k); cbn in v2 end.
  change (vd_flags (desc_at v2 1)) with (vd_flags d1). change (vd_next (desc_at v2 1)) with (vd_next d1).
  rewrite F1, N1. apply wp_ret. kproj in Hq2.
  apply wp_loop_step, wp_bind, free_desc_rule; [lia|kproj; by eauto with kern|kproj; by eauto with kern|done|].
  intros s3 Hq3. cbv zeta. change_vd v2. apply wp_bind, wp_gets.
  match goal with |- context [the_vd ?k] => set (v3 := the_vd k); cbn in v3 end.
  change (vd_flags (desc_at v3 2)) with (vd_flags d2). rewrite F2. apply wp_ret.
  kproj in Hq3. kproj.
  apply (HQ s3 (mk_desc D_null (vd_len d0) (vd_flags d0) (vd_next d0))
    (mk_desc D_null (vd_len d1) (vd_flags d1) (vd_next d1))
    (mk_desc D_null (vd_len d2) (vd_flags d2) (vd_next d2))).
  by do 2 (etransitivity; [done|]).
Qed.

(** ** Requests *)

(** The rings once [virtio_disk_rw] has made the request available. *)
Definition requested (b : nat) (write : bool) (sector : Z) (ds : list vring_desc) (v : vdisk) : vdisk :=
  reg_write VIRTIO_MMIO_QUEUE_NOTIFY 0
    (mk_vdisk
      (mk_desc (D_hdr (if write then VIRTIO_BLK_T_OUT else VIRTIO_BLK_T_IN) sector) 16 VRING_DESC_F_NEXT 1 ::
       mk_desc (D_data b) BSIZE (Z.lor (if write then 0 else VRING_DESC_F_WRITE) VRING_DESC_F_NEXT) 2 ::
       mk_desc (D_status 0) 1 VRING_DESC_F_WRITE 0 :: ds)
      (u16 (vk_avail_idx v + 1)) (<[Z.to_nat (vk_avail_idx v mod 8) := 0]> (vk_avail v))
      (vk_used_id v) (vk_used_elems v) [0; 0; 0; 1; 1; 1; 1; 1] (vk_used_idx v)
      (<[0%nat := Some b]> (vk_info_b v)) (<[0%nat := 0]> (vk_info_status v)) (vk_regs v) (vk_writes v)).

Ltac vd_cbn := cbn [requested handled vio_done reg_write set_vk_writes set_vk_regs set_vk_free set_vk_desc
  set_vk_info_b set_vk_info_status set_vk_used_idx set_vk_used_id set_vk_used_elems vk_desc vk_avail_idx
  vk_used_id vk_avail vk_used_idx vk_used_elems vk_info_status vk_info_b vk_free].

Lemma requested_pending b write n ds v :
  vd_idle v -> pending (requested b write (n * (BSIZE / 512)) ds v) 0
    (if write then VIRTIO_BLK_T_OUT else VIRTIO_BLK_T_IN) n b.
Proof.
  intros [V1 V2 V3 V4 V5 V6 V7 V8 V9]. assert (0 <= vk_used_id v mod 8 < 8) by (apply Z.mod_pos_bound; lia).
  split; vd_cbn; try done.
  - by rewrite V7.
  - rewrite V7. apply list_lookup_insert_eq. rewrite V2. unfold NUM. lia.
  - destruct write; reflexivity.
  - rewrite length_insert, V5. vm_compute. lia.
  - apply list_lookup_insert_eq. rewrite V4. vm_compute. lia.
Qed.

(** The rings when the driver takes the lock back. *)
Lemma requested_idle b write sector ds e0 e1 e2 v :
  vd_idle v -> length ds = 5%nat ->
  let v1 := handled (vio_done (requested b write sector ds v) 0 0) in
  vd_idle (set_vk_free (repeat 1 NUM) (set_vk_desc (e0 :: e1 :: e2 :: ds)
    (set_vk_info_b (<[0%nat := None]> (vk_info_b v1)) v1))).
Proof.
  intros [V1 V2 V3 V4 V5 V6 V7 V8 V9] Hl. cbv zeta.
  split; vd_cbn; rewrite ?length_insert; try done.
  - simpl. by rewrite Hl.
  - by rewrite V7.
  - apply Z.mod_pos_bound. lia.
  - rewrite u16_mod8, V9. apply Zplus_mod_idemp_l.
Qed.

(** The stores of [virtio_disk_rw] to the rings, in order. *)
Definition setup (b : nat) (write : bool) (sector : Z) (v : vdisk) : vdisk :=
  let v := put_desc 0 (mk_desc (D_hdr (if write then VIRTIO_BLK_T_OUT else VIRTIO_BLK_T_IN) sector) 16
             VRING_DESC_F_NEXT 1) v in
  let v := put_desc 1 (mk_desc (D_data b) BSIZE
             (Z.lor (if write then 0 else VRING_DESC_F_WRITE) VRING_DESC_F_NEXT) 2) v in
  let v := set_vk_info_status (<[0%nat := 0]> (vk_info_status v)) v in
  let v := put_desc 2 (mk_desc (D_status 0) 1 VRING_DESC_F_WRITE 0) v in
  let v := set_vk_info_b (<[0%nat := Some b]> (vk_info_b v)) v in
  let v := set_vk_avail (<[Z.to_nat (vk_avail_idx v mod 8) := 0]> (vk_avail v)) v in
  let v := set_vk_avail_idx (u16 (vk_avail_idx v + 1)) v in
  reg_write VIRTIO_MMIO_QUEUE_NOTIFY 0 v.

Lemma setup_requested b write sector v d0 d1 d2 ds :
  vk_desc v = d0 :: d1 :: d2 :: ds ->
  setup b write sector (set_vk_free [0; 0; 0; 1; 1; 1; 1; 1] v) = requested b write sector ds v.
Proof. intros E. destruct v. cbn in E. subst. reflexivity. Qed.

(** The buffers and the disk after the transfer. *)
Definition io_bufs (write : bool) (b : nat) (n : Z) (k : kernel) : list buf :=
  if write then bufs k else alter (set_b_data (dblk (the_disk k) n)) b (bufs k).
Definition io_disk (write : bool) (b : nat) (n : Z) (k : kernel) : disk :=
  if write then disk_write n (b_data (buf_at k b)) (the_disk k) else the_disk k.

Lemma transfer_done (write : bool) b n v x bs' d' k :
  bufs k !! b = Some x -> b_disk x = 0 ->
  pending v 0 (if write then VIRTIO_BLK_T_OUT else VIRTIO_BLK_T_IN) n b ->
  vio_step v (alter (set_b_disk 1) b (bufs k)) (the_disk k) = (vio_done v 0 0, bs', d') ->
  alter (set_b_disk 0) b bs' = io_bufs write b n k /\ d' = io_disk write b n k /\
  b_disk (default zero_buf (io_bufs write b n k !! b)) = 0.
Proof.
  intros Hx Hdisk Hpe Ev.
  rewrite (vio_completes _ _ _ 0 (if write then VIRTIO_BLK_T_OUT else VIRTIO_BLK_T_IN) n b 0%nat) in Ev by apply Hpe.
  injection Ev as <- <-. unfold io_bufs, io_disk, buf_at. rewrite list_lookup_alter_eq, Hx.
  destruct write; cbn [VIRTIO_BLK_T_IN VIRTIO_BLK_T_OUT Z.eqb]; rewrite !alter_alter; split_and!; try done.
  - apply (alter_id_at _ _ _ x Hx). destruct x. cbn in Hdisk. by subst.
  - by rewrite Hx.
  - apply (alter_ext_at _ _ _ _ x Hx). destruct x. cbn in Hdisk. by subst.
  - by rewrite list_lookup_alter_eq, Hx.
Qed.

(** What [virtio_disk_rw] does once the request is complete. *)
Lemma rw_tail_rule b (write : bool) sector ds v s2 (Q : unit -> kernel -> Prop) k :
  let v2 := handled (vio_done (requested b write sector ds v) 0 0) in
  calm (k_sy k) -> vd_idle v -> length ds = 5%nat -> quiet (sy_acquire L_vdisk (k_sy k)) s2 ->
  (forall s' v', quiet (k_sy k) s' -> vd_idle v' -> Q tt (set_sy s' (put_vd v' k))) ->
  wp virtio_turn (upd_vd (fun v => set_vk_info_b (<[0%nat := None]> (vk_info_b v)) v) ;;
                  free_chain 0 ;; release L_vdisk) Q (set_sy s2 (put_vd v2 k)).
Proof.
  intros v2 Hcalm Hv Hds Hq2 HQ. apply wp_bind, wp_modify. change_vd v2.
  apply wp_bind, (free_chain_rule (set_vk_info_b (<[0%nat := None]> (vk_info_b v2)) v2)
    (mk_desc (D_hdr (if write then VIRTIO_BLK_T_OUT else VIRTIO_BLK_T_IN) sector) 16 VRING_DESC_F_NEXT 1)
    (mk_desc (D_data b) BSIZE (Z.lor (if write then 0 else VRING_DESC_F_WRITE) VRING_DESC_F_NEXT) 2)
    (mk_desc (D_status 0) 1 VRING_DESC_F_WRITE 0) ds); try reflexivity.
  - eapply quiet_sync_ok; [exact Hq2|]. apply sync_ok_acquire, Hcalm.
  - eapply quiet_procs_free; [exact Hq2|]. apply procs_free_acquire; [done|by apply calm_procs_free].
  - by destruct write.
  - intros s3 e0 e1 e2 Hq3. kproj in Hq3.
    apply (wp_release _ (k_sy k)); [apply Hcalm|apply (ca_free _ Hcalm), list_elem_of_In; simpl; tauto| |].
    { kproj. by etransitivity. }
    intros s4 Hq4 _. refine (HQ s4 _ Hq4 _). by apply (requested_idle b write sector ds e0 e1 e2 v).
Qed.

Lemma rw_rule (b : nat) (write : bool) (Q : unit -> kernel -> Prop) k :
  let n := b_blockno (buf_at k b) in
  calm (k_sy k) -> vd_idle (the_vd k) -> (b < NBUF)%nat -> length (bufs k) = S NBUF ->
  b_disk (buf_at k b) = 0 -> 0 <= n < FSSIZE ->
  (forall s' v', quiet (k_sy k) s' -> vd_idle v' ->
     Q tt (set_sy s' (put_vd v' (put_disk (io_disk write b n k) (put_bufs (io_bufs write b n k) k))))) ->
  wp virtio_turn (virtio_disk_rw b write) Q k.
Proof.
  intros n Hcalm Hv Hb Hlen Hdisk Hn HQ. unfold virtio_disk_rw.
  apply wp_bind, wp_gets. fold n.
  assert (u32 (n * (BSIZE / 512)) = n * (BSIZE / 512)) as ->.
  { apply u32_id. change (BSIZE / 512) with 2. unfold FSSIZE in Hn. lia. }
  apply wp_bind, wp_acquire; [apply (ca_free _ Hcalm), list_elem_of_In; simpl; tauto|].
  set (s1 := sy_acquire L_vdisk (k_sy k)).
  apply wp_bind, wp_wait_loop, wp_bind, alloc3_rule; [apply Hv|]. apply wp_ret.
  cbn [idx_at]. change_vd (the_vd k).
  destruct (vk_desc (the_vd k)) as [|d0 [|d1 [|d2 ds]]] eqn:Eds; try (pose proof (vi_desc _ Hv) as E; by rewrite Eds in E).
  assert (length ds = 5%nat) as Hds by (pose proof (vi_desc _ Hv) as E; rewrite Eds in E; by injection E).
  do 4 (apply wp_bind, wp_modify). apply wp_bind, upd_buf_rule. do 3 (apply wp_bind, wp_modify).
  apply wp_bind, wp_modify.
  match goal with |- wp _ _ _ ?k' => change k' with (set_sy s1 (put_vd (setup b write (n * (BSIZE / 512))
    (set_vk_free [0; 0; 0; 1; 1; 1; 1; 1] (the_vd k))) (set_buf b (set_b_disk 1) k))) end.
  rewrite (setup_requested _ _ _ _ d0 d1 d2 ds Eds).
  pose proof (requested_pending b write n ds (the_vd k) Hv) as Hpe. set (k1 := set_sy s1 _).
  destruct (lookup_lt_is_Some_2 (bufs k) b) as [x Hx]; [lia|].
  assert (buf_at k b = x) as Ex by (unfold buf_at; by rewrite Hx). rewrite Ex in Hdisk.
  assert (buf_at k1 b = set_b_disk 1 x) as Hx1.
  { unfold buf_at. change (bufs k1) with (alter (set_b_disk 1) b (bufs k)). by rewrite list_lookup_alter_eq, Hx. }
  apply wp_bind, (wp_wait_once virtio_turn device_turn); [done|].
  apply then_takes, wp_gets. rewrite Hx1. cbn [b_disk set_b_disk Z.eqb Pos.eqb].
  apply takes_then, (disk_wait_rule (k_sy k) b 0 (if write then VIRTIO_BLK_T_OUT else VIRTIO_BLK_T_IN) n);
    [done|reflexivity|done|].
  intros s2 bs' d' Hq2 Ev. apply wp_ret.
  destruct (transfer_done write b n _ x bs' d' k Hx Hdisk Hpe Ev) as (-> & -> & HdF).
  apply wp_bind, wp_gets.
  match goal with |- context [buf_at ?k' b] => change (buf_at k' b) with (default zero_buf (io_bufs write b n k !! b)) end.
  rewrite HdF. apply wp_ret.
  exact (rw_tail_rule b write (n * (BSIZE / 512)) ds (the_vd k) s2 Q
    (put_disk (io_disk write b n k) (put_bufs (io_bufs write b n k) k)) Hcalm Hv Hds Hq2 HQ).
Qed.

(** The driver implements the interface of the buffer cache. *)
#[export] Instance virtio_driver : DiskDriver := {| disk_rw := virtio_disk_rw |}.

#[export] Program Instance virtio_disk_law : DiskLaw virtio_driver :=
  {| disk_turn := virtio_turn; disk_idle := vd_idle |}.
Next Obligation.
  intros b Q k Hc Hi Hb Hl Hd Hn HQ. by apply rw_rule.
Qed.
Next Obligation.
  intros b Q k Hc Hi Hb Hl Hd Hn HQ. by apply rw_rule.
Qed.

(** C2: with any device that serves block requests as the virtio
    specification says, [virtio_disk_rw] on an idle driver returns after the
    device's turn: a write has stored the buffer in its block and changed no
    buffer, a read has filled the buffer from its block and changed no block;
    all locks and descriptors are given back and the driver is idle again. *)
Theorem virtio_disk_rw_transfers (b : nat) (write : bool) k :
  let n := b_blockno (buf_at k b) in
  calm (k_sy k) -> vd_idle (the_vd k) -> (b < NBUF)%nat -> length (bufs k) = S NBUF ->
  b_disk (buf_at k b) = 0 -> 0 <= n < FSSIZE ->
  wp virtio_turn (virtio_disk_rw b write) (fun _ k' =>
    quiet (k_sy k) (k_sy k') /\ vd_idle (the_vd k') /\
    k_mm k' = k_mm k /\ k_fi k' = k_fi k /\ fs_log (k_fs k') = fs_log (k_fs k) /\
    if write then bufs k' = bufs k /\ the_disk k' = disk_write n (b_data (buf_at k b)) (the_disk k)
    else bufs k' = alter (set_b_data (dblk (the_disk k) n)) b (bufs k) /\ the_disk k' = the_disk k) k.
Proof.
  intros n Hc Hi Hb Hl Hd Hn. apply rw_rule; try done. intros s' v' Hq Hv.
  split; [done|]. split; [done|]. by destruct write.
Qed.

End spec.

Lemma sample_vd_idle : vd_idle (the_vd sample).
Proof. by split. Qed.

Lemma virtio_disk_rw_transfers_witness :
  wp (virtio_turn (V := sample_device)) (virtio_disk_rw 3 true) (fun _ k' =>
    the_disk k' = disk_write 0 (repeat 0 (Z.to_nat BSIZE)) (mk_disk ∅ [])) sample.
Proof.
  eapply wp_mono.
  - apply (virtio_disk_rw_transfers (V := sample_device) 3 true sample).
    + apply sample_calm.
    + apply sample_vd_idle.
    + unfold NBUF. simpl. lia.
    + done.
    + done.
    + split; done.
  - intros [] k' (_ & _ & _ & _ & _ & _ & E). exact E.
Defined.
