(* ===== verification/BioSpec.v ===== *)
(** * Properties of the buffer cache

    The list of buffers is a ring in order of use from [binit] on; [bget]
    finds a cached block or recycles the least recently used free buffer, and
    a released buffer becomes the most recently used one. *)

From S2P Require Import Prelude Defs State Logic Spinlock Sched Sleeplock Bio BioList BioCache Virtio VirtioSpec.

(** ** Initialisation *)

(** What [binit] leaves of a buffer: everything but its links and its lock. *)
Definition fresh_buf (x y : buf) : Prop :=
  core y = core (set_b_lock (mk_sleeplock 0 "buffer" 0) x).

(** The state during [binit], the buffers [dn] linked. *)
Record binit_upto (k : kernel) (dn : list nat) (k' : kernel) : Prop := {
  bu_path : path (nx k') (pv k') head (reverse dn) head;
  bu_len : length (bufs k') = S NBUF;
  bu_done b : b ∈ dn -> fresh_buf (buf_at k b) (buf_at k' b);
  bu_todo b : b ∉ dn -> core (buf_at k' b) = core (buf_at k b);
  bu_locks l : lock_free (k_sy k) l -> lock_free (k_sy k') l;
  bu_sync : exists ls, k_sy k' = set_locks ls (k_sy k);
  bu_rest : exists s bs, k' = set_sy s (set_fs (set_bcache bs (k_fs k)) k) }.

Lemma put_lock_free l name s l' :
  lock_free s l' -> lock_free (put_lock l (mk_spinlock 0 name None) s) l'.
Proof.
  intros [n H]. destruct (decide (l' = l)) as [->|Hne].
  - exists name. apply lookup_insert_eq.
  - exists n. unfold put_lock. kproj. by rewrite lookup_insert_ne.
Qed.

Lemma core_lock s x y : core x = core y -> core (set_b_lock s x) = core (set_b_lock s y).
Proof. destruct x, y. unfold core. simpl. intros [=]. by subst. Qed.

Lemma initsleeplock_rule {T} b name (Q : unit -> kernel -> Prop) k :
  (b < length (bufs k))%nat ->
  Q tt (set_sy (put_lock (L_buf b) (mk_spinlock 0 "sleep lock" None) (k_sy k))
         (set_buf b (set_b_lock (mk_sleeplock 0 name 0)) k)) ->
  wp T (initsleeplock (L_buf b) name) Q k.
Proof.
  intros Hb HQ. unfold initsleeplock. apply wp_bind, wp_modify.
  apply wp_bind, wp_modify, wp_bind, wp_modify, wp_modify.
  rewrite !put_put_sl, !get_put_sl by (rewrite ?is_sl_put; done).
  rewrite put_sl_buf. exact HQ.
Qed.

Lemma binit_step_rule {T} k dn b k1 :
  binit_upto k dn k1 -> NoDup (dn ++ [b]) -> (forall x, x ∈ dn ++ [b] -> (x < NBUF)%nat) ->
  wp T (let* h := get_buf head in
    upd_buf b (set_b_next (b_next h)) ;;
    upd_buf b (set_b_prev head) ;;
    initsleeplock (L_buf b) "buffer" ;;
    let* h := get_buf head in
    upd_buf (b_next h) (set_b_prev b) ;;
    upd_buf head (set_b_next b)) (fun _ k' => binit_upto k (dn ++ [b]) k') k1.
Proof.
  intros [B1 B2 B3 B4 B5 B6 B7] Hnd Hlt.
  assert (b < NBUF)%nat as Hb by (apply Hlt, elem_of_app; right; by left).
  assert (b ∉ dn) as Hbn by (apply NoDup_app in Hnd as (_ & H & _); intros Hin; apply (H b Hin); by left).
  assert (b < length (bufs k1))%nat as Hb1 by lia.
  apply wp_bind, wp_gets, wp_bind, upd_buf_rule, wp_bind, upd_buf_rule.
  fold (nx k1 head). destruct (point_links k1 b Hb1) as (P1 & P2 & P3 & P4).
  set (k2 := set_buf b (set_b_prev head) _) in *.
  apply wp_bind, initsleeplock_rule; [by rewrite (rl_len _ _ P4)|].
  set (k3 := set_sy _ (set_buf b _ k2)).
  assert (forall i, nx k3 i = nx k2 i /\ pv k3 i = pv k2 i) as Hlinks.
  { intros i. unfold k3. unfold nx, pv. rewrite buf_at_set_sy, buf_at_set by (by rewrite (rl_len _ _ P4)).
    case_decide; [by subst|done]. }
  apply wp_bind, wp_gets, wp_bind, upd_buf_rule, upd_buf_rule. fold (nx k3 head).
  destruct (push_links k1 k3 (reverse dn) b) as [Hp Hl]; try done.
  - apply NoDup_app in Hnd as (Hnd & _ & _). by rewrite reverse_Permutation.
  - rewrite reverse_Permutation. intros Hin. specialize (Hlt head). unfold head in Hlt.
    assert (NBUF < NBUF)%nat by (apply Hlt, elem_of_app; by left). lia.
  - by rewrite reverse_Permutation.
  - unfold head. lia.
  - intros i Hi. unfold k3. change (bufs (set_sy _ ?kk)) with (bufs kk).
    rewrite length_set_buf, (rl_len _ _ P4), B2. rewrite !elem_of_cons, reverse_Permutation in Hi.
    destruct Hi as [->|[->|Hi]]; [unfold head; lia|lia|].
    specialize (Hlt i). rewrite elem_of_app in Hlt. assert (i < NBUF)%nat by auto. lia.
  - intros i Hi. destruct (Hlinks i) as [-> ->]. unfold nx, pv. by rewrite P1.
  - destruct (Hlinks b) as [-> _]. done.
  - destruct (Hlinks b) as [_ ->]. done.
  - set (k4 := set_buf head _ _) in *.
    assert (forall i, core (buf_at k4 i) = if decide (i = b)
       then core (set_b_lock (mk_sleeplock 0 "buffer" 0) (buf_at k1 b)) else core (buf_at k1 i)) as Hcore.
    { intros i. rewrite (rl_core _ _ Hl). unfold k3.
      rewrite buf_at_set_sy, buf_at_set by (by rewrite (rl_len _ _ P4)).
      pose proof (rl_core _ _ P4 i) as Hc. case_decide as E; [subst|done].
      by apply core_lock. }
    split.
    + by rewrite reverse_app.
    + rewrite (rl_len _ _ Hl). unfold k3. change (bufs (set_sy _ ?kk)) with (bufs kk).
      by rewrite length_set_buf, (rl_len _ _ P4).
    + intros i Hi. unfold fresh_buf. rewrite Hcore. case_decide as E.
      * subst. by apply core_lock, B4.
      * apply B3. rewrite elem_of_app, list_elem_of_singleton in Hi. by destruct Hi.
    + intros i Hi. rewrite not_elem_of_app, list_elem_of_singleton in Hi. destruct Hi.
      rewrite Hcore, decide_False by done. by apply B4.
    + intros l Hfl. rewrite (rl_rest _ _ Hl). kproj. unfold k3. kproj.
      apply put_lock_free. rewrite (rl_rest _ _ P4). kproj. by apply B5.
    + destruct B6 as [ls E]. eexists. rewrite (rl_rest _ _ Hl). kproj. unfold k3. kproj.
      unfold put_lock. rewrite (rl_rest _ _ P4). kproj. rewrite E. kproj. reflexivity.
    + destruct B7 as (s & bs & E). exists (k_sy k4), (bufs k4). unfold k4, k3, k2, set_buf. rewrite E. reflexivity.
Qed.

Lemma binit_rule {T} (Q : unit -> kernel -> Prop) k :
  length (bufs k) = S NBUF ->
  (forall k', ring k' (reverse (seq 0 NBUF)) -> binit_upto k (seq 0 NBUF) k' -> Q tt k') ->
  wp T binit Q k.
Proof.
  intros Hlen HQ. unfold binit. apply wp_bind, wp_modify, wp_bind, upd_buf_rule, wp_bind, upd_buf_rule.
  apply (wp_for_all (binit_upto k)).
  - set (k1 := set_buf head _ _).
    assert (forall i, buf_at k1 i = if decide (i = head) then set_b_next head (set_b_prev head (buf_at k head))
      else buf_at k i) as Hat.
    { intros i. unfold k1. rewrite !buf_at_set by (rewrite ?length_set_buf; change (bufs (set_sy _ ?kk)) with (bufs kk);
        rewrite Hlen; unfold head; lia). rewrite !buf_at_set_sy. destruct (decide (i = head)) as [->|]; [|done]. by rewrite decide_True. }
    split.
    + simpl. unfold nx, pv. by rewrite Hat, decide_True.
    + unfold k1. by rewrite !length_set_buf.
    + intros b Hb. by apply elem_of_nil in Hb.
    + intros b _. rewrite Hat. case_decide; [by subst|done].
    + intros l. apply put_lock_free.
    + by eexists.
    + by eexists _, _.
  - intros dn b rest k1 E Hk1. apply binit_step_rule; [done| |].
    + pose proof (NoDup_seq 0 NBUF) as H. rewrite E, cons_middle, app_assoc in H. by apply NoDup_app in H as [H _].
    + intros x Hx. assert (x ∈ seq 0 NBUF) as H by (rewrite E, cons_middle, app_assoc; apply elem_of_app; by left).
      apply elem_of_seq in H. lia.
  - intros k' Hk'. apply HQ; [|done]. destruct Hk'. split; try done.
    + rewrite reverse_Permutation. apply NoDup_seq.
    + intros b. rewrite reverse_Permutation, elem_of_seq. lia.
Qed.

(** [binit] links every buffer exactly once into the ring, the last one
    first, with its lock free, and leaves the rest of each buffer and of the
    kernel alone. *)
Theorem binit_ring k :
  length (bufs k) = S NBUF ->
  exists k', (forall e, binit e k = Ret tt e k') /\ ring k' (reverse (seq 0 NBUF)) /\
    (forall b, (b < NBUF)%nat -> fresh_buf (buf_at k b) (buf_at k' b)) /\
    (forall l, lock_free (k_sy k) l -> lock_free (k_sy k') l) /\
    exists s bs, k' = set_sy s (set_fs (set_bcache bs (k_fs k)) k).
Proof.
  intros Hl. destruct (wp_exact binit (fun _ k' => ring k' (reverse (seq 0 NBUF)) /\
    binit_upto k (seq 0 NBUF) k') k) as ([] & k' & He & Hr & []).
  - apply binit_rule; auto.
  - exists k'. split_and!; try done. intros b Hb. apply bu_done0, elem_of_seq. lia.
Qed.

Lemma binit_ring_witness :
  exists k', binit [] sample = Ret tt [] k' /\ ring k' (reverse (seq 0 NBUF)).
Proof.
  destruct (binit_ring sample) as (k' & H1 & H2 & _).
  - reflexivity.
  - exists k'. split; [apply H1|exact H2].
Defined.

(** ** A concrete cache *)

Definition sample_bio : kernel :=
  match binit [] sample with Ret _ _ k => k | _ => sample end.

Lemma sample_bio_spec : ring sample_bio (reverse (seq 0 NBUF)) /\ binit_upto sample (seq 0 NBUF) sample_bio.
Proof.
  destruct (wp_exact binit (fun _ k' => ring k' (reverse (seq 0 NBUF)) /\
    binit_upto sample (seq 0 NBUF) k') sample) as ([] & k' & He & H).
  - apply binit_rule; auto.
  - unfold sample_bio. by rewrite He.
Qed.

Lemma sample_bio_calm : calm (k_sy sample_bio).
Proof.
  destruct sample_bio_spec as [_ []]. destruct sample_calm as [C1 C2 C3 C4 C5].
  destruct bu_sync0 as [ls E]. split.
  - by rewrite E.
  - by rewrite E.
  - intros l Hl. by apply bu_locks0, C3.
  - by rewrite E.
  - by rewrite E.
Qed.

Lemma fresh_zero y : fresh_buf zero_buf y ->
  b_disk y = 0 /\ b_dev y = 0 /\ b_refcnt y = 0 /\ sl_locked (b_lock y) = 0 /\
  b_data y = repeat 0 (Z.to_nat BSIZE).
Proof. intros H. destruct y. unfold fresh_buf, core in H. cbn in H. by injection H as -> -> -> -> -> -> ->. Qed.

Lemma sample_bufs b : (b < NBUF)%nat -> buf_at sample b = zero_buf.
Proof.
  intros Hb. unfold buf_at. change (bufs sample) with (repeat zero_buf (S NBUF)). by rewrite lookup_repeat by lia.
Qed.

Lemma sample_bio_buf b : (b < NBUF)%nat ->
  b_disk (buf_at sample_bio b) = 0 /\ b_dev (buf_at sample_bio b) = 0 /\ b_refcnt (buf_at sample_bio b) = 0 /\
  sl_locked (b_lock (buf_at sample_bio b)) = 0 /\ b_data (buf_at sample_bio b) = repeat 0 (Z.to_nat BSIZE).
Proof.
  intros Hb. destruct sample_bio_spec as [_ Hs]. pose proof (bu_done _ _ _ Hs b) as H.
  rewrite elem_of_seq in H. specialize (H ltac:(lia)). rewrite sample_bufs in H by done. exact (fresh_zero _ H).
Qed.

#[global] Opaque sample_bio.

Section sample.
Context {D : DiskDriver} {DL : DiskLaw D}.

(** An empty cache over an idle driver is consistent. *)
Lemma fresh_bio_ok k l :
  ring k l -> disk_idle (ms_vd (k_ms k)) -> (forall n, length (dblk (the_disk k) n) = Z.to_nat BSIZE) ->
  (forall b, (b < NBUF)%nat -> b_disk (buf_at k b) = 0 /\ b_dev (buf_at k b) = 0 /\ b_refcnt (buf_at k b) = 0 /\
     sl_locked (b_lock (buf_at k b)) = 0 /\ b_data (buf_at k b) = repeat 0 (Z.to_nat BSIZE)) ->
  bio_ok k ∅ ∅.
Proof.
  intros Hr Hi Hd Hbuf.
  assert (forall b n, (b < NBUF)%nat -> ~ caches (buf_at k b) n) as Hno.
  { intros b n Hb [Hdev _]. destruct (Hbuf b Hb) as (_ & H & _). by rewrite H in Hdev. }
  split; try done.
  - eauto.
  - intros b Hb. destruct (Hbuf b Hb) as (H1 & H2 & H3 & H4 & H5).
    unfold buf_ok. rewrite lookup_empty, H1, H2, H3, H4, H5. done.
  - intros b b' n Hb _ Hc. by apply Hno in Hc.
  - intros b n Hb Hc. by apply Hno in Hc.
Qed.

End sample.

Lemma sample_bio_rest : the_vd sample_bio = zero_vdisk /\ the_disk sample_bio = mk_disk ∅ [] /\
  fs_log (k_fs sample_bio) = zero_log.
Proof.
  destruct (bu_rest _ _ _ (proj2 sample_bio_spec)) as (s & bs & ->). split_and!; reflexivity.
Qed.

Lemma sample_bio_ok {V : VirtioDevice} {VL : VirtioLaw V} : bio_ok sample_bio ∅ ∅.
Proof.
  destruct sample_bio_rest as (H1 & H2 & _). apply (fresh_bio_ok _ (reverse (seq 0 NBUF))).
  - exact (proj1 sample_bio_spec).
  - change (vd_idle (the_vd sample_bio)). rewrite H1. exact sample_vd_idle.
  - rewrite H2. intros n. unfold dblk. cbn [dk_blocks]. rewrite lookup_empty. apply repeat_length.
  - exact sample_bio_buf.
Qed.

(** ** Finding and recycling buffers *)

Section policy.
Context {tn : turn}.

Lemma bget_none_panics l dev blockno k :
  calm (k_sy k) -> ring k l ->
  find (fun b => is_block dev blockno (buf_at k b)) l = None ->
  find (fun b => unused (buf_at k b)) (reverse l) = None ->
  panics (bget dev blockno) "bget: no buffers" k.
Proof.
  intros Hc Hr Hn Hf. assert (L_bcache ∈ static_locks) as Hlb by (right; right; left).
  unfold bget. apply panics_bind_wp, wp_acquire; [eauto with kern|]. apply panics_bind_wp, wp_gets.
  apply panics_bind_wp, (scan_next_rule _ l); [by apply (ring_ext k)|].
  change (find _ l) with (find (fun b => is_block dev blockno (buf_at k b)) l). rewrite Hn.
  apply panics_bind_wp, wp_gets. apply panics_bind_wp, (scan_prev_rule _ l); [by apply (ring_ext k)|].
  change (find _ (reverse l)) with (find (fun b => unused (buf_at k b)) (reverse l)). rewrite Hf.
  apply panics_panic.
Qed.

End policy.

(** [bget] returns the buffer that caches the block when there is one;
    otherwise it recycles, of the buffers nobody refers to, the one used least
    recently (the last in the ring), marked invalid; and it panics when every
    buffer is referred to.  The buffer is returned locked by the caller with
    its count increased. *)
Theorem bget_policy l dev blockno k :
  calm (k_sy k) -> ring k l -> (forall b, b ∈ l -> sl_locked (b_lock (buf_at k b)) = 0) ->
  match find (fun b => is_block dev blockno (buf_at k b)) l with
  | Some b => exists s', quiet (k_sy k) s' /\ forall e, bget dev blockno e k = Ret b e
      (set_sy s' (set_buf b (fun x => locked_by (run_pid (k_sy k)) (set_b_refcnt (u32 (b_refcnt x + 1)) x)) k))
  | None =>
      match find (fun b => unused (buf_at k b)) (reverse l) with
      | Some b => exists s', quiet (k_sy k) s' /\ forall e, bget dev blockno e k = Ret b e
          (set_sy s' (set_buf b (fun x => locked_by (run_pid (k_sy k)) (recycle dev blockno x)) k))
      | None => panics (bget dev blockno) "bget: no buffers" k
      end
  end.
Proof.
  intros Hc Hr Hsl. destruct (find (fun b => is_block dev blockno (buf_at k b)) l) as [b|] eqn:E1.
  - destruct (wp_exact (bget dev blockno) (fun r k' => exists s', quiet (k_sy k) s' /\ r = b /\
      k' = set_sy s' (set_buf b (fun x => locked_by (run_pid (k_sy k))
             (set_b_refcnt (u32 (b_refcnt x + 1)) x)) k)) k) as (r & ? & He & s' & Hq & -> & ->); [|by exists s'].
    apply (bget_hit_rule l b); try done; [|by eauto].
    apply Hsl. apply find_some in E1 as [E1 _]. by apply list_elem_of_In.
  - destruct (find (fun b => unused (buf_at k b)) (reverse l)) as [b|] eqn:E2; [|by apply (bget_none_panics l)].
    destruct (wp_exact (bget dev blockno) (fun r k' => exists s', quiet (k_sy k) s' /\ r = b /\
      k' = set_sy s' (set_buf b (fun x => locked_by (run_pid (k_sy k)) (recycle dev blockno x)) k)) k)
      as (r & ? & He & s' & Hq & -> & ->); [|by exists s'].
    apply (bget_miss_rule l b); try done; [|by eauto].
    apply Hsl. apply find_some in E2 as [E2 _]. apply list_elem_of_In in E2. by rewrite reverse_Permutation in E2.
Qed.

Lemma bget_policy_witness :
  exists s', forall e, bget ROOTDEV 7 e sample_bio = Ret 0%nat e
    (set_sy s' (set_buf 0 (fun x => locked_by (run_pid (k_sy sample_bio)) (recycle ROOTDEV 7 x)) sample_bio)).
Proof.
  pose proof (bget_policy (reverse (seq 0 NBUF)) ROOTDEV 7 sample_bio sample_bio_calm (proj1 sample_bio_spec)) as H.
  destruct (find (fun b => is_block ROOTDEV 7 (buf_at sample_bio b)) (reverse (seq 0 NBUF))) as [b|] eqn:E1.
  - exfalso. apply find_some in E1 as [E1 E2]. apply list_elem_of_In in E1.
    rewrite reverse_Permutation in E1. apply elem_of_seq in E1.
    destruct (sample_bio_buf b) as (_ & Hd & _); [lia|]. unfold is_block in E2. rewrite Hd in E2. discriminate E2.
  - rewrite reverse_involutive in H. change (seq 0 NBUF) with (0%nat :: seq 1 (NBUF - 1)) in H.
    cbn [find] in H. unfold unused in H at 1. destruct (sample_bio_buf 0) as (_ & _ & Hr & _); [unfold NBUF; simpl; lia|].
    rewrite Hr in H. cbn [Z.eqb] in H. destruct H as (s' & _ & He); [|exists s'; exact He].
    intros b Hb. rewrite reverse_Permutation in Hb. apply (sample_bio_buf b).
    change (0%nat :: seq 1 (NBUF - 1)) with (seq 0 NBUF) in Hb. apply elem_of_seq in Hb. lia.
Defined.

(** [brelse] of a buffer nobody else refers to moves it to the front of
    the ring, where it is recycled last, and keeps the order of the others;
    with other references left the ring stays.  Either way the buffer is
    unlocked, loses one reference, and keeps its contents. *)
Theorem brelse_mru l1 b l2 k :
  calm (k_sy k) -> ring k (l1 ++ b :: l2) -> held (run_pid (k_sy k)) (buf_at k b) ->
  0 < b_refcnt (buf_at k b) < 2 ^ 32 ->
  exists k', (forall e, brelse b e k = Ret tt e k') /\ quiet (k_sy k) (k_sy k') /\
    (if b_refcnt (buf_at k b) =? 1 then ring k' (b :: l1 ++ l2) else ring k' (l1 ++ b :: l2)) /\
    core (buf_at k' b) = core (unref (unlock (buf_at k b))) /\
    (forall i, i <> b -> core (buf_at k' i) = core (buf_at k i)).
Proof.
  intros Hc Hr Hh Href. assert (b ∈ l1 ++ b :: l2) as Hin by (apply elem_of_app; right; by left).
  assert (b < NBUF)%nat as Hb by (by apply (rg_all _ _ Hr)). pose proof (rg_len _ _ Hr) as Hlen.
  set (k1 := set_buf b (fun x => unref (unlock x)) k).
  assert (forall i, buf_at k1 i = if decide (i = b) then unref (unlock (buf_at k b)) else buf_at k i) as Hat.
  { intros i. unfold k1. rewrite buf_at_set by lia. done. }
  assert (ring k1 (l1 ++ b :: l2)) as Hr1.
  { apply (ring_ext k); [done|unfold k1; by rewrite length_set_buf|].
    intros i. unfold nx, pv. rewrite Hat. case_decide; by subst. }
  destruct (wp_exact (brelse b) (fun _ k' => exists s', quiet (k_sy k) s' /\ k' = set_sy s' (brelse_end b k)) k)
    as ([] & ? & He & s' & Hq & ->); [apply brelse_rule; eauto|].
  exists (set_sy s' (brelse_end b k)). split; [done|].
  assert (b_refcnt (buf_at k1 b) = b_refcnt (buf_at k b) - 1) as Eref.
  { rewrite Hat, decide_True by done. apply u32_id. change (b_refcnt (unlock (buf_at k b))) with (b_refcnt (buf_at k b)).
    lia. }
  unfold brelse_end. fold k1. rewrite Eref.
  assert (core (buf_at k1 b) = core (unref (unlock (buf_at k b)))) as Hcb by (rewrite Hat; by case_decide).
  assert (forall i, i <> b -> core (buf_at k1 i) = core (buf_at k i)) as Hci by (intros i Hi; rewrite Hat; by case_decide).
  destruct (Z.eqb_spec (b_refcnt (buf_at k b)) 1) as [E|E], (Z.eqb_spec (b_refcnt (buf_at k b) - 1) 0); try lia.
  - destruct (relink_ring k1 l1 l2 b Hr1) as [Hr2 Hl]. split_and!; try done.
    + by apply (ring_ext (push_front b (unlink b k1))).
    + rewrite buf_at_set_sy, (rl_core _ _ Hl). done.
    + intros i Hi. rewrite buf_at_set_sy, (rl_core _ _ Hl). by apply Hci.
  - split_and!; try done. by apply (ring_ext k1).
Qed.

(** [sample_bio] with buffer 5 held by the running process. *)
Definition sample_held : kernel :=
  set_buf 5 (fun x => locked_by (run_pid (k_sy sample_bio)) (set_b_refcnt 1 x)) sample_bio.

Lemma sample_held_at i :
  buf_at sample_held i = if decide (i = 5%nat)
    then locked_by (run_pid (k_sy sample_bio)) (set_b_refcnt 1 (buf_at sample_bio 5)) else buf_at sample_bio i.
Proof.
  unfold sample_held. rewrite buf_at_set; [reflexivity|].
  rewrite (rg_len _ _ (proj1 sample_bio_spec)). vm_compute. lia.
Qed.

Lemma brelse_mru_witness :
  exists k', (forall e, brelse 5 e sample_held = Ret tt e k') /\
    ring k' (5%nat :: reverse (seq 6 24) ++ reverse (seq 0 5)).
Proof.
  destruct (brelse_mru (reverse (seq 6 24)) 5 (reverse (seq 0 5)) sample_held) as (k' & H1 & _ & H2 & _).
  - exact sample_bio_calm.
  - apply (ring_ext sample_bio).
    + exact (proj1 sample_bio_spec).
    + unfold sample_held. apply length_set_buf.
    + intros i. unfold nx, pv. rewrite sample_held_at. destruct (decide (i = 5%nat)) as [->|]; split; reflexivity.
  - rewrite sample_held_at. split; reflexivity.
  - rewrite sample_held_at. split; reflexivity.
  - exists k'. split; [exact H1|]. rewrite sample_held_at in H2. exact H2.
Defined.

Section coherence.
Context {D : DiskDriver} {DL : DiskLaw D}.

(** [bread] returns a locked buffer that holds the block as the kernel
    last saw it, from the cache or else from the disk; it changes no block,
    neither on disk nor as seen through the cache, and keeps the cache
    consistent: one buffer per block, clean buffers equal to the disk,
    reference counts equal to the holders. *)
Theorem bread_coherent n P k :
  calm (k_sy k) -> bio_ok k ∅ P -> 0 <= n < FSSIZE -> (size P < NBUF)%nat ->
  wp disk_turn (bread ROOTDEV n) (fun b k' =>
    b_data (buf_at k' b) = view k n /\ held (run_pid (k_sy k')) (buf_at k' b) /\
    bio_ok k' (<[b := n]> ∅) P /\ the_disk k' = the_disk k /\ forall m, view k' m = view k m) k.
Proof.
  intros Hc Hb Hn Hs. apply (bread_rule n ∅ P); [done|done|done| | |].
  - intros b m. by rewrite lookup_empty.
  - destruct (free_buffer k ∅ P Hb) as (b & H1 & H2); [by rewrite map_size_empty|]. eauto.
  - intros b k' Hlt _ Hf Hok Hd Hv.
    destruct (held_buf k' (<[b := n]> ∅) P b n Hok) as (_ & _ & _ & _ & _ & _ & _ & Hh & _ & E).
    { apply lookup_insert_eq. }
    rewrite E, Hv. done.
Qed.

End coherence.

Lemma bread_coherent_witness :
  wp (disk_turn (DiskLaw := virtio_disk_law (V := sample_device))) (bread ROOTDEV 7) (fun b k' =>
    b_data (buf_at k' b) = view sample_bio 7) sample_bio.
Proof.
  eapply wp_mono.
  - apply (bread_coherent (DL := virtio_disk_law (V := sample_device)) 7 ∅ sample_bio).
    + exact sample_bio_calm.
    + exact sample_bio_ok.
    + split; [lia|reflexivity].
    + rewrite map_size_empty. vm_compute. lia.
  - intros b k' (E & _). exact E.
Defined.
