(* ===== verification/Log.v ===== *)
(** * [kernel/log.c]: the write-ahead log

    The on-disk header block is the array of bytes of [struct logheader]: the
    count [n] at offset 0 and [block[i]] at offset [4 + 4 i].  Reading or
    writing [log.lh.block] out of bounds is undefined in C; the model stops. *)

From S2P Require Import Prelude Defs State Logic Spinlock Sched Sleeplock Bio.

(** ** The in-memory log *)

Definition the_log (k : kernel) : log := fs_log (k_fs k).
Definition get_log : M log := gets the_log.
Definition put_log (g : log) (k : kernel) : kernel := set_fs (set_log g (k_fs k)) k.
Definition upd_log (f : log -> log) : M unit := modify (fun k => put_log (f (the_log k)) k).

Definition lh_get (g : log) (i : Z) : option Z := lh_block (lg_lh g) !! Z.to_nat i.

Definition get_lh_block (i : Z) : M Z :=
  let* g := get_log in
  match lh_get g i with Some x => ret x | None => undefined end.
Definition set_lh_blocks (i v : Z) (g : log) : log :=
  set_lg_lh (set_lh_block (<[Z.to_nat i := v]> (lh_block (lg_lh g))) (lg_lh g)) g.
Definition put_lh_block (i v : Z) : M unit :=
  if i <? LOGSIZE then upd_log (set_lh_blocks i v) else undefined.
Definition set_log_n (n : Z) (g : log) : log := set_lg_lh (set_lh_n n (lg_lh g)) g.

(** ** The header block *)

Definition hdr_n (d : list Z) : Z := s32 (getn 4 d 0).
Definition hdr_block (d : list Z) (i : Z) : Z := s32 (getn 4 d (4 + 4 * i)).
Definition hdr_put_n (d : list Z) (n : Z) : list Z := putn 4 d 0 (u32 n).
Definition hdr_put_block (d : list Z) (i b : Z) : list Z := putn 4 d (4 + 4 * i) (u32 b).
Definition sizeof_logheader : Z := 4 + 4 * LOGSIZE.

Section log.
Context {D : DiskDriver}.

(** [for (tail = 0; tail < log.lh.n; tail++) body] *)
Fixpoint log_loop (fuel : nat) (tail : Z) (body : Z -> M unit) : M unit :=
  match fuel with
  | O => fun e k => Loop k
  | S fuel =>
      let* g := get_log in
      if tail <? lh_n (lg_lh g) then body tail ;; log_loop fuel (tail + 1) body
      else ret tt
  end.
Definition for_log (body : Z -> M unit) : M unit :=
  let* g := get_log in log_loop (S (Z.to_nat (lh_n (lg_lh g)))) 0 body.

Definition install_trans : M unit :=
  for_log (fun tail =>
    let* g := get_log in
    let* lbuf := bread (u32 (lg_dev g)) (u32 (lg_start g + tail + 1)) in
    let* blk := get_lh_block tail in
    let* dbuf := bread (u32 (lg_dev g)) (u32 blk) in
    let* l := get_buf lbuf in
    upd_buf dbuf (set_b_data (b_data l)) ;;
    bwrite dbuf ;;
    bunpin dbuf ;;
    brelse lbuf ;;
    brelse dbuf).

Definition read_head : M unit :=
  let* g := get_log in
  let* b := bread (u32 (lg_dev g)) (u32 (lg_start g)) in
  let* x := get_buf b in
  let lh := b_data x in
  upd_log (set_log_n (hdr_n lh)) ;;
  for_log (fun i => put_lh_block i (hdr_block lh i)) ;;
  brelse b.

Definition write_head : M unit :=
  let* g := get_log in
  let* b := bread (u32 (lg_dev g)) (u32 (lg_start g)) in
  upd_buf b (fun x => set_b_data (hdr_put_n (b_data x) (lh_n (lg_lh g))) x) ;;
  for_log (fun i =>
    let* v := get_lh_block i in
    upd_buf b (fun x => set_b_data (hdr_put_block (b_data x) i v) x)) ;;
  bwrite b ;;
  brelse b.

Definition recover_from_log : M unit :=
  read_head ;;
  install_trans ;;
  upd_log (set_log_n 0) ;;
  write_head.

Definition initlog (dev : Z) (sb : superblock) : M unit :=
  if sizeof_logheader >=? BSIZE then panic "initlog: too big logheader" else
  initlock L_log "log" ;;
  upd_log (set_lg_start (s32 (sb_logstart sb))) ;;
  upd_log (set_lg_size (s32 (sb_nlog sb))) ;;
  upd_log (set_lg_dev dev) ;;
  recover_from_log.

Definition begin_op : M unit :=
  acquire L_log ;;
  wait_loop (fun _ : unit =>
    let* g := get_log in
    if c_true (lg_committing g) then sleep C_log L_log ;; ret (inl tt)
    else if lh_n (lg_lh g) + (lg_outstanding g + 1) * MAXOPBLOCKS >? LOGSIZE then
      sleep C_log L_log ;; ret (inl tt)
    else
      upd_log (fun g => set_lg_outstanding (lg_outstanding g + 1) g) ;;
      release L_log ;;
      ret (inr tt)) tt.

Definition write_log : M unit :=
  for_log (fun tail =>
    let* g := get_log in
    let* to := bread (u32 (lg_dev g)) (u32 (lg_start g + tail + 1)) in
    let* blk := get_lh_block tail in
    let* from := bread (u32 (lg_dev g)) (u32 blk) in
    let* f := get_buf from in
    upd_buf to (set_b_data (b_data f)) ;;
    bwrite to ;;
    brelse from ;;
    brelse to).

Definition commit : M unit :=
  let* g := get_log in
  when (lh_n (lg_lh g) >? 0)
    (write_log ;;
     write_head ;;
     install_trans ;;
     upd_log (set_log_n 0) ;;
     write_head).

Definition end_op : M unit :=
  acquire L_log ;;
  upd_log (fun g => set_lg_outstanding (lg_outstanding g - 1) g) ;;
  let* g := get_log in
  if c_true (lg_committing g) then panic "log.committing" else
  let do_commit := lg_outstanding g =? 0 in
  (if do_commit then upd_log (set_lg_committing 1) else wakeup C_log) ;;
  release L_log ;;
  when do_commit
    (commit ;;
     acquire L_log ;;
     upd_log (set_lg_committing 0) ;;
     wakeup C_log ;;
     release L_log).

(** [for (i = 0; i < log.lh.n; i++) if (log.lh.block[i] == b->blockno) break;] *)
Fixpoint absorb_index (blocks : list Z) (n : nat) (blockno i : Z) : Z :=
  match n, blocks with
  | S n, x :: blocks => if u32 x =? blockno then i else absorb_index blocks n blockno (i + 1)
  | _, _ => i
  end.

Definition log_write (b : nat) : M unit :=
  let* g := get_log in
  if (lh_n (lg_lh g) >=? LOGSIZE) || (lh_n (lg_lh g) >=? lg_size g - 1)
  then panic "too big a transaction" else
  if lg_outstanding g <? 1 then panic "log_write outside of trans" else
  acquire L_log ;;
  let* g := get_log in
  let* x := get_buf b in
  let i := absorb_index (lh_block (lg_lh g)) (Z.to_nat (lh_n (lg_lh g))) (b_blockno x) 0 in
  put_lh_block i (s32 (b_blockno x)) ;;
  when (i =? lh_n (lg_lh g))
    (bpin b ;;
     upd_log (fun g => set_log_n (lh_n (lg_lh g) + 1) g)) ;;
  release L_log.

End log.
