(* ===== verification/LogSpec.v ===== *)
(** * The log makes transactions atomic

    [commit] writes the modified blocks to the log, then the header, then the
    blocks to their homes, then an empty header.  This file derives the exact
    sequence of disk writes from the code, and shows that after a crash at
    any point of it [recover_from_log] leaves either the old or the new
    contents of all blocks. *)

From S2P Require Import Prelude Defs State Logic Spinlock Sched Sleeplock Bio BioList BioCache Log.

(** ** Sequences of disk writes *)

Definition apply_writes (ws : list (Z * list Z)) (d : disk) : disk :=
  foldl (fun d w => disk_write w.1 w.2 d) d ws.

Lemma apply_writes_app ws1 ws2 d : apply_writes (ws1 ++ ws2) d = apply_writes ws2 (apply_writes ws1 d).
Proof. apply foldl_app. Qed.

Lemma apply_writes_cons n x ws d : apply_writes ((n, x) :: ws) d = apply_writes ws (disk_write n x d).
Proof. done. Qed.

Lemma apply_writes_snoc n x ws d : apply_writes (ws ++ [(n, x)]) d = disk_write n x (apply_writes ws d).
Proof. by rewrite apply_writes_app. Qed.

Lemma dblk_write n x d m : dblk (disk_write n x d) m = if decide (m = n) then x else dblk d m.
Proof.
  unfold dblk, disk_write. kproj. case_decide as E; [subst; by rewrite lookup_insert_eq|].
  by rewrite lookup_insert_ne by done.
Qed.

Lemma dblk_writes_out ws d m : m ∉ ws.*1 -> dblk (apply_writes ws d) m = dblk d m.
Proof.
  revert d. induction ws as [|[n x] ws IH]; intros d Hm; [done|].
  rewrite fmap_cons in Hm. apply not_elem_of_cons in Hm as [Hne Hm].
  rewrite apply_writes_cons, IH by done.
  by rewrite dblk_write, decide_False.
Qed.

Lemma dblk_writes_in ws d m x :
  (m, x) ∈ ws -> NoDup ws.*1 -> dblk (apply_writes ws d) m = x.
Proof.
  revert d. induction ws as [|[n y] ws IH]; intros d Hin Hnd; [by apply elem_of_nil in Hin|].
  rewrite fmap_cons in Hnd. apply NoDup_cons in Hnd as [Hn Hnd]. rewrite apply_writes_cons.
  apply elem_of_cons in Hin as [[= -> ->]|Hin]; [|by apply IH].
  rewrite dblk_writes_out by done.
  by rewrite dblk_write, decide_True.
Qed.

Section spec.
Context {D : DiskDriver} {DL : DiskLaw D}.

(** ** Loops over the log *)

Lemma log_loop_rule {tn} (I : nat -> kernel -> Prop) body (Q : unit -> kernel -> Prop) n fuel t k :
  (n - t < fuel)%nat -> (t <= n)%nat -> I t k ->
  (forall t k, (t <= n)%nat -> I t k -> lh_n (lg_lh (the_log k)) = Z.of_nat n) ->
  (forall t k, (t < n)%nat -> I t k -> wp tn (body (Z.of_nat t)) (fun _ k' => I (S t) k') k) ->
  (forall k, I n k -> Q tt k) ->
  wp tn (log_loop fuel (Z.of_nat t) body) Q k.
Proof.
  intros Hf Ht HI Hn Hbody HQ. revert t k Hf Ht HI.
  induction fuel as [|fuel IH]; intros t k Hf Ht HI; [lia|]. cbn [log_loop].
  apply wp_bind, wp_gets. rewrite (Hn t k) by done.
  destruct (Z.ltb_spec (Z.of_nat t) (Z.of_nat n)).
  - apply wp_bind. eapply wp_mono; [apply Hbody; [lia|done]|]. intros [] k' HI'.
    replace (Z.of_nat t + 1) with (Z.of_nat (S t)) by lia. apply IH; [lia|lia|done].
  - replace t with n in * by lia. by apply wp_ret, HQ.
Qed.

Lemma for_log_rule {tn} (I : nat -> kernel -> Prop) body (Q : unit -> kernel -> Prop) n k :
  I 0%nat k ->
  (forall t k, (t <= n)%nat -> I t k -> lh_n (lg_lh (the_log k)) = Z.of_nat n) ->
  (forall t k, (t < n)%nat -> I t k -> wp tn (body (Z.of_nat t)) (fun _ k' => I (S t) k') k) ->
  (forall k, I n k -> Q tt k) ->
  wp tn (for_log body) Q k.
Proof.
  intros HI Hn Hbody HQ. unfold for_log. apply wp_bind, wp_gets. rewrite (Hn 0%nat k), Nat2Z.id by (done || lia).
  apply (log_loop_rule I body Q n (S n) 0 k); auto; lia.
Qed.

(** ** The state of a transaction *)

(** The log blocks are [st + 1 .. st + LOGSIZE], after the header block [st]. *)
Definition in_log (st m : Z) : Prop := st <= m < st + LOGSIZE.

(** [g] records the blocks [bl] as modified. *)
Record log_has (g : log) (st : Z) (bl : list Z) : Prop := {
  lo_dev : lg_dev g = ROOTDEV;
  lo_start : lg_start g = st;
  lo_area : 0 <= st /\ st + LOGSIZE < FSSIZE;
  lo_n : lh_n (lg_lh g) = Z.of_nat (length bl);
  lo_len : length (lh_block (lg_lh g)) = Z.to_nat LOGSIZE;
  lo_fits : (length bl < Z.to_nat LOGSIZE)%nat;
  lo_blocks i x : bl !! i = Some x -> lh_block (lg_lh g) !! i = Some x;
  lo_nodup : NoDup bl;
  lo_home x : x ∈ bl -> 0 <= x < FSSIZE /\ ~ in_log st x }.

Definition get_blk (bl : list Z) (t : nat) : Z := default 0 (bl !! t).

Lemma log_block_rule {tn} g st bl t x (Q : Z -> kernel -> Prop) k :
  log_has g st bl -> the_log k = g -> bl !! t = Some x -> Q x k ->
  wp tn (get_lh_block (Z.of_nat t)) Q k.
Proof.
  intros Hg <- Hx HQ. unfold get_lh_block. apply wp_bind, wp_gets. unfold lh_get.
  rewrite Nat2Z.id, (lo_blocks _ _ _ Hg t x) by done. by apply wp_ret.
Qed.

Lemma u32_block x : 0 <= x < FSSIZE -> u32 x = x.
Proof. intros H. apply u32_small. unfold FSSIZE in H. lia. Qed.

(** ** write_log *)

(** The writes of the first [t] iterations: block [bl[i]] to log block [i]. *)
Definition log_ws (k : kernel) (st : Z) (bl : list Z) (t : nat) : list (Z * list Z) :=
  map (fun i => (st + Z.of_nat i + 1, view k (get_blk bl i))) (seq 0 t).

Lemma log_ws_S k st bl t :
  log_ws k st bl (S t) = log_ws k st bl t ++ [(st + Z.of_nat t + 1, view k (get_blk bl t))].
Proof. unfold log_ws. rewrite seq_S, map_app. done. Qed.

(** Between operations the cache holds nothing but the pins of the log. *)
Record tx_ok (k : kernel) (st : Z) (bl : list Z) (P : gmap Z Z) : Prop := {
  tx_calm : calm (k_sy k);
  tx_log : log_has (the_log k) st bl;
  tx_bio : bio_ok k ∅ P;
  tx_size : (size P < NBUF)%nat;
  tx_pins m : in_log st m -> pin P m = 0 }.

Lemma tx_frame k k' st bl P :
  tx_ok k st bl P -> bio_frame k k' -> bio_ok k' ∅ P -> tx_ok k' st bl P.
Proof.
  intros [H1 H2 H3 H4 H5] Hf Hb. split; try done; [by eapply bio_frame_calm|].
  unfold the_log. by rewrite (bf_log _ _ Hf).
Qed.

Lemma in_area st i : 0 <= i < LOGSIZE - 1 -> 0 <= st -> st + LOGSIZE < FSSIZE ->
  0 <= st + i + 1 < FSSIZE /\ in_log st (st + i + 1).
Proof. unfold in_log, FSSIZE. lia. Qed.

(** Two blocks held at once, [b1] taken first; both given back. *)
Lemma delete_two (b1 b2 : nat) (n1 n2 : Z) : b1 <> b2 ->
  delete b2 (<[b2 := n2]> (<[b1 := n1]> (∅ : gmap nat Z))) = <[b1 := n1]> ∅ /\
  delete b1 (<[b2 := n2]> (<[b1 := n1]> (∅ : gmap nat Z))) = <[b2 := n2]> ∅ /\
  delete b1 (<[b1 := n1]> (∅ : gmap nat Z)) = ∅ /\ delete b2 (<[b2 := n2]> (∅ : gmap nat Z)) = ∅.
Proof.
  intros Hne. split_and!.
  - apply delete_insert_id. by rewrite lookup_insert_ne, lookup_empty.
  - rewrite delete_insert_ne by done. f_equal. by apply delete_insert_id.
  - by apply delete_insert_id.
  - by apply delete_insert_id.
Qed.

(** Reading a log block and then a block it stands for. *)
Lemma read_pair_rule st bl P (n1 n2 : Z) {A} (f : nat -> nat -> M A) (mid : M Z)
    (Q : A -> kernel -> Prop) k :
  tx_ok k st bl P -> 0 <= n1 < FSSIZE -> 0 <= n2 < FSSIZE -> n1 <> n2 -> pin P n1 = 0 ->
  (pin P n2 <> 0 \/ (S (size P) < NBUF)%nat) ->
  (forall k' Q', the_log k' = the_log k -> Q' n2 k' -> wp disk_turn mid Q' k') ->
  (forall b1 b2 k', b1 <> b2 -> bio_frame k k' ->
     bio_ok k' (<[b2 := n2]> (<[b1 := n1]> ∅)) P -> the_disk k' = the_disk k ->
     (forall m, view k' m = view k m) -> wp disk_turn (f b1 b2) Q k') ->
  wp disk_turn (let* b1 := bread ROOTDEV n1 in
                let* n := mid in
                let* b2 := bread ROOTDEV (u32 n) in f b1 b2) Q k.
Proof.
  intros Htx Hn1 Hn2 Hne Hp1 Hcase Hmid HQ. pose proof (tx_bio _ _ _ _ Htx) as Hb.
  apply wp_bind, (bread_rule n1 ∅ P); [apply Htx|done|done| | |].
  { intros b m. by rewrite lookup_empty. }
  { destruct (free_buffer k ∅ P Hb) as (b & H1 & H2); [rewrite map_size_empty; apply Htx|].
    exists b. auto. }
  intros b1 k1 Hb1 _ Hf1 Hok1 Hd1 Hv1. apply wp_bind, Hmid; [apply Hf1|].
  rewrite u32_block by done. apply wp_bind, (bread_rule n2 (<[b1 := n1]> ∅) P); [|done|done| | |].
  { eapply bio_frame_calm; [done|apply Htx]. }
  { intros b m. destruct (decide (b = b1)) as [->|Hbb]; [|by rewrite lookup_insert_ne, lookup_empty].
    rewrite lookup_insert_eq. intros [= <-]. split; [done|]. lia. }
  { destruct Hcase as [Hp2|Hs].
    - destruct (bo_pin _ _ _ Hok1 n2 Hp2) as (b & H1 & H2 & _). exists b. auto.
    - destruct (free_buffer k1 (<[b1 := n1]> ∅) P Hok1) as (b & H1 & H2).
      + rewrite map_size_insert_None, map_size_empty by apply lookup_empty. lia.
      + exists b. auto. }
  intros b2 k2 Hb2 Hno2 Hf2 Hok2 Hd2 Hv2. apply (HQ b1 b2 k2).
  - intros ->. by rewrite lookup_insert_eq in Hno2.
  - by etransitivity.
  - done.
  - congruence.
  - intros m. by rewrite Hv2.
Qed.

(** One block copied from buffer [src] to buffer [dst] and written. *)
Lemma copy_write_rule H P (src dst : nat) (n1 n2 : Z) {A} (f : M A) (Q : A -> kernel -> Prop) k :
  calm (k_sy k) -> bio_ok k H P -> H !! src = Some n1 -> H !! dst = Some n2 ->
  (forall k', bio_frame k k' -> bio_ok k' H P ->
     the_disk k' = disk_write n2 (view k n1) (the_disk k) ->
     (forall m, view k' m = if decide (m = n2) then view k n1 else view k m) ->
     wp disk_turn f Q k') ->
  wp disk_turn (let* x := get_buf src in
                upd_buf dst (set_b_data (b_data x)) ;; bwrite dst ;; f) Q k.
Proof.
  intros Hc Hb H1 H2 HQ. apply wp_bind, wp_gets.
  destruct (held_buf k H P src n1 Hb H1) as (_ & _ & _ & _ & Hlen & _ & _ & _ & _ & ->).
  destruct (set_data_ok k H P dst n2 (view k n1)) as (Hb1 & Hf1 & Hd1 & Hv1); [done|done|by eapply view_length|].
  apply wp_bind, upd_buf_rule, wp_bind, (bwrite_rule dst n2 H P); [by eapply bio_frame_calm|done|done|].
  intros k' Hf' Hb' Hd' Hv'. apply HQ; [by etransitivity|done| |].
  - rewrite Hd', Hv1, decide_True, Hd1 by done. done.
  - intros m. by rewrite Hv'.
Qed.

(** One iteration of [write_log] copies block [x] to slot [t] of the log. *)
Lemma write_log_step st bl P t x (Q : unit -> kernel -> Prop) k :
  tx_ok k st bl P -> bl !! t = Some x -> pin P x = 1 ->
  (forall k', bio_frame k k' -> bio_ok k' ∅ P ->
     the_disk k' = disk_write (st + Z.of_nat t + 1) (view k x) (the_disk k) ->
     (forall m, view k' m = if decide (m = st + Z.of_nat t + 1) then view k x else view k m) -> Q tt k') ->
  wp disk_turn (let* g := get_log in
    let* to := bread (u32 (lg_dev g)) (u32 (lg_start g + Z.of_nat t + 1)) in
    let* blk := get_lh_block (Z.of_nat t) in
    let* from := bread (u32 (lg_dev g)) (u32 blk) in
    let* f := get_buf from in
    upd_buf to (set_b_data (b_data f)) ;;
    bwrite to ;;
    brelse from ;;
    brelse to) Q k.
Proof.
  intros Htx Hx Hpin HQ. apply wp_bind, wp_gets. pose proof (tx_log _ _ _ _ Htx) as Hg.
  pose proof (lo_fits _ _ _ Hg) as Hfit. pose proof (lo_area _ _ _ Hg) as [Ha1 Ha2].
  pose proof (lookup_lt_Some _ _ _ Hx) as Hlt. rewrite (lo_dev _ _ _ Hg), (lo_start _ _ _ Hg).
  assert (x ∈ bl) as Hin by (by eapply list_elem_of_lookup_2).
  destruct (lo_home _ _ _ Hg x Hin) as [Hx1 Hx2].
  destruct (in_area st (Z.of_nat t)) as [Ha3 Ha4]; [lia|done|done|].
  rewrite (u32_block (st + Z.of_nat t + 1)) by done. set (a := st + Z.of_nat t + 1) in *.
  apply (read_pair_rule st bl P a x); try done.
  - intros E. by rewrite <- E in Hx2.
  - by apply (tx_pins _ _ _ _ Htx).
  - left. by rewrite Hpin.
  - intros k2 Q2 E2 HQ2. apply (log_block_rule (the_log k) st bl t x); done.
  - intros b1 b2 k2 Hne Hf2 Hok2 Hd2 Hv2. destruct (delete_two b1 b2 a x Hne) as (E1 & E2 & E3 & E4).
    assert (calm (k_sy k2)) as Hc2 by (eapply bio_frame_calm; [done|apply Htx]).
    apply (copy_write_rule (<[b2 := x]> (<[b1 := a]> ∅)) P b2 b1 x a);
      [done|done|apply lookup_insert_eq|rewrite lookup_insert_ne by done; apply lookup_insert_eq|].
    intros k3 Hf3 Hok3 Hd3 Hv3. assert (calm (k_sy k3)) as Hc3 by by eapply bio_frame_calm.
    apply wp_bind, (brelse_cache_rule b2 x (<[b2 := x]> (<[b1 := a]> ∅)) P);
      [done|done|apply lookup_insert_eq|by rewrite Hpin|].
    rewrite E1. intros k4 Hf4 Hok4 Hd4 Hv4.
    apply (brelse_cache_rule b1 a (<[b1 := a]> ∅) P); [by eapply bio_frame_calm|done|apply lookup_insert_eq| |].
    { intros _. rewrite Hv4, Hd4, Hd3, Hv3, dblk_write, !decide_True by done. done. }
    rewrite E3. intros k5 Hf5 Hok5 Hd5 Hv5. apply HQ; [do 3 (etransitivity; [done|]); done|done| |].
    + by rewrite Hd5, Hd4, Hd3, Hd2, Hv2.
    + intros m. rewrite Hv5, Hv4, Hv3, !Hv2. done.
Qed.

Lemma write_log_rule st bl P (Q : unit -> kernel -> Prop) k :
  tx_ok k st bl P -> (forall x, x ∈ bl -> pin P x = 1) ->
  (forall k', bio_frame k k' -> tx_ok k' st bl P ->
     the_disk k' = apply_writes (log_ws k st bl (length bl)) (the_disk k) ->
     (forall m, ~ in_log st m -> view k' m = view k m) ->
     (forall i, (i < length bl)%nat -> view k' (st + Z.of_nat i + 1) = view k (get_blk bl i)) -> Q tt k') ->
  wp disk_turn write_log Q k.
Proof.
  intros Htx Hpin HQ. unfold write_log.
  apply (for_log_rule (fun t k' => bio_frame k k' /\ tx_ok k' st bl P /\
    the_disk k' = apply_writes (log_ws k st bl t) (the_disk k) /\
    (forall m, ~ in_log st m -> view k' m = view k m) /\
    (forall i, (i < t)%nat -> view k' (st + Z.of_nat i + 1) = view k (get_blk bl i))) _ _ (length bl)).
  - split_and!; try done. intros i Hi. lia.
  - intros t k' _ (_ & Ht & _). apply (lo_n _ _ _ (tx_log _ _ _ _ Ht)).
  - intros t k1 Hlt (Hf1 & Ht1 & Hd1 & Hv1 & Hw1). pose proof (tx_log _ _ _ _ Ht1) as Hg1.
    destruct (lookup_lt_is_Some_2 bl t Hlt) as [x Hx].
    assert (x ∈ bl) as Hin by (by eapply list_elem_of_lookup_2).
    assert (get_blk bl t = x) as Ex by (unfold get_blk; by rewrite Hx).
    destruct (lo_home _ _ _ Hg1 x Hin) as [_ Hx2]. pose proof (lo_fits _ _ _ Hg1).
    destruct (lo_area _ _ _ Hg1). destruct (in_area st (Z.of_nat t)) as [_ Ha4]; [lia|done|done|].
    apply (write_log_step st bl P t x); [done|done|by apply Hpin|]. intros k5 Hf5 Hok5 Hd5 Hv5. split_and!.
    + by etransitivity.
    + by eapply tx_frame.
    + rewrite Hd5, log_ws_S, apply_writes_app, <- Hd1, Ex. simpl. by rewrite Hv1.
    + intros m Hm. rewrite Hv5, decide_False by (by intros ->). by apply Hv1.
    + intros i Hi. rewrite Hv5. case_decide as E; [|apply Hw1; lia].
      replace i with t by lia. rewrite Ex. by apply Hv1.
  - intros k' (H1 & H2 & H3 & H4 & H5). by apply HQ.
Qed.

(** ** write_head *)

(** The header block after [t] iterations of the loop, from the contents [d]. *)
Definition hdr_upto (d : list Z) (bl : list Z) (t : nat) : list Z :=
  foldl (fun d i => hdr_put_block d (Z.of_nat i) (get_blk bl i))
    (hdr_put_n d (Z.of_nat (length bl))) (seq 0 t).
Definition header (d : list Z) (bl : list Z) : list Z := hdr_upto d bl (length bl).

Lemma hdr_upto_S d bl t :
  hdr_upto d bl (S t) = hdr_put_block (hdr_upto d bl t) (Z.of_nat t) (get_blk bl t).
Proof. unfold hdr_upto. by rewrite seq_S, foldl_app. Qed.

Lemma length_hdr_upto d bl t : length (hdr_upto d bl t) = length d.
Proof.
  induction t as [|t IH]; [apply length_putn|]. rewrite hdr_upto_S. unfold hdr_put_block.
  by rewrite length_putn.
Qed.

Lemma s32_u32 x : 0 <= x < 2 ^ 31 -> s32 (u32 x) = x.
Proof. intros H. rewrite u32_id by lia. apply swrap_id; lia. Qed.

(** [block] holds a block number of the file system. *)
Definition small_blocks (bl : list Z) : Prop := forall x, x ∈ bl -> 0 <= x < FSSIZE.

Lemma get_blk_small bl i : small_blocks bl -> 0 <= get_blk bl i < FSSIZE.
Proof.
  intros H. unfold get_blk. destruct (bl !! i) as [x|] eqn:E; simpl; [|by vm_compute].
  by apply H; eapply list_elem_of_lookup_2.
Qed.

Lemma hdr_upto_n d bl t :
  length d = Z.to_nat BSIZE -> (length bl < Z.to_nat LOGSIZE)%nat ->
  hdr_n (hdr_upto d bl t) = Z.of_nat (length bl).
Proof.
  intros Hd Hl. unfold LOGSIZE, MAXOPBLOCKS in Hl. unfold hdr_n. induction t as [|t IH].
  - unfold hdr_upto, hdr_put_n. simpl. rewrite getn_putn_eq; [|lia| |].
    + apply s32_u32. lia.
    + rewrite Hd. unfold BSIZE. lia.
    + apply u32_range.
  - rewrite hdr_upto_S. unfold hdr_put_block. rewrite getn_putn_ne by lia. done.
Qed.

Lemma hdr_upto_block d bl t i :
  length d = Z.to_nat BSIZE -> (t < Z.to_nat LOGSIZE)%nat -> small_blocks bl -> (i < t)%nat ->
  hdr_block (hdr_upto d bl t) (Z.of_nat i) = get_blk bl i.
Proof.
  intros Hd Ht Hs Hi. unfold hdr_block. revert Ht. unfold LOGSIZE, MAXOPBLOCKS.
  induction t as [|t IH]; intros Ht; [lia|]. rewrite hdr_upto_S. unfold hdr_put_block.
  destruct (decide (i = t)) as [->|Hne].
  - rewrite getn_putn_eq; [|lia| |].
    + apply s32_u32. pose proof (get_blk_small bl t Hs). unfold FSSIZE in *. lia.
    + rewrite length_hdr_upto, Hd. unfold BSIZE. lia.
    + apply u32_range.
  - rewrite getn_putn_ne by lia. apply IH; lia.
Qed.

Lemma write_head_rule st bl P (Q : unit -> kernel -> Prop) k :
  tx_ok k st bl P ->
  (forall k', bio_frame k k' -> tx_ok k' st bl P ->
     the_disk k' = disk_write st (header (view k st) bl) (the_disk k) ->
     (forall m, view k' m = if decide (m = st) then header (view k st) bl else view k m) -> Q tt k') ->
  wp disk_turn write_head Q k.
Proof.
  intros Htx HQ. pose proof (tx_log _ _ _ _ Htx) as Hg. pose proof (tx_bio _ _ _ _ Htx) as Hb.
  destruct (lo_area _ _ _ Hg) as [Ha1 Ha2].
  assert (in_log st st) as Hst by (unfold in_log, LOGSIZE, MAXOPBLOCKS; lia).
  assert (0 <= st < FSSIZE) as Hst2 by (unfold in_log in Hst; lia).
  unfold write_head. apply wp_bind, wp_gets. rewrite (lo_dev _ _ _ Hg), (lo_start _ _ _ Hg), (lo_n _ _ _ Hg).
  rewrite (u32_block st) by done. apply wp_bind, (bread_rule st ∅ P); [apply Htx|done|done| | |].
  { intros b m. by rewrite lookup_empty. }
  { destruct (free_buffer k ∅ P Hb) as (b & H1 & H2); [rewrite map_size_empty; apply Htx|]. eauto. }
  intros b k1 Hb1 _ Hf1 Hok1 Hd1 Hv1. set (H := <[b := st]> (∅ : gmap nat Z)).
  assert (H !! b = Some st) as HH by apply lookup_insert_eq.
  assert (length (view k st) = Z.to_nat BSIZE) as Hlen by (by eapply view_length).
  apply wp_bind, (edit_rule b st H P (fun d => hdr_put_n d (Z.of_nat (length bl)))); [done|done| |].
  { unfold hdr_put_n. by rewrite length_putn, Hv1. }
  intros k1' Hf1' Hok1' Hd1' Hv1'.
  apply wp_bind, (for_log_rule (fun t k' => bio_frame k k' /\ bio_ok k' H P /\ the_disk k' = the_disk k /\
    (forall m, view k' m = if decide (m = st) then hdr_upto (view k st) bl t else view k m)) _ _ (length bl)).
  - split_and!; [by etransitivity|done|congruence|]. intros m. rewrite Hv1', Hv1.
    case_decide; [done|apply Hv1].
  - intros t k' _ (Hf' & _). unfold the_log. rewrite (bf_log _ _ Hf'). apply Hg.
  - intros t k2 Ht (Hf2 & Hok2 & Hd2 & Hv2). destruct (lookup_lt_is_Some_2 bl t Ht) as [x Hx].
    apply wp_bind, (log_block_rule (the_log k) st bl t x); [done|apply Hf2|done|].
    apply (edit_rule b st H P (fun d => hdr_put_block d (Z.of_nat t) x)); [done|done| |].
    { unfold hdr_put_block. by rewrite length_putn, Hv2, decide_True, length_hdr_upto. }
    intros k3 Hf3 Hok3 Hd3 Hv3. split_and!; [by etransitivity|done|congruence|].
    intros m. rewrite Hv3, hdr_upto_S. unfold get_blk. rewrite Hx. case_decide as E.
    + by rewrite Hv2, decide_True.
    + by rewrite Hv2, decide_False.
  - intros k2 (Hf2 & Hok2 & Hd2 & Hv2).
    assert (calm (k_sy k2)) as Hc2 by (eapply bio_frame_calm; [done|apply Htx]).
    apply wp_bind, (bwrite_rule b st H P); [done..|]. intros k3 Hf3 Hok3 Hd3 Hv3.
    apply (brelse_cache_rule b st H P); [by eapply bio_frame_calm|done|done| |].
    { intros _. by rewrite Hd3, Hv3, dblk_write, decide_True. }
    intros k4 Hf4 Hok4 Hd4 Hv4. unfold H in Hok4. rewrite delete_insert_id in Hok4 by apply lookup_empty.
    assert (bio_frame k k4) as Hf by (do 2 (etransitivity; [done|]); done).
    apply HQ; [done|by eapply tx_frame| |].
    + rewrite Hd4, Hd3, Hv2, decide_True, Hd2 by done. done.
    + intros m. by rewrite Hv4, Hv3, Hv2.
Qed.

(** ** install_trans *)

(** The writes of the first [t] iterations: log block [i] to block [bl[i]]. *)
Definition home_ws (k : kernel) (st : Z) (bl : list Z) (t : nat) : list (Z * list Z) :=
  map (fun i => (get_blk bl i, view k (st + Z.of_nat i + 1))) (seq 0 t).

Lemma home_ws_S k st bl t :
  home_ws k st bl (S t) = home_ws k st bl t ++ [(get_blk bl t, view k (st + Z.of_nat t + 1))].
Proof. unfold home_ws. rewrite seq_S, map_app. done. Qed.

(** Each iteration gives back one pin of its block, whether it was pinned or not. *)
Definition unpinned (bl : list Z) (P : gmap Z Z) (t : nat) : gmap Z Z :=
  foldl (fun P i => <[get_blk bl i := pin P (get_blk bl i) - 1]> P) P (seq 0 t).

Lemma unpinned_S bl P t :
  unpinned bl P (S t) = <[get_blk bl t := pin (unpinned bl P t) (get_blk bl t) - 1]> (unpinned bl P t).
Proof. unfold unpinned. by rewrite seq_S, foldl_app. Qed.

Lemma pin_unpinned_out bl P t m : m ∉ take t bl -> (t <= length bl)%nat -> pin (unpinned bl P t) m = pin P m.
Proof.
  induction t as [|t IH]; intros Hm Ht; [done|]. destruct (lookup_lt_is_Some_2 bl t) as [x Hx]; [lia|].
  rewrite (take_S_r bl t x Hx), not_elem_of_app, list_elem_of_singleton in Hm. destruct Hm as [Hm Hne].
  rewrite unpinned_S, pin_insert. unfold get_blk. rewrite Hx. simpl. rewrite decide_False by done.
  apply IH; [done|lia].
Qed.

Lemma nodup_take (bl : list Z) t x : NoDup bl -> bl !! t = Some x -> x ∉ take t bl.
Proof.
  intros Hnd Hx Hin. apply list_elem_of_lookup in Hin as [i Hi].
  destruct (decide (i < t)%nat) as [Hlt|Hge].
  - rewrite lookup_take_lt in Hi by done. pose proof (NoDup_lookup _ _ _ _ Hnd Hi Hx). lia.
  - by rewrite lookup_take_ge in Hi by lia.
Qed.

Lemma pin_unpinned_in bl P t m :
  NoDup bl -> (t <= length bl)%nat -> m ∈ take t bl -> pin (unpinned bl P t) m = pin P m - 1.
Proof.
  intros Hnd. induction t as [|t IH]; intros Ht Hm; [by apply elem_of_nil in Hm|].
  destruct (lookup_lt_is_Some_2 bl t) as [x Hx]; [lia|].
  assert (x ∉ take t bl) as Hnx by (by apply nodup_take).
  rewrite (take_S_r bl t x Hx), elem_of_app, list_elem_of_singleton in Hm.
  rewrite unpinned_S, pin_insert. unfold get_blk. rewrite Hx. simpl.
  case_decide as E; [subst; by rewrite pin_unpinned_out by (done || lia)|].
  destruct Hm as [Hm|]; [|done]. apply IH; [lia|done].
Qed.

Lemma size_unpinned bl P t : (size (unpinned bl P t) <= size P + t)%nat.
Proof.
  induction t as [|t IH]; [change (unpinned bl P 0) with P; lia|].
  rewrite unpinned_S, map_size_insert. destruct (unpinned bl P t !! get_blk bl t); unfold id; lia.
Qed.

Lemma size_unpinned_same bl P t :
  NoDup bl -> (t <= length bl)%nat -> (forall x, x ∈ bl -> pin P x <> 0) -> size (unpinned bl P t) = size P.
Proof.
  intros Hnd Ht Hp. induction t as [|t IH]; [done|]. rewrite unpinned_S, map_size_insert_Some; [apply IH; lia|].
  destruct (lookup_lt_is_Some_2 bl t) as [x Hx]; [lia|]. unfold get_blk at 1. rewrite Hx. simpl.
  assert (pin (unpinned bl P t) x <> 0) as Hpx.
  { rewrite pin_unpinned_out; [|by apply nodup_take|lia]. by apply Hp; eapply list_elem_of_lookup_2. }
  unfold pin in Hpx. destruct (unpinned bl P t !! x); [by eexists|done].
Qed.

(** One iteration of [install_trans]. *)
Lemma install_one_rule st bl P (t : nat) x (Q : unit -> kernel -> Prop) k :
  tx_ok k st bl P -> bl !! t = Some x -> 0 <= pin P x <= 1 ->
  (pin P x <> 0 \/ (S (size P) < NBUF)%nat) ->
  (forall k', bio_frame k k' -> bio_ok k' ∅ (<[x := pin P x - 1]> P) ->
     the_disk k' = disk_write x (view k (st + Z.of_nat t + 1)) (the_disk k) ->
     (forall m, view k' m = if decide (m = x) then view k (st + Z.of_nat t + 1) else view k m) -> Q tt k') ->
  wp disk_turn (let* g := get_log in
    let* lbuf := bread (u32 (lg_dev g)) (u32 (lg_start g + Z.of_nat t + 1)) in
    let* blk := get_lh_block (Z.of_nat t) in
    let* dbuf := bread (u32 (lg_dev g)) (u32 blk) in
    let* l := get_buf lbuf in
    upd_buf dbuf (set_b_data (b_data l)) ;;
    bwrite dbuf ;; bunpin dbuf ;; brelse lbuf ;; brelse dbuf) Q k.
Proof.
  intros Htx Hx Hp Hcase HQ. pose proof (tx_log _ _ _ _ Htx) as Hg.
  pose proof (lo_fits _ _ _ Hg) as Hfit. destruct (lo_area _ _ _ Hg) as [Ha1 Ha2].
  assert (x ∈ bl) as Hin by (by eapply list_elem_of_lookup_2).
  destruct (lo_home _ _ _ Hg x Hin) as [Hx1 Hx2]. pose proof (lookup_lt_Some _ _ _ Hx) as Ht.
  apply wp_bind, wp_gets. rewrite (lo_dev _ _ _ Hg), (lo_start _ _ _ Hg).
  destruct (in_area st (Z.of_nat t)) as [Ha3 Ha4]; [lia|done|done|].
  set (n := st + Z.of_nat t + 1) in *. rewrite (u32_block n) by done.
  assert (n <> x) as Hnx by (intros E; by rewrite <- E in Hx2).
  assert (pin P n = 0) as Hpn by (by apply (tx_pins _ _ _ _ Htx)).
  assert (view k n = dblk (the_disk k) n) as Hcl by (by apply (view_clean k P), Hpn; apply Htx).
  apply (read_pair_rule st bl P n x); try done.
  { intros k2 Q2 E2 HQ2. apply (log_block_rule (the_log k) st bl t x); done. }
  intros b1 b2 k2 Hne Hf2 Hok2 Hd2 Hv2. destruct (delete_two b1 b2 n x Hne) as (_ & E2 & _ & E4).
  set (H := <[b2 := x]> (<[b1 := n]> (∅ : gmap nat Z))) in *.
  assert (H !! b2 = Some x) as H2 by apply lookup_insert_eq.
  assert (H !! b1 = Some n) as H1 by (unfold H; rewrite lookup_insert_ne by done; apply lookup_insert_eq).
  assert (calm (k_sy k2)) as Hc2 by (eapply bio_frame_calm; [done|apply Htx]).
  apply (copy_write_rule H P b1 b2 n x); [done..|]. intros k3 Hf3 Hok3 Hd3 Hv3.
  assert (calm (k_sy k3)) as Hc3 by (by eapply bio_frame_calm).
  apply wp_bind, (repin_rule (-1) b2 x H P); [by eauto with kern|by apply (ca_free _ Hc3); right; right; left|done|done|lia|].
  intros k4 Hf4 Hok4 Hd4 Hv4. change (pin P x + -1) with (pin P x - 1) in Hok4.
  assert (calm (k_sy k4)) as Hc4 by (by eapply bio_frame_calm).
  apply wp_bind, (brelse_cache_rule b1 n H (<[x := pin P x - 1]> P)); [done|done|done| |].
  { intros _. by rewrite Hv4, Hv3, Hd4, Hd3, dblk_write, !decide_False, Hv2, Hd2. }
  rewrite E2. intros k5 Hf5 Hok5 Hd5 Hv5.
  apply (brelse_cache_rule b2 x (<[b2 := x]> ∅) (<[x := pin P x - 1]> P));
    [by eapply bio_frame_calm|done|apply lookup_insert_eq| |].
  { intros _. by rewrite Hv5, Hv4, Hv3, Hd5, Hd4, Hd3, dblk_write, !decide_True. }
  rewrite E4. intros k6 Hf6 Hok6 Hd6 Hv6. apply HQ; [|done| |].
  - do 4 (etransitivity; [done|]). done.
  - by rewrite Hd6, Hd5, Hd4, Hd3, Hd2, Hv2.
  - intros m. rewrite Hv6, Hv5, Hv4, Hv3. case_decide; apply Hv2.
Qed.

Lemma install_trans_rule st bl P c (Q : unit -> kernel -> Prop) k :
  tx_ok k st bl P -> 0 <= c <= 1 -> (forall x, x ∈ bl -> pin P x = c) ->
  (c = 1 \/ (size P + length bl < NBUF)%nat) ->
  (forall k', bio_frame k k' -> tx_ok k' st bl (unpinned bl P (length bl)) ->
     the_disk k' = apply_writes (home_ws k st bl (length bl)) (the_disk k) ->
     (forall m, m ∉ bl -> view k' m = view k m) ->
     (forall i, (i < length bl)%nat -> view k' (get_blk bl i) = view k (st + Z.of_nat i + 1)) -> Q tt k') ->
  wp disk_turn install_trans Q k.
Proof.
  intros Htx Hc01 Hpc Hroom HQ. pose proof (tx_log _ _ _ _ Htx) as Hg.
  pose proof (lo_nodup _ _ _ Hg) as Hnd. pose proof (lo_home _ _ _ Hg) as Hhome.
  assert (forall t, (t <= length bl)%nat -> (size (unpinned bl P t) < NBUF)%nat) as Hsz.
  { intros t Ht. pose proof (size_unpinned bl P t). destruct Hroom as [->|Hr]; [|lia].
    rewrite size_unpinned_same by (done || (intros x Hx; by rewrite Hpc)). apply Htx. }
  unfold install_trans.
  apply (for_log_rule (fun t k' => bio_frame k k' /\ bio_ok k' ∅ (unpinned bl P t) /\
    the_disk k' = apply_writes (home_ws k st bl t) (the_disk k) /\
    (forall m, m ∉ take t bl -> view k' m = view k m) /\
    (forall i, (i < t)%nat -> view k' (get_blk bl i) = view k (st + Z.of_nat i + 1))) _ _ (length bl)).
  - split_and!; try done; [apply Htx|]. intros i Hi. lia.
  - intros t k' _ (Hf & _). unfold the_log. rewrite (bf_log _ _ Hf). apply Hg.
  - intros t k1 Ht (Hf1 & Hok1 & Hd1 & Hv1 & Hw1). destruct (lookup_lt_is_Some_2 bl t Ht) as [x Hx].
    assert (x ∉ take t bl) as Hnx by (by apply nodup_take).
    assert (forall m, in_log st m -> m ∉ take t bl) as Hlog.
    { intros m Hm Hin. apply (Hhome m); [|done]. apply elem_of_take in Hin as (i & Hi & _). by eapply list_elem_of_lookup_2. }
    assert (pin (unpinned bl P t) x = c) as Hpx.
    { rewrite pin_unpinned_out by (done || lia). by apply Hpc; eapply list_elem_of_lookup_2. }
    assert (in_log st (st + Z.of_nat t + 1)) as Hl1.
    { unfold in_log. pose proof (lo_fits _ _ _ Hg). lia. }
    apply (install_one_rule st bl (unpinned bl P t) t x); [|done|lia| |].
    + split; [eapply bio_frame_calm; [done|apply Htx]| |done|apply Hsz; lia|].
      * unfold the_log. by rewrite (bf_log _ _ Hf1).
      * intros m Hm. rewrite pin_unpinned_out by (auto with lia). by apply (tx_pins _ _ _ _ Htx).
    + rewrite Hpx. destruct Hroom as [->|Hr]; [by left|right]. pose proof (size_unpinned bl P t). lia.
    + intros k2 Hf2 Hok2 Hd2 Hv2. split_and!.
      * by etransitivity.
      * rewrite unpinned_S. unfold get_blk. by rewrite Hx.
      * rewrite Hd2, home_ws_S, apply_writes_app, <- Hd1. unfold get_blk. rewrite Hx. simpl. by rewrite Hv1 by auto.
      * intros m Hm. rewrite (take_S_r bl t x Hx), not_elem_of_app, list_elem_of_singleton in Hm.
        destruct Hm. rewrite Hv2, decide_False by done. by apply Hv1.
      * intros i Hi. rewrite Hv2. case_decide as E.
        -- replace i with t; [by apply Hv1; auto|]. destruct (lookup_lt_is_Some_2 bl i) as [y Hy]; [lia|].
           unfold get_blk in E. rewrite Hy in E. simpl in E. subst y. by eapply NoDup_lookup.
        -- apply Hw1. assert (i <> t); [|lia]. intros ->. apply E. unfold get_blk. by rewrite Hx.
  - intros k' (Hf & Hok & Hd & Hv & Hw). apply HQ; try done.
    + split; [eapply bio_frame_calm; [done|apply Htx]| |done|by apply Hsz|].
      * unfold the_log. by rewrite (bf_log _ _ Hf).
      * intros m Hm. rewrite pin_unpinned_out; [by apply (tx_pins _ _ _ _ Htx)| |done].
        rewrite firstn_all. intros Hin. by apply (Hhome m).
    + intros m Hm. apply Hv. by rewrite firstn_all.
Qed.

(** ** The in-memory header *)

(** The cache does not depend on the log's own record. *)
Lemma put_log_bio g k H P : bio_ok k H P -> bio_ok (put_log g k) H P.
Proof.
  intros [[l []] H2 H3 H4 H5 H6 H7 H8 H9]. split; try done. exists l. by split.
Qed.

Lemma bio_ok_pins k H P P' : (forall n, pin P n = pin P' n) -> bio_ok k H P -> bio_ok k H P'.
Proof.
  intros E [H1 H2 H3 H4 H5 H6 H7 H8 H9]. split; try done.
  - intros b Hb. specialize (H4 b Hb). unfold buf_ok in *. destruct (H !! b); by rewrite <- E.
  - intros n. rewrite <- E. apply H7.
  - intros n. rewrite <- E. apply H8.
  - intros b n. rewrite <- E. apply H9.
Qed.

Lemma put_log_frame g k k' : bio_frame k k' -> bio_frame (put_log g k) (put_log g k').
Proof. intros []. by split. Qed.

Lemma log_has_reset g st bl : log_has g st bl -> log_has (set_log_n 0 g) st [].
Proof.
  intros []. split; try done.
  - simpl. vm_compute. lia.
  - constructor.
  - intros x Hx. by apply elem_of_nil in Hx.
Qed.

Lemma tx_reset k st bl P : tx_ok k st bl P -> tx_ok (put_log (set_log_n 0 (the_log k)) k) st [] P.
Proof.
  intros [H1 H2 H3 H4 H5]. split; try done.
  - by eapply log_has_reset.
  - by apply put_log_bio.
Qed.

Lemma log_ws_keys k st bl t m : m ∈ (log_ws k st bl t).*1 <-> st < m <= st + Z.of_nat t.
Proof.
  induction t as [|t IH]; [simpl; rewrite elem_of_nil; lia|].
  rewrite log_ws_S, fmap_app, elem_of_app, IH. simpl. rewrite list_elem_of_singleton. lia.
Qed.

(** The blocks written by a loop over [bl]. *)
Lemma blk_keys bl (f : nat -> list Z) :
  (map (fun i => (get_blk bl i, f i)) (seq 0 (length bl))).*1 = bl.
Proof.
  apply list_eq. intros i. rewrite list_lookup_fmap. change (map ?g ?l) with (g <$> l).
  rewrite list_lookup_fmap. destruct (decide (i < length bl)%nat) as [Hi|Hi].
  - rewrite lookup_seq_lt by done. destruct (lookup_lt_is_Some_2 bl i Hi) as [x Hx].
    simpl. unfold get_blk. by rewrite Hx.
  - rewrite lookup_seq_ge, lookup_ge_None_2 by lia. done.
Qed.

Lemma blk_in bl (f : nat -> list Z) i x :
  bl !! i = Some x -> (x, f i) ∈ map (fun i => (get_blk bl i, f i)) (seq 0 (length bl)).
Proof.
  intros Hi. apply list_elem_of_In, in_map_iff. exists i. split; [unfold get_blk; by rewrite Hi|].
  apply in_seq. apply lookup_lt_Some in Hi. lia.
Qed.

(** ** commit *)

(** The writes of [commit], in order. *)
Definition commit_ws (k : kernel) (st : Z) (bl : list Z) : list (Z * list Z) :=
  let n := length bl in
  let h := header (view k st) bl in
  log_ws k st bl n ++ [(st, h)] ++
  map (fun i => (get_blk bl i, view k (get_blk bl i))) (seq 0 n) ++ [(st, header h [])].

(** Nothing but the blocks of the transaction is pinned, and each once. *)
Definition pins_of (bl : list Z) (P : gmap Z Z) : Prop :=
  forall m, pin P m = if decide (m ∈ bl) then 1 else 0.

Lemma unpinned_all bl P : NoDup bl -> pins_of bl P -> forall m, pin (unpinned bl P (length bl)) m = 0.
Proof.
  intros Hnd Hp m. destruct (decide (m ∈ bl)) as [Hin|Hin].
  - rewrite pin_unpinned_in by (rewrite ?firstn_all; done). rewrite Hp, decide_True by done. done.
  - rewrite pin_unpinned_out by (rewrite ?firstn_all; done). by rewrite Hp, decide_False.
Qed.

Lemma commit_rule st bl P (Q : unit -> kernel -> Prop) k :
  tx_ok k st bl P -> pins_of bl P -> bl <> [] ->
  (forall k', bio_frame (put_log (set_log_n 0 (the_log k)) k) k' -> tx_ok k' st [] ∅ ->
     the_disk k' = apply_writes (commit_ws k st bl) (the_disk k) ->
     (forall m, ~ in_log st m -> view k' m = view k m) -> Q tt k') ->
  wp disk_turn commit Q k.
Proof.
  intros Htx Hp Hne HQ. pose proof (tx_log _ _ _ _ Htx) as Hg. pose proof (lo_home _ _ _ Hg) as Hhome.
  assert (in_log st st) as Hst by (unfold in_log, LOGSIZE, MAXOPBLOCKS; lia).
  assert (forall x, x ∈ bl -> pin P x = 1) as Hp1 by (intros x Hx; by rewrite Hp, decide_True).
  assert (forall i, (i < length bl)%nat -> ~ in_log st (get_blk bl i) /\ get_blk bl i <> st) as Hgb.
  { intros i Hi. destruct (lookup_lt_is_Some_2 bl i Hi) as [y Hy]. unfold get_blk. rewrite Hy. simpl.
    apply list_elem_of_lookup_2, Hhome in Hy as [_ Hy]. split; [done|]. by intros ->. }
  unfold commit. apply wp_bind, wp_gets. rewrite (lo_n _ _ _ Hg), Z.gtb_ltb.
  destruct (Z.ltb_spec 0 (Z.of_nat (length bl))) as [Hpos|Hz]; [|destruct bl; [done|simpl in Hz; lia]].
  simpl. apply wp_bind, (write_log_rule st bl P); [done|done|]. intros k1 Hf1 Ht1 Hd1 Hv1 Hw1.
  apply wp_bind, (write_head_rule st bl P); [done|]. intros k2 Hf2 Ht2 Hd2 Hv2.
  apply wp_bind, (install_trans_rule st bl P 1); [done|lia|done|by left|].
  intros k3 Hf3 Ht3 Hd3 Hv3 Hw3. apply tx_reset in Ht3.
  apply wp_bind, wp_modify, (write_head_rule st [] (unpinned bl P (length bl))); [done|].
  intros k4 Hf4 Ht4 Hd4 Hv4.
  assert (view k1 st = view k st) as Est.
  { pose proof (tx_bio _ _ _ _ Ht1) as B1. pose proof (tx_bio _ _ _ _ Htx) as B0.
    assert (pin P st = 0) as Ep by (by apply (tx_pins _ _ _ _ Htx)).
    rewrite (view_clean k1 P), Hd1, (view_clean k P) by done. apply dblk_writes_out.
    rewrite log_ws_keys. lia. }
  assert (forall i, (i < length bl)%nat -> view k2 (st + Z.of_nat i + 1) = view k (get_blk bl i)) as Ew.
  { intros i Hi. rewrite Hv2, decide_False by lia. by apply Hw1. }
  assert (view k3 st = header (view k st) bl) as E3.
  { rewrite Hv3; [|intros Hin; by apply (Hhome st)]. by rewrite Hv2, decide_True, Est. }
  apply HQ.
  - etransitivity; [|done]. assert (bio_frame k k3) as Hf by (do 2 (etransitivity; [done|]); done).
    assert (the_log k3 = the_log k) as -> by apply (bf_log _ _ Hf). by apply put_log_frame.
  - destruct Ht4 as [A1 A2 A3 A4 A5]. split; [done|done| | |done].
    + apply (bio_ok_pins k4 ∅ (unpinned bl P (length bl))); [|done]. by apply unpinned_all; [apply Hg|].
    + rewrite map_size_empty. vm_compute. lia.
  - unfold commit_ws. rewrite !apply_writes_app, <- Hd1, Hd4. change (view (put_log _ k3) st) with (view k3 st).
    change (the_disk (put_log _ k3)) with (the_disk k3). rewrite E3, Hd3, Hd2, Est. simpl. do 2 f_equal.
    unfold home_ws. apply map_ext_in. intros i Hi%in_seq. by rewrite Ew by lia.
  - intros m Hm. rewrite Hv4, decide_False by (by intros ->). change (view (put_log _ k3) m) with (view k3 m).
    destruct (decide (m ∈ bl)) as [Hin|Hin].
    + apply list_elem_of_lookup in Hin as [i Hi]. pose proof (lookup_lt_Some _ _ _ Hi) as Hlt.
      assert (get_blk bl i = m) as <- by (unfold get_blk; by rewrite Hi). by rewrite Hw3, Ew.
    + rewrite Hv3, Hv2, decide_False by (done || by intros ->). by apply Hv1.
Qed.

(** ** Recovery *)

(** The header on disk [d] names the blocks [bl]. *)
Definition log_on_disk (d : disk) (st : Z) (bl : list Z) : Prop :=
  hdr_n (dblk d st) = Z.of_nat (length bl) /\
  forall i x, bl !! i = Some x -> hdr_block (dblk d st) (Z.of_nat i) = x.

(** The blocks can be those of a transaction whose log starts at [st]. *)
Record tx_blocks (st : Z) (bl : list Z) : Prop := {
  tb_fits : (length bl < Z.to_nat LOGSIZE)%nat;
  tb_nodup : NoDup bl;
  tb_home x : x ∈ bl -> 0 <= x < FSSIZE /\ ~ in_log st x }.

(** The kernel at the start of [recover_from_log]: the cache is empty or
    clean, [initlog] has stored the place of the log. *)
Record boot_ok (k : kernel) (st : Z) : Prop := {
  bt_calm : calm (k_sy k);
  bt_dev : lg_dev (the_log k) = ROOTDEV;
  bt_start : lg_start (the_log k) = st;
  bt_area : 0 <= st /\ st + LOGSIZE < FSSIZE;
  bt_len : length (lh_block (lg_lh (the_log k))) = Z.to_nat LOGSIZE;
  bt_bio : bio_ok k ∅ ∅ }.

Lemma read_head_rule st bl (Q : unit -> kernel -> Prop) k :
  boot_ok k st -> log_on_disk (the_disk k) st bl -> tx_blocks st bl ->
  (forall k', tx_ok k' st bl ∅ -> the_disk k' = the_disk k -> (forall m, view k' m = view k m) -> Q tt k') ->
  wp disk_turn read_head Q k.
Proof.
  intros Hbt [Hn Hbl] [Hfit Hnd Hhome] HQ. destruct Hbt as [Hc Hdev Hst Harea Hlen Hb].
  assert (in_log st st) as Hin by (unfold in_log, LOGSIZE, MAXOPBLOCKS; lia).
  assert (0 <= st < FSSIZE) as Hst2 by (unfold in_log in Hin; lia).
  unfold read_head. apply wp_bind, wp_gets. rewrite Hdev, Hst, (u32_block st) by done.
  assert (size (∅ : gmap nat Z) + size (∅ : gmap Z Z) < NBUF)%nat as Hsz.
  { rewrite !map_size_empty. vm_compute. lia. }
  apply wp_bind, (bread_rule st ∅ ∅); [done|done|done| | |].
  { intros b m. by rewrite lookup_empty. }
  { destruct (free_buffer k ∅ ∅ Hb Hsz) as (b & H1 & H2). eauto. }
  intros b k1 Hb1 _ Hf1 Hok1 Hd1 Hv1. set (H := <[b := st]> (∅ : gmap nat Z)) in *.
  assert (H !! b = Some st) as HH by apply lookup_insert_eq.
  apply wp_bind, wp_gets.
  destruct (held_buf k1 H ∅ b st Hok1 HH) as (_ & _ & _ & _ & _ & _ & _ & _ & _ & ->).
  rewrite Hv1, (view_clean k ∅) by done. apply wp_bind, wp_modify.
  apply wp_bind, (for_log_rule (fun t k' => exists bs, k' = put_log (set_lg_lh (mk_logheader (Z.of_nat (length bl)) bs) (the_log k1)) k1 /\
     length bs = Z.to_nat LOGSIZE /\ forall i x, (i < t)%nat -> bl !! i = Some x -> bs !! i = Some x) _ _ (length bl)).
  - exists (lh_block (lg_lh (the_log k1))). rewrite Hn. split_and!; [done| |lia].
    unfold the_log. by rewrite (bf_log _ _ Hf1).
  - by intros t k' _ (bs & -> & _).
  - intros t k' Ht (bs & -> & Hl & Hbs). unfold put_lh_block.
    destruct (Z.ltb_spec (Z.of_nat t) LOGSIZE); [|lia]. apply wp_modify.
    destruct (lookup_lt_is_Some_2 bl t Ht) as [x Hx]. rewrite (Hbl t x Hx).
    exists (<[t := x]> bs). split_and!.
    + unfold set_lh_blocks. by rewrite Nat2Z.id.
    + by rewrite length_insert.
    + intros i y Hi Hy. destruct (decide (i = t)) as [->|Hne].
      * rewrite list_lookup_insert_eq by lia. congruence.
      * rewrite list_lookup_insert_ne by done. apply Hbs; [lia|done].
  - intros k2 (bs & -> & Hl & Hbs). set (g := set_lg_lh _ _).
    apply (brelse_cache_rule b st H ∅); [change (calm (k_sy k1)); by eapply bio_frame_calm|by apply put_log_bio|done| |].
    { intros _. change (view k1 st = dblk (the_disk k1) st). by rewrite Hd1, Hv1, (view_clean k ∅). }
    intros k3 Hf3 Hok3 Hd3 Hv3. unfold H in Hok3. rewrite delete_insert_id in Hok3 by apply lookup_empty.
    apply HQ; [|by rewrite Hd3|intros m; rewrite Hv3; apply Hv1]. split; try done.
    + eapply bio_frame_calm; [done|]. change (calm (k_sy k1)). by eapply bio_frame_calm.
    + unfold the_log. rewrite (bf_log _ _ Hf3). change (fs_log (k_fs (put_log g k1))) with g.
      unfold g. split; try done; simpl.
      * unfold the_log. by rewrite (bf_log _ _ Hf1).
      * unfold the_log. by rewrite (bf_log _ _ Hf1).
      * intros i x Hx. apply Hbs; [|done]. by eapply lookup_lt_Some.
Qed.

(** The writes of [recover_from_log] on disk [d]. *)
Definition recover_ws (d : disk) (st : Z) (bl : list Z) : list (Z * list Z) :=
  map (fun i => (get_blk bl i, dblk d (st + Z.of_nat i + 1))) (seq 0 (length bl)) ++
  [(st, header (dblk d st) [])].

Lemma recover_rule st bl (Q : unit -> kernel -> Prop) k :
  boot_ok k st -> log_on_disk (the_disk k) st bl -> tx_blocks st bl ->
  (forall k', tx_ok k' st [] (unpinned bl ∅ (length bl)) ->
     the_disk k' = apply_writes (recover_ws (the_disk k) st bl) (the_disk k) ->
     (forall m, ~ in_log st m -> view k' m = dblk (the_disk k') m) -> Q tt k') ->
  wp disk_turn recover_from_log Q k.
Proof.
  intros Hbt Hlog Htb HQ. unfold recover_from_log.
  assert (forall m, view k m = dblk (the_disk k) m) as Hv0 by (intros m; by apply (view_clean k ∅), eq_refl; apply Hbt).
  assert (in_log st st) as Hst by (unfold in_log, LOGSIZE, MAXOPBLOCKS; lia).
  apply wp_bind, (read_head_rule st bl); [done..|]. intros k1 Ht1 Hd1 Hv1.
  apply wp_bind, (install_trans_rule st bl ∅ 0); [done|lia|done| |].
  { right. rewrite map_size_empty. pose proof (tb_fits _ _ Htb) as Hf. unfold LOGSIZE, MAXOPBLOCKS in Hf. unfold NBUF.
    unfold MAXOPBLOCKS. lia. }
  intros k2 Hf2 Ht2 Hd2 Hv2 Hw2. apply tx_reset in Ht2.
  apply wp_bind, wp_modify, (write_head_rule st [] (unpinned bl ∅ (length bl))); [done|].
  intros k3 Hf3 Ht3 Hd3 Hv3. change (view (put_log _ k2) st) with (view k2 st) in *.
  assert (view k2 st = dblk (the_disk k) st) as E.
  { rewrite Hv2, Hv1; [done|]. intros Hin. by apply (tb_home _ _ Htb st). }
  assert (the_disk k3 = apply_writes (recover_ws (the_disk k) st bl) (the_disk k)) as Hd.
  { rewrite Hd3. change (the_disk (put_log _ k2)) with (the_disk k2). unfold recover_ws.
    rewrite apply_writes_app, Hd2, Hd1, E. simpl. f_equal. f_equal. unfold home_ws.
    apply map_ext. intros i. by rewrite Hv1, Hv0. }
  apply HQ; [done|done|].
  intros m Hm. rewrite Hv3, Hd3, dblk_write. case_decide as Em; [done|].
  change (view k2 m = dblk (the_disk k2) m). destruct (decide (m ∈ bl)) as [Hin|Hin].
  - apply list_elem_of_lookup in Hin as [i Hi].
    assert (get_blk bl i = m) as Em2 by (unfold get_blk; by rewrite Hi).
    rewrite <- Em2 at 1. rewrite Hw2, Hd2 by (by eapply lookup_lt_Some). symmetry. apply dblk_writes_in.
    + by apply (blk_in bl (fun i => view k1 (st + Z.of_nat i + 1))).
    + unfold home_ws. rewrite blk_keys. apply Htb.
  - rewrite Hv2, Hd2, dblk_writes_out, Hv1, Hd1 by (unfold home_ws; rewrite ?blk_keys; done). apply Hv0.
Qed.

(** ** Crashes *)

(** The contents of block [m] once the log naming [bl] on disk [d] is recovered. *)
Definition after_recovery (d : disk) (st : Z) (bl : list Z) (m : Z) : list Z :=
  dblk (apply_writes (recover_ws d st bl) d) m.

Lemma after_recovery_in d st bl i m :
  tx_blocks st bl -> bl !! i = Some m -> after_recovery d st bl m = dblk d (st + Z.of_nat i + 1).
Proof.
  intros Htb Hi. assert (~ in_log st m) as Hm by (by eapply Htb, list_elem_of_lookup_2).
  unfold after_recovery, recover_ws. rewrite apply_writes_snoc, dblk_write, decide_False.
  - apply dblk_writes_in; [by apply (blk_in bl (fun i => dblk d (st + Z.of_nat i + 1)))|].
    rewrite blk_keys. apply Htb.
  - intros ->. apply Hm. unfold in_log, LOGSIZE, MAXOPBLOCKS. lia.
Qed.

Lemma after_recovery_out d st bl m :
  ~ in_log st m -> m ∉ bl -> after_recovery d st bl m = dblk d m.
Proof.
  intros Hm Hin. unfold after_recovery, recover_ws. rewrite apply_writes_snoc, dblk_write, decide_False.
  - apply dblk_writes_out. by rewrite blk_keys.
  - intros ->. apply Hm. unfold in_log, LOGSIZE, MAXOPBLOCKS. lia.
Qed.

Lemma log_has_blocks g st bl : log_has g st bl -> tx_blocks st bl.
Proof. intros []. by split. Qed.

Lemma tx_blocks_nil st : tx_blocks st [].
Proof. split; [vm_compute; lia|constructor|]. intros x Hx. by apply elem_of_nil in Hx. Qed.

Lemma header_on_disk d st bl c :
  length c = Z.to_nat BSIZE -> tx_blocks st bl -> dblk d st = header c bl -> log_on_disk d st bl.
Proof.
  intros Hc Htb E. unfold log_on_disk. rewrite E. split; [by apply hdr_upto_n; [|apply Htb]|].
  intros i x Hx. unfold header. rewrite hdr_upto_block; try done.
  - unfold get_blk. by rewrite Hx.
  - apply Htb.
  - intros y Hy. by apply (tb_home _ _ Htb).
  - by eapply lookup_lt_Some.
Qed.

Lemma elem_of_take_keys {A} (ws : list (Z * A)) j m : m ∈ (take j ws).*1 -> m ∈ ws.*1.
Proof.
  rewrite fmap_take, !list_elem_of_lookup. intros [i Hi]. exists i.
  by apply lookup_take_Some in Hi as [Hi _].
Qed.

Section crash.
Context (k : kernel) (st : Z) (bl : list Z) (P : gmap Z Z).
Hypotheses (Htx : tx_ok k st bl P) (Hp : pins_of bl P) (Hempty : log_on_disk (the_disk k) st []).

Notation d0 := (the_disk k).
Notation crashed j := (apply_writes (take j (commit_ws k st bl)) d0).
Notation n := (length bl).

Lemma home_view m : ~ in_log st m -> m ∉ bl -> view k m = dblk d0 m.
Proof. intros _ Hm. apply (view_clean k P); [apply Htx|]. by rewrite Hp, decide_False. Qed.

(** Before the header is written the old log is still empty. *)
Lemma crash_early j : (j <= n)%nat ->
  log_on_disk (crashed j) st [] /\ forall m, ~ in_log st m -> dblk (crashed j) m = dblk d0 m.
Proof.
  intros Hj. assert (take j (commit_ws k st bl) = take j (log_ws k st bl n)) as ->.
  { unfold commit_ws. cbv zeta. apply take_app_le. unfold log_ws. by rewrite length_map, length_seq. }
  assert (forall m, m <= st \/ st + LOGSIZE <= m -> dblk (apply_writes (take j (log_ws k st bl n)) d0) m = dblk d0 m) as E.
  { intros m Hm. apply dblk_writes_out. intros Hin%elem_of_take_keys%log_ws_keys.
    pose proof (lo_fits _ _ _ (tx_log _ _ _ _ Htx)). lia. }
  split.
  - unfold log_on_disk. by rewrite E by lia.
  - intros m Hm. apply E. unfold in_log in Hm. lia.
Qed.

(** From the header on, the log holds the whole transaction. *)
Lemma crash_mid j : (n < j <= 2 * n + 1)%nat ->
  log_on_disk (crashed j) st bl /\
  (forall i x, bl !! i = Some x -> dblk (crashed j) (st + Z.of_nat i + 1) = view k x) /\
  (forall m, ~ in_log st m -> m ∉ bl -> dblk (crashed j) m = dblk d0 m).
Proof.
  intros Hj. pose proof (log_has_blocks _ _ _ (tx_log _ _ _ _ Htx)) as Htb.
  set (homes := map (fun i => (get_blk bl i, view k (get_blk bl i))) (seq 0 n)).
  assert (take j (commit_ws k st bl) =
    log_ws k st bl n ++ (st, header (view k st) bl) :: take (j - n - 1) homes) as ->.
  { unfold commit_ws. cbv zeta. assert (length (log_ws k st bl n) = n) as L1 by (unfold log_ws; by rewrite length_map, length_seq).
    assert (length homes = n) as L2 by (unfold homes; by rewrite length_map, length_seq).
    fold homes. rewrite take_app_ge by lia. f_equal. rewrite L1.
    destruct (j - n)%nat as [|q] eqn:Ej; [lia|].
    replace (S q - 1)%nat with q by lia. cbn [app take]. f_equal. apply take_app_le. lia. }
  assert (forall m, m ∉ bl -> m ∉ (take (j - n - 1) homes).*1) as Hout.
  { intros m Hm Hin%elem_of_take_keys. unfold homes in Hin. by rewrite blk_keys in Hin. }
  assert (forall m, in_log st m -> m ∉ bl) as Hlog by (intros m Hm Hin; by apply (tb_home _ _ Htb m)).
  pose proof (tb_fits _ _ Htb) as Hfit.
  rewrite apply_writes_app, apply_writes_cons. split_and!.
  - apply (header_on_disk _ _ _ (view k st)); [eapply view_length, Htx|done|].
    rewrite dblk_writes_out by (apply Hout, Hlog; unfold in_log; lia). by rewrite dblk_write, decide_True.
  - intros i x Hi. pose proof (lookup_lt_Some _ _ _ Hi) as Hlt.
    rewrite dblk_writes_out by (apply Hout, Hlog; unfold in_log; lia).
    rewrite dblk_write, decide_False by lia.
    apply dblk_writes_in.
    + unfold log_ws. apply list_elem_of_In, in_map_iff. exists i. unfold get_blk. rewrite Hi.
      split; [done|]. apply in_seq. lia.
    + unfold log_ws. change (map ?g ?l) with (g <$> l). rewrite <- list_fmap_compose.
      apply NoDup_fmap_2_strong; [|apply NoDup_seq]. intros a b _ _ E. simpl in E. lia.
  - intros m Hm Hin. rewrite dblk_writes_out by auto. rewrite dblk_write, decide_False.
    + apply dblk_writes_out. rewrite log_ws_keys. unfold in_log in Hm. lia.
    + intros ->. apply Hm. unfold in_log. lia.
Qed.

(** Once everything is written the log is empty and the blocks are new. *)
Lemma crash_late j : (2 * n + 1 < j)%nat ->
  log_on_disk (crashed j) st [] /\ forall m, ~ in_log st m -> dblk (crashed j) m = view k m.
Proof.
  intros Hj. pose proof (log_has_blocks _ _ _ (tx_log _ _ _ _ Htx)) as Htb.
  rewrite take_ge.
  2: { unfold commit_ws, log_ws. rewrite !length_app, !length_map, !length_seq. simpl. lia. }
  unfold commit_ws. cbv zeta. set (homes := map _ (seq 0 n)). set (h := header (view k st) bl).
  rewrite !app_assoc, apply_writes_snoc, apply_writes_app, apply_writes_snoc. split.
  - apply (header_on_disk _ _ _ h); [|apply tx_blocks_nil|by rewrite dblk_write, decide_True].
    unfold h, header. rewrite length_hdr_upto. eapply view_length, Htx.
  - intros m Hm. assert (m <> st) as Hne by (intros ->; apply Hm; unfold in_log, LOGSIZE, MAXOPBLOCKS; lia).
    rewrite dblk_write, decide_False by done. destruct (decide (m ∈ bl)) as [Hin|Hin].
    + apply list_elem_of_lookup in Hin as [i Hi]. apply dblk_writes_in; [|unfold homes; rewrite blk_keys; apply Htb].
      pose proof (blk_in bl (fun i => view k (get_blk bl i)) i m Hi) as Hw.
      unfold get_blk in Hw at 1. by rewrite Hi in Hw.
    + rewrite dblk_writes_out by (unfold homes; by rewrite blk_keys).
      rewrite dblk_write, decide_False, home_view by done. apply dblk_writes_out.
      rewrite log_ws_keys. pose proof (tb_fits _ _ Htb). unfold in_log in Hm. lia.
Qed.

(** Whatever the point of the crash, the log on disk can be recovered, and
    the blocks are then all old or all new. *)
Lemma crash_recovers j : exists bl', tx_blocks st bl' /\ log_on_disk (crashed j) st bl' /\
  forall m, ~ in_log st m ->
    after_recovery (crashed j) st bl' m = if decide (j <= n)%nat then dblk d0 m else view k m.
Proof.
  pose proof (log_has_blocks _ _ _ (tx_log _ _ _ _ Htx)) as Htb. case_decide as Hj.
  - destruct (crash_early j Hj) as [H1 H2]. exists []. split_and!; [apply tx_blocks_nil|done|].
    intros m Hm. rewrite after_recovery_out; [by apply H2|done|apply not_elem_of_nil].
  - destruct (decide (j <= 2 * n + 1)%nat) as [Hj2|Hj2].
    + destruct (crash_mid j) as (H1 & H2 & H3); [lia|]. exists bl. split_and!; [done|done|].
      intros m Hm. destruct (decide (m ∈ bl)) as [Hin|Hin].
      * apply list_elem_of_lookup in Hin as [i Hi]. rewrite (after_recovery_in _ _ _ i) by done. by apply H2.
      * rewrite after_recovery_out by done. by rewrite home_view, H3.
    + destruct (crash_late j) as [H1 H2]; [lia|]. exists []. split_and!; [apply tx_blocks_nil|done|].
      intros m Hm. rewrite after_recovery_out; [by apply H2|done|apply not_elem_of_nil].
Qed.

End crash.

(** A reboot after [j] of the writes [ws] have reached disk [d]. *)
Definition rebooted (kb : kernel) (st : Z) (ws : list (Z * list Z)) (d : disk) (j : nat) : Prop :=
  boot_ok kb st /\ forall m, dblk (the_disk kb) m = dblk (apply_writes (take j ws) d) m.

Lemma log_on_disk_ext d d' st bl : (forall m, dblk d m = dblk d' m) -> log_on_disk d st bl -> log_on_disk d' st bl.
Proof. intros E. unfold log_on_disk. by rewrite E. Qed.

Lemma apply_writes_ext ws d d' : (forall m, dblk d m = dblk d' m) ->
  forall m, dblk (apply_writes ws d) m = dblk (apply_writes ws d') m.
Proof.
  revert d d'. induction ws as [|[n x] ws IH]; intros d d' E m; [done|].
  rewrite !apply_writes_cons. apply IH. intros m'. rewrite !dblk_write. by rewrite E.
Qed.

Lemma after_recovery_ext d d' st bl m : (forall m, dblk d m = dblk d' m) ->
  after_recovery d st bl m = after_recovery d' st bl m.
Proof.
  intros E. unfold after_recovery.
  replace (recover_ws d st bl) with (recover_ws d' st bl); [by apply apply_writes_ext|].
  unfold recover_ws. rewrite E. f_equal. apply map_ext. intros i. by rewrite E.
Qed.

(** C1: transactions are atomic: with a transaction of the blocks [bl] open
    and the log on disk empty, [commit] makes a fixed sequence [ws] of disk
    writes, after which every block outside the log is on disk as the kernel
    saw it; and when the machine stops after any [j] of these writes,
    [recover_from_log] returns after the reboot and leaves the old contents of
    every block when [j <= length bl], the new contents of every block
    otherwise. *)
Theorem commit_crash_atomic st bl P k :
  tx_ok k st bl P -> pins_of bl P -> bl <> [] -> log_on_disk (the_disk k) st [] ->
  wp disk_turn commit (fun _ k' => exists ws,
    the_disk k' = apply_writes ws (the_disk k) /\
    (forall m, ~ in_log st m -> dblk (the_disk k') m = view k m) /\
    forall j kb, rebooted kb st ws (the_disk k) j ->
      wp disk_turn recover_from_log (fun _ kr =>
        log_on_disk (the_disk kr) st [] /\
        forall m, ~ in_log st m ->
          view kr m = dblk (the_disk kr) m /\
          view kr m = if decide (j <= length bl)%nat then dblk (the_disk k) m else view k m) kb) k.
Proof.
  intros Htx Hp Hne Hlog. apply (commit_rule st bl P); [done..|]. intros k' Hf Ht' Hd' Hv'.
  exists (commit_ws k st bl). split_and!; [done| |].
  - intros m Hm. rewrite <- Hv', (view_clean k' ∅) by (done || apply Ht'). done.
  - intros j kb [Hbt Hdk]. destruct (crash_recovers k st bl P Htx Hp Hlog j) as (bl' & Htb & Hl & Hrec).
    apply (recover_rule st bl'); [done|by eapply log_on_disk_ext; [intros m; symmetry; apply Hdk|]|done|].
    intros kr Htr Hdr Hvr. split.
    + apply (header_on_disk _ _ _ (dblk (the_disk kb) st)); [apply (bt_bio _ _ Hbt)|apply tx_blocks_nil|].
      rewrite Hdr. unfold recover_ws. by rewrite apply_writes_snoc, dblk_write, decide_True.
    + intros m Hm. split; [by apply Hvr|]. rewrite Hvr, Hdr, <- Hrec by done.
      by apply after_recovery_ext.
Qed.

End spec.
