(* ===== verification/LogOps.v ===== *)
(** * Transactions from the file system's side

    [log_write] records a block once however often it is written, and pins
    its buffer; [begin_op] admits an operation only when the log has room for
    all it may write; the last [end_op] commits. *)

From S2P Require Import Prelude Defs State Logic Spinlock Sched Sleeplock Bio BioList BioCache Virtio VirtioSpec BioSpec Log LogSpec.

(** What the operations of the log leave alone. *)
Record op_frame (k k' : kernel) : Prop := {
  of_quiet : quiet (k_sy k) (k_sy k');
  of_mm : k_mm k' = k_mm k;
  of_fi : k_fi k' = k_fi k;
  of_ms : set_vd (ms_vd (k_ms k)) (k_ms k') = k_ms k;
  of_sb : fs_sb (k_fs k') = fs_sb (k_fs k);
  of_icache : fs_icache (k_fs k') = fs_icache (k_fs k) }.

#[export] Instance op_frame_preorder : PreOrder op_frame.
Proof.
  split.
  - intros k. by split.
  - intros k1 k2 k3 [] []. split; try congruence; [by etransitivity|].
    rewrite <- of_ms0. rewrite <- of_ms1. done.
Qed.

Lemma bio_op_frame k k' : bio_frame k k' -> op_frame k k'.
Proof. intros []. by split. Qed.

Lemma op_frame_calm k k' : op_frame k k' -> calm (k_sy k) -> calm (k_sy k').
Proof. intros []. by apply quiet_calm. Qed.

Lemma L_log_static : L_log ∈ static_locks.
Proof. unfold static_locks. right; right; right; right; left. Qed.

Lemma L_bcache_static : L_bcache ∈ static_locks.
Proof. unfold static_locks. right; right; left. Qed.

#[export] Hint Resolve L_log_static L_bcache_static : kern.

(** ** Absorption *)

(** The blocks of the transaction once [n] has been written. *)
Definition logged (bl : list Z) (n : Z) : list Z := if decide (n ∈ bl) then bl else bl ++ [n].

Lemma absorb_index_spec blocks bl n i :
  (forall j x, bl !! j = Some x -> blocks !! j = Some x) -> (forall x, x ∈ bl -> 0 <= x < FSSIZE) ->
  absorb_index blocks (length bl) n i =
    i + Z.of_nat (match list_find (eq n) bl with Some (j, _) => j | None => length bl end).
Proof.
  revert blocks i. induction bl as [|x bl IH]; intros blocks i Hpre Hsm; [destruct blocks; simpl; lia|].
  destruct blocks as [|y blocks]; [by specialize (Hpre 0%nat x eq_refl)|].
  assert (y = x) as -> by (specialize (Hpre 0%nat x eq_refl); by injection Hpre).
  cbn [length absorb_index list_find]. rewrite u32_block by (apply Hsm; by left).
  destruct (Z.eqb_spec x n) as [->|Hne].
  - rewrite decide_True by done. lia.
  - rewrite decide_False by done. rewrite IH.
    + destruct (list_find (eq n) bl) as [[j y]|]; simpl; lia.
    + intros j z Hz. by apply (Hpre (S j)).
    + intros z Hz. apply Hsm. by right.
Qed.

Lemma absorb_found (bl : list Z) (n : Z) : n ∈ bl -> exists j, list_find (eq n) bl = Some (j, n) /\ bl !! j = Some n.
Proof.
  intros Hin. destruct (list_find (eq n) bl) as [[j x]|] eqn:E.
  - pose proof E as E2. apply list_find_Some in E as (E & -> & _). by exists j.
  - apply list_find_None in E. rewrite Forall_forall in E. by apply E in Hin.
Qed.

Lemma absorb_new (bl : list Z) (n : Z) : n ∉ bl -> list_find (eq n) bl = None.
Proof. intros Hin. apply list_find_None, Forall_forall. by intros x Hx ->. Qed.

(** The header after [log_write] of block [n]. *)
Lemma log_has_add g st bl n :
  log_has g st bl -> n ∉ bl -> 0 <= n < FSSIZE -> ~ in_log st n -> (S (length bl) < Z.to_nat LOGSIZE)%nat ->
  log_has (set_log_n (lh_n (lg_lh g) + 1) (set_lh_blocks (Z.of_nat (length bl)) n g)) st (bl ++ [n]).
Proof.
  intros [H1 H2 H3 H4 H5 H6 H7 H8 H9] Hn Hr Hlog Hlen. split; try done; simpl.
  - rewrite H4, length_app. simpl. lia.
  - by rewrite length_insert.
  - rewrite length_app. simpl. lia.
  - rewrite Nat2Z.id. intros i x Hx. apply lookup_snoc_Some in Hx as [[Hi Hx]|[-> ->]].
    + rewrite list_lookup_insert_ne by lia. by apply H7.
    + apply list_lookup_insert_eq. lia.
  - apply NoDup_app. split_and!; [done| |apply NoDup_singleton].
    intros x Hx ->%list_elem_of_singleton. done.
  - intros x. rewrite elem_of_app, list_elem_of_singleton. intros [Hx| ->]; [by apply H9|done].
Qed.

Lemma log_has_same g st bl j n :
  log_has g st bl -> bl !! j = Some n -> log_has (set_lh_blocks (Z.of_nat j) n g) st bl.
Proof.
  intros [H1 H2 H3 H4 H5 H6 H7 H8 H9] Hj. split; try done; simpl.
  - by rewrite length_insert.
  - rewrite Nat2Z.id. intros i x Hx. destruct (decide (i = j)) as [->|].
    + rewrite list_lookup_insert_eq by (rewrite H5; apply lookup_lt_Some in Hj; lia). congruence.
    + rewrite list_lookup_insert_ne by done. by apply H7.
Qed.

Section ops.
Context {D : DiskDriver} {DL : DiskLaw D}.

(** The cache looks at the synchronisation state for the running pid only. *)
Lemma bio_ok_sync k s H P : run_pid s = run_pid (k_sy k) -> bio_ok k H P -> bio_ok (set_sy s k) H P.
Proof.
  intros E [[l []] H2 H3 H4 H5 H6 H7 H8 H9]. split; try done; [exists l; by split|].
  intros b Hb. kproj. rewrite E. by apply H4.
Qed.

Lemma pins_of_logged bl P n :
  pins_of bl P -> n ∉ bl -> pins_of (bl ++ [n]) (<[n := pin P n + 1]> P).
Proof.
  intros Hp Hn m. rewrite pin_insert. destruct (decide (m = n)) as [->|Hne].
  - rewrite Hp, decide_False, decide_True; [done| |done]. apply elem_of_app. right. by left.
  - rewrite Hp. case_decide as E; case_decide as E2; try done.
    + exfalso. apply E2, elem_of_app. by left.
    + apply elem_of_app in E2 as [?|E2]; [done|]. by apply list_elem_of_singleton in E2.
Qed.

(** What [log_write] leaves of the fields of the log. *)
Definition same_counts (g g' : log) : Prop :=
  lg_outstanding g' = lg_outstanding g /\ lg_committing g' = lg_committing g /\ lg_size g' = lg_size g.

Lemma log_write_rule b n H P st bl (Q : unit -> kernel -> Prop) k :
  calm (k_sy k) -> log_has (the_log k) st bl -> bio_ok k H P -> H !! b = Some n -> ~ in_log st n ->
  pins_of bl P -> Z.of_nat (length bl) < lg_size (the_log k) - 1 -> lg_size (the_log k) <= LOGSIZE ->
  1 <= lg_outstanding (the_log k) ->
  (forall k' P', op_frame k k' -> log_has (the_log k') st (logged bl n) -> same_counts (the_log k) (the_log k') ->
     bio_ok k' H P' -> pins_of (logged bl n) P' -> the_disk k' = the_disk k ->
     (forall m, view k' m = view k m) -> Q tt k') ->
  wp disk_turn (log_write b) Q k.
Proof.
  intros Hc Hg Hb Hh Hlog Hp Hroom Hsize Hout HQ.
  destruct (held_buf k H P b n Hb Hh) as (Hlt & Hn & Hlen & _ & _ & [_ Hbn] & _).
  unfold log_write. apply wp_bind, wp_gets. rewrite (lo_n _ _ _ Hg), !Z.geb_leb.
  destruct (Z.leb_spec LOGSIZE (Z.of_nat (length bl))); [lia|].
  destruct (Z.leb_spec (lg_size (the_log k) - 1) (Z.of_nat (length bl))); [lia|]. cbn [orb].
  destruct (Z.ltb_spec (lg_outstanding (the_log k)) 1); [lia|].
  apply wp_bind, wp_acquire; [eauto with kern|]. set (s1 := sy_acquire L_log (k_sy k)).
  apply wp_bind, wp_gets. change (the_log (set_sy s1 k)) with (the_log k).
  apply wp_bind, wp_gets. rewrite buf_at_set_sy, Hbn, (lo_n _ _ _ Hg), Nat2Z.id.
  rewrite (absorb_index_spec _ bl) by (apply Hg || (intros x Hx; by apply (lo_home _ _ _ Hg))).
  assert (s32 n = n) as -> by (apply swrap_id; [lia|]; unfold FSSIZE in Hn; lia).
  assert (calm (k_sy k) -> sync_ok s1 /\ lock_free s1 L_bcache) as [Hok1 Hfr1]; [|done|].
  { intros _. split; [eauto with kern|]. apply lock_free_acquire; [done|eauto with kern]. }
  destruct (decide (n ∈ bl)) as [Hin|Hin].
  - destruct (absorb_found bl n Hin) as (j & -> & Hj). pose proof (lookup_lt_Some _ _ _ Hj) as Hjlt.
    rewrite Z.add_0_l. apply wp_bind. unfold put_lh_block.
    destruct (Z.ltb_spec (Z.of_nat j) LOGSIZE); [|lia]. apply wp_modify.
    apply wp_bind. destruct (Z.eqb_spec (Z.of_nat j) (Z.of_nat (length bl))); [lia|]. apply wp_ret.
    apply (wp_release _ (k_sy k)); [eauto with kern..|reflexivity|]. intros s' Hq _.
    apply (HQ _ P); try done; unfold logged; rewrite ?decide_True by done; try done.
    + by apply log_has_same.
    + apply (bio_ok_sync (put_log _ k)); [by apply quiet_run_pid|]. by apply put_log_bio.
  - rewrite (absorb_new bl n Hin). apply wp_bind. unfold put_lh_block. rewrite Z.add_0_l.
    destruct (Z.ltb_spec (Z.of_nat (length bl)) LOGSIZE); [|lia]. apply wp_modify.
    apply wp_bind. rewrite Z.eqb_refl. cbn [when].
    set (g1 := set_lh_blocks (Z.of_nat (length bl)) n (the_log k)).
    change (put_log _ (set_sy s1 k)) with (set_sy s1 (put_log g1 k)).
    apply wp_bind, (repin_rule 1 b n H P); [done|done| |done| |].
    + apply bio_ok_sync; [done|by apply put_log_bio].
    + rewrite Hp, decide_False by done. lia.
    + intros k1 Hf1 Hok2 Hd1 Hv1. apply wp_modify.
      assert (the_log k1 = g1) as -> by apply (bf_log _ _ Hf1). change (lh_n (lg_lh g1)) with (lh_n (lg_lh (the_log k))).
      set (g2 := set_log_n _ g1).
      apply (wp_release _ (k_sy k)); [eauto with kern..|apply Hf1|]. intros s' Hq _.
      apply (HQ _ (<[n := pin P n + 1]> P)); unfold logged; rewrite ?decide_False by done.
      * destruct Hf1. by split.
      * apply log_has_add; try done. unfold LOGSIZE, MAXOPBLOCKS in *. lia.
      * done.
      * apply (bio_ok_sync (put_log _ k1)); [|by apply put_log_bio]. kproj.
        rewrite (quiet_run_pid _ _ Hq). symmetry. apply (quiet_run_pid _ _ (bf_quiet _ _ Hf1)).
      * by apply pins_of_logged.
      * done.
      * done.
Qed.

(** ** begin_op, end_op *)

Lemma tx_ok_log k st bl P g s :
  tx_ok k st bl P -> quiet (k_sy k) s -> log_has g st bl -> tx_ok (set_sy s (put_log g k)) st bl P.
Proof.
  intros [H1 H2 H3 H4 H5] Hq Hg. split; try done; kproj.
  - by eapply quiet_calm.
  - apply (bio_ok_sync (put_log g k)); [by apply quiet_run_pid|by apply put_log_bio].
Qed.

Lemma log_has_counts g st bl o c :
  log_has g st bl -> log_has (set_lg_committing c (set_lg_outstanding o g)) st bl.
Proof. intros []. by split. Qed.

(** An update of the log between [acquire] and [release] of its lock, with a
    wake-up. *)
Lemma log_wakeup_rule (g : log -> log) (Q : unit -> kernel -> Prop) k :
  calm (k_sy k) ->
  (forall s', quiet (k_sy k) s' -> Q tt (set_sy s' (put_log (g (the_log k)) k))) ->
  wp disk_turn (acquire L_log ;; upd_log g ;; wakeup C_log ;; release L_log) Q k.
Proof.
  intros Hc HQ. apply wp_bind, wp_acquire; [eauto with kern|]. apply wp_bind, wp_modify.
  apply wp_bind, wp_wakeup; [kproj; eauto with kern|kproj; apply procs_free_acquire; eauto with kern|].
  intros s2 Hq2 _. apply (wp_release _ (k_sy k)); [eauto with kern..|done|]. intros s3 Hq3 _. by apply HQ.
Qed.

(** The end of the last operation: the transaction is committed. *)
Lemma end_op_last_rule st bl P (Q : unit -> kernel -> Prop) k :
  tx_ok k st bl P -> pins_of bl P -> lg_outstanding (the_log k) = 1 -> lg_committing (the_log k) = 0 ->
  (forall k', op_frame k k' -> tx_ok k' st [] ∅ -> lg_outstanding (the_log k') = 0 ->
     lg_committing (the_log k') = 0 -> lg_size (the_log k') = lg_size (the_log k) ->
     the_disk k' = apply_writes (if decide (bl = []) then [] else commit_ws k st bl) (the_disk k) ->
     (forall m, ~ in_log st m -> view k' m = view k m) -> Q tt k') ->
  wp disk_turn end_op Q k.
Proof.
  intros Htx Hp Hout Hcom HQ. pose proof (tx_calm _ _ _ _ Htx) as Hc. unfold end_op.
  apply wp_bind, wp_acquire; [eauto with kern|]. apply wp_bind, wp_modify, wp_bind, wp_gets.
  change (the_log (put_log ?g _)) with g. cbn [lg_committing lg_outstanding set_lg_outstanding].
  change (the_log (set_sy _ k)) with (the_log k). rewrite Hcom, Hout. cbn [c_true Z.eqb negb Z.sub Z.add Z.opp Z.pos_sub].
  apply wp_bind, wp_modify. set (g1 := set_lg_committing 1 (set_lg_outstanding 0 (the_log k))).
  match goal with |- wp _ _ _ ?k' => change k' with (set_sy (sy_acquire L_log (k_sy k)) (put_log g1 k)) end.
  apply wp_bind, (wp_release _ (k_sy k)); [eauto with kern..|reflexivity|]. intros s1 Hq1 _.
  change (set_sy s1 (set_sy _ ?kk)) with (set_sy s1 kk). cbn [when].
  assert (log_has g1 st bl) as Hg1 by (apply log_has_counts, Htx).
  pose proof (tx_ok_log k st bl P g1 s1 Htx Hq1 Hg1) as Htx1. set (k1 := set_sy s1 (put_log g1 k)) in *.
  assert (op_frame k k1) as Hf1 by (by split).
  apply wp_bind. destruct (decide (bl = [])) as [->|Hne].
  - unfold commit. apply wp_bind, wp_gets. rewrite (lo_n _ _ _ (tx_log _ _ _ _ Htx1)). apply wp_ret.
    apply log_wakeup_rule; [apply Htx1|]. intros s2 Hq2. apply HQ; try done.
    + etransitivity; [done|]. by split.
    + destruct (tx_ok_log k1 st [] P (set_lg_committing 0 g1) s2 Htx1 Hq2) as [A1 A2 A3 A4 A5];
        [by destruct Hg1; split|]. split; try done.
      * apply (bio_ok_pins _ _ P); [|done]. intros m. rewrite Hp, decide_False; [done|apply not_elem_of_nil].
      * rewrite map_size_empty. vm_compute. lia.
  - apply (commit_rule st bl P); [done|done|done|]. intros k2 Hf2 Ht2 Hd2 Hv2.
    apply log_wakeup_rule; [apply Ht2|]. intros s2 Hq2.
    assert (the_log k2 = set_log_n 0 g1) as El by apply (bf_log _ _ Hf2).
    apply HQ; rewrite ?El; try done.
    + etransitivity; [done|]. destruct Hf2. split; try done. kproj. by etransitivity.
    + apply tx_ok_log; [done|done|]. pose proof (tx_log _ _ _ _ Ht2) as []. rewrite El in *. by split.
Qed.
(** ** Crashes during recovery *)

Lemma recover_prefix d st bl j :
  tx_blocks st bl -> log_on_disk d st bl -> length (dblk d st) = Z.to_nat BSIZE ->
  let d' := apply_writes (take j (recover_ws d st bl)) d in
  exists bl', tx_blocks st bl' /\ log_on_disk d' st bl' /\
    forall m, ~ in_log st m -> after_recovery d' st bl' m = after_recovery d st bl m.
Proof.
  intros Htb Hlog Hlen d'. destruct (decide (j <= length bl)%nat) as [Hj|Hj].
  - exists bl. set (homes := map (fun i => (get_blk bl i, dblk d (st + Z.of_nat i + 1))) (seq 0 (length bl))).
    assert (take j (recover_ws d st bl) = take j homes) as E.
    { unfold recover_ws. apply take_app_le. unfold homes. by rewrite length_map, length_seq. }
    assert (forall m, m ∉ bl -> dblk d' m = dblk d m) as Hout.
    { intros m Hm. unfold d'. rewrite E. apply dblk_writes_out. intros Hin%elem_of_take_keys.
      unfold homes in Hin. by rewrite blk_keys in Hin. }
    assert (forall m, in_log st m -> dblk d' m = dblk d m) as Hin.
    { intros m Hm. apply Hout. intros Hb. by apply (tb_home _ _ Htb m). }
    pose proof (tb_fits _ _ Htb) as Hfit. split_and!; [done| |].
    + unfold log_on_disk. rewrite Hin by (unfold in_log, LOGSIZE, MAXOPBLOCKS; lia). done.
    + intros m Hm. destruct (decide (m ∈ bl)) as [Hb|Hb].
      * apply list_elem_of_lookup in Hb as [i Hi]. rewrite !(after_recovery_in _ _ _ i) by done.
        apply Hin. apply lookup_lt_Some in Hi. unfold in_log. lia.
      * rewrite !after_recovery_out by done. by apply Hout.
  - exists []. assert (d' = apply_writes (recover_ws d st bl) d) as ->.
    { unfold d'. rewrite take_ge; [done|]. unfold recover_ws. rewrite length_app, length_map, length_seq. simpl. lia. }
    split_and!; [apply tx_blocks_nil| |].
    + apply (header_on_disk _ _ _ (dblk d st)); [done|apply tx_blocks_nil|]. unfold recover_ws.
      by rewrite apply_writes_snoc, dblk_write, decide_True.
    + intros m Hm. rewrite after_recovery_out; [done|done|apply not_elem_of_nil].
Qed.

(** C3: recovery can itself be interrupted: whatever prefix of its disk writes
    has been made when the machine stops again, recovering once more gives
    every block the contents an undisturbed recovery gives it. *)
Theorem recovery_idempotent st bl k :
  boot_ok k st -> log_on_disk (the_disk k) st bl -> tx_blocks st bl ->
  wp disk_turn recover_from_log (fun _ k1 => exists ws,
    the_disk k1 = apply_writes ws (the_disk k) /\
    forall j kb, rebooted kb st ws (the_disk k) j ->
      wp disk_turn recover_from_log (fun _ kr =>
        forall m, ~ in_log st m -> dblk (the_disk kr) m = dblk (the_disk k1) m) kb) k.
Proof.
  intros Hbt Hlog Htb. apply (recover_rule st bl); [done..|]. intros k1 Ht1 Hd1 _.
  exists (recover_ws (the_disk k) st bl). split; [done|]. intros j kb [Hbb Hdk].
  destruct (recover_prefix (the_disk k) st bl j) as (bl' & Htb' & Hl' & Hrec); [done|done|apply (bt_bio _ _ Hbt)|].
  apply (recover_rule st bl'); [done|by eapply log_on_disk_ext; [intros m; symmetry; apply Hdk|]|done|].
  intros kr _ Hdr _ m Hm. rewrite Hdr, Hd1. fold (after_recovery (the_disk k) st bl m). rewrite <- Hrec by done.
  by apply after_recovery_ext.
Qed.

(** C36: recovering a transaction gives back a pin that recovery never took:
    every recovered block ends in a buffer whose reference count has wrapped
    to 2^32 - 1 although nobody refers to it. *)
Theorem recovery_leaks_buffers st bl k :
  boot_ok k st -> log_on_disk (the_disk k) st bl -> tx_blocks st bl ->
  wp disk_turn recover_from_log (fun _ k' =>
    forall x, x ∈ bl -> exists b, (b < NBUF)%nat /\ caches (buf_at k' b) x /\
      sl_locked (b_lock (buf_at k' b)) = 0 /\ b_refcnt (buf_at k' b) = 4294967295) k.
Proof.
  intros Hbt Hlog Htb. apply (recover_rule st bl); [done..|]. intros k' Ht _ _ x Hx.
  assert (pin (unpinned bl ∅ (length bl)) x = -1) as Hp.
  { rewrite pin_unpinned_in; [done|apply Htb|done|by rewrite firstn_all]. }
  destruct (bo_pin _ _ _ (tx_bio _ _ _ _ Ht) x) as (b & Hb & Hc & _); [by rewrite Hp|]. exists b.
  destruct (bo_buf _ _ _ (tx_bio _ _ _ _ Ht) b Hb) as (_ & _ & _ & Ho). rewrite lookup_empty in Ho.
  destruct Ho as [Ho1 Ho2], Hc as [C1 C2]. split_and!; try done. rewrite Ho2, C1, C2, Hp. done.
Qed.

End ops.

(** ** A concrete transaction

    Block 500 has been changed in buffer 5 and logged. *)

Definition sample_dirty (x : buf) : buf :=
  set_b_dev ROOTDEV (set_b_blockno 500 (set_b_valid 1 (set_b_refcnt 1
    (set_b_data (repeat 7 (Z.to_nat BSIZE)) x)))).
Definition sample_log : log := mk_log 2 30 1 0 ROOTDEV (mk_logheader 1 (500 :: repeat 0 29)).
Definition sample_tx : kernel := put_log sample_log (set_buf 5 sample_dirty sample_bio).
Definition sample_pins : gmap Z Z := <[500 := 1]> ∅.

Lemma sample_tx_at i :
  buf_at sample_tx i = if decide (i = 5%nat) then sample_dirty (buf_at sample_bio 5) else buf_at sample_bio i.
Proof.
  change (buf_at sample_tx i) with (buf_at (set_buf 5 sample_dirty sample_bio) i). rewrite buf_at_set; [reflexivity|].
  rewrite (rg_len _ _ (proj1 sample_bio_spec)). vm_compute. lia.
Qed.

Lemma the_disk_tx g b f k : the_disk (put_log g (set_buf b f k)) = the_disk k.
Proof. reflexivity. Qed.

Lemma sample_tx_disk : the_disk sample_tx = mk_disk ∅ [].
Proof. unfold sample_tx. rewrite the_disk_tx. apply sample_bio_rest. Qed.

Lemma sample_pins_of : pins_of [500] sample_pins.
Proof.
  intros m. unfold sample_pins. rewrite pin_insert. destruct (decide (m = 500)) as [->|Hne].
  - rewrite decide_True; [done|by left].
  - rewrite decide_False; [done|]. by intros ->%list_elem_of_singleton.
Qed.

Lemma sample_log_has : log_has sample_log 2 [500].
Proof.
  split; try done.
  - simpl. vm_compute. lia.
  - intros i x Hx. apply list_lookup_singleton_Some in Hx as [-> <-]. done.
  - apply NoDup_singleton.
  - intros x ->%list_elem_of_singleton. unfold in_log, FSSIZE, LOGSIZE, MAXOPBLOCKS. lia.
Qed.

Lemma sample_tx_caches b n : (b < NBUF)%nat -> caches (buf_at sample_tx b) n -> b = 5%nat /\ n = 500.
Proof.
  intros Hb [Hd Hn]. rewrite sample_tx_at in Hd, Hn. destruct (decide (b = 5%nat)) as [->|].
  - split; [reflexivity|symmetry; exact Hn].
  - exfalso. destruct (sample_bio_buf b Hb) as (_ & E & _). rewrite E in Hd. discriminate Hd.
Qed.

Lemma sample_tx_bio {V : VirtioDevice} {VL : VirtioLaw V} : bio_ok sample_tx ∅ sample_pins.
Proof.
  destruct sample_bio_rest as (H1 & H2 & _). split.
  - exists (reverse (seq 0 NBUF)). apply (ring_ext sample_bio).
    + exact (proj1 sample_bio_spec).
    + change (bufs sample_tx) with (bufs (set_buf 5 sample_dirty sample_bio)). exact (length_set_buf 5 sample_dirty sample_bio).
    + intros i. unfold nx, pv. rewrite sample_tx_at. destruct (decide (i = 5%nat)) as [->|]; split; reflexivity.
  - change (vd_idle (the_vd sample_bio)). rewrite H1. exact sample_vd_idle.
  - intros n. rewrite sample_tx_disk. unfold dblk. cbn [dk_blocks]. rewrite lookup_empty. apply repeat_length.
  - intros b Hb. rewrite lookup_empty, sample_tx_at.
    destruct (sample_bio_buf b Hb) as (E1 & E2 & E3 & E4 & E5).
    destruct (decide (b = 5%nat)) as [->|]; unfold buf_ok.
    + cbn [sample_dirty b_disk b_data b_dev b_blockno b_lock b_refcnt set_b_dev set_b_blockno set_b_valid set_b_refcnt set_b_data].
      rewrite E1, E4. split_and!; try reflexivity. intros _. split; [lia|reflexivity].
    + rewrite E1, E2, E3, E4, E5. split_and!; try reflexivity. intros H. discriminate H.
  - intros b n. rewrite lookup_empty. discriminate.
  - intros b b' n Hb Hb' Hc Hc'. destruct (sample_tx_caches b n Hb Hc) as [-> _].
    destruct (sample_tx_caches b' n Hb' Hc') as [-> _]. reflexivity.
  - intros n Hn. rewrite sample_pins_of in Hn. destruct (decide (n ∈ [500])) as [Hin|]; [|exfalso; apply Hn; reflexivity].
    apply list_elem_of_singleton in Hin as ->. exists 5%nat. rewrite sample_tx_at.
    split_and!; [vm_compute; lia|split; reflexivity|discriminate].
  - intros n. rewrite sample_pins_of. destruct (decide (n ∈ [500])); lia.
  - intros b n Hb Hc _ _ Hp. destruct (sample_tx_caches b n Hb Hc) as [_ ->]. exfalso.
    rewrite sample_pins_of, decide_True in Hp; [discriminate Hp|by left].
Qed.

Lemma sample_tx_ok {V : VirtioDevice} {VL : VirtioLaw V} : tx_ok sample_tx 2 [500] sample_pins.
Proof.
  split.
  - exact sample_bio_calm.
  - exact sample_log_has.
  - exact sample_tx_bio.
  - vm_compute. lia.
  - intros m Hm. rewrite sample_pins_of, decide_False; [reflexivity|]. intros ->%list_elem_of_singleton.
    unfold in_log, LOGSIZE, MAXOPBLOCKS in Hm. lia.
Qed.

Lemma sample_log_empty : log_on_disk (the_disk sample_tx) 2 [].
Proof.
  rewrite sample_tx_disk. split; [vm_compute; reflexivity|]. intros i x Hx. discriminate Hx.
Qed.

Lemma commit_crash_atomic_witness :
  wp (disk_turn (DiskLaw := virtio_disk_law (V := sample_device))) commit (fun _ k' => exists ws,
    the_disk k' = apply_writes ws (the_disk sample_tx) /\
    dblk (the_disk k') 500 = view sample_tx 500) sample_tx.
Proof.
  eapply wp_mono.
  - apply (commit_crash_atomic (DL := virtio_disk_law (V := sample_device)) 2 [500] sample_pins sample_tx).
    + exact sample_tx_ok.
    + exact sample_pins_of.
    + discriminate.
    + exact sample_log_empty.
  - intros [] k' (ws & E1 & E2 & _). exists ws. split; [exact E1|]. apply E2.
    unfold in_log, LOGSIZE, MAXOPBLOCKS. lia.
Defined.

(** ** A concrete reboot

    The machine stopped after the header of a transaction of block 500 had
    been written. *)

Definition sample_crashed : disk :=
  apply_writes [(3, repeat 7 (Z.to_nat BSIZE)); (2, header (repeat 0 (Z.to_nat BSIZE)) [500])] (mk_disk ∅ []).
Definition sample_boot : kernel :=
  put_log (mk_log 2 30 0 0 ROOTDEV (mk_logheader 0 (repeat 0 (Z.to_nat LOGSIZE)))) (put_disk sample_crashed sample_bio).

Lemma sample_crashed_len n : length (dblk sample_crashed n) = Z.to_nat BSIZE.
Proof.
  unfold sample_crashed. rewrite !apply_writes_cons. change (apply_writes [] ?d) with d.
  rewrite !dblk_write. destruct (decide (n = 2)); [|destruct (decide (n = 3))].
  - unfold header. rewrite length_hdr_upto. apply repeat_length.
  - apply repeat_length.
  - unfold dblk. cbn [dk_blocks]. rewrite lookup_empty. apply repeat_length.
Qed.

Lemma buf_at_boot g d k i : buf_at (put_log g (put_disk d k)) i = buf_at k i.
Proof. reflexivity. Qed.

Lemma bufs_boot g d k : bufs (put_log g (put_disk d k)) = bufs k.
Proof. reflexivity. Qed.

Lemma sample_boot_ok {V : VirtioDevice} {VL : VirtioLaw V} : boot_ok sample_boot 2.
Proof.
  split; try reflexivity.
  - exact sample_bio_calm.
  - unfold FSSIZE, LOGSIZE, MAXOPBLOCKS. lia.
  - destruct sample_bio_rest as (H1 & _ & _). apply (fresh_bio_ok _ (reverse (seq 0 NBUF))).
    + apply (ring_ext sample_bio).
      * exact (proj1 sample_bio_spec).
      * unfold sample_boot. rewrite bufs_boot. reflexivity.
      * intros i. unfold nx, pv, sample_boot. rewrite buf_at_boot. split; reflexivity.
    + change (vd_idle (the_vd sample_bio)). rewrite H1. exact sample_vd_idle.
    + exact sample_crashed_len.
    + intros b Hb. unfold sample_boot. rewrite buf_at_boot. exact (sample_bio_buf b Hb).
Qed.

Lemma sample_tx_blocks : tx_blocks 2 [500].
Proof. exact (log_has_blocks _ _ _ sample_log_has). Qed.

Lemma sample_boot_log : log_on_disk (the_disk sample_boot) 2 [500].
Proof.
  change (the_disk sample_boot) with sample_crashed.
  apply (header_on_disk _ _ _ (repeat 0 (Z.to_nat BSIZE))); [apply repeat_length|exact sample_tx_blocks|].
  unfold sample_crashed. rewrite !apply_writes_cons. change (apply_writes [] ?d) with d.
  by rewrite dblk_write, decide_True.
Qed.

Lemma recovery_idempotent_witness :
  wp (disk_turn (DiskLaw := virtio_disk_law (V := sample_device))) recover_from_log (fun _ k1 =>
    exists ws, the_disk k1 = apply_writes ws (the_disk sample_boot)) sample_boot.
Proof.
  eapply wp_mono.
  - apply (recovery_idempotent (DL := virtio_disk_law (V := sample_device)) 2 [500] sample_boot).
    + exact sample_boot_ok.
    + exact sample_boot_log.
    + exact sample_tx_blocks.
  - intros [] k1 (ws & E & _). exists ws. exact E.
Defined.

Lemma recovery_leaks_buffers_witness :
  wp (disk_turn (DiskLaw := virtio_disk_law (V := sample_device))) recover_from_log (fun _ k' =>
    exists b, caches (buf_at k' b) 500 /\ b_refcnt (buf_at k' b) = 4294967295) sample_boot.
Proof.
  eapply wp_mono.
  - apply (recovery_leaks_buffers (DL := virtio_disk_law (V := sample_device)) 2 [500] sample_boot).
    + exact sample_boot_ok.
    + exact sample_boot_log.
    + exact sample_tx_blocks.
  - intros [] k' H. destruct (H 500) as (b & _ & H1 & _ & H2); [by left|]. exists b. split; [exact H1|exact H2].
Defined.

(** ** Properties of the operations *)

Section claims.
Context {D : DiskDriver} {DL : DiskLaw D}.

(** [log_write] of a held buffer inside a transaction adds its block to
    the transaction once, however often it is written, and pins the buffer
    when the block is new; the contents of the blocks and the disk do not
    change, and the cache stays consistent with exactly the logged blocks
    pinned. *)
Theorem log_write_absorbs b n H P st bl k :
  calm (k_sy k) -> log_has (the_log k) st bl -> bio_ok k H P -> H !! b = Some n -> ~ in_log st n ->
  pins_of bl P -> Z.of_nat (length bl) < lg_size (the_log k) - 1 -> lg_size (the_log k) <= LOGSIZE ->
  1 <= lg_outstanding (the_log k) ->
  wp disk_turn (log_write b) (fun _ k' =>
    log_has (the_log k') st (logged bl n) /\ same_counts (the_log k) (the_log k') /\
    (exists P', bio_ok k' H P' /\ pins_of (logged bl n) P') /\
    the_disk k' = the_disk k /\ (forall m, view k' m = view k m) /\ op_frame k k') k.
Proof.
  intros. apply (log_write_rule b n H P st bl); try done. intros k' P' E1 E2 E3 E4 E5 E6 E7.
  split; [done|]. split; [done|]. split; [by exists P'|done].
Qed.

(** [log_write] refuses to overrun the log: it panics when the header is
    full or when the on-disk log, one block of which is the header, has no
    block left, and it panics outside a transaction. *)
Theorem log_write_guards b k :
  let g := the_log k in
  (LOGSIZE <= lh_n (lg_lh g) \/ lg_size g - 1 <= lh_n (lg_lh g) ->
     panics (log_write b) "too big a transaction" k) /\
  (lh_n (lg_lh g) < LOGSIZE -> lh_n (lg_lh g) < lg_size g - 1 -> lg_outstanding g < 1 ->
     panics (log_write b) "log_write outside of trans" k).
Proof.
  intros g. split.
  - intros H. unfold log_write. apply panics_bind_wp, wp_gets. fold g. rewrite !Z.geb_leb.
    destruct (Z.leb_spec LOGSIZE (lh_n (lg_lh g))); [apply panics_panic|].
    destruct (Z.leb_spec (lg_size g - 1) (lh_n (lg_lh g))); [apply panics_panic|lia].
  - intros H1 H2 H3. unfold log_write. apply panics_bind_wp, wp_gets. fold g. rewrite !Z.geb_leb.
    destruct (Z.leb_spec LOGSIZE (lh_n (lg_lh g))); [lia|].
    destruct (Z.leb_spec (lg_size g - 1) (lh_n (lg_lh g))); [lia|]. cbn [orb].
    destruct (Z.ltb_spec (lg_outstanding g) 1); [apply panics_panic|lia].
Qed.

(** [begin_op] may start a new operation. *)
Definition admits (g : log) : bool :=
  negb (c_true (lg_committing g)) &&
  (lh_n (lg_lh g) + (lg_outstanding g + 1) * MAXOPBLOCKS <=? LOGSIZE).

(** [begin_op] starts an operation at once exactly when no commit is in
    progress and the log has room for [MAXOPBLOCKS] more blocks for it beside
    all the operations in progress, which it then counts; otherwise it gives
    up the processor asleep on the log with the log's lock released. *)
Theorem begin_op_admission p k :
  calm (k_sy k) -> c_proc (sy_cpu (k_sy k)) = Some p ->
  if admits (the_log k) then
    exists s', quiet (k_sy k) s' /\ forall e, begin_op e k = Ret tt e
      (set_sy s' (put_log (set_lg_outstanding (lg_outstanding (the_log k) + 1) (the_log k)) k))
  else exists k', begin_op [] k = Off k' /\
    asleep p C_log L_log (set_sy (sy_acquire L_log (k_sy k)) k) k'.
Proof.
  intros Hc Hp. unfold begin_op. assert (lock_free (k_sy k) L_log) as Hf by eauto with kern.
  set (k1 := set_sy (sy_acquire L_log (k_sy k)) k).
  assert (solo (k_sy k1) L_log) as Hso.
  { split; [apply lock_held_acquire| |done]. unfold k1. kproj. simpl. by rewrite (ca_noff _ Hc). }
  assert (exists k', asleep p C_log L_log k1 k' /\ sleep C_log L_log [] k1 = Off k') as (k' & Ha & Hs).
  { destruct (offs_sleep p C_log L_log k1) as (k' & Ha & H1 & _); [done|done| |done| |].
    - destruct (ca_run _ Hc) as (q & pr & Hq & Hpr & _). rewrite Hp in Hq. injection Hq as <-.
      by eapply lookup_lt_Some.
    - apply lock_free_acquire; [done|]. apply (calm_procs_free _ Hc).
      destruct (ca_run _ Hc) as (q & pr & Hq & Hpr & _). rewrite Hp in Hq. injection Hq as <-.
      rewrite <- (ca_len _ Hc). by eapply lookup_lt_Some.
    - by exists k'. }
  destruct (wp_exact (acquire L_log) (fun _ k' => k' = k1) k) as ([] & ? & He & ->); [by apply wp_acquire|].
  unfold admits. destruct (c_true (lg_committing (the_log k))) eqn:Ec; cbn [negb andb].
  - exists k'. split; [|done]. unfold bind at 1. rewrite He. unfold wait_loop. simpl. unfold bind, get_log, gets.
    change (the_log k1) with (the_log k). rewrite Ec, Hs. done.
  - destruct (Z.leb_spec (lh_n (lg_lh (the_log k)) + (lg_outstanding (the_log k) + 1) * MAXOPBLOCKS) LOGSIZE).
    + destruct (wp_exact (acquire L_log ;; wait_loop (fun _ : unit =>
        let* g := get_log in
        if c_true (lg_committing g) then sleep C_log L_log ;; ret (inl tt)
        else if lh_n (lg_lh g) + (lg_outstanding g + 1) * MAXOPBLOCKS >? LOGSIZE then
          sleep C_log L_log ;; ret (inl tt)
        else
          upd_log (fun g => set_lg_outstanding (lg_outstanding g + 1) g) ;; release L_log ;; ret (inr tt)) tt)
        (fun _ k' => exists s', quiet (k_sy k) s' /\ k' = set_sy s'
          (put_log (set_lg_outstanding (lg_outstanding (the_log k) + 1) (the_log k)) k)) k)
        as ([] & ? & H1 & s' & H2 & ->); [|by exists s'].
      apply wp_bind, wp_acquire; [done|]. apply wp_wait_loop, wp_bind, wp_gets.
      change (the_log (set_sy _ k)) with (the_log k). rewrite Ec, Z.gtb_ltb.
      destruct (Z.ltb_spec LOGSIZE (lh_n (lg_lh (the_log k)) + (lg_outstanding (the_log k) + 1) * MAXOPBLOCKS)); [lia|].
      apply wp_bind, wp_modify, wp_bind, (wp_release _ (k_sy k)); [eauto with kern..|reflexivity|].
      intros s' Hq _. apply wp_ret. by exists s'.
    + exists k'. split; [|done]. unfold bind at 1. rewrite He. unfold wait_loop. simpl. unfold bind, get_log, gets.
      change (the_log k1) with (the_log k). rewrite Ec, Z.gtb_ltb.
      destruct (Z.ltb_spec LOGSIZE (lh_n (lg_lh (the_log k)) + (lg_outstanding (the_log k) + 1) * MAXOPBLOCKS)); [|lia].
      rewrite Hs. done.
Qed.

(** Recovery from an empty log changes no block outside it. *)
Lemma recover_empty st k :
  boot_ok k st -> log_on_disk (the_disk k) st [] ->
  wp disk_turn recover_from_log (fun _ kr => forall m, ~ in_log st m -> view kr m = dblk (the_disk k) m) k.
Proof.
  intros Hbt Hlog. apply (recover_rule st []); [done|done|apply tx_blocks_nil|]. intros kr _ Hd Hv m Hm.
  rewrite Hv, Hd by done. apply after_recovery_out; [done|apply not_elem_of_nil].
Qed.

(** The header on disk after the last [end_op]. *)
Lemma commit_erases st bl P k :
  tx_ok k st bl P -> pins_of bl P -> bl <> [] \/ log_on_disk (the_disk k) st [] ->
  log_on_disk (apply_writes (if decide (bl = []) then [] else commit_ws k st bl) (the_disk k)) st [].
Proof.
  intros Htx Hp Hor. case_decide as E; [by destruct Hor|].
  destruct (crash_late k st bl P Htx Hp (2 * length bl + 2)) as [H _]; [lia|].
  rewrite take_ge in H; [done|]. unfold commit_ws, log_ws. rewrite !length_app, !length_map, !length_seq. simpl. lia.
Qed.

(** C4: the [end_op] of the last operation commits: afterwards every block
    outside the log is on disk as the kernel sees it, the log in memory is
    empty, no buffer is pinned and operations may begin again; the kernel's
    view of the blocks has not changed.  The header on disk is erased too (an
    empty transaction leaves the empty log it found), so that a recovery
    after any later reboot from this disk replays nothing. *)
Theorem end_op_commits st bl P k :
  tx_ok k st bl P -> pins_of bl P -> lg_outstanding (the_log k) = 1 -> lg_committing (the_log k) = 0 ->
  wp disk_turn end_op (fun _ k' =>
    tx_ok k' st [] ∅ /\ lg_outstanding (the_log k') = 0 /\ lg_committing (the_log k') = 0 /\
    (forall m, ~ in_log st m -> view k' m = view k m /\ dblk (the_disk k') m = view k m) /\ op_frame k k' /\
    (bl <> [] \/ log_on_disk (the_disk k) st [] ->
       log_on_disk (the_disk k') st [] /\
       forall kb, boot_ok kb st -> the_disk kb = the_disk k' ->
         wp disk_turn recover_from_log (fun _ kr => forall m, ~ in_log st m -> view kr m = view k m) kb)) k.
Proof.
  intros Htx Hp Ho Hc. apply (end_op_last_rule st bl P); [done..|]. intros k' H1 H2 H3 H4 _ Hd H6.
  assert (forall m, ~ in_log st m -> dblk (the_disk k') m = view k m) as Hon.
  { intros m Hm. rewrite <- H6 by done. symmetry. apply (view_clean k' ∅); [apply H2|done]. }
  split_and!; [done..| |done|].
  - intros m Hm. split; [by apply H6|by apply Hon].
  - intros Hor. assert (log_on_disk (the_disk k') st []) as Hl by (rewrite Hd; by eapply commit_erases).
    split; [done|]. intros kb Hb Eb. eapply wp_mono; [apply (recover_empty st); [done|by rewrite Eb]|].
    intros [] kr Hr m Hm. rewrite Hr, Eb by done. by apply Hon.
Qed.

End claims.

(** Read block 500 in the open transaction, and log it again. *)
Lemma log_write_absorbs_witness :
  wp (disk_turn (DiskLaw := virtio_disk_law (V := sample_device)))
    (let* b := bread ROOTDEV 500 in log_write b) (fun _ k' => log_has (the_log k') 2 [500]) sample_tx.
Proof.
  apply wp_bind, (bread_rule 500 ∅ sample_pins).
  - exact sample_bio_calm.
  - exact sample_tx_bio.
  - split; [lia|reflexivity].
  - intros b m. rewrite lookup_empty. discriminate.
  - destruct (bo_pin _ _ _ (sample_tx_bio (V := sample_device)) 500) as (b & H1 & H2 & _); [discriminate|]. exists b. auto.
  - intros b k' _ _ Hf Hok _ _. assert (the_log k' = sample_log) as El by exact (bf_log _ _ Hf).
    eapply wp_mono.
    + apply (log_write_absorbs (DL := virtio_disk_law (V := sample_device)) b 500 (<[b := 500]> ∅) sample_pins 2 [500] k').
      * eapply bio_frame_calm; [exact Hf|exact sample_bio_calm].
      * rewrite El. exact sample_log_has.
      * exact Hok.
      * apply lookup_insert_eq.
      * unfold in_log, LOGSIZE, MAXOPBLOCKS. lia.
      * exact sample_pins_of.
      * rewrite El. reflexivity.
      * rewrite El. discriminate.
      * rewrite El. simpl. lia.
    + intros [] k'' (H & _). unfold logged in H. rewrite decide_True in H by (by left). exact H.
Defined.

Lemma log_write_guards_witness : panics (log_write 5) "too big a transaction" sample.
Proof. apply (log_write_guards 5 sample). right. discriminate. Defined.

Lemma begin_op_admission_witness :
  exists s', forall e, begin_op e sample = Ret tt e
    (set_sy s' (put_log (set_lg_outstanding 1 zero_log) sample)).
Proof.
  destruct (begin_op_admission 0%nat sample) as (s' & _ & H).
  - exact sample_calm.
  - reflexivity.
  - exists s'. exact H.
Defined.

Lemma end_op_commits_witness :
  wp (disk_turn (DiskLaw := virtio_disk_law (V := sample_device))) end_op (fun _ k' =>
    dblk (the_disk k') 500 = view sample_tx 500 /\ log_on_disk (the_disk k') 2 []) sample_tx.
Proof.
  eapply wp_mono.
  - apply (end_op_commits (DL := virtio_disk_law (V := sample_device)) 2 [500] sample_pins sample_tx).
    + exact sample_tx_ok.
    + exact sample_pins_of.
    + reflexivity.
    + reflexivity.
  - intros [] k' (_ & _ & _ & H & _ & Hl). split.
    + apply H. unfold in_log, LOGSIZE, MAXOPBLOCKS. lia.
    + apply Hl. left. discriminate.
Defined.
