(* ===== verification/Copy.v ===== *)
(** * Copies to and from user or kernel memory ([kernel/proc.c])

    [either_copyout] and [either_copyin] take the kernel's end of the copy as
    the list of its bytes.  The other end is a user address, a physical
    address the kernel has mapped, or a position in a local variable of the
    caller; the contents of such a variable are threaded through the calls. *)

From S2P Require Import Prelude Defs State Logic Memory Spinlock Sched Kalloc Vm.

Inductive dest :=
| To_user (va : Z)
| To_phys (pa : Z)
| To_local (buf : list Z) (i : Z).

(** A variable of [n] bytes before anything is stored in it; its bytes, here
    0, are not read until all of them have been. *)
Definition To_var (n : Z) : dest := To_local (repeat 0 (Z.to_nat n)) 0.
Definition dest_bytes (d : dest) : list Z :=
  match d with To_local buf _ => buf | _ => [] end.

Inductive source :=
| From_user (va : Z)
| From_local (bytes : list Z).

(** [dst += n] and [src += n]. *)
Definition dest_add (d : dest) (n : Z) : dest :=
  match d with
  | To_user va => To_user (u64 (va + n))
  | To_phys pa => To_phys (u64 (pa + n))
  | To_local buf i => To_local buf (i + n)
  end.
Definition source_add (s : source) (n : Z) : source :=
  match s with
  | From_user va => From_user (u64 (va + n))
  | From_local bytes => From_local (drop (Z.to_nat n) bytes)
  end.

Section copy.
Context {L : Linker}.

(** The result, and the destination with the bytes stored in it when it is a
    variable of the caller. *)
Definition either_copyout (d : dest) (src : list Z) : M (Z * dest) :=
  let* p := myproc in
  match d with
  | To_user va =>
      let* p := deref p in
      let* pr := get_proc p in
      let* r := copyout (p_pagetable pr) va src in
      ret (r, d)
  | To_phys pa => store_bytes pa src ;; ret (0, d)
  | To_local buf i => ret (0, To_local (splice buf (Z.to_nat i) src) i)
  end.

(** The result, and the bytes stored in the kernel buffer. *)
Definition either_copyin (s : source) (len : Z) : M (Z * list Z) :=
  let* p := myproc in
  match s with
  | From_user va =>
      let* p := deref p in
      let* pr := get_proc p in
      copyin (p_pagetable pr) va len
  | From_local bytes => ret (0, take (Z.to_nat len) bytes)
  end.

End copy.
