(* ===== verification/Uart.v ===== *)
(** * [kernel/uart.c]: the 16550a driver

    The registers are [ur_lsr], [ur_rhr] and [ur_writes] of the state.  After
    the listed values a read of LSR or RHR returns 0: the transmitter never
    becomes idle again and no input arrives. *)

From S2P Require Import Prelude Defs State Logic Memory Spinlock Sched.

Definition upd_ms (f : misc -> misc) : M unit := modify (fun k => set_ms (f (k_ms k)) k).
Definition the_uart (k : kernel) : uart := ms_uart (k_ms k).
Definition get_uart : M uart := gets the_uart.
Definition upd_uart (f : uart -> uart) : M unit :=
  upd_ms (fun m => set_uart (f (ms_uart m)) m).

Definition RHR : Z := 0.
Definition THR : Z := 0.
Definition IER : Z := 1.
Definition IER_TX_ENABLE : Z := Z.shiftl 1 0.
Definition IER_RX_ENABLE : Z := Z.shiftl 1 1.
Definition FCR : Z := 2.
Definition FCR_FIFO_ENABLE : Z := Z.shiftl 1 0.
Definition FCR_FIFO_CLEAR : Z := Z.shiftl 3 1.
Definition LCR : Z := 3.
Definition LCR_EIGHT_BITS : Z := Z.shiftl 3 0.
Definition LCR_BAUD_LATCH : Z := Z.shiftl 1 7.
Definition LSR : Z := 5.
Definition LSR_RX_READY : Z := Z.shiftl 1 0.
Definition LSR_TX_IDLE : Z := Z.shiftl 1 5.
Definition UART_TX_BUF_SIZE : Z := 32.

(** [ReadReg(LSR)], [ReadReg(RHR)] and [WriteReg]. *)
Definition read_lsr : M Z :=
  let* u := get_uart in
  upd_uart (set_ur_lsr (tail (ur_lsr u))) ;;
  ret (hd 0 (ur_lsr u)).
Definition read_rhr : M Z :=
  let* u := get_uart in
  upd_uart (set_ur_rhr (tail (ur_rhr u))) ;;
  ret (hd 0 (ur_rhr u)).
Definition WriteReg (reg v : Z) : M unit :=
  upd_uart (fun u => set_ur_writes ((reg, u8 v) :: ur_writes u) u).

Definition uartinit : M unit :=
  WriteReg IER 0 ;;
  WriteReg LCR LCR_BAUD_LATCH ;;
  WriteReg 0 3 ;;
  WriteReg 1 0 ;;
  WriteReg LCR LCR_EIGHT_BITS ;;
  WriteReg FCR (Z.lor FCR_FIFO_ENABLE FCR_FIFO_CLEAR) ;;
  WriteReg IER (Z.lor IER_TX_ENABLE IER_RX_ENABLE) ;;
  initlock L_uart_tx "uart".

(** Each iteration sends a byte of the buffer, which holds at most 31. *)
Definition uartstart : M unit :=
  loop (S (Z.to_nat UART_TX_BUF_SIZE)) (fun _ =>
    let* u := get_uart in
    if ua_tx_w u =? ua_tx_r u then ret (inr tt) else
    let* lsr := read_lsr in
    if Z.land lsr LSR_TX_IDLE =? 0 then ret (inr tt) else
    let c := nth (Z.to_nat (ua_tx_r u)) (ua_tx_buf u) 0 in
    upd_uart (set_ua_tx_r ((ua_tx_r u + 1) mod UART_TX_BUF_SIZE)) ;;
    wakeup C_uart_tx_r ;;
    WriteReg THR c ;;
    ret (inl tt)) tt.

(** [for(;;) ;] *)
Definition hang {A} : M A := fun e k => Spin k.

Definition uartputc (c : Z) : M unit :=
  acquire L_uart_tx ;;
  let* panicked := gets (fun k => ms_panicked (k_ms k)) in
  if panicked : bool then hang else
  wait_loop (fun _ =>
    let* u := get_uart in
    if (ua_tx_w u + 1) mod UART_TX_BUF_SIZE =? ua_tx_r u then
      sleep C_uart_tx_r L_uart_tx ;;
      ret (inl tt)
    else
      upd_uart (fun u => set_ua_tx_buf (<[Z.to_nat (ua_tx_w u) := u8 c]> (ua_tx_buf u)) u) ;;
      upd_uart (fun u => set_ua_tx_w ((ua_tx_w u + 1) mod UART_TX_BUF_SIZE) u) ;;
      uartstart ;;
      release L_uart_tx ;;
      ret (inr tt)) tt.

Definition uartputc_sync (c : Z) : M unit :=
  push_off ;;
  let* panicked := gets (fun k => ms_panicked (k_ms k)) in
  if panicked : bool then hang else
  let* u := get_uart in
  loop (S (length (ur_lsr u))) (fun _ =>
    let* lsr := read_lsr in
    if Z.land lsr LSR_TX_IDLE =? 0 then ret (inl tt) else ret (inr tt)) tt ;;
  WriteReg THR c ;;
  pop_off.

Definition uartgetc : M Z :=
  let* lsr := read_lsr in
  if c_true (Z.land lsr 1) then read_rhr else ret (-1).
