(* ===== verification/Printf.v ===== *)
(** * [kernel/printf.c], and [consputc] of [kernel/console.c]

    The variable arguments of [printf] are a list of values tagged with the
    type [va_arg] takes them at.  [panic] is the [Panic] outcome of the monad
    (its message is the argument); the freeze of the other harts' output it
    causes is [ms_panicked], which [uartputc] and [uartputc_sync] test. *)

From S2P Require Import Prelude Defs State Logic Memory Spinlock Sched Uart.

Definition BACKSPACE : Z := 256.

Definition consputc (c : Z) : M unit :=
  if c =? BACKSPACE then
    uartputc_sync 8 ;; uartputc_sync 32 ;; uartputc_sync 8
  else uartputc_sync c.

Definition digits : list Z := bytes_of "0123456789abcdef".
Definition digit (x : Z) : Z := nth (Z.to_nat x) digits 0.

(** The [do] loop fills [buf] from the least significant digit; a [uint] has
    at most 32 digits. *)
Fixpoint print_digits (fuel : nat) (x base : Z) : list Z :=
  match fuel with
  | O => []
  | S fuel => digit (x mod base) :: (if x / base =? 0 then [] else print_digits fuel (x / base) base)
  end.

Definition printint_buf (xx base : Z) (sign : bool) : list Z :=
  let neg := sign && (xx <? 0) in
  let x := if neg then u32 (- xx) else u32 xx in
  print_digits 32 x base ++ (if neg then [45] else []).
Definition printint (xx base : Z) (sign : bool) : M unit :=
  for_all (rev (printint_buf xx base sign)) consputc.

Fixpoint printptr_digits (n : nat) (x : Z) : list Z :=
  match n with
  | O => []
  | S n => digit (Z.shiftr x 60) :: printptr_digits n (u64 (Z.shiftl x 4))
  end.
Definition printptr (x : Z) : M unit :=
  consputc 48 ;;
  consputc 120 ;;
  for_all (printptr_digits 16 x) consputc.

Inductive va_arg :=
| A_int (x : Z)
| A_uint64 (x : Z)
| A_str (s : option (list Z)).

(** [for(; *s; s++) consputc( *s)] *)
Fixpoint print_str (s : list Z) : M unit :=
  match s with
  | [] => ret tt
  | c :: s => if c =? 0 then ret tt else consputc c ;; print_str s
  end.

Fixpoint print_fmt (fmt : list Z) (ap : list va_arg) : M unit :=
  match fmt with
  | [] => ret tt
  | c :: fmt =>
      if c =? 0 then ret tt else
      if negb (c =? 37) then consputc c ;; print_fmt fmt ap else
      match fmt with
      | [] => ret tt
      | c :: fmt =>
          if c =? 0 then ret tt else
          if c =? 100 then
            match ap with A_int x :: ap => printint x 10 true ;; print_fmt fmt ap | _ => undefined end
          else if c =? 120 then
            match ap with A_int x :: ap => printint x 16 true ;; print_fmt fmt ap | _ => undefined end
          else if c =? 112 then
            match ap with A_uint64 x :: ap => printptr x ;; print_fmt fmt ap | _ => undefined end
          else if c =? 115 then
            match ap with
            | A_str s :: ap => print_str (default (bytes_of "(null)") s) ;; print_fmt fmt ap
            | _ => undefined
            end
          else if c =? 37 then consputc 37 ;; print_fmt fmt ap
          else consputc 37 ;; consputc c ;; print_fmt fmt ap
      end
  end.

Definition printf (fmt : option (list Z)) (ap : list va_arg) : M unit :=
  let* locking := gets (fun k => ms_locking (k_ms k)) in
  when (c_true locking) (acquire L_pr) ;;
  match fmt with
  | None => panic "null fmt"
  | Some fmt =>
      print_fmt fmt ap ;;
      when (c_true locking) (release L_pr)
  end.

Definition printfinit : M unit :=
  initlock L_pr "pr" ;;
  upd_ms (set_locking 1).

(** A format string that ends in a newline. *)
Definition line (s : string) : option (list Z) := Some (bytes_of s ++ [10]).
