(* ===== verification/Console.v ===== *)
(** * [kernel/console.c], [uartintr] of [kernel/uart.c], [procdump] of
      [kernel/proc.c] *)

From S2P Require Import Prelude Defs State Logic Memory Spinlock Sched Kalloc Vm Copy Uart Printf.

Definition INPUT_BUF : Z := 128.
Definition ctrl (x : Z) : Z := x - 64.

Definition the_cons (k : kernel) : cons_t := ms_cons (k_ms k).
Definition get_cons : M cons_t := gets the_cons.
Definition upd_cons (f : cons_t -> cons_t) : M unit :=
  upd_ms (fun m => set_cons (f (ms_cons m)) m).

Definition cons_byte (c : cons_t) (i : Z) : Z := nth (Z.to_nat (i mod INPUT_BUF)) (cs_buf c) 0.
Definition put_cons_byte (i x : Z) (c : cons_t) : cons_t :=
  set_cs_buf (<[Z.to_nat (i mod INPUT_BUF) := x]> (cs_buf c)) c.

Definition state_name (s : procstate) : string :=
  match s with
  | UNUSED => "unused" | SLEEPING => "sleep " | RUNNABLE => "runble"
  | RUNNING => "run   " | ZOMBIE => "zombie"
  end.

Definition procdump : M unit :=
  printf (line "") [] ;;
  for_all (seq 0 NPROC) (fun i =>
    let* p := get_proc i in
    when (negb (bool_decide (p_state p = UNUSED)))
      (printf (Some (bytes_of "%d %s %s"))
         [A_int (p_pid p); A_str (Some (bytes_of (state_name (p_state p)))); A_str (Some (p_name p))] ;;
       printf (line "") [])).

Section console.
Context {L : Linker}.

Definition consolewrite (src : source) (n : Z) : M Z :=
  acquire L_cons ;;
  let* r := for_each (seqZ 0 n) (fun i =>
    let* r := either_copyin (source_add src i) 1 in
    let '(r, c) := r in
    if r =? -1 then ret (Some i) else
    uartputc (hd 0 c) ;;
    ret None) in
  release L_cons ;;
  ret (match r with Some i => i | None => Z.max 0 n end).

Definition consoleread (dst : dest) (n : Z) : M Z :=
  let target := n in
  acquire L_cons ;;
  let* r := loop (S (Z.to_nat n)) (fun '(dst, n) =>
    if n >? 0 then
      let* killed := wait_loop (fun _ =>
        let* c := get_cons in
        if cs_r c =? cs_w c then
          let* p := curproc in
          let* p := get_proc p in
          if c_true (p_killed p) then
            release L_cons ;;
            ret (inr true)
          else
            sleep C_cons_r L_cons ;;
            ret (inl tt)
        else ret (inr false)) tt in
      if killed : bool then ret (inr None) else
      let* cs := get_cons in
      let c := cons_byte cs (cs_r cs) in
      upd_cons (fun cs => set_cs_r (u32 (cs_r cs + 1)) cs) ;;
      if c =? ctrl 68 then
        when (n <? target) (upd_cons (fun cs => set_cs_r (u32 (cs_r cs - 1)) cs)) ;;
        ret (inr (Some n))
      else
        let* r := either_copyout dst [c] in
        let '(r, dst) := r in
        if r =? -1 then ret (inr (Some n)) else
        let n := n - 1 in
        if c =? 10 then ret (inr (Some n)) else ret (inl (dest_add dst 1, n))
    else ret (inr (Some n))) (dst, n) in
  match r with
  | None => ret (-1)
  | Some n =>
      release L_cons ;;
      ret (s32 (target - n))
  end.

End console.

Definition consoleintr (c : Z) : M unit :=
  acquire L_cons ;;
  (if c =? ctrl 80 then procdump
   else if c =? ctrl 85 then
     let* cs := get_cons in
     loop (S (Z.to_nat (u32 (cs_e cs - cs_w cs)))) (fun _ =>
       let* cs := get_cons in
       if negb (cs_e cs =? cs_w cs) && negb (cons_byte cs (u32 (cs_e cs - 1)) =? 10) then
         upd_cons (fun cs => set_cs_e (u32 (cs_e cs - 1)) cs) ;;
         consputc BACKSPACE ;;
         ret (inl tt)
       else ret (inr tt)) tt
   else if (c =? ctrl 72) || (c =? 127) then
     let* cs := get_cons in
     when (negb (cs_e cs =? cs_w cs))
       (upd_cons (fun cs => set_cs_e (u32 (cs_e cs - 1)) cs) ;;
        consputc BACKSPACE)
   else
     let* cs := get_cons in
     when (negb (c =? 0) && (u32 (cs_e cs - cs_r cs) <? INPUT_BUF))
       (let c := if c =? 13 then 10 else c in
        consputc c ;;
        upd_cons (fun cs => set_cs_e (u32 (cs_e cs + 1)) (put_cons_byte (cs_e cs) (u8 c) cs)) ;;
        let* cs := get_cons in
        when ((c =? 10) || (c =? ctrl 68) || (cs_e cs =? u32 (cs_r cs + INPUT_BUF)))
          (upd_cons (fun cs => set_cs_w (cs_e cs) cs) ;;
           wakeup C_cons_r))) ;;
  release L_cons.

(** Each iteration reads LSR. *)
Definition uartintr : M unit :=
  let* u := get_uart in
  loop (S (length (ur_lsr u))) (fun _ =>
    let* c := uartgetc in
    if c =? -1 then ret (inr tt) else
    consoleintr c ;;
    ret (inl tt)) tt ;;
  acquire L_uart_tx ;;
  uartstart ;;
  release L_uart_tx.

Definition consoleinit : M unit :=
  initlock L_cons "cons" ;;
  uartinit ;;
  modify (fun k => set_fi (set_devsw
    (<[Z.to_nat CONSOLE := mk_devsw (Some Consoleread) (Some Consolewrite)]> (fi_devsw (k_fi k)))
    (k_fi k)) k).
