(* ===== verification/Fs.v ===== *)
(** * [kernel/fs.c]: blocks, inodes, directories, paths

    An inode pointer is an index into [icache.inode].  The on-disk inode and
    directory entries are read and written in the bytes of their block:
    [struct dinode] is 64 bytes, [type] at 0, [major] 2, [minor] 4, [nlink] 6,
    [size] 8 and [addrs] from 12; [struct dirent] is [inum] and 14 bytes of
    name.  A path is the list of its bytes up to its NUL. *)

From S2P Require Import Prelude Defs State Logic Memory Spinlock Sched Sleeplock Kalloc Vm Copy Bio Log.

(** ** Superblock *)

Definition get_sb : M superblock := gets (fun k => fs_sb (k_fs k)).
Definition put_sb (sb : superblock) : M unit := upd_fs (set_sb sb).

(** [memmove(sb, bp->data, sizeof( *sb))] *)
Definition superblock_of (d : list Z) : superblock :=
  mk_superblock (getn 4 d 0) (getn 4 d 4) (getn 4 d 8) (getn 4 d 12) (getn 4 d 16)
    (getn 4 d 20) (getn 4 d 24) (getn 4 d 28).

Definition IBLOCK (i : Z) (sb : superblock) : Z := u32 (i / IPB + sb_inodestart sb).
Definition BBLOCK (b : Z) (sb : superblock) : Z := u32 (b / BPB + sb_bmapstart sb).

(** ** Inodes in memory and on disk *)

Definition inodes (k : kernel) : list inode := fs_icache (k_fs k).
Definition inode_at (k : kernel) (i : nat) : inode := default zero_inode (inodes k !! i).
Definition get_inode (i : nat) : M inode := gets (fun k => inode_at k i).
Definition set_inode (i : nat) (f : inode -> inode) (k : kernel) : kernel :=
  set_fs (set_icache (alter f i (inodes k)) (k_fs k)) k.
Definition upd_inode (i : nat) (f : inode -> inode) : M unit := modify (set_inode i f).

Definition dinode_off (inum : Z) : Z := inum mod IPB * sizeof_dinode.
Definition dinode_type (d : list Z) (o : Z) : Z := s16 (getn 2 d o).
Definition dinode_addrs (d : list Z) (o : Z) : list Z :=
  map (fun i => getn 4 d (o + 12 + 4 * Z.of_nat i)) (seq 0 13).

(** The fields [ilock] copies from the disk, and [iupdate] to it. *)
Definition load_dinode (d : list Z) (o : Z) (ip : inode) : inode :=
  mk_inode (i_dev ip) (i_inum ip) (i_ref ip) (i_lock ip) (i_valid ip)
    (dinode_type d o) (s16 (getn 2 d (o + 2))) (s16 (getn 2 d (o + 4))) (s16 (getn 2 d (o + 6)))
    (getn 4 d (o + 8)) (dinode_addrs d o).
Definition store_dinode (ip : inode) (o : Z) (d : list Z) : list Z :=
  let d := putn 2 d o (u16 (i_type ip)) in
  let d := putn 2 d (o + 2) (u16 (i_major ip)) in
  let d := putn 2 d (o + 4) (u16 (i_minor ip)) in
  let d := putn 2 d (o + 6) (u16 (i_nlink ip)) in
  let d := putn 4 d (o + 8) (u32 (i_size ip)) in
  splice d (Z.to_nat (o + 12)) (concat (map (le_bytes 4) (i_addrs ip))).

Definition set_data (b : nat) (f : list Z -> list Z) : M unit :=
  upd_buf b (fun x => set_b_data (f (b_data x)) x).
Definition get_data (b : nat) : M (list Z) := let* x := get_buf b in ret (b_data x).

Section fs.
Context {D : DiskDriver} {L : Linker}.

Definition readsb (dev : Z) : M unit :=
  let* bp := bread dev 1 in
  let* d := get_data bp in
  put_sb (superblock_of d) ;;
  brelse bp.

Definition fsinit (dev : Z) : M unit :=
  readsb dev ;;
  let* sb := get_sb in
  if negb (sb_magic sb =? FSMAGIC) then panic "invalid file system" else
  initlog dev sb.

Definition bzero (dev bno : Z) : M unit :=
  let* bp := bread dev (u32 bno) in
  set_data bp (fun _ => repeat 0 (Z.to_nat BSIZE)) ;;
  log_write bp ;;
  brelse bp.

(** ** Blocks *)

Definition bit_mask (bi : Z) : Z := Z.shiftl 1 (bi mod 8).
Definition bit_byte (d : list Z) (bi : Z) : Z := nth (Z.to_nat (bi / 8)) d 0.

(** [for(bi = 0; bi < BPB && b + bi < sb.size; bi++)] up to a clear bit. *)
Fixpoint balloc_scan (n : nat) (d : list Z) (b bi size : Z) : option Z :=
  match n with
  | O => None
  | S n =>
      if b + bi <? size then
        if Z.land (bit_byte d bi) (bit_mask bi) =? 0 then Some bi
        else balloc_scan n d b (bi + 1) size
      else None
  end.

Definition mark_bit (bi : Z) (d : list Z) : list Z :=
  <[Z.to_nat (bi / 8) := Z.lor (bit_byte d bi) (bit_mask bi)]> d.
Definition clear_mark (bi : Z) (d : list Z) : list Z :=
  <[Z.to_nat (bi / 8) := Z.ldiff (bit_byte d bi) (bit_mask bi)]> d.

(** The bitmap blocks start at the multiples of [BPB] below [sb.size]. *)
Definition balloc (dev : Z) : M Z :=
  let* sb := get_sb in
  let* r := for_each (map (fun i => i * BPB) (seqZ 0 ((sb_size sb + BPB - 1) / BPB))) (fun b =>
    let* bp := bread dev (BBLOCK b sb) in
    let* d := get_data bp in
    match balloc_scan (Z.to_nat BPB) d b 0 (sb_size sb) with
    | Some bi =>
        set_data bp (mark_bit bi) ;;
        log_write bp ;;
        brelse bp ;;
        bzero dev (b + bi) ;;
        ret (Some (b + bi))
    | None => brelse bp ;; ret None
    end) in
  match r with
  | Some b => ret b
  | None => panic "balloc: out of blocks"
  end.

Definition bfree (dev b : Z) : M unit :=
  let* sb := get_sb in
  let* bp := bread dev (BBLOCK b sb) in
  let bi := b mod BPB in
  let* d := get_data bp in
  if Z.land (bit_byte d bi) (bit_mask bi) =? 0 then panic "freeing free block" else
  set_data bp (clear_mark bi) ;;
  log_write bp ;;
  brelse bp.

(** ** Inodes *)

Definition iinit : M unit :=
  initlock L_icache "icache" ;;
  for_all (seq 0 NINODE) (fun i => initsleeplock (L_inode i) "inode").

(** The scan of [iget]: the entry of the inode, or the first empty one. *)
Fixpoint iget_scan (l : list inode) (i : nat) (dev inum : Z) (empty : option nat) : nat + option nat :=
  match l with
  | [] => inr empty
  | ip :: l =>
      if (i_ref ip >? 0) && (i_dev ip =? dev) && (i_inum ip =? inum) then inl i
      else iget_scan l (S i) dev inum
             (if bool_decide (empty = None) && (i_ref ip =? 0) then Some i else empty)
  end.

Definition iget (dev inum : Z) : M nat :=
  acquire L_icache ;;
  let* l := gets inodes in
  match iget_scan l 0 dev inum None with
  | inl ip =>
      upd_inode ip (fun x => set_i_ref (i_ref x + 1) x) ;;
      release L_icache ;;
      ret ip
  | inr None => panic "iget: no inodes"
  | inr (Some ip) =>
      upd_inode ip (set_i_dev dev) ;;
      upd_inode ip (set_i_inum inum) ;;
      upd_inode ip (set_i_ref 1) ;;
      upd_inode ip (set_i_valid 0) ;;
      release L_icache ;;
      ret ip
  end.

Definition ialloc (dev type : Z) : M nat :=
  let* sb := get_sb in
  let* r := for_each (seqZ 1 (sb_ninodes sb - 1)) (fun inum =>
    let* bp := bread dev (IBLOCK inum sb) in
    let* d := get_data bp in
    let o := dinode_off inum in
    if dinode_type d o =? 0 then
      set_data bp (fun d => splice d (Z.to_nat o) (repeat 0 (Z.to_nat sizeof_dinode))) ;;
      set_data bp (fun d => putn 2 d o (u16 type)) ;;
      log_write bp ;;
      brelse bp ;;
      let* ip := iget dev inum in
      ret (Some ip)
    else
      brelse bp ;;
      ret None) in
  match r with
  | Some ip => ret ip
  | None => panic "ialloc: no inodes"
  end.

Definition iupdate (ip : nat) : M unit :=
  let* x := get_inode ip in
  let* sb := get_sb in
  let* bp := bread (i_dev x) (IBLOCK (i_inum x) sb) in
  let* x := get_inode ip in
  set_data bp (store_dinode x (dinode_off (i_inum x))) ;;
  log_write bp ;;
  brelse bp.

Definition idup (ip : nat) : M nat :=
  acquire L_icache ;;
  upd_inode ip (fun x => set_i_ref (i_ref x + 1) x) ;;
  release L_icache ;;
  ret ip.

Definition ilock (oip : option nat) : M unit :=
  match oip with
  | None => panic "ilock"
  | Some ip =>
      let* x := get_inode ip in
      if i_ref x <? 1 then panic "ilock" else
      acquiresleep (L_inode ip) ;;
      let* x := get_inode ip in
      when (i_valid x =? 0)
        (let* sb := get_sb in
         let* bp := bread (i_dev x) (IBLOCK (i_inum x) sb) in
         let* d := get_data bp in
         upd_inode ip (load_dinode d (dinode_off (i_inum x))) ;;
         brelse bp ;;
         upd_inode ip (set_i_valid 1) ;;
         let* x := get_inode ip in
         when (i_type x =? 0) (panic "ilock: no type"))
  end.

Definition iunlock (oip : option nat) : M unit :=
  match oip with
  | None => panic "iunlock"
  | Some ip =>
      let* h := holdingsleep (L_inode ip) in
      let* x := get_inode ip in
      if negb h || (i_ref x <? 1) then panic "iunlock" else
      releasesleep (L_inode ip)
  end.

(** ** Contents *)

Definition addr_at (ip : inode) (i : Z) : Z := nth (Z.to_nat i) (i_addrs ip) 0.
Definition put_addr (i a : Z) (ip : inode) : inode := set_i_addrs (<[Z.to_nat i := a]> (i_addrs ip)) ip.

Definition bmap (ip : nat) (bn : Z) : M Z :=
  let* x := get_inode ip in
  if bn <? NDIRECT then
    if addr_at x bn =? 0 then
      let* addr := balloc (i_dev x) in
      upd_inode ip (put_addr bn addr) ;;
      ret addr
    else ret (addr_at x bn)
  else
  let bn := bn - NDIRECT in
  if bn <? NINDIRECT then
    let* addr := (if addr_at x NDIRECT =? 0 then
                    let* addr := balloc (i_dev x) in
                    upd_inode ip (put_addr NDIRECT addr) ;;
                    ret addr
                  else ret (addr_at x NDIRECT)) in
    let* bp := bread (i_dev x) addr in
    let* d := get_data bp in
    let addr := getn 4 d (4 * bn) in
    if addr =? 0 then
      let* addr := balloc (i_dev x) in
      set_data bp (fun d => putn 4 d (4 * bn) addr) ;;
      log_write bp ;;
      brelse bp ;;
      ret addr
    else
      brelse bp ;;
      ret addr
  else panic "bmap: out of range".

Definition itrunc (ip : nat) : M unit :=
  for_all (seqZ 0 NDIRECT) (fun i =>
    let* x := get_inode ip in
    when (c_true (addr_at x i))
      (bfree (i_dev x) (addr_at x i) ;;
       upd_inode ip (put_addr i 0))) ;;
  let* x := get_inode ip in
  when (c_true (addr_at x NDIRECT))
    (let* bp := bread (i_dev x) (addr_at x NDIRECT) in
     for_all (seqZ 0 NINDIRECT) (fun j =>
       let* d := get_data bp in
       when (c_true (getn 4 d (4 * j))) (bfree (i_dev x) (getn 4 d (4 * j)))) ;;
     brelse bp ;;
     bfree (i_dev x) (addr_at x NDIRECT) ;;
     upd_inode ip (put_addr NDIRECT 0)) ;;
  upd_inode ip (set_i_size 0) ;;
  iupdate ip.

Definition iput (ip : nat) : M unit :=
  acquire L_icache ;;
  let* x := get_inode ip in
  when ((i_ref x =? 1) && c_true (i_valid x) && (i_nlink x =? 0))
    (acquiresleep (L_inode ip) ;;
     release L_icache ;;
     itrunc ip ;;
     upd_inode ip (set_i_type 0) ;;
     iupdate ip ;;
     upd_inode ip (set_i_valid 0) ;;
     releasesleep (L_inode ip) ;;
     acquire L_icache) ;;
  upd_inode ip (fun x => set_i_ref (i_ref x - 1) x) ;;
  release L_icache.

Definition iunlockput (ip : nat) : M unit :=
  iunlock (Some ip) ;;
  iput ip.

(** [struct stat] ([stat.h]). *)
Record stat := mk_stat {
  st_dev : Z;
  st_ino : Z;
  st_type : Z;
  st_nlink : Z;
  st_size : Z }.

Definition stati (ip : inode) : stat :=
  mk_stat (s32 (i_dev ip)) (i_inum ip) (i_type ip) (i_nlink ip) (i_size ip).

(** An iteration reads or writes up to the end of a block. *)
Definition io_fuel (n : Z) : nat := (Z.to_nat (n / BSIZE) + 3)%nat.

Fixpoint readi_loop (fuel : nat) (ip : nat) (dst : dest) (off n tot : Z) : M (Z * list Z) :=
  match fuel with
  | O => fun e k => Loop k
  | S fuel =>
      if tot <? n then
        let* addr := bmap ip (off / BSIZE) in
        let* x := get_inode ip in
        let* bp := bread (i_dev x) addr in
        let m := Z.min (n - tot) (BSIZE - off mod BSIZE) in
        let* d := get_data bp in
        let chunk := take (Z.to_nat m) (drop (Z.to_nat (off mod BSIZE)) d) in
        let* r := either_copyout dst chunk in
        let '(r, dst) := r in
        if r =? -1 then
          brelse bp ;;
          ret (-1, dest_bytes dst)
        else
          brelse bp ;;
          readi_loop fuel ip (dest_add dst m) (u32 (off + m)) n (tot + m)
      else ret (tot, dest_bytes dst)
  end.

(** The result, and the contents of the variable of the caller when the
    destination is one. *)
Definition readi (ip : nat) (dst : dest) (off n : Z) : M (Z * list Z) :=
  let* x := get_inode ip in
  if (off >? i_size x) || (u32 (off + n) <? off) then ret (0, dest_bytes dst) else
  let n := if u32 (off + n) >? i_size x then u32 (i_size x - off) else n in
  readi_loop (io_fuel n) ip dst off n 0.

(** The final [off], and whether every chunk could be copied in. *)
Fixpoint writei_loop (fuel : nat) (ip : nat) (src : source) (off n tot : Z) : M (Z * bool) :=
  match fuel with
  | O => fun e k => Loop k
  | S fuel =>
      if tot <? n then
        let* addr := bmap ip (off / BSIZE) in
        let* x := get_inode ip in
        let* bp := bread (i_dev x) addr in
        let m := Z.min (n - tot) (BSIZE - off mod BSIZE) in
        let* r := either_copyin src m in
        let '(r, bytes) := r in
        set_data bp (fun d => splice d (Z.to_nat (off mod BSIZE)) bytes) ;;
        if r =? -1 then
          brelse bp ;;
          ret (off, false)
        else
          log_write bp ;;
          brelse bp ;;
          writei_loop fuel ip (source_add src m) (u32 (off + m)) n (tot + m)
      else ret (off, true)
  end.

(** On failure [n] is [(uint)-1], which is greater than 0. *)
Definition writei (ip : nat) (src : source) (off n : Z) : M Z :=
  let* x := get_inode ip in
  if (off >? i_size x) || (u32 (off + n) <? off) then ret (-1) else
  if u32 (off + n) >? MAXFILE * BSIZE then ret (-1) else
  let* r := writei_loop (io_fuel n) ip src off n 0 in
  let '(off, ok) := r in
  let n := if ok : bool then n else u32 (-1) in
  when (n >? 0)
    (let* x := get_inode ip in
     when (off >? i_size x) (upd_inode ip (set_i_size off)) ;;
     iupdate ip) ;;
  ret (s32 n).

(** ** Directories *)

Definition namecmp (s t : list Z) : Z := strncmp s t (Z.to_nat DIRSIZ).

Definition dirent_inum (de : list Z) : Z := getn 2 de 0.
Definition dirent_name (de : list Z) : list Z := drop 2 de.

(** The inode of the entry and the offset of the entry ([*poff]). *)
Definition dirlookup (dp : nat) (name : list Z) : M (option (nat * Z)) :=
  let* x := get_inode dp in
  if negb (i_type x =? T_DIR) then panic "dirlookup not DIR" else
  loop (S (Z.to_nat (i_size x / sizeof_dirent + 1))) (fun off =>
    let* x := get_inode dp in
    if off <? i_size x then
      let* r := readi dp (To_var sizeof_dirent) off sizeof_dirent in
      let '(n, de) := r in
      if negb (n =? sizeof_dirent) then panic "dirlookup read" else
      if dirent_inum de =? 0 then ret (inl (u32 (off + sizeof_dirent))) else
      if namecmp name (dirent_name de) =? 0 then
        let* ip := iget (i_dev x) (dirent_inum de) in
        ret (inr (Some (ip, off)))
      else ret (inl (u32 (off + sizeof_dirent)))
    else ret (inr None)) 0.

Definition dirlink (dp : nat) (name : list Z) (inum : Z) : M Z :=
  let* r := dirlookup dp name in
  match r with
  | Some (ip, _) => iput ip ;; ret (-1)
  | None =>
      let* x := get_inode dp in
      let* off := loop (S (Z.to_nat (i_size x / sizeof_dirent + 1))) (fun off =>
        let* x := get_inode dp in
        if off <? i_size x then
          let* r := readi dp (To_var sizeof_dirent) off sizeof_dirent in
          let '(n, de) := r in
          if negb (n =? sizeof_dirent) then panic "dirlink read" else
          if dirent_inum de =? 0 then ret (inr off) else ret (inl (off + sizeof_dirent))
        else ret (inr off)) 0 in
      let de := le_bytes 2 (u16 inum) ++ strncpy_bytes name (Z.to_nat DIRSIZ) in
      let* n := writei dp (From_local de) (u32 off) sizeof_dirent in
      if negb (n =? sizeof_dirent) then panic "dirlink" else ret 0
  end.

(** ** Paths *)

Definition slash : Z := 47.

Fixpoint skip_slashes (path : list Z) : list Z :=
  match path with
  | c :: path' => if c =? slash then skip_slashes path' else path
  | [] => []
  end.
(** The bytes before the next slash or the end, and the rest. *)
Fixpoint path_elem (path : list Z) : list Z * list Z :=
  match path with
  | c :: path' =>
      if (c =? slash) || (c =? 0) then ([], path)
      else let '(s, rest) := path_elem path' in (c :: s, rest)
  | [] => ([], [])
  end.
Definition at_end (path : list Z) : bool :=
  match path with [] => true | c :: _ => c =? 0 end.

(** The rest of the path and the array [name], or null. *)
Definition skipelem (path name : list Z) : option (list Z * list Z) :=
  let path := skip_slashes path in
  if at_end path then None else
  let '(s, path) := path_elem path in
  let name := if Z.of_nat (length s) >=? DIRSIZ then splice name 0 (take (Z.to_nat DIRSIZ) s)
              else splice name 0 (s ++ [0]) in
  Some (skip_slashes path, name).

(** Each iteration consumes part of the path. *)
Definition namex (path : list Z) (nameiparent : bool) (name : list Z) : M (option nat * list Z) :=
  let* ip := (match path with
              | c :: _ => if c =? slash then iget ROOTDEV ROOTINO
                          else let* p := curproc in let* pr := get_proc p in
                               let* cwd := deref (p_cwd pr) in idup cwd
              | [] => let* p := curproc in let* pr := get_proc p in
                      let* cwd := deref (p_cwd pr) in idup cwd
              end) in
  let* r := loop (S (length path)) (fun '(path, name, ip) =>
    match skipelem path name with
    | None => ret (inr (inl (ip, name)))
    | Some (path, name) =>
        ilock (Some ip) ;;
        let* x := get_inode ip in
        if negb (i_type x =? T_DIR) then
          iunlockput ip ;;
          ret (inr (inr (None, name)))
        else if nameiparent && at_end path then
          iunlock (Some ip) ;;
          ret (inr (inr (Some ip, name)))
        else
          let* next := dirlookup ip name in
          match next with
          | None =>
              iunlockput ip ;;
              ret (inr (inr (None, name)))
          | Some (next, _) =>
              iunlockput ip ;;
              ret (inl (path, name, next))
          end
    end) (path, name, ip) in
  match r with
  | inr res => ret res
  | inl (ip, name) =>
      if nameiparent then iput ip ;; ret (None, name)
      else ret (Some ip, name)
  end.

(** The array [name] of [namei] is local. *)
Definition namei (path : list Z) : M (option nat) :=
  let* r := namex path false (repeat 0 (Z.to_nat DIRSIZ)) in
  ret r.1.

Definition nameiparent (path name : list Z) : M (option nat * list Z) := namex path true name.

End fs.
