(* ===== verification/Pipe.v ===== *)
(** * [kernel/pipe.c]: reading, writing and closing a pipe

    A pipe is named by the address of the page [pipealloc] took for it; its
    fields are in [fi_pipes].  [pipealloc] is in [File], with the file table
    it uses. *)

From S2P Require Import Prelude Defs State Logic Memory Spinlock Sched Kalloc Vm.

Definition PIPESIZE : Z := 512.

Definition get_pipe (pi : Z) : M pipe :=
  let* r := gets (fun k => fi_pipes (k_fi k) !! pi) in
  match r with Some x => ret x | None => undefined end.
Definition set_pipe (pi : Z) (x : pipe) (k : kernel) : kernel :=
  set_fi (set_pipes (<[pi := x]> (fi_pipes (k_fi k))) (k_fi k)) k.
Definition upd_pipe (pi : Z) (f : pipe -> pipe) : M unit :=
  let* x := get_pipe pi in
  modify (set_pipe pi (f x)).
Definition drop_pipe (pi : Z) : M unit :=
  modify (fun k => set_fi (set_pipes (delete pi (fi_pipes (k_fi k))) (k_fi k)) k).

(** [pi->data[pi->nwrite++ % PIPESIZE] = ch] *)
Definition pipe_put (ch : Z) (x : pipe) : pipe :=
  set_pi_nwrite (u32 (pi_nwrite x + 1))
    (set_pi_data (<[Z.to_nat (pi_nwrite x mod PIPESIZE) := ch]> (pi_data x)) x).
(** [ch = pi->data[pi->nread++ % PIPESIZE]] *)
Definition pipe_head (x : pipe) : Z := nth (Z.to_nat (pi_nread x mod PIPESIZE)) (pi_data x) 0.
Definition pipe_advance (x : pipe) : pipe := set_pi_nread (u32 (pi_nread x + 1)) x.

Definition pipe_full (x : pipe) : bool := pi_nwrite x =? u32 (pi_nread x + PIPESIZE).
Definition pipe_empty (x : pipe) : bool := pi_nread x =? pi_nwrite x.

Section pipe.
Context {L : Linker}.

Definition pipeclose (pi writable : Z) : M unit :=
  acquire (L_pipe pi) ;;
  (if c_true writable then
     upd_pipe pi (set_pi_writeopen 0) ;;
     wakeup (C_pipe_nread pi)
   else
     upd_pipe pi (set_pi_readopen 0) ;;
     wakeup (C_pipe_nwrite pi)) ;;
  let* x := get_pipe pi in
  if (pi_readopen x =? 0) && (pi_writeopen x =? 0) then
    release (L_pipe pi) ;;
    kfree pi ;;
    drop_pipe pi
  else release (L_pipe pi).

(** The [while] loop of [pipewrite]: whether there is room. *)
Definition pipe_wait_room (pi : Z) (pr : nat) : M bool :=
  wait_loop (fun _ =>
    let* x := get_pipe pi in
    if pipe_full x then
      let* p := get_proc pr in
      if (pi_readopen x =? 0) || c_true (p_killed p) then
        release (L_pipe pi) ;;
        ret (inr false)
      else
        wakeup (C_pipe_nread pi) ;;
        sleep (C_pipe_nwrite pi) (L_pipe pi) ;;
        ret (inl tt)
    else ret (inr true)) tt.

(** [None] is [return -1] out of the loop, [Some i] a [break]. *)
Definition pipewrite (pi addr n : Z) : M Z :=
  let* pr := curproc in
  acquire (L_pipe pi) ;;
  let* r := for_each (seqZ 0 n) (fun i =>
    let* room := pipe_wait_room pi pr in
    if negb room then ret (Some None) else
    let* p := get_proc pr in
    let* r := copyin (p_pagetable p) (u64 (addr + i)) 1 in
    let '(r, ch) := r in
    if r =? -1 then ret (Some (Some i)) else
    upd_pipe pi (pipe_put (hd 0 ch)) ;;
    ret None) in
  match r with
  | Some None => ret (-1)
  | _ =>
      wakeup (C_pipe_nread pi) ;;
      release (L_pipe pi) ;;
      ret (match r with Some (Some i) => i | _ => Z.max 0 n end)
  end.

(** The [while] loop of [piperead]: whether to go on. *)
Definition pipe_wait_data (pi : Z) (pr : nat) : M bool :=
  wait_loop (fun _ =>
    let* x := get_pipe pi in
    if pipe_empty x && c_true (pi_writeopen x) then
      let* p := get_proc pr in
      if c_true (p_killed p) then
        release (L_pipe pi) ;;
        ret (inr false)
      else
        sleep (C_pipe_nread pi) (L_pipe pi) ;;
        ret (inl tt)
    else ret (inr true)) tt.

Definition piperead (pi addr n : Z) : M Z :=
  let* pr := curproc in
  acquire (L_pipe pi) ;;
  let* go := pipe_wait_data pi pr in
  if negb go then ret (-1) else
  let* r := for_each (seqZ 0 n) (fun i =>
    let* x := get_pipe pi in
    if pipe_empty x then ret (Some i) else
    upd_pipe pi pipe_advance ;;
    let* p := get_proc pr in
    let* r := copyout (p_pagetable p) (u64 (addr + i)) [pipe_head x] in
    if r =? -1 then ret (Some i) else ret None) in
  wakeup (C_pipe_nwrite pi) ;;
  release (L_pipe pi) ;;
  ret (match r with Some i => i | None => Z.max 0 n end).

End pipe.
