(* ===== verification/File.v ===== *)
(** * [kernel/file.c], and [pipealloc] of [kernel/pipe.c]

    A [struct file *] is an index into [ftable.file]. *)

From S2P Require Import Prelude Defs State Logic Memory Spinlock Sched Sleeplock Kalloc Vm Copy Uart Printf Console Bio Log Fs Pipe.

Definition file_at (k : kernel) (f : nat) : file := default zero_file (fi_ftable (k_fi k) !! f).
Definition get_file (f : nat) : M file := gets (fun k => file_at k f).
Definition set_file (f : nat) (g : file -> file) (k : kernel) : kernel :=
  set_fi (set_ftable (alter g f (fi_ftable (k_fi k))) (k_fi k)) k.
Definition upd_file (f : nat) (g : file -> file) : M unit := modify (set_file f g).

Definition fileinit : M unit := initlock L_ftable "ftable".

Definition filealloc : M (option nat) :=
  acquire L_ftable ;;
  let* r := for_each (seq 0 NFILE) (fun i =>
    let* f := get_file i in
    if f_ref f =? 0 then
      upd_file i (set_f_ref 1) ;;
      release L_ftable ;;
      ret (Some i)
    else ret None) in
  match r with
  | Some i => ret (Some i)
  | None => release L_ftable ;; ret None
  end.

Definition filedup (f : nat) : M nat :=
  acquire L_ftable ;;
  let* x := get_file f in
  if f_ref x <? 1 then panic "filedup" else
  upd_file f (fun x => set_f_ref (f_ref x + 1) x) ;;
  release L_ftable ;;
  ret f.

Section file.
Context {D : DiskDriver} {L : Linker}.

Definition fileclose (f : nat) : M unit :=
  acquire L_ftable ;;
  let* x := get_file f in
  if f_ref x <? 1 then panic "fileclose" else
  upd_file f (fun x => set_f_ref (f_ref x - 1) x) ;;
  let* ff := get_file f in
  if f_ref ff >? 0 then release L_ftable else
  upd_file f (set_f_ref 0) ;;
  upd_file f (set_f_type FD_NONE) ;;
  release L_ftable ;;
  match f_type ff with
  | FD_PIPE => pipeclose (f_pipe ff) (f_writable ff)
  | FD_INODE | FD_DEVICE =>
      begin_op ;;
      let* ip := deref (f_ip ff) in
      iput ip ;;
      end_op
  | FD_NONE => ret tt
  end.

(** The bytes of [struct stat]: the four at offset 12 are padding, which the
    source leaves uninitialised. *)
Definition stat_bytes (st : stat) : list Z :=
  le_bytes 4 (u32 (st_dev st)) ++ le_bytes 4 (st_ino st) ++ le_bytes 2 (u16 (st_type st)) ++
  le_bytes 2 (u16 (st_nlink st)) ++ [0; 0; 0; 0] ++ le_bytes 8 (st_size st).

Definition filestat (f : nat) (addr : Z) : M Z :=
  let* p := curproc in
  let* x := get_file f in
  match f_type x with
  | FD_INODE | FD_DEVICE =>
      ilock (f_ip x) ;;
      let* i := deref (f_ip x) in
      let* ip := get_inode i in
      let st := stati ip in
      iunlock (f_ip x) ;;
      let* pr := get_proc p in
      let* r := copyout (p_pagetable pr) addr (stat_bytes st) in
      if r <? 0 then ret (-1) else ret 0
  | _ => ret (-1)
  end.

Definition get_devsw (major : Z) : M devsw :=
  gets (fun k => default (mk_devsw None None) (fi_devsw (k_fi k) !! Z.to_nat major)).
Definition dev_call (fn : devfn) (addr n : Z) : M Z :=
  match fn with
  | Consoleread => consoleread (To_user addr) n
  | Consolewrite => consolewrite (From_user addr) n
  end.

Definition fileread (f : nat) (addr n : Z) : M Z :=
  let* x := get_file f in
  if f_readable x =? 0 then ret (-1) else
  match f_type x with
  | FD_PIPE => piperead (f_pipe x) addr n
  | FD_DEVICE =>
      if (f_major x <? 0) || (f_major x >=? NDEV) then ret (-1) else
      let* d := get_devsw (f_major x) in
      match dv_read d with
      | None => ret (-1)
      | Some fn => dev_call fn addr n
      end
  | FD_INODE =>
      ilock (f_ip x) ;;
      let* ip := deref (f_ip x) in
      let* x := get_file f in
      let* r := readi ip (To_user addr) (f_off x) (u32 n) in
      let r := s32 r.1 in
      when (r >? 0) (upd_file f (fun x => set_f_off (u32 (f_off x + r)) x)) ;;
      iunlock (f_ip x) ;;
      ret r
  | FD_NONE => panic "fileread"
  end.

(** [((MAXOPBLOCKS-1-1-2) / 2) * BSIZE] *)
Definition filewrite_max : Z := (MAXOPBLOCKS - 1 - 1 - 2) / 2 * BSIZE.

(** The [while] loop; its result is the final [i]. *)
Definition filewrite_loop (f : nat) (addr n : Z) : M Z :=
  loop (S (S (Z.to_nat (n / filewrite_max)))) (fun i =>
    if i <? n then
      let n1 := if n - i >? filewrite_max then filewrite_max else n - i in
      begin_op ;;
      let* x := get_file f in
      ilock (f_ip x) ;;
      let* ip := deref (f_ip x) in
      let* x := get_file f in
      let* r := writei ip (From_user (u64 (addr + i))) (f_off x) n1 in
      when (r >? 0) (upd_file f (fun x => set_f_off (u32 (f_off x + r)) x)) ;;
      iunlock (f_ip x) ;;
      end_op ;;
      if r <? 0 then ret (inr i) else
      if negb (r =? n1) then panic "short filewrite" else
      ret (inl (i + r))
    else ret (inr i)) 0.

Definition filewrite (f : nat) (addr n : Z) : M Z :=
  let* x := get_file f in
  if f_writable x =? 0 then ret (-1) else
  match f_type x with
  | FD_PIPE => pipewrite (f_pipe x) addr n
  | FD_DEVICE =>
      if (f_major x <? 0) || (f_major x >=? NDEV) then ret (-1) else
      let* d := get_devsw (f_major x) in
      match dv_write d with
      | None => ret (-1)
      | Some fn => dev_call fn addr n
      end
  | FD_INODE =>
      let* i := filewrite_loop f addr n in
      ret (if i =? n then n else -1)
  | FD_NONE => panic "filewrite"
  end.

(** The page of a new pipe keeps what [kalloc] filled it with. *)
Definition new_pipe : pipe := mk_pipe (repeat 5 (Z.to_nat PIPESIZE)) 0 0 1 1.

(** The result, [*f0] and [*f1]. *)
Definition pipealloc : M (Z * option nat * option nat) :=
  let* f0 := filealloc in
  match f0 with
  | None => ret (-1, None, None)
  | Some a =>
      let* f1 := filealloc in
      match f1 with
      | None => fileclose a ;; ret (-1, f0, f1)
      | Some b =>
          let* pi := kalloc in
          if pi =? 0 then
            fileclose a ;;
            fileclose b ;;
            ret (-1, f0, f1)
          else
            modify (set_pipe pi new_pipe) ;;
            initlock (L_pipe pi) "pipe" ;;
            upd_file a (set_f_type FD_PIPE) ;;
            upd_file a (set_f_readable 1) ;;
            upd_file a (set_f_writable 0) ;;
            upd_file a (set_f_pipe pi) ;;
            upd_file b (set_f_type FD_PIPE) ;;
            upd_file b (set_f_readable 0) ;;
            upd_file b (set_f_writable 1) ;;
            upd_file b (set_f_pipe pi) ;;
            ret (0, f0, f1)
      end
  end.

End file.
