(* ===== verification/Csr.v ===== *)
(** * Control registers ([kernel/riscv.h]) and the PLIC ([kernel/plic.c]) *)

From S2P Require Import Prelude Defs State Logic Memory Spinlock Sched Kalloc Vm Uart.

Definition SSTATUS_SPP : Z := Z.shiftl 1 8.
Definition SSTATUS_SPIE : Z := Z.shiftl 1 5.
Definition SSTATUS_SIE : Z := Z.shiftl 1 1.

Definition get_hart : M csrs := gets (fun k => ms_hart (k_ms k)).
Definition upd_hart (f : csrs -> csrs) : M unit :=
  upd_ms (fun m => set_hart (f (ms_hart m)) m).

(** The SIE bit is [sy_sie]. *)
Definition r_sstatus : M Z :=
  let* h := get_hart in
  let* sie := intr_get in
  ret (if sie : bool then Z.lor (hr_sstatus h) SSTATUS_SIE else Z.ldiff (hr_sstatus h) SSTATUS_SIE).
Definition w_sstatus (x : Z) : M unit :=
  upd_hart (set_hr_sstatus (Z.ldiff x SSTATUS_SIE)) ;;
  upd_sy (set_sie (c_true (Z.land x SSTATUS_SIE))).

Definition r_sepc : M Z := let* h := get_hart in ret (hr_sepc h).
Definition w_sepc (x : Z) : M unit := upd_hart (set_hr_sepc x).
Definition r_scause : M Z := let* h := get_hart in ret (hr_scause h).
Definition r_stval : M Z := let* h := get_hart in ret (hr_stval h).
Definition w_stvec (x : Z) : M unit := upd_hart (set_hr_stvec x).
Definition r_satp : M Z := let* h := get_hart in ret (hr_satp h).
Definition w_satp (x : Z) : M unit := upd_hart (set_hr_satp x).
Definition r_sip : M Z := let* h := get_hart in ret (hr_sip h).
Definition w_sip (x : Z) : M unit := upd_hart (set_hr_sip x).

Definition SATP_SV39 : Z := Z.shiftl 8 60.
Definition MAKE_SATP (pagetable : Z) : Z := Z.lor SATP_SV39 (Z.shiftr pagetable 12).

(** [kvminithart] of [vm.c]. *)
Definition kvminithart : M unit :=
  let* kpt := gets (fun k => mm_kpt (k_mm k)) in
  w_satp (MAKE_SATP kpt).

(** ** PLIC *)

Definition PLIC_SENABLE (hart : Z) : Z := PLIC + 0x2080 + hart * 0x100.
Definition PLIC_SPRIORITY (hart : Z) : Z := PLIC + 0x201000 + hart * 0x2000.
Definition PLIC_SCLAIM (hart : Z) : Z := PLIC + 0x201004 + hart * 0x2000.

Definition plic_write (a v : Z) : M unit :=
  upd_ms (fun m => set_plic (set_pl_writes ((a, u32 v) :: pl_writes (ms_plic m)) (ms_plic m)) m).

Definition plicinit : M unit :=
  plic_write (PLIC + UART0_IRQ * 4) 1 ;;
  plic_write (PLIC + VIRTIO0_IRQ * 4) 1.

Definition plicinithart : M unit :=
  let* hart := cpuid in
  plic_write (PLIC_SENABLE hart) (Z.lor (Z.shiftl 1 UART0_IRQ) (Z.shiftl 1 VIRTIO0_IRQ)) ;;
  plic_write (PLIC_SPRIORITY hart) 0.

(** A read of the claim register, 0 when nothing is pending. *)
Definition plic_claim : M Z :=
  let* hart := cpuid in
  let* p := gets (fun k => ms_plic (k_ms k)) in
  upd_ms (fun m => set_plic (set_pl_claims (tail (pl_claims (ms_plic m))) (ms_plic m)) m) ;;
  ret (s32 (hd 0 (pl_claims p))).

Definition plic_complete (irq : Z) : M unit :=
  let* hart := cpuid in
  plic_write (PLIC_SCLAIM hart) irq.
