(* ===== verification/Proc.v ===== *)
(** * [kernel/proc.c]: creating, ending and waiting for processes

    The scheduling half of the file is in [Sched], the copying helpers in
    [Copy], [procdump] in [Console] and [forkret] in [Trap]. *)

From S2P Require Import Prelude Defs State Logic Memory Spinlock Sched Sleeplock Kalloc Vm Copy Uart Printf Console Bio Log Fs Pipe File Csr.

Section proc.
Context {D : DiskDriver} {L : Linker}.

Definition procinit : M unit :=
  initlock L_pid "nextpid" ;;
  for_all (seq 0 NPROC) (fun i =>
    initlock (L_proc i) "proc" ;;
    let* pa := kalloc in
    if pa =? 0 then panic "kalloc" else
    let va := KSTACK (Z.of_nat i) in
    kvmmap va pa PGSIZE (Z.lor PTE_R PTE_W) ;;
    upd_proc i (set_p_kstack va)) ;;
  kvminithart.

Definition allocpid : M Z :=
  acquire L_pid ;;
  let* pid := gets (fun k => ms_nextpid (k_ms k)) in
  upd_ms (set_nextpid (s32 (pid + 1))) ;;
  release L_pid ;;
  ret pid.

(** ** Page tables *)

Definition proc_freepagetable (pagetable sz : Z) : M unit :=
  uvmunmap pagetable TRAMPOLINE 1 false ;;
  uvmunmap pagetable TRAPFRAME 1 false ;;
  uvmfree pagetable sz.

Definition proc_pagetable (p : nat) : M Z :=
  let* pagetable := uvmcreate in
  if pagetable =? 0 then ret 0 else
  let* r := mappages pagetable TRAMPOLINE PGSIZE sym_trampoline (Z.lor PTE_R PTE_X) in
  if r <? 0 then uvmfree pagetable 0 ;; ret 0 else
  let* pr := get_proc p in
  let* r := mappages pagetable TRAPFRAME PGSIZE (p_trapframe pr) (Z.lor PTE_R PTE_W) in
  if r <? 0 then
    uvmunmap pagetable TRAMPOLINE 1 false ;;
    uvmfree pagetable 0 ;;
    ret 0
  else ret pagetable.

(** ** Process structures *)

Definition freeproc (p : nat) : M unit :=
  let* pr := get_proc p in
  when (c_true (p_trapframe pr)) (kfree (p_trapframe pr)) ;;
  upd_proc p (set_p_trapframe 0) ;;
  let* pr := get_proc p in
  when (c_true (p_pagetable pr)) (proc_freepagetable (p_pagetable pr) (p_sz pr)) ;;
  upd_proc p (set_p_pagetable 0) ;;
  upd_proc p (set_p_sz 0) ;;
  upd_proc p (set_p_pid 0) ;;
  upd_proc p (set_p_parent None) ;;
  upd_proc p (fun x => set_p_name (<[0%nat := 0]> (p_name x)) x) ;;
  upd_proc p (set_p_chan None) ;;
  upd_proc p (set_p_killed 0) ;;
  upd_proc p (set_p_xstate 0) ;;
  upd_proc p (set_p_state UNUSED).

Definition allocproc : M (option nat) :=
  let* r := for_each (seq 0 NPROC) (fun i =>
    acquire (L_proc i) ;;
    let* p := get_proc i in
    if bool_decide (p_state p = UNUSED) then ret (Some i)
    else release (L_proc i) ;; ret None) in
  match r with
  | None => ret None
  | Some p =>
      let* pid := allocpid in
      upd_proc p (set_p_pid pid) ;;
      let* tf := kalloc in
      upd_proc p (set_p_trapframe tf) ;;
      if tf =? 0 then release (L_proc p) ;; ret None else
      let* pagetable := proc_pagetable p in
      upd_proc p (set_p_pagetable pagetable) ;;
      if pagetable =? 0 then
        freeproc p ;;
        release (L_proc p) ;;
        ret None
      else
        upd_proc p (set_p_context zero_context) ;;
        upd_proc p (fun x => set_p_context (mk_context sym_forkret (ctx_sp (p_context x)) (ctx_s (p_context x))) x) ;;
        upd_proc p (fun x => set_p_context
          (mk_context (ctx_ra (p_context x)) (u64 (p_kstack x + PGSIZE)) (ctx_s (p_context x))) x) ;;
        ret (Some p)
  end.

(** A user program that calls [exec("/init")]. *)
Definition initcode : list Z := [
  0x17; 0x05; 0x00; 0x00; 0x13; 0x05; 0x45; 0x02;
  0x97; 0x05; 0x00; 0x00; 0x93; 0x85; 0x35; 0x02;
  0x93; 0x08; 0x70; 0x00; 0x73; 0x00; 0x00; 0x00;
  0x93; 0x08; 0x20; 0x00; 0x73; 0x00; 0x00; 0x00;
  0xef; 0xf0; 0x9f; 0xff; 0x2f; 0x69; 0x6e; 0x69;
  0x74; 0x00; 0x00; 0x24; 0x00; 0x00; 0x00; 0x00;
  0x00; 0x00; 0x00; 0x00].

Definition userinit : M unit :=
  let* op := allocproc in
  upd_ms (set_initproc op) ;;
  let* p := deref op in
  let* pr := get_proc p in
  uvminit (p_pagetable pr) initcode (Z.of_nat (length initcode)) ;;
  upd_proc p (set_p_sz PGSIZE) ;;
  tf_store p TF_epc 0 ;;
  tf_store p TF_sp PGSIZE ;;
  upd_proc p (fun x => set_p_name (safestrcpy (p_name x) (bytes_of "initcode") 16) x) ;;
  let* cwd := namei (bytes_of "/") in
  upd_proc p (set_p_cwd cwd) ;;
  upd_proc p (set_p_state RUNNABLE) ;;
  release (L_proc p).

(** [sz] is a [uint]. *)
Definition growproc (n : Z) : M Z :=
  let* p := curproc in
  let* pr := get_proc p in
  let sz := u32 (p_sz pr) in
  if n >? 0 then
    let* sz := uvmalloc (p_pagetable pr) sz (u32 (sz + n)) in
    if u32 sz =? 0 then ret (-1) else
    upd_proc p (set_p_sz (u32 sz)) ;;
    ret 0
  else
    let* sz := (if n <? 0 then uvmdealloc (p_pagetable pr) sz (u32 (sz + n)) else ret sz) in
    upd_proc p (set_p_sz (u32 sz)) ;;
    ret 0.

Definition fork : M Z :=
  let* p := curproc in
  let* r := allocproc in
  match r with
  | None => ret (-1)
  | Some np =>
      let* x := get_proc p in
      let* nx := get_proc np in
      let* r := uvmcopy (p_pagetable x) (p_pagetable nx) (p_sz x) in
      if r <? 0 then
        freeproc np ;;
        release (L_proc np) ;;
        ret (-1)
      else
        upd_proc np (set_p_sz (p_sz x)) ;;
        upd_proc np (set_p_parent (Some p)) ;;
        let* tf := load_bytes (p_trapframe x) (Z.to_nat sizeof_trapframe) in
        store_bytes (p_trapframe nx) tf ;;
        tf_store np TF_a0 0 ;;
        for_all (seq 0 NOFILE) (fun i =>
          let* x := get_proc p in
          match p_ofile x !! i with
          | Some (Some f) =>
              let* f := filedup f in
              upd_proc np (fun y => set_p_ofile (<[i := Some f]> (p_ofile y)) y)
          | _ => ret tt
          end) ;;
        let* x := get_proc p in
        let* cwd := deref (p_cwd x) in
        let* cwd := idup cwd in
        upd_proc np (set_p_cwd (Some cwd)) ;;
        upd_proc np (fun y => set_p_name (safestrcpy (p_name y) (p_name x) 16) y) ;;
        let* nx := get_proc np in
        let pid := p_pid nx in
        upd_proc np (set_p_state RUNNABLE) ;;
        release (L_proc np) ;;
        ret pid
  end.

Definition reparent (p : nat) : M unit :=
  for_all (seq 0 NPROC) (fun pp =>
    let* x := get_proc pp in
    when (bool_decide (p_parent x = Some p))
      (acquire (L_proc pp) ;;
       let* init := gets (fun k => ms_initproc (k_ms k)) in
       upd_proc pp (set_p_parent init) ;;
       release (L_proc pp))).

(** [exit] never returns: after [sched] it panics. *)
Definition exit {A} (status : Z) : M A :=
  let* p := curproc in
  let* init := gets (fun k => ms_initproc (k_ms k)) in
  if bool_decide (Some p = init) then panic "init exiting" else
  for_all (seq 0 NOFILE) (fun fd =>
    let* x := get_proc p in
    match p_ofile x !! fd with
    | Some (Some f) =>
        fileclose f ;;
        upd_proc p (fun x => set_p_ofile (<[fd := None]> (p_ofile x)) x)
    | _ => ret tt
    end) ;;
  begin_op ;;
  let* x := get_proc p in
  let* cwd := deref (p_cwd x) in
  iput cwd ;;
  end_op ;;
  upd_proc p (set_p_cwd None) ;;
  let* init := gets (fun k => ms_initproc (k_ms k)) in
  let* init := deref init in
  acquire (L_proc init) ;;
  wakeup1 init ;;
  release (L_proc init) ;;
  acquire (L_proc p) ;;
  let* x := get_proc p in
  let original_parent := p_parent x in
  release (L_proc p) ;;
  let* original_parent := deref original_parent in
  acquire (L_proc original_parent) ;;
  acquire (L_proc p) ;;
  reparent p ;;
  wakeup1 original_parent ;;
  upd_proc p (set_p_xstate status) ;;
  upd_proc p (set_p_state ZOMBIE) ;;
  release (L_proc original_parent) ;;
  sched ;;
  panic "zombie exit".

(** One scan of the table: a return value, or [havekids]. *)
Fixpoint wait_scan (l : list nat) (p : nat) (addr : Z) (havekids : bool) : M (Z + bool) :=
  match l with
  | [] => ret (inr havekids)
  | np :: l =>
      let* x := get_proc np in
      if bool_decide (p_parent x = Some p) then
        acquire (L_proc np) ;;
        let* x := get_proc np in
        if bool_decide (p_state x = ZOMBIE) then
          let pid := p_pid x in
          let* pr := get_proc p in
          let* r := (if negb (addr =? 0)
                     then copyout (p_pagetable pr) addr (le_bytes 4 (u32 (p_xstate x)))
                     else ret 0) in
          if r <? 0 then
            release (L_proc np) ;;
            release (L_proc p) ;;
            ret (inl (-1))
          else
            freeproc np ;;
            release (L_proc np) ;;
            release (L_proc p) ;;
            ret (inl pid)
        else
          release (L_proc np) ;;
          wait_scan l p addr true
      else wait_scan l p addr havekids
  end.

Definition wait (addr : Z) : M Z :=
  let* p := curproc in
  acquire (L_proc p) ;;
  wait_loop (fun _ =>
    let* r := wait_scan (seq 0 NPROC) p addr false in
    match r with
    | inl v => ret (inr v)
    | inr havekids =>
        let* pr := get_proc p in
        if negb havekids || c_true (p_killed pr) then
          release (L_proc p) ;;
          ret (inr (-1))
        else
          sleep (C_proc p) (L_proc p) ;;
          ret (inl tt)
    end) tt.

End proc.
