(* ===== verification/Exec.v ===== *)
(** * [kernel/exec.c] and [kernel/elf.h]

    [argv] is the list of the addresses of the argument pages; the strings
    are read from them.  [goto bad] is the left result of the parts of
    [exec], with the [sz] to free. *)

From S2P Require Import Prelude Defs State Logic Memory Spinlock Sched Sleeplock Kalloc Vm Copy Bio Log Fs Pipe File Csr Proc.

Definition ELF_MAGIC : Z := 0x464C457F.
Definition ELF_PROG_LOAD : Z := 1.

Record elfhdr := mk_elfhdr {
  elf_magic : Z;
  elf_elf : list Z;
  elf_type : Z;
  elf_machine : Z;
  elf_version : Z;
  elf_entry : Z;
  elf_phoff : Z;
  elf_shoff : Z;
  elf_flags : Z;
  elf_ehsize : Z;
  elf_phentsize : Z;
  elf_phnum : Z;
  elf_shentsize : Z;
  elf_shnum : Z;
  elf_shstrndx : Z }.
Definition sizeof_elfhdr : Z := 64.
Definition elfhdr_of (d : list Z) : elfhdr :=
  mk_elfhdr (getn 4 d 0) (take 12 (drop 4 d)) (getn 2 d 16) (getn 2 d 18) (getn 4 d 20)
    (getn 8 d 24) (getn 8 d 32) (getn 8 d 40) (getn 4 d 48) (getn 2 d 52) (getn 2 d 54)
    (getn 2 d 56) (getn 2 d 58) (getn 2 d 60) (getn 2 d 62).

Record proghdr := mk_proghdr {
  ph_type : Z;
  ph_flags : Z;
  ph_off : Z;
  ph_vaddr : Z;
  ph_paddr : Z;
  ph_filesz : Z;
  ph_memsz : Z;
  ph_align : Z }.
Definition sizeof_proghdr : Z := 56.
Definition proghdr_of (d : list Z) : proghdr :=
  mk_proghdr (getn 4 d 0) (getn 4 d 4) (getn 8 d 8) (getn 8 d 16) (getn 8 d 24) (getn 8 d 32)
    (getn 8 d 40) (getn 8 d 48).

(** The string at [a], of at most [n] bytes. *)
Fixpoint load_str (a : Z) (n : nat) : M (list Z) :=
  match n with
  | O => ret []
  | S n =>
      let* c := load8 a in
      if c =? 0 then ret [] else
      let* s := load_str (a + 1) n in
      ret (c :: s)
  end.

(** [for(last=s=path; *s; s++) if( *s == '/') last = s+1;] *)
Fixpoint last_elem (s last : list Z) : list Z :=
  match s with
  | [] => last
  | c :: s => if c =? 0 then last else last_elem s (if c =? slash then s else last)
  end.

Section exec.
Context {D : DiskDriver} {L : Linker}.

Definition loadseg (pagetable va : Z) (ip : nat) (offset sz : Z) : M Z :=
  if negb (va mod PGSIZE =? 0) then panic "loadseg: va must be page aligned" else
  loop (S (S (Z.to_nat (sz / PGSIZE)))) (fun i =>
    if i <? sz then
      let* pa := walkaddr pagetable (u64 (va + i)) in
      if pa =? 0 then panic "loadseg: address should exist" else
      let n := if sz - i <? PGSIZE then sz - i else PGSIZE in
      let* r := readi ip (To_phys pa) (u32 (offset + i)) n in
      if negb (u32 r.1 =? n) then ret (inr (-1)) else ret (inl (u32 (i + PGSIZE)))
    else ret (inr 0)) 0.

(** The loop over the program headers. *)
Fixpoint exec_segments (n : nat) (ip : nat) (pagetable sz off : Z) : M (Z + Z) :=
  match n with
  | O => ret (inr sz)
  | S n =>
      let* r := readi ip (To_var sizeof_proghdr) (u32 off) sizeof_proghdr in
      let '(r, d) := r in
      if negb (r =? sizeof_proghdr) then ret (inl sz) else
      let ph := proghdr_of d in
      if negb (ph_type ph =? ELF_PROG_LOAD) then exec_segments n ip pagetable sz (s32 (off + sizeof_proghdr)) else
      if ph_memsz ph <? ph_filesz ph then ret (inl sz) else
      if u64 (ph_vaddr ph + ph_memsz ph) <? ph_vaddr ph then ret (inl sz) else
      let* sz1 := uvmalloc pagetable sz (u64 (ph_vaddr ph + ph_memsz ph)) in
      if sz1 =? 0 then ret (inl sz) else
      let sz := sz1 in
      if negb (ph_vaddr ph mod PGSIZE =? 0) then ret (inl sz) else
      let* r := loadseg pagetable (ph_vaddr ph) ip (u32 (ph_off ph)) (u32 (ph_filesz ph)) in
      if r <? 0 then ret (inl sz) else
      exec_segments n ip pagetable sz (s32 (off + sizeof_proghdr))
  end.

(** The loop over the arguments: the stack pointer and [ustack]. *)
Fixpoint exec_args (argv : list Z) (pagetable sp stackbase argc : Z) (ustack : list Z)
    : M (option (Z * list Z)) :=
  match argv with
  | [] => ret (Some (sp, ustack))
  | arg :: argv =>
      if argc >=? MAXARG then ret None else
      let* s := load_str arg (Z.to_nat PGSIZE) in
      let sp := u64 (sp - (Z.of_nat (length s) + 1)) in
      let sp := sp - sp mod 16 in
      if sp <? stackbase then ret None else
      let* r := copyout pagetable sp (s ++ [0]) in
      if r <? 0 then ret None else
      exec_args argv pagetable sp stackbase (argc + 1) (ustack ++ [sp])
  end.

(** From the ELF header to [iunlockput]; the page table made so far is 0
    when there is none. *)
Definition exec_load (p : nat) (ip : nat) : M ((Z * Z) + (Z * Z * Z)) :=
  let* r := readi ip (To_var sizeof_elfhdr) 0 sizeof_elfhdr in
  let '(r, d) := r in
  if negb (r =? sizeof_elfhdr) then ret (inl (0, 0)) else
  let elf := elfhdr_of d in
  if negb (elf_magic elf =? ELF_MAGIC) then ret (inl (0, 0)) else
  let* pagetable := proc_pagetable p in
  if pagetable =? 0 then ret (inl (0, 0)) else
  let* r := exec_segments (Z.to_nat (elf_phnum elf)) ip pagetable 0 (s32 (elf_phoff elf)) in
  match r with
  | inl sz => ret (inl (pagetable, sz))
  | inr sz => ret (inr (pagetable, sz, elf_entry elf))
  end.

(** The stack of the new image: [sz], [sp] and [argc]. *)
Definition exec_stack (argv : list Z) (pagetable sz : Z) : M (Z + (Z * Z * Z)) :=
  let sz := PGROUNDUP sz in
  let* sz1 := uvmalloc pagetable sz (u64 (sz + 2 * PGSIZE)) in
  if sz1 =? 0 then ret (inl sz) else
  let sz := sz1 in
  uvmclear pagetable (u64 (sz - 2 * PGSIZE)) ;;
  let stackbase := u64 (sz - PGSIZE) in
  let* r := exec_args argv pagetable sz stackbase 0 [] in
  match r with
  | None => ret (inl sz)
  | Some (sp, ustack) =>
      let argc := Z.of_nat (length argv) in
      let sp := u64 (sp - (argc + 1) * 8) in
      let sp := sp - sp mod 16 in
      if sp <? stackbase then ret (inl sz) else
      let* r := copyout pagetable sp (concat (map (le_bytes 8) (ustack ++ [0]))) in
      if r <? 0 then ret (inl sz) else
      ret (inr (sz, sp, argc))
  end.

Definition exec (path : list Z) (argv : list Z) : M Z :=
  let* p := curproc in
  begin_op ;;
  let* oip := namei path in
  match oip with
  | None => end_op ;; ret (-1)
  | Some ip =>
      ilock (Some ip) ;;
      let* r := exec_load p ip in
      match r with
      | inl (pagetable, sz) =>
          when (c_true pagetable) (proc_freepagetable pagetable sz) ;;
          iunlockput ip ;;
          end_op ;;
          ret (-1)
      | inr (pagetable, sz, entry) =>
          iunlockput ip ;;
          end_op ;;
          let* p := curproc in
          let* pr := get_proc p in
          let oldsz := p_sz pr in
          let* r := exec_stack argv pagetable sz in
          match r with
          | inl sz =>
              proc_freepagetable pagetable sz ;;
              ret (-1)
          | inr (sz, sp, argc) =>
              tf_store p TF_a1 sp ;;
              upd_proc p (fun x => set_p_name (safestrcpy (p_name x) (last_elem path path) 16) x) ;;
              let* pr := get_proc p in
              let oldpagetable := p_pagetable pr in
              upd_proc p (set_p_pagetable pagetable) ;;
              upd_proc p (set_p_sz sz) ;;
              tf_store p TF_epc entry ;;
              tf_store p TF_sp sp ;;
              proc_freepagetable oldpagetable oldsz ;;
              ret argc
          end
      end
  end.

End exec.
