(* ===== verification/Sysproc.v ===== *)
(** * [kernel/sysproc.c], and the arguments of system calls of
      [kernel/syscall.c]

    An argument fetched through a pointer is a result of the function. *)

From S2P Require Import Prelude Defs State Logic Memory Spinlock Sched Sleeplock Kalloc Vm Copy Uart Bio Log Fs Pipe File Csr Proc.

Section args.
Context {L : Linker}.

(** The result and [*ip]. *)
Definition fetchaddr (addr : Z) : M (Z * Z) :=
  let* p := curproc in
  let* pr := get_proc p in
  if (addr >=? p_sz pr) || (u64 (addr + 8) >? p_sz pr) then ret (-1, 0) else
  let* r := copyin (p_pagetable pr) addr 8 in
  let '(r, d) := r in
  if negb (r =? 0) then ret (-1, 0) else
  ret (0, le_val d).

(** The result and the bytes stored in [buf]. *)
Definition fetchstr (addr max : Z) : M (Z * list Z) :=
  let* p := curproc in
  let* pr := get_proc p in
  let* r := copyinstr (p_pagetable pr) addr max in
  let '(err, buf) := r in
  if err <? 0 then ret (err, buf) else
  ret (Z.of_nat (strlen buf), buf).

Definition argraw (n : Z) : M Z :=
  let* p := curproc in
  match n with
  | 0 => tf_load p TF_a0
  | 1 => tf_load p TF_a1
  | 2 => tf_load p TF_a2
  | 3 => tf_load p TF_a3
  | 4 => tf_load p TF_a4
  | 5 => tf_load p TF_a5
  | _ => panic "argraw"
  end.

(** They always return 0; the result here is [*ip]. *)
Definition argint (n : Z) : M Z := let* x := argraw n in ret (s32 x).
Definition argaddr (n : Z) : M Z := argraw n.

Definition argstr (n max : Z) : M (Z * list Z) :=
  let* addr := argaddr n in
  fetchstr addr max.

End args.

Section sysproc.
Context {D : DiskDriver} {L : Linker}.

Definition sys_exit : M Z :=
  let* n := argint 0 in
  exit n.

Definition sys_getpid : M Z :=
  let* p := curproc in
  let* pr := get_proc p in
  ret (p_pid pr).

Definition sys_fork : M Z := fork.

Definition sys_wait : M Z :=
  let* p := argaddr 0 in
  wait p.

(** [addr] is an [int]. *)
Definition sys_sbrk : M Z :=
  let* n := argint 0 in
  let* p := curproc in
  let* pr := get_proc p in
  let addr := s32 (p_sz pr) in
  if n >? 0 then
    let* p := curproc in
    upd_proc p (fun x => set_p_sz (u64 (p_sz x + n)) x) ;;
    ret addr
  else
    let* r := growproc n in
    if r <? 0 then ret (-1) else ret addr.

(** The comparison is between [uint]s. *)
Definition sys_sleep : M Z :=
  let* n := argint 0 in
  acquire L_ticks ;;
  let* ticks0 := gets (fun k => ms_ticks (k_ms k)) in
  wait_loop (fun _ =>
    let* ticks := gets (fun k => ms_ticks (k_ms k)) in
    if u32 (ticks - ticks0) <? u32 n then
      let* p := curproc in
      let* pr := get_proc p in
      if c_true (p_killed pr) then
        release L_ticks ;;
        ret (inr (-1))
      else
        sleep C_ticks L_ticks ;;
        ret (inl tt)
    else
      release L_ticks ;;
      ret (inr 0)) tt.

Definition sys_kill : M Z :=
  let* pid := argint 0 in
  kill pid.

Definition sys_uptime : M Z :=
  acquire L_ticks ;;
  let* xticks := gets (fun k => ms_ticks (k_ms k)) in
  release L_ticks ;;
  ret xticks.

End sysproc.
