(* ===== verification/Sysfile.v ===== *)
(** * [kernel/sysfile.c]

    A [goto bad] is the call of the code at the label. *)

From S2P Require Import Prelude Defs State Logic Memory Spinlock Sched Sleeplock Kalloc Vm Copy Uart Bio Log Fs Pipe File Csr Proc Exec Sysproc.

(** A local [char name[DIRSIZ]]. *)
Definition local_name : list Z := repeat 0 (Z.to_nat DIRSIZ).

Section sysfile.
Context {D : DiskDriver} {L : Linker}.

Definition argfd (n : Z) : M (option (Z * nat)) :=
  let* fd := argint n in
  if (fd <? 0) || (fd >=? Z.of_nat NOFILE) then ret None else
  let* p := curproc in
  let* pr := get_proc p in
  match p_ofile pr !! Z.to_nat fd with
  | Some (Some f) => ret (Some (fd, f))
  | _ => ret None
  end.

Definition put_ofile (p : nat) (fd : Z) (f : option nat) : M unit :=
  upd_proc p (fun x => set_p_ofile (<[Z.to_nat fd := f]> (p_ofile x)) x).

Definition fdalloc (f : nat) : M Z :=
  let* p := curproc in
  let* r := for_each (seqZ 0 (Z.of_nat NOFILE)) (fun fd =>
    let* pr := get_proc p in
    match p_ofile pr !! Z.to_nat fd with
    | Some (Some _) => ret None
    | _ => put_ofile p fd (Some f) ;; ret (Some fd)
    end) in
  ret (default (-1) r).

Definition sys_dup : M Z :=
  let* r := argfd 0 in
  match r with
  | None => ret (-1)
  | Some (_, f) =>
      let* fd := fdalloc f in
      if fd <? 0 then ret (-1) else
      let* _ := filedup f in
      ret fd
  end.

Definition sys_read : M Z :=
  let* r := argfd 0 in
  match r with
  | None => ret (-1)
  | Some (_, f) =>
      let* n := argint 2 in
      let* p := argaddr 1 in
      fileread f p n
  end.

Definition sys_write : M Z :=
  let* r := argfd 0 in
  match r with
  | None => ret (-1)
  | Some (_, f) =>
      let* n := argint 2 in
      let* p := argaddr 1 in
      filewrite f p n
  end.

Definition sys_close : M Z :=
  let* r := argfd 0 in
  match r with
  | None => ret (-1)
  | Some (fd, f) =>
      let* p := curproc in
      put_ofile p fd None ;;
      fileclose f ;;
      ret 0
  end.

Definition sys_fstat : M Z :=
  let* r := argfd 0 in
  match r with
  | None => ret (-1)
  | Some (_, f) =>
      let* st := argaddr 1 in
      filestat f st
  end.

Definition link_bad (ip : nat) : M Z :=
  ilock (Some ip) ;;
  upd_inode ip (fun x => set_i_nlink (s16 (i_nlink x - 1)) x) ;;
  iupdate ip ;;
  iunlockput ip ;;
  end_op ;;
  ret (-1).

Definition sys_link : M Z :=
  let* r := argstr 0 MAXPATH in
  let '(n, old) := r in
  if n <? 0 then ret (-1) else
  let* r := argstr 1 MAXPATH in
  let '(n, new) := r in
  if n <? 0 then ret (-1) else
  begin_op ;;
  let* oip := namei old in
  match oip with
  | None => end_op ;; ret (-1)
  | Some ip =>
      ilock (Some ip) ;;
      let* x := get_inode ip in
      if i_type x =? T_DIR then
        iunlockput ip ;;
        end_op ;;
        ret (-1)
      else
        upd_inode ip (fun x => set_i_nlink (s16 (i_nlink x + 1)) x) ;;
        iupdate ip ;;
        iunlock (Some ip) ;;
        let* r := nameiparent new local_name in
        let '(odp, name) := r in
        match odp with
        | None => link_bad ip
        | Some dp =>
            ilock (Some dp) ;;
            let* d := get_inode dp in
            let* x := get_inode ip in
            let* r := (if negb (i_dev d =? i_dev x) then ret (-1) else dirlink dp name (i_inum x)) in
            if r <? 0 then
              iunlockput dp ;;
              link_bad ip
            else
              iunlockput dp ;;
              iput ip ;;
              end_op ;;
              ret 0
        end
  end.

Definition isdirempty (dp : nat) : M bool :=
  let* x := get_inode dp in
  loop (S (Z.to_nat (i_size x / sizeof_dirent + 1))) (fun off =>
    let* x := get_inode dp in
    if off <? i_size x then
      let* r := readi dp (To_var sizeof_dirent) off sizeof_dirent in
      let '(n, de) := r in
      if negb (n =? sizeof_dirent) then panic "isdirempty: readi" else
      if negb (dirent_inum de =? 0) then ret (inr false) else ret (inl (off + sizeof_dirent))
    else ret (inr true)) (2 * sizeof_dirent).

Definition unlink_bad (dp : nat) : M Z :=
  iunlockput dp ;;
  end_op ;;
  ret (-1).

Definition sys_unlink : M Z :=
  let* r := argstr 0 MAXPATH in
  let '(n, path) := r in
  if n <? 0 then ret (-1) else
  begin_op ;;
  let* r := nameiparent path local_name in
  let '(odp, name) := r in
  match odp with
  | None => end_op ;; ret (-1)
  | Some dp =>
      ilock (Some dp) ;;
      if (namecmp name (bytes_of ".") =? 0) || (namecmp name (bytes_of "..") =? 0) then unlink_bad dp else
      let* r := dirlookup dp name in
      match r with
      | None => unlink_bad dp
      | Some (ip, off) =>
          ilock (Some ip) ;;
          let* x := get_inode ip in
          if i_nlink x <? 1 then panic "unlink: nlink < 1" else
          let* busy := (if i_type x =? T_DIR then let* e := isdirempty ip in ret (negb e) else ret false) in
          if busy : bool then
            iunlockput ip ;;
            unlink_bad dp
          else
            let* n := writei dp (From_local (repeat 0 (Z.to_nat sizeof_dirent))) off sizeof_dirent in
            if negb (n =? sizeof_dirent) then panic "unlink: writei" else
            let* x := get_inode ip in
            when (i_type x =? T_DIR)
              (upd_inode dp (fun x => set_i_nlink (s16 (i_nlink x - 1)) x) ;;
               iupdate dp) ;;
            iunlockput dp ;;
            upd_inode ip (fun x => set_i_nlink (s16 (i_nlink x - 1)) x) ;;
            iupdate ip ;;
            iunlockput ip ;;
            end_op ;;
            ret 0
      end
  end.

(** The inode, locked. *)
Definition create (path : list Z) (type major minor : Z) : M (option nat) :=
  let* r := nameiparent path local_name in
  let '(odp, name) := r in
  match odp with
  | None => ret None
  | Some dp =>
      ilock (Some dp) ;;
      let* r := dirlookup dp name in
      match r with
      | Some (ip, _) =>
          iunlockput dp ;;
          ilock (Some ip) ;;
          let* x := get_inode ip in
          if (type =? T_FILE) && ((i_type x =? T_FILE) || (i_type x =? T_DEVICE)) then ret (Some ip) else
          iunlockput ip ;;
          ret None
      | None =>
          let* d := get_inode dp in
          let* ip := ialloc (i_dev d) type in
          ilock (Some ip) ;;
          upd_inode ip (set_i_major major) ;;
          upd_inode ip (set_i_minor minor) ;;
          upd_inode ip (set_i_nlink 1) ;;
          iupdate ip ;;
          when (type =? T_DIR)
            (upd_inode dp (fun x => set_i_nlink (s16 (i_nlink x + 1)) x) ;;
             iupdate dp ;;
             let* x := get_inode ip in
             let* r := dirlink ip (bytes_of ".") (i_inum x) in
             if r <? 0 then panic "create dots" else
             let* d := get_inode dp in
             let* r := dirlink ip (bytes_of "..") (i_inum d) in
             if r <? 0 then panic "create dots" else ret tt) ;;
          let* x := get_inode ip in
          let* r := dirlink dp name (i_inum x) in
          if r <? 0 then panic "create: dirlink" else
          iunlockput dp ;;
          ret (Some ip)
      end
  end.

(** The inode [sys_open] opens, locked. *)
Definition open_inode (path : list Z) (omode : Z) : M (option nat) :=
  if c_true (Z.land omode O_CREATE) then create path T_FILE 0 0 else
  let* oip := namei path in
  match oip with
  | None => ret None
  | Some ip =>
      ilock (Some ip) ;;
      let* x := get_inode ip in
      if (i_type x =? T_DIR) && negb (omode =? O_RDONLY) then
        iunlockput ip ;;
        ret None
      else ret (Some ip)
  end.

Definition open_bad (ip : nat) : M Z :=
  iunlockput ip ;;
  end_op ;;
  ret (-1).

Definition sys_open : M Z :=
  let* r := argstr 0 MAXPATH in
  let '(n, path) := r in
  if n <? 0 then ret (-1) else
  let* omode := argint 1 in
  begin_op ;;
  let* oip := open_inode path omode in
  match oip with
  | None => end_op ;; ret (-1)
  | Some ip =>
      let* x := get_inode ip in
      if (i_type x =? T_DEVICE) && ((i_major x <? 0) || (i_major x >=? NDEV)) then open_bad ip else
      let* r := filealloc in
      match r with
      | None => open_bad ip
      | Some f =>
          let* fd := fdalloc f in
          if fd <? 0 then
            fileclose f ;;
            open_bad ip
          else
            let* x := get_inode ip in
            (if i_type x =? T_DEVICE then
               upd_file f (set_f_type FD_DEVICE) ;;
               upd_file f (set_f_major (i_major x))
             else
               upd_file f (set_f_type FD_INODE) ;;
               upd_file f (set_f_off 0)) ;;
            upd_file f (set_f_ip (Some ip)) ;;
            upd_file f (set_f_readable (c_bool (negb (c_true (Z.land omode O_WRONLY))))) ;;
            upd_file f (set_f_writable
              (c_bool (c_true (Z.land omode O_WRONLY) || c_true (Z.land omode O_RDWR)))) ;;
            when (c_true (Z.land omode O_TRUNC) && (i_type x =? T_FILE)) (itrunc ip) ;;
            iunlock (Some ip) ;;
            end_op ;;
            ret fd
      end
  end.

Definition sys_mkdir : M Z :=
  begin_op ;;
  let* r := argstr 0 MAXPATH in
  let '(n, path) := r in
  let* oip := (if n <? 0 then ret None else create path T_DIR 0 0) in
  match oip with
  | None => end_op ;; ret (-1)
  | Some ip =>
      iunlockput ip ;;
      end_op ;;
      ret 0
  end.

(** [major] and [minor] are passed as [short]s. *)
Definition sys_mknod : M Z :=
  begin_op ;;
  let* r := argstr 0 MAXPATH in
  let '(n, path) := r in
  let* oip := (if n <? 0 then ret None else
               let* major := argint 1 in
               let* minor := argint 2 in
               create path T_DEVICE (s16 major) (s16 minor)) in
  match oip with
  | None => end_op ;; ret (-1)
  | Some ip =>
      iunlockput ip ;;
      end_op ;;
      ret 0
  end.

Definition sys_chdir : M Z :=
  let* p := curproc in
  begin_op ;;
  let* r := argstr 0 MAXPATH in
  let '(n, path) := r in
  let* oip := (if n <? 0 then ret None else namei path) in
  match oip with
  | None => end_op ;; ret (-1)
  | Some ip =>
      ilock (Some ip) ;;
      let* x := get_inode ip in
      if negb (i_type x =? T_DIR) then
        iunlockput ip ;;
        end_op ;;
        ret (-1)
      else
        iunlock (Some ip) ;;
        let* pr := get_proc p in
        let* cwd := deref (p_cwd pr) in
        iput cwd ;;
        end_op ;;
        upd_proc p (set_p_cwd (Some ip)) ;;
        ret 0
  end.

(** The loop that fetches the arguments: the pages taken, and whether it
    reached the null pointer. *)
Definition exec_fetch_args (uargv : Z) : M (list Z * bool) :=
  loop (S (Z.to_nat MAXARG)) (fun '(i, argv) =>
    if i >=? MAXARG then ret (inr (argv, false)) else
    let* r := fetchaddr (u64 (uargv + 8 * i)) in
    let '(r, uarg) := r in
    if r <? 0 then ret (inr (argv, false)) else
    if uarg =? 0 then ret (inr (argv, true)) else
    let* pa := kalloc in
    if pa =? 0 then ret (inr (argv, false)) else
    let argv := argv ++ [pa] in
    let* r := fetchstr uarg PGSIZE in
    let '(n, buf) := r in
    store_bytes pa buf ;;
    if n <? 0 then ret (inr (argv, false)) else
    ret (inl (i + 1, argv))) (0, []).

Definition sys_exec : M Z :=
  let* r := argstr 0 MAXPATH in
  let '(n, path) := r in
  if n <? 0 then ret (-1) else
  let* uargv := argaddr 1 in
  let* r := exec_fetch_args uargv in
  let '(argv, ok) := r in
  let* r := (if ok : bool then exec path argv else ret (-1)) in
  for_all argv kfree ;;
  ret r.

Definition sys_pipe : M Z :=
  let* p := curproc in
  let* fdarray := argaddr 0 in
  let* r := pipealloc in
  match r with
  | (r, Some rf, Some wf) =>
      if r <? 0 then ret (-1) else
      let* fd0 := fdalloc rf in
      let* fd1 := (if fd0 <? 0 then ret (-1) else fdalloc wf) in
      if (fd0 <? 0) || (fd1 <? 0) then
        when (fd0 >=? 0) (put_ofile p fd0 None) ;;
        fileclose rf ;;
        fileclose wf ;;
        ret (-1)
      else
        let* pr := get_proc p in
        let* r := copyout (p_pagetable pr) fdarray (le_bytes 4 fd0) in
        let* r := (if r <? 0 then ret r
                   else copyout (p_pagetable pr) (u64 (fdarray + 4)) (le_bytes 4 fd1)) in
        if r <? 0 then
          put_ofile p fd0 None ;;
          put_ofile p fd1 None ;;
          fileclose rf ;;
          fileclose wf ;;
          ret (-1)
        else ret 0
  | _ => ret (-1)
  end.

End sysfile.
