(* ===== verification/Trap.v ===== *)
(** * [kernel/syscall.c], [kernel/trap.c], [forkret] of [kernel/proc.c] and
      [kernel/main.c]

    The end of [usertrapret] is the jump to [userret] of trampoline.S: its
    result is the pair of arguments of that jump. *)

From S2P Require Import Prelude Defs State Logic Memory Spinlock Sched Sleeplock Kalloc Vm Copy Uart Printf Console Bio Virtio Log Fs Pipe File Csr Proc Exec Sysproc Sysfile.

Section trap.
Context {D : DiskDriver} {L : Linker}.

(** ** System calls *)

Definition syscalls (num : Z) : option (M Z) :=
  match num with
  | 1 => Some sys_fork | 2 => Some sys_exit | 3 => Some sys_wait | 4 => Some sys_pipe
  | 5 => Some sys_read | 6 => Some sys_kill | 7 => Some sys_exec | 8 => Some sys_fstat
  | 9 => Some sys_chdir | 10 => Some sys_dup | 11 => Some sys_getpid | 12 => Some sys_sbrk
  | 13 => Some sys_sleep | 14 => Some sys_uptime | 15 => Some sys_open | 16 => Some sys_write
  | 17 => Some sys_mknod | 18 => Some sys_unlink | 19 => Some sys_link | 20 => Some sys_mkdir
  | 21 => Some sys_close
  | _ => None
  end.

Definition syscall : M unit :=
  let* p := curproc in
  let* a7 := tf_load p TF_a7 in
  let num := s32 a7 in
  match syscalls num with
  | Some f =>
      let* r := f in
      tf_store p TF_a0 (u64 r)
  | None =>
      let* pr := get_proc p in
      printf (line "%d %s: unknown sys call %d")
        [A_int (p_pid pr); A_str (Some (p_name pr)); A_int num] ;;
      tf_store p TF_a0 (u64 (-1))
  end.

(** ** Traps *)

Definition trapinit : M unit := initlock L_ticks "time".
Definition trapinithart : M unit := w_stvec sym_kernelvec.

Definition clockintr : M unit :=
  acquire L_ticks ;;
  upd_ms (fun m => set_ticks (u32 (ms_ticks m + 1)) m) ;;
  wakeup C_ticks ;;
  release L_ticks.

Definition devintr : M Z :=
  let* scause := r_scause in
  if c_true (Z.land scause 0x8000000000000000) && (Z.land scause 0xff =? 9) then
    let* irq := plic_claim in
    (if irq =? UART0_IRQ then uartintr
     else if irq =? VIRTIO0_IRQ then virtio_disk_intr
     else when (c_true irq) (printf (line "unexpected interrupt irq=%d") [A_int irq])) ;;
    when (c_true irq) (plic_complete irq) ;;
    ret 1
  else if scause =? 0x8000000000000001 then
    let* id := cpuid in
    when (id =? 0) clockintr ;;
    let* sip := r_sip in
    w_sip (Z.ldiff sip 2) ;;
    ret 2
  else ret 0.

Definition usertrapret : M (Z * Z) :=
  let* p := curproc in
  intr_off ;;
  w_stvec (u64 (TRAMPOLINE + (sym_uservec - sym_trampoline))) ;;
  let* satp := r_satp in
  tf_store p TF_kernel_satp satp ;;
  let* pr := get_proc p in
  tf_store p TF_kernel_sp (u64 (p_kstack pr + PGSIZE)) ;;
  tf_store p TF_kernel_trap sym_usertrap ;;
  let* hart := cpuid in
  tf_store p TF_kernel_hartid hart ;;
  let* x := r_sstatus in
  let x := Z.ldiff x SSTATUS_SPP in
  let x := Z.lor x SSTATUS_SPIE in
  w_sstatus x ;;
  let* epc := tf_load p TF_epc in
  w_sepc epc ;;
  let* pr := get_proc p in
  ret (TRAPFRAME, MAKE_SATP (p_pagetable pr)).

(** The page-fault branch of [usertrap]: lazy allocation. *)
Definition lazy_fault (p : nat) : M unit :=
  let* va := r_stval in
  let* sp := tf_load p TF_sp in
  let* pr := get_proc p in
  if (va >=? p_sz pr) || (va <? PGROUNDDOWN sp) then upd_proc p (set_p_killed 1) else
  let* pa := kalloc in
  if pa =? 0 then upd_proc p (set_p_killed 1) else
  let* _ := memset pa 0 PGSIZE in
  let va := PGROUNDDOWN va in
  let* pr := get_proc p in
  let* r := mappages (p_pagetable pr) va PGSIZE pa (Z.lor (Z.lor PTE_W PTE_R) PTE_U) in
  when (negb (r =? 0))
    (kfree pa ;;
     upd_proc p (set_p_killed 1)).

(** The branches on [scause]: the result is [which_dev]. *)
Definition usertrap_cause (p : nat) : M Z :=
  let* scause := r_scause in
  if scause =? 8 then
    let* pr := get_proc p in
    if c_true (p_killed pr) then exit (-1) else
    let* epc := tf_load p TF_epc in
    tf_store p TF_epc (u64 (epc + 4)) ;;
    intr_on ;;
    syscall ;;
    ret 0
  else
    let* which_dev := devintr in
    if negb (which_dev =? 0) then ret which_dev else
    let* scause := r_scause in
    if (scause =? 13) || (scause =? 15) then lazy_fault p ;; ret 0 else
    let* pr := get_proc p in
    printf (line "usertrap(): unexpected scause %p pid=%d") [A_uint64 scause; A_int (p_pid pr)] ;;
    let* sepc := r_sepc in
    let* stval := r_stval in
    printf (line "            sepc=%p stval=%p") [A_uint64 sepc; A_uint64 stval] ;;
    upd_proc p (set_p_killed 1) ;;
    ret 0.

Definition usertrap : M (Z * Z) :=
  let* sstatus := r_sstatus in
  if c_true (Z.land sstatus SSTATUS_SPP) then panic "usertrap: not from user mode" else
  w_stvec sym_kernelvec ;;
  let* p := curproc in
  let* sepc := r_sepc in
  tf_store p TF_epc sepc ;;
  let* which_dev := usertrap_cause p in
  let* pr := get_proc p in
  if c_true (p_killed pr) then exit (-1) else
  when (which_dev =? 2) yield ;;
  usertrapret.

Definition kerneltrap : M unit :=
  let* sepc := r_sepc in
  let* sstatus := r_sstatus in
  let* scause := r_scause in
  if Z.land sstatus SSTATUS_SPP =? 0 then panic "kerneltrap: not from supervisor mode" else
  let* on := intr_get in
  if on : bool then panic "kerneltrap: interrupts enabled" else
  let* which_dev := devintr in
  if which_dev =? 0 then
    printf (line "scause %p") [A_uint64 scause] ;;
    let* sepc := r_sepc in
    let* stval := r_stval in
    printf (line "sepc=%p stval=%p") [A_uint64 sepc; A_uint64 stval] ;;
    panic "kerneltrap"
  else
    let* resched := (if which_dev =? 2 then
                       let* p := myproc in
                       match p with
                       | None => ret false
                       | Some _ =>
                           let* p := curproc in
                           let* pr := get_proc p in
                           ret (bool_decide (p_state pr = RUNNING))
                       end
                     else ret false) in
    when resched yield ;;
    w_sepc sepc ;;
    w_sstatus sstatus.

Definition forkret : M (Z * Z) :=
  let* p := curproc in
  release (L_proc p) ;;
  let* first := gets (fun k => ms_first (k_ms k)) in
  when (c_true first)
    (upd_ms (set_first 0) ;;
     fsinit ROOTDEV) ;;
  usertrapret.

(** ** [main.c]

    [pages] is the address of the static area [virtio_disk_init] takes its
    rings from.  The [while] loop of the other harts waits for hart 0, a turn
    of the environment per iteration. *)

Definition spin_turn : M unit := fun e k =>
  match e with
  | [] => Spin k
  | f :: e => Ret tt e (f k)
  end.

Definition main (pages : Z) (passes : nat) : M unit :=
  let* id := cpuid in
  (if id =? 0 then
     consoleinit ;;
     printfinit ;;
     printf (line "") [] ;;
     printf (line "xv6 kernel is booting") [] ;;
     printf (line "") [] ;;
     kinit ;;
     kvminit ;;
     kvminithart ;;
     procinit ;;
     trapinit ;;
     trapinithart ;;
     plicinit ;;
     plicinithart ;;
     binit ;;
     iinit ;;
     fileinit ;;
     virtio_disk_init pages ;;
     userinit ;;
     upd_ms (set_started 1)
   else
     wait_loop (fun _ =>
       let* started := gets (fun k => ms_started (k_ms k)) in
       if started =? 0 then spin_turn ;; ret (inl tt) else ret (inr tt)) tt ;;
     let* id := cpuid in
     printf (line "hart %d starting") [A_int id] ;;
     kvminithart ;;
     trapinithart ;;
     plicinithart) ;;
  scheduler passes.

End trap.
