(* ===== verification/PipeSpec.v ===== *)
(** * Pipes are bounded queues of bytes

    The ring [data] with the free-running counters [nread] and [nwrite] holds
    a queue.  Writing appends the bytes of the user's buffer, reading takes
    them from the front; a reader that finds the pipe empty sleeps until a
    writer has been there. *)

From S2P Require Import Prelude Defs State Logic Memory Spinlock Sched Sleeplock Kalloc Vm PageTable UserMem Pipe.

(** ** The queue *)

Definition pipe_len (x : pipe) : Z := u32 (pi_nwrite x - pi_nread x).
Definition slot (x : pipe) (i : Z) : Z :=
  nth (Z.to_nat (u32 (pi_nread x + i) mod PIPESIZE)) (pi_data x) 0.
Definition queue (x : pipe) : list Z := map (slot x) (seqZ 0 (pipe_len x)).

(** The counters are [uint]s that run through [2^32]. *)
Record pipe_ok (x : pipe) : Prop := {
  pk_data : length (pi_data x) = Z.to_nat PIPESIZE;
  pk_r : 0 <= pi_nread x < 2 ^ 32;
  pk_w : 0 <= pi_nwrite x < 2 ^ 32;
  pk_len : pipe_len x <= PIPESIZE }.

Lemma pipe_len_range x : 0 <= pipe_len x < 2 ^ 32.
Proof. apply u32_range. Qed.

Lemma queue_length x : Z.of_nat (length (queue x)) = pipe_len x.
Proof. unfold queue. rewrite length_map, length_seqZ. pose proof (pipe_len_range x). lia. Qed.

(** [PIPESIZE] divides [2^32]: the slot of a counter survives the wrap. *)
Lemma u32_slot a : u32 a mod PIPESIZE = a mod PIPESIZE.
Proof.
  unfold u32, PIPESIZE. rewrite Z.mod_mod_divide; [done|]. by exists (2 ^ 23).
Qed.

Ltac words := unfold pipe_len, PIPESIZE in *; unfold u32 in *; Z.to_euclidean_division_equations; lia.

Lemma pipe_empty_queue x : pipe_ok x -> pipe_empty x = bool_decide (queue x = []).
Proof.
  intros [H1 H2 H3 H4]. unfold pipe_empty. pose proof (queue_length x) as Hl.
  destruct (Z.eqb_spec (pi_nread x) (pi_nwrite x)) as [E|E]; symmetry.
  - apply bool_decide_eq_true. destruct (queue x); [done|]. cbn in Hl. words.
  - apply bool_decide_eq_false. intros Hq. rewrite Hq in Hl. cbn in Hl. words.
Qed.

Lemma pipe_full_queue x : pipe_ok x -> pipe_full x = (pipe_len x =? PIPESIZE).
Proof.
  intros [H1 H2 H3 H4]. unfold pipe_full. apply eq_true_iff_eq. rewrite !Z.eqb_eq. words.
Qed.

Lemma pipe_put_queue x c :
  pipe_ok x -> pipe_len x < PIPESIZE ->
  pipe_ok (pipe_put c x) /\ queue (pipe_put c x) = queue x ++ [c].
Proof.
  intros [H1 H2 H3 H4] Hl.
  assert (El : pipe_len (pipe_put c x) = pipe_len x + 1) by (unfold pipe_put; unfold pipe_len in *; kproj; words).
  split.
  - split; unfold pipe_put; kproj; [by rewrite length_insert|done|apply u32_range|]. fold (pipe_put c x). lia.
  - unfold queue. pose proof (pipe_len_range x). rewrite El, map_seqZ_app by lia. f_equal.
    + apply map_ext_in. intros i Hi. apply list_elem_of_In, elem_of_seqZ in Hi.
      unfold slot, pipe_put. kproj. rewrite !u32_slot, !nth_lookup, list_lookup_insert_ne; [done|].
      intros E. apply Z2Nat.inj in E; words.
    + rewrite seqZ_cons by lia. change (seqZ (Z.succ (0 + pipe_len x)) (Z.pred 1)) with (@nil Z). cbn [map].
      f_equal. unfold slot, pipe_put. kproj. rewrite u32_slot, nth_lookup.
      replace ((pi_nread x + (0 + pipe_len x)) mod PIPESIZE) with (pi_nwrite x mod PIPESIZE) by words.
      rewrite list_lookup_insert_eq by (rewrite H1; unfold PIPESIZE; Z.to_euclidean_division_equations; lia). done.
Qed.

Lemma pipe_advance_queue x :
  pipe_ok x -> queue x <> [] ->
  pipe_ok (pipe_advance x) /\ queue x = pipe_head x :: queue (pipe_advance x).
Proof.
  intros [H1 H2 H3 H4] Hne. pose proof (queue_length x) as Hl.
  assert (0 < pipe_len x) by (destruct (queue x); [done|]; cbn in Hl; lia).
  assert (El : pipe_len (pipe_advance x) = pipe_len x - 1) by (unfold pipe_advance; unfold pipe_len in *; kproj; words).
  split.
  - split; unfold pipe_advance; kproj; [done|apply u32_range|done|]. fold (pipe_advance x). lia.
  - unfold queue. rewrite El. replace (pipe_len x) with (1 + (pipe_len x - 1)) at 1 by lia.
    rewrite map_seqZ_app by lia. change (map (slot x) (seqZ 0 1)) with [slot x 0]. cbn [app].
    f_equal.
    + unfold slot, pipe_head. by rewrite u32_slot, Z.add_0_r.
    + apply map_seqZ_shift. intros i Hi. unfold slot, pipe_advance. kproj. rewrite !u32_slot.
      f_equal. f_equal. words.
Qed.

Section pipes.
Context {L : Linker} {LO : LinkerOk L}.

(** ** A process at work on a pipe *)

(** Process [p] runs, with user memory [T], and the pipe is [x]. *)
Record at_pipe (k : kernel) (pi : Z) (x : pipe) (p : nat) (T : gmap (list Z) Z) (root : Z)
    (l : list Z) : Prop := {
  ap_sync : sync_ok (k_sy k);
  ap_procs : procs_free (k_sy k);
  ap_lock : lock_free (k_sy k) (L_pipe pi);
  ap_proc : c_proc (sy_cpu (k_sy k)) = Some p;
  ap_root : p_pagetable (proc_at k p) = root;
  ap_pipe : fi_pipes (k_fi k) !! pi = Some x;
  ap_ok : pipe_ok x;
  ap_space : space_ok k T root l }.

Lemma user_range_byte m T va n i : user_range m T va n -> 0 <= i < n -> user_range m T (va + i) 1.
Proof. intros (H1 & H2 & H3) Hi. split_and!; [lia|lia|]. intros a Ha. apply H3. lia. Qed.

Lemma get_pipe_rule {tn} pi x (Q : pipe -> kernel -> Prop) k :
  fi_pipes (k_fi k) !! pi = Some x -> Q x k -> wp tn (get_pipe pi) Q k.
Proof. intros H HQ. unfold get_pipe. apply wp_bind, wp_gets. rewrite H. by apply wp_ret. Qed.

Lemma upd_pipe_rule {tn} pi x f (Q : unit -> kernel -> Prop) k :
  fi_pipes (k_fi k) !! pi = Some x -> Q tt (set_pipe pi (f x) k) -> wp tn (upd_pipe pi f) Q k.
Proof.
  intros H HQ. unfold upd_pipe. apply wp_bind, (get_pipe_rule pi x); [done|]. by apply wp_modify.
Qed.

Lemma set_pipe_lookup pi x k : fi_pipes (k_fi (set_pipe pi x k)) !! pi = Some x.
Proof. unfold set_pipe. kproj. apply lookup_insert_eq. Qed.

Lemma set_pipe_twice pi x y k : set_pipe pi y (set_pipe pi x k) = set_pipe pi y k.
Proof. unfold set_pipe. kproj. by rewrite insert_insert_eq. Qed.

Lemma set_pipe_id pi x k : fi_pipes (k_fi k) !! pi = Some x -> set_pipe pi x k = k.
Proof. intros H. unfold set_pipe. by rewrite insert_id. Qed.

Lemma copyin_byte_rule {tn} T root l a (Q : Z * list Z -> kernel -> Prop) k :
  space_ok k T root l -> user_range (ram k) T a 1 -> Q (0, [ubyte (ram k) T a]) k ->
  wp tn (copyin root a 1) Q k.
Proof.
  intros Hsp Hur HQ. unfold copyin. change (Z.to_nat 1 / 4096 + 3)%nat with 3%nat.
  apply (copyin_loop_rule T root l); [done|lia|done| |by cbn].
  destruct (pg_spec a (proj1 Hur)) as (_ & H1 & H2). unfold PGSIZE in *. lia.
Qed.

Lemma copyout_byte_rule {tn} T root l a c (Q : Z -> kernel -> Prop) k :
  space_ok k T root l -> user_range (ram k) T a 1 ->
  (forall m', written (ram k) T l a [c] m' -> Q 0 (with_ram m' k)) ->
  wp tn (copyout root a [c]) Q k.
Proof.
  intros Hsp Hur HQ. unfold copyout. change (length [c] / 4096 + 3)%nat with 3%nat.
  apply (copyout_loop_rule T root l); [done|done| |done].
  destruct (pg_spec a (proj1 Hur)) as (_ & H1 & H2). unfold PGSIZE in *. cbn. lia.
Qed.

(** The end of both operations: wake up the other side, release the lock. *)
Lemma pipe_finish_rule {tn A} pi c (a : A) s0 (Q : A -> kernel -> Prop) k :
  sync_ok s0 -> procs_free s0 -> lock_free s0 (L_pipe pi) ->
  quiet (sy_acquire (L_pipe pi) s0) (k_sy k) -> sy_procs (k_sy k) = sy_procs s0 ->
  (forall s', quiet s0 s' -> sy_procs s' = map (wake c) (sy_procs s0) -> Q a (set_sy s' k)) ->
  wp tn (wakeup c ;; release (L_pipe pi) ;; ret a) Q k.
Proof.
  intros Hok Hpf Hl Hq Hp HQ.
  apply wp_bind, wp_wakeup; [eauto with kern|eauto with kern|].
  intros s1 Hq1 Hp1. apply wp_bind, (wp_release _ s0); [done|done|etransitivity; [exact Hq|exact Hq1]|].
  intros s2 Hq2 Hp2. apply wp_ret. apply (HQ s2); [done|]. unfold procs in *. kproj in *. congruence.
Qed.

(** ** Writing *)

Section write.
Context (k : kernel) (pi : Z) (x : pipe) (p : nat) (T : gmap (list Z) Z) (root : Z) (l : list Z).
Context (addr n : Z).
Hypothesis Hat : at_pipe k pi x p T root l.
Hypothesis Hn : 0 <= n.
Hypothesis Hroom : pipe_len x + n <= PIPESIZE.
Hypothesis Hur : user_range (ram k) T addr n.

(** After [i] bytes. *)
Definition write_inv (s1 : sync) (dn : list Z) (k1 : kernel) : Prop :=
  exists x', k1 = set_pipe pi x' (set_sy s1 k) /\ pipe_ok x' /\
    queue x' = queue x ++ map (ubyte (ram k) T) (seqZ addr (Z.of_nat (length dn))) /\
    pi_readopen x' = pi_readopen x /\ pi_writeopen x' = pi_writeopen x.

Lemma write_step s1 dn i rest k1 :
  seqZ 0 n = dn ++ i :: rest -> sy_procs s1 = sy_procs (k_sy k) -> write_inv s1 dn k1 ->
  wp no_turn
    (let* room := pipe_wait_room pi p in
     if negb room then ret (Some None) else
     let* pr := get_proc p in
     let* r := copyin (p_pagetable pr) (u64 (addr + i)) 1 in
     let '(r, ch) := r in
     if r =? -1 then ret (Some (Some i)) else
     upd_pipe pi (pipe_put (hd 0 ch)) ;; ret None)
    (fun (r : option (option Z)) k2 => r = None /\ write_inv s1 (dn ++ [i]) k2) k1.
Proof.
  intros Es Hs1 (x' & -> & Hok & Hq & Hr & Hw). apply seqZ_split in Es as [-> Hi].
  assert (Hlen : pipe_len x' < PIPESIZE).
  { rewrite <- queue_length, Hq, length_app, length_map, length_seqZ. pose proof (queue_length x). lia. }
  set (k1 := set_pipe pi x' (set_sy s1 k)).
  assert (Hlk : fi_pipes (k_fi k1) !! pi = Some x') by apply set_pipe_lookup.
  apply wp_bind, wp_wait_loop. apply wp_bind, (get_pipe_rule pi x'); [done|].
  rewrite pipe_full_queue by done. rewrite (proj2 (Z.eqb_neq _ _)) by lia. apply wp_ret. cbn [negb].
  apply wp_bind, wp_gets.
  replace (p_pagetable (proc_at k1 p)) with root.
  2:{ rewrite <- (ap_root _ _ _ _ _ _ _ Hat). unfold proc_at, procs, k1, set_pipe. kproj. by rewrite Hs1. }
  pose proof (user_range_byte _ _ _ _ (Z.of_nat (length dn)) Hur ltac:(lia)) as Hub.
  rewrite u64_id by (destruct Hub as (U1 & U2 & _); pose proof MAXVA_val; lia).
  apply wp_bind, (copyin_byte_rule T root l).
  { eapply space_ok_mm; [|apply Hat]. done. }
  { exact Hub. }
  cbn [hd]. change (0 =? -1) with false. apply wp_bind, (upd_pipe_rule pi x'); [done|]. apply wp_ret.
  split; [done|]. exists (pipe_put (ubyte (ram k) T (addr + Z.of_nat (length dn))) x').
  destruct (pipe_put_queue x' (ubyte (ram k) T (addr + Z.of_nat (length dn))) Hok Hlen) as [P1 P2].
  split; [unfold k1; by rewrite set_pipe_twice|]. split; [done|]. split; [|done].
  rewrite P2, Hq, <- app_assoc, length_app. f_equal. cbn [length].
  rewrite Nat2Z.inj_add, map_seqZ_app by lia. f_equal.
Qed.

Lemma pipewrite_rule (Q : Z -> kernel -> Prop) :
  (forall s' x', quiet (k_sy k) s' -> sy_procs s' = map (wake (C_pipe_nread pi)) (procs k) ->
     pipe_ok x' -> queue x' = queue x ++ map (ubyte (ram k) T) (seqZ addr n) ->
     pi_readopen x' = pi_readopen x -> pi_writeopen x' = pi_writeopen x ->
     Q n (set_pipe pi x' (set_sy s' k))) ->
  wp no_turn (pipewrite pi addr n) Q k.
Proof.
  intros HQ. destruct Hat as [A1 A2 A3 A4 A5 A6 A7 A8]. unfold pipewrite.
  apply wp_bind, (wp_curproc p); [done|done|]. intros s0 Hq0 Hp0.
  assert (lock_free s0 (L_pipe pi)) as Hl0 by eauto with kern.
  apply wp_bind, wp_acquire; [done|]. kproj. set (s1 := sy_acquire (L_pipe pi) s0).
  apply wp_bind, (wp_for_each (write_inv s1)).
  - exists x. rewrite set_pipe_id by done. cbn. by rewrite app_nil_r.
  - intros dn i rest k1 Es HI. eapply wp_mono; [apply (write_step s1 dn i rest k1); [done|done|done]|].
    by intros r k2 [-> H].
  - intros k2 (x' & -> & Hok & Hqx & Hr & Hw). rewrite length_seqZ, Z2Nat.id in Hqx by lia.
    rewrite Z.max_r by lia.
    apply (pipe_finish_rule pi _ n s0); [eauto with kern|by eapply quiet_procs_free|done|reflexivity|done|].
    intros s' Hq' Hp'. apply (HQ s' x'); [by etransitivity| |done..]. by rewrite Hp', Hp0.
Qed.

End write.

(** ** Reading *)

Section read.
Context (k : kernel) (pi : Z) (x : pipe) (p : nat) (T : gmap (list Z) Z) (root : Z) (l : list Z).
Context (addr n : Z).
Hypothesis Hat : at_pipe k pi x p T root l.
Hypothesis Hn : 0 <= n.
Hypothesis Hur : user_range (ram k) T addr n.

(** After [dn] iterations. *)
Definition read_inv (s1 : sync) (dn : list Z) (k1 : kernel) : Prop :=
  exists x' m', k1 = with_ram m' (set_pipe pi x' (set_sy s1 k)) /\ pipe_ok x' /\
    (length dn <= length (queue x))%nat /\ queue x' = drop (length dn) (queue x) /\
    written (ram k) T l addr (take (length dn) (queue x)) m' /\
    pi_readopen x' = pi_readopen x /\ pi_writeopen x' = pi_writeopen x.

(** The result of the loop: it ran to the end, or the pipe got empty. *)
Definition read_end (s1 : sync) (r : option Z) (k1 : kernel) : Prop :=
  exists dn, Z.of_nat (length dn) = Z.min n (pipe_len x) /\ read_inv s1 dn k1 /\
    match r with Some i => i | None => Z.max 0 n end = Z.min n (pipe_len x).

Lemma read_step s1 dn i rest k1 :
  seqZ 0 n = dn ++ i :: rest -> sy_procs s1 = sy_procs (k_sy k) -> read_inv s1 dn k1 ->
  wp no_turn
    (let* y := get_pipe pi in
     if pipe_empty y then ret (Some i) else
     upd_pipe pi pipe_advance ;;
     let* pr := get_proc p in
     let* r := copyout (p_pagetable pr) (u64 (addr + i)) [pipe_head y] in
     if r =? -1 then ret (Some i) else ret None)
    (fun (r : option Z) k2 => match r with
       | Some i => read_end s1 (Some i) k2
       | None => read_inv s1 (dn ++ [i]) k2 end) k1.
Proof.
  intros Es Hs1 (x' & m' & -> & Hok & Hle & Hq & Hw & Hr & Hwo). apply seqZ_split in Es as [-> Hi].
  pose proof (queue_length x) as Hlen. set (k1 := with_ram m' (set_pipe pi x' (set_sy s1 k))).
  assert (Hlk : fi_pipes (k_fi k1) !! pi = Some x') by apply set_pipe_lookup.
  apply wp_bind, (get_pipe_rule pi x'); [done|]. rewrite pipe_empty_queue by done.
  destruct (decide (queue x' = [])) as [Hne|Hne].
  { rewrite bool_decide_true by done. apply wp_ret. exists dn.
    assert (length dn = length (queue x)).
    { rewrite Hq in Hne. pose proof (f_equal length Hne) as E. rewrite length_drop in E. cbn in E. lia. }
    split; [lia|]. split; [|lia]. by exists x', m'. }
  rewrite bool_decide_false by done.
  destruct (pipe_advance_queue x' Hok Hne) as [P1 P2].
  apply wp_bind, (upd_pipe_rule pi x'); [done|]. apply wp_bind, wp_gets.
  set (k2 := set_pipe pi (pipe_advance x') k1).
  replace (p_pagetable (proc_at k2 p)) with root.
  2:{ rewrite <- (ap_root _ _ _ _ _ _ _ Hat). unfold proc_at, procs, k2, k1, set_pipe, with_ram. kproj. by rewrite Hs1. }
  pose proof (user_range_byte _ _ _ _ (Z.of_nat (length dn)) Hur ltac:(lia)) as Hub.
  rewrite u64_id by (destruct Hub as (U1 & U2 & _); pose proof MAXVA_val; lia).
  assert (Hdn : (length dn < length (queue x))%nat).
  { rewrite P2 in Hq. pose proof (f_equal length Hq) as E. rewrite length_drop in E. cbn in E. lia. }
  assert (Hhead : queue x !! length dn = Some (pipe_head x')).
  { rewrite P2 in Hq. rewrite <- (Nat.add_0_r (length dn)), <- lookup_drop, <- Hq. done. }
  apply wp_bind, (copyout_byte_rule T root l).
  { eapply (space_ok_mm (with_ram m' k)); [done|]. eapply written_space; [apply Hat|exact Hw]. }
  { destruct Hub as (U1 & U2 & U3). split_and!; [done|done|]. intros a Ha.
    change (ram k2) with m'. rewrite (written_user _ _ _ _ _ _ _ Hw). by apply U3. }
  intros m2 Hw2. change (0 =? -1) with false. apply wp_ret.
  exists (pipe_advance x'), m2. split.
  { unfold k2, k1, with_ram, set_pipe. kproj. by rewrite insert_insert_eq. }
  split; [done|]. rewrite length_app. cbn [length]. split; [lia|]. split.
  { rewrite <- drop_drop, <- Hq, P2. done. }
  split; [|done]. rewrite Nat.add_1_r, (take_S_r _ _ (pipe_head x')) by done.
  eapply written_trans; [exact Hw|]. rewrite length_take, Nat.min_l by lia. exact Hw2.
Qed.

Lemma piperead_loop_rule s1 (Q : option Z -> kernel -> Prop) :
  sy_procs s1 = sy_procs (k_sy k) ->
  (forall r k2, read_end s1 r k2 -> Q r k2) ->
  wp no_turn (for_each (seqZ 0 n) (fun i =>
    let* y := get_pipe pi in
    if pipe_empty y then ret (Some i) else
    upd_pipe pi pipe_advance ;;
    let* pr := get_proc p in
    let* r := copyout (p_pagetable pr) (u64 (addr + i)) [pipe_head y] in
    if r =? -1 then ret (Some i) else ret None)) Q (set_sy s1 k).
Proof.
  intros Hs1 HQ. apply (wp_for_each (read_inv s1)).
  - exists x, (ram k). destruct Hat as [A1 A2 A3 A4 A5 A6 A7 A8].
    change (set_sy s1 k) with (with_ram (ram (set_sy s1 k)) (set_sy s1 k)) at 1.
    rewrite set_pipe_id by done. cbn [length]. rewrite drop_0, take_0.
    split; [done|]. split; [done|]. split; [lia|]. split; [done|]. split; [apply written_nil|done].
  - intros dn i rest k1 Es HI. eapply wp_mono; [apply (read_step s1 dn i rest k1); [done|done|done]|].
    intros [r|] k2; [apply HQ|done].
  - intros k2 HI. apply HQ. exists (seqZ 0 n). pose proof HI as (x' & m' & E & Hok & Hle & H).
    pose proof (queue_length x). rewrite length_seqZ in Hle |- *.
    split; [lia|]. split; [done|lia].
Qed.

(** From the loop on, with the lock held since [s0]. *)
Lemma piperead_tail_rule s0 s1 (Q : Z -> kernel -> Prop) :
  sync_ok s0 -> procs_free s0 -> lock_free s0 (L_pipe pi) -> quiet (sy_acquire (L_pipe pi) s0) s1 ->
  sy_procs s1 = sy_procs s0 -> sy_procs s0 = sy_procs (k_sy k) ->
  (forall s' x' m', quiet s0 s' -> sy_procs s' = map (wake (C_pipe_nwrite pi)) (procs k) ->
     pipe_ok x' -> queue x' = drop (Z.to_nat (Z.min n (pipe_len x))) (queue x) ->
     written (ram k) T l addr (take (Z.to_nat (Z.min n (pipe_len x))) (queue x)) m' ->
     pi_readopen x' = pi_readopen x -> pi_writeopen x' = pi_writeopen x ->
     Q (Z.min n (pipe_len x)) (with_ram m' (set_pipe pi x' (set_sy s' k)))) ->
  wp no_turn
    (let* r := for_each (seqZ 0 n) (fun i =>
       let* y := get_pipe pi in
       if pipe_empty y then ret (Some i) else
       upd_pipe pi pipe_advance ;;
       let* pr := get_proc p in
       let* r := copyout (p_pagetable pr) (u64 (addr + i)) [pipe_head y] in
       if r =? -1 then ret (Some i) else ret None) in
     wakeup (C_pipe_nwrite pi) ;; release (L_pipe pi) ;;
     ret (match r with Some i => i | None => Z.max 0 n end)) Q (set_sy s1 k).
Proof.
  intros Hok Hpf Hl Hq1 Hp1 Hp0 HQ. apply wp_bind, piperead_loop_rule; [congruence|].
  intros r k2 (dn & Hdn & (x' & m' & -> & Hx & Hle & Hqx & Hw & Hr & Hwo) & ->).
  rewrite <- Hdn, Nat2Z.id in *.
  apply (pipe_finish_rule pi _ _ s0); [done|done|done|exact Hq1|exact Hp1|].
  intros s' Hq' Hp'. apply (HQ s' x' m'); [done| |done..]. by rewrite Hp', Hp0.
Qed.

Lemma piperead_rule (Q : Z -> kernel -> Prop) :
  queue x <> [] \/ pi_writeopen x = 0 ->
  (forall s' x' m', quiet (k_sy k) s' -> sy_procs s' = map (wake (C_pipe_nwrite pi)) (procs k) ->
     pipe_ok x' -> queue x' = drop (Z.to_nat (Z.min n (pipe_len x))) (queue x) ->
     written (ram k) T l addr (take (Z.to_nat (Z.min n (pipe_len x))) (queue x)) m' ->
     pi_readopen x' = pi_readopen x -> pi_writeopen x' = pi_writeopen x ->
     Q (Z.min n (pipe_len x)) (with_ram m' (set_pipe pi x' (set_sy s' k)))) ->
  wp no_turn (piperead pi addr n) Q k.
Proof.
  intros Hgo HQ. destruct Hat as [A1 A2 A3 A4 A5 A6 A7 A8]. unfold piperead.
  apply wp_bind, (wp_curproc p); [done|done|]. intros s0 Hq0 Hp0.
  assert (lock_free s0 (L_pipe pi)) as Hl0 by eauto with kern.
  apply wp_bind, wp_acquire; [done|]. kproj.
  apply wp_bind, wp_wait_loop, wp_bind, (get_pipe_rule pi x); [done|].
  rewrite pipe_empty_queue by done.
  assert (bool_decide (queue x = []) && c_true (pi_writeopen x) = false) as ->.
  { destruct Hgo as [H | ->]; [by rewrite bool_decide_false|apply andb_false_r]. }
  apply wp_ret. cbn [negb].
  apply (piperead_tail_rule s0); [eauto with kern|by eapply quiet_procs_free|done|reflexivity|done|done|].
  intros s' x' m' Hq'. apply HQ. by etransitivity.
Qed.

End read.

(** ** Waiting for data *)

(** Giving a lock up and taking it again. *)
Lemma solo_reacquire s l :
  solo s l ->
  quiet (sy_acquire l (sy_release l s)) s /\ sync_ok (sy_release l s) /\ lock_free (sy_release l s) l.
Proof.
  intros [[name Hl] Hn Hs]. assert (Hg : get_lock s l = mk_spinlock 1 name (Some (sy_tp s))).
  { unfold get_lock. by rewrite Hl. }
  split; [|split; [|apply release_frees]].
  - split; unfold sy_acquire, sy_release, sy_pop, sy_push, put_lock, get_lock; kproj;
      rewrite ?lookup_insert_eq, ?insert_insert_eq, ?Hl, ?Hn, ?Hs; cbn; try done.
    + intros _. by destruct (c_intena (sy_cpu s)).
    + symmetry. by apply insert_id.
  - unfold sync_ok, sy_release, sy_pop, put_lock. kproj. rewrite Hn. cbn. lia.
Qed.

(** The state in which process [p] gets the processor back, the pipe now
    being [x]. *)
Record back_at_pipe (k : kernel) (pi : Z) (x : pipe) (p : nat) (T : gmap (list Z) Z) (root : Z)
    (l : list Z) : Prop := {
  ba_solo : solo (k_sy k) (L_proc p);
  ba_len : length (procs k) = NPROC;
  ba_procs i : (i < NPROC)%nat -> i <> p -> lock_free (k_sy k) (L_proc i);
  ba_lock : lock_free (k_sy k) (L_pipe pi);
  ba_proc : c_proc (sy_cpu (k_sy k)) = Some p;
  ba_root : p_pagetable (proc_at k p) = root;
  ba_pipe : fi_pipes (k_fi k) !! pi = Some x;
  ba_ok : pipe_ok x;
  ba_space : space_ok k T root l }.

Lemma back_ready kb pi x p T root l s' :
  back_at_pipe kb pi x p T root l ->
  sy_locks s' = swap_locks (L_proc p) (L_pipe pi) (k_sy kb) -> solo s' (L_pipe pi) ->
  sy_procs s' = alter (set_p_chan None) p (procs kb) -> c_proc (sy_cpu s') = Some p ->
  at_pipe (set_sy (sy_release (L_pipe pi) s') kb) pi x p T root l.
Proof.
  intros [B1 B2 B3 B4 B5 B6 B7 B8 B9] Hlk Hso Hpr Hc.
  destruct (solo_reacquire s' _ Hso) as (_ & R1 & R2).
  split; try done.
  - split; [unfold sy_release, sy_pop, put_lock; kproj; by rewrite Hpr, length_alter|].
    intros i Hi. unfold sy_release, sy_pop, put_lock. kproj. unfold lock_free. kproj.
    rewrite lookup_insert_ne by done. rewrite Hlk. unfold swap_locks.
    rewrite lookup_insert_ne by done. destruct (decide (i = p)) as [->|Hne].
    + rewrite lookup_insert_eq. by eexists.
    + rewrite lookup_insert_ne by congruence. by apply B3.
  - unfold proc_at, procs, sy_release, sy_pop, put_lock. kproj. rewrite Hpr.
    rewrite list_lookup_alter_eq. unfold proc_at in B6. by destruct (procs kb !! p).
  - by apply (space_ok_mm kb).
Qed.

(** Process [p] of [k], asleep for data of the pipe: it holds its own lock and
    no other, nothing but the process table has changed. *)
Record parked (k : kernel) (pi : Z) (p : nat) (k1 : kernel) : Prop := {
  pk_procs : procs k1 = alter (fun q => set_p_state SLEEPING (set_p_chan (Some (C_pipe_nread pi)) q)) p (procs k);
  pk_solo : solo (k_sy k1) (L_proc p);
  pk_locks l : l <> L_proc p -> sy_locks (k_sy k1) !! l = sy_locks (k_sy k) !! l;
  pk_proc : c_proc (sy_cpu (k_sy k1)) = Some p;
  pk_rest : k1 = set_sy (k_sy k1) k }.

Lemma asleep_parked k pi p s0 k1 :
  quiet (k_sy k) s0 -> sy_procs s0 = sy_procs (k_sy k) -> lock_free (k_sy k) (L_pipe pi) ->
  asleep p (C_pipe_nread pi) (L_pipe pi) (set_sy (sy_acquire (L_pipe pi) s0) k) k1 -> parked k pi p k1.
Proof.
  intros Hq Hp [name Hl] [S1 S2 S3 S4 S5 S6 S7 S8 S9 S10]. split.
  - rewrite S1. unfold procs. kproj. change (sy_procs (sy_acquire (L_pipe pi) s0)) with (sy_procs s0).
    by rewrite Hp.
  - by split.
  - intros l Hne. rewrite S9. unfold swap_locks. rewrite lookup_insert_ne by done. kproj.
    unfold sy_acquire, put_lock, get_lock. kproj.
    change (sy_locks (sy_push s0)) with (sy_locks s0). rewrite (q_locks _ _ Hq), Hl.
    destruct (decide (l = L_pipe pi)) as [->|Hne'].
    + rewrite !lookup_insert_eq. cbn. by rewrite Hl.
    + by rewrite !lookup_insert_ne by congruence.
  - done.
  - rewrite S10 at 1. done.
Qed.

(** ** Theorems *)

(** C22: as long as there is room, [pipewrite] appends the [n] bytes of the
    user's buffer to the queue the pipe holds, returns [n] and wakes up the
    processes that sleep for data; the counters may wrap around [2^32] on the
    way. *)
Theorem pipewrite_appends k pi x p T root l addr n :
  at_pipe k pi x p T root l -> 0 <= n -> pipe_len x + n <= PIPESIZE -> user_range (ram k) T addr n ->
  exists s' x', (forall e, pipewrite pi addr n e k = Ret n e (set_pipe pi x' (set_sy s' k))) /\
    quiet (k_sy k) s' /\ sy_procs s' = map (wake (C_pipe_nread pi)) (procs k) /\ pipe_ok x' /\
    queue x' = queue x ++ map (ubyte (ram k) T) (seqZ addr n).
Proof.
  intros Hat Hn Hroom Hur.
  destruct (wp_exact (pipewrite pi addr n) (fun r k' => exists s' x', r = n /\
    k' = set_pipe pi x' (set_sy s' k) /\ quiet (k_sy k) s' /\
    sy_procs s' = map (wake (C_pipe_nread pi)) (procs k) /\ pipe_ok x' /\
    queue x' = queue x ++ map (ubyte (ram k) T) (seqZ addr n)) k)
    as (r & k' & He & s' & x' & -> & -> & H); [|by exists s', x'].
  apply (pipewrite_rule k pi x p T root l); [done..|]. intros s' x' H1 H2 H3 H4 _ _. by exists s', x'.
Qed.

(** C23: when the pipe holds bytes, or its write end is closed, [piperead]
    returns at once with the number of bytes it could take, at most [n]; they
    are the front of the queue, in order, now in the user's buffer, and
    nothing else of the user's memory changes. *)
Theorem piperead_takes k pi x p T root l addr n :
  at_pipe k pi x p T root l -> 0 <= n -> user_range (ram k) T addr n ->
  queue x <> [] \/ pi_writeopen x = 0 ->
  let m := Z.min n (pipe_len x) in
  exists s' x' r', (forall e, piperead pi addr n e k = Ret m e (with_ram r' (set_pipe pi x' (set_sy s' k)))) /\
    quiet (k_sy k) s' /\ sy_procs s' = map (wake (C_pipe_nwrite pi)) (procs k) /\ pipe_ok x' /\
    queue x = take (Z.to_nat m) (queue x) ++ queue x' /\
    written (ram k) T l addr (take (Z.to_nat m) (queue x)) r'.
Proof.
  intros Hat Hn Hur Hgo m.
  destruct (wp_exact (piperead pi addr n) (fun r k' => exists s' x' r', r = m /\
    k' = with_ram r' (set_pipe pi x' (set_sy s' k)) /\ quiet (k_sy k) s' /\
    sy_procs s' = map (wake (C_pipe_nwrite pi)) (procs k) /\ pipe_ok x' /\
    queue x' = drop (Z.to_nat m) (queue x) /\
    written (ram k) T l addr (take (Z.to_nat m) (queue x)) r') k)
    as (r & k' & He & s' & x' & r' & -> & -> & H1 & H2 & H3 & H4 & H5).
  - apply (piperead_rule k pi x p T root l); [done..|].
    intros s' x' m' H1 H2 H3 H4 H5 _ _. by exists s', x', m'.
  - exists s', x', r'. split_and!; [done..| |done]. by rewrite H4, take_drop.
Qed.

(** Where [piperead] of an empty pipe gives the processor up, and what it
    returns when it gets it back with bytes in the pipe. *)
Lemma piperead_parks k pi x p T root l addr n :
  at_pipe k pi x p T root l -> (p < NPROC)%nat -> c_noff (sy_cpu (k_sy k)) = 0 -> 0 < n ->
  queue x = [] -> pi_writeopen x <> 0 -> p_killed (proc_at k p) = 0 ->
  exists k1 W, (parked k pi p k1 /\
    forall kb x1 Q, back_at_pipe kb pi x1 p T root l -> user_range (ram kb) T addr n -> queue x1 <> [] ->
      (forall k' r, fi_pipes (k_fi k') !! pi = Some r ->
         queue r = drop (Z.to_nat (Z.min n (pipe_len x1))) (queue x1) ->
         written (ram kb) T l addr (take (Z.to_nat (Z.min n (pipe_len x1))) (queue x1)) (ram k') ->
         Q (Z.min n (pipe_len x1)) k') -> W Q kb) /\
    parks (piperead pi addr n) k1 W k.
Proof.
  intros [A1 A2 A3 A4 A5 A6 A7 A8] Hp Hno Hn Hq Hwo Hk. unfold piperead.
  apply then_parks_some, (wp_curproc p); [done|done|]. intros s0 Hq0 Hp0.
  assert (lock_free s0 (L_pipe pi)) as Hl0 by eauto with kern.
  apply then_parks_some, wp_acquire; [done|].
  change (set_sy (sy_acquire (L_pipe pi) (k_sy (set_sy s0 k))) (set_sy s0 k))
    with (set_sy (sy_acquire (L_pipe pi) s0) k). set (s1 := sy_acquire (L_pipe pi) s0).
  assert (Hs1 : sy_procs s1 = sy_procs (k_sy k)) by exact Hp0.
  destruct (parks_sleep p (C_pipe_nread pi) (L_pipe pi) (set_sy s1 k)) as (k1 & Has & Hpk); [done| | | | |].
  { change (c_proc (sy_cpu s0) = Some p). by rewrite (q_proc _ _ Hq0). }
  { unfold procs. kproj. rewrite Hs1. by destruct A2 as [-> _]. }
  { split; [apply lock_held_acquire| |done]. change (c_noff (sy_cpu s0) + 1 = 1).
    by rewrite (q_noff _ _ Hq0), Hno. }
  { apply lock_free_acquire; [done|]. eapply quiet_lock_free; [done|]. by apply A2. }
  eexists k1, _. split; [|apply parks_bind, parks_wait].
  2:{ apply then_parks, (get_pipe_rule pi x); [done|]. rewrite pipe_empty_queue, bool_decide_true by done.
      unfold c_true at 1. rewrite (proj2 (Z.eqb_neq _ _)) by done. cbn [negb andb]. apply then_parks, wp_gets.
      replace (p_killed (proc_at (set_sy s1 k) p)) with 0 by (unfold proc_at, procs; kproj; by rewrite Hs1).
      change (c_true 0) with false. cbv iota. by apply parks_bind. }
  split; [by eapply asleep_parked|]. intros kb x1 Q Hb Hur1 Hq1 HQ. cbv beta.
  apply wp_sleep_resume; [done|apply Hb|apply Hb|]. intros s' [O1 O2 O3 O4 O5 O6 O7]. apply wp_ret.
  unfold procs in O3. kproj in O3.
  assert (Hat' : at_pipe (set_sy (sy_release (L_pipe pi) s') kb) pi x1 p T root l).
  { apply back_ready; [done|exact O7|done|done|]. rewrite O4. apply Hb. }
  destruct (solo_reacquire s' _ O1) as (R1 & R2 & R3).
  apply wp_bind, (get_pipe_rule pi x1); [apply Hb|].
  rewrite pipe_empty_queue by apply Hb. rewrite bool_decide_false by done. cbn [andb]. apply wp_ret. cbn [negb].
  apply (piperead_tail_rule (set_sy (sy_release (L_pipe pi) s') kb) pi x1 p T root l addr n Hat' ltac:(lia) Hur1
    (sy_release (L_pipe pi) s') s'); [done|apply Hat'|done|done|done|done|].
  intros s2 x2 m2 _ _ _ Hx2 Hw _ _. apply (HQ _ x2); [apply set_pipe_lookup|done|done].
Qed.

(** The scheduler of the hart has taken over from the sleeping reader. *)
Record idle_at_pipe (k : kernel) (pi : Z) (p : nat) (k2 : kernel) : Prop := {
  id_procs : procs k2 = alter (fun q => set_p_state SLEEPING (set_p_chan (Some (C_pipe_nread pi)) q)) p (procs k);
  id_free : procs_free (k_sy k2);
  id_pipe : lock_free (k_sy k2) (L_pipe pi);
  id_noff : c_noff (sy_cpu (k_sy k2)) = 0;
  id_rest : k2 = set_sy (k_sy k2) k }.

Lemma scheduler_back_rule k pi x p T root l k1 (Q : unit -> kernel -> Prop) :
  at_pipe k pi x p T root l -> parked k pi p k1 ->
  (forall k2, idle_at_pipe k pi p k2 -> Q tt k2) -> wp no_turn (scheduler_back p) Q k1.
Proof.
  intros [A1 [A2 A2'] A3 A4 A5 A6 A7 A8] [P1 [P2 P3 P4] P5 P6 P7] HQ. unfold scheduler_back.
  apply wp_bind, wp_upd_sy, wp_release_raw; [done|done|simpl; lia|]. apply HQ.
  assert (forall l', l' <> L_proc p -> lock_free (k_sy k) l' ->
    lock_free (sy_release (L_proc p) (set_cpu (set_c_proc None (sy_cpu (k_sy k1))) (k_sy k1))) l') as Hl.
  { intros l' Hne [name Hl]. exists name. unfold sy_release, sy_pop, put_lock. kproj.
    rewrite lookup_insert_ne by done. by rewrite P5. }
  split.
  - exact P1.
  - split; [change (length (procs k1) = NPROC); by rewrite P1, length_alter|]. intros i Hi.
    destruct (decide (i = p)) as [->|Hne]; [apply release_frees|]. apply Hl; [congruence|by apply A2'].
  - by apply Hl.
  - simpl. lia.
  - kproj. match goal with |- set_sy ?s _ = _ => generalize s end. intros s2. change (set_sy s2 k1 = set_sy s2 k).
    by rewrite P7.
Qed.

(** [w] has written on another hart since [k2]: the reader is awake and the
    scheduler takes it up. *)
Lemma scheduler_picks k pi x p T root l k2 h sie c s' x' :
  at_pipe k pi x p T root l -> (p < NPROC)%nat -> idle_at_pipe k pi p k2 -> pipe_ok x' ->
  quiet (hart_sync h sie c (k_sy k2)) s' -> sy_procs s' = map (wake (C_pipe_nread pi)) (procs k2) ->
  let k3 := set_pipe pi x' (set_sy (hart_sync (sy_tp (k_sy k2)) (sy_sie (k_sy k2)) (sy_cpu (k_sy k2)) s') k2) in
  p_state (proc_at k3 p) = RUNNABLE /\
  exists k4, scheduler_step p 0 [] k3 = Off k4 /\ back_at_pipe k4 pi x' p T root l /\ ram k4 = ram k.
Proof.
  intros [A1 [A2 A2'] A3 A4 A5 A6 A7 A8] Hp [I1 [I2 I2'] I3 I4 I5] Hx' Hq Hp' k3.
  assert (sy_locks (k_sy k3) = sy_locks (k_sy k2)) as El by exact (q_locks _ _ Hq).
  assert (procs k3 = map (wake (C_pipe_nread pi)) (procs k2)) as Epr by exact Hp'.
  destruct (lookup_lt_is_Some_2 (procs k) p) as [r Hr]; [unfold procs; lia|].
  assert (procs k3 !! p = Some (set_p_state RUNNABLE (set_p_chan (Some (C_pipe_nread pi)) r))) as Er.
  { rewrite Epr, list_lookup_fmap, I1, list_lookup_alter_eq, Hr. cbn. f_equal. unfold wake, sleeping_on.
    cbn. rewrite !bool_decide_true by done. reflexivity. }
  assert (length (procs k3) = NPROC) as Elen by (rewrite Epr, length_map; exact I2).
  split; [unfold proc_at; by rewrite Er|].
  destruct (offs_scheduler_step p 0 (fun k4 => back_at_pipe k4 pi x' p T root l /\ ram k4 = ram k) k3)
    as (k4 & H4 & E4 & _).
  - destruct (I2' p Hp) as [name Hl]. exists name. by rewrite El.
  - lia.
  - unfold proc_at. by rewrite Er.
  - assert (ram k3 = ram k) as Em by (unfold k3; rewrite I5; done). split; [|exact Em]. split.
    + split; [apply lock_held_acquire| |done]. simpl. lia.
    + change (length (alter (set_p_state RUNNING) p (procs k3)) = NPROC). by rewrite length_alter.
    + intros i Hi Hne. apply lock_free_acquire; [congruence|]. destruct (I2' i Hi) as [name Hl]. exists name. by rewrite El.
    + apply lock_free_acquire; [done|]. destruct I3 as [name Hl]. exists name. by rewrite El.
    + done.
    + unfold proc_at. change (procs (set_sy _ k3)) with (alter (set_p_state RUNNING) p (procs k3)).
      rewrite list_lookup_alter_eq, Er. cbn. unfold proc_at in A5. by rewrite Hr in A5.
    + apply set_pipe_lookup.
    + done.
    + apply (space_ok_mm k); [|done]. unfold k3. by rewrite I5.
  - by exists k4.
Qed.

(** Process [w] writes on hart [h] while the reader sleeps. *)
Lemma writer_writes k pi x p T root l k2 h sie c w Tw rootw lw waddr wn :
  at_pipe k pi x p T root l -> queue x = [] -> idle_at_pipe k pi p k2 ->
  at_pipe (set_sy (hart_sync h sie c (k_sy k)) k) pi x w Tw rootw lw -> w <> p ->
  0 < wn <= PIPESIZE -> user_range (ram k) Tw waddr wn ->
  exists s' x', on_hart h sie c (pipewrite pi waddr wn) [] k2 = Ret wn []
      (set_pipe pi x' (set_sy (hart_sync (sy_tp (k_sy k2)) (sy_sie (k_sy k2)) (sy_cpu (k_sy k2)) s') k2)) /\
    quiet (hart_sync h sie c (k_sy k2)) s' /\ sy_procs s' = map (wake (C_pipe_nread pi)) (procs k2) /\
    pipe_ok x' /\ queue x' = map (ubyte (ram k) Tw) (seqZ waddr wn).
Proof.
  intros [A1 A2 A3 A4 A5 A6 A7 A8] Hq [I1 I2 I3 I4 I5] [B1 B2 B3 B4 B5 B6 B7 B8] Hwp Hwn Hur.
  assert (forall a, ram (set_sy a k2) = ram k) as Er by (intros a; by rewrite I5).
  assert (at_pipe (set_sy (hart_sync h sie c (k_sy k2)) k2) pi x w Tw rootw lw) as Hw2.
  { split; [exact B1|exact I2|exact I3|exact B4| |by rewrite I5|exact B7|].
    - change (p_pagetable (proc_at k2 w) = rootw). unfold proc_at in *. rewrite I1.
      by rewrite list_lookup_alter_ne by done.
    - apply (space_ok_mm k); [by rewrite I5|]. by apply (space_ok_mm (set_sy (hart_sync h sie c (k_sy k)) k)). }
  destruct (wp_exact (on_hart h sie c (pipewrite pi waddr wn)) (fun r k3 => exists s' x', r = wn /\
    k3 = set_pipe pi x' (set_sy (hart_sync (sy_tp (k_sy k2)) (sy_sie (k_sy k2)) (sy_cpu (k_sy k2)) s') k2) /\
    quiet (hart_sync h sie c (k_sy k2)) s' /\ sy_procs s' = map (wake (C_pipe_nread pi)) (procs k2) /\ pipe_ok x' /\
    queue x' = map (ubyte (ram k) Tw) (seqZ waddr wn)) k2) as (r & k3 & E3 & s' & x' & -> & -> & H); [|by exists s', x'].
  apply wp_on_hart, (pipewrite_rule _ pi x w Tw rootw lw waddr wn Hw2); [lia| |by rewrite Er|].
  - rewrite <- queue_length, Hq. simpl. lia.
  - intros s' x' H1 H2 H3 H4 _ _. exists s', x'. rewrite Hq, Er in H4. by split_and!.
Qed.

(** C24: a reader is not left behind.  [piperead] of process [p] finds the
    pipe empty and its write end open: it goes to sleep, without the pipe's
    lock, and the scheduler of its hart takes over.  When now process [w]
    calls [pipewrite] on another hart, with its own memory, the reader
    becomes RUNNABLE; the scheduler switches to it when it next comes to it,
    and [piperead] then returns the bytes [w] wrote, as many as it asked
    for, in the memory of the reader. *)
Theorem pipe_reader_resumes k pi x p T root l addr n h sie c w Tw rootw lw waddr wn :
  at_pipe k pi x p T root l -> (p < NPROC)%nat -> c_noff (sy_cpu (k_sy k)) = 0 -> 0 < n ->
  queue x = [] -> pi_writeopen x <> 0 -> p_killed (proc_at k p) = 0 -> user_range (ram k) T addr n ->
  at_pipe (set_sy (hart_sync h sie c (k_sy k)) k) pi x w Tw rootw lw -> w <> p ->
  0 < wn <= PIPESIZE -> user_range (ram k) Tw waddr wn ->
  exists k1 k2 k3 k4,
    piperead pi addr n [] k = Off k1 /\
    p_state (proc_at k1 p) = SLEEPING /\ lock_free (k_sy k1) (L_pipe pi) /\
    scheduler_back p [] k1 = Ret tt [] k2 /\
    on_hart h sie c (pipewrite pi waddr wn) [] k2 = Ret wn [] k3 /\ p_state (proc_at k3 p) = RUNNABLE /\
    scheduler_step p 0 [] k3 = Off k4 /\
    forall f, f k1 = k4 -> exists k' r,
      (forall e, piperead pi addr n (f :: e) k = Ret (Z.min n wn) e k') /\
      written (ram k) T l addr (map (ubyte (ram k) Tw) (seqZ waddr (Z.min n wn))) (ram k') /\
      fi_pipes (k_fi k') !! pi = Some r /\
      queue r = map (ubyte (ram k) Tw) (seqZ (waddr + Z.min n wn) (wn - Z.min n wn)).
Proof.
  intros Hat Hp Hno Hn Hq Hwo Hk Hur Hw Hwp Hwn Hurw.
  destruct (piperead_parks k pi x p T root l addr n) as (k1 & W & [Hpk HW] & Hoff & Htk); [done..|].
  destruct (wp_exact (scheduler_back p) (fun _ k2 => idle_at_pipe k pi p k2) k1) as ([] & k2 & E2 & Hid).
  { by apply (scheduler_back_rule k pi x p T root l). }
  destruct (writer_writes k pi x p T root l k2 h sie c w Tw rootw lw waddr wn) as (s' & x' & E3 & Hq' & Hp' & Hx' & Hqx); [done..|].
  destruct (scheduler_picks k pi x p T root l k2 h sie c s' x') as (Hrun & k4 & E4 & Hb & Em); [done..|].
  assert (pipe_len x' = wn) as Elen by (rewrite <- queue_length, Hqx, length_map, length_seqZ; lia).
  assert (map (ubyte (ram k) Tw) (seqZ waddr wn) = map (ubyte (ram k) Tw) (seqZ waddr (Z.min n wn)) ++
    map (ubyte (ram k) Tw) (seqZ (waddr + Z.min n wn) (wn - Z.min n wn))) as Esp.
  { rewrite <- map_seqZ_app by lia. do 2 f_equal. lia. }
  assert (length (map (ubyte (ram k) Tw) (seqZ waddr (Z.min n wn))) = Z.to_nat (Z.min n wn)) as El
    by by rewrite length_map, length_seqZ.
  exists k1, k2, (set_pipe pi x' (set_sy (hart_sync (sy_tp (k_sy k2)) (sy_sie (k_sy k2)) (sy_cpu (k_sy k2)) s') k2)), k4.
  split_and!; [done| | |done|done|done|done|].
  { destruct (lookup_lt_is_Some_2 (procs k) p) as [q Eq]; [unfold procs; by destruct Hat as [_ [-> _]]|].
    unfold proc_at. rewrite (pk_procs _ _ _ _ Hpk), list_lookup_alter_eq, Eq. done. }
  { destruct (ap_lock _ _ _ _ _ _ _ Hat) as [name Hl]. exists name. by rewrite (pk_locks _ _ _ _ Hpk). }
  intros f Hf.
  destruct (Htk f (fun m k' => m = Z.min n wn /\ exists r, fi_pipes (k_fi k') !! pi = Some r /\
    queue r = map (ubyte (ram k) Tw) (seqZ (waddr + Z.min n wn) (wn - Z.min n wn)) /\
    written (ram k) T l addr (map (ubyte (ram k) Tw) (seqZ waddr (Z.min n wn))) (ram k')))
    as (m & k' & He & -> & r & H1 & H2 & H3); [|by exists k', r].
  rewrite Hf. apply (HW k4 x'); [done|by rewrite Em| |].
  - rewrite Hqx. intros E. apply (f_equal length) in E. rewrite length_map, length_seqZ in E. simpl in E. lia.
  - rewrite Elen, Hqx, Em, Esp, take_app_length', drop_app_length' by done. eauto.
Qed.

End pipes.

(** ** Instances *)

#[local] Existing Instance sample_linker.
#[local] Existing Instance sample_linker_ok.

Definition pg_pipe : Z := 0x87ff5000.
Definition sample_at (x : pipe) : kernel :=
  set_pipe pg_pipe x (set_sy (put_lock (L_pipe pg_pipe) (mk_spinlock 0 "pipe" None) (k_sy sample_lazy)) sample_lazy).
(** Empty, with the counters about to wrap. *)
Definition sample_pipe : pipe := mk_pipe (repeat 0 512) (2 ^ 32 - 1) (2 ^ 32 - 1) 1 1.
Definition sample_two : pipe := pipe_put 8 (pipe_put 7 sample_pipe).

Lemma sample_pipe_ok : pipe_ok sample_pipe /\ pipe_ok sample_two.
Proof. split; split; vm_compute; try done; split; done. Qed.

Lemma sample_at_free l : lock_free (k_sy sample) l -> l <> L_pipe pg_pipe -> forall x, lock_free (k_sy (sample_at x)) l.
Proof.
  intros [name H] Hne x. exists name. unfold sample_at, set_pipe, put_lock. kproj.
  rewrite lookup_insert_ne by congruence. exact H.
Qed.

Lemma sample_at_pipe x : pipe_ok x -> at_pipe (sample_at x) pg_pipe x 0 sample_T pg_root [0x87fff000].
Proof.
  intros Hx. split.
  - apply sample_sync_ok.
  - split; [reflexivity|]. intros i Hi. apply sample_at_free; [|discriminate].
    by apply sample_procs_free.
  - eexists. unfold sample_at, set_pipe, put_lock. kproj. apply lookup_insert_eq.
  - reflexivity.
  - reflexivity.
  - apply set_pipe_lookup.
  - done.
  - apply (space_ok_mm sample_vm); [reflexivity|apply sample_space].
Qed.

Lemma sample_at_range x : user_range (ram (sample_at x)) sample_T 16 3.
Proof.
  split_and!; [done|done|]. intros a Ha. replace (pg a) with 0 by (unfold pg; pages).
  change (ram (sample_at x)) with (ram sample_vm). by rewrite sample_user.
Qed.

Lemma pipewrite_appends_witness :
  exists s' x', pipewrite pg_pipe 16 3 [] (sample_at sample_pipe) =
      Ret 3 [] (set_pipe pg_pipe x' (set_sy s' (sample_at sample_pipe))) /\
    length (queue x') = 3%nat.
Proof.
  destruct (pipewrite_appends (sample_at sample_pipe) pg_pipe sample_pipe 0 sample_T pg_root [0x87fff000] 16 3)
    as (s' & x' & H1 & _ & _ & _ & H2).
  - apply sample_at_pipe, sample_pipe_ok.
  - lia.
  - by vm_compute.
  - apply sample_at_range.
  - exists s', x'. split; [exact (H1 [])|]. rewrite H2. by vm_compute.
Defined.

Lemma piperead_takes_witness :
  exists s' x' r', piperead pg_pipe 16 3 [] (sample_at sample_two) =
      Ret 2 [] (with_ram r' (set_pipe pg_pipe x' (set_sy s' (sample_at sample_two)))) /\
    queue x' = [] /\ written (ram (sample_at sample_two)) sample_T [0x87fff000] 16 [7; 8] r'.
Proof.
  destruct (piperead_takes (sample_at sample_two) pg_pipe sample_two 0 sample_T pg_root [0x87fff000] 16 3)
    as (s' & x' & r' & H1 & _ & _ & _ & H2 & H3).
  - apply sample_at_pipe, sample_pipe_ok.
  - lia.
  - apply sample_at_range.
  - left. by vm_compute.
  - exists s', x', r'. split; [exact (H1 [])|]. split; [|exact H3].
    change (queue sample_two) with [7; 8] in H2. injection H2 as H2. by rewrite H2.
Defined.

(** Process 1 too, on hart 1; its page table is that of process 0. *)
Definition sample_pair : kernel :=
  let k := sample_at sample_pipe in
  set_sy (set_procs (alter (set_p_pagetable pg_root) 1%nat (procs k)) (k_sy k)) k.

Lemma sample_pair_at h sie c p :
  p = 0%nat \/ p = 1%nat -> c_proc c = Some p -> 0 <= c_noff c -> (0 < c_noff c -> sie = false) ->
  at_pipe (set_sy (hart_sync h sie c (k_sy sample_pair)) sample_pair) pg_pipe sample_pipe p sample_T pg_root [0x87fff000].
Proof.
  intros Hp Hc Hn Hs. destruct (sample_at_pipe sample_pipe (proj1 sample_pipe_ok)) as [A1 [A2 A2'] A3 A4 A5 A6 A7 A8].
  split; [by split|by split|exact A3|exact Hc| |exact A6|exact A7|by apply (space_ok_mm (sample_at sample_pipe))].
  by destruct Hp as [-> | ->].
Qed.

(** Process 0 waits for three bytes; process 1 writes two. *)
Lemma pipe_reader_resumes_witness :
  exists k1 k2 k3 k4, piperead pg_pipe 16 3 [] sample_pair = Off k1 /\ scheduler_back 0 [] k1 = Ret tt [] k2 /\
    on_hart 1 true (mk_cpu (Some 1%nat) 0 false) (pipewrite pg_pipe 100 2) [] k2 = Ret 2 [] k3 /\
    scheduler_step 0 0 [] k3 = Off k4 /\
    exists k', piperead pg_pipe 16 3 [fun _ => k4] sample_pair = Ret 2 [] k'.
Proof.
  destruct (pipe_reader_resumes sample_pair pg_pipe sample_pipe 0 sample_T pg_root [0x87fff000] 16 3
    1 true (mk_cpu (Some 1%nat) 0 false) 1 sample_T pg_root [0x87fff000] 100 2)
    as (k1 & k2 & k3 & k4 & H1 & _ & _ & H2 & H3 & _ & H4 & H5).
  - apply (sample_pair_at 0 true (mk_cpu (Some 0%nat) 0 false)); [by left|done|done|done].
  - unfold NPROC. lia.
  - reflexivity.
  - lia.
  - by vm_compute.
  - by vm_compute.
  - reflexivity.
  - apply (sample_at_range sample_pipe).
  - apply sample_pair_at; [by right|done|done|done].
  - discriminate.
  - unfold PIPESIZE. lia.
  - split_and!; [done|done|]. intros a Ha. replace (pg a) with 0 by (unfold pg; pages).
    change (ram sample_pair) with (ram sample_vm). by rewrite sample_user.
  - exists k1, k2, k3, k4. split_and!; [exact H1|exact H2|exact H3|exact H4|].
    destruct (H5 (fun _ => k4) eq_refl) as (k' & r & H6 & _). exists k'. exact (H6 []).
Defined.
