(* ===== verification/FsOps.v ===== *)
(** * Rules for the file system on top of the buffer cache and the log

    What the code of [fs.c] sees of the layers below: the contents of block
    [n] is [view k n]; a block is read by [bread], changed in place and
    recorded by [log_write], and given back by [brelse]. *)

From S2P Require Import Prelude Defs State Logic Memory Spinlock Sched Sleeplock Kalloc Vm Copy Bio BioList BioCache Log LogSpec LogOps Fs.

(** ** Pins *)

Definition pinmap (bl : list Z) : gmap Z Z := gset_to_gmap 1 (list_to_set bl).

Lemma pin_pinmap bl n : pin (pinmap bl) n = if decide (n ∈ bl) then 1 else 0.
Proof.
  unfold pin, pinmap. case_decide as E.
  - rewrite lookup_gset_to_gmap, option_guard_True; [done|]. by apply elem_of_list_to_set.
  - rewrite lookup_gset_to_gmap, option_guard_False; [done|]. by rewrite elem_of_list_to_set.
Qed.

Lemma pinmap_size bl : NoDup bl -> size (pinmap bl) = length bl.
Proof.
  intros H. unfold pinmap. rewrite <- size_dom, dom_gset_to_gmap. by apply size_list_to_set.
Qed.

Section fsops.
Context {D : DiskDriver} {DL : DiskLaw D}.

(** ** States of the file system *)

(** The running thread holds the buffers [H]; the blocks [bl] have been
    changed and are not on the disk yet. *)
Record fs_st (k : kernel) (bl : list Z) (H : gmap nat Z) : Prop := {
  fst_calm : calm (k_sy k);
  fst_bio : bio_ok k H (pinmap bl);
  fst_nodup : NoDup bl;
  fst_clean n : n ∉ bl -> view k n = dblk (the_disk k) n }.

(** In an operation of the log, with the log at block [st]. *)
Record in_op (k : kernel) (st : Z) (bl : list Z) (H : gmap nat Z) : Prop := {
  iop_st : fs_st k bl H;
  iop_log : log_has (the_log k) st bl;
  iop_size : lg_size (the_log k) = LOGSIZE;
  iop_out : 1 <= lg_outstanding (the_log k) }.

Lemma fs_st_bio_frame k k' bl H H' :
  fs_st k bl H -> bio_frame k k' -> bio_ok k' H' (pinmap bl) -> the_disk k' = the_disk k ->
  (forall m, view k' m = view k m) -> fs_st k' bl H'.
Proof.
  intros [F1 F2 F3 F4] Hf Hb Hd Hv. split; [by eapply bio_frame_calm|done|done|].
  intros n Hn. rewrite Hv, Hd. by apply F4.
Qed.

Lemma in_op_bio_frame k k' st bl H H' :
  in_op k st bl H -> bio_frame k k' -> bio_ok k' H' (pinmap bl) -> the_disk k' = the_disk k ->
  (forall m, view k' m = view k m) -> in_op k' st bl H'.
Proof.
  intros [I1 I2 I3 I4] Hf Hb Hd Hv. split; [by eapply fs_st_bio_frame|..];
    unfold the_log in *; by rewrite (bf_log _ _ Hf).
Qed.

(** ** Blocks *)

(** Reading leaves everything but the cache and the locks as it is. *)
Record reads (k k' : kernel) : Prop := {
  rd_frame : bio_frame k k';
  rd_disk : the_disk k' = the_disk k;
  rd_view m : view k' m = view k m }.

#[export] Instance reads_preorder : PreOrder reads.
Proof.
  split.
  - intros k. by split.
  - intros k1 k2 k3 [A1 A2 A3] [B1 B2 B3]. split; [by etransitivity|congruence|].
    intros m. by rewrite B3.
Qed.

Lemma in_op_reads k k' st bl H H' :
  in_op k st bl H -> reads k k' -> fs_st k' bl H' -> in_op k' st bl H'.
Proof. intros Hi [R1 R2 R3] Hf. eapply in_op_bio_frame; try done. apply Hf. Qed.

Lemma bread_op n bl H (Q : nat -> kernel -> Prop) k :
  fs_st k bl H -> 0 <= n < FSSIZE -> (forall b m, H !! b = Some m -> m <> n) ->
  (size H + length bl < NBUF)%nat ->
  (forall b k', H !! b = None -> reads k k' -> fs_st k' bl (<[b := n]> H) -> Q b k') ->
  wp disk_turn (bread ROOTDEV n) Q k.
Proof.
  intros Hf Hn Hh Hs HQ. destruct Hf as [F1 F2 F3 F4].
  apply (bread_rule n H (pinmap bl)); [done|done|done| | |].
  - intros b m Hb. split; [by eapply Hh|]. rewrite pin_pinmap. case_decide; lia.
  - destruct (free_buffer k H (pinmap bl) F2) as (b & Hb & E); [by rewrite pinmap_size|].
    exists b. auto.
  - intros b k' Hb Hno Hfr Hok Hd Hv. apply HQ; [done|by split|].
    by eapply fs_st_bio_frame.
Qed.

Lemma get_data_op b n bl H (Q : list Z -> kernel -> Prop) k :
  fs_st k bl H -> H !! b = Some n -> Q (view k n) k -> wp disk_turn (get_data b) Q k.
Proof.
  intros Hf Hb HQ. unfold get_data. apply wp_bind, wp_gets, wp_ret.
  destruct (held_buf k H _ b n (fst_bio _ _ _ Hf) Hb) as (_ & _ & _ & _ & _ & _ & _ & _ & _ & ->). done.
Qed.

Lemma brelse_op b n bl H (Q : unit -> kernel -> Prop) k :
  fs_st k bl H -> H !! b = Some n ->
  (forall k', reads k k' -> fs_st k' bl (delete b H) -> Q tt k') ->
  wp disk_turn (brelse b) Q k.
Proof.
  intros Hf Hb HQ. apply (brelse_cache_rule b n H (pinmap bl)); [apply Hf|apply Hf|done| |].
  - rewrite pin_pinmap. case_decide; [done|]. intros _. by apply Hf.
  - intros k' Hfr Hok Hd Hv. apply HQ; [by split|]. by eapply fs_st_bio_frame.
Qed.

(** A change of a block: the new contents of all blocks. *)
Definition with_block (n : Z) (d : list Z) (V : Z -> list Z) (m : Z) : list Z :=
  if decide (m = n) then d else V m.

Lemma update_op b n f st bl H (Q : unit -> kernel -> Prop) k :
  in_op k st bl H -> H !! b = Some n -> ~ in_log st n -> (length bl < 29)%nat ->
  length (f (view k n)) = Z.to_nat BSIZE ->
  (forall k', op_frame k k' -> in_op k' st (logged bl n) H ->
     (forall m, view k' m = with_block n (f (view k n)) (view k) m) -> Q tt k') ->
  wp disk_turn (set_data b f) (fun _ k1 => wp disk_turn (log_write b) Q k1) k.
Proof.
  intros Hi Hb Hlog Hroom Hl HQ. destruct Hi as [[F1 F2 F3 F4] I2 I3 I4].
  apply (edit_rule b n H (pinmap bl)); [done|done|done|]. intros k1 Hfr1 Hok1 Hd1 Hv1.
  apply (log_write_rule b n H (pinmap bl) st bl); unfold the_log in *; rewrite ?(bf_log _ _ Hfr1);
    try done; try lia.
  - by eapply bio_frame_calm.
  - intros m. apply pin_pinmap.
  - rewrite I3. unfold LOGSIZE, MAXOPBLOCKS. lia.
  - intros k2 P2 Hfr2 Hlog2 HC Hok2 Hp2 Hd2 Hv2. unfold same_counts, the_log in HC.
    rewrite ?(bf_log _ _ Hfr1) in HC. destruct HC as (C1 & C2 & C3).
    assert (Hfr : op_frame k k2) by (etransitivity; [by apply bio_op_frame|done]).
    apply HQ; [done| |].
    + split; [|done|unfold the_log; congruence|unfold the_log; lia]. split.
      * by eapply op_frame_calm.
      * eapply bio_ok_pins; [|done]. intros m. by rewrite pin_pinmap, Hp2.
      * apply Hlog2.
      * intros m Hm. rewrite Hv2, Hv1, Hd2, Hd1. rewrite decide_False.
        -- apply F4. intros Hm2. apply Hm. unfold logged. case_decide; [done|]. apply elem_of_app. by left.
        -- intros ->. apply Hm. unfold logged. case_decide; [done|]. apply elem_of_app. right. by left.
    + intros m. rewrite Hv2, Hv1. done.
Qed.

(** A held block is changed, recorded and given back. *)
Lemma change_op b n f st bl H (Q : unit -> kernel -> Prop) k :
  in_op k st bl H -> H !! b = Some n -> ~ in_log st n -> (length bl < 29)%nat ->
  length (f (view k n)) = Z.to_nat BSIZE ->
  (forall k', op_frame k k' -> in_op k' st (logged bl n) (delete b H) ->
     (forall m, view k' m = with_block n (f (view k n)) (view k) m) -> Q tt k') ->
  wp disk_turn (set_data b f ;; log_write b ;; brelse b) Q k.
Proof.
  intros Hi Hb Hlog Hroom Hl HQ. apply wp_bind.
  eapply wp_mono; [apply (update_op b n f st bl H (fun _ k2 => wp disk_turn (brelse b) Q k2)); try done|].
  - intros k2 Hfr2 Hi2 Hv2. apply (brelse_op b n (logged bl n) H); [apply Hi2|done|].
    intros k3 R3 F3. apply HQ.
    + etransitivity; [exact Hfr2|]. apply bio_op_frame, R3.
    + by eapply in_op_reads.
    + intros m. by rewrite (rd_view _ _ R3), Hv2.
  - intros [] k2 H2. by apply wp_bind.
Qed.

Lemma change_then {A} (rest : M A) b n f st bl H (Q : A -> kernel -> Prop) k :
  in_op k st bl H -> H !! b = Some n -> ~ in_log st n -> (length bl < 29)%nat ->
  length (f (view k n)) = Z.to_nat BSIZE ->
  (forall k', op_frame k k' -> in_op k' st (logged bl n) (delete b H) ->
     (forall m, view k' m = with_block n (f (view k n)) (view k) m) -> wp disk_turn rest Q k') ->
  wp disk_turn (set_data b f ;; log_write b ;; brelse b ;; rest) Q k.
Proof.
  intros. cut (wp disk_turn ((set_data b f ;; log_write b ;; brelse b) ;; rest) Q k).
  - rewrite !bind_assoc. by setoid_rewrite bind_assoc.
  - apply wp_bind. by eapply change_op.
Qed.

Lemma bzero_op n st bl H (Q : unit -> kernel -> Prop) k :
  in_op k st bl H -> 0 <= n < FSSIZE -> ~ in_log st n -> (length bl < 29)%nat ->
  (forall b m, H !! b = Some m -> m <> n) -> (size H + length bl < NBUF)%nat ->
  (forall k', op_frame k k' -> in_op k' st (logged bl n) H ->
     (forall m, view k' m = with_block n (repeat 0 (Z.to_nat BSIZE)) (view k) m) -> Q tt k') ->
  wp disk_turn (bzero ROOTDEV n) Q k.
Proof.
  intros Hi Hn Hlog Hroom Hh Hsz HQ. unfold bzero. rewrite u32_id by (unfold FSSIZE in Hn; lia).
  apply wp_bind, (bread_op n bl H); [apply Hi|done|done|done|].
  intros b k1 Hb R1 F1.
  apply (change_op b n _ st bl (<[b := n]> H)); [by eapply in_op_reads|apply lookup_insert_eq|done|done|apply repeat_length|].
  intros k2 Hfr2 Hi2 Hv2. rewrite delete_insert_id in Hi2 by done. apply HQ; [|done|].
  - etransitivity; [apply bio_op_frame, R1|done].
  - intros m. rewrite Hv2. unfold with_block. by rewrite (rd_view _ _ R1).
Qed.

(** ** The block bitmap *)

(** Block [b] is in use according to the bitmap [d]. *)
Definition used (d : list Z) (b : Z) : bool := Z.testbit (bit_byte d b) (b mod 8).

Lemma land_mask x b : (Z.land x (bit_mask b) =? 0) = negb (Z.testbit x (b mod 8)).
Proof.
  unfold bit_mask. rewrite Z.shiftl_1_l. assert (Hm : 0 <= b mod 8) by (apply Z.mod_pos_bound; lia).
  assert (E : Z.land x (2 ^ (b mod 8)) = if Z.testbit x (b mod 8) then 2 ^ (b mod 8) else 0).
  { apply Z.bits_inj'. intros j Hj. rewrite Z.land_spec, Z.pow2_bits_eqb by done.
    destruct (Z.eqb_spec (b mod 8) j) as [->|Hne].
    - destruct (Z.testbit x j); [by rewrite Z.pow2_bits_true by lia|by rewrite Z.bits_0].
    - rewrite andb_false_r. destruct (Z.testbit x (b mod 8)); [|by rewrite Z.bits_0].
      by rewrite Z.pow2_bits_false by lia. }
  rewrite E. destruct (Z.testbit x (b mod 8)); [|done]. apply Z.eqb_neq. pose proof (Z.pow_pos_nonneg 2 (b mod 8)). lia.
Qed.

Lemma balloc_scan_spec n d b bi size r : balloc_scan n d b bi size = r -> 
  match r with
  | Some x => bi <= x < bi + Z.of_nat n /\ b + x < size /\ used d x = false /\
              (forall j, bi <= j < x -> used d j = true)
  | None => forall j, bi <= j < bi + Z.of_nat n -> b + j < size -> used d j = true
  end.
Proof.
  revert bi. induction n as [|n IH]; intros bi; cbn [balloc_scan]; [intros <- j; lia|].
  rewrite land_mask. change (Z.testbit (bit_byte d bi) (bi mod 8)) with (used d bi).
  destruct (Z.ltb_spec (b + bi) size) as [Hs|Hs]; [|intros <- j; lia].
  destruct (used d bi) eqn:Hu; cbn [negb]; [intros Hr; apply IH in Hr|intros <-; split_and!; try lia; done].
  assert (Hext : forall j, bi <= j -> (bi + 1 <= j -> used d j = true) -> used d j = true).
  { intros j Hj H. destruct (decide (j = bi)) as [->|]; [done|apply H; lia]. }
  destruct r as [x|].
  - destruct Hr as (R1 & R2 & R3 & R4). split_and!; try lia; try done.
    intros j Hj. apply Hext; [lia|]. intros. apply R4. lia.
  - intros j Hj Hb. apply Hext; [lia|]. intros. apply Hr; lia.
Qed.

Lemma bit_byte_insert d b c x : 0 <= b -> 0 <= c -> b / 8 < Z.of_nat (length d) ->
  bit_byte (<[Z.to_nat (b / 8) := x]> d) c = if decide (c / 8 = b / 8) then x else bit_byte d c.
Proof.
  intros Hb Hc Hl. unfold bit_byte. rewrite !nth_lookup.
  assert (0 <= b / 8) by (apply Z.div_pos; lia). assert (0 <= c / 8) by (apply Z.div_pos; lia).
  case_decide as E.
  - rewrite E, list_lookup_insert_eq; [done|lia].
  - rewrite list_lookup_insert_ne; [done|lia].
Qed.

Lemma same_bit b c : c / 8 = b / 8 -> (b mod 8 =? c mod 8) = bool_decide (c = b).
Proof.
  intros E. pose proof (Z.div_mod b 8). pose proof (Z.div_mod c 8).
  apply eq_true_iff_eq. rewrite Z.eqb_eq, bool_decide_eq_true. lia.
Qed.

Lemma used_mark d b c : 0 <= b -> 0 <= c -> b / 8 < Z.of_nat (length d) ->
  used (mark_bit b d) c = bool_decide (c = b) || used d c.
Proof.
  intros Hb Hc Hl. unfold used, mark_bit. rewrite bit_byte_insert by done. case_decide as E.
  - rewrite Z.lor_spec. unfold bit_mask. rewrite Z.shiftl_1_l.
    rewrite Z.pow2_bits_eqb by (apply Z.mod_pos_bound; lia).
    unfold bit_byte. rewrite E. rewrite orb_comm. f_equal.
    by apply same_bit.
  - rewrite bool_decide_eq_false_2 by congruence. done.
Qed.

Lemma used_clear d b c : 0 <= b -> 0 <= c -> b / 8 < Z.of_nat (length d) ->
  used (clear_mark b d) c = negb (bool_decide (c = b)) && used d c.
Proof.
  intros Hb Hc Hl. unfold used, clear_mark. rewrite bit_byte_insert by done. case_decide as E.
  - rewrite Z.ldiff_spec. unfold bit_mask. rewrite Z.shiftl_1_l.
    rewrite Z.pow2_bits_eqb by (apply Z.mod_pos_bound; lia).
    unfold bit_byte. rewrite E. rewrite andb_comm. f_equal. f_equal.
    by apply same_bit.
  - rewrite bool_decide_eq_false_2 by congruence. done.
Qed.

(** [m] panics with [s], the environment taking only turns of [T] before. *)
Definition fails {A} (T : turn) (m : M A) (s : string) (k : kernel) : Prop :=
  exists ds, Forall T ds /\ forall e, exists k', m (ds ++ e) k = Panic s k'.

Lemma fails_panic {A} T s k : fails T (panic s : M A) s k.
Proof. exists []. split; [done|]. intros e. by exists k. Qed.

Lemma fails_bind_wp {A B} T (m : M A) (f : A -> M B) s k :
  wp T m (fun a k' => fails T (f a) s k') k -> fails T (bind m f) s k.
Proof.
  intros (ds & a & k1 & Hds & Hm & ds2 & Hds2 & Hf). exists (ds ++ ds2). split; [by apply Forall_app|].
  intros e. destruct (Hf e) as [k2 E]. exists k2. rewrite <- app_assoc. unfold bind. by rewrite Hm.
Qed.

(** ** [balloc] and [bfree] *)

Definition the_sb (k : kernel) : superblock := fs_sb (k_fs k).
Definition bitmap (k : kernel) : list Z := view k (sb_bmapstart (the_sb k)).

(** The superblock of a disk of at most [FSSIZE] blocks, all of whose bits
    are in one block, with the log and the bitmap itself marked as in use. *)
Record bitmap_ok (k : kernel) (st : Z) : Prop := {
  bm_size : 0 < sb_size (the_sb k) <= FSSIZE;
  bm_start : 0 <= sb_bmapstart (the_sb k) < FSSIZE;
  bm_log : ~ in_log st (sb_bmapstart (the_sb k));
  bm_meta b : 0 <= b < sb_size (the_sb k) -> in_log st b \/ b = sb_bmapstart (the_sb k) ->
              used (bitmap k) b = true }.

Lemma BBLOCK_one k st b : bitmap_ok k st -> 0 <= b < sb_size (the_sb k) ->
  BBLOCK b (the_sb k) = sb_bmapstart (the_sb k).
Proof.
  intros [H1 H2 _ _] Hb. unfold BBLOCK. rewrite Z.div_small by (unfold BPB, BSIZE, FSSIZE in *; lia).
  apply u32_small. unfold FSSIZE in *. lia.
Qed.

Lemma bitmap_blocks k st : bitmap_ok k st ->
  map (fun i => i * BPB) (seqZ 0 ((sb_size (the_sb k) + BPB - 1) / BPB)) = [0].
Proof.
  intros [H1 _ _ _]. replace ((sb_size (the_sb k) + BPB - 1) / BPB) with 1; [done|].
  unfold BPB, BSIZE, FSSIZE in *. apply (Z.div_unique _ _ _ (sb_size (the_sb k) - 1)); lia.
Qed.

Lemma length_mark b d : length (mark_bit b d) = length d.
Proof. apply length_insert. Qed.

Lemma length_clear b d : length (clear_mark b d) = length d.
Proof. apply length_insert. Qed.

Lemma length_logged bl n : (length (logged bl n) <= S (length bl))%nat.
Proof. unfold logged. case_decide; [lia|]. rewrite length_app. simpl. lia. Qed.

(** The buffers held across [balloc] are blocks in use. *)
Definition held_used (k : kernel) (H : gmap nat Z) : Prop :=
  forall b m, H !! b = Some m ->
    0 <= m < sb_size (the_sb k) /\ m <> sb_bmapstart (the_sb k) /\ used (bitmap k) m = true.

(** The part of [balloc] once the bitmap block has a free bit. *)
Lemma balloc_take_op bp bi st bl H (Q : Z -> kernel -> Prop) k :
  let n := sb_bmapstart (the_sb k) in
  in_op k st bl (<[bp := n]> H) -> H !! bp = None -> held_used k H -> bitmap_ok k st ->
  (length bl < 28)%nat -> (size H + length bl < 28)%nat ->
  0 <= bi < sb_size (the_sb k) -> used (bitmap k) bi = false ->
  (forall k', op_frame k k' -> in_op k' st (logged (logged bl n) bi) H ->
     (forall m, view k' m = with_block bi (repeat 0 (Z.to_nat BSIZE))
                              (with_block n (mark_bit bi (bitmap k)) (view k)) m) -> Q bi k') ->
  wp disk_turn (set_data bp (mark_bit bi) ;; log_write bp ;; brelse bp ;;
                bzero ROOTDEV (0 + bi) ;; ret (Some (0 + bi)))
    (fun r k' => exists b, r = Some b /\ Q b k') k.
Proof.
  intros n Hi Hbp Hheld Hbm Hroom Hsz Hbi Hu HQ.
  assert (Hne : ~ in_log st bi /\ bi <> n).
  { split; intros Hx; rewrite (bm_meta k st Hbm bi Hbi) in Hu; try discriminate; [by left|by right]. }
  pose proof (length_logged bl n) as Hr.
  pose proof (bm_size _ _ Hbm). assert (Hn : n = sb_bmapstart (the_sb k)) by done. unfold FSSIZE in *.
  apply (change_then _ bp n (mark_bit bi) st bl (<[bp := n]> H));
    [done|apply lookup_insert_eq|apply Hbm|lia|rewrite length_mark; eapply view_length, Hi|].
  intros k1 Hfr1 Hi1 Hv1. rewrite delete_insert_id in Hi1 by done. rewrite Z.add_0_l.
  apply wp_bind, (bzero_op bi st (logged bl n) H);
    [done|unfold FSSIZE; lia|apply Hne|lia|intros b m Hb ->; apply Hheld in Hb as (_ & _ & Hb); congruence|unfold NBUF; lia|].
  intros k2 Hfr2 Hi2 Hv2. apply wp_ret. exists bi. split; [done|]. apply HQ; [by etransitivity|done|].
  intros m. rewrite Hv2. unfold with_block. case_decide; [done|]. apply Hv1.
Qed.

Lemma of_sb' k k' : op_frame k k' -> the_sb k' = the_sb k.
Proof. apply of_sb. Qed.

Lemma reads_bitmap k k' st : reads k k' -> bitmap_ok k st ->
  the_sb k' = the_sb k /\ bitmap k' = bitmap k /\ bitmap_ok k' st.
Proof.
  intros R Hbm. assert (E : the_sb k' = the_sb k) by apply (of_sb' _ _ (bio_op_frame _ _ (rd_frame _ _ R))).
  assert (Eb : bitmap k' = bitmap k) by (unfold bitmap; by rewrite E, (rd_view _ _ R)).
  split_and!; [done|done|]. split; rewrite ?E, ?Eb; apply Hbm.
Qed.

(** The loop of [balloc] over the blocks of the bitmap. *)
Definition balloc_search (sb : superblock) : M (option Z) :=
  for_each (map (fun i => i * BPB) (seqZ 0 ((sb_size sb + BPB - 1) / BPB))) (fun b =>
    let* bp := bread ROOTDEV (BBLOCK b sb) in
    let* d := get_data bp in
    match balloc_scan (Z.to_nat BPB) d b 0 (sb_size sb) with
    | Some bi =>
        set_data bp (mark_bit bi) ;;
        log_write bp ;;
        brelse bp ;;
        bzero ROOTDEV (b + bi) ;;
        ret (Some (b + bi))
    | None => brelse bp ;; ret None
    end).

Lemma balloc_search_op st bl H (Q : option Z -> kernel -> Prop) k :
  let n := sb_bmapstart (the_sb k) in
  let sz := sb_size (the_sb k) in
  in_op k st bl H -> held_used k H -> bitmap_ok k st -> (length bl < 28)%nat -> (size H + length bl < 28)%nat ->
  (forall b k', 0 <= b < sz -> used (bitmap k) b = false -> (forall j, 0 <= j < b -> used (bitmap k) j = true) ->
     op_frame k k' -> in_op k' st (logged (logged bl n) b) H ->
     (forall m, view k' m = with_block b (repeat 0 (Z.to_nat BSIZE))
                              (with_block n (mark_bit b (bitmap k)) (view k)) m) -> Q (Some b) k') ->
  ((forall j, 0 <= j < sz -> used (bitmap k) j = true) -> forall k', Q None k') ->
  wp disk_turn (balloc_search (the_sb k)) Q k.
Proof.
  intros n sz Hi Hheld Hbm Hroom Hsize HS HN. unfold balloc_search. rewrite (bitmap_blocks k st Hbm). cbn [for_each].
  pose proof (bm_size _ _ Hbm) as Hsz. apply wp_bind, wp_bind. rewrite (BBLOCK_one k st) by (done || lia).
  apply (bread_op n bl H); [apply Hi|apply Hbm|intros b m Hb; by apply Hheld in Hb as (_ & ? & _)|unfold NBUF; lia|].
  intros bp k1 Hbp R1 F1. apply wp_bind, (get_data_op bp n bl _ _ _ F1); [apply lookup_insert_eq|].
  rewrite (rd_view _ _ R1). change (view k n) with (bitmap k).
  destruct (reads_bitmap _ _ _ R1 Hbm) as (Es & Eb & Hbm1).
  assert (Hi1 : in_op k1 st bl (<[bp := n]> H)) by by eapply in_op_reads.
  assert (Hh1 : held_used k1 H) by (unfold held_used; by rewrite Es, Eb).
  assert (Hbig : sz < Z.of_nat (Z.to_nat BPB)) by (unfold sz, BPB, BSIZE, FSSIZE in *; lia).
  destruct (balloc_scan _ _ _ _ _) as [bi|] eqn:E; apply balloc_scan_spec in E.
  - destruct E as (E1 & E2 & E3 & E4). unfold n in Hi1. rewrite <- Es in Hi1, E2. rewrite <- Eb in E3.
    eapply wp_mono; [apply (balloc_take_op bp bi st bl H (fun b => Q (Some b)) k1); [done..|lia|done|]|].
    + intros k' Hfr Hi' Hv. rewrite Es in *. rewrite Eb in *. apply HS; try done; [lia| |].
      * etransitivity; [apply bio_op_frame, R1|done].
      * intros m. rewrite Hv. unfold with_block. by rewrite (rd_view _ _ R1).
    + intros r k' (b & -> & HQ). by apply wp_ret.
  - apply wp_bind, (brelse_op bp n bl _ _ _ F1); [apply lookup_insert_eq|]. intros k2 _ _.
    apply wp_ret, wp_ret, HN. intros j Hj. apply E; lia.
Qed.

Lemma all_used d n : forallb (used d) (seqZ 0 n) = true <-> forall b, 0 <= b < n -> used d b = true.
Proof.
  rewrite forallb_forall. split; intros H b Hb.
  - apply H, list_elem_of_In, elem_of_seqZ. lia.
  - apply list_elem_of_In, elem_of_seqZ in Hb. apply H. lia.
Qed.

(** C11: [balloc], in an operation of the log with room for two more blocks,
    returns the lowest block the bitmap has as free; afterwards the bitmap has
    exactly that block as in use in addition, the block is all zeroes, no
    other block has changed, and both blocks are recorded in the log for the
    commit.  When every block is in use it panics. *)
Theorem balloc_lowest_free st bl k :
  in_op k st bl ∅ -> bitmap_ok k st -> (length bl < 28)%nat ->
  let n := sb_bmapstart (the_sb k) in
  let size := sb_size (the_sb k) in
  if forallb (used (bitmap k)) (seqZ 0 size)
  then fails disk_turn (balloc ROOTDEV) "balloc: out of blocks" k
  else wp disk_turn (balloc ROOTDEV) (fun b k' =>
    0 <= b < size /\ used (bitmap k) b = false /\ (forall j, 0 <= j < b -> used (bitmap k) j = true) /\
    op_frame k k' /\ in_op k' st (logged (logged bl n) b) ∅ /\
    (forall j, 0 <= j < size -> used (bitmap k') j = bool_decide (j = b) || used (bitmap k) j) /\
    view k' b = repeat 0 (Z.to_nat BSIZE) /\
    (forall m, m <> b -> m <> n -> view k' m = view k m)) k.
Proof.
  intros Hi Hbm Hroom n size. destruct (forallb _ _) eqn:Ha.
  - rewrite all_used in Ha. unfold balloc. apply fails_bind_wp, wp_gets, fails_bind_wp.
    apply (balloc_search_op st bl ∅); [done..|by rewrite map_size_empty| |].
    + intros b k' Hb Hu. by rewrite Ha in Hu by done.
    + intros _ k'. apply fails_panic.
  - unfold balloc. apply wp_bind, wp_gets, wp_bind, (balloc_search_op st bl ∅); [done..|by rewrite map_size_empty| |].
    + intros b k' Hb Hu Hlow Hfr Hi' Hv. apply wp_ret. do 5 (split; [done|]). split_and!.
      * assert (b <> n) by (intros ->; rewrite (bm_meta k st Hbm) in Hu; [done|done|by right]).
        intros j Hj. unfold bitmap. rewrite (of_sb' _ _ Hfr), Hv. fold n. unfold with_block.
        rewrite decide_False, decide_True by done.
        pose proof (bm_size _ _ Hbm). apply used_mark; [lia|lia|].
        unfold bitmap. rewrite (view_length k _ _ _ (fst_bio _ _ _ (iop_st _ _ _ _ Hi))).
        apply Z.div_lt_upper_bound; unfold FSSIZE, BSIZE, size in *; lia.
      * rewrite Hv. unfold with_block. by rewrite decide_True.
      * intros m H1 H2. rewrite Hv. unfold with_block. by rewrite !decide_False.
    + intros H. by rewrite (proj2 (all_used _ size) H) in Ha.
Qed.

End fsops.
