(* ===== verification/FsRead.v ===== *)
(** * Reading the contents of an inode

    The contents of a file as a function of its offsets, and the proof that
    [readi] returns it: from the direct blocks, from the blocks listed in the
    indirect block, and across the boundaries between blocks. *)

From S2P Require Import Prelude Defs State Logic Memory Spinlock Sched Sleeplock Kalloc Vm PageTable UserMem Copy Bio BioList BioCache Virtio VirtioSpec BioSpec Log LogSpec LogOps Fs FsOps.

(** ** The contents of a file *)

(** The disk block of block [bn] of the file. *)
Definition file_block (k : kernel) (x : inode) (bn : Z) : Z :=
  if bn <? NDIRECT then addr_at x bn
  else getn 4 (view k (addr_at x NDIRECT)) (4 * (bn - NDIRECT)).

Definition file_byte (k : kernel) (x : inode) (i : Z) : Z :=
  nth (Z.to_nat (i mod BSIZE)) (view k (file_block k x (i / BSIZE))) 0.

(** Every block of the file is a block of the disk. *)
Record file_ok (k : kernel) (x : inode) : Prop := {
  fo_dev : i_dev x = ROOTDEV;
  fo_size : 0 <= i_size x <= MAXFILE * BSIZE;
  fo_block bn : 0 <= bn -> bn * BSIZE < i_size x -> 0 < file_block k x bn < FSSIZE;
  fo_indirect : NDIRECT * BSIZE < i_size x -> 0 < addr_at x NDIRECT < FSSIZE }.

Section read.
Context {D : DiskDriver} {DL : DiskLaw D} {L : Linker} {LO : LinkerOk L}.

Lemma reads_inode k k' ip : reads k k' -> inode_at k' ip = inode_at k ip.
Proof. intros R. unfold inode_at, inodes. by rewrite (bf_icache _ _ (rd_frame _ _ R)). Qed.

Lemma reads_block k k' x bn : reads k k' -> file_block k' x bn = file_block k x bn.
Proof. intros R. unfold file_block. by rewrite (rd_view _ _ R). Qed.

Lemma reads_file k k' x : reads k k' -> file_ok k x -> file_ok k' x.
Proof.
  intros R [F1 F2 F3 F4]. split; [done|done| |done]. intros bn. rewrite (reads_block _ _ _ _ R). apply F3.
Qed.

Lemma reads_byte k k' x i : reads k k' -> file_byte k' x i = file_byte k x i.
Proof. intros R. unfold file_byte. by rewrite (reads_block _ _ _ _ R), (rd_view _ _ R). Qed.

Lemma bmap_read ip bn bl (Q : Z -> kernel -> Prop) k :
  let x := inode_at k ip in
  fs_st k bl ∅ -> (length bl < NBUF)%nat -> file_ok k x -> 0 <= bn -> bn * BSIZE < i_size x ->
  (forall k', reads k k' -> fs_st k' bl ∅ -> Q (file_block k x bn) k') ->
  wp disk_turn (bmap ip bn) Q k.
Proof.
  intros x Hf Hl Hx Hbn Hs HQ. unfold bmap. apply wp_bind, wp_gets. fold x.
  destruct Hx as [F1 F2 F3 F4]. specialize (F3 bn Hbn Hs) as Hb. unfold file_block in Hb, HQ.
  destruct (Z.ltb_spec bn NDIRECT) as [Hd|Hd].
  - destruct (Z.eqb_spec (addr_at x bn) 0); [lia|]. apply wp_ret, HQ; done.
  - assert (Hind : 0 < addr_at x NDIRECT < FSSIZE) by (apply F4; unfold NDIRECT, BSIZE in *; lia).
    destruct (Z.ltb_spec (bn - NDIRECT) NINDIRECT) as [Hn|Hn];
      [|change NINDIRECT with 256 in *; change MAXFILE with 268 in *; unfold NDIRECT, BSIZE in *; lia].
    destruct (Z.eqb_spec (addr_at x NDIRECT) 0); [lia|]. apply wp_bind, wp_ret, wp_bind.
    rewrite F1. apply (bread_op (addr_at x NDIRECT) bl ∅); [done|lia|done|rewrite map_size_empty; lia|].
    intros b k1 _ R1 F1'. apply wp_bind, (get_data_op b (addr_at x NDIRECT) bl _ _ _ F1'); [apply lookup_insert_eq|].
    rewrite (rd_view _ _ R1). cbv zeta. destruct (Z.eqb_spec (getn 4 (view k (addr_at x NDIRECT)) (4 * (bn - NDIRECT))) 0); [lia|].
    apply wp_bind, (brelse_op b (addr_at x NDIRECT) bl _ _ _ F1'); [apply lookup_insert_eq|].
    intros k2 R2 F2'. rewrite delete_insert_id in F2' by done. apply wp_ret, HQ; [by etransitivity|done].
Qed.

(** ** Where the bytes go

    Reading a file changes the cache and the locks, and the memory the bytes
    are stored in. *)
Definition reads_mm (k k' : kernel) : Prop := reads k (set_mm (k_mm k) k').

Lemma set_mm_same k : set_mm (k_mm k) k = k.
Proof. by destruct k. Qed.

Lemma reads_in_mm k k' : reads k k' -> reads_mm k k'.
Proof. intros R. unfold reads_mm. by rewrite <- (bf_mm _ _ (rd_frame _ _ R)), set_mm_same. Qed.

#[export] Instance reads_mm_preorder : PreOrder reads_mm.
Proof.
  split; [intros k; by apply reads_in_mm|].
  intros k1 k2 k3 [[A1 A2 A3 A4 A5 A6 A7] A8 A9] [[B1 B2 B3 B4 B5 B6 B7] B8 B9]. split; [split| |].
  - by etransitivity.
  - done.
  - exact (eq_trans B3 A3).
  - cbn in *. rewrite <- A4. rewrite <- B4. done.
  - exact (eq_trans B5 A5).
  - exact (eq_trans B6 A6).
  - exact (eq_trans B7 A7).
  - exact (eq_trans B8 A8).
  - intros m. exact (eq_trans (B9 m) (A9 m)).
Qed.

Lemma only_mm_reads k k' : only_mm k k' -> reads_mm k k'.
Proof.
  intros [M1 M2 M3 M4 M5 M6]. split; [split| |]; cbn; [done|done|done| |by rewrite M4..| |].
  - rewrite M6. by destruct (k_ms k).
  - unfold the_disk. cbn. by rewrite M4.
  - intros m. unfold view, buf_at, bufs, the_disk. cbn. by rewrite M4.
Qed.

Lemma fs_st_mm k k' bl H : only_mm k k' -> fs_st k bl H -> fs_st k' bl H.
Proof.
  intros Hm [F1 F2 F3 F4]. pose proof Hm as [M1 M2 M3 M4 M5 M6].
  assert (bio_ok k' H (pinmap bl)) as Hb.
  { destruct k as [sy mm fs fi ms], k' as [sy' mm' fs' fi' ms']. cbn in *. subst.
    apply (bio_ok_sync (mk_kernel sy mm' fs fi ms) sy'); [by apply quiet_run_pid|].
    destruct F2 as [[l []] H2 H3 H4 H5 H6 H7 H8 H9]. split; try done. exists l. by split. }
  split; [by eapply quiet_calm|done|done|]. intros n Hn. specialize (F4 n Hn).
  unfold view, buf_at, bufs, the_disk in *. by rewrite M4.
Qed.

Lemma reads_mm_inode k k' ip : reads_mm k k' -> inode_at k' ip = inode_at k ip.
Proof. intros R. exact (reads_inode _ _ ip R). Qed.
Lemma reads_mm_byte k k' x i : reads_mm k k' -> file_byte k' x i = file_byte k x i.
Proof. intros R. exact (reads_byte _ _ x i R). Qed.
Lemma reads_mm_file k k' x : reads_mm k k' -> file_ok k x -> file_ok k' x.
Proof. intros R F. destruct (reads_file _ _ _ R F) as [F1 F2 F3 F4]. by split. Qed.

(** The address space of the running process is no business of the cache. *)
Lemma uspace_reads k k' T root l p sp :
  reads k k' -> uspace k T root l p sp ->
  uspace k' T root l p sp /\ p_sz (proc_at k' p) = p_sz (proc_at k p).
Proof.
  intros R [U1 U2 U3 U4 U5 U6 U7]. pose proof (rd_frame _ _ R) as [Q1 Q2 _ _ _ _ _].
  assert (woken (proc_at k p) (proc_at k' p)) as Hw by by apply quiet_woken.
  assert (p_trapframe (proc_at k' p) = p_trapframe (proc_at k p) /\ p_sz (proc_at k' p) = p_sz (proc_at k p) /\
    p_pagetable (proc_at k' p) = p_pagetable (proc_at k p)) as (E1 & E2 & E3)
    by by destruct Hw as [->|[_ ->]].
  split; [|done]. split; rewrite ?E1, ?E3; [eauto with kern|eauto with kern|by eapply space_ok_mm| |done|by eapply fresh_mm|].
  - by rewrite (q_proc _ _ Q1).
  - unfold ram in *. by rewrite Q2.
Qed.

Section sink.
Context (T : gmap (list Z) Z) (root : Z) (l : list Z) (p : nat) (sp : Z) (k0 : kernel) (d0 : dest) (bytes : list Z).

(** There is room for the bytes. *)
Definition dest_ok : Prop :=
  match d0 with
  | To_user va => uspace k0 T root l p sp /\
      reach_range (ram k0) T (p_sz (proc_at k0 p)) sp va (Z.of_nat (length bytes))
  | To_phys pa => KERNBASE <= pa /\ pa + Z.of_nat (length bytes) <= PHYSTOP
  | To_local buf i => 0 <= i
  end.

(** [d] is the rest of the destination once [done] is stored. *)
Definition dest_at (done : list Z) (k : kernel) (d : dest) : Prop :=
  let m := Z.of_nat (length done) in
  match d0 with
  | To_user va => d = To_user (va + m) /\ exists T1 l1, uspace k T1 root l1 p sp /\
      p_sz (proc_at k p) = p_sz (proc_at k0 p) /\ stored (ram k0) T va done (ram k) T1
  | To_phys pa => d = To_phys (pa + m) /\ k_mm k = set_ram (wr (ram k0) pa done) (k_mm k0)
  | To_local buf i => d = To_local (splice buf (Z.to_nat i) done) (i + m) /\ k_mm k = k_mm k0
  end.

(** Only a user destination can fail: memory ran out under a missing page. *)
Definition dest_failed (k : kernel) : Prop :=
  match d0 with
  | To_user va => exists T1 l1 j, space_ok k T1 root l1 /\ (length l1 <= 1)%nat /\
      ~ user_range (ram k0) T va (Z.of_nat (length bytes)) /\ (j < length bytes)%nat /\
      stored (ram k0) T va (take j bytes) (ram k) T1
  | _ => False
  end.

Lemma dest_at_start : dest_ok -> dest_at [] k0 d0.
Proof.
  unfold dest_ok, dest_at. destruct d0 as [va|pa|buf i]; cbn [length Z.of_nat]; rewrite Z.add_0_r.
  - intros [Hu _]. split; [done|]. exists T, l. split_and!; [done|done|apply stored_nil].
  - intros _. split; [done|]. unfold ram. by destruct (k_mm k0).
  - done.
Qed.

Lemma dest_at_reads done k k' d : reads k k' -> dest_at done k d -> dest_at done k' d.
Proof.
  intros R. pose proof (bf_mm _ _ (rd_frame _ _ R)) as Em. unfold dest_at. destruct d0 as [va|pa|buf i].
  - intros (-> & T1 & l1 & Hu & Hs & Hst). split; [done|]. exists T1, l1.
    destruct (uspace_reads _ _ _ _ _ _ _ R Hu) as [Hu' ->]. split_and!; [done..|].
    unfold ram at 2. by rewrite Em.
  - intros [-> E]. by rewrite Em.
  - intros [-> E]. by rewrite Em.
Qed.

Lemma dest_failed_reads k k' : reads k k' -> dest_failed k -> dest_failed k'.
Proof.
  intros R. pose proof (bf_mm _ _ (rd_frame _ _ R)) as Em. unfold dest_failed. destruct d0 as [va|pa|buf i]; try done.
  intros (T1 & l1 & j & H1 & H2 & H3 & H4 & H5). exists T1, l1, j. split_and!; [by eapply space_ok_mm|done..|].
  unfold ram at 2. by rewrite Em.
Qed.

(** One chunk for the user. *)
Lemma copyout_dest_rule va done chunk rest bl H (Q : Z -> kernel -> Prop) k :
  d0 = To_user va -> bytes = done ++ chunk ++ rest -> fs_st k bl H -> dest_ok ->
  dest_at done k (To_user (va + Z.of_nat (length done))) ->
  (forall k', reads_mm k k' -> fs_st k' bl H ->
     dest_at (done ++ chunk) k' (dest_add (To_user (va + Z.of_nat (length done))) (Z.of_nat (length chunk))) -> Q 0 k') ->
  (forall k', reads_mm k k' -> fs_st k' bl H -> dest_failed k' -> Q (-1) k') ->
  wp disk_turn (copyout root (va + Z.of_nat (length done)) chunk) Q k.
Proof.
  intros E0 Eb Hf Hok Hat HQ Hfail.
  assert (Z.of_nat (length done) + Z.of_nat (length chunk) <= Z.of_nat (length bytes)) as Hlen
    by (rewrite Eb, !length_app; lia).
  unfold dest_at, dest_ok in Hat, Hok. rewrite E0 in Hat, Hok.
  destruct Hat as (_ & T1 & l1 & Hu & Hsz & Hst), Hok as [_ Hrr].
  apply (copyout_reach_rule T1 root l1 p sp); [done|rewrite Hsz; eapply reach_after; [done|done|lia|lia]| |].
  - intros j T2 l2 k2 Hnu Hj Hm Hs2 Hl2 Hst2. apply Hfail; [by apply only_mm_reads|by eapply fs_st_mm|].
    unfold dest_failed. rewrite E0. exists T2, l2, (length done + j)%nat. split_and!; [done|done| |lia|].
    + intros (V1 & V2 & V3). apply Hnu. split_and!; [lia|lia|]. intros a Ha.
      apply (sd_keep _ _ _ _ _ _ Hst a). split; [lia|]. apply V3. lia.
    + rewrite Eb, take_app_add, take_app_le by lia. by eapply stored_trans.
  - intros T2 l2 k2 Hm Hu2 Hst2. apply HQ; [by apply only_mm_reads|by eapply fs_st_mm|].
    unfold dest_at. rewrite E0. cbn [dest_add]. destruct Hrr as (V1 & V2 & _).
    split; [f_equal; rewrite length_app, u64_id; pose proof MAXVA_val; lia|].
    exists T2, l2. split_and!; [done| |by eapply stored_trans]. unfold proc_at in *. by rewrite (om_procs _ _ Hm).
Qed.

(** One chunk. *)
Lemma either_copyout_rule done chunk rest bl H d (Q : Z * dest -> kernel -> Prop) k :
  bytes = done ++ chunk ++ rest -> fs_st k bl H -> dest_ok -> dest_at done k d ->
  (forall k' d', reads_mm k k' -> fs_st k' bl H ->
     dest_at (done ++ chunk) k' (dest_add d' (Z.of_nat (length chunk))) -> Q (0, d') k') ->
  (forall k' d', reads_mm k k' -> fs_st k' bl H -> dest_failed k' -> Q (-1, d') k') ->
  wp disk_turn (either_copyout d chunk) Q k.
Proof.
  intros Eb Hf Hok Hat HQ Hfail. unfold either_copyout. apply wp_bind, wp_myproc; [apply ca_ok, Hf|].
  intros s Hs Hp. assert (R : reads k (set_sy s k)) by by split. apply (dest_at_reads _ _ _ _ R) in Hat.
  assert (fs_st (set_sy s k) bl H) as Hf1.
  { eapply fs_st_bio_frame; [done|apply R| |done|done]. apply bio_ok_sync; [by apply quiet_run_pid|apply Hf]. }
  pose proof (reads_in_mm _ _ R) as R1. rewrite <- (q_proc _ _ Hs). change s with (k_sy (set_sy s k)) at 1.
  set (k1 := set_sy s k) in *.
  destruct d0 as [va|pa|buf i] eqn:E0; pose proof Hat as Hat'; unfold dest_at in Hat; rewrite E0 in Hat.
  - destruct Hat as (-> & T1 & l1 & Hu & _). rewrite (us_proc _ _ _ _ _ _ Hu).
    apply wp_bind, wp_ret, wp_bind, wp_gets, wp_bind. rewrite (us_root _ _ _ _ _ _ Hu).
    apply (copyout_dest_rule va done chunk rest bl H); [done..| |]; intros k2 R2 F2 H2;
      [apply wp_ret, HQ|apply wp_ret, Hfail]; done || (by etransitivity).
  - unfold dest_ok in Hok. rewrite E0 in Hok. destruct Hat as [-> Em].
    assert (PHYSTOP = 0x88000000) as EP by done. rewrite Eb, !length_app in Hok.
    apply wp_bind, wp_store_bytes; [lia|lia|].
    pose proof (only_mm_ram (wr (ram k1) (pa + Z.of_nat (length done)) chunk) k1) as Hm.
    apply wp_ret, HQ; [by etransitivity; [|apply only_mm_reads]|by eapply fs_st_mm|].
    unfold dest_at. rewrite E0. cbn [dest_add]. rewrite length_app, u64_id by (unfold KERNBASE in *; lia).
    split; [f_equal; lia|]. unfold with_ram, ram in *. kproj. rewrite Em. cbn. by rewrite wr_app.
  - unfold dest_ok in Hok. rewrite E0 in Hok. destruct Hat as [-> Em]. apply wp_ret, HQ; [done..|].
    unfold dest_at. rewrite E0. split; [|done]. cbn [dest_add].
    rewrite splice_app, length_app, Nat2Z.inj_add. f_equal; [f_equal|]; lia.
Qed.

End sink.

(** What one iteration reads is what the file has there. *)
Lemma chunk_bytes k x off m d :
  0 <= off -> 0 <= m <= BSIZE - off mod BSIZE -> d = view k (file_block k x (off / BSIZE)) ->
  length d = Z.to_nat BSIZE ->
  take (Z.to_nat m) (drop (Z.to_nat (off mod BSIZE)) d) = map (file_byte k x) (seqZ off m).
Proof.
  intros Ho Hm -> Hl. apply list_eq. intros i. assert (0 < BSIZE) by done.
  pose proof (Z.mod_pos_bound off BSIZE).
  destruct (decide (i < Z.to_nat m)%nat) as [Hi|Hi].
  - rewrite lookup_take_lt, lookup_drop by done. rewrite list_lookup_fmap, lookup_seqZ_lt by lia. cbn [fmap option_fmap option_map].
    unfold file_byte.
    assert (Hr : 0 <= off mod BSIZE + Z.of_nat i < BSIZE) by lia.
    assert (E : off + Z.of_nat i = BSIZE * (off / BSIZE) + (off mod BSIZE + Z.of_nat i))
      by (rewrite (Z.div_mod off BSIZE) at 1 by lia; lia).
    rewrite <- (Z.div_unique (off + Z.of_nat i) BSIZE _ _ (or_introl Hr) E).
    rewrite <- (Z.mod_unique (off + Z.of_nat i) BSIZE _ _ (or_introl Hr) E).
    rewrite nth_lookup, Z2Nat.inj_add, Nat2Z.id by lia.
    destruct (lookup_lt_is_Some_2 (view k (file_block k x (off / BSIZE))) (Z.to_nat (off mod BSIZE) + i)) as [y Hy]; [lia|].
    by rewrite Hy.
  - rewrite lookup_take_ge by lia. symmetry. apply lookup_ge_None. rewrite length_map, length_seqZ. lia.
Qed.

Lemma next_block off m rest :
  0 <= off -> m = Z.min rest (BSIZE - off mod BSIZE) -> 0 < rest - m -> (off + m) mod BSIZE = 0 /\ m = BSIZE - off mod BSIZE.
Proof.
  intros Ho Hm Hr. assert (E : m = BSIZE - off mod BSIZE) by lia. split; [|done].
  assert (0 < BSIZE) by done. pose proof (Z.div_mod off BSIZE).
  symmetry. apply (Z.mod_unique _ _ (off / BSIZE + 1)); lia.
Qed.

(** The block of the file at [off], in a buffer. *)
Lemma read_block ip off bl {A} (f : nat -> list Z -> M A) (Q : A -> kernel -> Prop) k :
  let x := inode_at k ip in
  let a := file_block k x (off / BSIZE) in
  fs_st k bl ∅ -> (length bl < NBUF)%nat -> file_ok k x -> 0 <= off < i_size x ->
  (forall b k', reads k k' -> fs_st k' bl (<[b := a]> ∅) -> wp disk_turn (f b (view k a)) Q k') ->
  wp disk_turn (let* addr := bmap ip (off / BSIZE) in
                let* x := get_inode ip in
                let* bp := bread (i_dev x) addr in
                let* d := get_data bp in f bp d) Q k.
Proof.
  intros x a Hf Hl Hx Ho HQ. assert (HB : 0 < BSIZE) by done.
  pose proof (Z.div_mod off BSIZE). pose proof (Z.mod_pos_bound off BSIZE HB).
  assert (0 <= off / BSIZE) by (apply Z.div_pos; lia). assert (Hin : off / BSIZE * BSIZE < i_size x) by lia.
  apply wp_bind, (bmap_read ip (off / BSIZE) bl); try done. fold x a. intros k1 R1 F1.
  apply wp_bind, wp_gets. rewrite (reads_inode _ _ ip R1). fold x. rewrite (fo_dev _ _ Hx).
  pose proof (fo_block _ _ Hx (off / BSIZE) ltac:(lia) Hin) as Hblk. fold a in Hblk.
  apply wp_bind, (bread_op a bl ∅); [done|lia|done|rewrite map_size_empty; lia|]. intros b k2 _ R2 F2.
  apply wp_bind, (get_data_op b a bl _ _ _ F2); [apply lookup_insert_eq|].
  rewrite (rd_view _ _ R2), (rd_view _ _ R1). apply HQ; [by etransitivity|done].
Qed.

Section loop.
Context (T : gmap (list Z) Z) (root : Z) (l : list Z) (p : nat) (sp : Z) (k0 : kernel) (d0 : dest).
Context (ip : nat) (off0 n : Z) (bl : list Z).

Notation x := (inode_at k0 ip).
Notation part tot := (map (file_byte k0 x) (seqZ off0 tot)).

Hypotheses (Hl : (length bl < NBUF)%nat) (Hx : file_ok k0 x) (Ho : 0 <= off0) (Hend : off0 + n <= i_size x)
  (Hok : dest_ok T root l p sp k0 d0 (part n)).

Lemma readi_loop_read fuel tot d (Q : Z * list Z -> kernel -> Prop) k :
  reads_mm k0 k -> fs_st k bl ∅ -> 0 <= tot <= n ->
  (0 < fuel)%nat -> (tot < n -> (off0 + tot) mod BSIZE + (n - tot) <= BSIZE * (Z.of_nat fuel - 1)) ->
  dest_at T root p sp k0 d0 (part tot) k d ->
  (forall k' d', reads_mm k0 k' -> fs_st k' bl ∅ -> dest_at T root p sp k0 d0 (part n) k' d' ->
     Q (n, dest_bytes d') k') ->
  (forall k' d', reads_mm k0 k' -> fs_st k' bl ∅ -> dest_failed T root k0 d0 (part n) k' -> Q (-1, dest_bytes d') k') ->
  wp disk_turn (readi_loop fuel ip d (off0 + tot) n tot) Q k.
Proof.
  revert tot d k. induction fuel as [|fuel IH]; intros tot d k R0 Hf Ht Hfu Hfuel Hat HQ Hfail; [lia|].
  cbn [readi_loop]. destruct (Z.ltb_spec tot n) as [Hlt|Hge].
  2:{ apply wp_ret. replace tot with n in * by lia. by apply HQ. }
  set (off := off0 + tot) in *. pose proof (reads_mm_inode _ _ ip R0) as Ei. cbv zeta.
  assert (HB : 0 < BSIZE) by done. pose proof (Z.mod_pos_bound off BSIZE HB) as Hmod.
  apply (read_block ip off bl); rewrite ?Ei; [done|done|by eapply reads_mm_file|lia|]. intros b k2 R2 F2.
  set (a := file_block k x (off / BSIZE)) in *. set (m := Z.min (n - tot) (BSIZE - off mod BSIZE)).
  rewrite (chunk_bytes k x off m), (map_ext _ _ (fun i => reads_mm_byte _ _ x i R0))
    by (done || lia || (eapply view_length, Hf)).
  assert (R02 : reads_mm k0 k2) by (etransitivity; [done|]; by apply reads_in_mm).
  assert (part tot ++ map (file_byte k0 x) (seqZ off m) = part (tot + m)) as Ea by (unfold off; by rewrite map_seqZ_app by lia).
  apply wp_bind, (either_copyout_rule T root l p sp k0 d0 (part n) (part tot) _
    (map (file_byte k0 x) (seqZ (off0 + (tot + m)) (n - (tot + m)))) bl (<[b := a]> ∅) d);
    [|done|done|by eapply dest_at_reads| |].
  - rewrite app_assoc, Ea, <- map_seqZ_app by lia. do 2 f_equal. lia.
  - intros k3 d' R3 F3 Hat3. cbn [fst snd]. change (0 =? -1) with false. cbv iota.
    rewrite Ea, length_map, length_seqZ, Z2Nat.id in Hat3 by lia.
    apply wp_bind, (brelse_op b a bl _ _ _ F3); [apply lookup_insert_eq|]. intros k4 R4 F4.
    rewrite delete_insert_id in F4 by done.
    assert (Hs : i_size x <= 274432) by apply (fo_size _ _ Hx).
    rewrite u32_small by lia. replace (off + m) with (off0 + (tot + m)) by (unfold off; lia).
    apply IH; [|done|lia|lia| |by eapply dest_at_reads|done|done].
    + do 2 (etransitivity; [done|]). by apply reads_in_mm.
    + intros Hlt'. replace (off0 + (tot + m)) with (off + m) by (unfold off; lia).
      destruct (next_block off m (n - tot)) as [E1 E2]; [lia..|]. rewrite E1. lia.
  - intros k3 d' R3 F3 Hf3. change (-1 =? -1) with true. cbv iota.
    apply wp_bind, (brelse_op b a bl _ _ _ F3); [apply lookup_insert_eq|]. intros k4 R4 F4.
    rewrite delete_insert_id in F4 by done. apply wp_ret, Hfail; [|done|by eapply dest_failed_reads].
    do 2 (etransitivity; [done|]). by apply reads_in_mm.
Qed.

End loop.

(** How many bytes there are to read. *)
Definition read_len (x : inode) (off n : Z) : Z :=
  if (i_size x <? off) || (2 ^ 32 <=? off + n) then 0 else Z.min n (i_size x - off).

(** [readi] with destination [d] delivers [bytes]. *)
Definition delivered (T : gmap (list Z) Z) (root : Z) (k : kernel) (d : dest) (bytes : list Z)
    (r : Z * list Z) (k' : kernel) : Prop :=
  match d with
  | To_local buf i => r = (Z.of_nat (length bytes), splice buf (Z.to_nat i) bytes) /\ k_mm k' = k_mm k
  | To_phys pa => r.1 = Z.of_nat (length bytes) /\ k_mm k' = set_ram (wr (ram k) pa bytes) (k_mm k)
  | To_user va => exists T' l', space_ok k' T' root l' /\
      (r.1 = Z.of_nat (length bytes) /\ stored (ram k) T va bytes (ram k') T' \/
       r.1 = -1 /\ ~ user_range (ram k) T va (Z.of_nat (length bytes)) /\ (length l' <= 1)%nat /\
         exists j, (j < length bytes)%nat /\ stored (ram k) T va (take j bytes) (ram k') T')
  end.

Lemma delivered_all T root p sp k d bytes k' d' :
  dest_at T root p sp k d bytes k' d' -> delivered T root k d bytes (Z.of_nat (length bytes), dest_bytes d') k'.
Proof.
  unfold dest_at, delivered. destruct d as [va|pa|buf i].
  - intros (-> & T1 & l1 & Hu & _ & Hst). exists T1, l1. split; [apply Hu|]. by left.
  - by intros [-> ->].
  - by intros [-> ->].
Qed.

Lemma delivered_failed T root k d bytes k' l :
  dest_failed T root k d bytes k' -> delivered T root k d bytes (-1, l) k'.
Proof.
  unfold dest_failed, delivered. destruct d as [va|pa|buf i]; [|done..].
  intros (T1 & l1 & j & H1 & H2 & H3 & H4 & H5). exists T1, l1. split; [done|]. right.
  split_and!; [done..|]. by exists j.
Qed.

Lemma readi_rule T root l p sp ip d off n bl (Q : Z * list Z -> kernel -> Prop) k :
  let x := inode_at k ip in
  let bytes := map (file_byte k x) (seqZ off (read_len x off n)) in
  fs_st k bl ∅ -> (length bl < NBUF)%nat -> file_ok k x -> 0 <= off < 2 ^ 32 -> 0 <= n < 2 ^ 32 ->
  dest_ok T root l p sp k d bytes ->
  (forall r k', reads_mm k k' -> fs_st k' bl ∅ -> delivered T root k d bytes r k' -> Q r k') ->
  wp disk_turn (readi ip d off n) Q k.
Proof.
  intros x bytes Hf Hl Hx Ho Hn Hok HQ. unfold readi. apply wp_bind, wp_gets. fold x.
  assert (Hs : 0 <= i_size x <= 274432) by apply (fo_size _ _ Hx).
  assert (Hw : u32 (off + n) = if 2 ^ 32 <=? off + n then off + n - 2 ^ 32 else off + n).
  { unfold u32. destruct (Z.leb_spec (2 ^ 32) (off + n)).
    - symmetry. apply (Z.mod_unique _ _ 1); lia.
    - apply Z.mod_small. lia. }
  assert (read_len x off n = 0 -> wp disk_turn (ret (0, dest_bytes d)) Q k) as H0.
  { intros E. unfold bytes in *. rewrite E in *. apply wp_ret, HQ; [done..|].
    exact (delivered_all _ _ _ _ _ _ _ _ _ (dest_at_start _ _ _ _ _ _ _ _ Hok)). }
  rewrite Hw, !Z.gtb_ltb. unfold read_len in *. destruct (Z.ltb_spec (i_size x) off) as [Hp|Hp]; cbn [orb] in *.
  { by apply H0. }
  destruct (Z.leb_spec (2 ^ 32) (off + n)) as [Hov|Hov].
  { destruct (Z.ltb_spec (off + n - 2 ^ 32) off); [|lia]. by apply H0. }
  destruct (Z.ltb_spec (off + n) off); [lia|].
  assert (E : (if i_size x <? off + n then u32 (i_size x - off) else n) = Z.min n (i_size x - off)).
  { destruct (Z.ltb_spec (i_size x) (off + n)); [rewrite u32_small|]; lia. }
  cbv zeta. rewrite E. set (len := Z.min n (i_size x - off)) in *. assert (Hlen : 0 <= len) by lia.
  rewrite <- (Z.add_0_r off) at 1.
  apply (readi_loop_read T root l p sp k d ip off len bl); fold x; try done; try lia.
  - unfold io_fuel. lia.
  - intros _. unfold io_fuel, BSIZE. pose proof (Z.div_mod len 1024). pose proof (Z.mod_pos_bound len 1024).
    pose proof (Z.mod_pos_bound (off + 0) 1024). assert (0 <= len / 1024) by (apply Z.div_pos; lia). lia.
  - exact (dest_at_start _ _ _ _ _ _ _ _ Hok).
  - intros k' d' R F Hat. apply HQ; [done..|]. apply delivered_all in Hat.
    unfold bytes in *. by rewrite length_map, length_seqZ, Z2Nat.id in Hat by lia.
  - intros k' d' R F Hat. apply HQ; [done..|]. by apply delivered_failed.
Qed.

(** [readi] of a whole variable of [n] bytes. *)
Lemma readi_op ip off n bl (Q : Z * list Z -> kernel -> Prop) k :
  let x := inode_at k ip in
  fs_st k bl ∅ -> (length bl < NBUF)%nat -> file_ok k x -> 0 <= off -> 0 <= n -> off + n <= i_size x ->
  (forall k', reads k k' -> fs_st k' bl ∅ -> Q (n, map (file_byte k x) (seqZ off n)) k') ->
  wp disk_turn (readi ip (To_var n) off n) Q k.
Proof.
  intros x Hf Hl Hx Ho Hn He HQ. assert (Hs : 0 <= i_size x <= 274432) by apply (fo_size _ _ Hx).
  apply (readi_rule ∅ 0 [] 0 0 ip (To_var n) off n bl); fold x; [done|done|done|lia|lia|done|].
  unfold read_len. rewrite (proj2 (Z.ltb_ge _ _)), (proj2 (Z.leb_gt _ _)), Z.min_l by lia. cbn [orb].
  intros r k' R F [-> Em]. unfold reads_mm in R. rewrite <- Em, set_mm_same in R.
  change (Z.to_nat 0) with 0%nat. rewrite length_map, length_seqZ, splice_all by (rewrite repeat_length, length_map, length_seqZ; lia).
  rewrite Z2Nat.id by lia. by apply HQ.
Qed.

(** C5: [readi], on a file whose blocks are all allocated, delivers the bytes
    the file has from the offset on, as many as asked for but none past its
    end, through direct and indirect blocks and across their boundaries; an
    offset past the end, or a range that wraps around, reads nothing.  In a
    variable of the kernel and in physical memory the bytes are found from
    the given place on and nothing else changes.  In the memory of the
    running process they are found at the given address, across its pages
    and those of its lazily grown heap, and its other bytes stay; the call
    can fail there only with a page missing and memory exhausted, with a
    prefix stored.  No block, and nothing else but the buffer cache,
    changes. *)
Theorem readi_contents T root l p sp ip d off n bl k :
  let x := inode_at k ip in
  let bytes := map (file_byte k x) (seqZ off (read_len x off n)) in
  fs_st k bl ∅ -> (length bl < NBUF)%nat -> file_ok k x -> 0 <= off < 2 ^ 32 -> 0 <= n < 2 ^ 32 ->
  dest_ok T root l p sp k d bytes ->
  wp disk_turn (readi ip d off n) (fun r k' =>
    delivered T root k d bytes r k' /\ reads_mm k k' /\ fs_st k' bl ∅) k.
Proof. intros x bytes Hf Hl Hx Ho Hn Hok. apply (readi_rule T root l p sp ip d off n bl); auto. Qed.

End read.

(** ** Example

    A disk with blocks 0 to 63 in use and a file of 12298 bytes: blocks 46 to
    57 directly, and block 59 through the indirect block 58.  Block 60 has the
    entries of a directory: inode 1 as ".", a free entry, inode 7 as "a". *)

Definition sample_dirents : list Z := [1; 0; 46] ++ repeat 0 29 ++ [7; 0; 97] ++ repeat 0 (Z.to_nat BSIZE - 35).

Definition sample_fs_disk : disk :=
  apply_writes [(45, repeat 255 8 ++ repeat 0 (Z.to_nat BSIZE - 8));
                (60, sample_dirents);
                (57, repeat 7 (Z.to_nat BSIZE));
                (58, le_bytes 4 59 ++ repeat 0 (Z.to_nat BSIZE - 4));
                (59, repeat 9 (Z.to_nat BSIZE))] (mk_disk ∅ []).
Definition sample_sb : superblock := mk_superblock FSMAGIC 1000 954 200 30 2 32 45.
Definition sample_file : inode :=
  set_i_addrs (seqZ 46 13) (set_i_size 12298 (set_i_dev ROOTDEV zero_inode)).
Definition sample_fs : kernel :=
  let k := put_log (mk_log 2 30 1 0 ROOTDEV (mk_logheader 0 (repeat 0 (Z.to_nat LOGSIZE))))
             (put_disk sample_fs_disk sample_bio) in
  set_fs (set_icache [sample_file] (set_sb sample_sb (k_fs k))) k.

Lemma sample_fs_buf i : buf_at sample_fs i = buf_at sample_bio i.
Proof. reflexivity. Qed.

Lemma sample_fs_bufs : bufs sample_fs = bufs sample_bio.
Proof. reflexivity. Qed.

Lemma sample_fs_dblk n :
  dblk sample_fs_disk n =
    if decide (n = 59) then repeat 9 (Z.to_nat BSIZE)
    else if decide (n = 58) then le_bytes 4 59 ++ repeat 0 (Z.to_nat BSIZE - 4)
    else if decide (n = 57) then repeat 7 (Z.to_nat BSIZE)
    else if decide (n = 60) then sample_dirents
    else if decide (n = 45) then repeat 255 8 ++ repeat 0 (Z.to_nat BSIZE - 8)
    else repeat 0 (Z.to_nat BSIZE).
Proof.
  unfold sample_fs_disk. rewrite !apply_writes_cons. change (apply_writes [] ?d) with d. rewrite !dblk_write.
  unfold dblk. cbn [dk_blocks]. rewrite lookup_empty. reflexivity.
Qed.

Lemma sample_fs_len n : length (dblk sample_fs_disk n) = Z.to_nat BSIZE.
Proof. rewrite sample_fs_dblk. repeat case_decide; reflexivity. Qed.

Lemma sample_fs_st {V : VirtioDevice} {VL : VirtioLaw V} : fs_st sample_fs [] ∅.
Proof.
  assert (Hb : bio_ok sample_fs ∅ ∅).
  { apply (fresh_bio_ok _ (reverse (seq 0 NBUF))).
    - apply (ring_ext sample_bio).
      + exact (proj1 sample_bio_spec).
      + rewrite sample_fs_bufs. reflexivity.
      + intros i. unfold nx, pv. rewrite sample_fs_buf. split; reflexivity.
    - change (vd_idle (the_vd sample_bio)). rewrite (proj1 sample_bio_rest). exact sample_vd_idle.
    - exact sample_fs_len.
    - intros b Hlt. rewrite sample_fs_buf. exact (sample_bio_buf b Hlt). }
  split.
  - exact sample_bio_calm.
  - exact Hb.
  - constructor.
  - intros n _. apply (view_clean _ ∅); [exact Hb|reflexivity].
Qed.

Lemma sample_fs_view {V : VirtioDevice} {VL : VirtioLaw V} n : view sample_fs n = dblk sample_fs_disk n.
Proof. apply (fst_clean _ _ _ sample_fs_st). apply not_elem_of_nil. Qed.

Lemma sample_in_op {V : VirtioDevice} {VL : VirtioLaw V} : in_op sample_fs 2 [] ∅.
Proof.
  split; [exact sample_fs_st| |reflexivity|].
  - split; try reflexivity.
    + unfold FSSIZE, LOGSIZE, MAXOPBLOCKS. lia.
    + unfold LOGSIZE, MAXOPBLOCKS. simpl. lia.
    + intros i x Hx. discriminate Hx.
    + constructor.
    + intros x Hx. by apply not_elem_of_nil in Hx.
  - change (1 <= 1). lia.
Qed.

Lemma sample_bitmap {V : VirtioDevice} {VL : VirtioLaw V} :
  bitmap sample_fs = repeat 255 8 ++ repeat 0 (Z.to_nat BSIZE - 8).
Proof. unfold bitmap. change (sb_bmapstart (the_sb sample_fs)) with 45. by rewrite sample_fs_view, sample_fs_dblk. Qed.

Lemma sample_used : forallb (used (repeat 255 8 ++ repeat 0 (Z.to_nat BSIZE - 8))) (seqZ 0 64) = true.
Proof. vm_compute. reflexivity. Qed.

Lemma sample_bitmap_ok {V : VirtioDevice} {VL : VirtioLaw V} : bitmap_ok sample_fs 2.
Proof.
  split; change (the_sb sample_fs) with sample_sb; cbn [sb_size sb_bmapstart sample_sb]; unfold FSSIZE, in_log; try lia.
  - unfold LOGSIZE, MAXOPBLOCKS. lia.
  - unfold LOGSIZE, MAXOPBLOCKS. intros b Hb H. rewrite sample_bitmap.
    apply (proj1 (all_used _ 64) sample_used). lia.
Qed.

Lemma balloc_lowest_free_witness :
  wp (disk_turn (DiskLaw := virtio_disk_law (V := sample_device))) (balloc ROOTDEV)
    (fun b k' => b = 64 /\ view k' 64 = repeat 0 (Z.to_nat BSIZE) /\ used (bitmap k') 64 = true) sample_fs.
Proof.
  eapply wp_mono.
  - pose proof (balloc_lowest_free (DL := virtio_disk_law (V := sample_device)) 2 [] sample_fs (sample_in_op (V := sample_device))
      (sample_bitmap_ok (V := sample_device))) as H.
    change (sb_size (the_sb sample_fs)) with 1000 in H. rewrite !(sample_bitmap (V := sample_device)) in H.
    assert (E : forallb (used (repeat 255 8 ++ repeat 0 (Z.to_nat BSIZE - 8))) (seqZ 0 1000) = false)
      by (vm_compute; reflexivity).
    cbv zeta in H. rewrite E in H. apply H. simpl. lia.
  - intros b k' (H1 & H2 & H3 & _ & _ & H6 & H7 & _).
    assert (b = 64) as ->.
    { destruct (Z.lt_trichotomy b 64) as [Hlt|[->|Hgt]]; [|reflexivity|].
      - rewrite (proj1 (all_used _ 64) sample_used) in H2 by lia. discriminate H2.
      - specialize (H3 64 ltac:(lia)). vm_compute in H3. discriminate H3. }
    split; [reflexivity|]. split; [exact H7|]. rewrite H6 by lia. reflexivity.
Defined.

Lemma sample_file_ok {V : VirtioDevice} {VL : VirtioLaw V} : file_ok sample_fs sample_file.
Proof.
  assert (Hd : forall bn, 0 <= bn < 13 -> addr_at sample_file bn = 46 + bn).
  { intros bn Hbn. unfold addr_at, sample_file. cbn [i_addrs set_i_addrs].
    rewrite nth_lookup, lookup_seqZ_lt by lia. change (46 + Z.of_nat (Z.to_nat bn) = 46 + bn). lia. }
  split.
  - reflexivity.
  - change (0 <= 12298 <= 274432). lia.
  - intros bn H1 H2. change (i_size sample_file) with 12298 in H2. unfold file_block, FSSIZE, BSIZE in *.
    destruct (Z.ltb_spec bn NDIRECT) as [H|H]; unfold NDIRECT in *.
    + rewrite Hd by lia. lia.
    + assert (bn = 12) as -> by lia. rewrite Hd by lia. rewrite sample_fs_view, sample_fs_dblk.
      vm_compute. split; reflexivity.
  - intros _. rewrite Hd by (unfold NDIRECT; lia). unfold FSSIZE, NDIRECT. lia.
Qed.

(** The same disk, with process 0 in the address space of [sample_lazy]. *)
Definition sample_fs_user : kernel :=
  set_mm (k_mm sample_lazy) (set_sy (set_procs (procs sample_lazy) (k_sy sample_fs)) sample_fs).

Lemma sample_fs_user_sync : exists ls, k_sy sample_fs_user = set_locks ls (set_procs (procs sample_lazy) (k_sy sample)).
Proof.
  destruct sample_bio_spec as [_ [_ _ _ _ _ [ls E] _]]. exists ls.
  change (k_sy sample_fs_user) with (set_procs (procs sample_lazy) (k_sy sample_bio)). by rewrite E.
Qed.

Lemma sample_fs_user_st {V : VirtioDevice} {VL : VirtioLaw V} : fs_st sample_fs_user [] ∅.
Proof.
  destruct (sample_fs_st (V := V)) as [F1 F2 F3 F4]. destruct sample_fs_user_sync as [ls E]. split.
  - pose proof (ca_free _ F1) as Hf. split; [rewrite E; exact sample_sync_ok|by rewrite E|exact Hf|by rewrite E|].
    rewrite E. eexists 0%nat, _. by split_and!.
  - assert (bio_ok (set_mm (k_mm sample_lazy) sample_fs) ∅ (pinmap [])) as Hb.
    { destruct F2 as [[l []] H2 H3 H4 H5 H6 H7 H8 H9]. split; try assumption. exists l. by split. }
    apply (bio_ok_sync _ (k_sy sample_fs_user)) in Hb; [exact Hb|]. rewrite E.
    change (k_sy (set_mm _ sample_fs)) with (k_sy sample_bio).
    destruct sample_bio_spec as [_ [_ _ _ _ _ [ls' E'] _]]. rewrite E'. reflexivity.
  - done.
  - exact F4.
Qed.

Lemma sample_fs_user_space : uspace (L := sample_linker) sample_fs_user sample_T pg_root [0x87fff000] 0%nat 0.
Proof.
  destruct sample_lazy_space as [U1 U2 U3 U4 U5 U6 U7]. destruct sample_fs_user_sync as [ls E].
  pose proof (fst_calm _ _ _ (sample_fs_user_st (V := sample_device))) as Hc.
  split; [apply Hc|apply (ca_free _ Hc); left|by apply (space_ok_mm (L := sample_linker) sample_lazy)|by rewrite E|exact U5|exact U6|exact U7].
Qed.

#[local] Existing Instance sample_linker.
#[local] Existing Instance sample_linker_ok.

Lemma sample_file_user {V : VirtioDevice} {VL : VirtioLaw V} : file_ok sample_fs_user sample_file.
Proof. destruct (sample_file_ok (V := V)) as [F1 F2 F3 F4]. by split. Qed.

Lemma sample_file_bytes {V : VirtioDevice} {VL : VirtioLaw V} :
  map (file_byte sample_fs_user sample_file) (seqZ 12283 (read_len sample_file 12283 100)) =
    [7;7;7;7;7;9;9;9;9;9;9;9;9;9;9].
Proof.
  change (read_len sample_file 12283 100) with 15.
  assert (E : forall i, file_byte sample_fs_user sample_file i =
    nth (Z.to_nat (i mod BSIZE)) (dblk sample_fs_disk
      (if i / BSIZE <? NDIRECT then addr_at sample_file (i / BSIZE)
       else getn 4 (dblk sample_fs_disk (addr_at sample_file NDIRECT)) (4 * (i / BSIZE - NDIRECT)))) 0).
  { intros i. change (file_byte sample_fs_user sample_file i) with (file_byte sample_fs sample_file i).
    unfold file_byte, file_block. rewrite !(sample_fs_view (V := V)). reflexivity. }
  rewrite (map_ext _ _ E). vm_compute. reflexivity.
Qed.

(** The last bytes of the file, from two blocks, into a variable and into the
    memory of process 0. *)
Lemma readi_contents_witness :
  wp (disk_turn (DiskLaw := virtio_disk_law (V := sample_device)))
    (readi (L := sample_linker) 0 (To_local (repeat 0 18) 2) 12283 100)
    (fun r _ => r = (15, [0;0;7;7;7;7;7;9;9;9;9;9;9;9;9;9;9;0])) sample_fs_user /\
  wp (disk_turn (DiskLaw := virtio_disk_law (V := sample_device)))
    (readi (L := sample_linker) 0 (To_user 16) 12283 100)
    (fun r k' => r.1 = 15 /\ exists T', map (ubyte (ram k') T') (seqZ 16 15) = [7;7;7;7;7;9;9;9;9;9;9;9;9;9;9])
    sample_fs_user.
Proof.
  assert (H : forall d, dest_ok sample_T pg_root [0x87fff000] 0 0 sample_fs_user d
      (map (file_byte sample_fs_user sample_file) (seqZ 12283 (read_len sample_file 12283 100))) ->
    wp (disk_turn (DiskLaw := virtio_disk_law (V := sample_device))) (readi (L := sample_linker) 0 d 12283 100)
      (delivered sample_T pg_root sample_fs_user d [7;7;7;7;7;9;9;9;9;9;9;9;9;9;9]) sample_fs_user).
  { intros d Hd. eapply wp_mono.
    - apply (readi_contents (DL := virtio_disk_law (V := sample_device)) (L := sample_linker) (LO := sample_linker_ok)
        sample_T pg_root [0x87fff000] 0 0 0 d 12283 100 [] sample_fs_user).
      + exact (sample_fs_user_st (V := sample_device)).
      + unfold NBUF. simpl. lia.
      + exact (sample_file_user (V := sample_device)).
      + lia.
      + lia.
      + exact Hd.
    - intros r k' (Hr & _ & _). rewrite <- (sample_file_bytes (V := sample_device)). exact Hr. }
  rewrite (sample_file_bytes (V := sample_device)) in H. split; eapply wp_mono; try apply H.
  - simpl. lia.
  - intros r k' [-> _]. reflexivity.
  - split; [exact sample_fs_user_space|apply sample_lazy_reach; simpl; lia].
  - intros r k' (T' & l' & _ & [[Hr Hst]|(_ & Hn & _)]).
    + split; [exact Hr|]. exists T'. pose proof MAXVA_val. apply stored_range in Hst as [_ Hb]; [exact Hb|lia|simpl; lia].
    + destruct Hn. pose proof MAXVA_val. simpl. split_and!; [lia|lia|]. intros a Ha.
      replace (pg a) with 0 by (unfold pg; pages). change (ram sample_fs_user) with (ram sample_vm). by rewrite sample_user.
Defined.
