(* ===== verification/FsWrite.v ===== *)
(** * Writing the contents of an inode

    [writei] on a file with any blocks missing: [bmap] allocates the blocks
    and the indirect block, the data goes through the buffer cache and the
    log, and [iupdate] stores the inode.  The invariant keeps the blocks of
    the file distinct, in use, and apart from the blocks of the system. *)

From S2P Require Import Prelude Defs State Logic Memory Spinlock Sched Sleeplock Kalloc Vm Copy Bio BioList BioCache Virtio VirtioSpec BioSpec Log LogSpec LogOps Fs FsOps FsRead.

(** ** Free blocks *)

Definition free_blocks (d : list Z) (size : Z) : list Z := filter (fun b => used d b = false) (seqZ 0 size).
Definition nfree (k : kernel) : Z := Z.of_nat (length (free_blocks (bitmap k) (sb_size (the_sb k)))).

Lemma filter_ext_in {A} (P Q : A -> Prop) `{!forall x, Decision (P x), !forall x, Decision (Q x)} (l : list A) :
  (forall x, x ∈ l -> P x <-> Q x) -> filter P l = filter Q l.
Proof.
  induction l as [|x l IH]; intros Hl; [done|]. rewrite !filter_cons, IH by (intros y Hy; apply Hl; by right).
  destruct (Hl x) as [H1 H2]; [by left|]. repeat case_decide; tauto || done.
Qed.

Lemma free_blocks_one d d' b size :
  0 <= b < size -> used d b = false ->
  (forall j, 0 <= j < size -> used d' j = bool_decide (j = b) || used d j) ->
  length (free_blocks d size) = S (length (free_blocks d' size)).
Proof.
  intros Hb Hu Hd. unfold free_blocks.
  assert (E : seqZ 0 size = seqZ 0 b ++ b :: seqZ (b + 1) (size - b - 1)).
  { replace size with (b + (size - b)) at 1 by lia. rewrite seqZ_app by lia.
    rewrite Z.add_0_l, (seqZ_cons b) by lia. do 2 f_equal; lia. }
  rewrite E, !filter_app, !filter_cons. rewrite (decide_True (P := used d b = false)) by done.
  rewrite (decide_False (P := used d' b = false)).
  2:{ rewrite Hd by lia. by rewrite bool_decide_eq_true_2. }
  assert (Hf : forall lo len, (forall j, lo <= j < lo + len -> 0 <= j < size /\ j <> b) ->
    filter (fun j => used d j = false) (seqZ lo len) = filter (fun j => used d' j = false) (seqZ lo len)).
  { intros lo len Hr. apply filter_ext_in. intros j Hj%elem_of_seqZ.
    destruct (Hr j); [lia|]. rewrite Hd by done. by rewrite bool_decide_eq_false_2. }
  rewrite (Hf 0 b), (Hf (b + 1) (size - b - 1)) by (intros; lia). rewrite !length_app. simpl. lia.
Qed.

Lemma free_exists d size : (0 < length (free_blocks d size))%nat -> ~ (forall j, 0 <= j < size -> used d j = true).
Proof.
  intros H Hall. unfold free_blocks in H. destruct (filter _ _) as [|j l] eqn:E; [simpl in H; lia|].
  assert (Hj : j ∈ filter (fun b => used d b = false) (seqZ 0 size)) by (rewrite E; left).
  apply list_elem_of_filter in Hj as [Hu Hj]. apply elem_of_seqZ in Hj. rewrite Hall in Hu by lia. done.
Qed.

(** ** Bytes of a file *)

(** Byte [i] of a file with the blocks [G]. *)
Definition cbyte (G : Z -> list Z) (i : Z) : Z := nth (Z.to_nat (i mod BSIZE)) (G (i / BSIZE)) 0.

Definition set_block (bn : Z) (d : list Z) (G : Z -> list Z) (c : Z) : list Z := if decide (c = bn) then d else G c.

(** The bytes [l] at [off]. *)
Definition overwrite (f : Z -> Z) (off : Z) (l : list Z) (i : Z) : Z :=
  if (off <=? i) && (i <? off + Z.of_nat (length l)) then nth (Z.to_nat (i - off)) l 0 else f i.

Lemma cbyte_set G off bytes i :
  0 <= off -> 0 <= i -> Z.of_nat (length bytes) <= BSIZE - off mod BSIZE -> length (G (off / BSIZE)) = Z.to_nat BSIZE ->
  cbyte (set_block (off / BSIZE) (splice (G (off / BSIZE)) (Z.to_nat (off mod BSIZE)) bytes) G) i =
    overwrite (cbyte G) off bytes i.
Proof.
  intros Ho Hi Hm Hl. unfold cbyte, set_block, overwrite. assert (HB : 0 < BSIZE) by done.
  pose proof (Z.mod_pos_bound off BSIZE HB). pose proof (Z.mod_pos_bound i BSIZE HB).
  pose proof (Z.div_mod off BSIZE ltac:(lia)) as Eo. pose proof (Z.div_mod i BSIZE ltac:(lia)) as Ei.
  rewrite !nth_lookup. case_decide as E.
  - rewrite E in *. destruct (decide (off <= i < off + Z.of_nat (length bytes))) as [Hin|Hin].
    + rewrite (proj2 (Z.leb_le off i)), (proj2 (Z.ltb_lt i _)) by lia. simpl. rewrite splice_lookup_in by lia. do 2 f_equal. lia.
    + assert (Hf : (off <=? i) && (i <? off + Z.of_nat (length bytes)) = false).
      { apply andb_false_iff. rewrite Z.leb_gt, Z.ltb_ge. lia. }
      rewrite Hf. destruct (decide (i < off)); [rewrite splice_lookup_lt by lia|rewrite splice_lookup_ge by lia]; done.
  - assert (Hf : (off <=? i) && (i <? off + Z.of_nat (length bytes)) = false); [|by rewrite Hf].
    apply andb_false_iff. rewrite Z.leb_gt, Z.ltb_ge. destruct (Z.lt_trichotomy (i / BSIZE) (off / BSIZE)) as [Hl1|[|Hl1]]; [|done|]; nia.
Qed.

Lemma overwrite_ext f g off l i : f i = g i -> overwrite f off l i = overwrite g off l i.
Proof. unfold overwrite. by intros ->. Qed.

Lemma overwrite_app f off l1 l2 i :
  overwrite (overwrite f off l1) (off + Z.of_nat (length l1)) l2 i = overwrite f off (l1 ++ l2) i.
Proof.
  unfold overwrite. rewrite length_app, Nat2Z.inj_add. set (n1 := Z.of_nat (length l1)). set (n2 := Z.of_nat (length l2)).
  destruct (Z.leb_spec off i), (Z.ltb_spec i (off + n1)), (Z.leb_spec (off + n1) i), (Z.ltb_spec i (off + n1 + n2)),
    (Z.ltb_spec i (off + (n1 + n2))); simpl; try lia; try done;
    first [rewrite app_nth1 by lia; done|rewrite app_nth2 by lia; f_equal; lia].
Qed.

(** The number of blocks a write of [r] bytes at [off] touches. *)
Definition nblk (off r : Z) : Z := if r <=? 0 then 0 else (off + r - 1) / BSIZE - off / BSIZE + 1.

Lemma nblk_step off r m :
  0 <= off -> 0 < r -> m = Z.min r (BSIZE - off mod BSIZE) ->
  nblk off r = 1 + nblk (off + m) (r - m) /\ (m < r -> (off + m) / BSIZE = off / BSIZE + 1).
Proof.
  intros Ho Hr Hm. assert (HB : 0 < BSIZE) by done. pose proof (Z.mod_pos_bound off BSIZE HB).
  pose proof (Z.div_mod off BSIZE ltac:(lia)) as Eo. unfold nblk. rewrite (proj2 (Z.leb_gt r 0)) by lia.
  destruct (Z.leb_spec (r - m) 0) as [Hle|Hgt].
  - split; [|lia]. assert (m = r) by lia. subst m.
    rewrite (Z.div_unique (off + r - 1) BSIZE (off / BSIZE) (off mod BSIZE + r - 1)) by lia. lia.
  - assert (E : (off + m) / BSIZE = off / BSIZE + 1).
    { symmetry. apply (Z.div_unique _ _ _ 0); lia. }
    rewrite E. replace (off + m + (r - m) - 1) with (off + r - 1) by lia. split; [lia|done].
Qed.

Lemma nblk_pos off r : 0 <= off -> 0 <= nblk off r.
Proof.
  intros Ho. unfold nblk. destruct (Z.leb_spec r 0); [lia|].
  pose proof (Z.div_le_mono off (off + r - 1) BSIZE). unfold BSIZE in *. lia.
Qed.

(** ** Frames *)

(** Writing to inode [ip] leaves the rest of the kernel alone. *)
Record wframe (ip : nat) (k k' : kernel) : Prop := {
  wfr_quiet : quiet (k_sy k) (k_sy k');
  wfr_mm : k_mm k' = k_mm k;
  wfr_fi : k_fi k' = k_fi k;
  wfr_ms : set_vd (ms_vd (k_ms k)) (k_ms k') = k_ms k;
  wfr_sb : the_sb k' = the_sb k;
  wfr_len : length (inodes k') = length (inodes k);
  wfr_inode i : i <> ip -> inodes k' !! i = inodes k !! i }.

#[export] Instance wframe_preorder ip : PreOrder (wframe ip).
Proof.
  split.
  - intros k. by split.
  - intros k1 k2 k3 [] []. split; try congruence; [by etransitivity| |].
    + rewrite <- wfr_ms0. rewrite <- wfr_ms1. done.
    + intros i Hi. by rewrite wfr_inode1, wfr_inode0.
Qed.

Lemma op_wframe ip k k' : op_frame k k' -> wframe ip k k'.
Proof. intros []. split; try done; unfold inodes; by rewrite of_icache. Qed.

Lemma op_frame_inode k k' i : op_frame k k' -> inode_at k' i = inode_at k i.
Proof. intros H. unfold inode_at, inodes. by rewrite (of_icache _ _ H). Qed.

Lemma set_inode_wframe ip f k : wframe ip k (set_inode ip f k).
Proof.
  split; try done; unfold set_inode, inodes; kproj; [apply length_alter|].
  intros i Hi. by apply list_lookup_alter_ne.
Qed.

Lemma set_inode_at ip f k : (ip < length (inodes k))%nat -> inode_at (set_inode ip f k) ip = f (inode_at k ip).
Proof.
  intros [x Hx]%lookup_lt_is_Some_2. unfold inode_at. change (inodes (set_inode ip f k)) with (alter f ip (inodes k)).
  by rewrite list_lookup_alter_eq, Hx.
Qed.

Section write.
Context {D : DiskDriver} {DL : DiskLaw D} {L : Linker}.

Lemma in_op_set_inode ip f k st bl H : in_op k st bl H -> in_op (set_inode ip f k) st bl H.
Proof.
  intros [[F1 [B1 B2 B3 B4 B5 B6 B7 B8 B9] F3 F4] I2 I3 I4].
  split; [split; [done| |done|exact F4]|done|done|done].
  split; try done. destruct B1 as [l [R1 R2 R3]]. exists l. by split.
Qed.

Definition zeros : list Z := repeat 0 (Z.to_nat BSIZE).

(** Block [b], free before, is in use and all zeros; the rest is as it was. *)
Record fresh (k : kernel) (b : Z) (k' : kernel) : Prop := {
  fr_range : 0 <= b < sb_size (the_sb k);
  fr_free : used (bitmap k) b = false;
  fr_frame : op_frame k k';
  fr_used j : 0 <= j < sb_size (the_sb k) -> used (bitmap k') j = bool_decide (j = b) || used (bitmap k) j;
  fr_zero : view k' b = zeros;
  fr_rest m : m <> b -> m <> sb_bmapstart (the_sb k) -> view k' m = view k m }.

(** [balloc] with other blocks held, when there is a free block. *)
Lemma balloc_op st bl H (Q : Z -> kernel -> Prop) k :
  in_op k st bl H -> held_used k H -> bitmap_ok k st -> (length bl < 28)%nat -> (size H + length bl < 28)%nat ->
  0 < nfree k ->
  (forall b k', fresh k b k' -> in_op k' st (logged (logged bl (sb_bmapstart (the_sb k))) b) H -> Q b k') ->
  wp disk_turn (balloc ROOTDEV) Q k.
Proof.
  intros Hi Hheld Hbm Hroom Hsz Hfree HQ. unfold balloc. apply wp_bind, wp_gets, wp_bind.
  apply (balloc_search_op st bl H); [done..| |].
  - set (n := sb_bmapstart (the_sb k)) in *. intros b k' Hb Hu _ Hfr Hi' Hv. apply wp_ret.
    assert (b <> n) by (intros ->; rewrite (bm_meta k st Hbm) in Hu; [done|done|by right]).
    apply HQ; [|done]. split; try done.
    + intros j Hj. unfold bitmap. rewrite (of_sb' _ _ Hfr), Hv. fold n. unfold with_block.
      rewrite decide_False, decide_True by done. pose proof (bm_size _ _ Hbm). apply used_mark; [lia|lia|].
      unfold bitmap. rewrite (view_length k _ _ _ (fst_bio _ _ _ (iop_st _ _ _ _ Hi))).
      apply Z.div_lt_upper_bound; unfold FSSIZE, BSIZE in *; lia.
    + rewrite Hv. unfold with_block. by rewrite decide_True.
    + intros m H1 H2. rewrite Hv. unfold with_block. by rewrite !decide_False.
  - intros Hall. exfalso. apply (free_exists (bitmap k) (sb_size (the_sb k))); [|done]. unfold nfree in Hfree. lia.
Qed.

Lemma fresh_nfree k b k' : fresh k b k' -> nfree k = nfree k' + 1.
Proof.
  intros [F1 F2 F3 F4 _ _]. unfold nfree. rewrite (of_sb' _ _ F3).
  rewrite (free_blocks_one (bitmap k) (bitmap k') b) by done. lia.
Qed.

(** ** The blocks of a file *)

Definition ind (x : inode) : Z := addr_at x NDIRECT.

(** The disk block of block [bn] of the file, 0 when there is none. *)
Definition fblock (k : kernel) (x : inode) (bn : Z) : Z :=
  if bn <? NDIRECT then addr_at x bn
  else if ind x =? 0 then 0 else getn 4 (view k (ind x)) (4 * (bn - NDIRECT)).

(** The contents of block [bn] of the file; a missing block reads as zeros. *)
Definition fdata (k : kernel) (x : inode) (bn : Z) : list Z :=
  if fblock k x bn =? 0 then zeros else view k (fblock k x bn).

(** Every block in use stays in use. *)
Definition grown (k k' : kernel) : Prop :=
  the_sb k' = the_sb k /\
  forall b, 0 <= b < sb_size (the_sb k) -> used (bitmap k) b = true -> used (bitmap k') b = true.

#[export] Instance grown_preorder : PreOrder grown.
Proof.
  split; [by split|]. intros k1 k2 k3 [A1 A2] [B1 B2]. split; [congruence|]. rewrite A1 in B2. auto.
Qed.

Section file.
(** The log is at block [st]; the inode [ip] is stored in block [inob]. *)
Context (st inob : Z) (ip : nat).

Record layout (k : kernel) : Prop := {
  ly_bm : bitmap_ok k st;
  ly_zero : used (bitmap k) 0 = true;
  ly_range : 0 < inob < sb_size (the_sb k);
  ly_log : ~ in_log st inob;
  ly_ne : inob <> sb_bmapstart (the_sb k);
  ly_used : used (bitmap k) inob = true }.

(** A block that belongs to files. *)
Record area (k : kernel) (b : Z) : Prop := {
  ar_range : 0 < b < sb_size (the_sb k);
  ar_log : ~ in_log st b;
  ar_bm : b <> sb_bmapstart (the_sb k);
  ar_ino : b <> inob;
  ar_used : used (bitmap k) b = true }.

Record file_wf (k : kernel) (x : inode) : Prop := {
  fw_dev : i_dev x = ROOTDEV;
  fw_len : length (i_addrs x) = 13%nat;
  fw_size : 0 <= i_size x <= MAXFILE * BSIZE;
  fw_ind : ind x = 0 \/ area k (ind x);
  fw_block bn : 0 <= bn < MAXFILE -> fblock k x bn = 0 \/ area k (fblock k x bn) /\ fblock k x bn <> ind x;
  fw_inj bn bn' : 0 <= bn < MAXFILE -> 0 <= bn' < MAXFILE -> fblock k x bn <> 0 ->
    fblock k x bn = fblock k x bn' -> bn = bn';
  fw_full bn : 0 <= bn -> bn * BSIZE < i_size x -> fblock k x bn <> 0 }.

Lemma area_grown k k' b : grown k k' -> area k b -> area k' b.
Proof. intros [E G] [A1 A2 A3 A4 A5]. split; rewrite ?E; try done. apply G; [lia|done]. Qed.

Lemma layout_grown k k' : grown k k' -> layout k -> layout k'.
Proof.
  intros [E G] [[B1 B2 B3 B4] L2 L3 L4 L5 L6]. split; rewrite ?E; try done; [|apply G; [lia|done]..].
  split; rewrite ?E; try done. intros b Hb Hm. apply G; [done|by apply B4].
Qed.

(** A block that was free is apart from everything. *)
Lemma area_new k k' b :
  layout k -> 0 <= b < sb_size (the_sb k) -> used (bitmap k) b = false -> the_sb k' = the_sb k ->
  used (bitmap k') b = true -> area k' b.
Proof.
  intros [[B1 B2 B3 B4] L2 L3 L4 L5 L6] Hb Hu E Hu'. split; rewrite ?E; try done.
  - destruct (decide (b = 0)) as [->|]; [congruence|lia].
  - intros Hl. rewrite B4 in Hu; [done|done|by left].
  - intros ->. rewrite B4 in Hu; [done|done|by right].
  - congruence.
Qed.

(** Same inode up to the block addresses. *)
Definition same_attr (x x' : inode) : Prop := x' = set_i_addrs (i_addrs x') x.

Lemma same_attr_size x x' : same_attr x x' -> i_size x' = i_size x /\ i_dev x' = i_dev x.
Proof. intros ->. done. Qed.

(** One more block [b] for [bn]. *)
Lemma wf_add k k' x x' bn b :
  file_wf k x -> grown k k' -> same_attr x x' -> length (i_addrs x') = 13%nat -> ind x' = ind x ->
  0 <= bn < MAXFILE -> fblock k x bn = 0 -> used (bitmap k) b = false -> area k' b ->
  (forall c, 0 <= c < MAXFILE -> fblock k' x' c = if decide (c = bn) then b else fblock k x c) -> file_wf k' x'.
Proof.
  intros [W1 W2 W3 W4 W5 W6 W7] G Hs Hl Hi Hbn H0 Hu Ha Hf. destruct (same_attr_size _ _ Hs) as [Es Ed].
  assert (Hfresh : forall c, 0 <= c < MAXFILE -> fblock k x c <> b).
  { intros c Hc Hcb. destruct (W5 c Hc) as [E|[[] _]]; [destruct Ha; lia|congruence]. }
  split; rewrite ?Es, ?Ed, ?Hi; try done.
  - destruct W4; [by left|right; by eapply area_grown].
  - intros c Hc. rewrite Hf by done. case_decide.
    + right. split; [done|]. intros E. destruct W4 as [W4|[]]; [destruct Ha; lia|congruence].
    + destruct (W5 c Hc) as [|[? ?]]; [by left|right; split; [by eapply area_grown|done]].
  - intros c c' Hc Hc'. rewrite !Hf by done. repeat case_decide; subst; try done.
    + intros _ E. by destruct (Hfresh c').
    + intros _ E. by destruct (Hfresh c).
    + by apply W6.
  - intros c Hc Hsz. assert (c < MAXFILE) by (change MAXFILE with 268 in *; unfold BSIZE in *; nia).
    rewrite Hf by done. case_decide; [destruct Ha; lia|by apply W7].
Qed.

Lemma data_add k k' x x' bn b :
  file_wf k x -> 0 <= bn < MAXFILE -> fblock k x bn = 0 -> used (bitmap k) b = false -> b <> 0 ->
  (forall c, 0 <= c < MAXFILE -> fblock k' x' c = if decide (c = bn) then b else fblock k x c) ->
  view k' b = zeros ->
  (forall m, m <> b -> m <> ind x -> m <> sb_bmapstart (the_sb k) -> view k' m = view k m) ->
  forall c, 0 <= c < MAXFILE -> fdata k' x' c = fdata k x c.
Proof.
  intros W Hbn H0 Hu Hb Hf Hz Hv c Hc. unfold fdata. rewrite Hf by done. case_decide as E.
  - subst c. rewrite H0, Z.eqb_refl. by destruct (Z.eqb_spec b 0).
  - destruct (Z.eqb_spec (fblock k x c) 0); [done|]. destruct (fw_block _ _ W c Hc) as [|[[] Hi]]; [done|].
    apply Hv; [congruence|done|done].
Qed.

(** ** Steps that keep the contents *)

(** The blocks that can still be allocated once there is an indirect block. *)
Definition room (k : kernel) : Z := nfree k - (if ind (inode_at k ip) =? 0 then 1 else 0).

(** The contents of the file. *)
Definition contents (k : kernel) : Z -> list Z := fdata k (inode_at k ip).

(** From [k] to [k'] the contents of the file become [G], at most [c] blocks
    are used up, the log grows by blocks of [S], and other blocks are kept. *)
Record kept (G : Z -> list Z) (S : list Z) (c : Z) (k : kernel) (bl : list Z) (k' : kernel) (bl' : list Z) : Prop := {
  kp_frame : wframe ip k k';
  kp_op : in_op k' st bl' ∅;
  kp_wf : file_wf k' (inode_at k' ip);
  kp_grown : grown k k';
  kp_attr : same_attr (inode_at k ip) (inode_at k' ip);
  kp_block bn : 0 <= bn < MAXFILE -> fblock k (inode_at k ip) bn <> 0 ->
    fblock k' (inode_at k' ip) bn = fblock k (inode_at k ip) bn;
  kp_ind : ind (inode_at k' ip) = ind (inode_at k ip) \/
    ind (inode_at k ip) = 0 /\ used (bitmap k) (ind (inode_at k' ip)) = false;
  kp_new bn : 0 <= bn < MAXFILE -> fblock k (inode_at k ip) bn = 0 ->
    fblock k' (inode_at k' ip) bn = 0 \/ used (bitmap k) (fblock k' (inode_at k' ip) bn) = false;
  kp_data bn : 0 <= bn < MAXFILE -> contents k' bn = G bn;
  kp_rest m : 0 <= m < sb_size (the_sb k) -> used (bitmap k) m = true ->
    m <> sb_bmapstart (the_sb k) -> m <> ind (inode_at k ip) ->
    (forall bn, 0 <= bn < MAXFILE -> fblock k (inode_at k ip) bn <> m) -> view k' m = view k m;
  kp_room : room k - c <= room k';
  kp_log z : z ∈ bl' -> z ∈ bl \/ z ∈ S }.

Lemma unused_back k k' b : grown k k' -> 0 < b < sb_size (the_sb k') -> used (bitmap k') b = false -> used (bitmap k) b = false.
Proof.
  intros [E G] Hb Hu. rewrite E in Hb. destruct (used (bitmap k) b) eqn:Hk; [|done]. rewrite G in Hu; [done|lia|done].
Qed.

Lemma kept_trans G1 S1 c1 G2 S2 c2 k1 bl1 k2 bl2 k3 bl3 :
  kept G1 S1 c1 k1 bl1 k2 bl2 -> kept G2 S2 c2 k2 bl2 k3 bl3 -> kept G2 (S1 ++ S2) (c1 + c2) k1 bl1 k3 bl3.
Proof.
  intros [A1 A2 A3 A4 A5 A6 A7 A8 A9 A10 A11 A12] [B1 B2 B3 B4 B5 B6 B7 B8 B9 B10 B11 B12].
  pose proof A4 as [Esb Hgr]. pose proof (proj1 B4) as Esb2.
  assert (Hnew : forall bn, 0 <= bn < MAXFILE -> fblock k1 (inode_at k1 ip) bn = 0 ->
    fblock k3 (inode_at k3 ip) bn = 0 \/ used (bitmap k1) (fblock k3 (inode_at k3 ip) bn) = false).
  { intros bn Hbn H0. destruct (A8 bn Hbn H0) as [H1|H1].
    - destruct (B8 bn Hbn H1) as [H2|H2]; [by left|]. destruct (fw_block _ _ B3 bn Hbn) as [|[[R _ _ _ _] _]]; [by left|right].
      apply (unused_back k1 k2); [done| |done]. by rewrite <- Esb2.
    - destruct (decide (fblock k2 (inode_at k2 ip) bn = 0)) as [E|E]; [|right; by rewrite B6].
      destruct (B8 bn Hbn E) as [H2|H2]; [by left|]. destruct (fw_block _ _ B3 bn Hbn) as [|[[R _ _ _ _] _]]; [by left|right].
      apply (unused_back k1 k2); [done| |done]. by rewrite <- Esb2. }
  split; try done.
  - by etransitivity.
  - by etransitivity.
  - unfold same_attr in *. rewrite A5 in B5. exact B5.
  - intros bn Hbn H. rewrite B6, A6; [done..|]. by rewrite A6.
  - destruct (fw_ind _ _ B3) as [E3|[R _ _ _ _]]; destruct B7 as [->|[E U]]; try done.
    + destruct A7 as [E1|[E1 _]]; [left; congruence|]. rewrite E3. left. congruence.
    + apply (unused_back k1 k2) in U; [|done|by rewrite <- Esb2].
      destruct A7 as [E1|[E1 _]]; right; split; congruence || done.
  - intros m Hm Hu H1 H2 H3. rewrite B10, A10; try done; rewrite ?Esb; try done; [by apply Hgr| |].
    + destruct A7 as [->|[_ U]]; [done|]. congruence.
    + intros bn Hbn E. destruct (decide (fblock k1 (inode_at k1 ip) bn = 0)) as [E0|E0].
      * destruct (A8 bn Hbn E0) as [H4|H4]; [|congruence]. apply (H3 bn Hbn). congruence.
      * apply (H3 bn Hbn). rewrite <- E. symmetry. by apply A6.
  - lia.
  - intros z Hz. rewrite elem_of_app. apply B12 in Hz as [Hz|Hz]; [|tauto]. apply A12 in Hz. tauto.
Qed.

Lemma kept_reads k k' bl :
  reads k k' -> in_op k' st bl ∅ -> file_wf k (inode_at k ip) -> kept (contents k) [] 0 k bl k' bl.
Proof.
  intros R Hi W. pose proof (bio_op_frame _ _ (rd_frame _ _ R)) as F.
  pose proof (op_frame_inode _ _ ip F) as Ei. pose proof (of_sb' _ _ F) as Esb.
  assert (Eb : bitmap k' = bitmap k) by (unfold bitmap; by rewrite Esb, (rd_view _ _ R)).
  assert (Ef : forall x bn, fblock k' x bn = fblock k x bn) by (intros; unfold fblock; by rewrite (rd_view _ _ R)).
  assert (Hg : grown k k') by (split; [done|by rewrite Eb]).
  split; rewrite ?Ei; try done.
  - by apply op_wframe.
  - destruct W as [W1 W2 W3 W4 W5 W6 W7]. split; try done.
    + destruct W4; [by left|right; by eapply area_grown].
    + intros bn Hbn. rewrite Ef. destruct (W5 bn Hbn) as [|[? ?]]; [by left|right; split; [by eapply area_grown|done]].
    + intros bn bn'. rewrite !Ef. apply W6.
    + intros bn. rewrite Ef. apply W7.
  - by left.
  - intros bn Hbn H0. left. by rewrite Ef.
  - intros bn Hbn. unfold contents, fdata. by rewrite Ei, Ef, (rd_view _ _ R).
  - intros m _ _ _ _ _. apply R.
  - unfold room, nfree. rewrite Ei, Eb, Esb. lia.
  - by left.
Qed.

Lemma logged_in bl n z : z ∈ logged bl n -> z ∈ bl \/ z = n.
Proof. unfold logged. case_decide; [tauto|]. by rewrite elem_of_app, list_elem_of_singleton. Qed.

Lemma kept_length G S c k bl k' bl' : kept G S c k bl k' bl' -> (length bl' <= length bl + length S)%nat.
Proof.
  intros K. rewrite <- length_app. apply submseteq_length, NoDup_submseteq.
  - apply (lo_nodup _ _ _ (iop_log _ _ _ _ (kp_op _ _ _ _ _ _ _ K))).
  - intros z Hz. apply elem_of_app. by apply (kp_log _ _ _ _ _ _ _ K).
Qed.

Lemma kept_mono G G' S S' c c' k bl k' bl' :
  kept G S c k bl k' bl' -> (forall z, z ∈ S -> z ∈ S') -> c <= c' ->
  (forall bn, 0 <= bn < MAXFILE -> G bn = G' bn) -> kept G' S' c' k bl k' bl'.
Proof.
  intros [] H Hc HG. split; try done; [intros bn Hbn; rewrite <- HG by done; auto|lia|].
  intros z Hz. destruct (kp_log0 z Hz); auto.
Qed.

(** ** [bmap] *)

Lemma fresh_grown k b k' : fresh k b k' -> grown k k'.
Proof.
  intros F. split; [apply of_sb', F|]. intros j Hj Hu. rewrite (fr_used _ _ _ F) by done. by rewrite Hu, orb_true_r.
Qed.

Lemma fresh_area k b k' : layout k -> fresh k b k' -> area k' b.
Proof.
  intros Hl F. apply (area_new k); [done|apply F|apply F|apply of_sb', F|].
  rewrite (fr_used _ _ _ F) by apply F. by rewrite bool_decide_eq_true_2.
Qed.

Lemma put_addr_at x i a j : length (i_addrs x) = 13%nat -> 0 <= i < 13 -> 0 <= j ->
  addr_at (put_addr i a x) j = if decide (j = i) then a else addr_at x j.
Proof.
  intros Hl Hi Hj. unfold addr_at, put_addr. cbn [i_addrs set_i_addrs]. rewrite !nth_lookup.
  case_decide as E; [subst; rewrite list_lookup_insert_eq by lia; done|].
  rewrite list_lookup_insert_ne by lia. done.
Qed.

(** A block that a file has is not the new one. *)
Lemma fresh_ind k b k' x : layout k -> file_wf k x -> fresh k b k' -> ind x <> 0 -> view k' (ind x) = view k (ind x).
Proof.
  intros Hl W F Hi. destruct (fw_ind _ _ W) as [|[A1 A2 A3 A4 A5]]; [done|]. apply (fr_rest _ _ _ F); [|done].
  intros E. rewrite E, (fr_free _ _ _ F) in A5. done.
Qed.

(** [balloc] and a store of the block in [ip->addrs]. *)
Lemma kept_direct bn b bl bl' k k1 :
  let x := inode_at k ip in
  let k' := set_inode ip (put_addr bn b) k1 in
  layout k -> file_wf k x -> (ip < length (inodes k))%nat -> 0 <= bn < NDIRECT -> fblock k x bn = 0 ->
  fresh k b k1 -> in_op k1 st bl' ∅ -> bl' = logged (logged bl (sb_bmapstart (the_sb k))) b ->
  kept (contents k) [sb_bmapstart (the_sb k); b] 1 k bl k' bl' /\ fblock k' (inode_at k' ip) bn = b.
Proof.
  intros x k' Hl W Hip Hbn H0 F Hi ->. pose proof (fr_frame _ _ _ F) as Hfr. pose proof (of_sb' _ _ Hfr) as Esb.
  pose proof (op_frame_inode _ _ ip Hfr) as E1. unfold NDIRECT in Hbn.
  assert (Ex : inode_at k' ip = put_addr bn b x).
  { unfold k'. rewrite set_inode_at; [by rewrite E1|]. unfold inodes. by rewrite (of_icache _ _ Hfr). }
  assert (Ha : area k' b) by (destruct (fresh_area k b k1 Hl F); by split). pose proof (fw_len _ _ W) as Hlen.
  assert (Ei : ind (put_addr bn b x) = ind x).
  { unfold ind. rewrite put_addr_at by (done || lia || (unfold NDIRECT; lia)). rewrite decide_False; [done|unfold NDIRECT; lia]. }
  assert (Hf : forall c, 0 <= c < MAXFILE -> fblock k' (put_addr bn b x) c = if decide (c = bn) then b else fblock k x c).
  { intros c Hc. unfold fblock. rewrite Ei, put_addr_at by (done || lia).
    destruct (Z.ltb_spec c NDIRECT); [by case_decide|]. rewrite decide_False by (unfold NDIRECT in *; lia).
    destruct (Z.eqb_spec (ind x) 0); [done|]. by rewrite <- (fresh_ind k b k1 x). }
  assert (Hb : 0 <= bn < MAXFILE) by (change MAXFILE with 268; lia).
  split; [|rewrite Ex, Hf by done; by rewrite decide_True]. split; rewrite ?Ex.
  - etransitivity; [apply op_wframe, Hfr|apply set_inode_wframe].
  - by apply in_op_set_inode.
  - apply (wf_add k k' x _ bn b); try done; [exact (fresh_grown _ _ _ F)|unfold put_addr; simpl; by rewrite length_insert|apply F].
  - exact (fresh_grown _ _ _ F).
  - done.
  - intros c Hc H. rewrite Hf by done. case_decide; [by subst|done].
  - by left.
  - intros c Hc Hc0. rewrite Hf by done. case_decide; [right; apply F|by left].
  - unfold contents. rewrite Ex. apply (data_add k k' x _ bn b); try done; [apply F|destruct Ha; lia|apply F|].
    intros m H1 _ H2. by apply (fr_rest _ _ _ F).
  - intros m Hm Hu H1 H2 _. apply (fr_rest _ _ _ F); [|done]. intros ->. by rewrite (fr_free _ _ _ F) in Hu.
  - unfold room. rewrite Ex, Ei, (fresh_nfree _ _ _ F). change (nfree k') with (nfree k1). fold x. lia.
  - intros z [[Hz|Hz]%logged_in|Hz]%logged_in; [by left|right..]; subst; [left|right; left].
Qed.

Lemma getn_zeros n off : getn n zeros off = 0.
Proof.
  unfold getn. assert (H : Forall (fun z => z = 0) (take n (drop (Z.to_nat off) zeros))).
  { apply Forall_take, Forall_drop, Forall_forall. intros z Hz. by apply list_elem_of_In, repeat_spec in Hz. }
  induction H as [|z l -> Hl IH]; simpl; lia.
Qed.

(** [balloc] of the indirect block. *)
Lemma kept_newind a bl bl' k k1 :
  let x := inode_at k ip in
  let k' := set_inode ip (put_addr NDIRECT a) k1 in
  layout k -> file_wf k x -> (ip < length (inodes k))%nat -> ind x = 0 ->
  fresh k a k1 -> in_op k1 st bl' ∅ -> bl' = logged (logged bl (sb_bmapstart (the_sb k))) a ->
  kept (contents k) [sb_bmapstart (the_sb k); a] 0 k bl k' bl' /\ ind (inode_at k' ip) = a.
Proof.
  intros x k' Hl W Hip H0 F Hi ->. pose proof (fr_frame _ _ _ F) as Hfr. pose proof (of_sb' _ _ Hfr) as Esb.
  pose proof (op_frame_inode _ _ ip Hfr) as E1. pose proof (fresh_grown _ _ _ F : grown k k') as Hg.
  assert (Ex : inode_at k' ip = put_addr NDIRECT a x).
  { unfold k'. rewrite set_inode_at; [by rewrite E1|]. unfold inodes. by rewrite (of_icache _ _ Hfr). }
  assert (Ha : area k' a) by (destruct (fresh_area k a k1 Hl F); by split). pose proof (fw_len _ _ W) as Hlen.
  assert (Ha0 : a <> 0) by (destruct Ha; lia).
  assert (Ei : ind (put_addr NDIRECT a x) = a).
  { unfold ind. rewrite put_addr_at by (done || (unfold NDIRECT; lia)). by rewrite decide_True. }
  assert (Hf : forall c, 0 <= c < MAXFILE -> fblock k' (put_addr NDIRECT a x) c = fblock k x c).
  { intros c Hc. unfold fblock. rewrite Ei, H0, put_addr_at by (done || lia || (unfold NDIRECT; lia)).
    destruct (Z.ltb_spec c NDIRECT); [rewrite decide_False by lia; done|].
    rewrite (proj2 (Z.eqb_neq a 0)) by done. change (view k' a) with (view k1 a). by rewrite (fr_zero _ _ _ F), getn_zeros. }
  assert (Hnew : forall c, 0 <= c < MAXFILE -> fblock k x c <> 0 -> area k (fblock k x c) /\ fblock k x c <> a).
  { intros c Hc Hne. destruct (fw_block _ _ W c Hc) as [|[Har _]]; [done|]. split; [done|].
    intros E. destruct Har as [_ _ _ _ Hu]. by rewrite E, (fr_free _ _ _ F) in Hu. }
  split; [|by rewrite Ex]. split; rewrite ?Ex, ?Ei; try done.
  - etransitivity; [apply op_wframe, Hfr|apply set_inode_wframe].
  - by apply in_op_set_inode.
  - destruct W as [W1 W2 W3 W4 W5 W6 W7]. split; rewrite ?Ei; try done; [unfold put_addr; simpl; by rewrite length_insert|by right|..].
    + intros c Hc. rewrite Hf by done. destruct (decide (fblock k x c = 0)); [by left|right].
      destruct (Hnew c Hc) as [H1 H2]; [done|]. split; [by eapply area_grown|done].
    + intros c c' Hc Hc'. rewrite !Hf by done. by apply W6.
    + intros c Hc Hsz. rewrite Hf; [by apply W7|]. change (i_size x <= 274432) with (i_size x <= MAXFILE * BSIZE) in *.
      change (c * BSIZE < i_size x) in Hsz. change MAXFILE with 268 in *. unfold BSIZE in *. lia.
  - intros c Hc _. by apply Hf.
  - right. split; [done|apply F].
  - intros c Hc Hc0. left. by rewrite Hf.
  - intros c Hc. unfold contents, fdata. rewrite Ex. fold x. rewrite Hf by done. destruct (Z.eqb_spec (fblock k x c) 0); [done|].
    destruct (Hnew c Hc) as [H1 H2]; [done|]. apply (fr_rest _ _ _ F); [done|apply H1].
  - intros m Hm Hu H1 H2 _. apply (fr_rest _ _ _ F); [|done]. intros ->. by rewrite (fr_free _ _ _ F) in Hu.
  - unfold room. rewrite Ex, Ei, (fresh_nfree _ _ _ F). change (nfree k') with (nfree k1).
    rewrite (proj2 (Z.eqb_neq a 0)) by done. fold x. rewrite H0, Z.eqb_refl. lia.
  - intros z [[Hz|Hz]%logged_in|Hz]%logged_in; [by left|right..]; subst; [left|right; left].
Qed.

Lemma fresh_reads k k1 b k2 : reads k k1 -> fresh k1 b k2 -> fresh k b k2.
Proof.
  intros R [F1 F2 F3 F4 F5 F6]. pose proof (bio_op_frame _ _ (rd_frame _ _ R)) as Hf.
  pose proof (of_sb' _ _ Hf) as Esb.
  assert (Eb : bitmap k1 = bitmap k) by (unfold bitmap; by rewrite Esb, (rd_view _ _ R)).
  rewrite Esb, Eb in *. split; try done; [by etransitivity|]. intros m H1 H2. by rewrite F6, (rd_view _ _ R).
Qed.

(** [balloc] and a store of the block in the indirect block. *)
Lemma kept_entry bn b bl bl' k k2 k3 :
  let x := inode_at k ip in
  layout k -> file_wf k x -> NDIRECT <= bn < MAXFILE -> ind x <> 0 -> fblock k x bn = 0 ->
  fresh k b k2 -> op_frame k2 k3 ->
  (forall m, view k3 m = with_block (ind x) (putn 4 (view k2 (ind x)) (4 * (bn - NDIRECT)) b) (view k2) m) ->
  length (view k (ind x)) = Z.to_nat BSIZE ->
  in_op k3 st bl' ∅ -> bl' = logged (logged (logged bl (sb_bmapstart (the_sb k))) b) (ind x) ->
  kept (contents k) [sb_bmapstart (the_sb k); b; ind x] 1 k bl k3 bl' /\ fblock k3 (inode_at k3 ip) bn = b.
Proof.
  intros x Hl W Hbn Hi0 H0 F Hfr3 V3 Hlen Hi ->. pose proof (fr_frame _ _ _ F) as Hfr.
  assert (Hfr' : op_frame k k3) by by etransitivity. pose proof (of_sb' _ _ Hfr') as Esb.
  pose proof (op_frame_inode _ _ ip Hfr') as Ex. fold x in Ex.
  destruct (fw_ind _ _ W) as [|[A1 A2 A3 A4 A5]]; [done|].
  assert (Hai : ind x <> b) by (intros E; rewrite E, (fr_free _ _ _ F) in A5; done).
  assert (Eb : bitmap k3 = bitmap k2).
  { unfold bitmap. rewrite Esb, (of_sb' _ _ Hfr), V3. unfold with_block. by rewrite decide_False by congruence. }
  assert (Hg : grown k k3) by (split; [done|rewrite Eb; apply (fresh_grown _ _ _ F)]).
  assert (Ha : area k3 b).
  { destruct (fresh_area k b k2 Hl F) as [B1 B2 B3 B4 B5]. rewrite (of_sb' _ _ Hfr) in *. by split; rewrite ?Esb, ?Eb. }
  assert (Hb0 : b <> 0) by (destruct Ha; lia). pose proof (bm_size _ _ (ly_bm _ Hl)) as Hsz.
  assert (Hf : forall c, 0 <= c < MAXFILE -> fblock k3 x c = if decide (c = bn) then b else fblock k x c).
  { intros c Hc. unfold fblock. destruct (Z.ltb_spec c NDIRECT); [by rewrite decide_False by lia|].
    rewrite (proj2 (Z.eqb_neq (ind x) 0)) by done. rewrite V3, (fresh_ind k b k2 x) by done.
    unfold with_block. rewrite decide_True by done. change MAXFILE with 268 in *. unfold NDIRECT, FSSIZE in *.
    case_decide.
    - subst c. apply getn_putn_eq; [lia|rewrite Hlen; unfold BSIZE; lia|].
      pose proof (fr_range _ _ _ F). change (256 ^ Z.of_nat 4) with 4294967296. lia.
    - apply getn_putn_ne; lia. }
  assert (Hv : forall m, m <> b -> m <> ind x -> m <> sb_bmapstart (the_sb k) -> view k3 m = view k m).
  { intros m H1 H2 H3. rewrite V3. unfold with_block. rewrite decide_False by done. by apply (fr_rest _ _ _ F). }
  assert (Hbn' : 0 <= bn < MAXFILE) by (unfold NDIRECT in *; lia).
  split; [|rewrite Ex, Hf by done; by rewrite decide_True]. split; rewrite ?Ex; try done.
  - by apply op_wframe.
  - apply (wf_add k k3 x x bn b); try done; [apply W|apply F].
  - intros c Hc Hn. rewrite Hf by done. case_decide; [by subst|done].
  - by left.
  - intros c Hc Hc0. rewrite Hf by done. case_decide; [right; apply F|by left].
  - unfold contents. rewrite Ex. apply (data_add k k3 x x bn b); try done; [apply F|]. rewrite V3. unfold with_block.
    rewrite decide_False by done. apply F.
  - intros m Hm Hu H1 H2 _. apply Hv; try done. intros ->. by rewrite (fr_free _ _ _ F) in Hu.
  - unfold room, nfree. rewrite Ex, Eb, Esb. pose proof (fresh_nfree _ _ _ F) as En.
    unfold nfree in En. rewrite (of_sb' _ _ Hfr) in En. fold x. lia.
  - intros z [[[Hz|Hz]%logged_in|Hz]%logged_in|Hz]%logged_in; [by left|right; subst..];
      [left|right; left|right; right; left].
Qed.

(** A state in which the inode can be written. *)
Record wst (k : kernel) (bl : list Z) : Prop := {
  ws_op : in_op k st bl ∅;
  ws_layout : layout k;
  ws_wf : file_wf k (inode_at k ip);
  ws_ip : (ip < length (inodes k))%nat }.

Lemma kept_wst G S c k bl k' bl' : kept G S c k bl k' bl' -> wst k bl -> wst k' bl'.
Proof.
  intros [] [W1 W2 W3 W4]. split; try done; [by eapply layout_grown|]. by rewrite (wfr_len _ _ _ kp_frame0).
Qed.

(** The indirect block, if there is one. *)
Definition inds (x : inode) : list Z := if ind x =? 0 then [] else [ind x].

(** The blocks that mapping [bn] writes. *)
Definition map_blocks (k : kernel) (bn : Z) : list Z :=
  sb_bmapstart (the_sb k) :: fblock k (inode_at k ip) bn :: inds (inode_at k ip).

Lemma length_map_blocks k bn : (length (map_blocks k bn) <= 3)%nat.
Proof. unfold map_blocks, inds. destruct (_ =? 0); simpl; lia. Qed.

Lemma kept_nop k bl bn : wst k bl -> kept (contents k) (map_blocks k bn) 1 k bl k bl.
Proof.
  intros [W1 W2 W3 W4]. apply (kept_mono (contents k) _ [] _ 0); [by apply kept_reads| |lia|done]. intros z Hz. by apply not_elem_of_nil in Hz.
Qed.

Lemma bmap_indirect bn bl (Q : Z -> kernel -> Prop) k :
  let x := inode_at k ip in
  wst k bl -> NDIRECT <= bn < MAXFILE -> (length bl < 26)%nat -> ind x <> 0 -> 1 <= room k ->
  (forall k' bl', kept (contents k) (map_blocks k' bn) 1 k bl k' bl' -> fblock k' (inode_at k' ip) bn <> 0 ->
     Q (fblock k' (inode_at k' ip) bn) k') ->
  wp disk_turn (let* bp := bread (i_dev x) (ind x) in
    let* d := get_data bp in
    let addr := getn 4 d (4 * (bn - NDIRECT)) in
    if addr =? 0 then
      let* addr := balloc (i_dev x) in
      set_data bp (fun d => putn 4 d (4 * (bn - NDIRECT)) addr) ;;
      log_write bp ;;
      brelse bp ;;
      ret addr
    else
      brelse bp ;;
      ret addr) Q k.
Proof.
  intros x Hw Hbn Hroom Hi0 Hr HQ. pose proof Hw as [Hop Hl W Hip]. fold x in W.
  destruct (fw_ind _ _ W) as [|Har]; [done|]. pose proof (bm_size _ _ (ly_bm _ Hl)) as Hsz.
  pose proof Har as [A1 A2 A3 A4 A5].
  assert (Hfb : getn 4 (view k (ind x)) (4 * (bn - NDIRECT)) = fblock k x bn).
  { unfold fblock. rewrite (proj2 (Z.ltb_ge bn NDIRECT)), (proj2 (Z.eqb_neq (ind x) 0)) by (done || lia). done. }
  rewrite (fw_dev _ _ W). apply wp_bind, (bread_op (ind x) bl ∅);
    [apply Hop|lia|done|rewrite map_size_empty; unfold NBUF; lia|]. intros bp k1 _ R1 F1.
  apply wp_bind, (get_data_op bp (ind x) bl _ _ _ F1); [apply lookup_insert_eq|]. rewrite (rd_view _ _ R1). cbv zeta.
  rewrite Hfb. destruct (Z.eqb_spec (fblock k x bn) 0) as [E0|E0].
  - destruct (reads_bitmap _ _ _ R1 (ly_bm _ Hl)) as (Es & Eb & Hbm1).
    apply wp_bind, (balloc_op st bl (<[bp := ind x]> ∅)); [by eapply in_op_reads| |done|lia| | |].
    + intros b m [[<- <-]|[_ Hm]]%lookup_insert_Some; [|by rewrite lookup_empty in Hm].
      rewrite Es, Eb. split_and!; [lia|lia|done|done].
    + rewrite map_size_insert_None by done. rewrite map_size_empty. lia.
    + unfold room in Hr. fold x in Hr. unfold nfree in *. rewrite Es, Eb. destruct (ind x =? 0); lia.
    + intros b k2 Fr2 Hi2. apply (fresh_reads k) in Fr2; [|done]. rewrite Es in Hi2.
      pose proof (length_logged (logged bl (sb_bmapstart (the_sb k))) b). pose proof (length_logged bl (sb_bmapstart (the_sb k))).
      apply (change_then _ bp (ind x) _ st _ (<[bp := ind x]> ∅) _ _ Hi2); [apply lookup_insert_eq|done|lia| |].
      { rewrite length_putn. eapply view_length, Hi2. }
      intros k3 Fr3 Hi3 V3. rewrite delete_insert_id in Hi3 by done. apply wp_ret.
      destruct (kept_entry bn b bl _ k k2 k3 Hl W Hbn Hi0 E0 Fr2 Fr3 V3 ltac:(eapply view_length, Hop) Hi3 eq_refl) as [K Eb3].
      rewrite <- Eb3. apply (HQ k3 (logged (logged (logged bl (sb_bmapstart (the_sb k))) b) (ind x))).
      * apply (kept_mono _ _ _ _ 1 _ _ _ _ _ K); [|lia|done]. unfold map_blocks, inds. rewrite Eb3.
        pose proof (op_frame_inode _ _ ip (transitivity (fr_frame _ _ _ Fr2) Fr3)) as Ex. fold x in Ex. rewrite Ex.
        rewrite (proj1 (kp_grown _ _ _ _ _ _ _ K)), (proj2 (Z.eqb_neq (ind x) 0)) by done. done.
      * rewrite Eb3. intros ->. pose proof (fr_free _ _ _ Fr2) as Hu. by rewrite (ly_zero _ Hl) in Hu.
  - apply wp_bind, (brelse_op bp (ind x) bl _ _ _ F1); [apply lookup_insert_eq|]. intros k2 R2 F2.
    rewrite delete_insert_id in F2 by done. apply wp_ret. assert (R : reads k k2) by by etransitivity.
    assert (Hi2 : in_op k2 st bl ∅) by by eapply in_op_reads.
    pose proof (kept_reads k k2 bl R Hi2 W) as K. 
    assert (Ef : fblock k2 (inode_at k2 ip) bn = fblock k x bn).
    { apply (kp_block _ _ _ _ _ _ _ K); [unfold NDIRECT in *; lia|done]. }
    rewrite <- Ef. apply (HQ k2 bl); [|by rewrite Ef]. apply (kept_mono (contents k) _ [] _ 0); [done| |lia|done].
    intros z Hz. by apply not_elem_of_nil in Hz.
Qed.

Lemma room_nfree k : 1 <= room k -> 0 < nfree k.
Proof. unfold room. destruct (_ =? 0); lia. Qed.

(** [bmap] finds or makes the block. *)
Lemma bmap_op bn bl (Q : Z -> kernel -> Prop) k :
  wst k bl -> 0 <= bn < MAXFILE -> (length bl < 24)%nat -> 1 <= room k ->
  (forall k' bl', kept (contents k) (map_blocks k' bn) 1 k bl k' bl' -> fblock k' (inode_at k' ip) bn <> 0 ->
     Q (fblock k' (inode_at k' ip) bn) k') ->
  wp disk_turn (bmap ip bn) Q k.
Proof.
  intros Hw Hbn Hroom Hr HQ. pose proof Hw as [Hop Hl W Hip]. unfold bmap. apply wp_bind, wp_gets.
  set (x := inode_at k ip) in *. pose proof (ly_bm _ Hl) as Hbm. pose proof (room_nfree k Hr) as Hfree.
  assert (Hh : held_used k ∅) by (intros b m Hm; by rewrite lookup_empty in Hm).
  assert (Hs0 : (size (∅ : gmap nat Z) + length bl < 28)%nat) by (rewrite map_size_empty; lia).
  destruct (Z.ltb_spec bn NDIRECT) as [Hd|Hd].
  - assert (Ef : fblock k x bn = addr_at x bn) by (unfold fblock; by rewrite (proj2 (Z.ltb_lt bn NDIRECT))).
    rewrite <- Ef. destruct (Z.eqb_spec (fblock k x bn) 0) as [E0|E0].
    + rewrite (fw_dev _ _ W). apply wp_bind, (balloc_op st bl ∅); [done|done|done|lia|done|done|].
      intros b k1 F1 Hi1. apply wp_bind, wp_modify, wp_ret.
      destruct (kept_direct bn b bl _ k k1 Hl W Hip ltac:(lia) E0 F1 Hi1 eq_refl) as [K Eb].
      set (k2 := set_inode _ _ k1) in *. clearbody k2. rewrite <- Eb. eapply HQ.
      * apply (kept_mono _ _ _ _ 1 _ _ _ _ _ K); [|lia|done]. intros z. unfold map_blocks.
        rewrite Eb, (proj1 (kp_grown _ _ _ _ _ _ _ K)), !elem_of_cons, elem_of_nil. tauto.
      * rewrite Eb. intros ->. pose proof (fr_free _ _ _ F1) as Hu. by rewrite (ly_zero _ Hl) in Hu.
    + apply wp_ret. apply (HQ k bl); [by apply kept_nop|done].
  - rewrite (proj2 (Z.ltb_lt (bn - NDIRECT) NINDIRECT)) by (change MAXFILE with 268 in *; change NINDIRECT with 256; unfold NDIRECT in *; lia).
    fold (ind x). destruct (Z.eqb_spec (ind x) 0) as [E0|E0].
    + apply wp_bind. rewrite (fw_dev _ _ W). apply wp_bind, (balloc_op st bl ∅); [done|done|done|lia|done|done|].
      intros a k1 F1 Hi1. apply wp_bind, wp_modify, wp_ret.
      destruct (kept_newind a bl _ k k1 Hl W Hip E0 F1 Hi1 eq_refl) as [K Ea]. set (k2 := set_inode _ _ k1) in *.
      pose proof (kept_wst _ _ _ _ _ _ _ K Hw) as Hw2. pose proof (length_logged (logged bl (sb_bmapstart (the_sb k))) a).
      pose proof (length_logged bl (sb_bmapstart (the_sb k))).
      rewrite <- (fw_dev _ _ (ws_wf _ _ Hw2)), <- Ea.
      apply (bmap_indirect bn (logged (logged bl (sb_bmapstart (the_sb k))) a)); [done|lia|lia| |pose proof (kp_room _ _ _ _ _ _ _ K); lia|].
      * rewrite Ea. intros ->. pose proof (fr_free _ _ _ F1) as Hu. by rewrite (ly_zero _ Hl) in Hu.
      * intros k3 bl3 K3. apply (HQ k3 bl3). apply (kept_mono _ _ _ _ (0 + 1) _ _ _ _ _ (kept_trans _ _ _ _ _ _ _ _ _ _ _ _ K K3)); [|lia|apply K].
        intros z. rewrite elem_of_app. intros [Hz|Hz]; [|done]. unfold map_blocks, inds.
        assert (Ha : a <> 0) by (intros ->; pose proof (fr_free _ _ _ F1) as Hu; by rewrite (ly_zero _ Hl) in Hu).
        destruct (kp_ind _ _ _ _ _ _ _ K3) as [E3|[E3 _]]; [|congruence].
        rewrite E3, Ea, (proj2 (Z.eqb_neq a 0)) by done. rewrite (proj1 (kp_grown _ _ _ _ _ _ _ K3)), (proj1 (kp_grown _ _ _ _ _ _ _ K)).
        apply elem_of_cons in Hz as [->|[->|Hz]%elem_of_cons]; [left|right; right; left|by apply not_elem_of_nil in Hz].
    + apply wp_bind, wp_ret. apply (bmap_indirect bn bl); [done|lia|lia|done|done|done].
Qed.

(** ** The loop of [writei] *)

(** A block of the file is changed. *)
Lemma kept_data bn d bl k k' :
  let x := inode_at k ip in
  let b := fblock k x bn in
  wst k bl -> 0 <= bn < MAXFILE -> b <> 0 -> op_frame k k' -> in_op k' st (logged bl b) ∅ ->
  (forall m, view k' m = with_block b d (view k) m) ->
  kept (set_block bn d (contents k)) [b] 0 k bl k' (logged bl b).
Proof.
  intros x b [Hop Hl W Hip] Hbn Hb Hfr Hi V. pose proof (op_frame_inode _ _ ip Hfr) as Ex. fold x in Ex.
  pose proof (of_sb' _ _ Hfr) as Esb. fold x in W. destruct (fw_block _ _ W bn Hbn) as [|[[A1 A2 A3 A4 A5] A6]]; [done|].
  fold b in A1, A2, A3, A4, A5, A6.
  assert (Eb : bitmap k' = bitmap k) by (unfold bitmap; rewrite Esb, V; unfold with_block; by rewrite decide_False by congruence).
  assert (Hg : grown k k') by (split; [done|by rewrite Eb]).
  assert (Hf : forall c, fblock k' x c = fblock k x c).
  { intros c. unfold fblock. rewrite V. unfold with_block. by rewrite decide_False by congruence. }
  split; rewrite ?Ex; try done.
  - by apply op_wframe.
  - destruct W as [W1 W2 W3 W4 W5 W6 W7]. split; try done.
    + destruct W4; [by left|right; by eapply area_grown].
    + intros c Hc. rewrite Hf. destruct (W5 c Hc) as [|[? ?]]; [by left|right; split; [by eapply area_grown|done]].
    + intros c c'. rewrite !Hf. apply W6.
    + intros c. rewrite Hf. apply W7.
  - by left.
  - intros c Hc H0. left. by rewrite Hf.
  - intros c Hc. unfold contents, fdata, set_block. rewrite Ex. fold x. rewrite Hf, V. unfold with_block. destruct (decide (c = bn)) as [->|E].
    + fold b. rewrite decide_True by done. by rewrite (proj2 (Z.eqb_neq b 0)).
    + destruct (Z.eqb_spec (fblock k x c) 0) as [|Hn]; [done|]. rewrite decide_False; [done|].
      intros E2. apply E. by apply (fw_inj _ _ W).
  - intros m Hm Hu H1 H2 H3. rewrite V. unfold with_block. rewrite decide_False; [done|]. intros ->. by apply (H3 bn).
  - unfold room, nfree. rewrite Ex, Eb, Esb. fold x. lia.
  - intros z [Hz|Hz]%logged_in; [by left|right; subst; left].
Qed.

(** The blocks a write of the blocks [bs] of the file logs. *)
Definition log_blocks (k : kernel) (bs : list Z) : list Z :=
  sb_bmapstart (the_sb k) :: inds (inode_at k ip) ++ map (fblock k (inode_at k ip)) bs.

Lemma length_log_blocks k bs : (length (log_blocks k bs) <= 2 + length bs)%nat.
Proof. unfold log_blocks, inds. destruct (_ =? 0); simpl; rewrite length_map; lia. Qed.

Lemma inds_kept G S c k bl k' bl' z : kept G S c k bl k' bl' -> z ∈ inds (inode_at k ip) -> z ∈ inds (inode_at k' ip).
Proof.
  intros K. unfold inds. destruct (Z.eqb_spec (ind (inode_at k ip)) 0) as [|Hn]; [intros Hz; by apply not_elem_of_nil in Hz|].
  destruct (kp_ind _ _ _ _ _ _ _ K) as [->|[]]; [|done]. by rewrite (proj2 (Z.eqb_neq _ _)).
Qed.

Lemma log_blocks_kept G S c k bl k' bl' bs bs' z :
  kept G S c k bl k' bl' -> (forall bn, bn ∈ bs -> 0 <= bn < MAXFILE /\ fblock k (inode_at k ip) bn <> 0) ->
  z ∈ log_blocks k bs -> z ∈ log_blocks k' (bs ++ bs').
Proof.
  intros K Hbs. unfold log_blocks. rewrite (proj1 (kp_grown _ _ _ _ _ _ _ K)), !elem_of_cons, !elem_of_app.
  intros [->|[Hz|Hz]]; [by left|right; left; by eapply inds_kept|right; right].
  apply list_elem_of_fmap in Hz as (bn & -> & Hin). destruct (Hbs bn Hin) as [Hr Hn].
  rewrite <- (kp_block _ _ _ _ _ _ _ K bn Hr Hn). apply list_elem_of_fmap. exists bn. split; [done|].
  apply elem_of_app. by left.
Qed.

(** A copy from a variable of the caller. *)
Lemma either_copyin_local l m bl H (Q : Z * list Z -> kernel -> Prop) k :
  fs_st k bl H -> (forall k', reads k k' -> fs_st k' bl H -> Q (0, take (Z.to_nat m) l) k') ->
  wp disk_turn (either_copyin (From_local l) m) Q k.
Proof.
  intros Hf HQ. unfold either_copyin. apply wp_bind, wp_myproc; [apply ca_ok, Hf|].
  intros s Hs _. apply wp_ret.
  assert (R : reads k (set_sy s k)) by by split.
  apply HQ; [done|]. eapply fs_st_bio_frame; [done|apply R| |done|done].
  apply bio_ok_sync; [by apply quiet_run_pid|apply Hf].
Qed.

Lemma contents_length k bl bn : wst k bl -> length (contents k bn) = Z.to_nat BSIZE.
Proof.
  intros W. unfold contents, fdata. destruct (_ =? 0); [apply repeat_length|]. eapply view_length, (ws_op _ _ W).
Qed.

(** One iteration. *)
Lemma chunk_op {A} bn o l m (fail rest : M A) bl (Q : A -> kernel -> Prop) k :
  wst k bl -> 0 <= bn < MAXFILE -> (length bl < 24)%nat -> 1 <= room k ->
  (forall k' bl', kept (set_block bn (splice (contents k bn) o (take (Z.to_nat m) l)) (contents k)) (log_blocks k' [bn]) 1 k bl k' bl' ->
     fblock k' (inode_at k' ip) bn <> 0 -> wp disk_turn rest Q k') ->
  wp disk_turn (let* addr := bmap ip bn in
    let* x := get_inode ip in
    let* bp := bread (i_dev x) addr in
    let* r := either_copyin (From_local l) m in
    let '(r, bytes) := r in
    set_data bp (fun d => splice d o bytes) ;;
    if r =? -1 then brelse bp ;; fail
    else log_write bp ;; brelse bp ;; rest) Q k.
Proof.
  intros Hw Hbn Hlen Hr HQ. apply wp_bind, (bmap_op bn bl); [done..|]. intros k1 bl1 K1 Hb.
  pose proof (kept_wst _ _ _ _ _ _ _ K1 Hw) as Hw1. apply wp_bind, wp_gets.
  set (x1 := inode_at k1 ip) in *. set (b := fblock k1 x1 bn) in *.
  pose proof (kept_length _ _ _ _ _ _ _ K1) as Hl1. pose proof (length_map_blocks k1 bn).
  destruct (fw_block _ _ (ws_wf _ _ Hw1) bn Hbn) as [|[[A1 A2 A3 A4 A5] A6]]; [done|]. fold x1 in A1, A2. fold b in A1, A2.
  pose proof (bm_size _ _ (ly_bm _ (ws_layout _ _ Hw1))) as Hsz.
  assert (Ed : i_dev x1 = ROOTDEV) by apply Hw1. rewrite Ed. apply wp_bind, (bread_op b bl1 ∅);
    [apply Hw1|lia|done|rewrite map_size_empty; unfold NBUF; lia|]. intros bp k2 _ R2 F2.
  apply wp_bind, (either_copyin_local l m bl1 _ _ _ F2). intros k3 R3 F3. cbn [fst snd]. change (0 =? -1) with false. cbv iota.
  assert (R : reads k1 k3) by by etransitivity.
  apply (change_then _ bp b _ st bl1 (<[bp := b]> ∅)); [eapply in_op_reads; [apply Hw1|done|done]|apply lookup_insert_eq|done|lia| |].
  { rewrite length_splice. eapply view_length, F3. }
  intros k4 Fr4 Hi4 V4. rewrite delete_insert_id in Hi4 by done.
  assert (K2 : kept (set_block bn (splice (view k1 b) o (take (Z.to_nat m) l)) (contents k1)) [b] 0 k1 bl1 k4 (logged bl1 b)).
  { apply kept_data; try done.
    - etransitivity; [apply bio_op_frame, R|done].
    - intros z. rewrite V4. unfold with_block. fold x1 b. by rewrite !(rd_view _ _ R). }
  assert (E : view k1 b = contents k bn).
  { rewrite <- (kp_data _ _ _ _ _ _ _ K1 bn Hbn). unfold contents, fdata. fold x1 b. by rewrite (proj2 (Z.eqb_neq b 0)). }
  rewrite E in K2. assert (Eb : fblock k4 (inode_at k4 ip) bn = b) by by apply (kp_block _ _ _ _ _ _ _ K2).
  apply (HQ k4 (logged bl1 b)); [|by rewrite Eb].
  apply (kept_mono _ _ _ _ (1 + 0) _ _ _ _ _ (kept_trans _ _ _ _ _ _ _ _ _ _ _ _ K1 K2)); [|lia|].
  - intros z. unfold map_blocks, log_blocks. rewrite (proj1 (kp_grown _ _ _ _ _ _ _ K2)). cbn [map]. rewrite Eb. fold x1 b.
    intros [[->|[->|Hz]%elem_of_cons]%elem_of_cons|Hz]%elem_of_app.
    + left.
    + right. apply elem_of_app. right. left.
    + right. apply elem_of_app. left. by eapply inds_kept.
    + right. apply elem_of_app. by right.
  - intros c Hc. unfold set_block. case_decide; [done|]. by apply (kp_data _ _ _ _ _ _ _ K1).
Qed.

Lemma writei_loop_op fuel l off n tot bs G (Q : Z * bool -> kernel -> Prop) k0 bl0 k bl :
  wst k0 bl0 -> kept G (log_blocks k bs) (Z.of_nat (length bs)) k0 bl0 k bl ->
  (forall bn, bn ∈ bs -> 0 <= bn < MAXFILE /\ fblock k (inode_at k ip) bn <> 0) ->
  0 <= off -> 0 <= tot <= n -> off + (n - tot) <= MAXFILE * BSIZE -> Z.of_nat (length l) = n - tot ->
  (0 < fuel)%nat -> (tot < n -> off mod BSIZE + (n - tot) <= BSIZE * (Z.of_nat fuel - 1)) ->
  Z.of_nat (length bl0) + Z.of_nat (length bs) + nblk off (n - tot) <= 22 ->
  Z.of_nat (length bs) + nblk off (n - tot) <= room k0 ->
  (forall k' bl' bs' G', bs' = bs ++ seqZ (off / BSIZE) (nblk off (n - tot)) ->
     kept G' (log_blocks k' bs') (Z.of_nat (length bs')) k0 bl0 k' bl' ->
     (forall bn, bn ∈ bs' -> 0 <= bn < MAXFILE /\ fblock k' (inode_at k' ip) bn <> 0) ->
     (forall i, 0 <= i -> cbyte G' i = overwrite (cbyte G) off l i) -> Q (off + (n - tot), true) k') ->
  wp disk_turn (writei_loop fuel ip (From_local l) off n tot) Q k.
Proof.
  intros Hw0. revert l off tot bs G k bl. induction fuel as [|fuel IH]; intros l off tot bs G k bl K Hbs Ho Ht Hend Hl Hfu Hfuel Hlog Hroom HQ; [lia|].
  cbn [writei_loop]. destruct (Z.ltb_spec tot n) as [Hlt|Hge].
  2:{ apply wp_ret. assert (n - tot = 0) as E by lia. rewrite E in *. rewrite Z.add_0_r in HQ.
      apply (HQ k bl bs G); try done; [by rewrite app_nil_r|]. intros i Hi. unfold overwrite. rewrite Hl, Z.add_0_r.
      destruct (Z.leb_spec off i), (Z.ltb_spec i off); done || lia. }
  assert (HB : 0 < BSIZE) by done. pose proof (Z.div_mod off BSIZE) as Hdm. pose proof (Z.mod_pos_bound off BSIZE HB) as Hmod.
  set (m := Z.min (n - tot) (BSIZE - off mod BSIZE)). set (bn := off / BSIZE) in *.
  destruct (nblk_step off (n - tot) m Ho ltac:(lia) eq_refl) as [Enb Enext]. pose proof (nblk_pos (off + m) (n - tot - m) ltac:(lia)).
  assert (Hbn : 0 <= bn < MAXFILE).
  { split; [apply Z.div_pos; lia|apply Z.div_lt_upper_bound; lia]. }
  pose proof (kept_wst _ _ _ _ _ _ _ K Hw0) as Hw. pose proof (kept_length _ _ _ _ _ _ _ K) as Hlen.
  pose proof (length_log_blocks k bs). pose proof (kp_room _ _ _ _ _ _ _ K).
  apply (chunk_op bn (Z.to_nat (off mod BSIZE)) l m _ _ bl _ _ Hw Hbn); [lia|lia|]. intros k1 bl1 K1 Hb1.
  assert (Hs : MAXFILE * BSIZE = 274432) by done. rewrite u32_small by lia. cbn [source_add].
  pose proof (kept_trans _ _ _ _ _ _ _ _ _ _ _ _ K K1) as K2.
  assert (Hlt1 : length (take (Z.to_nat m) l) = Z.to_nat m) by (rewrite length_take; lia).
  eapply (IH (drop (Z.to_nat m) l) (off + m) (tot + m) (bs ++ [bn])
    (set_block bn (splice (G bn) (Z.to_nat (off mod BSIZE)) (take (Z.to_nat m) l)) G) k1 bl1); try lia.
  - apply (kept_mono _ _ _ _ _ _ _ _ _ _ K2); [|rewrite length_app; simpl; lia|].
    + intros z [Hz|Hz]%elem_of_app; [by apply (log_blocks_kept _ _ _ _ _ _ _ _ _ _ K1)|].
      unfold log_blocks in *. rewrite map_app. apply elem_of_cons in Hz as [->|[Hz|Hz]%elem_of_app]; [left|right..];
        rewrite !elem_of_app; auto.
    + intros c Hc. unfold set_block. rewrite !(kp_data _ _ _ _ _ _ _ K) by done. done.
  - intros c [Hc|Hc]%elem_of_app.
    + destruct (Hbs c Hc) as [Hr1 Hn1]. split; [done|]. by rewrite (kp_block _ _ _ _ _ _ _ K1).
    + apply list_elem_of_singleton in Hc as ->. done.
  - rewrite length_drop. lia.
  - intros Hlt'. destruct (next_block off m (n - tot)) as [E1 E2]; lia || rewrite E1; lia.
  - rewrite length_app. simpl. replace (n - (tot + m)) with (n - tot - m) by lia. lia.
  - rewrite length_app. simpl. replace (n - (tot + m)) with (n - tot - m) by lia. lia.
  - replace (n - (tot + m)) with (n - tot - m) by lia. intros k' bl' bs' G' Ebs K' Hbs' HG'.
    replace (off + m + (n - tot - m)) with (off + (n - tot)) by lia. apply (HQ k' bl' bs' G'); try done.
    + rewrite Ebs, <- app_assoc, Enb. f_equal. rewrite (seqZ_cons bn) by lia. simpl. f_equal.
      replace (Z.pred (1 + nblk (off + m) (n - tot - m))) with (nblk (off + m) (n - tot - m)) by lia.
      destruct (decide (m < n - tot)); [by rewrite Enext|].
      unfold nblk. rewrite (proj2 (Z.leb_le (n - tot - m) 0)) by lia. done.
    + intros i Hi. rewrite HG' by done.
      transitivity (overwrite (cbyte G) off (take (Z.to_nat m) l ++ drop (Z.to_nat m) l) i); [|by rewrite take_drop].
      rewrite <- overwrite_app, Hlt1, Z2Nat.id by lia.
      apply overwrite_ext, cbyte_set; [lia|lia|rewrite Hlt1; lia|].
      rewrite <- (kp_data _ _ _ _ _ _ _ K) by done. apply (contents_length k bl). done.
Qed.

(** ** [iupdate] and [writei] *)

Lemma wf_resize k x s :
  file_wf k x -> 0 <= s <= MAXFILE * BSIZE -> (forall bn, 0 <= bn -> bn * BSIZE < s -> fblock k x bn <> 0) ->
  file_wf k (set_i_size s x).
Proof. intros [W1 W2 W3 W4 W5 W6 W7] Hs Hf. by split. Qed.

Lemma wst_set_size k bl s :
  wst k bl -> 0 <= s <= MAXFILE * BSIZE ->
  (forall bn, 0 <= bn -> bn * BSIZE < s -> fblock k (inode_at k ip) bn <> 0) ->
  wst (set_inode ip (set_i_size s) k) bl.
Proof.
  intros [Hop Hl W Hip] Hs Hf. assert (Hg : grown k (set_inode ip (set_i_size s) k)) by by split.
  split; [by apply in_op_set_inode|by eapply layout_grown| |by rewrite (wfr_len _ _ _ (set_inode_wframe ip _ k))].
  rewrite set_inode_at by done. destruct (wf_resize k _ s W Hs Hf) as [W1 W2 W3 W4 W5 W6 W7]. split; try done.
  - destruct W4; [by left|right; by eapply area_grown].
  - intros bn Hbn. destruct (W5 bn Hbn) as [|[? ?]]; [by left|right; split; [by eapply area_grown|done]].
Qed.

(** The block of the inode is not a block of the file. *)
Lemma wst_inob k k' bl :
  wst k bl -> op_frame k k' -> in_op k' st (logged bl inob) ∅ -> (forall m, m <> inob -> view k' m = view k m) ->
  wst k' (logged bl inob) /\ (forall bn, 0 <= bn < MAXFILE -> contents k' bn = contents k bn) /\
  (forall bn, fblock k' (inode_at k' ip) bn = fblock k (inode_at k ip) bn).
Proof.
  intros [Hop Hl W Hip] Hfr Hi V. pose proof (op_frame_inode _ _ ip Hfr) as Ex. pose proof (of_sb' _ _ Hfr) as Esb.
  set (x := inode_at k ip) in *. pose proof (ly_ne _ Hl) as Hne.
  assert (Eb : bitmap k' = bitmap k) by (unfold bitmap; rewrite Esb; apply V; congruence).
  assert (Hg : grown k k') by (split; [done|by rewrite Eb]).
  assert (Hf : forall c, fblock k' x c = fblock k x c).
  { intros c. unfold fblock. destruct (c <? NDIRECT); [done|]. destruct (Z.eqb_spec (ind x) 0); [done|].
    destruct (fw_ind _ _ W) as [|[]]; [done|]. by rewrite V. }
  split_and!.
  - split; [done|by eapply layout_grown| |].
    + rewrite Ex. destruct W as [W1 W2 W3 W4 W5 W6 W7]. split; try done.
      * destruct W4; [by left|right; by eapply area_grown].
      * intros c Hc. rewrite Hf. destruct (W5 c Hc) as [|[? ?]]; [by left|right; split; [by eapply area_grown|done]].
      * intros c c'. rewrite !Hf. apply W6.
      * intros c. rewrite Hf. apply W7.
    + unfold inodes. by rewrite (of_icache _ _ Hfr).
  - intros c Hc. unfold contents, fdata. rewrite Ex, Hf. fold x. destruct (Z.eqb_spec (fblock k x c) 0); [done|].
    destruct (fw_block _ _ W c Hc) as [|[[] _]]; [done|]. by apply V.
  - intros c. by rewrite Ex, Hf.
Qed.

Lemma iupdate_op bl (Q : unit -> kernel -> Prop) k :
  let x := inode_at k ip in
  wst k bl -> IBLOCK (i_inum x) (the_sb k) = inob -> (length bl < 28)%nat ->
  (forall k', op_frame k k' -> in_op k' st (logged bl inob) ∅ ->
     (forall m, view k' m = with_block inob (store_dinode x (dinode_off (i_inum x)) (view k inob)) (view k) m) -> Q tt k') ->
  wp disk_turn (iupdate ip) Q k.
Proof.
  intros x [Hop Hl W Hip] Hino Hlen HQ. unfold iupdate. apply wp_bind, wp_gets, wp_bind, wp_gets. fold x (the_sb k). rewrite Hino.
  fold x in W. rewrite (fw_dev _ _ W). pose proof (bm_size _ _ (ly_bm _ Hl)). pose proof (ly_range _ Hl).
  apply wp_bind, (bread_op inob bl ∅); [apply Hop|lia|done|rewrite map_size_empty; unfold NBUF; lia|]. intros bp k1 _ R1 F1.
  apply wp_bind, wp_gets. rewrite (reads_inode _ _ ip R1). fold x.
  apply (change_op bp inob _ st bl (<[bp := inob]> ∅)); [by eapply in_op_reads|apply lookup_insert_eq|apply Hl|lia| |].
  { unfold store_dinode. rewrite length_splice, !length_putn. eapply view_length, F1. }
  intros k2 Fr2 Hi2 V2. rewrite delete_insert_id in Hi2 by done. apply HQ; [|done|].
  - etransitivity; [apply bio_op_frame, R1|done].
  - intros m. rewrite V2. unfold with_block. by rewrite !(rd_view _ _ R1).
Qed.

Lemma wf_file_ok k x : layout k -> file_wf k x -> file_ok k x.
Proof.
  intros Hl W. pose proof (bm_size _ _ (ly_bm _ Hl)) as Hsz. pose proof (fw_size _ _ W) as Hs.
  assert (Hb : forall bn, 0 <= bn -> bn * BSIZE < i_size x -> fblock k x bn <> 0 /\ file_block k x bn = fblock k x bn /\ 0 <= bn < MAXFILE).
  { intros bn H1 H2. pose proof (fw_full _ _ W bn H1 H2) as Hn. split; [done|]. split.
    - unfold file_block, fblock in *. destruct (bn <? NDIRECT); [done|]. destruct (ind x =? 0); done.
    - change MAXFILE with 268 in *. unfold BSIZE in *. lia. }
  split.
  - apply W.
  - done.
  - intros bn H1 H2. destruct (Hb bn H1 H2) as (H3 & -> & H4). destruct (fw_block _ _ W bn H4) as [|[[] _]]; [done|lia].
  - intros Hn. destruct (Hb NDIRECT) as (H3 & _ & _); [unfold NDIRECT; lia|done|]. unfold fblock in H3. simpl in H3.
    fold (ind x). destruct (fw_ind _ _ W) as [E|[]]; [|lia]. by rewrite E in H3.
Qed.

Lemma contents_byte k x i : file_wf k x -> 0 <= i < i_size x -> cbyte (fdata k x) i = file_byte k x i.
Proof.
  intros W Hi. assert (HB : 0 < BSIZE) by done. pose proof (Z.div_mod i BSIZE). pose proof (Z.mod_pos_bound i BSIZE HB).
  assert (Hn : fblock k x (i / BSIZE) <> 0) by (apply (fw_full _ _ W); [apply Z.div_pos; lia|lia]).
  unfold cbyte, file_byte, fdata. rewrite (proj2 (Z.eqb_neq _ _)) by done.
  unfold fblock, file_block in *. destruct (i / BSIZE <? NDIRECT); [done|]. destruct (ind x =? 0); done.
Qed.

(** What [writei] leaves: the state, the inode, the contents of the file, the
    inode on the disk, and the blocks of others. *)
Record wrote (l : list Z) (off : Z) (k : kernel) (bl : list Z) (k' : kernel) : Prop := {
  wt_state : exists bl', wst k' bl' /\ Z.of_nat (length bl') <= Z.of_nat (length bl) + nblk off (Z.of_nat (length l)) + 3;
  wt_inode : inode_at k' ip = set_i_size (Z.max (i_size (inode_at k ip)) (off + Z.of_nat (length l)))
               (set_i_addrs (i_addrs (inode_at k' ip)) (inode_at k ip));
  wt_bytes i : 0 <= i < i_size (inode_at k' ip) ->
    file_byte k' (inode_at k' ip) i = overwrite (file_byte k (inode_at k ip)) off l i;
  wt_disk : view k' inob = store_dinode (inode_at k' ip) (dinode_off (i_inum (inode_at k ip))) (view k inob);
  wt_frame : wframe ip k k';
  wt_rest m : 0 <= m < sb_size (the_sb k) -> used (bitmap k) m = true -> m <> sb_bmapstart (the_sb k) -> m <> inob ->
    m <> ind (inode_at k ip) -> (forall bn, 0 <= bn < MAXFILE -> fblock k (inode_at k ip) bn <> m) -> view k' m = view k m }.

Lemma kept_start k bl : wst k bl -> kept (contents k) (log_blocks k []) 0 k bl k bl.
Proof.
  intros [W1 W2 W3 W4]. apply (kept_mono (contents k) _ [] _ 0); [by apply kept_reads| |lia|done].
  intros z Hz. by apply not_elem_of_nil in Hz.
Qed.

(** The end of [writei]: from the blocks written to the inode stored. *)
Lemma wrote_intro l off bs G k bl k1 bl1 k2 k3 :
  let x := inode_at k ip in
  let n := Z.of_nat (length l) in
  wst k bl -> 0 <= off <= i_size x -> 0 < n -> bs = seqZ (off / BSIZE) (nblk off n) ->
  kept G (log_blocks k1 bs) (Z.of_nat (length bs)) k bl k1 bl1 ->
  (forall i, 0 <= i -> cbyte G i = overwrite (cbyte (contents k)) off l i) ->
  k2 = set_inode ip (set_i_size (Z.max (i_size x) (off + n))) k1 -> wst k2 bl1 ->
  op_frame k2 k3 -> in_op k3 st (logged bl1 inob) ∅ ->
  (forall m, view k3 m = with_block inob (store_dinode (inode_at k2 ip) (dinode_off (i_inum (inode_at k2 ip))) (view k2 inob)) (view k2) m) ->
  wrote l off k bl k3.
Proof.
  intros x n Hw Ho Hn Hbs K HG Ek2 Hw2 Hfr Hi V. pose proof (kept_wst _ _ _ _ _ _ _ K Hw) as Hw1.
  assert (E2 : inode_at k2 ip = set_i_size (Z.max (i_size x) (off + n)) (inode_at k1 ip)) by (subst k2; apply set_inode_at, Hw1).
  pose proof (op_frame_inode _ _ ip Hfr) as E3. pose proof (kp_attr _ _ _ _ _ _ _ K) as Ea. fold x in Ea.
  assert (Ex : inode_at k3 ip = set_i_size (Z.max (i_size x) (off + n)) (set_i_addrs (i_addrs (inode_at k3 ip)) x)).
  { rewrite E3, E2, Ea. done. }
  destruct (wst_inob k2 k3 bl1 Hw2 Hfr Hi) as (Hw3 & C3 & B3).
  { intros m Hm. rewrite V. unfold with_block. by rewrite decide_False. }
  assert (C2 : forall bn, contents k2 bn = contents k1 bn) by (intros bn; unfold contents; rewrite E2; by subst k2).
  pose proof (nblk_pos off n ltac:(lia)).
  split; try done.
  - exists (logged bl1 inob). split; [done|]. pose proof (length_logged bl1 inob). pose proof (kept_length _ _ _ _ _ _ _ K).
    pose proof (length_log_blocks k1 bs). assert (Z.of_nat (length bs) = nblk off n) by (subst bs; rewrite length_seqZ; lia). fold n. lia.
  - intros i Hi'. pose proof (fw_size _ _ (ws_wf _ _ Hw3)) as Hs. assert (HB : 0 < BSIZE) by done.
    assert (Hbn : 0 <= i / BSIZE < MAXFILE) by (split; [apply Z.div_pos; lia|apply Z.div_lt_upper_bound; lia]).
    rewrite <- contents_byte by (done || apply Hw3). change (fdata k3 (inode_at k3 ip)) with (contents k3).
    transitivity (cbyte G i).
    { unfold cbyte. rewrite C3, C2, (kp_data _ _ _ _ _ _ _ K) by done. done. }
    rewrite HG by lia. rewrite Ex in Hi'. change (0 <= i < Z.max (i_size x) (off + n)) in Hi'.
    unfold overwrite. fold n. destruct (Z.leb_spec off i), (Z.ltb_spec i (off + n)); simpl; try done;
      (apply contents_byte; [apply Hw|fold x; lia]).
  - rewrite V. unfold with_block. rewrite decide_True by done. rewrite E3.
    assert (Ev : view k2 inob = view k inob).
    { subst k2. change (view (set_inode ip _ k1) inob) with (view k1 inob). destruct (ws_layout _ _ Hw) as [L1 L2 L3 L4 L5 L6].
      apply (kp_rest _ _ _ _ _ _ _ K); try done.
      - lia.
      - destruct (fw_ind _ _ (ws_wf _ _ Hw)) as [->|[]]; [lia|congruence].
      - intros bn Hbn. destruct (fw_block _ _ (ws_wf _ _ Hw) bn Hbn) as [->|[[] _]]; [lia|done]. }
    rewrite Ev, E2, Ea. done.
  - etransitivity; [apply (kp_frame _ _ _ _ _ _ _ K)|]. etransitivity; [|apply op_wframe, Hfr]. subst k2. apply set_inode_wframe.
  - intros m Hm Hu H1 H2 H3 H4. rewrite V. unfold with_block. rewrite decide_False by done. subst k2.
    change (view (set_inode ip _ k1) m) with (view k1 m). by apply (kp_rest _ _ _ _ _ _ _ K).
Qed.

Lemma set_inode_id k f : (ip < length (inodes k))%nat -> f (inode_at k ip) = inode_at k ip -> set_inode ip f k = k.
Proof.
  intros [x Hx]%lookup_lt_is_Some_2 Hf. unfold inode_at in Hf. rewrite Hx in Hf. simpl in Hf.
  assert (E : alter f ip (inodes k) = inodes k).
  { apply list_eq. intros i. destruct (decide (i = ip)) as [->|]; [|by apply list_lookup_alter_ne].
    rewrite list_lookup_alter_eq, Hx. simpl. by rewrite Hf. }
  unfold set_inode. rewrite E. unfold inodes. by destruct k as [? ? [] ? ?].
Qed.

Lemma writei_op l off bl (Q : Z -> kernel -> Prop) k :
  let n := Z.of_nat (length l) in
  wst k bl -> IBLOCK (i_inum (inode_at k ip)) (the_sb k) = inob ->
  0 <= off <= i_size (inode_at k ip) -> 0 < n -> off + n <= MAXFILE * BSIZE ->
  Z.of_nat (length bl) + nblk off n <= 22 -> nblk off n <= room k ->
  (forall k', wrote l off k bl k' -> Q n k') ->
  wp disk_turn (writei ip (From_local l) off n) Q k.
Proof.
  intros n Hw Hino Ho Hn Hend Hlog Hroom HQ. unfold writei. apply wp_bind, wp_gets. set (x := inode_at k ip) in *.
  assert (Hmax : MAXFILE * BSIZE = 274432) by done. pose proof (fw_size _ _ (ws_wf _ _ Hw) : 0 <= i_size x <= MAXFILE * BSIZE).
  rewrite u32_small, !Z.gtb_ltb by lia. rewrite (proj2 (Z.ltb_ge (i_size x) off)), (proj2 (Z.ltb_ge (off + n) off)) by lia. cbn [orb].
  rewrite (proj2 (Z.ltb_ge _ (off + n))) by lia.
  apply wp_bind, (writei_loop_op _ l off n 0 [] (contents k) _ k bl k bl Hw (kept_start k bl Hw));
    rewrite ?Z.sub_0_r; try lia; try done.
  { intros bn Hbn. by apply not_elem_of_nil in Hbn. }
  { unfold io_fuel. lia. }
  { intros _. unfold io_fuel, BSIZE. pose proof (Z.div_mod n 1024). pose proof (Z.mod_pos_bound n 1024).
    pose proof (Z.mod_pos_bound off 1024). assert (0 <= n / 1024) by (apply Z.div_pos; lia). lia. }
  { simpl. lia. }
  intros k1 bl1 bs G Ebs K Hbs HG. rewrite Z.gtb_ltb, (proj2 (Z.ltb_lt 0 n)) by lia. unfold when at 1.
  pose proof (kept_wst _ _ _ _ _ _ _ K Hw) as Hw1. pose proof (kp_attr _ _ _ _ _ _ _ K) as Ea. fold x in Ea.
  destruct (same_attr_size _ _ Ea) as [Es1 _].
  set (k2 := set_inode ip (set_i_size (Z.max (i_size x) (off + n))) k1).
  assert (Hw2 : wst k2 bl1).
  { apply wst_set_size; [done|lia|]. intros bn H1 H2. destruct (Z.ltb_spec (bn * BSIZE) (i_size x)) as [H3|H3].
    - apply (fw_full _ _ (ws_wf _ _ Hw1)); [done|by rewrite Es1].
    - apply Hbs. rewrite Ebs. apply elem_of_seqZ. unfold nblk. rewrite (proj2 (Z.leb_gt n 0)) by lia.
      assert (HB : 0 < BSIZE) by done. split; [apply Z.div_le_upper_bound; lia|].
      assert (bn <= (off + n - 1) / BSIZE) by (apply Z.div_le_lower_bound; lia). lia. }
  assert (Hk2 : wp disk_turn (when (off + n >? i_size (inode_at k1 ip)) (upd_inode ip (set_i_size (off + n)))) (fun _ k' => k' = k2) k1).
  { rewrite Es1, Z.gtb_ltb. unfold when. destruct (Z.ltb_spec (i_size x) (off + n)).
    - apply wp_modify. unfold k2. by rewrite Z.max_r by lia.
    - apply wp_ret. unfold k2. rewrite Z.max_l by lia. symmetry. apply set_inode_id; [apply Hw1|]. rewrite <- Es1. by destruct (inode_at k1 ip). }
  apply wp_bind, wp_bind, wp_gets, wp_bind. eapply wp_mono; [exact Hk2|]. intros [] k2' ->.
  assert (E2 : inode_at k2 ip = set_i_size (Z.max (i_size x) (off + n)) (inode_at k1 ip)) by apply set_inode_at, Hw1.
  pose proof (kept_length _ _ _ _ _ _ _ K). pose proof (length_log_blocks k1 bs). pose proof (nblk_pos off n ltac:(lia)).
  assert (Z.of_nat (length bs) = nblk off n) by (rewrite Ebs; simpl; rewrite length_seqZ; lia).
  apply (iupdate_op bl1); [done| |lia|].
  { rewrite E2, Ea. change (the_sb k2) with (the_sb k1). by rewrite (proj1 (kp_grown _ _ _ _ _ _ _ K)). }
  intros k3 Fr3 Hi3 V3. apply wp_ret. replace (s32 n) with n by (symmetry; apply swrap_id; lia). apply HQ. eapply wrote_intro; eauto.
Qed.

(** C6: [writei] of bytes of the kernel, inside the file or at its end, in an
    operation of the log with room for the blocks it touches: it returns their
    number, the file then has them at the offset and is otherwise as it was,
    blocks that were missing are allocated and the inode is stored.  The
    blocks of other files do not change, no block is used twice, and the log
    has at most the touched blocks and three more, the bitmap, the indirect
    block and the block of the inode. *)
Theorem writei_contents l off bl k :
  let n := Z.of_nat (length l) in
  wst k bl -> IBLOCK (i_inum (inode_at k ip)) (the_sb k) = inob ->
  0 <= off <= i_size (inode_at k ip) -> 0 < n -> off + n <= MAXFILE * BSIZE ->
  Z.of_nat (length bl) + nblk off n <= 22 -> nblk off n <= room k ->
  wp disk_turn (writei ip (From_local l) off n) (fun r k' =>
    r = n /\ wrote l off k bl k' /\ file_ok k' (inode_at k' ip)) k.
Proof.
  intros n Hw Hino Ho Hn Hend Hlog Hroom. apply (writei_op l off bl); try done. intros k' Wr. split; [done|]. split; [done|].
  destruct (wt_state _ _ _ _ _ Wr) as (bl' & Hw' & _). by apply wf_file_ok; apply Hw'.
Qed.

End file.

End write.

(** ** Example

    A write of 1020 bytes at the end of the file of [sample_fs]: 1014 bytes
    fill its last block, the others go to a new block. *)

Section example.
Context {V : VirtioDevice} {VL : VirtioLaw V}.

Lemma sample_indirect : forallb (fun j => getn 4 (le_bytes 4 59 ++ repeat 0 (Z.to_nat BSIZE - 4)) (4 * j) =? (if j =? 0 then 59 else 0)) (seqZ 0 256) = true.
Proof. vm_compute. reflexivity. Qed.

Lemma sample_addr bn : 0 <= bn < 13 -> addr_at sample_file bn = 46 + bn.
Proof.
  intros Hbn. unfold addr_at, sample_file. cbn [i_addrs set_i_addrs].
  rewrite nth_lookup, lookup_seqZ_lt by lia. change (46 + Z.of_nat (Z.to_nat bn) = 46 + bn). lia.
Qed.

Lemma sample_ind : ind sample_file = 58.
Proof. reflexivity. Qed.

Lemma sample_fblock bn : 0 <= bn < MAXFILE ->
  fblock sample_fs sample_file bn = if bn <? 12 then 46 + bn else if bn =? 12 then 59 else 0.
Proof.
  intros Hbn. change MAXFILE with 268 in Hbn. unfold fblock. rewrite sample_ind. change (58 =? 0) with false.
  rewrite sample_fs_view, sample_fs_dblk. change NDIRECT with 12. destruct (Z.ltb_spec bn 12); [apply sample_addr; lia|].
  rewrite decide_False, decide_True by lia. pose proof sample_indirect as H1. rewrite forallb_forall in H1.
  specialize (H1 (bn - 12) ltac:(apply list_elem_of_In, elem_of_seqZ; lia)). apply Z.eqb_eq in H1. rewrite H1.
  destruct (Z.eqb_spec (bn - 12) 0), (Z.eqb_spec bn 12); lia || done.
Qed.

Lemma sample_in_use b : 0 <= b < 64 -> used (bitmap sample_fs) b = true.
Proof. intros Hb. rewrite sample_bitmap. by apply (proj1 (all_used _ 64) sample_used). Qed.

Lemma sample_area b : 45 < b < 64 -> area 2 32 sample_fs b.
Proof.
  intros Hb. split; [change (0 < b < 1000); lia|unfold in_log, LOGSIZE, MAXOPBLOCKS; lia|change (b <> 45); lia|lia|apply sample_in_use; lia].
Qed.

Lemma sample_wst : wst 2 32 0 sample_fs [].
Proof.
  split.
  - exact sample_in_op.
  - split; [exact sample_bitmap_ok|apply sample_in_use; lia|change (0 < 32 < 1000); lia|
      unfold in_log, LOGSIZE, MAXOPBLOCKS; lia|change (32 <> 45); lia|apply sample_in_use; lia].
  - change (inode_at sample_fs 0) with sample_file. split.
    + reflexivity.
    + reflexivity.
    + change (0 <= 12298 <= 274432). lia.
    + right. rewrite sample_ind. apply sample_area. lia.
    + intros bn Hbn. rewrite sample_fblock, sample_ind by done. destruct (Z.ltb_spec bn 12).
      { right. split; [apply sample_area; lia|lia]. }
      destruct (bn =? 12); [right; split; [apply sample_area; lia|lia]|by left].
    + intros bn bn' Hbn Hbn'. rewrite !sample_fblock by done.
      destruct (Z.ltb_spec bn 12), (Z.ltb_spec bn' 12), (Z.eqb_spec bn 12), (Z.eqb_spec bn' 12); lia.
    + intros bn H1 H2. change (i_size sample_file) with 12298 in H2. unfold BSIZE in H2.
      rewrite sample_fblock by (change MAXFILE with 268; lia). destruct (Z.ltb_spec bn 12), (Z.eqb_spec bn 12); lia.
  - simpl. lia.
Qed.

Lemma sample_room : room 0 sample_fs = 936.
Proof.
  unfold room, nfree. rewrite sample_bitmap. change (sb_size (the_sb sample_fs)) with 1000.
  change (ind (inode_at sample_fs 0)) with 58. vm_compute. reflexivity.
Qed.

End example.

Lemma writei_contents_witness :
  wp (disk_turn (DiskLaw := virtio_disk_law (V := sample_device)))
    (writei (L := sample_linker) 0 (From_local (repeat 5 1020)) 12298 1020)
    (fun r k' => r = 1020 /\ i_size (inode_at k' 0) = 13318 /\
       file_byte k' (inode_at k' 0) 12297 = file_byte sample_fs sample_file 12297 /\
       file_byte k' (inode_at k' 0) 13317 = 5) sample_fs.
Proof.
  eapply wp_mono.
  - apply (writei_contents (DL := virtio_disk_law (V := sample_device)) (L := sample_linker) 2 32 0 (repeat 5 1020) 12298 [] sample_fs).
    + exact (sample_wst (V := sample_device)).
    + reflexivity.
    + change (0 <= 12298 <= 12298). lia.
    + change (0 < 1020). lia.
    + change (12298 + 1020 <= 274432). lia.
    + vm_compute. discriminate.
    + rewrite (sample_room (V := sample_device)). vm_compute. discriminate.
  - intros r k' (-> & W & _). split; [reflexivity|]. pose proof (wt_inode _ _ _ _ _ _ _ _ W) as E.
    assert (Es : i_size (inode_at k' 0) = 13318) by (rewrite E; reflexivity). split; [exact Es|].
    rewrite !(wt_bytes _ _ _ _ _ _ _ _ W) by (rewrite Es; lia). split; reflexivity.
Defined.
