(* ===== verification/FsDir.v ===== *)
(** * Directories

    A directory is a file of entries of 16 bytes, each a number of an inode,
    0 when the entry is free, and a name.  [dirlookup] finds the first entry
    with a name and takes a reference to its inode; [dirlink] adds an entry
    in the first free place. *)

From S2P Require Import Prelude Defs State Logic Memory Spinlock Sched Sleeplock Kalloc Vm Copy Bio BioList BioCache Virtio VirtioSpec BioSpec Log LogSpec LogOps Fs FsOps FsRead FsWrite.

(** ** Directories as maps from names *)

(** The entry is in use and has the name. *)
Definition named (name e : list Z) : bool := negb (dirent_inum e =? 0) && (namecmp name (dirent_name e) =? 0).

(** The inode a directory with the entries [es] has under [name]. *)
Fixpoint names (es : list (list Z)) (name : list Z) : option Z :=
  match es with
  | [] => None
  | e :: es => if named name e then Some (dirent_inum e) else names es name
  end.

(** The first place for a new entry. *)
Definition free_slot (es : list (list Z)) : nat :=
  match list_find (fun e => dirent_inum e = 0) es with Some (n, _) => n | None => length es end.

(** The list with entry [n] set, which may be the one after the last. *)
Definition put_entry (n : nat) (e : list Z) (es : list (list Z)) : list (list Z) := take n es ++ e :: drop (S n) es.

(** The bytes of a new entry. *)
Definition new_entry (name : list Z) (inum : Z) : list Z :=
  le_bytes 2 (u16 inum) ++ strncpy_bytes name (Z.to_nat DIRSIZ).

(** Names are equal when they agree up to 14 bytes. *)
Definition same_name (s t : list Z) : Prop := cstr (Z.to_nat DIRSIZ) s = cstr (Z.to_nat DIRSIZ) t.

#[export] Instance same_name_dec s t : Decision (same_name s t).
Proof. unfold same_name. apply _. Defined.

Lemma names_app es es' name :
  names (es ++ es') name = match names es name with Some i => Some i | None => names es' name end.
Proof. induction es as [|e es IH]; simpl; [done|]. by destruct (named name e). Qed.

Lemma names_find es name :
  names es name = (fun p => dirent_inum p.2) <$> list_find (fun e => named name e = true) es.
Proof.
  induction es as [|e es IH]; simpl; [done|]. destruct (named name e) eqn:E; [by rewrite decide_True|].
  rewrite decide_False, IH by congruence. by destruct (list_find _ es) as [[]|].
Qed.

Lemma cstr_strncpy n s : cstr n (strncpy_bytes s n) = cstr n s.
Proof.
  revert s. induction n as [|n IH]; intros s; [done|]. cbn [strncpy_bytes cstr].
  destruct (Z.eqb_spec (hd 0 s) 0) as [E|E]; [done|]. cbn [hd tl]. rewrite (proj2 (Z.eqb_neq _ _)) by done. by rewrite IH.
Qed.

Lemma new_entry_inum name inum : 0 <= inum < 2 ^ 16 -> dirent_inum (new_entry name inum) = inum.
Proof.
  intros H. unfold dirent_inum, new_entry, getn. rewrite drop_0, take_app_le by done.
  rewrite take_ge by done. rewrite le_val_bytes; [|unfold u16; change (256 ^ Z.of_nat 2) with 65536; apply Z.mod_pos_bound; lia].
  unfold u16. apply Z.mod_small. lia.
Qed.

Lemma named_new nm name inum : 0 < inum < 2 ^ 16 -> named nm (new_entry name inum) = bool_decide (same_name nm name).
Proof.
  intros H. unfold named. rewrite new_entry_inum, (proj2 (Z.eqb_neq inum 0)) by lia. simpl.
  apply eq_true_iff_eq. rewrite Z.eqb_eq, bool_decide_eq_true. unfold namecmp, same_name.
  rewrite strncmp_zero. change (dirent_name (new_entry name inum)) with (strncpy_bytes name (Z.to_nat DIRSIZ)).
  by rewrite cstr_strncpy.
Qed.

Lemma free_slot_drop es :
  drop (free_slot es) es = drop (S (free_slot es)) es /\ free_slot es = length es \/
  exists e, drop (free_slot es) es = e :: drop (S (free_slot es)) es /\ dirent_inum e = 0 /\ (free_slot es < length es)%nat.
Proof.
  unfold free_slot. destruct (list_find _ es) as [[n e]|] eqn:E.
  - right. apply list_find_Some in E as (E1 & E2 & _). exists e. split_and!; [by apply drop_S|done|by eapply lookup_lt_Some].
  - left. by rewrite !drop_ge by lia.
Qed.

(** A new entry in the first free place adds one name. *)
Lemma names_put es name inum nm :
  0 < inum < 2 ^ 16 -> names es name = None ->
  names (put_entry (free_slot es) (new_entry name inum) es) nm =
    if decide (same_name nm name) then Some inum else names es nm.
Proof.
  intros Hi Hnone. unfold put_entry. rewrite names_app. cbn [names]. rewrite named_new, new_entry_inum by lia.
  assert (Hsame : same_name nm name -> forall es, names es nm = names es name).
  { intros Hs. induction es0 as [|e es' IH]; [done|]. simpl. rewrite IH. unfold named, namecmp.
    assert (Hz : (strncmp nm (dirent_name e) (Z.to_nat DIRSIZ) =? 0) = (strncmp name (dirent_name e) (Z.to_nat DIRSIZ) =? 0)); [|by rewrite Hz].
    apply eq_true_iff_eq. rewrite !Z.eqb_eq, !strncmp_zero. unfold same_name in Hs. by rewrite Hs. }
  assert (Hsplit : names es nm = match names (take (free_slot es) es) nm with
    Some i => Some i | None => names (drop (S (free_slot es)) es) nm end).
  { rewrite <- (take_drop (free_slot es) es) at 1. rewrite names_app.
    destruct (free_slot_drop es) as [[<- _]|(e & -> & He & _)]; [done|]. cbn [names]. unfold named. by rewrite He. }
  case_decide as Hs.
  - rewrite bool_decide_eq_true_2 by done. rewrite !(Hsame Hs (take _ _)). rewrite (Hsame Hs es), (Hsame Hs (take _ _)), Hnone in Hsplit.
    revert Hsplit. by destruct (names (take (free_slot es) es) name).
  - rewrite bool_decide_eq_false_2 by done. by rewrite Hsplit.
Qed.

(** ** The inode cache *)

(** The entry is in use for inode [inum]. *)
Definition cached (inum : Z) (x : inode) : Prop := 0 < i_ref x /\ i_dev x = ROOTDEV /\ i_inum x = inum.

Lemma iget_scan_spec l i inum e r :
  iget_scan l i ROOTDEV inum e = r ->
  match r with
  | inl j => exists n x, j = (i + n)%nat /\ l !! n = Some x /\ cached inum x
  | inr e' => Forall (fun x => ~ cached inum x) l /\
      match e with
      | Some j => e' = Some j
      | None => match e' with
                | Some j => exists n x, j = (i + n)%nat /\ l !! n = Some x /\ i_ref x = 0
                | None => Forall (fun x => i_ref x <> 0) l
                end
      end
  end.
Proof.
  revert i e r. induction l as [|x l IH]; intros i e r; cbn [iget_scan]; [intros <-; by destruct e|].
  destruct ((i_ref x >? 0) && (i_dev x =? ROOTDEV) && (i_inum x =? inum)) eqn:E.
  - intros <-. exists 0%nat, x. rewrite !andb_true_iff, Z.gtb_lt, !Z.eqb_eq in E. unfold cached. split; [lia|tauto].
  - assert (Hn : ~ cached inum x).
    { intros (H1 & H2 & H3). rewrite H2, H3, !Z.eqb_refl, (proj2 (Z.gtb_lt _ _)) in E by lia. done. }
    intros Hr. apply IH in Hr. destruct r as [j|e'].
    + destruct Hr as (n & y & -> & Hy & Hc). exists (S n), y. split; [lia|done].
    + destruct Hr as [Hr1 Hr2]. split; [by constructor|]. destruct e as [j|].
      { rewrite bool_decide_eq_false_2 in Hr2 by done. done. }
      rewrite bool_decide_eq_true_2 in Hr2 by done. cbn [andb] in Hr2. destruct (Z.eqb_spec (i_ref x) 0) as [E0|E0].
      * subst e'. exists 0%nat, x. split; [lia|done].
      * destruct e' as [j|]; [|by constructor]. destruct Hr2 as (n & y & -> & Hy & Hz). exists (S n), y. split; [lia|done].
Qed.

(** [iget] of inode [inum] returned [i]: one more reference to an entry in
    use, or a free entry with the first reference and nothing loaded. *)
Record got (k : kernel) (inum : Z) (i : nat) (k' : kernel) : Prop := {
  gt_frame : wframe i k k';
  gt_log : the_log k' = the_log k;
  gt_disk : the_disk k' = the_disk k;
  gt_view m : view k' m = view k m;
  gt_bound : (i < length (inodes k))%nat;
  gt_inode :
    cached inum (inode_at k i) /\ inode_at k' i = set_i_ref (i_ref (inode_at k i) + 1) (inode_at k i) \/
    Forall (fun x => ~ cached inum x) (inodes k) /\ i_ref (inode_at k i) = 0 /\
      inode_at k' i = set_i_valid 0 (set_i_ref 1 (set_i_inum inum (set_i_dev ROOTDEV (inode_at k i)))) }.

(** There is an entry for the inode, or a free one. *)
Definition can_get (k : kernel) (inum : Z) : bool :=
  match iget_scan (inodes k) 0 ROOTDEV inum None with inr None => false | _ => true end.

Section dir.
Context {D : DiskDriver} {DL : DiskLaw D} {L : Linker} {LO : LinkerOk L}.

Lemma fs_st_set_inode ip f k bl H : fs_st k bl H -> fs_st (set_inode ip f k) bl H.
Proof.
  intros [F1 [B1 B2 B3 B4 B5 B6 B7 B8 B9] F3 F4]. split; [done| |done|exact F4].
  split; try done. destruct B1 as [l [R1 R2 R3]]. exists l. by split.
Qed.

Lemma fs_st_sync s k bl H : quiet (k_sy k) s -> fs_st k bl H -> fs_st (set_sy s k) bl H.
Proof.
  intros Hq [F1 F2 F3 F4]. split; [by eapply quiet_calm| |done|exact F4].
  apply bio_ok_sync; [by apply quiet_run_pid|done].
Qed.

Lemma L_icache_static : L_icache ∈ static_locks.
Proof. unfold static_locks. right; right; right; left. Qed.

Lemma set_inode_compose i f g k : set_inode i f (set_inode i g k) = set_inode i (f ∘ g) k.
Proof. unfold set_inode, inodes. kproj. by rewrite list_alter_alter_eq. Qed.

Lemma got_intro k inum i f s' :
  quiet (k_sy k) s' -> (i < length (inodes k))%nat ->
  (cached inum (inode_at k i) /\ f (inode_at k i) = set_i_ref (i_ref (inode_at k i) + 1) (inode_at k i) \/
   Forall (fun x => ~ cached inum x) (inodes k) /\ i_ref (inode_at k i) = 0 /\
     f (inode_at k i) = set_i_valid 0 (set_i_ref 1 (set_i_inum inum (set_i_dev ROOTDEV (inode_at k i))))) ->
  got k inum i (set_sy s' (set_inode i f k)).
Proof.
  intros Hq Hi Hf. split; try done.
  - destruct (set_inode_wframe i f k). by split.
  - change (inode_at (set_sy s' (set_inode i f k)) i) with (inode_at (set_inode i f k) i). by rewrite set_inode_at.
Qed.

Lemma inode_at_Some k i x : inodes k !! i = Some x -> inode_at k i = x /\ (i < length (inodes k))%nat.
Proof. intros H. unfold inode_at. rewrite H. split; [done|by eapply lookup_lt_Some]. Qed.

Lemma iget_op inum bl H (Q : nat -> kernel -> Prop) k :
  fs_st k bl H -> can_get k inum = true ->
  (forall i k', got k inum i k' -> fs_st k' bl H -> Q i k') ->
  wp disk_turn (iget ROOTDEV inum) Q k.
Proof.
  intros Hf Hc HQ. pose proof L_icache_static as Hst. unfold iget, can_get in *.
  assert (Hok : sync_ok (k_sy k)) by apply ca_ok, Hf. assert (Hfr : lock_free (k_sy k) L_icache) by (apply ca_free; [apply Hf|done]).
  apply wp_bind, wp_acquire; [done|]. set (s1 := sy_acquire L_icache (k_sy k)). apply wp_bind, wp_gets.
  change (inodes (set_sy s1 k)) with (inodes k).
  destruct (iget_scan (inodes k) 0 ROOTDEV inum None) as [i|[i|]] eqn:E; [| |done]; apply iget_scan_spec in E.
  - destruct E as (n & x & -> & Hx & Hcx). apply inode_at_Some in Hx as [Hx Hi]. rewrite Nat.add_0_l in *.
    apply wp_bind, wp_modify, wp_bind, (wp_release _ (k_sy k)); [done..|reflexivity|]. intros s' Hq _. apply wp_ret.
    apply (HQ n (set_sy s' (set_inode n (fun x => set_i_ref (i_ref x + 1) x) k))).
    + apply got_intro; [done|done|]. left. by rewrite Hx.
    + apply fs_st_sync; [done|by apply fs_st_set_inode].
  - destruct E as [Hno (n & x & -> & Hx & Hr)]. apply inode_at_Some in Hx as [Hx Hi]. rewrite Nat.add_0_l in *.
    do 4 apply wp_bind, wp_modify. rewrite !set_inode_compose.
    apply wp_bind, (wp_release _ (k_sy k)); [done..|reflexivity|]. intros s' Hq _. apply wp_ret.
    eapply (HQ n (set_sy s' (set_inode n _ k))).
    + apply got_intro; [done|done|]. right. rewrite Hx. done.
    + apply fs_st_sync; [done|by apply fs_st_set_inode].
Qed.

Lemma iget_full inum k :
  calm (k_sy k) -> can_get k inum = false -> fails disk_turn (iget ROOTDEV inum) "iget: no inodes" k.
Proof.
  intros Hcalm Hc. unfold iget, can_get in *. apply fails_bind_wp, wp_acquire; [apply ca_free; [done|apply L_icache_static]|].
  apply fails_bind_wp, wp_gets. change (inodes (set_sy _ k)) with (inodes k).
  destruct (iget_scan _ _ _ _ _) as [|[|]]; try done. apply fails_panic.
Qed.

(** ** Entries *)

Definition dirent_at (k : kernel) (x : inode) (j : Z) : list Z := map (file_byte k x) (seqZ (16 * j) 16).
Definition entries (k : kernel) (x : inode) : list (list Z) :=
  map (dirent_at k x) (seqZ 0 (i_size x / sizeof_dirent)).

(** The first entry with the name. *)
Definition dir_find (k : kernel) (x : inode) (name : list Z) : option (nat * list Z) :=
  list_find (fun e => named name e = true) (entries k x).

(** A directory: a file of whole entries. *)
Record dir_ok (k : kernel) (x : inode) : Prop := {
  do_file : file_ok k x;
  do_type : i_type x = T_DIR;
  do_whole : i_size x mod sizeof_dirent = 0 }.

Lemma dirent_length k x j : length (dirent_at k x j) = 16%nat.
Proof. unfold dirent_at. by rewrite length_map, length_seqZ. Qed.

Lemma reads_entries k k' x : reads k k' -> entries k' x = entries k x.
Proof.
  intros R. unfold entries. apply map_ext. intros j. unfold dirent_at. apply map_ext. intros i. by apply reads_byte.
Qed.

Lemma reads_dir k k' x : reads k k' -> dir_ok k x -> dir_ok k' x.
Proof. intros R []. split; [by eapply reads_file|done|done]. Qed.

Lemma entries_lookup k x j : 0 <= j < i_size x / sizeof_dirent -> entries k x !! Z.to_nat j = Some (dirent_at k x j).
Proof.
  intros Hj. unfold entries. rewrite list_lookup_fmap, lookup_seqZ_lt by lia. simpl. do 2 f_equal. lia.
Qed.

(** [readi] of one entry. *)
Lemma read_entry dp j bl (Q : Z * list Z -> kernel -> Prop) k :
  let x := inode_at k dp in
  fs_st k bl ∅ -> (length bl < NBUF)%nat -> dir_ok k x -> 0 <= j < i_size x / sizeof_dirent ->
  (forall k', reads k k' -> fs_st k' bl ∅ -> Q (16, dirent_at k x j) k') ->
  wp disk_turn (readi dp (To_var sizeof_dirent) (16 * j) sizeof_dirent) Q k.
Proof.
  intros x Hf Hl [Hx _ Hw] Hj HQ. assert (Hs : 0 <= i_size x <= 274432) by apply (fo_size _ _ Hx).
  change sizeof_dirent with 16 in *. pose proof (Z.div_mod (i_size x) 16 ltac:(lia)).
  by apply (readi_op dp (16 * j) 16 bl); fold x; [done|done|done|lia|lia|lia|].
Qed.

(** The loop of [dirlookup]. *)
Definition dir_scan (dp : nat) (name : list Z) (off : Z) : M (Z + option (nat * Z)) :=
  let* x := get_inode dp in
  if off <? i_size x then
    let* r := readi dp (To_var sizeof_dirent) off sizeof_dirent in
    let '(n, de) := r in
    if negb (n =? sizeof_dirent) then panic "dirlookup read" else
    if dirent_inum de =? 0 then ret (inl (u32 (off + sizeof_dirent))) else
    if namecmp name (dirent_name de) =? 0 then
      let* ip := iget (i_dev x) (dirent_inum de) in
      ret (inr (Some (ip, off)))
    else ret (inl (u32 (off + sizeof_dirent)))
  else ret (inr None).

Lemma can_get_reads k k' inum : reads k k' -> can_get k' inum = can_get k inum.
Proof. intros R. unfold can_get, inodes. by rewrite (bf_icache _ _ (rd_frame _ _ R)). Qed.

Lemma dir_scan_op fuel dp name j bl (Q : option (nat * Z) -> kernel -> Prop) k :
  let x := inode_at k dp in
  fs_st k bl ∅ -> (length bl < NBUF)%nat -> dir_ok k x -> 0 <= j <= i_size x / sizeof_dirent ->
  i_size x / sizeof_dirent - j < Z.of_nat fuel ->
  match list_find (fun e => named name e = true) (drop (Z.to_nat j) (entries k x)) with
  | None => forall k', reads k k' -> fs_st k' bl ∅ -> Q None k'
  | Some (n, e) => can_get k (dirent_inum e) = true /\
      forall i k1 k', reads k k1 -> got k1 (dirent_inum e) i k' -> fs_st k' bl ∅ ->
        Q (Some (i, 16 * (j + Z.of_nat n))) k'
  end ->
  wp disk_turn (loop fuel (dir_scan dp name) (16 * j)) Q k.
Proof.
  intros x. revert j k x. induction fuel as [|fuel IH]; intros j k x Hf Hl Hd Hj Hfuel HQ; [lia|].
  apply wp_loop_step. unfold dir_scan at 1. apply wp_bind, wp_gets. fold x.
  pose proof (do_whole _ _ Hd) as Hw. pose proof (Z.div_mod (i_size x) sizeof_dirent ltac:(done)) as Hdm.
  assert (Hs : 0 <= i_size x <= 274432) by apply (fo_size _ _ (do_file _ _ Hd)).
  assert (Hlen : length (entries k x) = Z.to_nat (i_size x / sizeof_dirent)) by (unfold entries; by rewrite length_map, length_seqZ).
  destruct (Z.ltb_spec (16 * j) (i_size x)) as [Hlt|Hge].
  2:{ apply wp_ret. rewrite drop_ge in HQ by (change sizeof_dirent with 16 in *; lia). by apply HQ. }
  assert (Hj' : 0 <= j < i_size x / sizeof_dirent) by (change sizeof_dirent with 16 in *; lia).
  apply wp_bind, (read_entry dp j bl); [done..|]. intros k1 R1 F1. fold x. change (16 =? sizeof_dirent) with true. cbn [negb].
  rewrite (drop_S _ _ _ (entries_lookup k x j Hj')) in HQ. set (e := dirent_at k x j) in *. cbn [list_find] in HQ.
  assert (Hnext : named name e = false ->
    wp disk_turn (loop fuel (dir_scan dp name) (u32 (16 * j + sizeof_dirent))) Q k1).
  { intros Hn. rewrite Hn, decide_False in HQ by done. change sizeof_dirent with 16 in *. rewrite u32_small by lia.
    replace (16 * j + 16) with (16 * (j + 1)) by lia. replace (S (Z.to_nat j)) with (Z.to_nat (j + 1)) in HQ by lia.
    apply IH; rewrite ?(reads_inode _ _ dp R1); fold x; try done; try lia; [by eapply reads_dir|]. rewrite (reads_entries _ _ _ R1).
    destruct (list_find _ (drop (Z.to_nat (j + 1)) (entries k x))) as [[n e']|]; simpl in HQ.
    - destruct HQ as [HQ1 HQ2]. rewrite (can_get_reads _ _ _ R1). split; [done|]. intros i k2 k' R2 G2 F2.
      replace (j + 1 + Z.of_nat n) with (j + Z.of_nat (S n)) by lia. apply (HQ2 i k2); [by etransitivity|done|done].
    - intros k' R' F'. apply HQ; [by etransitivity|done]. }
  destruct (Z.eqb_spec (dirent_inum e) 0) as [E0|E0]; [apply wp_ret; apply Hnext; unfold named; by rewrite E0|].
  destruct (Z.eqb_spec (namecmp name (dirent_name e)) 0) as [En|En].
  2:{ apply wp_ret. apply Hnext. unfold named. rewrite (proj2 (Z.eqb_neq _ _) En). apply andb_false_r. }
  assert (Hm : named name e = true) by (unfold named; by rewrite En, (proj2 (Z.eqb_neq _ _) E0)).
  rewrite decide_True in HQ by done. simpl in HQ. destruct HQ as [HQ1 HQ2].
  rewrite (fo_dev _ _ (do_file _ _ Hd)). apply wp_bind, (iget_op (dirent_inum e) bl ∅); [done|by rewrite (can_get_reads _ _ _ R1)|].
  intros i k' G F'. apply wp_ret. replace (16 * j) with (16 * (j + 0)) by lia. by apply (HQ2 i k1 k').
Qed.

Lemma dirlookup_op dp name bl (Q : option (nat * Z) -> kernel -> Prop) k :
  let x := inode_at k dp in
  fs_st k bl ∅ -> (length bl < NBUF)%nat -> dir_ok k x ->
  match dir_find k x name with
  | None => forall k', reads k k' -> fs_st k' bl ∅ -> Q None k'
  | Some (n, e) => can_get k (dirent_inum e) = true /\
      forall i k1 k', reads k k1 -> got k1 (dirent_inum e) i k' -> fs_st k' bl ∅ -> Q (Some (i, 16 * Z.of_nat n)) k'
  end ->
  wp disk_turn (dirlookup dp name) Q k.
Proof.
  intros x Hf Hl Hd HQ. unfold dirlookup. apply wp_bind, wp_gets. fold x. rewrite (do_type _ _ Hd). simpl negb. cbv iota.
  assert (Hs : 0 <= i_size x <= 274432) by apply (fo_size _ _ (do_file _ _ Hd)).
  assert (0 <= i_size x / sizeof_dirent) by (apply Z.div_pos; done || lia).
  apply (dir_scan_op _ dp name 0 bl); fold x; try done; lia.
Qed.

(** C8: [dirlookup] in a directory returns the first entry that is in use and
    has the name, with its offset and a reference to its inode: one more
    reference when the inode is in the cache, a free entry of the cache
    otherwise (one of the two is there).  Without such an entry it returns null and changes nothing but
    the buffer cache. *)
Theorem dirlookup_first dp name bl k :
  let x := inode_at k dp in
  fs_st k bl ∅ -> (length bl < NBUF)%nat -> dir_ok k x ->
  (forall n e, dir_find k x name = Some (n, e) -> can_get k (dirent_inum e) = true) ->
  wp disk_turn (dirlookup dp name) (fun r k' =>
    fs_st k' bl ∅ /\
    match r with
    | None => Forall (fun e => named name e = false) (entries k x) /\ reads k k'
    | Some (i, off) => exists n e k1, off = 16 * Z.of_nat n /\ entries k x !! n = Some e /\ named name e = true /\
        (forall m e', (m < n)%nat -> entries k x !! m = Some e' -> named name e' = false) /\
        reads k k1 /\ got k1 (dirent_inum e) i k'
    end) k.
Proof.
  intros x Hf Hl Hd Hget. apply (dirlookup_op dp name bl); [done..|]. fold x.
  destruct (dir_find k x name) as [[n e]|] eqn:E; unfold dir_find in E.
  - split; [by eapply Hget|]. intros i k1 k' R G F. split; [done|]. apply list_find_Some in E as (E1 & E2 & E3).
    exists n, e, k1. split_and!; try done. intros m e' Hm He'. apply not_true_is_false. by eapply E3.
  - intros k' R F. split; [done|]. split; [|done]. apply list_find_None in E. eapply Forall_impl; [done|].
    intros e He. by apply not_true_is_false.
Qed.

(** ** [dirlink] *)

(** The loop of [dirlink] for the place of the new entry. *)
Definition slot_scan (dp : nat) (off : Z) : M (Z + Z) :=
  let* x := get_inode dp in
  if off <? i_size x then
    let* r := readi dp (To_var sizeof_dirent) off sizeof_dirent in
    let '(n, de) := r in
    if negb (n =? sizeof_dirent) then panic "dirlink read" else
    if dirent_inum de =? 0 then ret (inr off) else ret (inl (off + sizeof_dirent))
  else ret (inr off).

Lemma slot_scan_op fuel dp j bl (Q : Z -> kernel -> Prop) k :
  let x := inode_at k dp in
  fs_st k bl ∅ -> (length bl < NBUF)%nat -> dir_ok k x -> 0 <= j <= i_size x / sizeof_dirent ->
  i_size x / sizeof_dirent - j < Z.of_nat fuel ->
  (forall k', reads k k' -> fs_st k' bl ∅ -> Q (16 * (j + Z.of_nat (free_slot (drop (Z.to_nat j) (entries k x))))) k') ->
  wp disk_turn (loop fuel (slot_scan dp) (16 * j)) Q k.
Proof.
  intros x. revert j k x. induction fuel as [|fuel IH]; intros j k x Hf Hl Hd Hj Hfuel HQ; [lia|].
  apply wp_loop_step. unfold slot_scan at 1. apply wp_bind, wp_gets. fold x.
  pose proof (do_whole _ _ Hd) as Hw. pose proof (Z.div_mod (i_size x) sizeof_dirent ltac:(done)) as Hdm.
  assert (Hs : 0 <= i_size x <= 274432) by apply (fo_size _ _ (do_file _ _ Hd)).
  assert (Hlen : length (entries k x) = Z.to_nat (i_size x / sizeof_dirent)) by (unfold entries; by rewrite length_map, length_seqZ).
  destruct (Z.ltb_spec (16 * j) (i_size x)) as [Hlt|Hge].
  2:{ apply wp_ret. rewrite drop_ge in HQ by (change sizeof_dirent with 16 in *; lia). simpl in HQ. rewrite Z.add_0_r in HQ. by apply HQ. }
  assert (Hj' : 0 <= j < i_size x / sizeof_dirent) by (change sizeof_dirent with 16 in *; lia).
  apply wp_bind, (read_entry dp j bl); [done..|]. intros k1 R1 F1. fold x. change (16 =? sizeof_dirent) with true. cbn [negb].
  rewrite (drop_S _ _ _ (entries_lookup k x j Hj')) in HQ. set (e := dirent_at k x j) in *.
  unfold free_slot in HQ. cbn [list_find] in HQ. destruct (Z.eqb_spec (dirent_inum e) 0) as [E0|E0]; apply wp_ret.
  - rewrite decide_True in HQ by done. simpl in HQ. rewrite Z.add_0_r in HQ. by apply HQ.
  - rewrite decide_False in HQ by done. change sizeof_dirent with 16 in *. replace (16 * j + 16) with (16 * (j + 1)) by lia.
    apply IH; rewrite ?(reads_inode _ _ dp R1); fold x; try done; try lia; [by eapply reads_dir|].
    intros k2 R2 F2. rewrite (reads_entries _ _ _ R1). replace (Z.to_nat (j + 1)) with (S (Z.to_nat j)) by lia.
    assert (E : j + 1 + Z.of_nat (free_slot (drop (S (Z.to_nat j)) (entries k x))) =
      j + Z.of_nat (match prod_map S id <$> list_find (fun e => dirent_inum e = 0) (drop (S (Z.to_nat j)) (entries k x)) with
        Some (n, _) => n | None => length (e :: drop (S (Z.to_nat j)) (entries k x)) end)).
    { unfold free_slot. destruct (list_find _ _) as [[n e']|]; simpl; lia. }
    rewrite E. apply HQ; [by etransitivity|done].
Qed.

Lemma put_entry_lookup n e es j : (n <= length es)%nat ->
  put_entry n e es !! j = if decide (j = n) then Some e else es !! j.
Proof.
  intros Hn. unfold put_entry. assert (Hl : length (take n es) = n) by (rewrite length_take; lia). case_decide as E.
  - subst j. rewrite lookup_app_r, Hl, Nat.sub_diag by lia. done.
  - destruct (decide (j < n)%nat).
    + by rewrite lookup_app_l, lookup_take_lt by lia.
    + rewrite lookup_app_r, Hl by lia. replace (j - n)%nat with (S (j - n - 1)) by lia. simpl.
      rewrite lookup_drop. f_equal. lia.
Qed.

(** The entries after a write of one entry. *)
Lemma entries_wrote st inob dp n de k bl k' :
  let x := inode_at k dp in
  let x' := inode_at k' dp in
  dir_ok k x -> wrote st inob dp de (16 * Z.of_nat n) k bl k' -> length de = 16%nat ->
  (n <= length (entries k x))%nat -> dir_ok k' x' /\ entries k' x' = put_entry n de (entries k x).
Proof.
  intros x x' Hd Wr Hl Hn. destruct (wt_state _ _ _ _ _ _ _ _ Wr) as (bl' & Hw' & _).
  pose proof (wt_inode _ _ _ _ _ _ _ _ Wr) as Ex. fold x x' in Ex. rewrite Hl in Ex. change (Z.of_nat 16) with 16 in Ex.
  assert (Hle : length (entries k x) = Z.to_nat (i_size x / 16)) by (unfold entries; by rewrite length_map, length_seqZ).
  pose proof (do_whole _ _ Hd) as Hm. change sizeof_dirent with 16 in Hm. pose proof (Z.div_mod (i_size x) 16 ltac:(lia)) as Hdm.
  assert (Hs : 0 <= i_size x <= 274432) by apply (fo_size _ _ (do_file _ _ Hd)).
  assert (0 <= i_size x / 16) by (apply Z.div_pos; lia).
  assert (Es : i_size x' = 16 * Z.max (i_size x / 16) (Z.of_nat n + 1)) by (rewrite Ex; simpl; lia).
  assert (Ec : i_size x' / 16 = Z.max (i_size x / 16) (Z.of_nat n + 1)).
  { rewrite Es, Z.mul_comm. by apply Z.div_mul. }
  split.
  - split; [apply (wf_file_ok st inob); apply Hw'|rewrite Ex; apply Hd|].
    change sizeof_dirent with 16. rewrite Es, Z.mul_comm. by apply Z.mod_mul.
  - apply list_eq. intros j. rewrite put_entry_lookup by done. unfold entries at 1. change sizeof_dirent with 16. rewrite Ec.
    destruct (decide (Z.of_nat j < Z.max (i_size x / 16) (Z.of_nat n + 1))) as [Hj|Hj].
    2:{ rewrite (proj2 (lookup_ge_None _ j)) by (rewrite length_map, length_seqZ; lia).
        rewrite decide_False by lia. symmetry. apply lookup_ge_None. lia. }
    rewrite list_lookup_fmap, lookup_seqZ_lt by lia. cbn [fmap option_fmap option_map]. rewrite Z.add_0_l.
    assert (Hb : forall i, 16 * Z.of_nat j <= i < 16 * Z.of_nat j + 16 ->
      file_byte k' x' i = overwrite (file_byte k x) (16 * Z.of_nat n) de i).
    { intros i Hi. apply (wt_bytes _ _ _ _ _ _ _ _ Wr). fold x'. lia. }
    case_decide as E.
    + subst j. f_equal. apply list_eq. intros i. unfold dirent_at. rewrite list_lookup_fmap.
      destruct (decide (i < 16)%nat) as [Hi|Hi].
      2:{ rewrite !(proj2 (lookup_ge_None _ i)); [done|lia|rewrite length_seqZ; lia]. }
      rewrite lookup_seqZ_lt by lia. cbn [fmap option_fmap option_map]. rewrite Hb by lia. unfold overwrite.
      rewrite Hl, (proj2 (Z.leb_le _ _)), (proj2 (Z.ltb_lt _ _)) by lia. cbn [andb].
      destruct (lookup_lt_is_Some_2 de i) as [y Hy]; [lia|]. rewrite Hy, nth_lookup.
      replace (Z.to_nat (16 * Z.of_nat n + Z.of_nat i - 16 * Z.of_nat n)) with i by lia. by rewrite Hy.
    + rewrite <- (Nat2Z.id j) at 2. rewrite entries_lookup by (change sizeof_dirent with 16; lia). f_equal.
      unfold dirent_at. apply map_ext_in. intros i Hi%list_elem_of_In%elem_of_seqZ. rewrite Hb by lia. unfold overwrite.
      rewrite Hl. destruct (Z.leb_spec (16 * Z.of_nat n) i), (Z.ltb_spec i (16 * Z.of_nat n + Z.of_nat 16)); simpl; done || lia.
Qed.

Lemma reads_wst st inob ip k k' bl : reads k k' -> fs_st k' bl ∅ -> wst st inob ip k bl -> wst st inob ip k' bl.
Proof.
  intros R F W. eapply kept_wst; [|exact W]. apply kept_reads; [done| |apply W]. eapply in_op_reads; [apply W|done|done].
Qed.

(** An entry is within one block. *)
Lemma nblk_entry n : 0 <= n -> nblk (16 * n) 16 = 1.
Proof. intros Hn. unfold nblk, BSIZE. simpl. Z.to_euclidean_division_equations. lia. Qed.

Lemma write_entry st inob dp n de bl (Q : Z -> kernel -> Prop) k :
  wst st inob dp k bl -> IBLOCK (i_inum (inode_at k dp)) (the_sb k) = inob -> length de = 16%nat ->
  16 * Z.of_nat n <= i_size (inode_at k dp) -> i_size (inode_at k dp) + 16 <= MAXFILE * BSIZE ->
  (length bl <= 21)%nat -> 1 <= room dp k ->
  (forall k', wrote st inob dp de (16 * Z.of_nat n) k bl k' -> Q 16 k') ->
  wp disk_turn (writei dp (From_local de) (16 * Z.of_nat n) 16) Q k.
Proof.
  intros W Hino Hl Hn Hsz Hbl Hroom HQ. pose proof (writei_op st inob dp de (16 * Z.of_nat n) bl Q k) as H.
  cbv zeta in H. rewrite Hl in H. change (Z.of_nat 16) with 16 in H. rewrite nblk_entry in H by lia. apply H; try done; lia.
Qed.

Lemma new_entry_length name inum : length (new_entry name inum) = 16%nat.
Proof.
  unfold new_entry. rewrite length_app, length_le_bytes. change 16%nat with (2 + 14)%nat. f_equal.
  change (Z.to_nat DIRSIZ) with 14%nat. generalize 14%nat. intros n. revert name.
  induction n as [|n IH]; intros name; [done|]. cbn [strncpy_bytes]. destruct (_ =? 0); simpl; [by rewrite repeat_length|by rewrite IH].
Qed.

Lemma room_reads dp k k' : reads k k' -> room dp k' = room dp k.
Proof.
  intros R. pose proof (of_sb' _ _ (bio_op_frame _ _ (rd_frame _ _ R))) as Esb.
  unfold room, nfree, bitmap. by rewrite (reads_inode _ _ dp R), Esb, (rd_view _ _ R).
Qed.

(** Giving the reference of [iget] back. *)
Lemma iput_got inum i bl (Q : unit -> kernel -> Prop) k k1 :
  got k inum i k1 -> fs_st k1 bl ∅ ->
  (forall k', fs_st k' bl ∅ -> (forall m, view k' m = view k m) ->
     (forall j, (0 < i_ref (inode_at k j)) -> inode_at k' j = inode_at k j) -> Q tt k') ->
  wp disk_turn (iput i) Q k1.
Proof.
  intros G Hf HQ. pose proof L_icache_static as Hst. unfold iput.
  assert (Hok : sync_ok (k_sy k1)) by apply ca_ok, Hf. assert (Hfr : lock_free (k_sy k1) L_icache) by (apply ca_free; [apply Hf|done]).
  apply wp_bind, wp_acquire; [done|]. apply wp_bind, wp_gets.
  change (inode_at (set_sy _ k1) i) with (inode_at k1 i).
  assert (Hw : (i_ref (inode_at k1 i) =? 1) && c_true (i_valid (inode_at k1 i)) && (i_nlink (inode_at k1 i) =? 0) = false).
  { destruct (gt_inode _ _ _ _ G) as [[(Hr & _) ->]|(_ & _ & ->)]; simpl; [|done].
    by rewrite (proj2 (Z.eqb_neq _ _)) by lia. }
  rewrite Hw. apply wp_bind, wp_ret, wp_bind, wp_modify, (wp_release _ (k_sy k1)); [done..|reflexivity|].
  intros s' Hq _. set (f := fun x => set_i_ref (i_ref x - 1) x).
  apply (HQ (set_sy s' (set_inode i f k1))).
  - apply fs_st_sync; [done|by apply fs_st_set_inode].
  - intros m. apply (gt_view _ _ _ _ G).
  - intros j Hj. change (inode_at (set_sy s' (set_inode i f k1)) j) with (inode_at (set_inode i f k1) j).
    destruct (decide (j = i)) as [->|Hne].
    + rewrite set_inode_at by (rewrite (wfr_len _ _ _ (gt_frame _ _ _ _ G)); apply G).
      destruct (gt_inode _ _ _ _ G) as [[_ ->]|(_ & E & _)]; [|lia]. unfold f. generalize (inode_at k i). intros y.
      cbn [i_ref set_i_ref]. replace (i_ref y + 1 - 1) with (i_ref y) by lia. by destruct y.
    + unfold inode_at. change (inodes (set_inode i f k1)) with (alter f i (inodes k1)).
      by rewrite list_lookup_alter_ne, (wfr_inode _ _ _ (gt_frame _ _ _ _ G)).
Qed.

Lemma view_entries k k' x : (forall m, view k' m = view k m) -> entries k' x = entries k x.
Proof.
  intros V. unfold entries. apply map_ext. intros j. apply map_ext. intros i. unfold file_byte, file_block. by rewrite !V.
Qed.

(** C7: a directory is a map from names, equal up to 14 bytes, to inodes, and
    [dirlink] adds a name to it.  With a name that is there it returns -1 and
    the directory stays as it is.  Otherwise it returns 0, and afterwards the
    directory has the new inode under the name and what it had under all
    other names; the entry goes to the first free place, at the end if there
    is none. *)
Theorem dirlink_adds st inob dp name inum bl k :
  let x := inode_at k dp in
  let es := entries k x in
  wst st inob dp k bl -> dir_ok k x -> IBLOCK (i_inum x) (the_sb k) = inob -> 0 < i_ref x ->
  (forall n, names es name = Some n -> can_get k n = true) ->
  0 < inum < 2 ^ 16 -> i_size x + 16 <= MAXFILE * BSIZE -> (length bl <= 21)%nat -> 1 <= room dp k ->
  wp disk_turn (dirlink dp name inum) (fun r k' =>
    let x' := inode_at k' dp in
    let es' := entries k' x' in
    match names es name with
    | Some _ => r = -1 /\ x' = x /\ es' = es
    | None => r = 0 /\ dir_ok k' x' /\ es' = put_entry (free_slot es) (new_entry name inum) es /\
        (forall nm, names es' nm = if decide (same_name nm name) then Some inum else names es nm) /\
        (exists bl', wst st inob dp k' bl' /\ (length bl' <= length bl + 4)%nat)
    end) k.
Proof.
  intros x es W Hd Hino Href Hget Hi Hsz Hl Hroom. assert (Hf : fs_st k bl ∅) by apply W.
  unfold dirlink. apply wp_bind, (dirlookup_op dp name bl); [done|unfold NBUF; lia|done|]. fold x.
  assert (En : names es name = (fun p => dirent_inum p.2) <$> dir_find k x name) by apply names_find.
  destruct (dir_find k x name) as [[n e]|]; simpl in En; rewrite En.
  - split; [by apply Hget|]. intros i k1 k' R G F'. apply wp_bind, (iput_got _ _ bl _ _ _ G F'). intros k2 F2 V2 I2. apply wp_ret.
    assert (Ex : inode_at k2 dp = x) by (rewrite I2; rewrite (reads_inode _ _ dp R); done).
    split; [done|]. rewrite Ex. split; [done|]. apply view_entries. intros m. by rewrite V2, (rd_view _ _ R).
  - intros k1 R1 F1. apply wp_bind, wp_gets. rewrite (reads_inode _ _ dp R1). fold x.
    assert (Hs : 0 <= i_size x <= 274432) by apply (fo_size _ _ (do_file _ _ Hd)).
    assert (0 <= i_size x / sizeof_dirent) by (apply Z.div_pos; done || lia).
    assert (Hd1 : dir_ok k1 x) by by eapply reads_dir.
    apply wp_bind, (slot_scan_op _ dp 0 bl); rewrite ?(reads_inode _ _ dp R1); fold x; try done; try (unfold NBUF; lia).
    intros k2 R2 F2. change (drop (Z.to_nat 0) ?l) with l. rewrite (reads_entries _ _ _ R1), Z.add_0_l. fold es.
    assert (R : reads k k2) by by etransitivity. set (n := free_slot es).
    assert (Hn : (n <= length es)%nat).
    { unfold n, free_slot. destruct (list_find _ es) as [[m e]|] eqn:E; [|done].
      apply list_find_Some in E as [E _]. apply lookup_lt_Some in E. lia. }
    assert (Hle : length es = Z.to_nat (i_size x / 16)) by (unfold es, entries; by rewrite length_map, length_seqZ).
    pose proof (do_whole _ _ Hd) as Hm. change sizeof_dirent with 16 in *. pose proof (Z.div_mod (i_size x) 16 ltac:(lia)) as Hdm.
    change (le_bytes 2 (u16 inum) ++ _) with (new_entry name inum). rewrite u32_small by lia.
    pose proof (of_sb' _ _ (bio_op_frame _ _ (rd_frame _ _ R))) as Esb. pose proof (reads_inode _ _ dp R) as Ei.
    apply wp_bind, (write_entry st inob dp n (new_entry name inum) bl); rewrite ?Ei, ?Esb; fold x; try done; try lia.
    + by apply (reads_wst st inob dp k).
    + apply new_entry_length.
    + by rewrite (room_reads dp k).
    + intros k3 Wr. apply wp_ret. split; [done|].
      destruct (entries_wrote st inob dp n (new_entry name inum) k2 bl k3) as [Hd3 E3];
        rewrite ?Ei, ?(reads_entries _ _ _ R); fold x es; try done; [by eapply reads_dir|apply new_entry_length|].
      rewrite Ei, (reads_entries _ _ _ R) in E3. fold x es in E3.
      split_and!; [done|done| |].
      * intros nm. rewrite E3. by apply names_put.
      * destruct (wt_state _ _ _ _ _ _ _ _ Wr) as (bl' & Hw' & Hl'). exists bl'. split; [done|].
        rewrite new_entry_length in Hl'. change (Z.of_nat 16) with 16 in Hl'. rewrite nblk_entry in Hl' by lia. lia.
Qed.

End dir.

(** ** Example

    The directory of block 60 of the sample disk as inode 1. *)

Definition sample_dir : inode :=
  mk_inode ROOTDEV 1 1 (mk_sleeplock 0 "inode" 0) 1 T_DIR 0 0 1 48 (60 :: repeat 0 12).
Definition sample_dir_fs : kernel := set_fs (set_icache [sample_dir; zero_inode] (k_fs sample_fs)) sample_fs.

Section example.
Context {V : VirtioDevice} {VL : VirtioLaw V}.

Lemma in_op_icache ic k st bl H : in_op k st bl H -> in_op (set_fs (set_icache ic (k_fs k)) k) st bl H.
Proof.
  intros [[F1 [B1 B2 B3 B4 B5 B6 B7 B8 B9] F3 F4] I2 I3 I4]. split; [|done..]. split; [done| |done|exact F4].
  split; try done. destruct B1 as [l [R1 R2 R3]]. exists l. by split.
Qed.

Lemma sample_dir_op : in_op sample_dir_fs 2 [] ∅.
Proof. apply in_op_icache, sample_in_op. Qed.

Lemma sample_dir_fblock bn : 0 <= bn < MAXFILE -> fblock sample_dir_fs sample_dir bn = if bn =? 0 then 60 else 0.
Proof.
  intros Hbn. unfold fblock. change (ind sample_dir) with 0. rewrite Z.eqb_refl.
  destruct (Z.ltb_spec bn NDIRECT) as [H|H]; [|destruct (Z.eqb_spec bn 0); [unfold NDIRECT in H; lia|done]].
  unfold NDIRECT in H. unfold addr_at. change (i_addrs sample_dir) with (60 :: repeat 0 12).
  destruct (Z.eqb_spec bn 0) as [->|Hn]; [done|]. replace (Z.to_nat bn) with (S (Z.to_nat bn - 1)) by lia. apply nth_repeat.
Qed.

Lemma sample_dir_wst : wst 2 32 0 sample_dir_fs [].
Proof.
  pose proof (ws_layout _ _ _ _ _ sample_wst) as Hl.
  assert (Hg : grown sample_fs sample_dir_fs) by (split; [reflexivity|intros b _ H; exact H]).
  split.
  - exact sample_dir_op.
  - exact (layout_grown _ _ _ _ Hg Hl).
  - change (inode_at sample_dir_fs 0) with sample_dir. split.
    + reflexivity.
    + reflexivity.
    + change (0 <= 48 <= 274432). lia.
    + by left.
    + intros bn Hbn. rewrite sample_dir_fblock by done. destruct (bn =? 0); [right|by left].
      split; [|discriminate]. apply (area_grown _ _ _ _ _ Hg), sample_area. lia.
    + intros bn bn' Hbn Hbn'. rewrite !sample_dir_fblock by done. destruct (Z.eqb_spec bn 0), (Z.eqb_spec bn' 0); lia.
    + intros bn H1 H2. change (i_size sample_dir) with 48 in H2. unfold BSIZE in H2. assert (bn = 0) as -> by lia.
      rewrite sample_dir_fblock by (split; [lia|reflexivity]). discriminate.
  - simpl. lia.
Qed.

Lemma sample_dir_ok : dir_ok sample_dir_fs sample_dir.
Proof. split; [apply (wf_file_ok 2 32); apply sample_dir_wst|reflexivity|reflexivity]. Qed.

Lemma sample_entries : entries sample_dir_fs sample_dir =
  [new_entry [46] 1; repeat 0 16; new_entry [97] 7].
Proof.
  assert (E : forall i, 0 <= i < 48 -> file_byte sample_dir_fs sample_dir i = nth (Z.to_nat (i mod BSIZE)) sample_dirents 0).
  { intros i Hi. unfold file_byte, file_block. assert (i / BSIZE = 0) as -> by (apply Z.div_small; unfold BSIZE; lia).
    change (0 <? NDIRECT) with true. cbv iota. change (addr_at sample_dir 0) with 60.
    change (view sample_dir_fs 60) with (view sample_fs 60). by rewrite sample_fs_view, sample_fs_dblk. }
  unfold entries. change (i_size sample_dir / sizeof_dirent) with 3.
  transitivity (map (fun j => map (fun i => nth (Z.to_nat (i mod BSIZE)) sample_dirents 0) (seqZ (16 * j) 16)) (seqZ 0 3)).
  - apply map_ext_in. intros j Hj%list_elem_of_In%elem_of_seqZ. unfold dirent_at.
    apply map_ext_in. intros i Hi%list_elem_of_In%elem_of_seqZ. apply E. lia.
  - vm_compute. reflexivity.
Qed.

Lemma sample_dir_room : 1 <= room 0 sample_dir_fs.
Proof.
  change (room 0 sample_dir_fs) with (nfree sample_fs - 1). unfold nfree. rewrite sample_bitmap.
  change (sb_size (the_sb sample_fs)) with 1000. vm_compute. discriminate.
Qed.

End example.

#[local] Existing Instance sample_linker_ok.

(** "a" is found: inode 7, the first reference, at offset 32. *)
Lemma dirlookup_first_witness :
  wp (disk_turn (DiskLaw := virtio_disk_law (V := sample_device))) (dirlookup (L := sample_linker) 0 [97])
    (fun r k' => exists i, r = Some (i, 32) /\ i_inum (inode_at k' i) = 7) sample_dir_fs.
Proof.
  eapply wp_mono.
  - apply (dirlookup_first (DL := virtio_disk_law (V := sample_device)) (L := sample_linker) 0 [97] [] sample_dir_fs).
    + apply (sample_dir_op (V := sample_device)).
    + unfold NBUF. simpl. lia.
    + exact (sample_dir_ok (V := sample_device)).
    + intros n e. unfold dir_find. change (inode_at sample_dir_fs 0) with sample_dir. rewrite (sample_entries (V := sample_device)).
      vm_compute. intros [= <- <-]. reflexivity.
  - intros r k' [_ H]. change (inode_at sample_dir_fs 0) with sample_dir in H. rewrite (sample_entries (V := sample_device)) in H.
    destruct r as [[i off]|].
    + destruct H as (n & e & k1 & -> & He & Hn & _ & _ & G). exists i.
      assert (n = 2%nat) as ->.
      { destruct n as [|[|[|n]]]; [injection He as <-; vm_compute in Hn; discriminate Hn..|reflexivity|discriminate He]. }
      injection He as <-. split; [reflexivity|]. destruct (gt_inode _ _ _ _ G) as [[(_ & _ & E) ->]|(_ & _ & ->)]; [exact E|reflexivity].
    + destruct H as [H _]. rewrite Forall_forall in H. specialize (H (new_entry [97] 7)). vm_compute in H.
      discriminate H. right. right. left.
Defined.

(** "b" goes to the free entry. *)
Lemma dirlink_adds_witness :
  wp (disk_turn (DiskLaw := virtio_disk_law (V := sample_device))) (dirlink (L := sample_linker) 0 [98] 9)
    (fun r k' => r = 0 /\ entries k' (inode_at k' 0) = [new_entry [46] 1; new_entry [98] 9; new_entry [97] 7]) sample_dir_fs.
Proof.
  eapply wp_mono.
  - apply (dirlink_adds (DL := virtio_disk_law (V := sample_device)) (L := sample_linker) 2 32 0 [98] 9 [] sample_dir_fs).
    + exact (sample_dir_wst (V := sample_device)).
    + exact (sample_dir_ok (V := sample_device)).
    + reflexivity.
    + reflexivity.
    + change (inode_at sample_dir_fs 0) with sample_dir. rewrite (sample_entries (V := sample_device)). intros n. vm_compute. discriminate.
    + lia.
    + change (48 + 16 <= 274432). lia.
    + simpl. lia.
    + exact (sample_dir_room (V := sample_device)).
  - intros r k'. cbv beta zeta. change (inode_at sample_dir_fs 0) with sample_dir. rewrite (sample_entries (V := sample_device)).
    intros (H1 & _ & H2 & _). split; [exact H1|]. rewrite H2. reflexivity.
Defined.
