(* ===== verification/TrapSpec.v ===== *)
(** * Page faults from user code

    What the page-fault branch of [usertrap] does for each faulting address:
    lazy allocation between the page of the stack pointer and the process
    size, and the death of the process elsewhere. *)

From S2P Require Import Prelude Defs State Logic Memory Spinlock Sched Sleeplock Kalloc Vm PageTable UserMem Copy Uart Printf Console Bio Virtio VirtioSpec Log Fs Pipe File Csr Proc Exec Sysproc Sysfile Trap.

(** [p->killed = 1] *)
Definition kill_proc (p : nat) (k : kernel) : kernel :=
  set_sy (set_procs (alter (set_p_killed 1) p (procs k)) (k_sy k)) k.

Definition PTE_LAZY : Z := Z.lor (Z.lor PTE_W PTE_R) PTE_U.

Section fault.
Context {D : DiskDriver} {L : Linker} {LO : LinkerOk L}.

(** [walk] to a table that is there allocates nothing. *)
Lemma walk_present_rule {tn} T root va alloc a (Q : Z -> kernel -> Prop) k :
  pt_ok (ram k) T root -> 0 <= va < MAXVA -> pte_addr T va = Some a -> Q a k ->
  wp tn (walk root va alloc) Q k.
Proof.
  intros Hpt Hva Ha HQ. unfold walk. rewrite Z.geb_leb, (proj2 (Z.leb_gt _ _)) by lia.
  unfold pte_addr in Ha. destruct (T !! [PX 2 va; PX 1 va]) as [d|] eqn:E1; [|done]. injection Ha as <-.
  destruct (pt_up _ _ _ Hpt [PX 2 va] _ _ E1) as [c E2]. pose proof (pt_root _ _ _ Hpt) as Hroot.
  apply wp_bind, (walk_level_some T root [] root c); [done|done|simpl; lia|done|].
  rewrite (table_nonzero T (ram k) root [PX 2 va] c) by done.
  apply wp_bind, (walk_level_some T root [PX 2 va] c d); [done|done|simpl; lia|done|].
  rewrite (table_nonzero T (ram k) root [PX 2 va; PX 1 va] d) by done. by apply wp_ret.
Qed.

(** Mapping a page where there is one. *)
Lemma mappages_remap T root l va pa perm k :
  vm_ok k T root l -> 0 <= va < MAXVA -> va mod PGSIZE = 0 -> pte_flag (leaf (ram k) T va) PTE_V = true ->
  panics (mappages root va PGSIZE pa perm) "remap" k.
Proof.
  intros Hvm Hva Hal Hfl. pose proof MAXVA_val. unfold mappages. cbn [mappages_loop]. rewrite PGROUNDDOWN_aligned by (done || lia).
  unfold leaf in Hfl. destruct (pte_addr T va) as [a|] eqn:E; [|done].
  destruct (pte_addr_ram _ _ _ _ _ (vo_pt _ _ _ _ Hvm) E).
  apply panics_bind_wp, (walk_present_rule T root va true a); [apply Hvm|done|done|].
  rewrite (proj2 (Z.eqb_neq a 0)) by (unfold KERNBASE in *; lia).
  apply panics_bind_wp, wp_load64; [done..|]. rewrite Hfl. apply panics_panic.
Qed.

Lemma proc_at_mm k k' p : only_mm k k' -> proc_at k' p = proc_at k p.
Proof. intros H. unfold proc_at. by rewrite (om_procs _ _ H). Qed.

(** A page fault is not an interrupt, and gets to the lazy allocation. *)
Lemma cause_page_fault p k : hr_scause (ms_hart (k_ms k)) = 13 \/ hr_scause (ms_hart (k_ms k)) = 15 ->
  forall e, usertrap_cause p e k = (lazy_fault p ;; ret 0) e k.
Proof.
  intros Hc e. set (c := hr_scause (ms_hart (k_ms k))) in *.
  assert (Hr : r_scause e k = Ret c e k) by done. clearbody c.
  assert (Hd : devintr e k = Ret 0 e k) by (unfold devintr, bind; rewrite Hr; by destruct Hc as [-> | ->]).
  unfold usertrap_cause. unfold bind at 1. rewrite Hr.
  assert (E : (c =? 8) = false) by (by destruct Hc as [-> | ->]). rewrite E. unfold bind at 1. rewrite Hd.
  cbn [negb Z.eqb]. unfold bind at 1. rewrite Hr. destruct Hc as [-> | ->]; reflexivity.
Qed.

(** The part of the page-fault branch after the bounds check. *)
Definition lazy_alloc (p : nat) (va : Z) : M unit :=
  let* pa := kalloc in
  if pa =? 0 then upd_proc p (set_p_killed 1) else
  let* _ := memset pa 0 PGSIZE in
  let va := PGROUNDDOWN va in
  let* pr := get_proc p in
  let* r := mappages (p_pagetable pr) va PGSIZE pa PTE_LAZY in
  when (negb (r =? 0))
    (kfree pa ;;
     upd_proc p (set_p_killed 1)).

Lemma lazy_fault_check p k e :
  KERNBASE <= p_trapframe (proc_at k p) -> p_trapframe (proc_at k p) + PGSIZE <= PHYSTOP ->
  let va := hr_stval (ms_hart (k_ms k)) in
  let sp := rd64 (ram k) (p_trapframe (proc_at k p) + tf_offset TF_sp) in
  lazy_fault p e k =
    (if (va >=? p_sz (proc_at k p)) || (va <? PGROUNDDOWN sp) then Ret tt e (kill_proc p k)
     else lazy_alloc p va e k).
Proof.
  intros H1 H2 va sp.
  destruct (wp_exact (tf_load p TF_sp) (fun r k' => r = sp /\ k' = k) k) as (r & k' & Hl & -> & ->).
  { unfold tf_load. apply wp_bind, wp_gets, wp_load64; [simpl; lia|simpl; unfold PGSIZE in *; lia|done]. }
  unfold lazy_fault. unfold bind at 1. change (r_stval e k) with (Ret va e k).
  unfold bind at 1. rewrite Hl. unfold bind at 1. change (get_proc p e k) with (Ret (proc_at k p) e k).
  cbv beta iota. destruct ((va >=? p_sz (proc_at k p)) || (va <? PGROUNDDOWN sp)); reflexivity.
Qed.

Lemma lazy_alloc_remap T root pa l p va k :
  sync_ok (k_sy k) -> lock_free (k_sy k) L_kmem -> space_ok k T root (pa :: l) ->
  p_pagetable (proc_at k p) = root -> 0 <= va < MAXVA -> 
  pte_flag (leaf (ram k) T (PGROUNDDOWN va)) PTE_V = true ->
  panics (lazy_alloc p va) "remap" k.
Proof.
  intros Hok Hlf Hsp Hpt Hva Hfl. pose proof MAXVA_val. unfold lazy_alloc.
  apply panics_bind_wp, (kalloc_rule (pa :: l)); [done|done|apply Hsp|done|].
  intros pa' l' [= <- <-] Hpa Hpl k1 Hm1 Hf1 Hr1. pose proof (page_ok_pos _ Hpa). pose proof (page_ok_ram _ Hpa).
  rewrite (proj2 (Z.eqb_neq pa 0)) by lia. apply panics_bind_wp, wp_memset_page; [lia..|].
  pose proof (taken_intro _ _ _ _ _ _ Hsp Hpa Hpl Hm1 Hf1 Hr1) as Htk. set (k2 := with_ram _ k1) in *.
  apply panics_bind_wp, wp_gets. rewrite (proc_at_mm k) by apply Htk. rewrite Hpt.
  apply panics_bind, (mappages_remap T root l); [apply Htk| | |by rewrite (tk_leaf _ _ _ _ _ _ Htk)];
    rewrite PGROUNDDOWN_eq by lia; pages.
Qed.

Lemma lazy_alloc_full T root p va k :
  sync_ok (k_sy k) -> lock_free (k_sy k) L_kmem -> space_ok k T root [] ->
  exists k', only_mm k k' /\ k_mm k' = k_mm k /\ forall e, lazy_alloc p va e k = Ret tt e (kill_proc p k').
Proof.
  intros Hok Hlf Hsp.
  destruct (wp_exact (lazy_alloc p va) (fun _ k' => exists k1, only_mm k k1 /\ k_mm k1 = k_mm k /\ k' = kill_proc p k1) k)
    as ([] & k' & Hm & k1 & H1 & H2 & ->); [|by exists k1].
  unfold lazy_alloc. apply wp_bind, (kalloc_rule []); [exact Hok|exact Hlf|apply Hsp| |intros ?? [=]].
  intros _ k1 H1 H2. apply wp_modify. exists k1. auto.
Qed.

Lemma lazy_alloc_map T root l p va k :
  sync_ok (k_sy k) -> lock_free (k_sy k) L_kmem -> space_ok k T root l ->
  p_pagetable (proc_at k p) = root -> 0 <= va < MAXVA -> 
  pte_flag (leaf (ram k) T (PGROUNDDOWN va)) PTE_V = false ->
  exists r k', lazy_page T root PTE_LAZY (PGROUNDDOWN va) k r k' /\
    forall e, lazy_alloc p va e k = Ret tt e (if r =? 0 then kill_proc p k' else k').
Proof.
  intros Hok Hlf Hsp Hpt Hva Hfl. pose proof MAXVA_val.
  destruct (wp_exact (lazy_alloc p va) (fun _ k' => exists r k1,
    lazy_page T root PTE_LAZY (PGROUNDDOWN va) k r k1 /\ k' = if r =? 0 then kill_proc p k1 else k1) k)
    as ([] & k' & Hm & r & k1 & H1 & ->); [|by exists r, k1].
  unfold lazy_alloc. apply wp_bind, (kalloc_rule l); [done|done|apply Hsp| |].
  { intros -> k' Hm Hmm. apply wp_modify. exists 0, k'. split; [by apply lazy_none|done]. }
  intros pa l' -> Hpa Hpl k1 Hm1 Hf1 Hr1. pose proof (page_ok_pos _ Hpa). pose proof (page_ok_ram _ Hpa).
  assert (E : (pa =? 0) = false) by (apply Z.eqb_neq; lia). rewrite E. apply wp_bind, wp_memset_page; [lia..|].
  pose proof (taken_intro _ _ _ _ _ _ Hsp Hpa Hpl Hm1 Hf1 Hr1) as Htk. set (k2 := with_ram _ k1) in *.
  apply wp_bind, wp_gets. rewrite (proc_at_mm k) by apply Htk. rewrite Hpt. cbv zeta. unfold when. clearbody k2.
  apply (lazy_put_rule T root PTE_LAZY (PGROUNDDOWN va) pa l' (ret tt) (upd_proc p (set_p_killed 1)) _ k).
  - exact Hok.
  - exact Hlf.
  - exact Htk.
  - split; [change PTE_LAZY with 22; lia|reflexivity].
  - rewrite PGROUNDDOWN_eq by lia. pages.
  - rewrite PGROUNDDOWN_eq by lia. pages.
  - exact Hfl.
  - intros k' Hk'. apply wp_ret. exists pa, k'. rewrite E. auto.
  - intros k' Hk'. apply wp_modify. exists 0, k'. auto.
Qed.

(** C12: a load or store page fault from user code.  Outside the range from
    the page of the stack pointer to the process size, the process is killed
    and nothing else happens.  Inside, at a page that is not mapped, the fault
    maps a page of zeros that user code may read and write, leaving the rest of
    user memory as it was, or kills the process when memory has run out.  At a
    page that is mapped, the kernel panics as soon as there is a free page. *)
Theorem usertrap_page_fault T root l p k :
  sync_ok (k_sy k) -> lock_free (k_sy k) L_kmem -> space_ok k T root l ->
  p_pagetable (proc_at k p) = root ->
  KERNBASE <= p_trapframe (proc_at k p) -> p_trapframe (proc_at k p) + PGSIZE <= PHYSTOP ->
  p_sz (proc_at k p) <= MAXVA ->
  let h := ms_hart (k_ms k) in
  let va := hr_stval h in
  let sp := rd64 (ram k) (p_trapframe (proc_at k p) + tf_offset TF_sp) in
  hr_scause h = 13 \/ hr_scause h = 15 -> 0 <= va ->
  if (va >=? p_sz (proc_at k p)) || (va <? PGROUNDDOWN sp)
  then forall e, usertrap_cause p e k = Ret 0 e (kill_proc p k)
  else if pte_flag (leaf (ram k) T (PGROUNDDOWN va)) PTE_V then
    match l with
    | [] => exists k', only_mm k k' /\ k_mm k' = k_mm k /\
              forall e, usertrap_cause p e k = Ret 0 e (kill_proc p k')
    | _ => panics (usertrap_cause p) "remap" k
    end
  else exists r k', lazy_page T root PTE_LAZY (PGROUNDDOWN va) k r k' /\
         forall e, usertrap_cause p e k = Ret 0 e (if r =? 0 then kill_proc p k' else k').
Proof.
  intros Hok Hlf Hsp Hpt Htf Htf' Hsz h va sp Hcause Hva. pose proof (cause_page_fault p k Hcause) as Hc.
  unfold bind in Hc. setoid_rewrite lazy_fault_check in Hc; [|done..]. cbv zeta in Hc. fold h va sp in Hc.
  destruct ((va >=? p_sz (proc_at k p)) || (va <? PGROUNDDOWN sp)) eqn:E; [intros e; by rewrite Hc|].
  apply orb_false_iff in E as [E _]. rewrite Z.geb_leb, Z.leb_gt in E.
  destruct (pte_flag (leaf (ram k) T (PGROUNDDOWN va)) PTE_V) eqn:Hfl; [destruct l as [|pa l]|].
  - destruct (lazy_alloc_full T root p va k) as (k' & H1 & H2 & H3); [done..|].
    exists k'. do 2 (split; [done|]). intros e. by rewrite Hc, H3.
  - intros e. destruct (lazy_alloc_remap T root pa l p va k) with e as [k' Hk']; [done..|lia|done|].
    exists k'. by rewrite Hc, Hk'.
  - destruct (lazy_alloc_map T root l p va k) as (r & k' & H1 & H2); [done..|lia|done|].
    exists r, k'. split; [done|]. intros e. by rewrite Hc, H2.
Qed.

End fault.

(** ** Instances *)

#[local] Existing Instance sample_linker.
#[local] Existing Instance sample_linker_ok.

(** Process 0 of [sample_lazy] has the page at 0 mapped, 8 KiB of size and a
    stack pointer of 0; it stores to [va]. *)
Definition sample_fault (va : Z) : kernel :=
  set_ms (set_hart (set_hr_scause 15 (set_hr_stval va (ms_hart (k_ms sample_lazy)))) (k_ms sample_lazy)) sample_lazy.

Lemma sample_fault_space va : space_ok (sample_fault va) sample_T pg_root [0x87fff000].
Proof. destruct sample_space as [[S1 S2 S3] S4 S5]. split; [split|..]; assumption. Qed.

Definition sample_cause : M Z := usertrap_cause (D := virtio_driver) 0.

Lemma sample_fault_pre va :
  sync_ok (k_sy (sample_fault va)) /\ lock_free (k_sy (sample_fault va)) L_kmem /\
  p_pagetable (proc_at (sample_fault va) 0) = pg_root /\
  KERNBASE <= p_trapframe (proc_at (sample_fault va) 0) /\
  p_trapframe (proc_at (sample_fault va) 0) + PGSIZE <= PHYSTOP /\ p_sz (proc_at (sample_fault va) 0) <= MAXVA.
Proof.
  split; [apply sample_sync_ok|]. split; [apply sample_free; left|].
  split_and!; [reflexivity|vm_compute; discriminate..].
Qed.

(** A store to the second page gets a page; one to the first page, which is
    mapped, brings the kernel down; one past the size is the end of the
    process. *)
Lemma usertrap_page_fault_witness :
  (exists r k', lazy_page sample_T pg_root PTE_LAZY 4096 (sample_fault 4100) r k' /\
     sample_cause [] (sample_fault 4100) = Ret 0 [] (if r =? 0 then kill_proc 0 k' else k')) /\
  panics sample_cause "remap" (sample_fault 16) /\
  sample_cause [] (sample_fault 8192) = Ret 0 [] (kill_proc 0 (sample_fault 8192)).
Proof.
  split; [|split].
  - destruct (sample_fault_pre 4100) as (H1 & H2 & H3 & H4 & H5 & H6).
    destruct (usertrap_page_fault (D := virtio_driver) sample_T pg_root [0x87fff000] 0 (sample_fault 4100)
      H1 H2 (sample_fault_space 4100) H3 H4 H5 H6) as (r & k' & E1 & E2); [right; reflexivity|discriminate|].
    exists r, k'. split; [exact E1|exact (E2 [])].
  - destruct (sample_fault_pre 16) as (H1 & H2 & H3 & H4 & H5 & H6).
    refine (usertrap_page_fault (D := virtio_driver) sample_T pg_root [0x87fff000] 0 (sample_fault 16)
      H1 H2 (sample_fault_space 16) H3 H4 H5 H6 _ _); [right; reflexivity|discriminate].
  - destruct (sample_fault_pre 8192) as (H1 & H2 & H3 & H4 & H5 & H6).
    refine (usertrap_page_fault (D := virtio_driver) sample_T pg_root [0x87fff000] 0 (sample_fault 8192)
      H1 H2 (sample_fault_space 8192) H3 H4 H5 H6 _ _ []); [right; reflexivity|discriminate].
Defined.
