(* ===== verification/AddrSpace.v ===== *)
(** * The life of an address space

    [uvmunmap], [freewalk], [uvmfree], [proc_freepagetable] and [uvmcopy] on
    page tables in RAM: what they map and unmap, and that no page is lost or
    freed twice. *)

From S2P Require Import Prelude Defs State Logic Memory Spinlock Sched Kalloc Vm PageTable UserMem Proc.

Section space.
Context {L : Linker} {LO : LinkerOk L}.

(** ** The pages behind a list of addresses *)

Definition valid (m : gmap Z Z) (T : gmap (list Z) Z) (va : Z) : bool := pte_flag (leaf m T va) PTE_V.

(** The frames of the mapped ones among the addresses [vas]. *)
Fixpoint frames (m : gmap Z Z) (T : gmap (list Z) Z) (vas : list Z) : list Z :=
  match vas with
  | [] => []
  | va :: vas => if valid m T va then frame m T va :: frames m T vas else frames m T vas
  end.

Lemma elem_of_frames m T vas q : q ∈ frames m T vas <-> exists va, va ∈ vas /\ valid m T va = true /\ frame m T va = q.
Proof.
  induction vas as [|va vas IH]; cbn [frames].
  - split; [by intros ?%elem_of_nil|by intros (? & ?%elem_of_nil & _)].
  - destruct (valid m T va) eqn:E; [rewrite elem_of_cons|]; rewrite IH; split.
    + intros [->|(x & H1 & H2)]; [exists va|exists x]; rewrite elem_of_cons; auto.
    + intros (x & [->|Hx]%elem_of_cons & H1 & H2); [by left|right; eauto].
    + intros (x & H1 & H2). exists x. rewrite elem_of_cons. auto.
    + intros (x & [->|Hx]%elem_of_cons & H1 & H2); [congruence|eauto].
Qed.

Lemma frames_ext m T m' T' vas :
  (forall va, va ∈ vas -> leaf m' T' va = leaf m T va) -> frames m' T' vas = frames m T vas.
Proof.
  induction vas as [|va vas IH]; intros H; cbn [frames]; [done|]. unfold valid, frame.
  rewrite (H va) by left. rewrite IH; [done|]. intros x Hx. apply H. by right.
Qed.

(** The addresses have pages of their own, which are neither free nor tables. *)
Record owned (m : gmap Z Z) (T : gmap (list Z) Z) (l : list Z) (vas : list Z) : Prop := {
  ow_page q : q ∈ frames m T vas -> page_ok q /\ q ∉ l /\ ~ is_table T q;
  ow_nodup : NoDup (frames m T vas) }.

(** Entries that map a page, not a table. *)
Definition leaves (m : gmap Z Z) (T : gmap (list Z) Z) (vas : list Z) : Prop :=
  forall va, va ∈ vas -> valid m T va = true -> PTE_FLAGS (leaf m T va) <> PTE_V.

(** ** Unmapping *)

(** [vas] were unmapped, and their pages freed when [fr] says so. *)
Record unmapped (k : kernel) (T : gmap (list Z) Z) (root : Z) (l vas : list Z) (fr : bool) (k' : kernel) : Prop := {
  un_mm : only_mm k k';
  un_vm : vm_ok k' T root ((if fr then reverse (frames (ram k) T vas) else []) ++ l);
  un_leaf va : 0 <= va < MAXVA -> va mod PGSIZE = 0 ->
    leaf (ram k') T va = if bool_decide (va ∈ vas) && valid (ram k) T va then 0 else leaf (ram k) T va;
  un_same q : q mod PGSIZE = 0 -> ~ is_table T q -> (fr = true -> q ∉ frames (ram k) T vas) ->
    same_page (ram k) (ram k') q }.

Section rules.
Context {tn : turn}.

Lemma kfree_vm_rule T root l pa (Q : unit -> kernel -> Prop) k :
  sync_ok (k_sy k) -> lock_free (k_sy k) L_kmem -> vm_ok k T root l -> page_ok pa -> pa ∉ l -> ~ is_table T pa ->
  (forall k', only_mm k k' -> vm_ok k' T root (pa :: l) -> (forall va, leaf (ram k') T va = leaf (ram k) T va) ->
     (forall p, p mod PGSIZE = 0 -> p <> pa -> same_page (ram k) (ram k') p) -> Q tt k') ->
  wp tn (kfree pa) Q k.
Proof.
  intros Hok Hlf [Hf Hpt Hsep] Hpa Hl Ht HQ. apply (kfree_rule l); [done..|]. intros k' Hm Hf' Hs.
  destruct (pt_ok_ext (ram k) (ram k') T root Hpt) as [Hpt' Hl'].
  { intros c Hc. apply Hs; [by eapply table_page|]. by intros ->. }
  apply HQ; [done| |done|done]. split; [done..|]. intros c Hc [->|Hin]%elem_of_cons; [done|]. by apply (Hsep c).
Qed.

Lemma uvmunmap_page_rule T root l va fr (Q : unit -> kernel -> Prop) k :
  sync_ok (k_sy k) -> lock_free (k_sy k) L_kmem -> vm_ok k T root l -> 0 <= va < MAXVA -> va mod PGSIZE = 0 ->
  leaves (ram k) T [va] -> (fr = true -> owned (ram k) T l [va]) ->
  (forall k', unmapped k T root l [va] fr k' -> Q tt k') ->
  wp tn (uvmunmap_page root va fr) Q k.
Proof.
  intros Hok Hlf Hvm Hva Hal Hlv How HQ. pose proof (vo_pt _ _ _ _ Hvm) as Hpt. unfold uvmunmap_page.
  assert (Hno : valid (ram k) T va = false -> Q tt k).
  { intros E. apply HQ. split; [done|..].
    - cbn [frames]. rewrite E. by destruct fr.
    - intros va' Hva' Hal'. case_bool_decide as Hin; [|done]. apply list_elem_of_singleton in Hin as ->. by rewrite E.
    - intros q _ _ _ a _. done. }
  apply wp_bind, (walk_lookup_rule T root); [done..|]. unfold valid, leaf in *.
  destruct (pte_addr T va) as [a|] eqn:Ea; cbn [from_option id]; [|by apply wp_ret, Hno].
  destruct (pte_addr_ram _ _ _ _ _ Hpt Ea) as [A1 A2].
  rewrite (proj2 (Z.eqb_neq a 0)) by (unfold KERNBASE in *; lia). apply wp_bind, wp_load64; [done..|].
  destruct (pte_flag (rd64 (ram k) a) PTE_V) eqn:Ev; cbn [negb]; [|by apply wp_ret, Hno].
  assert (El : leaf (ram k) T va = rd64 (ram k) a) by (unfold leaf; by rewrite Ea).
  assert (Evl : valid (ram k) T va = true) by (unfold valid; by rewrite El).
  rewrite (proj2 (Z.eqb_neq _ _)) by (rewrite <- El; apply (Hlv va); [left|done]).
  assert (Hfin : forall k1 l1, only_mm k k1 -> vm_ok k1 T root l1 -> l1 = (if fr then [frame (ram k) T va] else []) ++ l ->
    (forall x, leaf (ram k1) T x = leaf (ram k) T x) ->
    (forall q, q mod PGSIZE = 0 -> (fr = true -> q <> frame (ram k) T va) -> same_page (ram k) (ram k1) q) ->
    wp tn (store64 a 0) Q k1).
  { intros k1 l1 Hm1 Hvm1 -> Hl1 Hs1. apply wp_store64; [done..|].
    destruct (leaf_set k1 T root _ va a 0 Hvm1 Hva Hal Ea ltac:(lia)) as (V2 & X2 & L2).
    apply HQ. split; [etransitivity; [exact Hm1|apply only_mm_ram]|..].
    - cbn [frames]. rewrite Evl. by destruct fr.
    - intros x Hx Hxal. rewrite L2, Hl1 by done. case_decide as E.
      + subst x. by rewrite bool_decide_true, Evl by left.
      + rewrite bool_decide_false; [done|]. by intros ?%list_elem_of_singleton.
    - cbn [frames]. rewrite Evl. intros q Hq Hqt Hqf. eapply same_page_trans; [apply Hs1; [done|]|].
      + intros F ->. apply (Hqf F). left.
      + destruct X2 as [(new & En & _ & Hx) _]. apply Hx; [done| |done].
        apply (f_equal length) in En. rewrite (length_app new) in En. destruct new; [by intros ?%elem_of_nil|cbn [length] in En; lia]. }
  destruct fr; cbn [when].
  - pose proof (ow_page _ _ _ _ (How eq_refl) (frame (ram k) T va)) as (P1 & P2 & P3).
    { cbn [frames]. rewrite Evl. left. }
    rewrite <- El. fold (frame (ram k) T va).
    apply wp_bind, (kfree_vm_rule T root l); [done..|]. intros k1 Hm1 Hvm1 Hl1 Hs1.
    apply (Hfin k1 (frame (ram k) T va :: l)); try done. intros q Hq Hne. apply Hs1; [done|]. by apply Hne.
  - apply wp_bind, wp_ret. by apply (Hfin k l).
Qed.

Lemma unmapped_nil k T root l fr : vm_ok k T root l -> unmapped k T root l [] fr k.
Proof.
  intros Hvm. split; [done|by destruct fr| |done]. intros va _ _. by rewrite bool_decide_false by by intros ?%elem_of_nil.
Qed.

(** Unmapping one address after another. *)
Lemma unmapped_cons k T root l va vas fr k1 k2 :
  va ∉ vas -> (forall x, x ∈ vas -> 0 <= x < MAXVA /\ x mod PGSIZE = 0) ->
  unmapped k T root l [va] fr k1 ->
  unmapped k1 T root ((if fr then reverse (frames (ram k) T [va]) else []) ++ l) vas fr k2 ->
  unmapped k T root l (va :: vas) fr k2.
Proof.
  intros Hva Hvas [M1 V1 L1 S1] [M2 V2 L2 S2].
  assert (Hsame : forall x, x ∈ vas -> leaf (ram k1) T x = leaf (ram k) T x).
  { intros x Hx. destruct (Hvas x Hx) as [X1 X2]. rewrite L1 by done.
    rewrite bool_decide_false; [done|]. intros ->%list_elem_of_singleton. done. }
  assert (Hf : frames (ram k1) T vas = frames (ram k) T vas) by (by apply frames_ext).
  assert (Hfs : frames (ram k) T (va :: vas) = frames (ram k) T [va] ++ frames (ram k) T vas).
  { cbn [frames]. by destruct (valid (ram k) T va). }
  split; [by etransitivity|..].
  - rewrite Hf in V2. rewrite Hfs. destruct fr; [|done]. by rewrite reverse_app, <- app_assoc.
  - intros x Hx Hxal. rewrite L2 by done. destruct (decide (x ∈ vas)) as [Hin|Hin].
    + rewrite !bool_decide_true by (done || by right). unfold valid. by rewrite (Hsame x Hin).
    + rewrite (bool_decide_false (x ∈ vas)) by done. cbn [andb]. rewrite L1 by done.
      destruct (decide (x = va)) as [->|Hne]; [by rewrite !bool_decide_true by left|].
      rewrite !bool_decide_false; [done| |]; [by intros [?|?]%elem_of_cons|by intros ?%list_elem_of_singleton].
  - intros q Hq Ht Hfr. rewrite Hf in S2. rewrite Hfs in Hfr.
    eapply same_page_trans; [apply S1|apply S2]; try done; intros F Hin; apply (Hfr F), elem_of_app; auto.
Qed.

Lemma owned_cons m T l va vas : owned m T l (va :: vas) ->
  owned m T l [va] /\ (va ∉ vas -> owned m T l vas).
Proof.
  intros [H1 H2]. cbn [frames] in *. destruct (valid m T va) eqn:E.
  - apply NoDup_cons in H2 as [H2 H3]. split.
    + split; cbn [frames]; rewrite E; [|apply NoDup_singleton]. intros q ->%list_elem_of_singleton. apply H1. left.
    + intros _. split; [|done]. intros q Hq. apply H1. by right.
  - split; [|done]. split; cbn [frames]; rewrite E; [by intros q ?%elem_of_nil|constructor].
Qed.

Lemma uvmunmap_loop_rule n T root l a fr (Q : unit -> kernel -> Prop) k :
  sync_ok (k_sy k) -> lock_free (k_sy k) L_kmem -> vm_ok k T root l ->
  0 <= a -> a mod PGSIZE = 0 -> a + Z.of_nat n * PGSIZE <= MAXVA ->
  leaves (ram k) T (pages_from a n) -> (fr = true -> owned (ram k) T l (pages_from a n)) ->
  (forall k', unmapped k T root l (pages_from a n) fr k' -> Q tt k') ->
  wp tn (uvmunmap_loop (S n) root a (a + Z.of_nat n * PGSIZE) fr) Q k.
Proof.
  revert l a Q k. induction n as [|n IH]; intros l a Q k Hok Hlf Hvm Ha Hal Hlim Hlv How HQ.
  { cbn [uvmunmap_loop]. rewrite (proj2 (Z.ltb_ge _ _)) by lia. apply wp_ret, HQ. by apply unmapped_nil. }
  remember (S n) as n1 eqn:En. cbn [uvmunmap_loop]. subst n1. pose proof MAXVA_val.
  rewrite (proj2 (Z.ltb_lt _ _)) by (unfold PGSIZE; lia).
  assert (Ha1 : (a + PGSIZE) mod PGSIZE = 0) by pages.
  assert (Hin : forall x, x ∈ pages_from (a + PGSIZE) n -> x <> a /\ 0 <= x < MAXVA /\ x mod PGSIZE = 0).
  { intros x Hx. apply elem_of_pages_from in Hx; [|done]. unfold PGSIZE in *. lia. }
  assert (Hna : a ∉ pages_from (a + PGSIZE) n) by (intros H1%Hin; lia). cbn [pages_from] in Hlv, How, HQ.
  apply wp_bind, (uvmunmap_page_rule T root l a fr); [done..|unfold PGSIZE in *; lia|done| | |].
  { intros x ->%list_elem_of_singleton. apply Hlv. left. }
  { intros F. by apply owned_cons in How as [How _]. }
  intros k1 H1. rewrite u64_id by (unfold PGSIZE in *; lia).
  replace (a + Z.of_nat (S n) * PGSIZE) with (a + PGSIZE + Z.of_nat n * PGSIZE) in * by lia.
  assert (Hsame : forall x, x ∈ pages_from (a + PGSIZE) n -> leaf (ram k1) T x = leaf (ram k) T x).
  { intros x (Hx & X1 & X2)%Hin. rewrite (un_leaf _ _ _ _ _ _ _ H1) by done.
    rewrite bool_decide_false; [done|]. by intros ?%list_elem_of_singleton. }
  pose proof (un_mm _ _ _ _ _ _ _ H1) as Hm1.
  apply (IH ((if fr then reverse (frames (ram k) T [a]) else []) ++ l) (a + PGSIZE)); [eauto with kern|eauto with kern|apply H1|unfold PGSIZE; lia|done|done| | |].
  - intros x Hx. unfold valid. rewrite Hsame by done. apply Hlv. by right.
  - intros F. specialize (How F). subst fr. destruct (owned_cons _ _ _ _ _ How) as [O1 O2]. specialize (O2 Hna).
    split; rewrite (frames_ext (ram k) T (ram k1) T) by done; [|apply O2]. intros q Hq.
    destruct (ow_page _ _ _ _ O2 q Hq) as (P1 & P2 & P3). split_and!; [done| |done].
    rewrite elem_of_app, elem_of_reverse. intros [Hq'|?]; [|done]. pose proof (ow_nodup _ _ _ _ How) as Hnd.
    cbn [frames] in Hnd, Hq'. destruct (valid (ram k) T a); [|by apply elem_of_nil in Hq'].
    apply list_elem_of_singleton in Hq' as ->. by apply NoDup_cons in Hnd as [? _].
  - intros k2 H2. apply HQ. eapply unmapped_cons; [done| |exact H1|exact H2]. intros x (_ & X)%Hin. done.
Qed.

Lemma uvmunmap_rule n T root l a fr (Q : unit -> kernel -> Prop) k :
  sync_ok (k_sy k) -> lock_free (k_sy k) L_kmem -> vm_ok k T root l ->
  0 <= a -> a mod PGSIZE = 0 -> a + Z.of_nat n * PGSIZE <= MAXVA ->
  leaves (ram k) T (pages_from a n) -> (fr = true -> owned (ram k) T l (pages_from a n)) ->
  (forall k', unmapped k T root l (pages_from a n) fr k' -> Q tt k') ->
  wp tn (uvmunmap root a (Z.of_nat n) fr) Q k.
Proof.
  intros Hok Hlf Hvm Ha Hal Hlim Hlv How HQ. unfold uvmunmap. rewrite Hal. cbn [negb Z.eqb]. pose proof MAXVA_val.
  rewrite (u64_id (_ * _)), u64_id, Nat2Z.id by (unfold PGSIZE in *; lia). by apply (uvmunmap_loop_rule n T root l).
Qed.

(** ** Freeing the tables *)

(** The tables from path [p] down, in the order in which they are freed. *)
Fixpoint subtree (d : nat) (T : gmap (list Z) Z) (p : list Z) : list Z :=
  match d with
  | O => []
  | S d =>
      match T !! p with
      | Some c => flat_map (fun i => subtree d T (p ++ [i])) (seqZ 0 512) ++ [c]
      | None => []
      end
  end.

Lemma elem_of_flat_map {A B} (f : A -> list B) l y : y ∈ flat_map f l <-> exists x, x ∈ l /\ y ∈ f x.
Proof. rewrite list_elem_of_In, in_flat_map. split; intros (x & H); exists x; by rewrite !list_elem_of_In in *. Qed.

Lemma pt_prefix m T root p i q e : pt_ok m T root -> T !! (p ++ i :: q) = Some e -> is_Some (T !! (p ++ [i])).
Proof.
  intros Hpt. revert e. induction q as [|j q IHq] using rev_ind; intros e Hq; [done|].
  rewrite app_comm_cons, app_assoc in Hq. apply (pt_up _ _ _ Hpt) in Hq as [x Hx]. by eapply IHq.
Qed.

Lemma elem_of_subtree d m T root p e :
  pt_ok m T root -> (length p + d = 3)%nat -> e ∈ subtree d T p <-> exists q, T !! (p ++ q) = Some e.
Proof.
  intros Hpt. revert p. induction d as [|d IH]; intros p Hl; cbn [subtree].
  { split; [by intros ?%elem_of_nil|]. intros (q & Hq). apply (pt_path _ _ _ Hpt) in Hq as [Hq _]. rewrite length_app in Hq. lia. }
  destruct (T !! p) as [c|] eqn:Hp.
  - rewrite elem_of_app, elem_of_flat_map. split.
    + intros [(i & Hi & He)| ->%list_elem_of_singleton]; [|exists []; by rewrite app_nil_r].
      apply IH in He as [q Hq]; [|rewrite length_app; simpl; lia]. exists (i :: q). by rewrite <- app_assoc in Hq.
    + intros ([|i q] & Hq).
      * rewrite app_nil_r, Hp in Hq. right. apply list_elem_of_singleton. congruence.
      * left. exists i. pose proof (pt_path _ _ _ Hpt _ _ Hq) as [_ [_ HF]%Forall_app]. apply Forall_cons in HF as [Hi _].
        split; [by apply elem_of_seqZ|]. apply IH; [rewrite length_app; simpl; lia|]. exists q. by rewrite <- app_assoc.
  - split; [by intros ?%elem_of_nil|]. intros ([|i q] & Hq); [by rewrite app_nil_r, Hp in Hq|].
    apply (pt_prefix m T root) in Hq as [x Hx]; [|done]. apply (pt_up _ _ _ Hpt) in Hx as [y Hy]. congruence.
Qed.

Lemma pte_table_flags d : page_ok d -> pte_flag (Z.lor (PA2PTE d) PTE_V) (Z.lor (Z.lor PTE_R PTE_W) PTE_X) = false.
Proof.
  intros Hd. pose proof (page_ok_pos _ Hd). destruct Hd as [Ha _].
  unfold pte_flag. by rewrite land_small_flags, PTE_FLAGS_make by (lia || done).
Qed.

(** No last-level entry is valid. *)
Definition bare (m : gmap Z Z) (T : gmap (list Z) Z) : Prop :=
  forall p c i, T !! p = Some c -> length p = 2%nat -> 0 <= i < 512 -> pte_flag (rd64 m (c + 8 * i)) PTE_V = false.

Definition same_words (m m' : gmap Z Z) (c from : Z) : Prop :=
  forall i, from <= i < 512 -> rd64 m' (c + 8 * i) = rd64 m (c + 8 * i).

Lemma same_page_words m m' c : same_page m m' c -> same_words m m' c 0.
Proof. intros H i Hi. apply (same_page_rd64 _ _ _ (8 * i)); [done|lia|unfold PGSIZE; lia]. Qed.

(** The tables [ts] went to the free list. *)
Record freed (k : kernel) (l ts : list Z) (k' : kernel) : Prop := {
  fd_mm : only_mm k k';
  fd_free : free_pages k' (reverse ts ++ l);
  fd_same q : q mod PGSIZE = 0 -> q ∉ ts -> same_page (ram k) (ram k') q }.

Section freewalk.
Context (m0 : gmap Z Z) (T : gmap (list Z) Z) (root : Z).
Hypothesis Hpt : pt_ok m0 T root.
Hypothesis Hbare : bare m0 T.

(** The part of the tree below [p] is as it was and not free. *)
Definition intact (k : kernel) (l p : list Z) : Prop :=
  forall q e, T !! (p ++ q) = Some e -> e ∉ l /\ same_words m0 (ram k) e 0.

(** The state in the loop of [freewalk] at the table [c] before entry [n]. *)
Record walked (d : nat) (p : list Z) (c : Z) (k : kernel) (l : list Z) (n : Z) (ts : list Z) (k' : kernel) : Prop := {
  wk_mm : only_mm k k';
  wk_free : free_pages k' (reverse ts ++ l);
  wk_same q : q mod PGSIZE = 0 -> q ∉ ts -> q <> c -> same_page (ram k) (ram k') q;
  wk_words : same_words m0 (ram k') c n }.

Lemma subtree_path d p i e : (length p + S d = 3)%nat -> e ∈ subtree d T (p ++ [i]) -> exists q, T !! (p ++ i :: q) = Some e.
Proof.
  intros Hl He. apply (elem_of_subtree d m0 T root) in He as [q Hq]; [|done|rewrite length_app; simpl; lia].
  exists q. by rewrite <- app_assoc in Hq.
Qed.

(** Entries that have been visited lead to other tables than [i]. *)
Lemma subtree_other d p done i e q :
  (length p + S d = 3)%nat -> i ∉ done -> T !! (p ++ i :: q) = Some e ->
  e ∉ flat_map (fun j => subtree d T (p ++ [j])) done.
Proof.
  intros Hl Hi Hq (j & Hj & He)%elem_of_flat_map. apply subtree_path in He as [q' Hq']; [|done].
  pose proof (pt_inj _ _ _ Hpt _ _ _ Hq Hq') as E. apply app_inv_head in E. simplify_eq. by apply Hi.
Qed.

Lemma subtree_self d p c done : (length p + S d = 3)%nat -> T !! p = Some c ->
  c ∉ flat_map (fun j => subtree d T (p ++ [j])) done.
Proof.
  intros Hl Hp (j & Hj & He)%elem_of_flat_map. apply subtree_path in He as [q' Hq']; [|done].
  pose proof (pt_inj _ _ _ Hpt _ _ _ Hp Hq') as E. apply (f_equal length) in E. rewrite length_app in E. simpl in E. lia.
Qed.

Section level.
Context (d fuel : nat) (p : list Z) (c : Z) (l : list Z) (k : kernel).
Hypothesis Hlen : (length p + S d = 3)%nat.
Hypothesis Hp : T !! p = Some c.
Hypothesis Hok : sync_ok (k_sy k).
Hypothesis Hlf : lock_free (k_sy k) L_kmem.
Hypothesis Hint : intact k l p.
Hypothesis Hchild : forall i e l' (Q : unit -> kernel -> Prop) k', T !! (p ++ [i]) = Some e ->
  sync_ok (k_sy k') -> lock_free (k_sy k') L_kmem -> free_pages k' l' -> intact k' l' (p ++ [i]) ->
  (forall k2, freed k' l' (subtree d T (p ++ [i])) k2 -> Q tt k2) -> wp tn (freewalk fuel e) Q k'.

Abbreviation below := (flat_map (fun i => subtree d T (p ++ [i]))).

Lemma entry_none i ts k' : 0 <= i < 512 -> walked d p c k l i ts k' ->
  (forall e, T !! (p ++ [i]) = Some e -> (2 <= length p)%nat) ->
  pte_flag (rd64 (ram k') (c + 8 * i)) PTE_V = false /\ subtree d T (p ++ [i]) = [].
Proof.
  intros Hi [W1 W2 W3 W4] Hno. rewrite W4 by lia. destruct (decide (length p = 2%nat)) as [E|E].
  - split; [by eapply Hbare|]. destruct d; [done|lia].
  - assert (T !! (p ++ [i]) = None) as En.
    { destruct (T !! (p ++ [i])) eqn:E'; [|done]. pose proof (Hno _ eq_refl). pose proof (pt_path _ _ _ Hpt _ _ Hp). lia. }
    pose proof (pt_link _ _ _ Hpt p c i Hp ltac:(lia) Hi) as H. rewrite En in H. split; [done|].
    destruct d; [done|]. cbn [subtree]. by rewrite En.
Qed.

Lemma table_aligned q e : T !! q = Some e -> e mod PGSIZE = 0.
Proof. intros H. by apply (pt_page _ _ _ Hpt) in H as [? _]. Qed.

(** A subtree that has not been visited is intact. *)
Lemma walked_intact i done k' : i ∉ done -> walked d p c k l i (below done) k' ->
  intact k' (reverse (below done) ++ l) (p ++ [i]).
Proof.
  intros Hi [W1 W2 W3 W4] q e Hq. rewrite <- app_assoc in Hq. pose proof (subtree_other d p done i e q Hlen Hi Hq) as Hne.
  destruct (Hint _ _ Hq) as [I1 I2]. split.
  - rewrite elem_of_app, elem_of_reverse. by intros [?|?].
  - intros j Hj. rewrite <- (I2 j Hj). apply (same_page_words (ram k) (ram k')); [|done]. apply W3; [by eapply table_aligned|done|].
    intros ->. pose proof (pt_inj _ _ _ Hpt _ _ _ Hp Hq) as E. apply (f_equal length) in E. rewrite length_app in E. simpl in E. lia.
Qed.

(** The table below entry [i] was freed and the entry cleared. *)
Lemma walked_step i done k1 k2 : 0 <= i < 512 -> walked d p c k l i (below done) k1 ->
  freed k1 (reverse (below done) ++ l) (subtree d T (p ++ [i])) k2 ->
  walked d p c k l (i + 1) (below (done ++ [i])) (with_ram (wr64 (ram k2) (c + 8 * i) 0) k2).
Proof.
  intros Hi [W1 W2 W3 W4] [F1 F2 F3]. rewrite flat_map_app. cbn [flat_map]. rewrite app_nil_r.
  pose proof (table_aligned _ _ Hp) as Hca.
  assert (Hc : c ∉ subtree d T (p ++ [i])).
  { pose proof (subtree_self d p c [i] Hlen Hp) as H. cbn [flat_map] in H. by rewrite app_nil_r in H. }
  assert (Hcd := subtree_self d p c done Hlen Hp).
  assert (Hs : forall q, q mod PGSIZE = 0 -> q <> c -> same_page (ram k2) (ram (with_ram (wr64 (ram k2) (c + 8 * i) 0) k2)) q).
  { intros q Hq Hne. by apply same_page_word. }
  split.
  - etransitivity; [exact W1|]. etransitivity; [exact F1|apply only_mm_ram].
  - eapply free_pages_ext; [rewrite reverse_app, <- app_assoc; exact F2|done|]. intros q Hq.
    destruct (chain_page_ok _ _ _ q (proj1 F2)) as [Hqa _]; [by rewrite reverse_app, <- app_assoc in Hq|].
    apply Hs; [done|]. intros ->. rewrite elem_of_app, elem_of_reverse, elem_of_app in Hq.
    destruct Hq as [[?|?]|Hq]; [done..|]. destruct (Hint [] c) as [I1 _]; [by rewrite app_nil_r|done].
  - intros q Hq Hn Hne. rewrite not_elem_of_app in Hn. destruct Hn as [N1 N2].
    eapply same_page_trans; [by apply W3|]. eapply same_page_trans; [by apply F3|by apply Hs].
  - intros j Hj. unfold with_ram, ram. kproj. rewrite rd64_wr64_word, decide_False by (lia || congruence || intros [=]; lia).
    rewrite <- (W4 j) by lia. apply (same_page_words (ram k1) (ram k2)); [|lia]. by apply F3.
Qed.

(** An entry without a table below it. *)
Lemma walked_skip i done k1 : walked d p c k l i (below done) k1 -> subtree d T (p ++ [i]) = [] ->
  walked d p c k l (i + 1) (below (done ++ [i])) k1.
Proof.
  intros [W1 W2 W3 W4] E. rewrite flat_map_app. cbn [flat_map]. rewrite E, app_nil_r.
  split; [done..|]. intros j Hj. apply W4. lia.
Qed.

Lemma freewalk_level (Q : unit -> kernel -> Prop) : free_pages k l ->
  (forall k', freed k l (below (seqZ 0 512) ++ [c]) k' -> Q tt k') -> wp tn (freewalk (S fuel) c) Q k.
Proof.
  intros Hf HQ. cbn [freewalk]. pose proof (pt_page _ _ _ Hpt _ _ Hp) as Hc. pose proof (page_ok_ram _ Hc) as [Hc1 Hc2].
  apply wp_bind, (wp_for_all (fun dn k' => walked d p c k l (Z.of_nat (length dn)) (below dn) k')).
  - split; [done|done|done|]. destruct (Hint [] c) as [_ I]; [by rewrite app_nil_r|]. done.
  - intros dn i rest k1 E W. destruct (seqZ_split _ _ _ _ E) as [Ei Hi].
    rewrite length_app. cbn [length]. rewrite Nat.add_1_r, Nat2Z.inj_succ, <- Z.add_1_r. rewrite <- Ei in *.
    apply wp_bind, wp_load64; [lia|unfold PGSIZE in *; lia|].
    pose proof (NoDup_seqZ 0 512) as Hnd. rewrite E in Hnd. apply NoDup_app in Hnd as (_ & Hnd & _).
    assert (Hid : i ∉ dn) by (intros Hin; apply (Hnd i Hin); left). clear Hnd.
    destruct (decide (length p < 2)%nat) as [Hl|Hl]; cycle 1.
    { destruct (entry_none i (below dn) k1) as [-> Hs]; [lia|done|intros; lia|]. cbn [andb]. apply wp_ret. by apply walked_skip. }
    destruct (T !! (p ++ [i])) as [e|] eqn:Ee; cycle 1.
    { destruct (entry_none i (below dn) k1) as [-> Hs]; [lia|done|by rewrite Ee|]. cbn [andb]. apply wp_ret. by apply walked_skip. }
    pose proof (pt_link _ _ _ Hpt p c i Hp Hl ltac:(lia)) as Hk. rewrite Ee in Hk.
    destruct (pte_table e) as (P1 & P2 & _); [by eapply pt_page|]. pose proof (wk_mm _ _ _ _ _ _ _ _ W) as Hm.
    rewrite (wk_words _ _ _ _ _ _ _ _ W i), Hk, P2, P1, pte_table_flags by (lia || by eapply pt_page). cbn [andb negb].
    apply wp_bind, (Hchild i e (reverse (below dn) ++ l)); [done|eauto with kern|eauto with kern|apply W|by apply walked_intact|].
    intros k2 F. apply wp_store64; [lia|unfold PGSIZE in *; lia|]. by apply (walked_step i dn k1 k2); [lia|..].
  - intros k1 [W1 W2 W3 _]. assert (Hcs := subtree_self d p c (seqZ 0 512) Hlen Hp).
    apply (kfree_rule (reverse (below (seqZ 0 512)) ++ l)); [eauto with kern|eauto with kern|done|done| |].
    + rewrite elem_of_app, elem_of_reverse. intros [?|?]; [done|]. destruct (Hint [] c) as [I1 _]; [by rewrite app_nil_r|done].
    + intros k2 Hm2 Hf2 Hs2. apply HQ. split; [by etransitivity|by rewrite reverse_snoc|].
      intros q Hq Hn. rewrite not_elem_of_app in Hn. destruct Hn as [N1 N2]. assert (q <> c) by (intros ->; apply N2; left).
      eapply same_page_trans; [by apply W3|by apply Hs2].
Qed.
End level.

Lemma freewalk_rule d fuel p c l (Q : unit -> kernel -> Prop) k :
  (length p + d = 3)%nat -> (d <= fuel)%nat -> T !! p = Some c ->
  sync_ok (k_sy k) -> lock_free (k_sy k) L_kmem -> free_pages k l -> intact k l p ->
  (forall k', freed k l (subtree d T p) k' -> Q tt k') -> wp tn (freewalk fuel c) Q k.
Proof.
  revert fuel p c l Q k. induction d as [|d IH]; intros fuel p c l Q k Hlen Hfu Hp Hok Hlf Hf Hint HQ.
  { pose proof (pt_path _ _ _ Hpt _ _ Hp). lia. }
  destruct fuel as [|fuel]; [lia|]. cbn [subtree] in HQ. rewrite Hp in HQ.
  apply (freewalk_level d fuel p c l k); try done. intros i e l' Q' k' He Hok' Hlf' Hf' Hi' HQ'.
  apply (IH fuel (p ++ [i]) e l'); try done; [rewrite length_app; simpl; lia|lia].
Qed.

End freewalk.

(** ** Freeing an address space *)

(** Every last-level entry belongs to an address. *)
Lemma leaf_word m T root p c i : pt_ok m T root -> T !! p = Some c -> length p = 2%nat -> 0 <= i < 512 ->
  exists va, 0 <= va < MAXVA /\ va mod PGSIZE = 0 /\ pte_addr T va = Some (c + 8 * i).
Proof.
  intros Hpt Hp Hl Hi. destruct p as [|x [|y [|]]]; try done. destruct (pt_path _ _ _ Hpt _ _ Hp) as [_ HF].
  apply Forall_cons in HF as [Hx HF]. apply Forall_cons in HF as [Hy _]. pose proof (pt_low _ _ _ Hpt _ _ _ Hp) as Hx2.
  exists (((x * 512 + y) * 512 + i) * 4096). unfold pte_addr. change MAXVA with (256 * 512 * 512 * 4096). unfold PGSIZE.
  split; [lia|]. split; [apply Z.mod_mul; lia|]. rewrite !PX_eq by lia.
  change (2 ^ (12 + 9 * 2)) with (4096 * 512 * 512). change (2 ^ (12 + 9 * 1)) with (4096 * 512). change (2 ^ (12 + 9 * 0)) with 4096.
  rewrite <- !Z.div_div, !Z.div_mul by lia.
  rewrite (Z.div_add_l _ 512 i), (Z.div_small i), Z.add_0_r, (Z.div_add_l _ 512 y), (Z.div_small y), Z.add_0_r by lia.
  rewrite (Z.mod_small x), (Z.add_comm _ y), Z.mod_add, (Z.mod_small y), (Z.add_comm _ i), Z.mod_add, (Z.mod_small i) by lia.
  by rewrite Hp.
Qed.

Lemma bare_intro m T root : pt_ok m T root ->
  (forall va, 0 <= va < MAXVA -> va mod PGSIZE = 0 -> valid m T va = false) -> bare m T.
Proof.
  intros Hpt H p c i Hp Hl Hi. destruct (leaf_word m T root p c i) as (va & V1 & V2 & V3); [done..|].
  specialize (H va V1 V2). unfold valid, leaf in H. by rewrite V3 in H.
Qed.

(** The tables and the pages behind [vas] are free, and nothing else changed. *)
Record released (k : kernel) (T : gmap (list Z) Z) (l vas : list Z) (k' : kernel) : Prop := {
  rl_mm : only_mm k k';
  rl_free : exists l', free_pages k' l' /\ forall q, q ∈ l' <-> is_table T q \/ q ∈ frames (ram k) T vas \/ q ∈ l;
  rl_same q : q mod PGSIZE = 0 -> ~ is_table T q -> q ∉ frames (ram k) T vas -> same_page (ram k) (ram k') q }.

Lemma freewalk_root_rule T root l (Q : unit -> kernel -> Prop) k :
  sync_ok (k_sy k) -> lock_free (k_sy k) L_kmem -> vm_ok k T root l ->
  (forall va, 0 <= va < MAXVA -> va mod PGSIZE = 0 -> valid (ram k) T va = false) ->
  (forall k', released k T l [] k' -> Q tt k') -> wp tn (freewalk max_depth root) Q k.
Proof.
  intros Hok Hlf [Hf Hpt Hsep] Hno HQ. pose proof (bare_intro _ _ _ Hpt Hno) as Hb.
  assert (Hd : (3 <= max_depth)%nat) by (unfold max_depth; change ((PHYSTOP - KERNBASE) / PGSIZE) with 32768; lia).
  assert (Hsub : forall q, q ∈ subtree 3 T [] <-> is_table T q) by (intros q; by apply (elem_of_subtree 3 (ram k) T root [])).
  apply (freewalk_rule (ram k) T root Hpt Hb 3 max_depth [] root l); try done; [apply Hpt| |].
  - intros q e He. split; [|by intros i _]. apply Hsep. by exists q.
  - intros k' [F1 F2 F3]. apply HQ. split; [done|..].
    + eexists. split; [exact F2|]. intros q. rewrite elem_of_app, elem_of_reverse, Hsub. cbn [frames]. rewrite elem_of_nil. tauto.
    + intros q Hq Ht _. apply F3; [done|]. by rewrite Hsub.
Qed.

Definition upages (sz : Z) : nat := Z.to_nat ((sz + PGSIZE - 1) / PGSIZE).

Lemma upages_spec sz : 0 <= sz <= TRAPFRAME ->
  PGROUNDUP sz / PGSIZE = Z.of_nat (upages sz) /\ 0 <= Z.of_nat (upages sz) * PGSIZE <= TRAPFRAME /\ (sz = 0 -> upages sz = 0%nat).
Proof.
  intros Hsz. change TRAPFRAME with (4096 * 67108862) in *. rewrite PGROUNDUP_eq by (unfold PGSIZE; lia).
  unfold upages. assert (0 <= (sz + PGSIZE - 1) / PGSIZE) by (unfold PGSIZE; apply Z.div_pos; lia).
  rewrite Z2Nat.id, Z.div_mul by (done || lia). split; [done|]. split; [pages|]. intros ->. done.
Qed.

(** Releasing what is left after unmapping. *)
Lemma released_unmapped k T root l vas k1 k2 :
  unmapped k T root l vas true k1 -> released k1 T (reverse (frames (ram k) T vas) ++ l) [] k2 -> released k T l vas k2.
Proof.
  intros [U1 U2 U3 U4] [R1 (l' & R2 & R3) R4]. split; [by etransitivity|..].
  - exists l'. split; [done|]. intros q. rewrite R3. cbn [frames]. rewrite elem_of_nil, elem_of_app, elem_of_reverse. tauto.
  - intros q Hq Ht Hf. eapply same_page_trans; [by apply U4|]. apply R4; [done..|]. by intros ?%elem_of_nil.
Qed.

Lemma uvmfree_rule T root l sz (Q : unit -> kernel -> Prop) k :
  sync_ok (k_sy k) -> lock_free (k_sy k) L_kmem -> vm_ok k T root l -> 0 <= sz <= TRAPFRAME ->
  leaves (ram k) T (pages_from 0 (upages sz)) -> owned (ram k) T l (pages_from 0 (upages sz)) ->
  (forall va, 0 <= va < MAXVA -> va mod PGSIZE = 0 -> valid (ram k) T va = true -> va ∈ pages_from 0 (upages sz)) ->
  (forall k', released k T l (pages_from 0 (upages sz)) k' -> Q tt k') -> wp tn (uvmfree root sz) Q k.
Proof.
  intros Hok Hlf Hvm Hsz Hlv How Hall HQ. unfold uvmfree. destruct (upages_spec sz Hsz) as (U1 & U2 & U3).
  assert (Hfin : forall k1, unmapped k T root l (pages_from 0 (upages sz)) true k1 -> wp tn (freewalk max_depth root) Q k1).
  { intros k1 H1. pose proof (un_mm _ _ _ _ _ _ _ H1).
    apply (freewalk_root_rule T root (reverse (frames (ram k) T (pages_from 0 (upages sz))) ++ l));
      [eauto with kern|eauto with kern|apply H1| |].
    - intros va V1 V2. unfold valid. rewrite (un_leaf _ _ _ _ _ _ _ H1) by done.
      destruct (valid (ram k) T va) eqn:E; [|by rewrite andb_false_r]. by rewrite bool_decide_true by by apply Hall.
    - intros k2 H2. apply HQ. by eapply released_unmapped. }
  rewrite Z.gtb_ltb. destruct (Z.ltb_spec 0 sz); cbn [when].
  - rewrite U1. change TRAPFRAME with (4096 * 67108862) in *. pose proof MAXVA_val.
    apply wp_bind, (uvmunmap_rule (upages sz) T root l); try done; lia.
  - apply wp_bind, wp_ret, Hfin. rewrite U3 by lia. by apply unmapped_nil.
Qed.

End rules.

(** The page table of a process of size [sz]: besides the pages of the user
    only the trampoline and the trapframe are mapped. *)
Record proc_space (k : kernel) (T : gmap (list Z) Z) (root : Z) (l : list Z) (sz : Z) : Prop := {
  ps_vm : vm_ok k T root l;
  ps_size : 0 <= sz <= TRAPFRAME;
  ps_leaves : leaves (ram k) T (TRAMPOLINE :: TRAPFRAME :: pages_from 0 (upages sz));
  ps_owned : owned (ram k) T l (pages_from 0 (upages sz));
  ps_all va : 0 <= va < MAXVA -> va mod PGSIZE = 0 -> valid (ram k) T va = true ->
    va ∈ TRAMPOLINE :: TRAPFRAME :: pages_from 0 (upages sz) }.

(** A page was unmapped without freeing it. *)
Lemma kept_leaf k T root l v k' : unmapped k T root l (pages_from v 1) false k' ->
  only_mm k k' /\ vm_ok k' T root l /\
  (forall va, 0 <= va < MAXVA -> va mod PGSIZE = 0 -> va <> v -> leaf (ram k') T va = leaf (ram k) T va) /\
  (forall va, 0 <= va < MAXVA -> va mod PGSIZE = 0 -> valid (ram k') T va = true -> valid (ram k) T va = true /\ va <> v) /\
  (forall q, q mod PGSIZE = 0 -> ~ is_table T q -> same_page (ram k) (ram k') q).
Proof.
  cbn [pages_from]. intros [U1 U2 U3 U4]. split_and!; [done|done|..].
  - intros va V1 V2 Hne. rewrite U3 by done. rewrite bool_decide_false; [done|]. by intros ?%list_elem_of_singleton.
  - intros va V1 V2. unfold valid. rewrite U3 by done. destruct (decide (va = v)) as [->|Hne].
    + rewrite bool_decide_true by left. cbn [andb]. destruct (valid (ram k) T v) eqn:E; [done|]. unfold valid in E. by rewrite E.
    + rewrite bool_decide_false; [done|]. by intros ?%list_elem_of_singleton.
  - intros q Hq Ht. by apply U4.
Qed.

Lemma proc_freepagetable_rule {tn} T root l sz (Q : unit -> kernel -> Prop) k :
  sync_ok (k_sy k) -> lock_free (k_sy k) L_kmem -> proc_space k T root l sz ->
  (forall k', released k T l (pages_from 0 (upages sz)) k' -> Q tt k') -> wp tn (proc_freepagetable root sz) Q k.
Proof.
  intros Hok Hlf [Hvm Hsz Hlv How Hall] HQ.
  unfold proc_freepagetable. set (us := pages_from 0 (upages sz)) in *. destruct (upages_spec sz Hsz) as (_ & U2 & _).
  assert (Hus : forall x, x ∈ us -> 0 <= x < TRAPFRAME /\ x mod PGSIZE = 0).
  { intros x Hx. apply elem_of_pages_from in Hx; [|done]. change TRAPFRAME with (4096 * 67108862) in *. lia. }
  assert (Htr : TRAPFRAME < TRAMPOLINE < MAXVA) by done.
  apply wp_bind, (uvmunmap_rule 1 T root l TRAMPOLINE false); [done..| |done|].
  { intros x ->%list_elem_of_singleton. apply Hlv. left. }
  intros k1 H1. destruct (kept_leaf k T root l TRAMPOLINE k1 H1) as (M1 & V1 & L1 & G1 & S1).
  apply wp_bind, (uvmunmap_rule 1 T root l TRAPFRAME false); [eauto with kern|eauto with kern|done|done|done|done| |done|].
  { intros x ->%list_elem_of_singleton. unfold valid. rewrite L1 by (done || lia). apply Hlv. right. left. }
  intros k2 H2. destruct (kept_leaf k1 T root l TRAPFRAME k2 H2) as (M2 & V2 & L2 & G2 & S2).
  assert (Hl : forall x, x ∈ us -> leaf (ram k2) T x = leaf (ram k) T x).
  { intros x Hx. destruct (Hus x Hx) as [X1 X2]. rewrite L2, L1 by (done || lia). done. }
  assert (Hfr : frames (ram k2) T us = frames (ram k) T us) by (by apply frames_ext).
  apply (uvmfree_rule T root l); [eauto with kern|eauto with kern|done|done| | | |].
  - intros x Hx. unfold valid. rewrite Hl by done. apply Hlv. by do 2 right.
  - destruct How as [O1 O2]. split; [intros q|]; fold us; rewrite Hfr; auto.
  - intros va A1 A2 A3. destruct (G2 va A1 A2 A3) as [B1 B2]. destruct (G1 va A1 A2 B1) as [C1 C2].
    apply Hall in C1; [|done..]. by rewrite !elem_of_cons in C1; destruct C1 as [?|[?|?]].
  - intros k' [R1 R2 R3]. apply HQ. fold us in R2, R3. rewrite Hfr in R2, R3. split; [|done|].
    + etransitivity; [exact M1|]. by etransitivity.
    + intros q Hq Ht Hn. eapply same_page_trans; [by apply S1|]. eapply same_page_trans; [by apply S2|by apply R3].
Qed.

(** C16: freeing the page table of a process succeeds and frees exactly its
    tables and the user's pages, each once; the trampoline and the trapframe,
    which it also maps, and all other memory stay. *)
Theorem proc_freepagetable_frees T root l sz k :
  sync_ok (k_sy k) -> lock_free (k_sy k) L_kmem -> proc_space k T root l sz ->
  exists k', (forall e, proc_freepagetable root sz e k = Ret tt e k') /\
    released k T l (pages_from 0 (upages sz)) k'.
Proof.
  intros Hok Hlf Hps.
  destruct (wp_exact (proc_freepagetable root sz) (fun _ k' => released k T l (pages_from 0 (upages sz)) k') k) as ([] & k' & H); [|by exists k'].
  by apply (proc_freepagetable_rule T root l).
Qed.

(** ** Copying an address space *)

Lemma pages_from_snoc a n : pages_from a (S n) = pages_from a n ++ [a + Z.of_nat n * PGSIZE].
Proof.
  revert a. induction n as [|n IH]; intros a; [cbn [pages_from app]; f_equal; lia|].
  cbn [pages_from app] in *. f_equal. rewrite IH. do 2 f_equal. lia.
Qed.

Lemma frames_app m T a b : frames m T (a ++ b) = frames m T a ++ frames m T b.
Proof. induction a as [|x a IH]; cbn [frames app]; [done|]. rewrite IH. by destruct (valid m T x). Qed.

Lemma rd_wr_rdn m d m' s n i : 0 <= i < n -> rd (wr m d (rdn m' s n)) (d + i) = rd m' (s + i).
Proof.
  intros Hi. unfold rd at 1. rewrite lookup_wr, length_rdn by lia. rewrite (proj2 (Z.leb_le _ _)), (proj2 (Z.ltb_lt _ _)) by lia.
  cbn [andb]. replace (d + i - d) with i by lia. by rewrite lookup_rdn.
Qed.

(** A page taken from the free list for other use. *)
Lemma vm_take k k' T root l p :
  vm_ok k T root (p :: l) -> free_pages k' l ->
  (forall q, q mod PGSIZE = 0 -> q <> p -> same_page (ram k) (ram k') q) ->
  vm_ok k' T root l /\ ~ is_table T p /\ extend (ram k) T (p :: l) (ram k') T l /\
  (forall va, leaf (ram k') T va = leaf (ram k) T va).
Proof.
  intros [Hf Hpt Hsep] Hf' Hs. assert (~ is_table T p) as Hnt by (intros H%Hsep; apply H; left).
  destruct (pt_ok_ext (ram k) (ram k') T root Hpt) as [Hpt' Hl].
  { intros c Hc. apply Hs; [by eapply table_page|]. by intros ->. }
  split_and!; [|done| |done].
  - split; [done..|]. intros c Hc Hin. apply (Hsep c Hc). by right.
  - split; [|done]. exists [p]. split_and!; [done|auto|]. intros q Hq Hqp _. apply Hs; [done|]. intros ->. apply Hqp. left.
Qed.

Lemma PTE_FLAGS_range v : 0 <= PTE_FLAGS v < 1024.
Proof. unfold PTE_FLAGS. change 1023 with (Z.ones 10). rewrite Z.land_ones by lia. apply Z.mod_pos_bound. lia. Qed.

(** The entry made from another frame and the flags of a valid entry. *)
Lemma pte_copy f v : page_ok f -> pte_flag v PTE_V = true ->
  let e := Z.lor (Z.lor (PA2PTE f) (PTE_FLAGS v)) PTE_V in PTE2PA e = f /\ PTE_FLAGS e = PTE_FLAGS v.
Proof.
  intros Hf Hv. pose proof (page_ok_pos _ Hf). destruct Hf as [Ha _].
  pose proof (PTE_FLAGS_range v) as Hfl.
  assert (Z.lor (PTE_FLAGS v) PTE_V = PTE_FLAGS v) as E.
  { unfold pte_flag, c_true in Hv. apply negb_true_iff, Z.eqb_neq in Hv. rewrite land_small_flags in Hv by done.
    apply Z.bits_inj'. intros n Hn. rewrite Z.lor_spec. change PTE_V with (2 ^ 0) in *. rewrite Z.pow2_bits_eqb by lia.
    destruct (Z.eqb_spec 0 n) as [<-|]; [|by rewrite orb_false_r]. rewrite orb_true_r. symmetry.
    destruct (Z.testbit (PTE_FLAGS v) 0) eqn:E0; [done|]. destruct Hv. apply Z.bits_inj'. intros j Hj.
    rewrite Z.land_spec, Z.bits_0, Z.pow2_bits_eqb by lia. destruct (Z.eqb_spec 0 j) as [<-|]; [by rewrite E0|by rewrite andb_false_r]. }
  cbv zeta. rewrite <- Z.lor_assoc, E. split; [by apply PTE2PA_make; [lia|..]|by apply PTE_FLAGS_make; [lia|..]].
Qed.

Lemma valid_flags m T m' T' va va' : PTE_FLAGS (leaf m' T' va') = PTE_FLAGS (leaf m T va) -> valid m' T' va' = valid m T va.
Proof. intros E. unfold valid, pte_flag. by rewrite (land_small_flags (leaf m' T' va') PTE_V), (land_small_flags (leaf m T va) PTE_V), E. Qed.

(** New tables come from the free list, which only gets shorter, and nothing
    else changes. *)
Record confined (m : gmap Z Z) (T : gmap (list Z) Z) (l : list Z) (m' : gmap Z Z) (T' : gmap (list Z) Z) (l' : list Z) : Prop := {
  cf_table c : is_table T' c -> is_table T c \/ c ∈ l;
  cf_free c : c ∈ l' -> c ∈ l;
  cf_same q : q mod PGSIZE = 0 -> q ∉ l -> ~ is_table T q -> same_page m m' q;
  cf_sub : T ⊆ T' }.

Lemma extend_confined m T l m' T' l' : extend m T l m' T' l' -> confined m T l m' T' l'.
Proof.
  intros H. split; [by intros c ?%(extend_table _ _ _ _ _ _ _ H)|by intros c ?%(extend_free _ _ _ _ _ _ _ H)| |apply H].
  destruct H as [(new & -> & _ & Hs) _]. intros q Hq Hl Ht. apply Hs; [done| |done]. intros Hin. apply Hl, elem_of_app. by left.
Qed.

Lemma confined_trans m T l m1 T1 l1 m2 T2 l2 :
  confined m T l m1 T1 l1 -> confined m1 T1 l1 m2 T2 l2 -> confined m T l m2 T2 l2.
Proof.
  intros [A1 A2 A3 A4] [B1 B2 B3 B4]. split; [..|by etransitivity].
  - intros c [Hc|Hc]%B1; [by apply A1|]. right. by apply A2.
  - intros c Hc. by apply A2, B2.
  - intros q Hq Hl Ht. eapply same_page_trans; [by apply A3|]. apply B3; [done|by intros ?%A2|by intros [?|?]%A1].
Qed.

Section copy.
Context (k0 : kernel) (Tp Tc : gmap (list Z) Z) (rp rc : Z) (l0 : list Z) (n : nat).

(** A parent with [n] pages of its own and a child without user pages. *)
Record copy_pre : Prop := {
  cp_parent : vm_ok k0 Tp rp l0;
  cp_child : vm_ok k0 Tc rc l0;
  cp_apart c : is_table Tp c -> ~ is_table Tc c;
  cp_bound : Z.of_nat n * PGSIZE <= TRAPFRAME;
  cp_leaves : leaves (ram k0) Tp (pages_from 0 n);
  cp_owned : owned (ram k0) Tp l0 (pages_from 0 n);
  cp_frames q : q ∈ frames (ram k0) Tp (pages_from 0 n) -> ~ is_table Tc q;
  cp_empty va : va ∈ pages_from 0 n -> valid (ram k0) Tc va = false }.

(** The first [j] pages have been copied. *)
Record copied (j : nat) (T : gmap (list Z) Z) (l : list Z) (k : kernel) : Prop := {
  cy_mm : only_mm k0 k;
  cy_vm : vm_ok k T rc l;
  cy_conf : confined (ram k0) Tc l0 (ram k) T l;
  cy_map va : va ∈ pages_from 0 j -> valid (ram k0) Tp va = true ->
    PTE_FLAGS (leaf (ram k) T va) = PTE_FLAGS (leaf (ram k0) Tp va) /\
    forall a, va <= a < va + PGSIZE -> ubyte (ram k) T a = ubyte (ram k0) Tp a;
  cy_rest va : 0 <= va < MAXVA -> va mod PGSIZE = 0 -> (va ∈ pages_from 0 j -> valid (ram k0) Tp va = false) ->
    leaf (ram k) T va = leaf (ram k0) Tc va;
  cy_owned : owned (ram k) T l (pages_from 0 j);
  cy_from q : q ∈ frames (ram k) T (pages_from 0 j) -> q ∈ l0;
  cy_used q : q ∈ l0 -> q ∈ l \/ is_table T q \/ q ∈ frames (ram k) T (pages_from 0 j) }.

Hypothesis Hpre : copy_pre.

Lemma copied_start : copied 0 Tc l0 k0.
Proof.
  split; [done|apply Hpre|apply extend_confined, extend_refl|by intros va ?%elem_of_nil|done| |by intros q ?%elem_of_nil|auto].
  split; [by intros q ?%elem_of_nil|constructor].
Qed.

(** The parent is untouched. *)
Lemma copied_parent j T l k : copied j T l k ->
  vm_ok k Tp rp l /\ (forall va, leaf (ram k) Tp va = leaf (ram k0) Tp va) /\
  (forall q, q ∈ frames (ram k0) Tp (pages_from 0 n) -> same_page (ram k0) (ram k) q).
Proof.
  intros [C1 C2 C3 _ _ _ _ _]. destruct Hpre as [[F1 F2 F3] _ P3 _ _ [P5 _] P6 _].
  assert (Ht : forall c, is_table Tp c -> same_page (ram k0) (ram k) c).
  { intros c Hc. apply C3; [by eapply table_page|by apply F3|by apply P3]. }
  destruct (pt_ok_ext (ram k0) (ram k) Tp rp F2 Ht) as [E1 E2]. split_and!; [|done|].
  - split; [apply C2|done|]. intros c Hc Hin. apply (F3 c Hc). by apply C3.
  - intros q Hq. destruct (P5 q Hq) as ([Q1 _] & Q2 & Q3). apply C3; [done..|]. by apply P6.
Qed.

(** What has been copied stays when only other entries change. *)
Lemma copied_keep j T l k T' l' k' : copied j T l k -> confined (ram k) T l (ram k') T' l' ->
  (forall va, va ∈ pages_from 0 j -> leaf (ram k') T' va = leaf (ram k) T va) ->
  frames (ram k') T' (pages_from 0 j) = frames (ram k) T (pages_from 0 j) /\
  owned (ram k') T' l' (pages_from 0 j) /\
  forall va, va ∈ pages_from 0 j -> valid (ram k0) Tp va = true ->
    PTE_FLAGS (leaf (ram k') T' va) = PTE_FLAGS (leaf (ram k0) Tp va) /\
    forall a, va <= a < va + PGSIZE -> ubyte (ram k') T' a = ubyte (ram k0) Tp a.
Proof.
  intros [C1 C2 C3 C4 C5 [O1 O2] C6 C7] [A1 A2 A3 A4] Hl.
  assert (Hf : frames (ram k') T' (pages_from 0 j) = frames (ram k) T (pages_from 0 j)) by (by apply frames_ext).
  split_and!; [done|..].
  - split; rewrite Hf; [|done]. intros q Hq. destruct (O1 q Hq) as (Q1 & Q2 & Q3). split_and!; [done|by intros ?%A2|by intros [?|?]%A1].
  - intros va Hva Hv. destruct (C4 va Hva Hv) as [M1 M2]. rewrite Hl by done. split; [done|]. intros a Ha. rewrite <- M2 by done.
    assert (Hal : va mod PGSIZE = 0) by (by apply elem_of_pages_from in Hva as [? _]).
    unfold ubyte, frame. rewrite (pg_unique va a) by done. rewrite Hl by done. fold (frame (ram k) T va).
    destruct (O1 (frame (ram k) T va)) as ([Q1 _] & Q2 & Q3).
    { apply elem_of_frames. exists va. split_and!; [done| |done]. by rewrite (valid_flags _ _ _ _ _ _ M1). }
    apply (A3 (frame (ram k) T va)); [done..|lia].
Qed.

(** The next address, which is not one of those copied. *)
Lemma next_page j : (j < n)%nat -> let v := 0 + Z.of_nat j * PGSIZE in
  0 <= v < TRAPFRAME /\ v mod PGSIZE = 0 /\ v ∈ pages_from 0 n /\ v ∉ pages_from 0 j /\
  forall va, va ∈ pages_from 0 j -> 0 <= va < MAXVA /\ va mod PGSIZE = 0.
Proof.
  intros Hj v. pose proof (cp_bound Hpre). assert (TRAPFRAME < MAXVA) by done. assert (v mod PGSIZE = 0) by (subst v; pages).
  split_and!; [subst v; unfold PGSIZE in *; lia|subst v; unfold PGSIZE in *; lia|done|..].
  - apply elem_of_pages_from; [done|]. split; [done|]. subst v. unfold PGSIZE. lia.
  - intros [_ E]%elem_of_pages_from; [|done]. subst v. unfold PGSIZE in *. lia.
  - intros va [E1 E2]%elem_of_pages_from; [|done]. unfold PGSIZE in *. lia.
Qed.

Lemma copied_skip j T l k : (j < n)%nat -> copied j T l k -> valid (ram k0) Tp (0 + Z.of_nat j * PGSIZE) = false ->
  copied (S j) T l k.
Proof.
  intros Hj HC Hv. destruct (next_page j Hj) as (N1 & N2 & N3 & N4 & N5). destruct HC as [C1 C2 C3 C4 C5 [O1 O2] C6 C7].
  assert (TRAPFRAME < MAXVA) by done.
  assert (Hf : frames (ram k) T (pages_from 0 j ++ [0 + Z.of_nat j * PGSIZE]) = frames (ram k) T (pages_from 0 j)).
  { rewrite frames_app. cbn [frames]. unfold valid at 1. rewrite C5 by (done || lia).
    fold (valid (ram k0) Tc (0 + Z.of_nat j * PGSIZE)). rewrite (cp_empty Hpre) by done. apply app_nil_r. }
  split; rewrite ?pages_from_snoc; try done.
  - intros va [Hva| ->%list_elem_of_singleton]%elem_of_app Hv'; [by apply C4|congruence].
  - intros va V1 V2 V3. apply C5; [done..|]. intros Hin. apply V3, elem_of_app. by left.
  - split; [intros q|]; rewrite Hf; auto.
  - intros q. rewrite Hf. auto.
  - intros q. rewrite Hf. auto.
Qed.

Section one.
Context (j : nat) (T : gmap (list Z) Z) (mem : Z) (l1 : list Z) (k k2 : kernel).
Abbreviation v := (0 + Z.of_nat j * PGSIZE).
Hypothesis Hj : (j < n)%nat.
Hypothesis HC : copied j T (mem :: l1) k.
Hypothesis Hv : valid (ram k0) Tp v = true.
Hypothesis Hmem : page_ok mem.
Hypothesis Hml : mem ∉ l1.
(** [mem] was taken from the free list and the page copied to it ... *)
Hypothesis Hm2 : only_mm k k2.
Hypothesis Hvm2 : vm_ok k2 T rc l1.
Hypothesis Hmt : ~ is_table T mem.
Hypothesis Hx2 : extend (ram k) T (mem :: l1) (ram k2) T l1.
Hypothesis Hl2 : forall va, leaf (ram k2) T va = leaf (ram k) T va.
Hypothesis Hb2 : forall i, 0 <= i < PGSIZE -> rd (ram k2) (mem + i) = rd (ram k0) (frame (ram k0) Tp v + i).
(** ... and mapped, when [x] is 1. *)
Context (x : Z) (T4 : gmap (list Z) Z) (l4 : list Z) (k4 : kernel).
Hypothesis Hm4 : only_mm k2 k4.
Hypothesis Hvm4 : vm_ok k4 T4 rc l4.
Hypothesis Hx4 : extend (ram k2) T l1 (ram k4) T4 l4.
Hypothesis Hk4 : linked 2 l1 l4 T4.
Hypothesis Hl4 : forall va, 0 <= va < MAXVA -> va mod PGSIZE = 0 ->
  leaf (ram k4) T4 va = map_range v x mem (PTE_FLAGS (leaf (ram k0) Tp v)) (leaf (ram k2) T) va.

Lemma one_confined : confined (ram k) T (mem :: l1) (ram k4) T4 l4.
Proof. eapply confined_trans; by apply extend_confined. Qed.

Lemma one_mem : mem ∉ l4 /\ ~ is_table T4 mem /\ same_page (ram k2) (ram k4) mem.
Proof.
  split_and!; [|by intros [?|?]%(extend_table _ _ _ _ _ _ _ Hx4)|by eapply extend_same].
  by intros ?%(extend_free _ _ _ _ _ _ _ Hx4).
Qed.

Lemma copied_next : x = 1 -> copied (S j) T4 l4 k4.
Proof.
  intros Ex. destruct (next_page j Hj) as (N1 & N2 & N3 & N4 & N5). destruct one_mem as (G1 & G2 & G3).
  assert (TRAPFRAME < MAXVA) by done.
  destruct (pte_copy mem (leaf (ram k0) Tp v) Hmem Hv) as [E1 E2].
  assert (Hlv : leaf (ram k4) T4 v = Z.lor (Z.lor (PA2PTE mem) (PTE_FLAGS (leaf (ram k0) Tp v))) PTE_V).
  { rewrite Hl4, Ex, map_range_1 by (done || lia). by rewrite decide_True. }
  assert (Hlo : forall va, 0 <= va < MAXVA -> va mod PGSIZE = 0 -> va <> v -> leaf (ram k4) T4 va = leaf (ram k) T va).
  { intros va V1 V2 V3. rewrite Hl4, Ex, map_range_1 by done. by rewrite decide_False, Hl2. }
  rewrite <- Hlv in E1, E2.
  destruct (copied_keep j T (mem :: l1) k T4 l4 k4 HC one_confined) as (K1 & [O1 O2] & K3).
  { intros va Hva. destruct (N5 va Hva). apply Hlo; [done..|]. by intros ->. }
  assert (Hf : frames (ram k4) T4 (pages_from 0 (S j)) = frames (ram k) T (pages_from 0 j) ++ [mem]).
  { rewrite pages_from_snoc, frames_app, K1. cbn [frames]. rewrite (valid_flags _ _ _ _ _ _ E2), Hv. by unfold frame; rewrite E1. }
  split; [|done|eapply confined_trans; [apply HC|apply one_confined]|..].
  - etransitivity; [apply HC|]. by etransitivity.
  - rewrite pages_from_snoc. intros va [Hva| ->%list_elem_of_singleton]%elem_of_app Hv'; [by apply K3|].
    split; [done|]. intros a Ha. unfold ubyte, frame at 1. rewrite (pg_unique v a), E1 by done.
    rewrite G3 by lia. rewrite Hb2 by lia. done.
  - rewrite pages_from_snoc. intros va V1 V2 V3. rewrite Hlo; [|done|done|].
    + apply HC; [done..|]. intros Hin. apply V3, elem_of_app. by left.
    + intros ->. rewrite V3 in Hv; [done|]. apply elem_of_app. right. left.
  - rewrite K1 in O1, O2. split; rewrite Hf.
    + intros q [Hq| ->%list_elem_of_singleton]%elem_of_app; [by apply O1|done].
    + apply NoDup_app. split_and!; [done| |apply NoDup_singleton]. intros q Hq ->%list_elem_of_singleton.
      destruct (ow_page _ _ _ _ (cy_owned _ _ _ _ HC) mem Hq) as (_ & Q2 & _). apply Q2. left.
  - intros q. rewrite Hf, elem_of_app, list_elem_of_singleton. intros [Hq| ->]; [exact (cy_from _ _ _ _ HC q Hq)|].
    apply (cf_free _ _ _ _ _ _ (cy_conf _ _ _ _ HC)). left.
  - intros q Hq. rewrite Hf, elem_of_app, list_elem_of_singleton. destruct (cy_used _ _ _ _ HC q Hq) as [[->|H1]%elem_of_cons|[[p Hp]|H1]].
    + auto.
    + destruct (decide (q ∈ l4)); [auto|]. right. left. by apply Hk4.
    + right. left. exists p. eapply lookup_weaken; [done|]. apply Hx4.
    + auto.
Qed.

(** Memory ran out and [mem] was freed again. *)
Lemma copied_undo k5 : x = 0 -> l4 = [] -> only_mm k4 k5 -> vm_ok k5 T4 rc [mem] ->
  (forall va, leaf (ram k5) T4 va = leaf (ram k4) T4 va) ->
  (forall q, q mod PGSIZE = 0 -> q <> mem -> same_page (ram k4) (ram k5) q) -> copied j T4 [mem] k5.
Proof.
  intros Ex El Hm5 Hvm5 Hl5 Hs5. destruct (next_page j Hj) as (_ & _ & _ & _ & N5).
  assert (Hlo : forall va, 0 <= va < MAXVA -> va mod PGSIZE = 0 -> leaf (ram k5) T4 va = leaf (ram k) T va).
  { intros va V1 V2. by rewrite Hl5, Hl4, Ex, map_range_0, Hl2. }
  assert (Hc : confined (ram k) T (mem :: l1) (ram k5) T4 [mem]).
  { destruct one_confined as [A1 A2 A3 A4]. split; [done| |..|done].
    - intros c ->%list_elem_of_singleton. left.
    - intros q Hq Hql Hqt. eapply same_page_trans; [by apply A3|]. apply Hs5; [done|]. intros ->. apply Hql. left. }
  destruct (copied_keep j T (mem :: l1) k T4 [mem] k5 HC Hc) as (K1 & K2 & K3).
  { intros va Hva. destruct (N5 va Hva). by apply Hlo. }
  split; [|done|eapply confined_trans; [apply HC|done]|done| |done|rewrite K1; exact (cy_from _ _ _ _ HC)|].
  - etransitivity; [apply HC|]. etransitivity; [exact Hm2|]. by etransitivity.
  - intros va V1 V2 V3. rewrite Hlo by done. by apply HC.
  - intros q Hq. rewrite K1. destruct (cy_used _ _ _ _ HC q Hq) as [[->|H1]%elem_of_cons|[[p Hp]|H1]].
    + left. left.
    + right. left. apply Hk4; [done|]. rewrite El. by intros ?%elem_of_nil.
    + right. left. exists p. eapply lookup_weaken; [done|]. apply Hx4.
    + auto.
Qed.

End one.

Lemma copied_mm j T l k k' : copied j T l k -> only_mm k k' -> k_mm k' = k_mm k -> copied j T l k'.
Proof.
  intros [C1 [V1 V2 V3] C3 C4 C5 C6 C7 C8] Hm Hmm. assert (ram k' = ram k) as E by (unfold ram; by rewrite Hmm).
  split; rewrite ?E; try done; [by etransitivity|]. split; [|by rewrite E|done]. unfold free_pages. rewrite E. by rewrite Hmm.
Qed.

Section loop.
Context {tn : turn} (sz : Z).
Hypothesis Hok : sync_ok (k_sy k0).
Hypothesis Hlf : lock_free (k_sy k0) L_kmem.
Hypothesis Hsz : 0 <= sz.
Hypothesis Hn : n = upages sz.

Lemma before_end j : (0 + Z.of_nat j * PGSIZE <? sz) = bool_decide (j < n)%nat.
Proof.
  rewrite Hn. unfold upages. apply eq_true_iff_eq. rewrite Z.ltb_lt, bool_decide_eq_true.
  assert (0 <= (sz + PGSIZE - 1) / PGSIZE) by (apply Z.div_pos; unfold PGSIZE; lia). split; intros; pages.
Qed.

(** The entry of the parent for the next page. *)
Lemma parent_leaf_rule {A} j T l k (y : M A) (f : Z -> M A) (Q : A -> kernel -> Prop) :
  (j < n)%nat -> copied j T l k -> let v := leaf (ram k0) Tp (0 + Z.of_nat j * PGSIZE) in
  (pte_flag v PTE_V = false -> wp tn y Q k) -> (pte_flag v PTE_V = true -> wp tn (f v) Q k) ->
  wp tn (let* pte := walk rp (0 + Z.of_nat j * PGSIZE) false in
         if pte =? 0 then y else
         let* v := load64 pte in if negb (pte_flag v PTE_V) then y else f v) Q k.
Proof.
  intros Hj HC v Hy Hf. destruct (next_page j Hj) as (N1 & N2 & _). assert (TRAPFRAME < MAXVA) by done.
  destruct (copied_parent j T l k HC) as ([_ Hpt _] & Hlp & _).
  apply wp_bind, (walk_lookup_rule Tp rp); [done|lia|]. subst v. rewrite <- Hlp in Hy, Hf. unfold leaf in Hy, Hf.
  destruct (pte_addr Tp _) as [a|] eqn:Ea; cbn [from_option id]; [|by apply Hy].
  destruct (pte_addr_ram _ _ _ _ _ Hpt Ea) as [A1 A2]. rewrite (proj2 (Z.eqb_neq a 0)) by (unfold KERNBASE in *; lia).
  apply wp_bind, wp_load64; [done..|]. destruct (pte_flag (rd64 (ram k) a) PTE_V); cbn [negb]; auto.
Qed.

(** A page taken from the free list, with a copy of the page [pa]. *)
Lemma copy_taken j T mem l1 k k1 pa : copied j T (mem :: l1) k -> pa ∈ frames (ram k0) Tp (pages_from 0 n) ->
  page_ok mem -> mem ∉ l1 -> only_mm k k1 -> free_pages k1 l1 -> ram k1 = wr (ram k) mem (fill 5) ->
  let k2 := with_ram (wr (ram k1) mem (rdn (ram k1) pa PGSIZE)) k1 in
  only_mm k k2 /\ vm_ok k2 T rc l1 /\ ~ is_table T mem /\ extend (ram k) T (mem :: l1) (ram k2) T l1 /\
  (forall va, leaf (ram k2) T va = leaf (ram k) T va) /\
  (forall i, 0 <= i < PGSIZE -> rd (ram k2) (mem + i) = rd (ram k0) (pa + i)).
Proof.
  intros HC Hpa Hmem Hml Hm1 Hf1 Hr1 k2. destruct (copied_parent j T _ k HC) as (_ & _ & Hsp).
  destruct (ow_page _ _ _ _ (cp_owned Hpre) _ Hpa) as (F1 & F2 & F3).
  assert (Hne : pa <> mem). { intros ->. apply F2. apply (cf_free _ _ _ _ _ _ (cy_conf _ _ _ _ HC)). left. }
  assert (Hlr : Z.of_nat (length (rdn (ram k1) pa PGSIZE)) = PGSIZE) by (by rewrite length_rdn).
  assert (Hs2 : forall q, q mod PGSIZE = 0 -> q <> mem -> same_page (ram k1) (ram k2) q).
  { intros q Hq Hqm. apply same_page_wr. rewrite Hlr. destruct Hmem as [Ha _]. destruct (page_disjoint mem q); auto. }
  assert (Hs1 : forall q, q mod PGSIZE = 0 -> q <> mem -> same_page (ram k) (ram k1) q).
  { intros q Hq Hqm. rewrite Hr1. apply same_page_fill; [apply Hmem|done..]. }
  destruct (vm_take k k2 T rc l1 mem (cy_vm _ _ _ _ HC)) as (V1 & V2 & V3 & V4).
  { eapply free_pages_ext; [exact Hf1|done|]. intros q Hq. destruct (chain_page_ok _ _ _ q (proj1 Hf1) Hq) as [Hqa _].
    apply Hs2; [exact Hqa|]. intros ->. exact (Hml Hq). }
  { intros q Hq Hqm. eapply same_page_trans; [exact (Hs1 q Hq Hqm)|exact (Hs2 q Hq Hqm)]. }
  split; [etransitivity; [exact Hm1|apply only_mm_ram]|]. split; [exact V1|]. split; [exact V2|]. split; [exact V3|]. split; [exact V4|].
  intros i Hi. change (ram k2) with (wr (ram k1) mem (rdn (ram k1) pa PGSIZE)). rewrite rd_wr_rdn by exact Hi.
  rewrite (Hs1 pa (proj1 F1) Hne) by lia. apply (Hsp pa Hpa). lia.
Qed.

Lemma uvmcopy_loop_rule fuel j T l k (Q : option Z -> kernel -> Prop) :
  (j <= n)%nat -> (n - j < fuel)%nat -> copied j T l k -> (length l0 <= length l + 3 * j)%nat ->
  (forall T' l' k', copied n T' l' k' -> Q None k') ->
  (forall j' T' l' k', (j' < n)%nat -> copied j' T' l' k' -> (length l0 <= 3 * n)%nat -> Q (Some (0 + Z.of_nat j' * PGSIZE)) k') ->
  wp tn (uvmcopy_loop fuel rp rc (0 + Z.of_nat j * PGSIZE) sz) Q k.
Proof.
  revert j T l k. induction fuel as [|fuel IH]; intros j T l k Hj Hfu HC Hc H0 H1; [lia|]. cbn [uvmcopy_loop].
  rewrite before_end. case_bool_decide as Hlt; [|replace j with n in HC by lia; by eapply wp_ret, H0].
  destruct (next_page j Hlt) as (N1 & N2 & N3 & N4 & _). assert (TRAPFRAME < MAXVA) by done. pose proof MAXVA_val.
  rewrite u64_id by (unfold PGSIZE in *; lia). replace (0 + Z.of_nat j * PGSIZE + PGSIZE) with (0 + Z.of_nat (S j) * PGSIZE) by lia.
  pose proof (cy_mm _ _ _ _ HC) as Hm. destruct (copied_parent j T l k HC) as (_ & _ & Hsp).
  apply (parent_leaf_rule j T l k); [done..|intros Ev; by apply (IH (S j) T l); [lia|lia|apply copied_skip|lia|..]|]. intros Ev.
  set (v := leaf (ram k0) Tp (0 + Z.of_nat j * PGSIZE)) in *.
  assert (Hfr : frame (ram k0) Tp (0 + Z.of_nat j * PGSIZE) ∈ frames (ram k0) Tp (pages_from 0 n)) by (apply elem_of_frames; eauto).
  destruct (ow_page _ _ _ _ (cp_owned Hpre) _ Hfr) as (F1 & F2 & F3). pose proof (page_ok_ram _ F1) as [F4 F5].
  change (PTE2PA v) with (frame (ram k0) Tp (0 + Z.of_nat j * PGSIZE)).
  set (pa := frame (ram k0) Tp (0 + Z.of_nat j * PGSIZE)) in *.
  apply wp_bind, (kalloc_rule l); [eauto with kern|eauto with kern|apply HC| |].
  { intros -> k' Hm' Hmm'. apply wp_ret. eapply H1; [done|by eapply copied_mm|cbn in Hc; lia]. }
  intros mem l1 -> Hmem Hml k1 Hm1 Hf1 Hr1. pose proof (page_ok_pos _ Hmem). pose proof (page_ok_ram _ Hmem) as [M4 M5].
  rewrite (proj2 (Z.eqb_neq mem 0)) by lia. apply wp_bind, wp_memmove; [done..|].
  destruct (copy_taken j T mem l1 k k1 pa HC Hfr Hmem Hml Hm1 Hf1 Hr1) as (T1 & T2 & T3 & T4 & T5 & T6).
  set (k2 := with_ram _ k1) in *. clearbody k2.
  apply wp_bind, (mappages_page_rule T rc l1); [eauto with kern|eauto with kern|done|lia|done|done|apply PTE_FLAGS_range| |].
  { rewrite T5, (cy_rest _ _ _ _ HC); [exact (cp_empty Hpre _ N3)|lia|exact N2|intros Hin; destruct (N4 Hin)]. }
  intros r k4 (x & T4' & l4 & Q1 & Q2 & Q3 & Q4 & Q5 & Q6). destruct Q6 as [[-> ->]|(-> & Q6 & ->)]; cbn [negb Z.eqb]; cbn [length] in Hc; pose proof (proj2 Q4) as Q7; change (Z.to_nat (2 * 1)) with 2%nat in Q4, Q7.
  - apply (IH (S j) T4' l4); [lia|lia| |lia|done|done].
    exact (copied_next j T mem l1 k k2 Hlt HC Ev Hmem Hml T1 T3 T4 T5 T6 1 T4' l4 k4 Q1 Q2 Q3 Q4 Q5 eq_refl).
  - destruct (one_mem T mem l1 k2 Hmem Hml T3 T4' [] k4 Q3) as (G1 & G2 & _).
    apply wp_bind, (kfree_vm_rule T4' rc []); [eauto with kern|eauto with kern|done..|].
    intros k5 Hm5 Hvm5 Hl5 Hs5. apply wp_ret. apply (H1 j T4' [mem]); [done| |cbn in Q7; lia].
    apply (copied_undo j T mem l1 k k2 Hlt HC T1 T4 T5 x T4' [] k4 Q1 Q3 Q4 Q5 k5); [lia|done|assumption..].
Qed.

(** What [uvmcopy] leaves: every page is accounted for, the parent is as it
    was, and the child has a copy or, when memory ran out, nothing. *)
Record forked (r : Z) (T : gmap (list Z) Z) (l : list Z) (k : kernel) : Prop := {
  fk_mm : only_mm k0 k;
  fk_parent : vm_ok k Tp rp l;
  fk_leaf va : leaf (ram k) Tp va = leaf (ram k0) Tp va;
  fk_frame q : q ∈ frames (ram k0) Tp (pages_from 0 n) -> same_page (ram k0) (ram k) q;
  fk_same q : q mod PGSIZE = 0 -> q ∉ l0 -> ~ is_table Tc q -> same_page (ram k0) (ram k) q;
  fk_child : vm_ok k T rc l;
  fk_other va : 0 <= va < MAXVA -> va mod PGSIZE = 0 -> va ∉ pages_from 0 n -> leaf (ram k) T va = leaf (ram k0) Tc va;
  fk_owned : owned (ram k) T l (pages_from 0 n);
  fk_pages q : q ∈ l0 \/ is_table Tc q <-> q ∈ l \/ is_table T q \/ q ∈ frames (ram k) T (pages_from 0 n);
  fk_result :
    r = 0 /\ (forall va, va ∈ pages_from 0 n -> valid (ram k) T va = valid (ram k0) Tp va /\
      (valid (ram k0) Tp va = true -> PTE_FLAGS (leaf (ram k) T va) = PTE_FLAGS (leaf (ram k0) Tp va) /\
         forall a, va <= a < va + PGSIZE -> ubyte (ram k) T a = ubyte (ram k0) Tp a)) \/
    r = -1 /\ forall va, va ∈ pages_from 0 n -> valid (ram k) T va = false;
  fk_short : r = -1 -> (length l0 <= 3 * n)%nat }.

Lemma page_range j va : (j <= n)%nat -> va ∈ pages_from 0 j -> 0 <= va < MAXVA /\ va mod PGSIZE = 0 /\ va ∈ pages_from 0 n.
Proof.
  intros Hj [V1 V2]%elem_of_pages_from; [|done]. pose proof (cp_bound Hpre). assert (TRAPFRAME < MAXVA) by done.
  split; [unfold PGSIZE in *; lia|]. split; [done|]. apply elem_of_pages_from; [done|]. split; [done|]. unfold PGSIZE in *. lia.
Qed.

(** The child maps what the parent maps. *)
Lemma copied_valid j T l k va : (j <= n)%nat -> copied j T l k -> va ∈ pages_from 0 n ->
  valid (ram k) T va = bool_decide (va ∈ pages_from 0 j) && valid (ram k0) Tp va.
Proof.
  intros Hj HC Hva. destruct (page_range n va ltac:(lia) Hva) as (V1 & V2 & _).
  destruct (bool_decide (va ∈ pages_from 0 j) && valid (ram k0) Tp va) eqn:E.
  - apply andb_true_iff in E as [E1%bool_decide_eq_true E2]. destruct (cy_map _ _ _ _ HC va E1 E2) as [M1 _].
    by rewrite (valid_flags _ _ _ _ _ _ M1).
  - unfold valid. rewrite (cy_rest _ _ _ _ HC va V1 V2); [by apply (cp_empty Hpre)|].
    intros Hin. by rewrite bool_decide_true in E by done.
Qed.

Lemma copied_forked T l k : copied n T l k -> forked 0 T l k.
Proof.
  intros HC. destruct (copied_parent n T l k HC) as (P1 & P2 & P3). split; [apply HC|done|done|done|apply (cy_conf _ _ _ _ HC)|apply HC| |apply HC| | |done].
  - intros va V1 V2 V3. apply HC; [done..|]. by intros ?.
  - intros q. split.
    + intros [Hq|[p Hp]]; [exact (cy_used _ _ _ _ HC q Hq)|]. right. left. exists p. eapply lookup_weaken; [done|]. apply (cy_conf _ _ _ _ HC).
    + intros [Hq|[Hq|Hq]]; [left; by apply (cy_conf _ _ _ _ HC)|apply (cy_conf _ _ _ _ HC) in Hq; tauto|left; exact (cy_from _ _ _ _ HC q Hq)].
  - left. split; [done|]. intros va Hva. split; [|by apply HC]. rewrite (copied_valid n T l k) by (done || lia).
    by rewrite bool_decide_true.
Qed.

(** Undoing a copy that failed after [j] pages. *)
Lemma copied_undone j T l k k' : (j < n)%nat -> copied j T l k -> (length l0 <= 3 * n)%nat -> unmapped k T rc l (pages_from 0 j) true k' ->
  forked (-1) T (reverse (frames (ram k) T (pages_from 0 j)) ++ l) k'.
Proof.
  intros Hj HC Hshort [U1 U2 U3 U4]. destruct (copied_parent j T l k HC) as ([_ P1 P1'] & P2 & P3).
  pose proof (cy_conf _ _ _ _ HC) as [A1 A2 A3 A4]. pose proof (cy_from _ _ _ _ HC) as Hfr.
  assert (Hinv : forall va, va ∈ pages_from 0 n -> valid (ram k') T va = false).
  { intros va Hva. destruct (page_range n va ltac:(lia) Hva) as (V1 & V2 & _). unfold valid. rewrite U3 by done.
    pose proof (copied_valid j T l k va ltac:(lia) HC Hva) as E. destruct (bool_decide (va ∈ pages_from 0 j)); cbn [andb] in *.
    - destruct (valid (ram k) T va) eqn:Ev; [done|]. exact Ev.
    - exact E. }
  assert (Hno : frames (ram k') T (pages_from 0 n) = []).
  { apply elem_of_nil_inv. intros q (va & V1 & V2 & _)%elem_of_frames. by rewrite Hinv in V2. }
  destruct Hpre as [[F1 F2 F3] _ B3 B4 _ [B5 _] B6 _].
  assert (Ht : forall c, is_table Tp c -> same_page (ram k) (ram k') c).
  { intros c Hc. apply U4; [by eapply table_page|by intros [?%(B3 c Hc)|?%(F3 c Hc)]%A1|]. intros _ Hin. by apply (F3 c Hc), Hfr. }
  destruct (pt_ok_ext (ram k) (ram k') Tp rp P1 Ht) as [E1 E2].
  split; [etransitivity; [apply HC|done]| | | | |done| | | | |done].
  - split; [apply U2|done|]. intros c Hc [Hin%elem_of_reverse%Hfr|Hin]%elem_of_app; [by apply (F3 c Hc)|by apply (P1' c Hc)].
  - intros va. by rewrite E2.
  - intros q Hq. destruct (B5 q Hq) as ([Q1 _] & Q2 & Q3). eapply same_page_trans; [by apply P3|].
    apply U4; [done|by intros [?%(B6 q Hq)|?]%A1|]. by intros _ ?%Hfr.
  - intros q Q1 Q2 Q3. eapply same_page_trans; [by apply A3|]. apply U4; [done|by intros [?|?]%A1|]. by intros _ ?%Hfr.
  - intros va V1 V2 V3. rewrite U3 by done. rewrite bool_decide_false; [|by intros (_ & _ & ?)%page_range; [|lia]].
    apply HC; [done..|]. by intros (_ & _ & ?)%page_range; [|lia].
  - split; rewrite Hno; [by intros q ?%elem_of_nil|constructor].
  - intros q. rewrite Hno, elem_of_nil, elem_of_app, elem_of_reverse. split.
    + intros [Hq|[p Hp]]; [destruct (cy_used _ _ _ _ HC q Hq); tauto|]. right. left. exists p. by eapply lookup_weaken.
    + intros [[Hq|Hq]|[Hq|[]]]; [left; by apply Hfr|left; by apply A2|apply A1 in Hq; tauto].
  - by right.
Qed.

Lemma uvmcopy_rule (Q : Z -> kernel -> Prop) :
  (forall r T l k, forked r T l k -> Q r k) -> wp tn (uvmcopy rp rc sz) Q k0.
Proof.
  intros HQ. unfold uvmcopy. apply wp_bind. change 0 with (0 + Z.of_nat 0 * PGSIZE) at 1.
  assert (Hfu : (n - 0 < S (S (Z.to_nat (sz / PGSIZE))))%nat).
  { rewrite Hn. unfold upages. assert ((sz + PGSIZE - 1) / PGSIZE <= sz / PGSIZE + 1) by pages.
    assert (0 <= sz / PGSIZE) by (apply Z.div_pos; done). lia. }
  apply (uvmcopy_loop_rule _ 0 Tc l0); [lia|done|apply copied_start|lia| |].
  - intros T l k HC. apply wp_ret. eapply HQ. by apply copied_forked.
  - intros j T l k Hj HC Hc. pose proof (cy_mm _ _ _ _ HC) as Hm. pose proof (cp_bound Hpre) as Hb. assert (TRAPFRAME < MAXVA) by done.
    replace ((0 + Z.of_nat j * PGSIZE) / PGSIZE) with (Z.of_nat j) by (rewrite Z.add_0_l, Z.div_mul; done).
    apply wp_bind, (uvmunmap_rule j T rc l); [eauto with kern|eauto with kern|apply HC|done|done|unfold PGSIZE in *; lia| |intros _; apply HC|].
    + intros va Hva Hv. destruct (page_range j va ltac:(lia) Hva) as (V1 & V2 & V3).
      rewrite (copied_valid j T l k va ltac:(lia) HC V3), bool_decide_true in Hv by done.
      destruct (cy_map _ _ _ _ HC va Hva Hv) as [-> _]. by apply (cp_leaves Hpre).
    + intros k' HU. apply wp_ret. eapply HQ. by eapply copied_undone.
Qed.

End loop.

End copy.

(** C15: [uvmcopy] either gives the child, for every page of the parent, a
    fresh page with the same permissions and the same bytes, or returns -1 with
    no user page mapped in the child, which happens only when there are not
    more than three free pages per page of the parent; in both cases the parent's memory is as
    it was and every page that was free is free, a table of the child or a page
    of the child. *)
Theorem uvmcopy_copies k Tp Tc rp rc l sz :
  sync_ok (k_sy k) -> lock_free (k_sy k) L_kmem -> 0 <= sz -> copy_pre k Tp Tc rp rc l (upages sz) ->
  exists r T l' k', (forall e, uvmcopy rp rc sz e k = Ret r e k') /\ forked k Tp Tc rp rc l (upages sz) r T l' k'.
Proof.
  intros Hok Hlf Hsz Hpre.
  destruct (wp_exact (uvmcopy rp rc sz) (fun r k' => exists T l', forked k Tp Tc rp rc l (upages sz) r T l' k') k)
    as (r & k' & H1 & T & l' & H2); [|by exists r, T, l', k'].
  apply (uvmcopy_rule k Tp Tc rp rc l (upages sz) Hpre sz Hok Hlf Hsz eq_refl). eauto.
Qed.
End space.

(** ** Example: a process with one page *)

#[local] Existing Instance sample_linker.
#[local] Existing Instance sample_linker_ok.

Lemma sample_valid va : 0 <= va < MAXVA -> va mod PGSIZE = 0 -> valid (ram sample_vm) sample_T va = bool_decide (va = 0).
Proof.
  intros V1 V2. unfold valid. rewrite (proj2 sample_vm_ok) by done. case_decide as E; [|by rewrite bool_decide_false].
  by rewrite bool_decide_true.
Qed.

Lemma sample_frame0 : leaf (ram sample_vm) sample_T 0 = Z.lor (Z.lor (PA2PTE pg_frame) PTE_USER) PTE_V.
Proof. by rewrite (proj2 sample_vm_ok) by done. Qed.

Lemma sample_frames : frames (ram sample_vm) sample_T (pages_from 0 1) = [pg_frame].
Proof.
  cbn [frames pages_from]. rewrite sample_valid by done. rewrite bool_decide_true by done.
  unfold frame. by rewrite sample_frame0.
Qed.

Lemma sample_not_table q : q ∈ [pg_frame; 0x87fff000; 0x87ffe000; 0x87ffd000; 0x87ff4000] -> ~ is_table sample_T q.
Proof.
  intros Hq [p Hp]. rewrite !elem_of_cons, elem_of_nil in Hq.
  apply sample_T_cases in Hp as [[_ ->]|[[_ ->]|[_ ->]]]; by destruct Hq as [E|[E|[E|[E|[E|[]]]]]].
Qed.

Lemma sample_owned : owned (ram sample_vm) sample_T [0x87fff000] (pages_from 0 1).
Proof.
  split; rewrite sample_frames; [|apply NoDup_singleton]. intros q ->%list_elem_of_singleton.
  split; [apply sample_pages|]. split; [by intros ?%list_elem_of_singleton|]. apply sample_not_table. left.
Qed.

Lemma proc_freepagetable_frees_witness :
  exists k', proc_freepagetable pg_root 4096 [] sample_vm = Ret tt [] k' /\
    released sample_vm sample_T [0x87fff000] (pages_from 0 1) k'.
Proof.
  destruct (proc_freepagetable_frees sample_T pg_root [0x87fff000] 4096 sample_vm) as (k' & H1 & H2).
  - apply sample_sync_ok.
  - apply sample_free. left.
  - split.
    + apply sample_vm_ok.
    + done.
    + intros va Hva Hv. assert (va = 0) as ->.
      { assert (0 <= va < MAXVA /\ va mod PGSIZE = 0) as [V1 V2].
        { change (pages_from 0 (upages 4096)) with [0] in Hva. rewrite !elem_of_cons, elem_of_nil in Hva. by destruct Hva as [->|[->|[->|[]]]]. }
        rewrite sample_valid in Hv by done. by apply bool_decide_eq_true in Hv. }
      by rewrite sample_frame0.
    + apply sample_owned.
    + intros va V1 V2 Hv. rewrite sample_valid in Hv by done. apply bool_decide_eq_true in Hv as ->. right. right. left.
  - exists k'. exact (conj (H1 []) H2).
Defined.

(** The same process, an empty page table for its child and three free
    pages. *)
Definition child_root : Z := 0x87ff4000.
Definition fork_m : gmap Z Z := wr64 (wr64 sample_m (0x87fff000 + 8 * 0) 0x87ffe000) (0x87ffe000 + 8 * 0) 0x87ffd000.
Definition fork_k : kernel := set_mm (mk_memory fork_m 0x87fff000 0) sample.
Definition fork_l : list Z := [0x87fff000; 0x87ffe000; 0x87ffd000].
Definition child_T : gmap (list Z) Z := {[ [] := child_root ]}.

Lemma fork_same q : q mod PGSIZE = 0 -> q ∉ fork_l -> same_page sample_m fork_m q.
Proof.
  intros Hq Hl. unfold fork_l in Hl. rewrite !not_elem_of_cons in Hl. destruct Hl as (L1 & L2 & _).
  eapply same_page_trans; by apply same_page_word.
Qed.

Lemma fork_leaf va : leaf (ram fork_k) sample_T va = leaf (ram sample_vm) sample_T va.
Proof.
  apply (pt_ok_ext (ram sample_vm) (ram fork_k) sample_T pg_root (vo_pt _ _ _ _ (proj1 sample_vm_ok))).
  intros c Hc. apply fork_same; [by eapply table_page; [apply sample_vm_ok|]|]. intros Hin. eapply sample_not_table; [|exact Hc].
  unfold fork_l in Hin. rewrite !elem_of_cons, elem_of_nil in *. tauto.
Qed.

Lemma fork_free : free_pages fork_k fork_l.
Proof. split; [by vm_compute|]. apply (bool_decide_unpack _). by vm_compute. Qed.

Lemma fork_parent : vm_ok fork_k sample_T pg_root fork_l.
Proof.
  split; [apply fork_free| |].
  - apply (pt_ok_ext (ram sample_vm) (ram fork_k) sample_T pg_root (vo_pt _ _ _ _ (proj1 sample_vm_ok))).
    intros c Hc. apply fork_same; [by eapply table_page; [apply sample_vm_ok|]|]. intros Hin. eapply sample_not_table; [|exact Hc].
    unfold fork_l in Hin. rewrite !elem_of_cons, elem_of_nil in *. tauto.
  - intros c Hc Hin. eapply sample_not_table; [|exact Hc]. unfold fork_l in Hin. rewrite !elem_of_cons, elem_of_nil in *. tauto.
Qed.

Lemma child_zero i : 0 <= i < 512 -> rd64 fork_m (child_root + 8 * i) = 0.
Proof.
  intros Hi. unfold fork_m, sample_m, sample_m2, sample_m1. rewrite !sample_entry by done.
  rewrite !decide_False by done. apply rd64_empty.
Qed.

Lemma child_table c : is_table child_T c -> c = child_root.
Proof. unfold child_T. intros [p Hp]. by apply lookup_singleton_Some in Hp as [_ <-]. Qed.

Lemma fork_child : vm_ok fork_k child_T child_root fork_l.
Proof.
  split; [apply fork_free| |].
  - unfold child_T. split.
    + apply lookup_singleton_eq.
    + intros p c [<- <-]%lookup_singleton_Some. split; [simpl; lia|constructor].
    + by intros x p c [E _]%lookup_singleton_Some.
    + intros p c [<- <-]%lookup_singleton_Some. by vm_compute.
    + intros p q c [<- _]%lookup_singleton_Some [<- _]%lookup_singleton_Some. done.
    + intros p i c [H _]%lookup_singleton_Some. by destruct p.
    + intros p c i [<- <-]%lookup_singleton_Some _ Hi. rewrite lookup_singleton_ne by done.
      change (ram fork_k) with fork_m. by rewrite child_zero.
  - intros c ->%child_table. apply (bool_decide_unpack _). by vm_compute.
Qed.

Lemma child_invalid va : valid (ram fork_k) child_T va = false.
Proof. unfold valid, leaf, pte_addr, child_T. by rewrite lookup_singleton_ne by done. Qed.

Lemma uvmcopy_copies_witness :
  exists r T l' k', uvmcopy pg_root child_root 4096 [] fork_k = Ret r [] k' /\
    forked fork_k sample_T child_T pg_root child_root fork_l 1 r T l' k'.
Proof.
  assert (Hf : frames (ram fork_k) sample_T (pages_from 0 1) = [pg_frame]).
  { rewrite <- sample_frames. apply frames_ext. intros va _. apply fork_leaf. }
  assert (Hv : forall va, va ∈ pages_from 0 1 -> va = 0) by (by intros va ?%list_elem_of_singleton).
  destruct (uvmcopy_copies fork_k sample_T child_T pg_root child_root fork_l 4096) as (r & T & l' & k' & H1 & H2).
  - apply sample_sync_ok.
  - apply sample_free. left.
  - done.
  - split.
    + apply fork_parent.
    + apply fork_child.
    + intros c Hc ->%child_table. eapply sample_not_table; [|exact Hc]. by do 4 right; left.
    + done.
    + intros va ->%Hv _. by rewrite fork_leaf, sample_frame0.
    + change (upages 4096) with 1%nat. split; rewrite Hf; [|apply NoDup_singleton]. intros q ->%list_elem_of_singleton.
      split; [apply sample_pages|]. split; [apply (bool_decide_unpack _); by vm_compute|]. apply sample_not_table. left.
    + change (upages 4096) with 1%nat. rewrite Hf. by intros q ->%list_elem_of_singleton ?%child_table.
    + intros va _. apply child_invalid.
  - exists r, T, l', k'. exact (conj (H1 []) H2).
Defined.
