(* ===== verification/ForkSpec.v ===== *)
(** * Creating processes

    [proc_pagetable], [allocproc], [freeproc] and [fork]: the child gets a
    copy of its parent's memory, registers, files and directory; when the
    process table or memory is full, everything that was allocated is given
    back. *)

From S2P Require Import Prelude Defs State Logic Memory Spinlock Sched Kalloc Vm PageTable UserMem Bio Log Fs Pipe File Proc AddrSpace.

Section fork.
Context {D : DiskDriver} {L : Linker} {LO : LinkerOk L}.

(** ** A new page table *)

(** Pages of the free list [l], at most [n], became the tables [T] of a page
    table with the entries [lf]; [l'] is left. *)
Record made (n : nat) (k : kernel) (l : list Z) (root : Z) (T : gmap (list Z) Z) (l' : list Z) (lf : Z -> Z) (k' : kernel) : Prop := {
  md_mm : only_mm k k';
  md_vm : vm_ok k' T root l';
  md_pages q : q ∈ l <-> q ∈ l' \/ is_table T q;
  md_same q : q mod PGSIZE = 0 -> q ∉ l -> same_page (ram k) (ram k') q;
  md_leaf va : 0 <= va < MAXVA -> va mod PGSIZE = 0 -> leaf (ram k') T va = lf va;
  md_count : (length l <= length l' + n)%nat }.

(** All pages are free again. *)
Record given_back (k : kernel) (l : list Z) (k' : kernel) : Prop := {
  gb_mm : only_mm k k';
  gb_free : exists l', free_pages k' l' /\ forall q, q ∈ l' <-> q ∈ l;
  gb_same q : q mod PGSIZE = 0 -> q ∉ l -> same_page (ram k) (ram k') q }.

Lemma root_table m root : page_ok root -> (forall i, 0 <= i < 512 -> rd64 m (root + 8 * i) = 0) -> pt_ok m {[ [] := root ]} root.
Proof.
  intros Hr Hz. split.
  - apply lookup_singleton_eq.
  - intros p c [<- <-]%lookup_singleton_Some. split; [simpl; lia|constructor].
  - by intros x p c [E _]%lookup_singleton_Some.
  - by intros p c [<- <-]%lookup_singleton_Some.
  - intros p q c [<- _]%lookup_singleton_Some [<- _]%lookup_singleton_Some. done.
  - intros p i c [H _]%lookup_singleton_Some. by destruct p.
  - intros p c i [<- <-]%lookup_singleton_Some _ Hi. rewrite lookup_singleton_ne by done. by rewrite Hz.
Qed.

Section rules.
Context {tn : turn}.

Lemma uvmcreate_rule l (Q : Z -> kernel -> Prop) k :
  sync_ok (k_sy k) -> lock_free (k_sy k) L_kmem -> free_pages k l ->
  (forall k', given_back k l k' -> l = [] -> Q 0 k') ->
  (forall root T l' k', page_ok root -> made 1 k l root T l' (fun _ => 0) k' -> Q root k') ->
  wp tn uvmcreate Q k.
Proof.
  intros Hok Hlf Hf H0 H1. unfold uvmcreate. apply wp_bind, (kalloc_rule l); [done..| |].
  { intros -> k' Hm Hmm. apply wp_ret, H0; [|done]. split; [done|exists []; split; [unfold free_pages, ram; by rewrite Hmm|done]|].
    intros q _ _ a _. unfold ram. by rewrite Hmm. }
  intros root l' -> Hr Hrl k1 Hm1 Hf1 Hr1. pose proof (page_ok_pos _ Hr). pose proof (page_ok_ram _ Hr).
  rewrite (proj2 (Z.eqb_neq root 0)) by lia. apply wp_bind, wp_memset_page; [lia..|]. apply wp_ret.
  set (k2 := with_ram _ k1).
  assert (Hs1 : forall q, q mod PGSIZE = 0 -> q <> root -> same_page (ram k) (ram k1) q).
  { intros q Hq Hne. rewrite Hr1. apply same_page_fill; [apply Hr|done..]. }
  assert (Hs2 : forall q, q mod PGSIZE = 0 -> q <> root -> same_page (ram k1) (ram k2) q).
  { intros q Hq Hne. apply same_page_fill; [apply Hr|done..]. }
  apply (H1 root {[ [] := root ]} l' k2 Hr). split.
  - etransitivity; [exact Hm1|apply only_mm_ram].
  - split.
    + eapply free_pages_ext; [exact Hf1|done|]. intros q Hq. destruct (chain_page_ok _ _ _ q (proj1 Hf1) Hq) as [Hqa _].
      apply Hs2; [exact Hqa|]. intros ->. exact (Hrl Hq).
    + apply root_table; [exact Hr|]. intros i Hi. by apply rd64_zero_page.
    + intros c [p Hp]. apply lookup_singleton_Some in Hp as [_ <-]. exact Hrl.
  - intros q. rewrite elem_of_cons. split.
    + intros [->|Hq]; [right; exists []; apply lookup_singleton_eq|by left].
    + intros [Hq|[p Hp]]; [by right|]. apply lookup_singleton_Some in Hp as [_ <-]. by left.
  - intros q Hq Hn. rewrite not_elem_of_cons in Hn. destruct Hn as [Hn _].
    eapply same_page_trans; [exact (Hs1 q Hq Hn)|exact (Hs2 q Hq Hn)].
  - intros va _ _. unfold leaf, pte_addr. by rewrite lookup_singleton_ne by done.
  - cbn. lia.
Qed.

(** Mapping a page in it. *)
Lemma made_mapped n k l root T l1 lf k1 va pa perm r k2 :
  made n k l root T l1 lf k1 -> 0 <= va < MAXVA -> va mod PGSIZE = 0 -> mapped_to va 1 pa perm T root l1 k1 r k2 ->
  exists T2 l2,
    (r = 0 /\ made (n + 2) k l root T2 l2 (fun a => if decide (a = va) then Z.lor (Z.lor (PA2PTE pa) perm) PTE_V else lf a) k2 \/
     r = -1 /\ made (n + 2) k l root T2 l2 lf k2 /\ (length l <= n + 2)%nat).
Proof.
  intros [M1 M2 M3 M4 M5 M6] Hva Hal (j & T2 & l2 & X1 & X2 & X3 & X4 & X5 & X6). exists T2, l2.
  assert (Hp : forall q, q ∈ l <-> q ∈ l2 \/ is_table T2 q).
  { intros q. rewrite M3. split.
    - intros [Hq|[p Hp]]; [destruct (decide (q ∈ l2)); [by left|right; by apply X4]|].
      right. exists p. eapply lookup_weaken; [done|apply X3].
    - intros [Hq|Hq]; [left; by eapply extend_free|]. apply (extend_table _ _ _ _ _ _ _ X3) in Hq. tauto. }
  assert (Hs : forall q, q mod PGSIZE = 0 -> q ∉ l -> same_page (ram k) (ram k2) q).
  { intros q Hq Hn. eapply same_page_trans; [by apply M4|]. apply (cf_same _ _ _ _ _ _ (extend_confined _ _ _ _ _ _ X3)); [done|..].
    - intros Hin. apply Hn, M3. by left.
    - intros Hin. apply Hn, M3. by right. }
  pose proof (proj2 X4) as X7. change (Z.to_nat (2 * 1)) with 2%nat in X7.
  destruct X6 as [[-> ->]|(-> & X6 & ->)]; [left|right; split_and!].
  - split; [done|]. split; [by etransitivity|done..| |lia]. intros a Ha Haal. rewrite X5, map_range_1 by done. case_decide; [done|by apply M5].
  - done.
  - split; [by etransitivity|done..| |lia]. intros a Ha Haal. rewrite X5 by done. replace j with 0 by lia. rewrite map_range_0. by apply M5.
  - cbn in X7. lia.
Qed.

(** Giving up a page table without user pages. *)
Lemma made_free_rule n k l root T l1 lf k1 (Q : unit -> kernel -> Prop) :
  sync_ok (k_sy k) -> lock_free (k_sy k) L_kmem -> made n k l root T l1 lf k1 ->
  (forall va, 0 <= va < MAXVA -> va mod PGSIZE = 0 -> lf va = 0) ->
  (forall k', given_back k l k' -> Q tt k') -> wp tn (uvmfree root 0) Q k1.
Proof.
  intros Hok Hlf [M1 M2 M3 M4 M5 _] Hz HQ.
  assert (Hv : forall va, 0 <= va < MAXVA -> va mod PGSIZE = 0 -> valid (ram k1) T va = false).
  { intros va V1 V2. unfold valid. by rewrite M5, Hz. }
  apply (uvmfree_rule T root l1); [eauto with kern|eauto with kern|done|done|by intros va ?%elem_of_nil| | |].
  - split; [by intros q ?%elem_of_nil|constructor].
  - intros va V1 V2 V3. by rewrite Hv in V3.
  - intros k' [R1 (l' & R2 & R3) R4]. apply HQ. split; [by etransitivity|..].
    + exists l'. split; [done|]. intros q. rewrite R3, M3. cbn [upages pages_from frames]. rewrite elem_of_nil. tauto.
    + intros q Hq Hn. eapply same_page_trans; [by apply M4|]. apply R4; [done| |by intros ?%elem_of_nil].
      intros Ht. apply Hn, M3. by right.
Qed.

(** The entries of a process without user memory. *)
Definition space_map (tf va : Z) : Z :=
  if decide (va = TRAPFRAME) then Z.lor (Z.lor (PA2PTE tf) (Z.lor PTE_R PTE_W)) PTE_V
  else if decide (va = TRAMPOLINE) then Z.lor (Z.lor (PA2PTE sym_trampoline) (Z.lor PTE_R PTE_X)) PTE_V
  else 0.

Lemma made_proc n k l root T l1 lf k1 np : made n k l root T l1 lf k1 -> proc_at k1 np = proc_at k np.
Proof. intros [M _ _ _ _ _]. unfold proc_at. by rewrite (om_procs _ _ M). Qed.

Lemma made_valid n k l root T l1 lf k1 va : made n k l root T l1 lf k1 -> 0 <= va < MAXVA -> va mod PGSIZE = 0 ->
  pte_flag (leaf (ram k1) T va) PTE_V = pte_flag (lf va) PTE_V.
Proof. intros H V1 V2. by rewrite (md_leaf _ _ _ _ _ _ _ _ H). Qed.

(** Unmapping the trampoline again. *)
Lemma made_unmap_rule n k l root T l1 lf k1 v (Q : unit -> kernel -> Prop) :
  sync_ok (k_sy k) -> lock_free (k_sy k) L_kmem -> made n k l root T l1 lf k1 ->
  0 <= v < MAXVA - PGSIZE + 1 -> v mod PGSIZE = 0 -> PTE_FLAGS (lf v) <> PTE_V -> pte_flag (lf v) PTE_V = true ->
  (forall k', made n k l root T l1 (fun a => if decide (a = v) then 0 else lf a) k' -> Q tt k') ->
  wp tn (uvmunmap root v 1 false) Q k1.
Proof.
  intros Hok Hlf HM Hv Hal Hfl Hvf HQ. pose proof HM as [M1 M2 M3 M4 M5 M6]. assert (0 <= v < MAXVA) by (unfold PGSIZE in *; lia).
  apply (uvmunmap_rule 1 T root l1 v false); [eauto with kern|eauto with kern|done|lia|done|unfold PGSIZE in *; lia| |done|].
  { intros x ->%list_elem_of_singleton _. by rewrite M5. }
  intros k2 HU. apply HQ. destruct HU as [U1 U2 U3 U4]. split; [by etransitivity|done|done|..|done].
  - intros q Hq Hn. eapply same_page_trans; [by apply M4|]. apply U4; [done| |done]. intros Ht. apply Hn, M3. by right.
  - intros a A1 A2. rewrite U3 by done. unfold valid. rewrite M5 by done. cbn [pages_from]. case_decide as E.
    + subst a. by rewrite bool_decide_true, Hvf by left.
    + rewrite bool_decide_false; [done|]. by intros ?%list_elem_of_singleton.
Qed.

Lemma trampoline_range : 0 <= sym_trampoline < 2 ^ 56 /\ sym_trampoline mod PGSIZE = 0.
Proof. destruct LO. unfold PHYSTOP, KERNBASE, PGSIZE in *. split; [lia|done]. Qed.

Lemma proc_pagetable_rule np l (Q : Z -> kernel -> Prop) k :
  sync_ok (k_sy k) -> lock_free (k_sy k) L_kmem -> free_pages k l -> page_ok (p_trapframe (proc_at k np)) ->
  (forall k', given_back k l k' -> (length l <= 5)%nat -> Q 0 k') ->
  (forall root T l' k', page_ok root -> made 5 k l root T l' (space_map (p_trapframe (proc_at k np))) k' -> Q root k') ->
  wp tn (proc_pagetable np) Q k.
Proof.
  intros Hok Hlf Hf Htf H0 H1. unfold proc_pagetable. destruct trampoline_range as [R1 R2].
  assert (HT : 0 <= TRAMPOLINE < MAXVA /\ TRAMPOLINE mod PGSIZE = 0 /\ TRAMPOLINE < MAXVA - PGSIZE + 1) by done. destruct HT as (T1 & T2 & T3).
  assert (HF : 0 <= TRAPFRAME < MAXVA /\ TRAPFRAME mod PGSIZE = 0 /\ TRAPFRAME <> TRAMPOLINE) by done. destruct HF as (F1 & F2 & F3).
  apply wp_bind, (uvmcreate_rule l); [done..| |]. { intros k' Hg El. apply wp_ret, H0; [done|]. rewrite El. cbn. lia. }
  intros root T l1 k1 Hr HM1. pose proof (page_ok_pos _ Hr). rewrite (proj2 (Z.eqb_neq root 0)) by lia.
  pose proof (md_mm _ _ _ _ _ _ _ _ HM1) as Hm1.
  apply wp_bind, (mappages_one_rule T root l1); [eauto with kern|eauto with kern|apply HM1|done..| |].
  { by rewrite (made_valid _ _ _ _ _ _ _ _ _ HM1). }
  intros r k2 (T2' & l2 & [[-> HM2]|(-> & HM2 & Hc)])%(made_mapped _ _ _ _ _ _ _ _ _ _ _ _ _ HM1 T1 T2); cbn [Z.ltb Z.compare].
  2:{ apply wp_bind, (made_free_rule _ k l root T2' l2 (fun _ => 0) k2 _ Hok Hlf HM2); [done|]. intros k' Hg. apply wp_ret, H0; [done|lia]. }
  apply wp_bind, wp_gets. rewrite (made_proc _ _ _ _ _ _ _ _ np HM2). set (tf := p_trapframe (proc_at k np)) in *.
  pose proof (md_mm _ _ _ _ _ _ _ _ HM2) as Hm2. pose proof (page_ok_pos _ Htf).
  apply wp_bind, (mappages_one_rule T2' root l2); [eauto with kern|eauto with kern|apply HM2|done|done|lia|apply Htf|done| |].
  { rewrite (made_valid _ _ _ _ _ _ _ _ _ HM2) by done. by rewrite decide_False. }
  intros r k3 (T3' & l3 & [[-> HM3]|(-> & HM3 & Hc)])%(made_mapped _ _ _ _ _ _ _ _ _ _ _ _ _ HM2 F1 F2); cbn [Z.ltb Z.compare].
  - apply wp_ret. by apply (H1 root T3' l3).
  - destruct (pte_entry sym_trampoline (Z.lor PTE_R PTE_X)) as (E1 & E2 & _); [done..|].
    apply wp_bind, (made_unmap_rule _ _ _ _ _ _ _ _ TRAMPOLINE _ Hok Hlf HM3); [lia|done| | |].
    + rewrite decide_True by done. rewrite E1, PTE_FLAGS_make by done. done.
    + rewrite decide_True by done. unfold pte_flag. rewrite E1, land_small_flags, PTE_FLAGS_make by done. done.
    + intros k4 HM4. apply wp_bind, (made_free_rule _ _ _ _ _ _ _ _ _ Hok Hlf HM4).
      * intros va _ _. by repeat case_decide.
      * intros k' Hg. apply wp_ret, H0; [done|lia].
Qed.

End rules.

(** ** Holding the lock of a new process

    The thread holds the lock of process [np] beyond what it held in [s0]; the
    process table is [P] and the rest of the state is [fs], [fi] and [ms]. *)
Record inside (s0 : sync) (np : nat) (P : list proc) (fs : fsys) (fi : files) (ms : misc) (k : kernel) : Prop := {
  in_sync : quiet (sy_acquire (L_proc np) (set_procs P s0)) (k_sy k);
  in_procs : procs k = P;
  in_fs : k_fs k = fs;
  in_fi : k_fi k = fi;
  in_ms : k_ms k = ms }.

Lemma quiet_acquire l s s' : sync_ok s -> quiet s s' -> quiet (sy_acquire l s) (sy_acquire l s').
Proof.
  intros [Hn _] [Q1 Q2 Q3 Q4 Q5 Q6 Q7]. split; cbn [sy_acquire put_lock set_locks sy_push sy_tp sy_sie sy_cpu sy_locks sy_procs c_proc c_noff c_intena]; try done.
  - by rewrite Q4.
  - intros _. rewrite Q4, Q2. destruct (Z.eqb_spec (c_noff (sy_cpu s)) 0) as [E|E]; [done|]. apply Q5. lia.
  - unfold get_lock. by rewrite Q6, Q1.
Qed.

Section inside.
Context (s0 : sync) (np : nat).
Hypothesis Hok : sync_ok s0.

Lemma inside_ok P fs fi ms k : inside s0 np P fs fi ms k -> sync_ok (k_sy k).
Proof. intros [H _ _ _ _]. eapply quiet_sync_ok; [exact H|]. by apply sync_ok_acquire. Qed.

Lemma inside_free P fs fi ms k l : inside s0 np P fs fi ms k -> lock_free s0 l -> l <> L_proc np -> lock_free (k_sy k) l.
Proof. intros [H _ _ _ _] Hl Hne. eapply quiet_lock_free; [exact H|]. by apply lock_free_acquire. Qed.

Lemma inside_mm P fs fi ms k k' : inside s0 np P fs fi ms k -> only_mm k k' -> inside s0 np P fs fi ms k'.
Proof. intros [I1 I2 I3 I4 I5] [M1 M2 M3 M4 M5 M6]. split; try congruence. by etransitivity. Qed.

Lemma inside_quiet P fs fi ms k s' : inside s0 np P fs fi ms k -> quiet (k_sy k) s' -> sy_procs s' = procs k ->
  inside s0 np P fs fi ms (set_sy s' k).
Proof. intros [I1 I2 I3 I4 I5] Hq Hp. split; try done; [by etransitivity|]. unfold procs in *. kproj. congruence. Qed.

Lemma inside_upd P fs fi ms k f : inside s0 np P fs fi ms k ->
  inside s0 np (alter f np P) fs fi ms (set_sy (set_procs (alter f np (procs k)) (k_sy k)) k).
Proof.
  intros [[Q1 Q2 Q3 Q4 Q5 Q6 Q7] I2 I3 I4 I5]. rewrite I2. by split.
Qed.

Lemma inside_ram P fs fi ms k m : inside s0 np P fs fi ms k -> inside s0 np P fs fi ms (with_ram m k).
Proof. by intros [I1 I2 I3 I4 I5]. Qed.

Lemma inside_proc P fs fi ms k i : inside s0 np P fs fi ms k -> proc_at k i = default zero_proc (P !! i).
Proof. intros [_ I2 _ _ _]. unfold proc_at. by rewrite I2. Qed.

Section rules.
Context {tn : turn}.

Lemma inside_release_rule P fs fi ms (Q : unit -> kernel -> Prop) k :
  inside s0 np P fs fi ms k -> lock_free s0 (L_proc np) ->
  (forall s', quiet (set_procs P s0) s' -> sy_procs s' = P -> Q tt (set_sy s' k)) ->
  wp tn (release (L_proc np)) Q k.
Proof.
  intros HI Hf HQ. apply (wp_release _ (set_procs P s0)); [done|done|apply HI|].
  intros s' Hq Hp. apply HQ; [done|]. by rewrite Hp, <- (in_procs _ _ _ _ _ _ _ HI).
Qed.

(** Three operations that change one field under a lock. *)

Lemma allocpid_rule P fs fi ms (Q : Z -> kernel -> Prop) k :
  inside s0 np P fs fi ms k -> lock_free s0 L_pid ->
  (forall k', inside s0 np P fs fi (set_nextpid (s32 (ms_nextpid ms + 1)) ms) k' -> k_mm k' = k_mm k -> Q (ms_nextpid ms) k') ->
  wp tn allocpid Q k.
Proof.
  intros HI Hl HQ. pose proof (inside_ok _ _ _ _ _ HI). pose proof (inside_free _ _ _ _ _ _ HI Hl ltac:(done)).
  unfold allocpid. apply wp_bind, wp_acquire; [done|]. apply wp_bind, wp_gets, wp_bind, wp_modify.
  apply wp_bind, (wp_release L_pid (k_sy k)); [done..|]. intros s' Hq Hp. apply wp_ret. kproj.
  rewrite (in_ms _ _ _ _ _ _ _ HI). apply HQ; [|done]. pose proof (inside_quiet _ _ _ _ _ s' HI Hq Hp) as [I1 I2 I3 I4 I5]. by split.
Qed.

Definition ref_file (f : nat) (fi : files) : files :=
  mk_files (alter (fun x => set_f_ref (f_ref x + 1) x) f (fi_ftable fi)) (fi_pipes fi) (fi_devsw fi).

Lemma filedup_rule P fs fi ms f (Q : nat -> kernel -> Prop) k :
  inside s0 np P fs fi ms k -> lock_free s0 L_ftable -> 1 <= f_ref (default zero_file (fi_ftable fi !! f)) ->
  (forall k', inside s0 np P fs (ref_file f fi) ms k' -> k_mm k' = k_mm k -> Q f k') ->
  wp tn (filedup f) Q k.
Proof.
  intros HI Hl Hf HQ. pose proof (inside_ok _ _ _ _ _ HI). pose proof (inside_free _ _ _ _ _ _ HI Hl ltac:(done)).
  unfold filedup. apply wp_bind, wp_acquire; [done|]. apply wp_bind, wp_gets. unfold file_at. kproj. rewrite (in_fi _ _ _ _ _ _ _ HI).
  rewrite (proj2 (Z.ltb_ge _ _)) by done. apply wp_bind, wp_modify.
  apply wp_bind, (wp_release L_ftable (k_sy k)); [done..|]. intros s' Hq Hp. apply wp_ret, HQ; [|done].
  pose proof (inside_quiet _ _ _ _ _ s' HI Hq Hp) as [I1 I2 I3 I4 I5]. split; try done. unfold set_file, ref_file. kproj. by rewrite <- I4.
Qed.

Definition ref_inode (i : nat) (fs : fsys) : fsys :=
  mk_fsys (fs_disk fs) (fs_bcache fs) (fs_log fs) (fs_sb fs) (alter (fun x => set_i_ref (i_ref x + 1) x) i (fs_icache fs)).

Lemma idup_rule P fs fi ms i (Q : nat -> kernel -> Prop) k :
  inside s0 np P fs fi ms k -> lock_free s0 L_icache ->
  (forall k', inside s0 np P (ref_inode i fs) fi ms k' -> k_mm k' = k_mm k -> Q i k') ->
  wp tn (idup i) Q k.
Proof.
  intros HI Hl HQ. pose proof (inside_ok _ _ _ _ _ HI). pose proof (inside_free _ _ _ _ _ _ HI Hl ltac:(done)).
  unfold idup. apply wp_bind, wp_acquire; [done|]. apply wp_bind, wp_modify.
  apply wp_bind, (wp_release L_icache (k_sy k)); [done..|]. intros s' Hq Hp. apply wp_ret, HQ; [|done].
  pose proof (inside_quiet _ _ _ _ _ s' HI Hq Hp) as [I1 I2 I3 I4 I5]. split; try done. unfold set_inode, ref_inode. kproj. by rewrite <- I3.
Qed.


(** The entry of the new process itself, which was [x] and is [g x]. *)
Context (P : list proc) (x : proc).
Hypothesis Hx : P !! np = Some x.

Lemma upd_proc_rule g f fs fi ms (Q : unit -> kernel -> Prop) k :
  inside s0 np (alter g np P) fs fi ms k ->
  (forall k', inside s0 np (alter (fun x => f (g x)) np P) fs fi ms k' -> k_mm k' = k_mm k -> Q tt k') ->
  wp tn (upd_proc np f) Q k.
Proof.
  intros HI HQ. apply wp_upd_proc, HQ; [|done]. rewrite <- alter_alter. by apply inside_upd.
Qed.

Lemma get_proc_rule g fs fi ms (Q : proc -> kernel -> Prop) k :
  inside s0 np (alter g np P) fs fi ms k -> Q (g x) k -> wp tn (get_proc np) Q k.
Proof. intros HI HQ. apply wp_gets. rewrite (inside_proc _ _ _ _ _ _ HI), list_lookup_alter_eq, Hx. exact HQ. Qed.

Lemma get_other_rule g fs fi ms i (Q : proc -> kernel -> Prop) k :
  inside s0 np (alter g np P) fs fi ms k -> i <> np -> Q (default zero_proc (P !! i)) k -> wp tn (get_proc i) Q k.
Proof. intros HI Hi HQ. apply wp_gets. by rewrite (inside_proc _ _ _ _ _ _ HI), list_lookup_alter_ne. Qed.

(** ** Freeing a process *)

(** The pages of the page table [root], none when it is null. *)
Definition space_pages (k : kernel) (l : list Z) (root sz : Z) (pages : Z -> Prop) : Prop :=
  root = 0 /\ free_pages k l /\ (forall q, ~ pages q) \/
  0 < root /\ exists T, proc_space k T root l sz /\
    forall q, pages q <-> is_table T q \/ q ∈ frames (ram k) T (pages_from 0 (upages sz)).

Definition free_proc (x : proc) : proc :=
  set_p_state UNUSED (set_p_xstate 0 (set_p_killed 0 (set_p_chan None
    (set_p_name (<[0%nat := 0]> (p_name x)) (set_p_parent None (set_p_pid 0 (set_p_sz 0 (set_p_pagetable 0 (set_p_trapframe 0 x))))))))).

(** [tf] and the pages of the space are free, and no others changed. *)
Record reclaimed (k : kernel) (l : list Z) (tf : Z) (pages : Z -> Prop) (k' : kernel) : Prop := {
  rc_free : exists l', free_pages k' l' /\ forall q, q ∈ l' <-> q = tf \/ pages q \/ q ∈ l;
  rc_same q : q mod PGSIZE = 0 -> q <> tf -> ~ pages q -> same_page (ram k) (ram k') q }.

Lemma reclaimed_mm k l tf pages k1 k2 : reclaimed k l tf pages k1 -> k_mm k2 = k_mm k1 -> reclaimed k l tf pages k2.
Proof. intros [(l' & F1 & F2) S] E. unfold free_pages, ram in *. split; [exists l'|]; unfold free_pages, ram; by rewrite E. Qed.

Lemma proc_space_kfree k k' T root l sz tf : proc_space k T root l sz ->
  vm_ok k' T root (tf :: l) -> (forall va, leaf (ram k') T va = leaf (ram k) T va) ->
  tf ∉ frames (ram k) T (pages_from 0 (upages sz)) ->
  proc_space k' T root (tf :: l) sz /\ frames (ram k') T (pages_from 0 (upages sz)) = frames (ram k) T (pages_from 0 (upages sz)).
Proof.
  intros [S1 S2 S3 [O1 O2] S5] Hvm Hl Htf.
  assert (Hf : frames (ram k') T (pages_from 0 (upages sz)) = frames (ram k) T (pages_from 0 (upages sz))) by (by apply frames_ext).
  split; [|done]. split; [done|done| | |].
  - intros va Hva. unfold valid. rewrite Hl. by apply S3.
  - split; [intros q|]; rewrite Hf; [|done]. intros Hq. destruct (O1 q Hq) as (Q1 & Q2 & Q3). split; [done|]. split; [|done].
    intros [->|?]%elem_of_cons; done.
  - intros va V1 V2. unfold valid. rewrite Hl. by apply S5.
Qed.

Lemma space_pages_mm k k' l root sz pages : space_pages k l root sz pages -> k_mm k' = k_mm k -> space_pages k' l root sz pages.
Proof.
  intros H E. assert (ram k' = ram k) as Er by (unfold ram; by rewrite E).
  destruct H as [(-> & Hf & Hp)|(Hr & T & [[V1 V2 V3] S2 S3 S4 S5] & Hp)]; [left|right].
  - split; [done|]. split; [|done]. unfold free_pages. by rewrite Er, E.
  - split; [done|]. exists T. rewrite Er. split; [|done]. split; rewrite ?Er; try done. split; rewrite ?Er; try done.
    unfold free_pages. by rewrite Er, E.
Qed.

Lemma space_free_rule l root sz pages (Q : unit -> kernel -> Prop) k :
  sync_ok (k_sy k) -> lock_free (k_sy k) L_kmem -> space_pages k l root sz pages ->
  (forall k', only_mm k k' -> (exists l', free_pages k' l' /\ forall q, q ∈ l' <-> pages q \/ q ∈ l) ->
     (forall q, q mod PGSIZE = 0 -> ~ pages q -> same_page (ram k) (ram k') q) -> Q tt k') ->
  wp tn (when (c_true root) (proc_freepagetable root sz)) Q k.
Proof.
  intros Hok1 Hlf1 [(-> & Hf & Hp)|(Hr & T & Hs & Hp)] HQ.
  - apply wp_ret, HQ; [done| |done]. exists l. split; [done|]. intros q. pose proof (Hp q). tauto.
  - unfold c_true. rewrite (proj2 (Z.eqb_neq root 0)) by lia. cbn [negb when].
    apply (proc_freepagetable_rule T root l sz); [done..|]. intros k' [R1 (l' & R2 & R3) R4]. apply HQ; [done|..].
    + exists l'. split; [done|]. intros q. rewrite R3, Hp. tauto.
    + intros q Hq Hn. rewrite Hp in Hn. apply R4; tauto.
Qed.

(** Freeing a page beside the space. *)
Lemma space_kfree_rule l root sz pages pa (Q : unit -> kernel -> Prop) k :
  sync_ok (k_sy k) -> lock_free (k_sy k) L_kmem -> space_pages k l root sz pages ->
  page_ok pa -> pa ∉ l -> ~ pages pa ->
  (forall k', only_mm k k' -> space_pages k' (pa :: l) root sz pages ->
     (forall q, q mod PGSIZE = 0 -> q <> pa -> same_page (ram k) (ram k') q) -> Q tt k') ->
  wp tn (kfree pa) Q k.
Proof.
  intros Hok1 Hlf1 [(-> & Hf & Hp)|(Hr & T & Hs & Hp)] Hpa Hl Hn HQ.
  - apply (kfree_rule l); [done..|]. intros k' Hm Hf' Hs'. apply HQ; [done| |done]. by left.
  - rewrite Hp in Hn. apply (kfree_vm_rule T root l); [done|done|apply Hs|done|done|tauto|].
    intros k' Hm Hvm Hlf2 Hs'. destruct (proc_space_kfree k k' T root l sz pa Hs Hvm Hlf2 ltac:(tauto)) as [S1 S2].
    apply HQ; [done| |done]. right. split; [done|]. exists T. by rewrite S2.
Qed.

Lemma freeproc_rule g fs fi ms l pages (Q : unit -> kernel -> Prop) k :
  inside s0 np (alter g np P) fs fi ms k -> lock_free s0 L_kmem ->
  page_ok (p_trapframe (g x)) -> p_trapframe (g x) ∉ l -> ~ pages (p_trapframe (g x)) ->
  space_pages k l (p_pagetable (g x)) (p_sz (g x)) pages ->
  (forall k', inside s0 np (alter (fun x => free_proc (g x)) np P) fs fi ms k' ->
     reclaimed k l (p_trapframe (g x)) pages k' -> Q tt k') ->
  wp tn (freeproc np) Q k.
Proof.
  intros HI Hl Htf Htl Htp Hsp HQ. unfold freeproc. pose proof (page_ok_pos _ Htf).
  apply wp_bind. eapply get_proc_rule; [exact HI|]. set (tf := p_trapframe (g x)) in *.
  assert (c_true tf = true) as -> by (unfold c_true; by rewrite (proj2 (Z.eqb_neq tf 0)) by lia). cbn [when].
  apply wp_bind, (space_kfree_rule l (p_pagetable (g x)) (p_sz (g x)) pages); [by eapply inside_ok|by eapply inside_free|done..|].
  intros k1 Hm1 Hsp1 Hs1. pose proof (inside_mm _ _ _ _ _ _ HI Hm1) as HI1.
  apply wp_bind. eapply upd_proc_rule; [exact HI1|]. intros k2 HI2 E2. apply wp_bind. eapply get_proc_rule; [exact HI2|].
  apply wp_bind, (space_free_rule (tf :: l) (p_pagetable (g x)) (p_sz (g x)) pages); [by eapply inside_ok|by eapply inside_free|by eapply space_pages_mm|].
  intros k3 Hm3 (l3 & F3 & F4) Hs3. pose proof (inside_mm _ _ _ _ _ _ HI2 Hm3) as HI3.
  assert (HR : reclaimed k l tf pages k3).
  { split.
    - exists l3. split; [done|]. intros q. rewrite F4, elem_of_cons. tauto.
    - intros q Hq Hqt Hqp. eapply same_page_trans; [by apply Hs1|]. assert (ram k2 = ram k1) as <- by (unfold ram; by rewrite E2). by apply Hs3. }
  clear - HI3 HR HQ Hx Hok. revert k3 HI3 HR.
  do 8 (intros k' HI' HR'; apply wp_bind; eapply upd_proc_rule; [exact HI'|]; clear HI'; intros k'' HI' E';
    apply (fun H => reclaimed_mm _ _ _ _ _ _ H E') in HR'; clear k' E'; revert k'' HI' HR').
  intros k' HI' HR'. eapply upd_proc_rule; [exact HI'|]. intros k'' HI2 E'. apply HQ; [exact HI2|]. by eapply reclaimed_mm.
Qed.

End rules.
End inside.

(** ** Allocating a process *)

(** Everything is as it was, up to the order of the free list, the number of
    the next process, and unused entries of the table. *)
Record undone (k : kernel) (l : list Z) (k' : kernel) : Prop := {
  ud_sync : quiet (set_procs (procs k') (k_sy k)) (k_sy k');
  ud_length : length (procs k') = length (procs k);
  ud_procs j : p_state (proc_at k j) <> UNUSED -> procs k' !! j = procs k !! j;
  ud_unused j : p_state (proc_at k' j) = p_state (proc_at k j);
  ud_fs : k_fs k' = k_fs k;
  ud_fi : k_fi k' = k_fi k;
  ud_pages : exists l', free_pages k' l' /\ forall q, q ∈ l' <-> q ∈ l;
  ud_same q : q mod PGSIZE = 0 -> q ∉ l -> same_page (ram k) (ram k') q }.

(** No entry of the table is unused, or there are at most [n] free pages. *)
Definition scarce (n : nat) (k : kernel) (l : list Z) : Prop :=
  (forall j, (j < length (procs k))%nat -> p_state (proc_at k j) <> UNUSED) \/ (length l <= n)%nat.

Definition alloc_proc (pid tf root : Z) (x : proc) : proc :=
  let x := set_p_pagetable root (set_p_trapframe tf (set_p_pid pid x)) in
  set_p_context (mk_context sym_forkret (u64 (p_kstack x + PGSIZE)) (ctx_s zero_context)) x.

(** The lock of [np], which was unused, is held, and it has a trapframe [tf]
    and a page table without user memory. *)
Record allocated (k : kernel) (l : list Z) (np : nat) (x : proc) (tf root : Z) (T : gmap (list Z) Z) (l' : list Z) (k' : kernel) : Prop := {
  al_slot : procs k !! np = Some x /\ p_state x = UNUSED;
  al_inside : inside (k_sy k) np (alter (alloc_proc (ms_nextpid (k_ms k)) tf root) np (procs k)) (k_fs k) (k_fi k)
    (set_nextpid (s32 (ms_nextpid (k_ms k) + 1)) (k_ms k)) k';
  al_root : page_ok root;
  al_tf : page_ok tf /\ tf ∉ l' /\ ~ is_table T tf;
  al_vm : vm_ok k' T root l';
  al_pages q : q ∈ l <-> q = tf \/ q ∈ l' \/ is_table T q;
  al_leaf va : 0 <= va < MAXVA -> va mod PGSIZE = 0 -> leaf (ram k') T va = space_map tf va;
  al_same q : q mod PGSIZE = 0 -> q ∉ l -> same_page (ram k) (ram k') q;
  al_count : (length l <= length l' + 6)%nat }.

(** Giving the lock of an entry back that is still unused. *)
Lemma undone_intro k l np x (g : proc -> proc) k1 s' :
  procs k !! np = Some x -> p_state x = UNUSED -> p_state (g x) = UNUSED ->
  k_fs k1 = k_fs k -> k_fi k1 = k_fi k -> quiet (set_procs (alter g np (procs k)) (k_sy k)) s' -> sy_procs s' = alter g np (procs k) ->
  (exists l', free_pages k1 l' /\ forall q, q ∈ l' <-> q ∈ l) ->
  (forall q, q mod PGSIZE = 0 -> q ∉ l -> same_page (ram k) (ram k1) q) -> undone k l (set_sy s' k1).
Proof.
  intros Hx Hu Hg Hfs Hfi Hq Hp Hl Hs.
  assert (Hps : procs (set_sy s' k1) = alter g np (procs k)) by (unfold procs; kproj; exact Hp).
  split; rewrite ?Hps; try done.
  - by rewrite length_alter.
  - intros j Hj. destruct (decide (np = j)) as [<-|]; [|by rewrite list_lookup_alter_ne]. unfold proc_at in Hj. rewrite Hx in Hj. done.
  - intros j. unfold proc_at. rewrite Hps. destruct (decide (np = j)) as [<-|]; [|by rewrite list_lookup_alter_ne].
    rewrite list_lookup_alter_eq, Hx. cbn. congruence.
Qed.

Section alloc.
Context {tn : turn} (k : kernel) (l : list Z).
Hypothesis Hok : sync_ok (k_sy k).
Hypothesis Hpf : procs_free (k_sy k).
Hypothesis Hkm : lock_free (k_sy k) L_kmem.
Hypothesis Hpid : lock_free (k_sy k) L_pid.
Hypothesis Hfree : free_pages k l.

(** The search for an unused entry. *)
Lemma find_unused_rule (Q : option nat -> kernel -> Prop) :
  (forall s', quiet (k_sy k) s' -> sy_procs s' = procs k ->
     (forall j, (j < length (procs k))%nat -> p_state (proc_at k j) <> UNUSED) -> Q None (set_sy s' k)) ->
  (forall np x k', procs k !! np = Some x -> p_state x = UNUSED ->
     inside (k_sy k) np (procs k) (k_fs k) (k_fi k) (k_ms k) k' -> k_mm k' = k_mm k -> Q (Some np) k') ->
  wp tn (for_each (seq 0 NPROC) (fun i =>
    acquire (L_proc i) ;;
    let* p := get_proc i in
    if bool_decide (p_state p = UNUSED) then ret (Some i)
    else release (L_proc i) ;; ret None)) Q k.
Proof.
  intros H0 H1. destruct Hpf as [Hlen Hlk].
  apply (wp_for_each (fun dn k' => exists s', k' = set_sy s' k /\ quiet (k_sy k) s' /\ sy_procs s' = procs k /\
    forall j, (j < length dn)%nat -> p_state (proc_at k j) <> UNUSED)).
  - exists (k_sy k). split_and!; [done|done|done|]. cbn. lia.
  - intros dn i rest k' E (s & -> & Hq & Hp & Hu0). destruct (seq_split _ _ _ _ E) as [-> Hi]. set (i := length dn) in *.
    destruct (lookup_lt_is_Some_2 (procs k) i) as [x Hx]; [by rewrite <- Hlen in Hi|].
    assert (lock_free s (L_proc i)) by (eapply quiet_lock_free; [exact Hq|by apply Hlk]).
    apply wp_bind, wp_acquire; [done|]. apply wp_bind, wp_gets.
    match goal with |- context [proc_at ?k' i] => assert (proc_at k' i = x) as -> end.
    { change (default zero_proc (sy_procs s !! i) = x). by rewrite Hp, Hx. }
    case_bool_decide as Hu.
    + apply wp_ret. apply (H1 i x); [done|done| |done]. split; try done. kproj.
      change (set_procs (procs k) (k_sy k)) with (k_sy k). by apply quiet_acquire.
    + apply wp_bind, (wp_release _ s); [by eapply quiet_sync_ok|done|done|]. intros s' Hq' Hp'. apply wp_ret.
      exists s'. split; [done|]. split; [by etransitivity|]. split; [rewrite Hp'; exact Hp|].
      intros j Hj. rewrite length_app in Hj. cbn [length] in Hj. destruct (decide (j = i)) as [->|]; [|apply Hu0; lia].
      unfold proc_at. by rewrite Hx.
  - intros k' (s & -> & Hq & Hp & Hu). apply H0; [done|done|]. rewrite length_seq in Hu. unfold procs. by rewrite Hlen.
Qed.

Lemma mm_ram k1 k2 : k_mm k2 = k_mm k1 -> ram k2 = ram k1.
Proof. unfold ram. by intros ->. Qed.

Lemma free_pages_mm k1 k2 l' : k_mm k2 = k_mm k1 -> free_pages k1 l' -> free_pages k2 l'.
Proof. intros E. unfold free_pages, ram. by rewrite E. Qed.

Lemma vm_ok_mm k1 k2 T root l' : k_mm k2 = k_mm k1 -> vm_ok k1 T root l' -> vm_ok k2 T root l'.
Proof. intros E [V1 V2 V3]. split; [by eapply free_pages_mm|by rewrite (mm_ram _ _ E)|done]. Qed.

(** After the trapframe was allocated: the page table, or everything back. *)
Lemma alloc_table_rule np x tf l1 (Q : option nat -> kernel -> Prop) k1 :
  let pid := ms_nextpid (k_ms k) in
  procs k !! np = Some x -> p_state x = UNUSED -> l = tf :: l1 -> page_ok tf -> tf ∉ l1 -> free_pages k1 l1 ->
  inside (k_sy k) np (alter (fun x => set_p_trapframe tf (set_p_pid pid x)) np (procs k)) (k_fs k) (k_fi k) (set_nextpid (s32 (pid + 1)) (k_ms k)) k1 ->
  (forall q, q mod PGSIZE = 0 -> q <> tf -> same_page (ram k) (ram k1) q) ->
  (forall k', undone k l k' -> (length l <= 6)%nat -> Q None k') ->
  (forall root T l' k', allocated k l np x tf root T l' k' -> Q (Some np) k') ->
  wp tn (let* pagetable := proc_pagetable np in
         upd_proc np (set_p_pagetable pagetable) ;;
         if pagetable =? 0 then
           freeproc np ;;
           release (L_proc np) ;;
           ret None
         else
           upd_proc np (set_p_context zero_context) ;;
           upd_proc np (fun x => set_p_context (mk_context sym_forkret (ctx_sp (p_context x)) (ctx_s (p_context x))) x) ;;
           upd_proc np (fun x => set_p_context
             (mk_context (ctx_ra (p_context x)) (u64 (p_kstack x + PGSIZE)) (ctx_s (p_context x))) x) ;;
           ret (Some np)) Q k1.
Proof.
  intros pid Hx Hu -> Htf Htl Hf1 HI1 Hs1 H0 H1.
  assert (Hlk : lock_free (k_sy k) (L_proc np)).
  { apply Hpf. destruct Hpf as [<- _]. apply lookup_lt_Some in Hx. exact Hx. }
  assert (Etf : p_trapframe (proc_at k1 np) = tf).
  { rewrite (inside_proc _ _ _ _ _ _ _ _ HI1), list_lookup_alter_eq, Hx. done. }
  apply wp_bind, (proc_pagetable_rule np l1); [by eapply inside_ok|by eapply inside_free|done|by rewrite Etf|..]; rewrite ?Etf.
  - intros k2 [G1 (l2 & G2 & G3) G4] Hc. pose proof (inside_mm _ _ _ _ _ _ _ _ HI1 G1) as HI2.
    apply wp_bind. eapply upd_proc_rule; [exact HI2|]. intros k3 HI3 E3. cbn [Z.eqb].
    apply wp_bind. eapply (freeproc_rule (k_sy k) np Hok (procs k) x Hx _ _ _ _ l2 (fun _ => False)); [exact HI3|done|done| | | |].
    + cbn. rewrite G3. exact Htl.
    + intros [].
    + left. split; [reflexivity|]. split; [exact (free_pages_mm _ _ _ E3 G2)|intros ? []].
    + intros k4 HI4 [(l4 & F1 & F2) F3]. apply wp_bind, (inside_release_rule _ _ Hok _ _ _ _ _ _ HI4 Hlk).
      intros s' Hq Hp. apply wp_ret, H0; [|cbn; lia]. eapply undone_intro; [exact Hx|exact Hu| |apply HI4|apply HI4|exact Hq|exact Hp| |]; [done|..].
      * exists l4. split; [done|]. intros q. rewrite F2. cbn. rewrite G3, elem_of_cons. tauto.
      * intros q Hq1 Hq2. rewrite not_elem_of_cons in Hq2. destruct Hq2 as [N1 N2].
        eapply same_page_trans; [by apply Hs1|]. eapply same_page_trans; [by apply G4|]. rewrite <- (mm_ram _ _ E3). apply F3; [exact Hq1|exact N1|intros []].
  - intros root T l2 k2 Hr [M1 M2 M3 M4 M5 M6]. pose proof (inside_mm _ _ _ _ _ _ _ _ HI1 M1) as HI2. pose proof (page_ok_pos _ Hr).
    apply wp_bind. eapply upd_proc_rule; [exact HI2|]. intros k3 HI3 E3. rewrite (proj2 (Z.eqb_neq root 0)) by lia.
    apply wp_bind. eapply upd_proc_rule; [exact HI3|]. intros k4 HI4 E4.
    apply wp_bind. eapply upd_proc_rule; [exact HI4|]. intros k5 HI5 E5.
    apply wp_bind. eapply upd_proc_rule; [exact HI5|]. intros k6 HI6 E6. apply wp_ret.
    assert (E : k_mm k6 = k_mm k2) by congruence. apply (H1 root T l2). split; [done|exact HI6|done| | | | | |cbn; lia].
    + split; [done|]. split; [intros Hin; apply Htl, M3; by left|intros Hin; apply Htl, M3; by right].
    + by eapply vm_ok_mm.
    + intros q. rewrite elem_of_cons, M3. tauto.
    + intros va V1 V2. rewrite (mm_ram _ _ E). by apply M5.
    + intros q Hq1 Hq2. rewrite not_elem_of_cons in Hq2. destruct Hq2 as [N1 N2]. rewrite (mm_ram _ _ E).
      eapply same_page_trans; [by apply Hs1|by apply M4].
Qed.

Lemma allocproc_rule (Q : option nat -> kernel -> Prop) :
  (forall k', undone k l k' -> scarce 6 k l -> Q None k') ->
  (forall np x tf root T l' k', allocated k l np x tf root T l' k' -> Q (Some np) k') ->
  wp tn allocproc Q k.
Proof.
  intros H0 H1. unfold allocproc. apply wp_bind, find_unused_rule.
  { intros s' Hq Hp Hfull. apply wp_ret, H0; [|by left]. split; try done.
    - unfold procs at 1. kproj. rewrite Hp. exact Hq.
    - unfold procs at 1. kproj. by rewrite Hp.
    - intros j _. unfold procs at 1. kproj. by rewrite Hp.
    - intros j. unfold proc_at, procs at 1. kproj. by rewrite Hp.
    - by exists l. }
  intros np x k1 Hx Hu HI1 E1.
  assert (Hlk : lock_free (k_sy k) (L_proc np)).
  { apply Hpf. destruct Hpf as [<- _]. apply lookup_lt_Some in Hx. exact Hx. }
  apply wp_bind, (allocpid_rule (k_sy k) np Hok _ _ _ _ _ _ HI1 Hpid). intros k2 HI2 E2.
  pose proof (alter_id_at (fun x => x) _ _ _ Hx eq_refl) as Eid.
  rewrite <- Eid in HI2. apply wp_bind. eapply upd_proc_rule; [exact HI2|]. intros k3 HI3 E3. clear Eid.
  assert (E : k_mm k3 = k_mm k) by congruence.
  apply wp_bind, (kalloc_rule l); [by eapply inside_ok|by eapply inside_free|by eapply free_pages_mm|..].
  - intros -> k4 Hm4 E4. pose proof (inside_mm _ _ _ _ _ _ _ _ HI3 Hm4) as HI4.
    apply wp_bind. eapply upd_proc_rule; [exact HI4|]. intros k5 HI5 E5. cbn [Z.eqb].
    apply wp_bind, (inside_release_rule _ _ Hok _ _ _ _ _ _ HI5 Hlk). intros s' Hq Hp.
    assert (E' : k_mm k5 = k_mm k) by congruence.
    apply wp_ret, H0; [|right; cbn; lia]. eapply undone_intro; [exact Hx|exact Hu| |apply HI5|apply HI5|exact Hq|exact Hp| |]; [done|..].
    + exists []. split; [by eapply free_pages_mm|done].
    + intros q _ _. rewrite (mm_ram _ _ E'). by intros a _.
  - intros tf l1 El Htf Htl k4 Hm4 Hf4 Hr4. pose proof (inside_mm _ _ _ _ _ _ _ _ HI3 Hm4) as HI4. pose proof (page_ok_pos _ Htf).
    apply wp_bind. eapply upd_proc_rule; [exact HI4|]. intros k5 HI5 E5. rewrite (proj2 (Z.eqb_neq tf 0)) by lia.
    apply (alloc_table_rule np x tf l1 Q k5 Hx Hu El Htf Htl (free_pages_mm _ _ _ E5 Hf4) HI5); [|intros k' Hd Hc; apply H0; [exact Hd|by right]|intros ????; apply H1].
    intros q Hq Hne. rewrite (mm_ram _ _ E5), Hr4, (mm_ram _ _ E). apply same_page_fill; [apply Htf|done..].
Qed.

End alloc.

(** ** fork *)

(** The entry of the child of [p], whose entry is [x]; it was [y]. *)
Definition fork_proc (p : nat) (x : proc) (pid tf root : Z) (y : proc) : proc :=
  set_p_state RUNNABLE (set_p_name (safestrcpy (p_name y) (p_name x) 16) (set_p_cwd (p_cwd x) (set_p_ofile (p_ofile x)
    (set_p_parent (Some p) (set_p_sz (p_sz x) (alloc_proc pid tf root y)))))).

Definition ref_files (fs : list nat) (fi : files) : files := foldl (fun fi f => ref_file f fi) fi fs.

(** Process [p] is running; its address space has the tables [T]. *)
Record fork_pre (k : kernel) (p : nat) (x : proc) (T : gmap (list Z) Z) (l : list Z) (cwd : nat) : Prop := {
  fp_ok : sync_ok (k_sy k);
  fp_free : procs_free (k_sy k);
  fp_locks lk : lk ∈ [L_kmem; L_pid; L_ftable; L_icache] -> lock_free (k_sy k) lk;
  fp_cpu : c_proc (sy_cpu (k_sy k)) = Some p;
  fp_proc : procs k !! p = Some x;
  fp_state : p_state x = RUNNING;
  fp_space : proc_space k T (p_pagetable x) l (p_sz x);
  fp_tf : page_ok (p_trapframe x) /\ p_trapframe x ∉ l;
  fp_files : length (p_ofile x) = NOFILE /\ forall f, Some f ∈ p_ofile x -> 1 <= f_ref (file_at k f);
  fp_cwd : p_cwd x = Some cwd;
  fp_unused y : y ∈ procs k -> p_state y = UNUSED -> p_sz y = 0 /\ p_ofile y = replicate NOFILE None }.

(** The memory of the child: its trapframe [tf], its tables [T] and its pages
    were free, and hold copies of its parent's; nothing else changed. *)
Record fork_mem (k : kernel) (x : proc) (Tp : gmap (list Z) Z) (l : list Z) (tf root : Z) (T : gmap (list Z) Z) (l' : list Z) (k' : kernel) : Prop := {
  fm_same q : q mod PGSIZE = 0 -> q ∉ l -> same_page (ram k) (ram k') q;
  fm_parent : vm_ok k' Tp (p_pagetable x) l' /\ forall va, leaf (ram k') Tp va = leaf (ram k) Tp va;
  fm_child : proc_space k' T root l' (p_sz x);
  fm_high va : va = TRAMPOLINE \/ va = TRAPFRAME -> leaf (ram k') T va = space_map tf va;
  fm_copy va : va ∈ pages_from 0 (upages (p_sz x)) -> valid (ram k') T va = valid (ram k) Tp va /\
    (valid (ram k) Tp va = true -> PTE_FLAGS (leaf (ram k') T va) = PTE_FLAGS (leaf (ram k) Tp va) /\
       forall a, va <= a < va + PGSIZE -> ubyte (ram k') T a = ubyte (ram k) Tp a);
  fm_a0 : rd64 (ram k') (tf + tf_offset TF_a0) = 0;
  fm_regs f : f <> TF_a0 -> rd64 (ram k') (tf + tf_offset f) = rd64 (ram k) (p_trapframe x + tf_offset f);
  fm_tf : page_ok tf /\ tf ∉ l' /\ ~ is_table T tf /\ tf ∉ frames (ram k') T (pages_from 0 (upages (p_sz x)));
  fm_pages q : q ∈ l <-> q = tf \/ q ∈ l' \/ is_table T q \/ q ∈ frames (ram k') T (pages_from 0 (upages (p_sz x))) }.

(** [fork] made the child [np]. *)
Record fork_done (k : kernel) (p : nat) (x : proc) (Tp : gmap (list Z) Z) (l : list Z) (cwd np : nat) (k' : kernel) : Prop := {
  fd_slot : p_state (proc_at k np) = UNUSED /\ (np < length (procs k))%nat;
  fd_mem : exists tf root T l', fork_mem k x Tp l tf root T l' k' /\
    procs k' = alter (fork_proc p x (ms_nextpid (k_ms k)) tf root) np (procs k);
  fd_sync : quiet (set_procs (procs k') (k_sy k)) (k_sy k');
  fd_fs : k_fs k' = ref_inode cwd (k_fs k);
  fd_fi : k_fi k' = ref_files (omap id (p_ofile x)) (k_fi k);
  fd_ms : k_ms k' = set_nextpid (s32 (ms_nextpid (k_ms k) + 1)) (k_ms k) }.

(** Writing other pages keeps an address space. *)
Lemma vm_ok_keep k k' T root l l' : vm_ok k T root l -> free_pages k' l' -> (forall q, q ∈ l' -> q ∈ l) ->
  (forall c, is_table T c -> same_page (ram k) (ram k') c) ->
  vm_ok k' T root l' /\ (forall va, leaf (ram k') T va = leaf (ram k) T va).
Proof.
  intros [V1 V2 V3] Hf Hl Hs. destruct (pt_ok_ext _ _ _ _ V2 Hs) as [E1 E2]. split; [|done]. split; [done|done|].
  intros c Hc Hin. exact (V3 c Hc (Hl c Hin)).
Qed.

Lemma owned_keep m m' T l l' vas : owned m T l vas -> (forall q, q ∈ l' -> q ∈ l) -> (forall va, leaf m' T va = leaf m T va) ->
  frames m' T vas = frames m T vas /\ owned m' T l' vas.
Proof.
  intros [O1 O2] Hl E. assert (frames m' T vas = frames m T vas) as Ef by (by apply frames_ext). split; [done|].
  split; rewrite Ef; [|done]. intros q Hq. destruct (O1 q Hq) as (Q1 & Q2 & Q3). split_and!; [done| |done]. intros ?%Hl. done.
Qed.

Lemma ubyte_keep m m' T va a : va mod PGSIZE = 0 -> va <= a < va + PGSIZE -> leaf m' T va = leaf m T va ->
  same_page m m' (frame m T va) -> ubyte m' T a = ubyte m T a.
Proof.
  intros Hva Ha El Hs. unfold ubyte. assert (pg a = va) as -> by (unfold pg; pages). unfold frame in *. rewrite El.
  apply Hs. lia.
Qed.

Lemma rd64_wr_copy m a m' b n off : 0 <= off -> off + 8 <= n -> rd64 (wr m a (rdn m' b n)) (a + off) = rd64 m' (b + off).
Proof.
  intros H1 H2. unfold rd64. f_equal. apply list_eq. intros i. destruct (decide (i < 8)%nat).
  - rewrite <- (Nat2Z.id i), !lookup_rdn by lia. f_equal. unfold rd at 1. rewrite lookup_wr, length_rdn by lia. zcase.
    replace (Z.to_nat (a + off + Z.of_nat i - a)) with (Z.to_nat (off + Z.of_nat i)) by lia.
    rewrite lookup_rdn by lia. cbn. by rewrite Z.add_assoc.
  - rewrite !lookup_ge_None_2; rewrite ?length_rdn; lia || done.
Qed.

Lemma tf_offset_range f : 0 <= tf_offset f /\ tf_offset f + 8 <= 288 /\ (f <> TF_a0 -> tf_offset f + 8 <= 112 \/ 112 + 8 <= tf_offset f).
Proof. split_and!; [destruct f; cbn; lia..|]. by destruct f; intros H; cbn; (lia || destruct H). Qed.

Lemma ofile_step (o : list (option nat)) i v : length o = NOFILE -> o !! i = Some v ->
  take (S i) o ++ drop (S i) (replicate NOFILE None) = <[i := v]> (take i o ++ drop i (replicate NOFILE None)).
Proof.
  intros Hl Hv. pose proof (lookup_lt_Some _ _ _ Hv) as Hi. rewrite (take_S_r _ _ _ Hv), <- app_assoc, insert_app_r_alt; rewrite length_take; [|lia].
  f_equal. replace (i - i `min` length o)%nat with 0%nat by lia. rewrite !drop_replicate.
  replace (NOFILE - i)%nat with (S (NOFILE - S i)) by lia. done.
Qed.

Lemma ref_files_ge fs fi f : f_ref (default zero_file (fi_ftable fi !! f)) <= f_ref (default zero_file (fi_ftable (ref_files fs fi) !! f)).
Proof.
  revert fi. induction fs as [|g fs IH]; intros fi; cbn; [done|]. etransitivity; [|apply IH]. cbn.
  destruct (decide (g = f)) as [->|]; [|by rewrite list_lookup_alter_ne]. rewrite list_lookup_alter_eq.
  destruct (fi_ftable fi !! f); cbn; lia.
Qed.

Lemma fork_mem_mm k x Tp l tf root T l' k1 k2 : fork_mem k x Tp l tf root T l' k1 -> k_mm k2 = k_mm k1 -> fork_mem k x Tp l tf root T l' k2.
Proof.
  intros [M1 [M2 M3] [S1 S2 S3 S4 S5] M5 M6 M7 M8 M9 M10] E. pose proof (mm_ram _ _ E) as Er. split; rewrite ?Er; try done.
  - split; [by eapply vm_ok_mm|done].
  - split; rewrite ?Er; try done. by eapply vm_ok_mm.
Qed.

Section copy.
Context {tn : turn} (k : kernel) (p : nat) (x : proc) (Tp : gmap (list Z) Z) (l : list Z) (cwd : nat).
Hypothesis Hpre : fork_pre k p x Tp l cwd.
Context (np : nat) (y : proc) (tf root : Z) (Tc : gmap (list Z) Z) (l1 : list Z) (k1 : kernel).
Hypothesis Hal : allocated k l np y tf root Tc l1 k1.

Lemma alloc_parent : vm_ok k1 Tp (p_pagetable x) l1 /\ forall va, leaf (ram k1) Tp va = leaf (ram k) Tp va.
Proof.
  destruct Hal as [_ _ _ _ A1 A2 _ A3 _]. destruct (fp_space _ _ _ _ _ _ Hpre) as [V _ _ _ _].
  apply (vm_ok_keep k k1 Tp _ l l1 V); [apply A1|intros q Hq; apply A2; tauto|].
  intros c Hc. apply A3; [by eapply table_page; [apply V|]|]. by apply (vo_sep _ _ _ _ V).
Qed.

Lemma alloc_copy_pre : copy_pre k1 Tp Tc (p_pagetable x) root l1 (upages (p_sz x)).
Proof.
  destruct alloc_parent as [P1 P2]. destruct Hal as [_ _ _ _ A1 A2 A3 _ _]. destruct (fp_space _ _ _ _ _ _ Hpre) as [V S1 S2 S3 _].
  destruct (owned_keep _ (ram k1) _ _ l1 _ S3 ltac:(intros q Hq; apply A2; tauto) P2) as [Ef Ho].
  destruct (upages_spec _ S1) as (_ & U & _). split; [done|done| |lia| |done| |].
  - intros c Hc Ht. apply (vo_sep _ _ _ _ V c Hc), A2. tauto.
  - intros va Hva. unfold valid. rewrite P2. apply S2. do 2 right. done.
  - intros q. rewrite Ef. intros Hq Ht. destruct (ow_page _ _ _ _ S3 q Hq) as (_ & N & _). apply N, A2. tauto.
  - intros va [V1 V2]%elem_of_pages_from; [|done]. assert (TRAPFRAME < TRAMPOLINE < MAXVA) by done.
    unfold valid. rewrite A3 by (unfold PGSIZE in *; lia). unfold space_map. rewrite !decide_False by (unfold PGSIZE in *; lia). done.
Qed.

Lemma alloc_proc_free : lock_free (k_sy k) (L_proc np).
Proof.
  destruct Hal as [[A _] _ _ _ _ _ _ _ _]. apply (fp_free _ _ _ _ _ _ Hpre). destruct (fp_free _ _ _ _ _ _ Hpre) as [<- _].
  by apply lookup_lt_Some in A.
Qed.

Lemma alloc_other : p <> np.
Proof.
  intros E. destruct Hal as [[A1 A2] _ _ _ _ _ _ _ _]. pose proof (fp_proc _ _ _ _ _ _ Hpre) as B. rewrite E, A1 in B.
  injection B as B. rewrite B, (fp_state _ _ _ _ _ _ Hpre) in A2. done.
Qed.

Section forked.
Context (r : Z) (T : gmap (list Z) Z) (l2 : list Z) (k2 : kernel).
Hypothesis Hfk : forked k1 Tp Tc (p_pagetable x) root l1 (upages (p_sz x)) r T l2 k2.

(** The trapframe of the child is apart from its address space. *)
Lemma forked_tf : tf ∉ l2 /\ ~ is_table T tf /\ tf ∉ frames (ram k2) T (pages_from 0 (upages (p_sz x))).
Proof.
  destruct (al_tf _ _ _ _ _ _ _ _ _ Hal) as (_ & A1 & A2).
  split_and!; intros H; destruct (proj2 (fk_pages _ _ _ _ _ _ _ _ _ _ _ Hfk tf)); tauto.
Qed.

Lemma forked_pages q : q ∈ l <-> q = tf \/ q ∈ l2 \/ is_table T q \/ q ∈ frames (ram k2) T (pages_from 0 (upages (p_sz x))).
Proof. rewrite (al_pages _ _ _ _ _ _ _ _ _ Hal), <- (fk_pages _ _ _ _ _ _ _ _ _ _ _ Hfk). tauto. Qed.

Lemma forked_same q : q mod PGSIZE = 0 -> q ∉ l -> same_page (ram k) (ram k2) q.
Proof.
  intros Hq Hl. rewrite (al_pages _ _ _ _ _ _ _ _ _ Hal) in Hl. eapply same_page_trans; [apply (al_same _ _ _ _ _ _ _ _ _ Hal)|].
  - done.
  - rewrite (al_pages _ _ _ _ _ _ _ _ _ Hal). done.
  - apply (fk_same _ _ _ _ _ _ _ _ _ _ _ Hfk); tauto.
Qed.

(** Outside the user pages only the trampoline and the trapframe are mapped. *)
Lemma forked_high va : 0 <= va < MAXVA -> va mod PGSIZE = 0 -> va ∉ pages_from 0 (upages (p_sz x)) ->
  leaf (ram k2) T va = space_map tf va.
Proof.
  intros V1 V2 V3. rewrite (fk_other _ _ _ _ _ _ _ _ _ _ _ Hfk) by done. by apply (al_leaf _ _ _ _ _ _ _ _ _ Hal).
Qed.

Lemma high_outside va : va = TRAMPOLINE \/ va = TRAPFRAME -> 0 <= va < MAXVA /\ va mod PGSIZE = 0 /\ va ∉ pages_from 0 (upages (p_sz x)).
Proof.
  intros Hva. destruct (fp_space _ _ _ _ _ _ Hpre) as [_ S1 _ _ _]. destruct (upages_spec _ S1) as (_ & U & _).
  assert (TRAPFRAME < TRAMPOLINE) by done.
  split_and!; [by destruct Hva as [->| ->]..|]. intros [_ H1]%elem_of_pages_from; [|done]. unfold PGSIZE in *. lia.
Qed.

Lemma space_map_valid va : pte_flag (space_map tf va) PTE_V = true -> va = TRAMPOLINE \/ va = TRAPFRAME.
Proof. unfold space_map. repeat case_decide; auto. done. Qed.

Lemma space_map_leaf va : va = TRAMPOLINE \/ va = TRAPFRAME -> PTE_FLAGS (space_map tf va) <> PTE_V.
Proof.
  destruct (al_tf _ _ _ _ _ _ _ _ _ Hal) as (Htf & _). pose proof (page_ok_pos _ Htf). destruct trampoline_range as [R1 R2].
  assert (TRAPFRAME <> TRAMPOLINE) by done. unfold space_map. intros [->| ->].
  - rewrite decide_False, decide_True by done. destruct (pte_entry sym_trampoline (Z.lor PTE_R PTE_X)) as (-> & _); [done..|].
    by rewrite PTE_FLAGS_make.
  - rewrite decide_True by done. destruct (pte_entry tf (Z.lor PTE_R PTE_W)) as (-> & _); [lia|apply Htf|done|].
    rewrite PTE_FLAGS_make; [done|lia|apply Htf|done].
Qed.

(** What the child's entry of the table describes, when the copy succeeded and
    when it did not. *)
Lemma forked_space sz k' : vm_ok k' T root l2 -> (forall va, leaf (ram k') T va = leaf (ram k2) T va) ->
  r = 0 /\ sz = p_sz x \/ r = -1 /\ sz = 0 -> proc_space k' T root l2 sz.
Proof.
  intros Hvm El Hsz. destruct Hfk as [_ _ _ _ _ _ _ F1 _ F2 _]. destruct alloc_parent as [_ P2].
  destruct (fp_space _ _ _ _ _ _ Hpre) as [_ S1 S2 _ _].
  assert (Hhigh : forall va, 0 <= va < MAXVA -> va mod PGSIZE = 0 -> valid (ram k') T va = true ->
    va ∉ pages_from 0 (upages (p_sz x)) -> va = TRAMPOLINE \/ va = TRAPFRAME).
  { intros va V1 V2 V3 V4. unfold valid in V3. rewrite El, forked_high in V3 by done. by apply space_map_valid. }
  assert (Hlow : forall va, va ∈ pages_from 0 (upages (p_sz x)) -> valid (ram k') T va = true -> sz = p_sz x /\ PTE_FLAGS (leaf (ram k') T va) <> PTE_V).
  { intros va Hva Hv. unfold valid in Hv. rewrite El in Hv |- *. destruct F2 as [[-> F2]|[_ F2]]; [|by rewrite (F2 va Hva : pte_flag _ _ = _) in Hv].
    destruct (F2 va Hva) as [E1 E2]. unfold valid in E1, E2. rewrite Hv, P2 in E1. rewrite P2 in E2. destruct (E2 (eq_sym E1)) as [-> _].
    split; [by destruct Hsz as [[_ ?]|[? _]]|]. apply S2; [do 2 right; done|done]. }
  split; [done|by destruct Hsz as [[_ ->]|[_ ->]]| | |].
  - intros va Hva Hv. destruct (decide (va ∈ pages_from 0 (upages (p_sz x)))) as [Hin|Hin]; [by apply Hlow|].
    assert (va = TRAMPOLINE \/ va = TRAPFRAME) as Hva'.
    { rewrite !elem_of_cons in Hva. destruct Hva as [?|[?|Hva]]; [tauto..|]. destruct Hsz as [[_ ->]|[_ ->]]; [done|by apply elem_of_nil in Hva]. }
    destruct (high_outside va Hva') as (V1 & V2 & V3). rewrite El, forked_high by done. by apply space_map_leaf.
  - destruct Hsz as [[_ ->]|[_ ->]]; [by eapply owned_keep; [apply F1|..]|]. split; [by intros q ?%elem_of_nil|constructor].
  - intros va V1 V2 V3. rewrite !elem_of_cons. destruct (decide (va ∈ pages_from 0 (upages (p_sz x)))) as [Hin|Hin].
    + destruct (Hlow va Hin V3) as [-> _]. tauto.
    + destruct (Hhigh va V1 V2 V3 Hin); tauto.
Qed.

Lemma forked_inside : inside (k_sy k) np (alter (alloc_proc (ms_nextpid (k_ms k)) tf root) np (procs k)) (k_fs k) (k_fi k)
  (set_nextpid (s32 (ms_nextpid (k_ms k) + 1)) (k_ms k)) k2.
Proof. eapply inside_mm; [apply (al_inside _ _ _ _ _ _ _ _ _ Hal)|apply (fk_mm _ _ _ _ _ _ _ _ _ _ _ Hfk)]. Qed.

(** Without memory for the copy, the child is freed. *)
Lemma fork_fail_rule (Q : Z -> kernel -> Prop) : r = -1 -> (forall k', undone k l k' -> (length l <= 6 + 3 * upages (p_sz x))%nat -> Q (-1) k') ->
  wp tn (freeproc np ;; release (L_proc np) ;; ret (-1)) Q k2.
Proof.
  intros Hr HQ. destruct (al_slot _ _ _ _ _ _ _ _ _ Hal) as [A1 A2]. destruct forked_tf as (F1 & F2 & _).
  pose proof (fp_ok _ _ _ _ _ _ Hpre) as Hok. pose proof (page_ok_pos _ (al_root _ _ _ _ _ _ _ _ _ Hal)).
  assert (Hsz : p_sz y = 0). { apply (fp_unused _ _ _ _ _ _ Hpre); [by eapply list_elem_of_lookup_2|done]. }
  assert (Hno : forall q, q ∉ frames (ram k2) T (pages_from 0 (upages (p_sz x)))).
  { intros q (va & V1 & V2 & _)%elem_of_frames. destruct (fk_result _ _ _ _ _ _ _ _ _ _ _ Hfk) as [[E _]|[_ E]]; [by rewrite Hr in E|].
    by rewrite E in V2. }
  apply wp_bind. eapply (freeproc_rule _ np Hok (procs k) y A1 _ _ _ _ l2 (is_table T)); [apply forked_inside| |apply Hal|done|done| |].
  - apply (fp_locks _ _ _ _ _ _ Hpre). by left.
  - right. split; [cbn; lia|]. exists T. cbn. rewrite Hsz. split.
    + apply forked_space; [apply Hfk|done|by right].
    + intros q. cbn. rewrite elem_of_nil. tauto.
  - intros k3 HI3 [(l4 & G1 & G2) G3]. apply wp_bind, (inside_release_rule _ _ Hok _ _ _ _ _ _ HI3 alloc_proc_free).
    pose proof (fk_short _ _ _ _ _ _ _ _ _ _ _ Hfk Hr). pose proof (al_count _ _ _ _ _ _ _ _ _ Hal).
    intros s' Hq Hp. apply wp_ret, HQ; [|lia]. eapply undone_intro; [exact A1|exact A2| |apply HI3|apply HI3|exact Hq|exact Hp| |]; [done|..].
    + exists l4. split; [done|]. intros q. rewrite G2, forked_pages. pose proof (Hno q). cbn. tauto.
    + intros q Q1 Q2. eapply same_page_trans; [by apply forked_same|]. rewrite forked_pages in Q2. apply G3; cbn; tauto.
Qed.

(** The trapframe of the parent is copied, and [fork] returns 0 in the child. *)
Lemma fork_mem_intro k' : r = 0 -> mm_freelist (k_mm k') = mm_freelist (k_mm k2) ->
  ram k' = wr64 (wr (ram k2) tf (rdn (ram k2) (p_trapframe x) 288)) (tf + 112) 0 -> fork_mem k x Tp l tf root T l2 k'.
Proof.
  intros Hr Hfl Hram. destruct forked_tf as (F1 & F2 & F3). destruct (al_tf _ _ _ _ _ _ _ _ _ Hal) as (Htf & _).
  destruct (fp_tf _ _ _ _ _ _ Hpre) as [Hx1 Hx2]. pose proof (proj2 (forked_pages tf) ltac:(by left)) as Hin.
  assert (Hs : forall q, q mod PGSIZE = 0 -> q <> tf -> same_page (ram k2) (ram k') q).
  { intros q Hq Hne. destruct (page_disjoint q tf Hq (proj1 Htf) Hne); rewrite Hram;
      (eapply same_page_trans; apply same_page_wr; rewrite ?length_rdn, ?length_le_bytes; unfold PGSIZE in *; lia). }
  destruct Hfk as [_ K1 K2 _ _ K4 _ K6 _ K8 _]. destruct alloc_parent as [_ P2]. destruct (fp_space _ _ _ _ _ _ Hpre) as [V _ _ S3 _].
  assert (Hf : free_pages k' l2). { eapply free_pages_ext; [apply K4|done|]. intros q Hq. apply Hs; [by apply (chain_page_ok _ _ _ _ (proj1 (vo_free _ _ _ _ K4)))|by intros ->]. }
  destruct (vm_ok_keep k2 k' Tp _ l2 l2 K1 Hf ltac:(done)) as [HvP HlP].
  { intros c Hc. apply Hs; [by eapply table_page; [apply K1|]|]. intros ->. by apply (vo_sep _ _ _ _ V tf). }
  destruct (vm_ok_keep k2 k' T _ l2 l2 K4 Hf ltac:(done)) as [HvT HlT].
  { intros c Hc. apply Hs; [by eapply table_page; [apply K4|]|]. by intros ->. }
  assert (Ef : frames (ram k') T (pages_from 0 (upages (p_sz x))) = frames (ram k2) T (pages_from 0 (upages (p_sz x)))) by (by apply frames_ext).
  split; rewrite ?Ef.
  - intros q Q1 Q2. eapply same_page_trans; [by apply forked_same|]. apply Hs; [done|]. by intros ->.
  - split; [done|]. intros va. by rewrite HlP, K2, P2.
  - apply forked_space; [done|done|by left].
  - intros va Hva. rewrite HlT. by apply forked_high; apply high_outside.
  - intros va Hva. destruct K8 as [[_ K8]|[E _]]; [|by rewrite Hr in E]. destruct (K8 va Hva) as [E1 E2]. unfold valid in *.
    rewrite HlT. rewrite P2 in E1, E2. split; [done|]. intros Hv. destruct (E2 Hv) as [E3 E4]. split; [done|]. intros a Ha.
    pose proof (proj1 (elem_of_pages_from 0 _ _ eq_refl) Hva) as [Va _].
    assert (Hc : frame (ram k2) T va ∈ frames (ram k2) T (pages_from 0 (upages (p_sz x)))).
    { apply elem_of_frames. exists va. unfold valid. by rewrite E1. }
    assert (Hp : frame (ram k) Tp va ∈ frames (ram k) Tp (pages_from 0 (upages (p_sz x)))) by (apply elem_of_frames; by exists va).
    destruct (ow_page _ _ _ _ K6 _ Hc) as ([C1 _] & _). destruct (ow_page _ _ _ _ S3 _ Hp) as ([D1 _] & D2 & _).
    rewrite (ubyte_keep (ram k2) (ram k') T va a Va Ha (HlT va)), (E4 a Ha) by (apply Hs; [done|]; by intros <-).
    apply (ubyte_keep (ram k) (ram k1) Tp va a Va Ha (P2 va)). by apply (al_same _ _ _ _ _ _ _ _ _ Hal).
  - rewrite Hram. by apply rd64_wr64_eq.
  - intros f Hne. destruct (tf_offset_range f) as (O1 & O2 & O3). specialize (O3 Hne). rewrite Hram, rd64_wr64_ne by lia.
    rewrite rd64_wr_copy by done. apply (same_page_rd64 (ram k)); [apply forked_same; [apply Hx1|done]|lia|unfold PGSIZE; lia].
  - done.
  - intros q. apply forked_pages.
Qed.

(** Each open file gets one more reference per descriptor. *)
Lemma fork_files_rule g ms0 (Q : unit -> kernel -> Prop) k3 : p_ofile (g y) = replicate NOFILE None ->
  inside (k_sy k) np (alter g np (procs k)) (k_fs k) (k_fi k) ms0 k3 ->
  (forall k', inside (k_sy k) np (alter (fun y => set_p_ofile (p_ofile x) (g y)) np (procs k)) (k_fs k)
     (ref_files (omap id (p_ofile x)) (k_fi k)) ms0 k' -> k_mm k' = k_mm k3 -> Q tt k') ->
  wp tn (for_all (seq 0 NOFILE) (fun i =>
          let* x := get_proc p in
          match p_ofile x !! i with
          | Some (Some f) =>
              let* f := filedup f in
              upd_proc np (fun y => set_p_ofile (<[i := Some f]> (p_ofile y)) y)
          | _ => ret tt
          end)) Q k3.
Proof.
  intros Hg HI HQ. destruct (al_slot _ _ _ _ _ _ _ _ _ Hal) as [A1 _]. pose proof (fp_ok _ _ _ _ _ _ Hpre) as Hok.
  destruct (fp_files _ _ _ _ _ _ Hpre) as [Hlen Hrefs].
  apply (wp_for_all (fun dn k' => inside (k_sy k) np
    (alter (fun y => set_p_ofile (take (length dn) (p_ofile x) ++ drop (length dn) (replicate NOFILE None)) (g y)) np (procs k)) (k_fs k)
    (ref_files (omap id (take (length dn) (p_ofile x))) (k_fi k)) ms0 k' /\ k_mm k' = k_mm k3)).
  - split; [|done]. cbn [length take app drop omap list_omap]. erewrite alter_ext_at; [exact HI|exact A1|]. rewrite <- Hg. by destruct (g y).
  - intros dn i rest k' E [HI' Em]. destruct (seq_split _ _ _ _ E) as [-> Hi]. set (i := length dn) in *.
    rewrite length_app. cbn [length]. rewrite Nat.add_1_r. fold i.
    apply wp_bind. eapply get_other_rule; [exact HI'|apply alloc_other|]. rewrite (fp_proc _ _ _ _ _ _ Hpre). cbn [default from_option id].
    destruct (lookup_lt_is_Some_2 (p_ofile x) i) as [v Hv]; [lia|]. rewrite Hv. pose proof (ofile_step _ i v Hlen Hv) as Es.
    rewrite (take_S_r _ _ _ Hv), omap_app. unfold ref_files. rewrite foldl_app. fold (ref_files (omap id (take i (p_ofile x))) (k_fi k)).
    rewrite <- (take_S_r _ _ _ Hv). destruct v as [f|]; cbn [omap list_omap id foldl].
    + apply wp_bind. eapply filedup_rule; [exact Hok|exact HI'| | |].
      * apply (fp_locks _ _ _ _ _ _ Hpre). do 2 right. by left.
      * etransitivity; [apply (Hrefs f); by eapply list_elem_of_lookup_2|]. apply ref_files_ge.
      * intros k4 HI4 E4. eapply upd_proc_rule; [exact HI4|]. intros k5 HI5 E5. split; [|congruence].
        erewrite alter_ext_at; [exact HI5|exact A1|]. rewrite Es. by destruct (g y).
    + apply wp_ret. split; [|done]. erewrite alter_ext_at; [exact HI'|exact A1|]. rewrite Es, list_insert_id; [done|].
      rewrite lookup_app_r; rewrite length_take; [|lia]. rewrite lookup_drop, lookup_replicate_2; [done|]. lia.
  - intros k' [HI' Em]. rewrite length_seq in HI'. rewrite take_ge in HI' by lia. apply HQ; [|done].
    erewrite alter_ext_at; [exact HI'|exact A1|]. rewrite drop_ge, app_nil_r by (rewrite length_replicate; lia). done.
Qed.

(** The rest of [fork], after the files. *)
Lemma fork_finish_rule g ms0 (Q : Z -> kernel -> Prop) k3 : g y = set_p_ofile (p_ofile x) (set_p_parent (Some p) (set_p_sz (p_sz x) (alloc_proc (ms_nextpid (k_ms k)) tf root y))) ->
  inside (k_sy k) np (alter g np (procs k)) (k_fs k) (ref_files (omap id (p_ofile x)) (k_fi k)) ms0 k3 ->
  (forall k', procs k' = alter (fork_proc p x (ms_nextpid (k_ms k)) tf root) np (procs k) -> quiet (set_procs (procs k') (k_sy k)) (k_sy k') ->
     k_fs k' = ref_inode cwd (k_fs k) -> k_fi k' = ref_files (omap id (p_ofile x)) (k_fi k) -> k_ms k' = ms0 -> k_mm k' = k_mm k3 ->
     Q (ms_nextpid (k_ms k)) k') ->
  wp tn (let* x := get_proc p in
        let* cwd := deref (p_cwd x) in
        let* cwd := idup cwd in
        upd_proc np (set_p_cwd (Some cwd)) ;;
        upd_proc np (fun y => set_p_name (safestrcpy (p_name y) (p_name x) 16) y) ;;
        let* nx := get_proc np in
        let pid := p_pid nx in
        upd_proc np (set_p_state RUNNABLE) ;;
        release (L_proc np) ;;
        ret pid) Q k3.
Proof.
  intros Hg HI HQ. destruct (al_slot _ _ _ _ _ _ _ _ _ Hal) as [A1 _]. pose proof (fp_ok _ _ _ _ _ _ Hpre) as Hok.
  apply wp_bind. eapply get_other_rule; [exact HI|apply alloc_other|]. rewrite (fp_proc _ _ _ _ _ _ Hpre). cbn [default from_option id].
  rewrite (fp_cwd _ _ _ _ _ _ Hpre). apply wp_bind, wp_ret, wp_bind.
  eapply idup_rule; [exact Hok|exact HI|apply (fp_locks _ _ _ _ _ _ Hpre); do 3 right; by left|]. intros k4 HI4 E4.
  apply wp_bind. eapply upd_proc_rule; [exact HI4|]. intros k5 HI5 E5. apply wp_bind. eapply upd_proc_rule; [exact HI5|]. intros k6 HI6 E6.
  apply wp_bind. eapply get_proc_rule; [exact A1|exact HI6|]. apply wp_bind. eapply upd_proc_rule; [exact HI6|]. intros k7 HI7 E7.
  apply wp_bind, (inside_release_rule _ _ Hok _ _ _ _ _ _ HI7 alloc_proc_free). intros s' Hq Hp. apply wp_ret. rewrite Hg.
  erewrite (alter_ext_at _ (fork_proc p x (ms_nextpid (k_ms k)) tf root)) in Hq, Hp.
  2,4: exact A1. 2,3: rewrite Hg; unfold fork_proc; by rewrite (fp_cwd _ _ _ _ _ _ Hpre).
  destruct HI7 as [_ _ I1 I2 I3]. assert (procs (set_sy s' k7) = sy_procs s') as Eps by done.
  apply HQ; rewrite ?Eps, ?Hp; [done|exact Hq|exact I1|exact I2|exact I3|]. kproj. congruence.
Qed.

(** [fork] after the copy. *)
Lemma fork_copied_rule (Q : Z -> kernel -> Prop) : r = 0 ->
  (forall k', fork_done k p x Tp l cwd np k' -> Q (ms_nextpid (k_ms k)) k') ->
  wp tn (upd_proc np (set_p_sz (p_sz x)) ;;
        upd_proc np (set_p_parent (Some p)) ;;
        let* ptf := load_bytes (p_trapframe x) (Z.to_nat sizeof_trapframe) in
        store_bytes tf ptf ;;
        tf_store np TF_a0 0 ;;
        for_all (seq 0 NOFILE) (fun i =>
          let* x := get_proc p in
          match p_ofile x !! i with
          | Some (Some f) =>
              let* f := filedup f in
              upd_proc np (fun y => set_p_ofile (<[i := Some f]> (p_ofile y)) y)
          | _ => ret tt
          end) ;;
        let* x := get_proc p in
        let* cwd := deref (p_cwd x) in
        let* cwd := idup cwd in
        upd_proc np (set_p_cwd (Some cwd)) ;;
        upd_proc np (fun y => set_p_name (safestrcpy (p_name y) (p_name x) 16) y) ;;
        let* nx := get_proc np in
        let pid := p_pid nx in
        upd_proc np (set_p_state RUNNABLE) ;;
        release (L_proc np) ;;
        ret pid) Q k2.
Proof.
  intros Hr HQ. destruct (al_slot _ _ _ _ _ _ _ _ _ Hal) as [A1 A2]. destruct (al_tf _ _ _ _ _ _ _ _ _ Hal) as (Htf & _).
  destruct (fp_tf _ _ _ _ _ _ Hpre) as [Hx _]. pose proof (page_ok_ram _ Htf) as [B1 B2]. pose proof (page_ok_ram _ Hx) as [C1 C2].
  apply wp_bind. eapply upd_proc_rule; [apply forked_inside|]. intros k3 HI3 E3.
  apply wp_bind. eapply upd_proc_rule; [exact HI3|]. intros k4 HI4 E4.
  apply wp_bind, wp_load_bytes; [done|change (Z.of_nat (Z.to_nat sizeof_trapframe)) with 288; unfold PGSIZE in *; lia|].
  change (Z.of_nat (Z.to_nat sizeof_trapframe)) with 288.
  apply wp_bind, wp_store_bytes; [done|rewrite length_rdn by done; unfold PGSIZE in *; lia|].
  set (m5 := wr _ _ _). apply (inside_ram _ _ _ _ _ _ _ m5) in HI4 as HI5. unfold tf_store.
  apply wp_bind, wp_bind. eapply get_proc_rule; [exact A1|exact HI5|]. change (tf_offset TF_a0) with 112.
  match goal with |- context [p_trapframe ?z] => change (p_trapframe z) with tf end.
  apply wp_store64; [lia|unfold PGSIZE in *; lia|]. set (m6 := wr64 _ _ _). apply (inside_ram _ _ _ _ _ _ _ m6) in HI5 as HI6. set (k6 := with_ram m6 _) in *.
  assert (Hm : fork_mem k x Tp l tf root T l2 k6).
  { assert (Er : ram k4 = ram k2) by (rewrite (mm_ram _ _ E4); by rewrite (mm_ram _ _ E3)). apply fork_mem_intro; [exact Hr| |].
    - change (mm_freelist (k_mm k4) = mm_freelist (k_mm k2)). by rewrite E4, E3.
    - change (m6 = wr64 (wr (ram k2) tf (rdn (ram k2) (p_trapframe x) 288)) (tf + 112) 0). subst m6 m5. by rewrite <- Er. }
  clearbody k6. clear - Hpre Hal Hm HI6 HQ A1 A2.
  apply wp_bind. eapply fork_files_rule; [|exact HI6|].
  { exact (proj2 (fp_unused _ _ _ _ _ _ Hpre y (list_elem_of_lookup_2 _ _ _ A1) A2)). }
  intros k7 HI7 E7. eapply fork_finish_rule; [|exact HI7|]; [done|].
  intros k' F1 F2 F3 F4 F5 F6. apply HQ. split; [|exists tf, root, T, l2; split; [|exact F1]|done..].
  - unfold proc_at. rewrite A1. split; [done|]. by eapply lookup_lt_Some.
  - eapply fork_mem_mm; [exact Hm|congruence].
Qed.

End forked.
End copy.

Lemma quiet_same_procs P s s' : quiet s s' -> quiet (set_procs P s) (set_procs P s').
Proof. intros [Q1 Q2 Q3 Q4 Q5 Q6 _]. by split. Qed.

(** Reading the current process first, with interrupts off. *)
Section read.
Context (k : kernel) (s' : sync).
Hypothesis Hq : quiet (k_sy k) s'.
Hypothesis Hp : sy_procs s' = procs k.

Lemma fork_pre_quiet p x T l cwd : fork_pre k p x T l cwd -> fork_pre (set_sy s' k) p x T l cwd.
Proof.
  intros [F1 F2 F3 F4 F5 F6 [[V1 V2 V3] S2 S3 S4 S5] F8 F9 F10 F11]. split; unfold procs; kproj; rewrite ?Hp; try done.
  - by eapply quiet_sync_ok.
  - by eapply quiet_procs_free.
  - intros lk Hl. eapply quiet_lock_free; [exact Hq|]. by apply F3.
  - by rewrite (q_proc _ _ Hq).
Qed.

Lemma undone_quiet l k' : undone (set_sy s' k) l k' -> undone k l k'.
Proof.
  intros [U1 U2 U3 U4 U5 U6 U7 U8]. unfold proc_at in *. assert (Ep : procs (set_sy s' k) = procs k) by (unfold procs at 1; kproj; done).
  rewrite Ep in *. split; try done. etransitivity; [|exact U1]. by apply quiet_same_procs.
Qed.

Lemma fork_done_quiet p x T l cwd np k' : fork_done (set_sy s' k) p x T l cwd np k' -> fork_done k p x T l cwd np k'.
Proof.
  intros [U1 (tf & root & Tc & l' & [M1 M2 M3 M4 M5 M6 M7 M8 M9] & U2') U3 U4 U5 U6]. unfold proc_at in *.
  assert (Ep : procs (set_sy s' k) = procs k) by (unfold procs at 1; kproj; done).
  rewrite Ep in *. split; try done; [exists tf, root, Tc, l'; split; [by split|done]|].
  etransitivity; [|exact U3]. by apply quiet_same_procs.
Qed.
End read.

Lemma fork_rule {tn : turn} k p x Tp l cwd (Q : Z -> kernel -> Prop) : fork_pre k p x Tp l cwd ->
  (forall k', undone k l k' -> scarce (6 + 3 * upages (p_sz x)) k l -> Q (-1) k') ->
  (forall np k', fork_done k p x Tp l cwd np k' -> Q (ms_nextpid (k_ms k)) k') ->
  wp tn fork Q k.
Proof.
  intros Hpre0 H0 H1. unfold fork. apply wp_bind, (wp_curproc p); [apply Hpre0|apply Hpre0|]. intros s' Hq Hp.
  pose proof (fork_pre_quiet _ _ Hq Hp _ _ _ _ _ Hpre0) as Hpre.
  assert (H0' : forall k', undone (set_sy s' k) l k' -> scarce (6 + 3 * upages (p_sz x)) (set_sy s' k) l -> Q (-1) k').
  { intros k' Hd Hs. apply H0; [by eapply undone_quiet|]. unfold scarce, proc_at, procs in *. kproj_in Hs. by rewrite Hp in Hs. }
  assert (H1' : forall np k', fork_done (set_sy s' k) p x Tp l cwd np k' -> Q (ms_nextpid (k_ms k)) k').
  { intros np k' Hd. apply (H1 np). by eapply fork_done_quiet. }
  change (ms_nextpid (k_ms k)) with (ms_nextpid (k_ms (set_sy s' k))) in H1'. clear H0 H1 Hpre0. generalize dependent (set_sy s' k). clear - LO.
  intros k Hpre H0 H1. pose proof (fp_ok _ _ _ _ _ _ Hpre) as Hok. pose proof (fp_free _ _ _ _ _ _ Hpre) as Hpf. pose proof (fp_locks _ _ _ _ _ _ Hpre) as Hlk.
  apply wp_bind, (allocproc_rule k l Hok Hpf); [apply Hlk; by left|apply Hlk; do 1 right; by left|apply (fp_space _ _ _ _ _ _ Hpre)| |].
  { intros k' Hu [Hs|Hs]; apply wp_ret, H0; [done|by left|done|right; lia]. }
  intros np y tf root Tc l1 k1 Hal. destruct (al_slot _ _ _ _ _ _ _ _ _ Hal) as [A1 _].
  apply wp_bind. eapply get_other_rule; [apply Hal|by eapply alloc_other|]. rewrite (fp_proc _ _ _ _ _ _ Hpre). cbn [default from_option id].
  apply wp_bind. eapply get_proc_rule; [exact A1|apply Hal|].
  pose proof (alloc_copy_pre k p x Tp l cwd Hpre np y tf root Tc l1 k1 Hal) as Hcp.
  destruct (fp_space _ _ _ _ _ _ Hpre) as [_ S1 _ _ _].
  apply wp_bind, (uvmcopy_rule k1 Tp Tc (p_pagetable x) root l1 (upages (p_sz x)) Hcp (p_sz x)); [by eapply inside_ok, Hal| |lia|done|].
  { eapply inside_free; [apply Hal| |done]. apply Hlk. by left. }
  intros r T l2 k2 Hfk. destruct (fk_result _ _ _ _ _ _ _ _ _ _ _ Hfk) as [[Er _]|[Er _]]; rewrite Er; cbn [Z.ltb Z.compare].
  - by eapply fork_copied_rule; [..|apply H1].
  - eapply fork_fail_rule; [done..|]. intros k' Hd Hc. apply H0; [done|by right].
Qed.

(** C13: [fork] either returns the number of a child that has a copy of its
    parent's memory with the same permissions, in pages of its own, the same
    registers except for a 0 as its result, the same size, directory, name and
    open files, each with a reference more, and that is RUNNABLE, or it returns
    -1 and every page it allocated is free again and the entry it took is
    unused; this happens only when no entry is unused or few pages are free.
    The parent's memory does not change. *)
Theorem fork_copies k p x T l cwd : fork_pre k p x T l cwd ->
  exists r k', (forall e, fork e k = Ret r e k') /\
    (r = -1 /\ undone k l k' /\ scarce (6 + 3 * upages (p_sz x)) k l \/ r = ms_nextpid (k_ms k) /\ exists np, fork_done k p x T l cwd np k').
Proof.
  intros Hpre. apply (wp_exact fork (fun r k' => r = -1 /\ undone k l k' /\ scarce (6 + 3 * upages (p_sz x)) k l \/ r = ms_nextpid (k_ms k) /\ exists np, fork_done k p x T l cwd np k')).
  eapply fork_rule; eauto.
Qed.
End fork.

(** ** Example: a process with one page and one file, open twice *)

#[local] Existing Instance sample_linker.
#[local] Existing Instance sample_linker_ok.

Fixpoint link_pages (m : gmap Z Z) (l : list Z) : gmap Z Z :=
  match l with
  | a :: (b :: _) as rest => link_pages (wr64 m (a + 8 * 0) b) rest
  | _ => m
  end.

Definition start_l : list Z := pages_from 0x87fe0000 10.
Definition start_proc : proc :=
  set_p_state RUNNING (set_p_sz 4096 (set_p_pagetable pg_root (set_p_trapframe 0x87ff5000 (set_p_cwd (Some 0%nat)
    (set_p_ofile (Some 0%nat :: Some 0%nat :: replicate (NOFILE - 2) None) zero_proc))))).
Definition start_k : kernel :=
  let files := mk_files (<[0%nat := set_f_ref 2 zero_file]> (fi_ftable (k_fi sample))) (fi_pipes (k_fi sample)) (fi_devsw (k_fi sample)) in
  set_sy (set_procs (start_proc :: repeat zero_proc (NPROC - 1)) (k_sy sample))
    (set_fi files (set_mm (mk_memory (link_pages sample_m start_l) 0x87fe0000 0) sample)).

Lemma start_apart q : q ∈ start_l -> q <> 0x87ff5000 /\ q <> pg_frame /\ ~ is_table sample_T q.
Proof.
  intros Hq. assert (q < 0x87ff0000) by (apply elem_of_pages_from in Hq; [unfold PGSIZE in *; lia|done]).
  split_and!; [unfold pg_frame; lia..|]. intros [p Hp].
  apply sample_T_cases in Hp as [[_ ->]|[[_ ->]|[_ ->]]]; unfold pg_root, pg_l1, pg_l0 in *; lia.
Qed.

Lemma start_free : free_pages start_k start_l.
Proof. split; [by vm_compute|]. apply (bool_decide_unpack _). by vm_compute. Qed.

Lemma link_pages_same l m q : (forall a, a ∈ l -> a mod PGSIZE = 0) -> q mod PGSIZE = 0 -> q ∉ l -> same_page m (link_pages m l) q.
Proof.
  revert m. induction l as [|a [|b l] IH]; intros m Hl Hq Hn; [by intros ??..|]. cbn [link_pages]. rewrite not_elem_of_cons in Hn.
  eapply same_page_trans; [apply (same_page_word m a 0 b q)|apply IH]; try done; try tauto.
  - apply Hl. left.
  - intros c Hc. apply Hl. by right.
Qed.

Lemma start_parent : vm_ok start_k sample_T pg_root start_l /\ forall va, leaf (ram start_k) sample_T va = leaf (ram sample_vm) sample_T va.
Proof.
  assert (Hs : forall c, is_table sample_T c -> same_page (ram sample_vm) (ram start_k) c).
  { intros c Hc. apply link_pages_same; [|by eapply table_page; [apply sample_vm_ok|]|by intros (_ & _ & ?)%start_apart].
    intros a [Ha _]%elem_of_pages_from; done. }
  destruct (pt_ok_ext _ _ _ _ (vo_pt _ _ _ _ (proj1 sample_vm_ok)) Hs) as [P1 P2]. split; [|done].
  split; [apply start_free|done|]. by intros c Hc (_ & _ & ?)%start_apart.
Qed.

Lemma start_range va : va ∈ TRAMPOLINE :: TRAPFRAME :: pages_from 0 (upages 4096) -> 0 <= va < MAXVA /\ va mod PGSIZE = 0.
Proof.
  change (pages_from 0 (upages 4096)) with [0]. rewrite !elem_of_cons, elem_of_nil. by intros [->|[->|[->|[]]]].
Qed.

Lemma start_space : proc_space start_k sample_T pg_root start_l 4096.
Proof.
  destruct start_parent as [P1 P2].
  assert (Hf : frames (ram start_k) sample_T (pages_from 0 1) = [pg_frame]).
  { rewrite <- sample_frames. apply frames_ext. intros va _. apply P2. }
  split; [exact P1|change TRAPFRAME with 274877898752; lia|..].
  - intros va Hva Hv. unfold valid in Hv. rewrite P2 in Hv |- *. assert (va = 0) as ->; [|by rewrite sample_frame0].
    destruct (start_range va Hva) as [V1 V2]. pose proof (sample_valid va V1 V2) as E. unfold valid in E. rewrite Hv in E. by apply symmetry, bool_decide_eq_true in E.
  - change (upages 4096) with 1%nat. split; rewrite Hf; [|apply NoDup_singleton]. intros q ->%list_elem_of_singleton.
    split; [apply sample_pages|]. split; [|apply sample_not_table; left].
    intros (_ & Hne & _)%start_apart. exact (Hne eq_refl).
  - intros va V1 V2 Hv. unfold valid in Hv. rewrite P2 in Hv. pose proof (sample_valid va V1 V2) as E. unfold valid in E. rewrite Hv in E.
    apply symmetry, bool_decide_eq_true in E as ->. right. right. left.
Qed.

Lemma fork_copies_witness : exists k' np, fork [] start_k = Ret 1 [] k' /\
  fork_done start_k 0 start_proc sample_T start_l 0 np k'.
Proof.
  destruct (fork_copies start_k 0 start_proc sample_T start_l 0) as (r & k' & H1 & H2).
  - split.
    + split; [done|]. cbn. lia.
    + split; [done|]. intros i Hi. apply sample_procs_free. exact Hi.
    + intros lk Hlk. apply sample_free. rewrite !elem_of_cons, elem_of_nil in Hlk.
      destruct Hlk as [->|[->|[->|[->|[]]]]]; apply (bool_decide_unpack _); by vm_compute.
    + done.
    + done.
    + done.
    + apply start_space.
    + split; [by vm_compute|]. by intros (? & _)%start_apart.
    + split; [done|]. intros f Hf. assert (f = 0%nat) as ->; [|done]. cbn in Hf. rewrite !elem_of_cons, elem_of_nil in Hf.
      repeat destruct Hf as [Hf|Hf]; by simplify_eq.
    + done.
    + intros y [->|Hy]%elem_of_cons Hu; [done|]. apply list_elem_of_In, repeat_spec in Hy as ->. done.
  - destruct H2 as [(_ & _ & [Hf|Hf])|[-> [np H2]]]; [by destruct (Hf 1%nat ltac:(cbn; lia))|change (10 <= 9)%nat in Hf; lia|].
    exists k', np. exact (conj (H1 []) H2).
Defined.
