(* ===== verification/WaitSpec.v ===== *)
(** * Reaping a child

    [wait] with a child that has exited: its status goes to the parent, and
    its entry of the table and all its memory are free again. *)

From S2P Require Import Prelude Defs State Logic Memory Spinlock Sched Kalloc Vm PageTable UserMem Bio Log Fs Pipe File Proc AddrSpace ForkSpec.

Section wait.
Context {D : DiskDriver} {L : Linker} {LO : LinkerOk L}.

(** The pages of the process [y] with the tables [T]. *)
Definition proc_pages (m : gmap Z Z) (T : gmap (list Z) Z) (y : proc) (q : Z) : Prop :=
  q = p_trapframe y \/ is_table T q \/ q ∈ frames m T (pages_from 0 (upages (p_sz y))).

(** The status fits in user memory of [x], whose memory is apart from that of
    [y]. *)
Record status_ok (k : kernel) (x y : proc) (Tp Tc : gmap (list Z) Z) (l : list Z) (addr : Z) : Prop := {
  so_space : space_ok k Tp (p_pagetable x) l;
  so_range : user_range (ram k) Tp addr 4;
  so_tables c : is_table Tp c -> ~ proc_pages (ram k) Tc y c;
  so_pages a : is_user (ram k) Tp a -> ~ proc_pages (ram k) Tc y (frame (ram k) Tp (pg a)) }.

(** Process [p] is running; its child [np] is the first one in the table that
    has exited. *)
Record wait_pre (k : kernel) (p : nat) (x : proc) (np : nat) (y : proc) (Tp Tc : gmap (list Z) Z) (l : list Z) (addr : Z) : Prop := {
  wq_ok : sync_ok (k_sy k);
  wq_free : procs_free (k_sy k);
  wq_kmem : lock_free (k_sy k) L_kmem;
  wq_cpu : c_proc (sy_cpu (k_sy k)) = Some p;
  wq_proc : procs k !! p = Some x;
  wq_self : p_parent x <> Some p;
  wq_child : procs k !! np = Some y;
  wq_parent : p_parent y = Some p;
  wq_zombie : p_state y = ZOMBIE;
  wq_first j : (j < np)%nat -> p_parent (proc_at k j) = Some p -> p_state (proc_at k j) <> ZOMBIE;
  wq_space : proc_space k Tc (p_pagetable y) l (p_sz y);
  wq_tf : page_ok (p_trapframe y) /\ p_trapframe y ∉ l /\ ~ is_table Tc (p_trapframe y) /\
    p_trapframe y ∉ frames (ram k) Tc (pages_from 0 (upages (p_sz y)));
  wq_status : addr <> 0 -> status_ok k x y Tp Tc l addr }.

Record reaped (k : kernel) (x : proc) (np : nat) (y : proc) (Tp Tc : gmap (list Z) Z) (l : list Z) (addr : Z) (k' : kernel) : Prop := {
  rp_procs : procs k' = alter free_proc np (procs k);
  rp_sync : quiet (set_procs (procs k') (k_sy k)) (k_sy k');
  rp_fs : k_fs k' = k_fs k;
  rp_fi : k_fi k' = k_fi k;
  rp_ms : k_ms k' = k_ms k;
  rp_free : exists l', free_pages k' l' /\ forall q, q ∈ l' <-> q ∈ l \/ proc_pages (ram k) Tc y q;
  rp_same q : q mod PGSIZE = 0 -> q ∉ l -> ~ proc_pages (ram k) Tc y q ->
    (addr <> 0 -> forall a, addr <= a < addr + 4 -> frame (ram k) Tp (pg a) <> q) -> same_page (ram k) (ram k') q;
  rp_status a : addr <> 0 -> is_user (ram k) Tp a ->
    ubyte (ram k') Tp a = over addr (le_bytes 4 (u32 (p_xstate y))) (ubyte (ram k) Tp) a }.

Section reap.
Context {tn : turn} (k : kernel) (p : nat) (x : proc) (np : nat) (y : proc) (Tp Tc : gmap (list Z) Z) (l : list Z) (addr : Z).
Hypothesis Hpre : wait_pre k p x np y Tp Tc l addr.

Lemma child_other : p <> np.
Proof.
  intros E. pose proof (wq_proc _ _ _ _ _ _ _ _ _ Hpre) as H1. rewrite E, (wq_child _ _ _ _ _ _ _ _ _ Hpre) in H1. injection H1 as H1.
  apply (wq_self _ _ _ _ _ _ _ _ _ Hpre). rewrite <- H1, E, <- E. apply (wq_parent _ _ _ _ _ _ _ _ _ Hpre).
Qed.

(** What copying the status out leaves of the memory. *)
Record status_out (k1 : kernel) : Prop := {
  st_list : mm_freelist (k_mm k1) = mm_freelist (k_mm k);
  st_free q : q ∈ l -> same_page (ram k) (ram k1) q;
  st_child q : q mod PGSIZE = 0 -> proc_pages (ram k) Tc y q -> same_page (ram k) (ram k1) q;
  st_same q : q mod PGSIZE = 0 -> (addr <> 0 -> forall a, addr <= a < addr + 4 -> frame (ram k) Tp (pg a) <> q) -> same_page (ram k) (ram k1) q;
  st_table c : addr <> 0 -> is_table Tp c -> same_page (ram k) (ram k1) c;
  st_byte a : addr <> 0 -> is_user (ram k) Tp a ->
    ubyte (ram k1) Tp a = over addr (le_bytes 4 (u32 (p_xstate y))) (ubyte (ram k) Tp) a }.

Lemma status_rule (Q : Z -> kernel -> Prop) k1 :
  k_mm k1 = k_mm k -> (forall m, status_out (with_ram m k1) -> Q 0 (with_ram m k1)) ->
  wp tn (if negb (addr =? 0) then copyout (p_pagetable x) addr (le_bytes 4 (u32 (p_xstate y))) else ret 0) Q k1.
Proof.
  intros E HQ. pose proof (mm_ram _ _ E) as Er. destruct (Z.eqb_spec addr 0) as [Ha|Ha]; cbn [negb].
  { apply wp_ret. assert (Ek : k1 = with_ram (ram k1) k1) by (unfold with_ram, ram; by destruct k1 as [? [] ? ? ?]).
    rewrite Ek. apply HQ. rewrite <- Ek. split; rewrite ?Er, ?E; [done|by intros ????..|done|done]. }
  destruct (wq_status _ _ _ _ _ _ _ _ _ Hpre Ha) as [[V1 V2 V3] S2 S3 S4].
  apply (copyout_rule Tp (p_pagetable x) l).
  - split; rewrite ?Er; try done. by eapply vm_ok_mm.
  - rewrite Er. exact S2.
  - intros m Hw. rewrite Er in Hw. apply HQ. change (ram (with_ram m k1)) with m. destruct Hw as [W1 W2 W3 W4 W5].
    change (Z.of_nat (length (le_bytes 4 (u32 (p_xstate y))))) with 4 in W5. destruct S2 as (R1 & R2 & R3).
    split; change (ram (with_ram m k1)) with m; [|exact W3| | |intros c _; apply W2|intros a _; apply W4].
    + unfold with_ram. kproj. cbn. by rewrite E.
    + intros q Q1 Q2. apply W5; [done|]. intros a A <-. revert Q2. apply S4. split; [lia|by apply R3].
    + intros q Q1 Q2. apply W5; [done|]. intros a A. by apply Q2.
Qed.

Lemma status_space k1 : status_out k1 -> proc_space k1 Tc (p_pagetable y) l (p_sz y) /\
  frames (ram k1) Tc (pages_from 0 (upages (p_sz y))) = frames (ram k) Tc (pages_from 0 (upages (p_sz y))).
Proof.
  intros [O1 O2 O3 _ _ _]. destruct (wq_space _ _ _ _ _ _ _ _ _ Hpre) as [V S1 S2 S3 S4].
  destruct (vm_ok_keep k k1 Tc _ l l V) as [V' Hl]; [by eapply free_pages_ext; [apply V|..]|done| |].
  { intros c Hc. apply O3; [by eapply table_page; [apply V|]|]. right. by left. }
  destruct (owned_keep _ (ram k1) _ _ l _ S3 ltac:(done) Hl) as [Ef Ho]. split; [|done]. split; [done|done| |done|].
  - intros va. unfold valid. rewrite Hl. apply S2.
  - intros va. unfold valid. rewrite Hl. apply S4.
Qed.

(** Freeing the child leaves the memory of the parent alone. *)
Lemma keep_user_byte k1 m a : addr <> 0 -> is_user (ram k) Tp a -> (forall c, is_table Tp c -> same_page (ram k) (ram k1) c) ->
  (forall q, q mod PGSIZE = 0 -> ~ proc_pages (ram k) Tc y q -> same_page (ram k1) m q) -> ubyte m Tp a = ubyte (ram k1) Tp a.
Proof.
  intros Ha Hu H1 H2. destruct (wq_status _ _ _ _ _ _ _ _ _ Hpre Ha) as [[V1 V2 V3] S2 S3 S4].
  destruct (pt_ok_ext _ _ _ _ (vo_pt _ _ _ _ V1) H1) as [P1 P2].
  destruct (pt_ok_ext (ram k1) m _ _ P1) as [_ P3].
  { intros c Hc. apply H2; [by eapply table_page; [apply V1|]|by apply S3]. }
  pose proof Hu as [U1 U2]. destruct (pg_spec a ltac:(lia)) as (G1 & G2 & G3). destruct (V2 (pg a)) as ([F1 _] & _); [lia|done|done|].
  apply (ubyte_keep _ _ _ (pg a)); [done|lia|by rewrite P3|]. unfold frame. rewrite P2. apply H2; [done|]. by apply S4.
Qed.

(** The child found: everything until its lock is released. *)
Lemma reap_rule s0 (Q : unit -> kernel -> Prop) k1 :
  sync_ok s0 -> lock_free s0 L_kmem -> inside s0 np (procs k) (k_fs k) (k_fi k) (k_ms k) k1 -> status_out k1 ->
  (forall k', inside s0 np (alter free_proc np (procs k)) (k_fs k) (k_fi k) (k_ms k) k' ->
     (forall s', quiet (set_procs (procs k') (k_sy k)) s' -> sy_procs s' = procs k' -> reaped k x np y Tp Tc l addr (set_sy s' k')) -> Q tt k') ->
  wp tn (freeproc np) Q k1.
Proof.
  intros Hok Hlk HI Hs HQ. pose proof (wq_child _ _ _ _ _ _ _ _ _ Hpre) as Hy. destruct (wq_tf _ _ _ _ _ _ _ _ _ Hpre) as (T1 & T2 & T3 & T4).
  destruct (status_space k1 Hs) as [Hsp Ef]. pose proof (pt_root _ _ _ (vo_pt _ _ _ _ (ps_vm _ _ _ _ _ Hsp))) as Hr.
  pose proof (page_ok_pos _ (pt_page _ _ _ (vo_pt _ _ _ _ (ps_vm _ _ _ _ _ Hsp)) _ _ Hr)).
  pose proof (alter_id_at (fun x => x) _ _ _ Hy eq_refl) as Eid. rewrite <- Eid in HI.
  eapply (freeproc_rule s0 np Hok (procs k) y Hy (fun x => x) _ _ _ l
    (fun q => is_table Tc q \/ q ∈ frames (ram k) Tc (pages_from 0 (upages (p_sz y))))); [exact HI|exact Hlk|exact T1|exact T2|tauto| |].
  - right. split; [lia|]. exists Tc. split; [done|]. by rewrite Ef.
  - intros k' HI' [(l' & F1 & F2) F3]. apply HQ; [exact HI'|]. intros s' Hq Hp. destruct HI' as [_ I2 I3 I4 I5].
    destruct Hs as [O1 O2 O3 O4 O5 O6].
    assert (Ep : procs (set_sy s' k') = alter free_proc np (procs k)) by (unfold procs at 1; kproj; rewrite Hp; exact I2).
    split; rewrite ?Ep; try done.
    + rewrite I2 in Hq. exact Hq.
    + exists l'. split; [done|]. intros q. rewrite F2. unfold proc_pages. tauto.
    + intros q Q1 Q2 Q3 Q4. change (ram (set_sy s' k')) with (ram k'). eapply same_page_trans; [by apply O4|].
      unfold proc_pages in Q3. apply F3; [done|tauto..].
    + intros a A1 A2. rewrite <- (O6 a A1 A2). change (ram (set_sy s' k')) with (ram k').
      apply (keep_user_byte k1); [done..|by intros c; apply O5|]. intros q Q1 Q2. apply F3; unfold proc_pages in Q2; tauto.
Qed.

(** The scan, with the lock of [p] held. *)
Section scan.
Context (s1 : sync).
Hypothesis Hq1 : quiet (k_sy k) s1.
Hypothesis Hp1 : sy_procs s1 = procs k.
Abbreviation s0 := (sy_acquire (L_proc p) s1).

Lemma scan_ok : sync_ok s0.
Proof. apply sync_ok_acquire. eapply quiet_sync_ok; [exact Hq1|apply Hpre]. Qed.

Lemma scan_free j z : procs k !! j = Some z -> j <> p -> lock_free s0 (L_proc j).
Proof.
  intros Hz Hj. apply lock_free_acquire; [congruence|]. eapply quiet_lock_free; [exact Hq1|].
  destruct (wq_free _ _ _ _ _ _ _ _ _ Hpre) as [Hn Hf]. apply Hf. rewrite <- Hn. by apply lookup_lt_Some in Hz.
Qed.

Lemma scan_own : lock_free s1 (L_proc p).
Proof.
  eapply quiet_lock_free; [exact Hq1|]. destruct (wq_free _ _ _ _ _ _ _ _ _ Hpre) as [Hn Hf]. apply Hf. rewrite <- Hn.
  eapply lookup_lt_Some, (wq_proc _ _ _ _ _ _ _ _ _ Hpre).
Qed.

Lemma found_rule s' rest hk (Q : Z + bool -> kernel -> Prop) :
  quiet s0 s' -> sy_procs s' = procs k ->
  (forall k', reaped k x np y Tp Tc l addr k' -> Q (inl (p_pid y)) k') ->
  wp tn (wait_scan (np :: rest) p addr hk) Q (set_sy s' k).
Proof.
  intros Hq Hp HQ. cbn [wait_scan]. pose proof (wq_child _ _ _ _ _ _ _ _ _ Hpre) as Hy. pose proof scan_ok as Hok.
  assert (Ey : proc_at (set_sy s' k) np = y) by (unfold proc_at, procs; kproj; by rewrite Hp, Hy).
  apply wp_bind, wp_gets. rewrite Ey, bool_decide_true by apply (wq_parent _ _ _ _ _ _ _ _ _ Hpre).
  pose proof (scan_free np y Hy (not_eq_sym child_other)) as Hf.
  apply wp_bind, wp_acquire; [by eapply quiet_lock_free|]. set (k2 := set_sy _ _).
  assert (HI : inside s0 np (procs k) (k_fs k) (k_fi k) (k_ms k) k2).
  { split; try done. rewrite <- Hp1. change (set_procs (sy_procs s1) s0) with s0. by apply quiet_acquire. }
  assert (Em : k_mm k2 = k_mm k) by done. clearbody k2. apply wp_bind, wp_gets.
  assert (Ey2 : proc_at k2 np = y) by (by rewrite (inside_proc _ _ _ _ _ _ _ _ HI), Hy).
  assert (Ex2 : proc_at k2 p = x) by (by rewrite (inside_proc _ _ _ _ _ _ _ _ HI), (wq_proc _ _ _ _ _ _ _ _ _ Hpre)).
  rewrite Ey2, bool_decide_true by apply (wq_zombie _ _ _ _ _ _ _ _ _ Hpre). apply wp_bind, wp_gets. rewrite Ex2.
  apply wp_bind, status_rule; [done|]. intros m Hs. cbn [Z.ltb Z.compare].
  apply wp_bind, (reap_rule s0); [done| |by apply inside_ram|done|].
  { apply lock_free_acquire; [done|]. eapply quiet_lock_free; [exact Hq1|]. apply Hpre. }
  intros k3 HI3 HR. apply wp_bind, (inside_release_rule _ _ Hok _ _ _ _ _ _ HI3 Hf). intros s2 Hq2 Hp2.
  assert (Hqp : quiet (set_procs (procs k3) (k_sy k)) (set_procs (procs k3) s1)) by (by apply quiet_same_procs).
  rewrite <- (in_procs _ _ _ _ _ _ _ HI3) in Hq2, Hp2.
  apply wp_bind, (wp_release _ (set_procs (procs k3) s1)).
  - destruct (quiet_sync_ok _ _ Hq1 (wq_ok _ _ _ _ _ _ _ _ _ Hpre)). by split.
  - apply scan_own.
  - exact Hq2.
  - intros s3 Hq3 Hp3. apply wp_ret, HQ. change (set_sy s3 (set_sy s2 k3)) with (set_sy s3 k3). apply HR; [by etransitivity|].
    rewrite Hp3. exact Hp2.
Qed.

Lemma scan_rule n i s' hk (Q : Z + bool -> kernel -> Prop) :
  (i <= np < i + n)%nat -> quiet s0 s' -> sy_procs s' = procs k ->
  (forall k', reaped k x np y Tp Tc l addr k' -> Q (inl (p_pid y)) k') ->
  wp tn (wait_scan (seq i n) p addr hk) Q (set_sy s' k).
Proof.
  revert i s' hk. induction n as [|n IH]; intros i s' hk Hi Hq Hp HQ; [lia|]. cbn [seq].
  destruct (decide (i = np)) as [->|Hne]; [by apply found_rule|]. cbn [wait_scan].
  destruct (lookup_lt_is_Some_2 (procs k) i) as [z Hz]. { pose proof (lookup_lt_Some _ _ _ (wq_child _ _ _ _ _ _ _ _ _ Hpre)). lia. }
  assert (Ez : forall s, sy_procs s = procs k -> proc_at (set_sy s k) i = z).
  { intros s Hs. unfold proc_at, procs. kproj. by rewrite Hs, Hz. }
  apply wp_bind, wp_gets. rewrite Ez by done. case_bool_decide as Hpar; [|apply IH; [lia|done..]].
  assert (i <> p). { intros ->. pose proof (wq_proc _ _ _ _ _ _ _ _ _ Hpre) as Hx. rewrite Hz in Hx. injection Hx as ->.
    by apply (wq_self _ _ _ _ _ _ _ _ _ Hpre). }
  assert (Hf : lock_free s' (L_proc i)) by (eapply quiet_lock_free; [exact Hq|by eapply scan_free]).
  apply wp_bind, wp_acquire; [done|]. apply wp_bind, wp_gets. kproj.
  change (set_sy (sy_acquire (L_proc i) s') (set_sy s' k)) with (set_sy (sy_acquire (L_proc i) s') k). rewrite Ez by done.
  rewrite bool_decide_false.
  2:{ pose proof (wq_first _ _ _ _ _ _ _ _ _ Hpre i ltac:(lia)) as Hn. unfold proc_at in Hn. rewrite Hz in Hn. by apply Hn. }
  apply wp_bind, (wp_release _ s'); [eapply quiet_sync_ok; [exact Hq|apply scan_ok]|done|done|].
  intros s2 Hq2 Hp2. apply IH; [lia|by etransitivity|by rewrite Hp2|done].
Qed.

End scan.

End reap.

Lemma wait_rule {tn : turn} k p x np y Tp Tc l addr (Q : Z -> kernel -> Prop) : wait_pre k p x np y Tp Tc l addr ->
  (forall k', reaped k x np y Tp Tc l addr k' -> Q (p_pid y) k') -> wp tn (wait addr) Q k.
Proof.
  intros Hpre HQ. unfold wait. apply wp_bind, (wp_curproc p); [apply Hpre|apply Hpre|]. intros s1 Hq1 Hp1.
  apply wp_bind, wp_acquire; [by eapply scan_own|]. apply wp_wait_loop, wp_bind. kproj.
  change (set_sy (sy_acquire (L_proc p) s1) (set_sy s1 k)) with (set_sy (sy_acquire (L_proc p) s1) k).
  eapply scan_rule; [exact Hpre|exact Hq1|exact Hp1| |done|exact Hp1|intros k' Hr; by apply wp_ret, HQ].
  destruct (wq_free _ _ _ _ _ _ _ _ _ Hpre) as [Hn _]. pose proof (lookup_lt_Some _ _ _ (wq_child _ _ _ _ _ _ _ _ _ Hpre)) as Hl.
  unfold procs in Hl. lia.
Qed.

(** C14: when a child has exited, [wait] returns its number and stores its
    status at the address, if one is given, and nothing else in the memory of
    the parent; the entry of the first such child is unused again and its
    trapframe, its tables and its pages are free, each once, like the pages
    that were free before; all other memory is as it was and all locks are
    released. *)
Theorem wait_reaps k p x np y Tp Tc l addr : wait_pre k p x np y Tp Tc l addr ->
  exists k', (forall e, wait addr e k = Ret (p_pid y) e k') /\ reaped k x np y Tp Tc l addr k'.
Proof.
  intros Hpre. destruct (wp_exact (wait addr) (fun r k' => r = p_pid y /\ reaped k x np y Tp Tc l addr k') k) as (r & k' & H1 & -> & H2);
    [|by exists k']. eapply wait_rule; eauto.
Qed.

(** Without children [wait] fails. *)
Lemma wait_childless k p addr :
  sync_ok (k_sy k) -> lock_free (k_sy k) (L_proc p) -> c_proc (sy_cpu (k_sy k)) = Some p ->
  (forall j, p_parent (proc_at k j) <> Some p) ->
  exists s', (forall e, wait addr e k = Ret (-1) e (set_sy s' k)) /\ quiet (k_sy k) s' /\ sy_procs s' = procs k.
Proof.
  intros Hok Hf Hc Hn. destruct (wp_exact (wait addr) (fun r k' => r = -1 /\ exists s', k' = set_sy s' k /\ quiet (k_sy k) s' /\ sy_procs s' = procs k) k)
    as (r & k' & H1 & -> & s' & -> & H2); [|by exists s'].
  unfold wait. apply wp_bind, (wp_curproc p); [done..|]. intros s1 Hq1 Hp1.
  apply wp_bind, wp_acquire; [by eapply quiet_lock_free|]. apply wp_wait_loop, wp_bind. kproj.
  change (set_sy (sy_acquire (L_proc p) s1) (set_sy s1 k)) with (set_sy (sy_acquire (L_proc p) s1) k).
  assert (Hs : forall l (Q : Z + bool -> kernel -> Prop), Q (inr false) (set_sy (sy_acquire (L_proc p) s1) k) ->
    wp no_turn (wait_scan l p addr false) Q (set_sy (sy_acquire (L_proc p) s1) k)).
  { intros l Q HQ. induction l as [|i l IH]; cbn [wait_scan]; [by apply wp_ret|]. apply wp_bind, wp_gets. rewrite bool_decide_false; [done|].
    unfold proc_at, procs. kproj. cbn [sy_acquire]. specialize (Hn i). unfold proc_at in Hn. change (sy_procs (sy_acquire (L_proc p) s1)) with (sy_procs s1). by rewrite Hp1. }
  apply Hs, wp_bind, wp_gets. cbn [negb orb]. apply wp_bind, (wp_release _ s1); [by eapply quiet_sync_ok|by eapply quiet_lock_free|done|].
  intros s2 Hq2 Hp2. apply wp_ret. split; [done|]. exists s2. split; [done|]. split; [by etransitivity|]. rewrite Hp2. exact Hp1.
Qed.

End wait.

(** ** Example: a child without user memory *)

#[local] Existing Instance sample_linker.
#[local] Existing Instance sample_linker_ok.

Definition parent_proc : proc := set_p_state RUNNING (set_p_sz 4096 (set_p_pagetable pg_root zero_proc)).
Definition zombie_proc : proc :=
  set_p_state ZOMBIE (set_p_parent (Some 0%nat) (set_p_pid 7 (set_p_xstate 3 (set_p_pagetable child_root (set_p_trapframe 0x87ff5000 zero_proc))))).
Definition zombie_k : kernel := set_sy (set_procs (parent_proc :: zombie_proc :: repeat zero_proc (NPROC - 2)) (k_sy sample)) fork_k.

Lemma zombie_pages q : proc_pages (ram zombie_k) child_T zombie_proc q -> q = 0x87ff5000 \/ q = child_root.
Proof. intros [->|[?%child_table|?%elem_of_nil]]; [by left|by right|done]. Qed.

Lemma zombie_user va : 0 <= va < MAXVA -> va mod PGSIZE = 0 -> user_pte (ram zombie_k) sample_T va = true ->
  va = 0 /\ frame (ram zombie_k) sample_T va = pg_frame.
Proof.
  intros V1 V2. unfold user_pte, frame. change (ram zombie_k) with (ram fork_k). rewrite fork_leaf.
  change (_ && _) with (user_pte (ram sample_vm) sample_T va). rewrite sample_user by done. intros ->%bool_decide_eq_true.
  split; [done|]. by rewrite sample_frame0.
Qed.

Lemma zombie_space : space_ok zombie_k sample_T pg_root fork_l.
Proof.
  destruct fork_parent as [F1 F2 F3]. split.
  - by split.
  - intros va V1 V2 [_ ->]%(zombie_user va V1 V2). split; [apply sample_pages|].
    split; [apply (bool_decide_unpack _); by vm_compute|apply sample_not_table; left].
  - intros va va' V1 V2 [-> _]%(zombie_user va V1 V2) V3 V4 [-> _]%(zombie_user va' V3 V4). done.
Qed.

Lemma zombie_status : status_ok zombie_k parent_proc zombie_proc sample_T child_T fork_l 16.
Proof.
  split.
  - apply zombie_space.
  - split_and!; [done|done|]. intros a Ha. replace (pg a) with 0 by (unfold pg; pages). unfold user_pte.
    change (ram zombie_k) with (ram fork_k). rewrite fork_leaf. change (_ && _) with (user_pte (ram sample_vm) sample_T 0). by rewrite sample_user.
  - intros c Hc [->| ->]%zombie_pages; destruct Hc as [q Hq]; by apply sample_T_cases in Hq as [[_ ?]|[[_ ?]|[_ ?]]].
  - intros a [U1 U2] Hq%zombie_pages. destruct (pg_spec a ltac:(lia)) as (G1 & G2 & G3).
    destruct (zombie_user (pg a) ltac:(lia) G1 U2) as [_ E]. rewrite E in Hq. by destruct Hq.
Qed.

Lemma wait_reaps_witness : exists k', wait 16 [] zombie_k = Ret 7 [] k' /\
  reaped zombie_k parent_proc 1 zombie_proc sample_T child_T fork_l 16 k'.
Proof.
  destruct (wait_reaps zombie_k 0 parent_proc 1 zombie_proc sample_T child_T fork_l 16) as (k' & H1 & H2).
  - split.
    + split; [done|]. cbn. lia.
    + split; [done|]. intros i Hi. apply sample_procs_free. exact Hi.
    + apply sample_free. left.
    + done.
    + done.
    + done.
    + done.
    + done.
    + done.
    + intros j Hj. assert (j = 0%nat) as -> by lia. done.
    + destruct fork_child as [F1 F2 F3]. split.
      * by split.
      * done.
      * intros va _ Hv. by rewrite (child_invalid va : valid (ram zombie_k) child_T va = false) in Hv.
      * split; [by intros q ?%elem_of_nil|constructor].
      * intros va _ _ Hv. by rewrite (child_invalid va : valid (ram zombie_k) child_T va = false) in Hv.
    + split; [by vm_compute|]. split; [apply (bool_decide_unpack _); by vm_compute|].
      split; [by intros ?%child_table|by intros ?%elem_of_nil].
    + intros _. apply zombie_status.
  - exists k'. exact (conj (H1 []) H2).
Defined.
