(* ===== verification/Grep.v ===== *)
(** * [user/grep.c]

    A C string is the list of its bytes before the NUL.  The matcher is
    compared with regular expressions given as a data type with their
    language.  The program that reads files and prints the matching lines is
    with the other user programs; [printed] is what it should print. *)

From S2P Require Import Prelude.

Definition NL : Z := 10.
Definition c_caret : Z := 94.
Definition c_dollar : Z := 36.
Definition c_dot : Z := 46.
Definition c_star : Z := 42.

(** ** The matcher *)

(** [here] is [matchhere] on the rest of the expression. *)
Fixpoint matchstar (here : list Z -> bool) (c : Z) (text : list Z) : bool :=
  here text ||
  match text with
  | [] => false
  | t :: text' => ((t =? c) || (c =? c_dot)) && matchstar here c text'
  end.

Fixpoint matchhere (re text : list Z) : bool :=
  match re with
  | [] => true
  | c :: re1 =>
      match re1 with
      | [] =>
          if c =? c_dollar then match text with [] => true | _ :: _ => false end
          else match text with
               | [] => false
               | t :: text' => ((c =? c_dot) || (c =? t)) && matchhere re1 text'
               end
      | d :: re2 =>
          if d =? c_star then matchstar (matchhere re2) c text
          else match text with
               | [] => false
               | t :: text' => ((c =? c_dot) || (c =? t)) && matchhere re1 text'
               end
      end
  end.

(** The [do] loop of [match]. *)
Fixpoint match_from (re text : list Z) : bool :=
  matchhere re text ||
  match text with
  | [] => false
  | _ :: text' => match_from re text'
  end.
Definition grep_match (re text : list Z) : bool :=
  match re with
  | c :: re' => if c =? c_caret then matchhere re' text else match_from re text
  | [] => match_from re text
  end.

(** ** Lines *)

(** The bytes before the first newline and after it: [strchr(p, '\n')],
    which ends at a NUL. *)
Fixpoint strchr_nl (p : list Z) : option (list Z * list Z) :=
  match p with
  | [] => None
  | c :: p' =>
      if c =? NL then Some ([], p')
      else if c =? 0 then None
      else match strchr_nl p' with
           | Some (line, rest) => Some (c :: line, rest)
           | None => None
           end
  end.

Definition GREP_BUF : nat := 1024.

(** ** Regular expressions *)

Inductive atom := Any | Chr (c : Z).
Inductive item := One (a : atom) | Star (a : atom).

Definition atom_has (a : atom) (t : Z) : Prop :=
  match a with Any => True | Chr c => c = t end.

Inductive lang : list item -> list Z -> Prop :=
| lang_nil : lang [] []
| lang_one a t re s : atom_has a t -> lang re s -> lang (One a :: re) (t :: s)
| lang_stop a re s : lang re s -> lang (Star a :: re) s
| lang_more a t re s : atom_has a t -> lang (Star a :: re) s -> lang (Star a :: re) (t :: s).

Definition atom_of (c : Z) : atom := if c =? c_dot then Any else Chr c.

(** The items of an expression without its leading caret, and whether it
    ends in a dollar sign. *)
Fixpoint items_of (re : list Z) : list item * bool :=
  match re with
  | [] => ([], false)
  | c :: re1 =>
      match re1 with
      | [] => if c =? c_dollar then ([], true) else ([One (atom_of c)], false)
      | d :: re2 =>
          if d =? c_star then let '(l, e) := items_of re2 in (Star (atom_of c) :: l, e)
          else let '(l, e) := items_of re1 in (One (atom_of c) :: l, e)
      end
  end.

(** [text] has a part in the language, at the ends where the expression is
    anchored. *)
Definition occurs (start : bool) (re text : list Z) : Prop :=
  exists pre mid post, text = pre ++ mid ++ post /\ lang (items_of re).1 mid /\
    (start = true -> pre = []) /\ ((items_of re).2 = true -> post = []).
Definition re_matches (re text : list Z) : Prop :=
  match re with
  | c :: re' => if c =? c_caret then occurs true re' text else occurs false re text
  | [] => occurs false re text
  end.

(** The complete lines of a file. *)
Fixpoint lines_of (cur file : list Z) : list (list Z) :=
  match file with
  | [] => []
  | c :: file => if c =? NL then cur :: lines_of [] file else lines_of (cur ++ [c]) file
  end.
(** [buf] has no room for a longer line. *)
Fixpoint short_lines (l : list (list Z)) : list (list Z) :=
  match l with
  | [] => []
  | x :: l => if decide (length x < GREP_BUF - 1)%nat then x :: short_lines l else []
  end.
Definition printed (re : list Z) (l : list (list Z)) : list Z :=
  concat (map (fun l => l ++ [NL]) (List.filter (grep_match re) (short_lines l))).

(** ** Proofs: the matcher *)

Definition here_at (l : list item * bool) (text : list Z) : Prop :=
  exists mid post, text = mid ++ post /\ lang l.1 mid /\ (l.2 = true -> post = []).

Lemma atom_of_has c t : atom_has (atom_of c) t <-> ((t =? c) || (c =? c_dot)) = true.
Proof.
  unfold atom_of. destruct (Z.eqb_spec c c_dot); simpl.
  - by rewrite orb_true_r.
  - rewrite orb_false_r, Z.eqb_eq. intuition.
Qed.

Lemma here_one a l e text :
  here_at (One a :: l, e) text <->
  exists t text', text = t :: text' /\ atom_has a t /\ here_at (l, e) text'.
Proof.
  split.
  - intros (mid & post & -> & H & He). inversion H; subst. cbn in He.
    eexists _, _. split; [done|]. split; [done|]. by exists s, post.
  - intros (t & text' & -> & Ha & mid & post & -> & H & He).
    exists (t :: mid), post. split; [done|]. split; [by constructor|done].
Qed.

Lemma here_star a l e text :
  here_at (Star a :: l, e) text <->
  here_at (l, e) text \/
  exists t text', text = t :: text' /\ atom_has a t /\ here_at (Star a :: l, e) text'.
Proof.
  split.
  - intros (mid & post & -> & H & He). inversion H; subst; [left; by exists mid, post|].
    right. eexists _, _. split; [done|]. split; [done|]. by exists s, post.
  - intros [(mid & post & -> & H & He)|(t & text' & -> & Ha & mid & post & -> & H & He)].
    + exists mid, post. split; [done|]. split; [by constructor|done].
    + exists (t :: mid), post. split; [done|]. split; [by constructor|done].
Qed.

Lemma matchstar_spec here c l text :
  (forall text, here text = true <-> here_at l text) ->
  matchstar here c text = true <-> here_at (Star (atom_of c) :: l.1, l.2) text.
Proof.
  intros Hh. destruct l as [l e]. cbn [fst snd].
  induction text as [|t text IH]; cbn [matchstar]; rewrite here_star, orb_true_iff, Hh.
  - split; [intros [H|?]; [by left|done]|]. intros [H|(t & x & ? & _)]; [by left|done].
  - rewrite andb_true_iff, IH, <- atom_of_has. split.
    + intros [H|[H1 H2]]; [by left|]. right. by exists t, text.
    + intros [H|(t' & x & [= <- <-] & H1 & H2)]; [by left|]. by right.
Qed.

Lemma matchhere_one c l text (m : list Z -> bool) :
  (forall text, m text = true <-> here_at l text) ->
  match text with
  | [] => false
  | t :: text' => ((c =? c_dot) || (c =? t)) && m text'
  end = true <-> here_at (One (atom_of c) :: l.1, l.2) text.
Proof.
  intros Hm. destruct l as [l e]. rewrite here_one. destruct text as [|t text].
  - split; [done|]. by intros (t & x & ? & _).
  - rewrite andb_true_iff, Hm, orb_comm, (Z.eqb_sym c t), <- atom_of_has. cbn [fst snd]. split.
    + intros [H1 H2]. by exists t, text.
    + by intros (t' & x & [= <- <-] & H1 & H2).
Qed.

Lemma here_empty e text : here_at ([], e) text <-> (e = true -> text = []).
Proof.
  split.
  - intros (mid & post & -> & H & He). inversion H; subst. done.
  - intros He. exists [], text. split; [done|]. by split; [constructor|].
Qed.

Lemma matchhere_spec re text : matchhere re text = true <-> here_at (items_of re) text.
Proof.
  revert text. induction re as [re IH] using (induction_ltof1 _ (@length Z)). unfold ltof in IH.
  intros text.
  destruct re as [|c [|d re]].
  - cbn. rewrite here_empty. done.
  - cbn [matchhere items_of]. destruct (Z.eqb_spec c c_dollar).
    + rewrite here_empty. destruct text; split; try done. intros H. by specialize (H eq_refl).
    + apply (matchhere_one c ([], false) text (fun _ => true)).
      intros text'. rewrite here_empty. done.
  - cbn [matchhere items_of]. destruct (Z.eqb_spec d c_star) as [->|].
    + pose proof (IH re ltac:(cbn; lia)) as IHre.
      destruct (items_of re) as [l e]. by apply (matchstar_spec _ c (l, e)).
    + pose proof (IH (d :: re) ltac:(cbn; lia)) as IHre.
      fold items_of in *. destruct (items_of (d :: re)) as [l e] eqn:E. cbn [items_of] in E. rewrite E.
      by apply (matchhere_one c (l, e)).
Qed.

(** ** Proofs: the loop *)

Definition no_nl (l : list Z) : Prop := NL ∉ l.
Definition no_nul (l : list Z) : Prop := 0 ∉ l.

Lemma strchr_nl_some p line rest :
  strchr_nl p = Some (line, rest) -> p = line ++ NL :: rest /\ no_nl line.
Proof.
  revert line. induction p as [|c p IH]; [done|]. cbn [strchr_nl]. intros line.
  destruct (Z.eqb_spec c NL) as [->|Hc].
  - intros [= <- <-]. split; [done|]. apply not_elem_of_nil.
  - destruct (c =? 0); [done|]. destruct (strchr_nl p) as [[l r]|]; [|done].
    intros [= <- <-]. destruct (IH l eq_refl) as [-> H]. split; [done|].
    unfold no_nl. rewrite not_elem_of_cons. done.
Qed.

Lemma strchr_nl_none p : no_nul p -> strchr_nl p = None -> no_nl p.
Proof.
  unfold no_nul, no_nl. induction p as [|c p IH]; cbn [strchr_nl]; [intros; apply not_elem_of_nil|].
  rewrite !not_elem_of_cons. intros [H0 Hp].
  destruct (Z.eqb_spec c NL); [done|]. destruct (Z.eqb_spec c 0); [congruence|].
  destruct (strchr_nl p) as [[]|]; [done|]. intros _. split; [congruence|]. by apply IH.
Qed.

Lemma lines_of_app c cur file : no_nl cur -> lines_of c (cur ++ file) = lines_of (c ++ cur) file.
Proof.
  unfold no_nl. revert c. induction cur as [|x cur IH]; intros c; [by rewrite app_nil_r|].
  rewrite not_elem_of_cons. intros [Hx Hc]. cbn. destruct (Z.eqb_spec x NL); [congruence|].
  rewrite IH by done. by rewrite <- app_assoc.
Qed.

(** The first complete line is at least as long as what it starts with. *)
Lemma lines_of_head cur file l ls : lines_of cur file = l :: ls -> (length cur <= length l)%nat.
Proof.
  revert cur. induction file as [|c file IH]; [done|]. intros cur. cbn.
  destruct (c =? NL); [by intros [= <- _]|]. intros H%IH. rewrite length_app in H. lia.
Qed.

Lemma printed_full re cur file :
  (GREP_BUF - 1 <= length cur)%nat -> printed re (lines_of cur file) = [].
Proof.
  intros H. destruct (lines_of cur file) as [|l ls] eqn:E; [done|].
  apply lines_of_head in E. unfold printed. cbn [short_lines]. by rewrite decide_False by lia.
Qed.

Lemma printed_cons re l ls :
  (length l < GREP_BUF - 1)%nat ->
  printed re (l :: ls) = (if grep_match re l then l ++ [NL] else []) ++ printed re ls.
Proof.
  intros H. unfold printed. cbn [short_lines]. rewrite decide_True by done. cbn [List.filter].
  by destruct (grep_match re l).
Qed.

(** ** Theorems *)

(** C29: [match] of grep says yes exactly when the text has a part in the
    language of the regular expression (a caret and a dollar sign at the
    ends anchor it, a dot is any byte, a star repeats what it follows): the
    backtracking matcher is equivalent to the declarative semantics, and it
    always terminates. *)
Theorem grep_match_regexp (re text : list Z) : grep_match re text = true <-> re_matches re text.
Proof.
  assert (Hfrom : forall re, match_from re text = true <-> occurs false re text).
  { clear re. intros re. induction text as [|t text' IH]; cbn [match_from];
      rewrite orb_true_iff, matchhere_spec; split.
    - intros [(mid & post & E & H1 & H2)|?]; [|done]. by exists [], mid, post.
    - intros (pre & mid & post & E & H1 & _ & H2). symmetry in E. apply app_eq_nil in E as [-> E].
      left. by exists mid, post.
    - intros [(mid & post & E & H1 & H2)|(pre & mid & post & -> & H1 & H2 & H3)%IH].
      + by exists [], mid, post.
      + by exists (t :: pre), mid, post.
    - intros (pre & mid & post & E & H1 & _ & H2). destruct pre as [|x pre].
      + left. by exists mid, post.
      + injection E as -> E. right. apply IH. by exists pre, mid, post. }
  destruct re as [|c re]; cbn [grep_match re_matches]; [apply Hfrom|].
  destruct (c =? c_caret); [|apply Hfrom]. rewrite matchhere_spec. split.
  - intros (mid & post & -> & H1 & H2). by exists [], mid, post.
  - intros (pre & mid & post & -> & H1 & H2 & H3). rewrite H2 by done. by exists mid, post.
Qed.
