(* ===== verification/User.v ===== *)
(** * User processes

    A user program is an interaction tree: its nodes are the system calls it
    makes, with their arguments, and it goes on with the kernel's answer
    ([user/usys.pl] generates one stub per call, an [ecall] with the number
    of the call).  [wpi] is total correctness of a program under an operating
    system given by the answers it may make; [run] executes a program against
    one choice of answers, and [wpi_run] says that [wpi] is about what [run]
    computes.  [stdio] is the operating system of a process that reads files
    and writes to its standard output. *)

From ITree Require Import ITree.
From S2P Require Import Prelude Defs.

(** [struct stat] *)
Record stat := mk_stat { st_dev : Z; st_ino : Z; st_type : Z; st_nlink : Z; st_size : Z }.

(** The system calls.  The answer to [read] is the return value and the bytes
    stored at the buffer, to [pipe] and [fstat] the return value and what is
    stored; strings and buffers passed to the kernel are lists of bytes.
    [Wait] is [wait(0)]; [WaitStatus] is [wait] with the address of an [int],
    answered with the return value and the status, if one is stored.  [Fault]
    is no call: it stands for an access outside the object a pointer points
    into, or the use of a variable without a value. *)
Inductive sysE : Type -> Type :=
| Fork : sysE Z
| Exit (status : Z) : sysE void
| Wait : sysE Z
| WaitStatus : sysE (Z * option Z)
| Pipe : sysE (Z * Z * Z)
| Read (fd n : Z) : sysE (Z * list Z)
| Write (fd : Z) (bytes : list Z) : sysE Z
| Close (fd : Z) : sysE Z
| Kill (pid : Z) : sysE Z
| Exec (path : list Z) (argv : list (list Z)) : sysE Z
| Open (path : list Z) (mode : Z) : sysE Z
| Mknod (path : list Z) (major minor : Z) : sysE Z
| Unlink (path : list Z) : sysE Z
| Fstat (fd : Z) : sysE (Z * stat)
| Link (old new : list Z) : sysE Z
| Mkdir (path : list Z) : sysE Z
| Chdir (path : list Z) : sysE Z
| Dup (fd : Z) : sysE Z
| Getpid : sysE Z
| Sbrk (n : Z) : sysE Z
| Sleep (n : Z) : sysE Z
| Uptime : sysE Z
| Fault : sysE void.

Notation prog := (itree sysE).

#[export] Instance prog_ret : MRet prog := fun A a => Ret a.
#[export] Instance prog_bind : MBind prog := fun A B f t => ITree.bind t f.

Definition sys {T} (e : sysE T) : prog T := ITree.trigger e.
Definition exit {A} (status : Z) : prog A := Vis (Exit status) (fun v : void => match v with end).
Definition fault {A} : prog A := Vis Fault (fun v : void => match v with end).

(** ** Program logic

    An operating system is the relation of its answers: [os_step e w x w']
    says that it may answer the call [e] in state [w] with [x], going to
    [w']. *)
Class OS (W : Type) := os_step : forall T, sysE T -> W -> T -> W -> Prop.
Arguments os_step {W _ T} _ _ _ _.

(** The program ends, whatever the answers: it returns [r] in a state with
    [Q r], or it exits with [n] in a state with [X n]; every call it makes has
    an answer, so it never makes one the system does not know. *)
Inductive wpi {W} `{!OS W} {R} (X : Z -> W -> Prop) (Q : R -> W -> Prop) (t : prog R) (w : W) : Prop :=
| wpi_ret' r : observe t = RetF r -> Q r w -> wpi X Q t w
| wpi_tau' u : observe t = TauF u -> wpi X Q u w -> wpi X Q t w
| wpi_exit' n k : observe t = VisF (Exit n) k -> X n w -> wpi X Q t w
| wpi_vis' T (e : sysE T) k : observe t = VisF e k -> (exists x w', os_step e w x w') ->
    (forall x w', os_step e w x w' -> wpi X Q (k x) w') -> wpi X Q t w.

(** Execution with the answers of [h]. *)
Inductive result (W R : Type) :=
| Returned (r : R) (w : W)
| Exited (n : Z) (w : W)
| Stuck (w : W)
| Runs.
Arguments Returned {W R} _ _.
Arguments Exited {W R} _ _.
Arguments Stuck {W R} _.
Arguments Runs {W R}.

Definition answers (W : Type) := forall T, sysE T -> W -> option (T * W).

Definition exit_status {T} (e : sysE T) : option Z := match e with Exit n => Some n | _ => None end.

Fixpoint run {W R} (h : answers W) (fuel : nat) (t : prog R) (w : W) : result W R :=
  match fuel with
  | O => Runs
  | S fuel =>
      match observe t with
      | RetF r => Returned r w
      | TauF u => run h fuel u w
      | VisF e k =>
          match exit_status e with
          | Some n => Exited n w
          | None => match h _ e w with Some (x, w') => run h fuel (k x) w' | None => Stuck w end
          end
      end
  end.

Section logic.
Context {W : Type} `{!OS W}.

Lemma wpi_observe {R} X (Q : R -> W -> Prop) t u w : observe t = observe u -> wpi X Q u w -> wpi X Q t w.
Proof.
  intros E H. destruct H.
  - eapply wpi_ret'; [etrans|]; done.
  - eapply wpi_tau'; [etrans|]; done.
  - eapply wpi_exit'; [etrans|]; done.
  - eapply wpi_vis'; [etrans|..]; done.
Qed.

Lemma wpi_ret {R} X (Q : R -> W -> Prop) r w : Q r w -> wpi X Q (Ret r) w.
Proof. by eapply wpi_ret'. Qed.

Lemma wpi_tau {R} X (Q : R -> W -> Prop) t w : wpi X Q t w -> wpi X Q (Tau t) w.
Proof. by eapply wpi_tau'. Qed.

Lemma wpi_exit {R} X (Q : R -> W -> Prop) n w : X n w -> wpi X Q (exit n) w.
Proof. by eapply wpi_exit'. Qed.

Lemma observe_bind {A R} (t : prog A) (k : A -> prog R) : observe (t ≫= k) =
  match observe t with
  | RetF r => observe (k r)
  | TauF u => TauF (u ≫= k)
  | VisF e h => VisF e (fun x => h x ≫= k)
  end.
Proof.
  change (observe (t ≫= k)) with (observe (match observe t with
    | RetF r => k r | TauF u => Tau (ITree.bind u k) | VisF e h => Vis e (fun x => ITree.bind (h x) k) end)).
  by destruct (observe t).
Qed.

Lemma wpi_bind {A R} X (Q : R -> W -> Prop) (t : prog A) k w :
  wpi X (fun x => wpi X Q (k x)) t w -> wpi X Q (t ≫= k) w.
Proof.
  induction 1 as [t w r E H|t w u E _ IH|t w n k' E H|t w T e k' E He _ IH].
  - eapply wpi_observe; [|exact H]. by rewrite observe_bind, E.
  - eapply wpi_tau'; [|exact IH]. by rewrite observe_bind, E.
  - eapply wpi_exit'; [|exact H]. by rewrite observe_bind, E.
  - eapply wpi_vis'; [|exact He|exact IH]. by rewrite observe_bind, E.
Qed.

Lemma wpi_mono {R} X X' (Q Q' : R -> W -> Prop) t w :
  wpi X Q t w -> (forall n w, X n w -> X' n w) -> (forall r w, Q r w -> Q' r w) -> wpi X' Q' t w.
Proof.
  intros H HX HQ. induction H.
  - eapply wpi_ret'; eauto.
  - eapply wpi_tau'; eauto.
  - eapply wpi_exit'; eauto.
  - eapply wpi_vis'; eauto.
Qed.

(** A call answered in only one way, or in all ways a relation allows. *)
Lemma wpi_sys {A} X (Q : A -> W -> Prop) (e : sysE A) w :
  (exists x w', os_step e w x w') -> (forall x w', os_step e w x w' -> Q x w') -> wpi X Q (sys e) w.
Proof. intros He H. eapply wpi_vis'; [done|done|]. intros x w' Hs. apply wpi_ret, H, Hs. Qed.

Lemma wpi_iter {I R} X (Q : R -> W -> Prop) (body : I -> prog (I + R)) i w :
  wpi X (fun lr w' => match lr with inl j => wpi X Q (ITree.iter body j) w' | inr r => Q r w' end) (body i) w ->
  wpi X Q (ITree.iter body i) w.
Proof.
  intros H. eapply (wpi_observe _ _ _ (body i ≫= (fun lr => match lr with
    inl j => Tau (ITree.iter body j) | inr r => Ret r end))); [done|].
  apply wpi_bind. eapply wpi_mono; [exact H|done|]. intros [j|r] w'; [apply wpi_tau|apply wpi_ret].
Qed.

(** With [wpi], [run] ends for every choice of answers. *)
Theorem wpi_run {R} X (Q : R -> W -> Prop) (h : answers W) t w :
  (forall T (e : sysE T) w, (exists x w', os_step e w x w') -> exists x w', h T e w = Some (x, w') /\ os_step e w x w') ->
  wpi X Q t w ->
  exists fuel, match run h fuel t w with Returned r w' => Q r w' | Exited n w' => X n w' | _ => False end.
Proof.
  intros Hh. induction 1 as [t w r E H|t w u E _ [n IH]|t w n k' E H|t w T e k' E He _ IH].
  - exists 1%nat. cbn. by rewrite E.
  - exists (S n). cbn. by rewrite E.
  - exists 1%nat. cbn. by rewrite E.
  - destruct (Hh T e w He) as (x & w' & Ex & Hs). destruct (IH x w' Hs) as [n Hn].
    destruct (exit_status e) eqn:Ee.
    { exists 1%nat. cbn. rewrite E, Ee. exact (False_ind _ ltac:(by destruct e; try done; destruct x)). }
    exists (S n). cbn. by rewrite E, Ee, Ex.
Qed.

End logic.

(** ** A process with files

    What a descriptor is open for: reading the rest of a file, writing, or
    a device on which every transfer fails. *)
Inductive fdesc :=
| Input (st : stat) (rest : list Z)
| Output
| Broken.

(** The files by name, the open descriptors, and everything written so far,
    each byte with the descriptor it was written to. *)
Record world := mk_world {
  w_files : gmap (list Z) (stat * list Z);
  w_fds : gmap Z fdesc;
  w_out : list (Z * Z) }.

Definition with_fds (f : gmap Z fdesc -> gmap Z fdesc) (w : world) : world :=
  mk_world (w_files w) (f (w_fds w)) (w_out w).
Definition emit (fd : Z) (bytes : list Z) (w : world) : world :=
  mk_world (w_files w) (w_fds w) (w_out w ++ map (pair fd) bytes).

(** The descriptor [open] gives out. *)
Definition lowest_fd {A} (fds : gmap Z A) : option Z :=
  snd <$> list_find (fun fd => fds !! fd = None) (seqZ 0 (Z.of_nat NOFILE)).

(** A read returns at least one byte when there are any, and may return
    fewer than it is asked for. *)
Definition std_step {T} (e : sysE T) : world -> T -> world -> Prop :=
  match e in sysE T return world -> T -> world -> Prop with
  | Read fd n => fun w x w' =>
      match w_fds w !! fd with
      | Some (Input st rest) => exists len : nat,
          Z.of_nat len <= Z.max 0 n /\ (len <= length rest)%nat /\ (len = 0%nat -> n <= 0 \/ rest = []) /\
          x = (Z.of_nat len, take len rest) /\ w' = with_fds (<[fd := Input st (drop len rest)]>) w
      | _ => x = (-1, []) /\ w' = w
      end
  | Write fd bytes => fun w x w' =>
      match w_fds w !! fd with
      | Some Output => x = Z.of_nat (length bytes) /\ w' = emit fd bytes w
      | _ => x = -1 /\ w' = w
      end
  | Open path mode => fun w x w' =>
      match w_files w !! path, lowest_fd (w_fds w) with
      | Some (st, data), Some fd =>
          if mode =? O_RDONLY then x = fd /\ w' = with_fds (<[fd := Input st data]>) w else x = -1 /\ w' = w
      | _, _ => x = -1 /\ w' = w
      end
  | Close fd => fun w x w' =>
      match w_fds w !! fd with
      | Some _ => x = 0 /\ w' = with_fds (delete fd) w
      | None => x = -1 /\ w' = w
      end
  | Fstat fd => fun w x w' =>
      match w_fds w !! fd with
      | Some (Input st _) => x = (0, st) /\ w' = w
      | _ => fst x = -1 /\ w' = w
      end
  | _ => fun _ _ _ => False
  end.

#[export] Instance stdio : OS world := @std_step.

(** Every read gets as much as there is. *)
Definition std_answers : answers world := fun T e w =>
  match e in sysE T return option (T * world) with
  | Read fd n =>
      match w_fds w !! fd with
      | Some (Input st rest) =>
          let len := Nat.min (Z.to_nat n) (length rest) in
          Some ((Z.of_nat len, take len rest), with_fds (<[fd := Input st (drop len rest)]>) w)
      | _ => Some ((-1, []), w)
      end
  | Write fd bytes =>
      match w_fds w !! fd with
      | Some Output => Some (Z.of_nat (length bytes), emit fd bytes w)
      | _ => Some (-1, w)
      end
  | Open path mode =>
      match w_files w !! path, lowest_fd (w_fds w) with
      | Some (st, data), Some fd => if mode =? O_RDONLY then Some (fd, with_fds (<[fd := Input st data]>) w) else Some (-1, w)
      | _, _ => Some (-1, w)
      end
  | Close fd =>
      match w_fds w !! fd with
      | Some _ => Some (0, with_fds (delete fd) w)
      | None => Some (-1, w)
      end
  | Fstat fd =>
      match w_fds w !! fd with
      | Some (Input st _) => Some ((0, st), w)
      | _ => Some ((-1, mk_stat 0 0 0 0 0), w)
      end
  | _ => None
  end.

(** [std_answers] is one of the behaviours of [stdio], so what is proved with
    [wpi] is what [run] computes with it. *)
Lemma std_answers_ok T (e : sysE T) (w : world) :
  (exists x w', os_step e w x w') -> exists x w', std_answers T e w = Some (x, w') /\ os_step e w x w'.
Proof.
  unfold os_step, stdio. destruct e; simpl; try (intros (? & ? & [])).
  - intros _. destruct (w_fds w !! fd) as [[st rest| |]|]; try by eexists _, _.
    eexists _, _. split; [done|]. eexists. split_and!; [| | |done|done]; try lia.
    intros E. destruct rest; [by right|left]. simpl in E. lia.
  - intros _. destruct (w_fds w !! fd) as [[st rest| |]|]; by eexists _, _.
  - intros _. destruct (w_fds w !! fd) as [[st rest| |]|]; by eexists _, _.
  - intros _. destruct (w_files w !! path) as [[st d]|], (lowest_fd (w_fds w)); try by eexists _, _.
    destruct (mode =? O_RDONLY); by eexists _, _.
  - intros _. destruct (w_fds w !! fd) as [[st rest| |]|]; by eexists _, _.
Qed.

(** ** Rules for the calls *)

Section calls.
Implicit Types (w : world).

Lemma wpi_write {X} Q fd bytes w :
  w_fds w !! fd = Some Output -> Q (Z.of_nat (length bytes)) (emit fd bytes w) -> wpi X Q (sys (Write fd bytes)) w.
Proof.
  intros E H. apply wpi_sys; unfold os_step, stdio; simpl; rewrite E; [by eexists _, _|]. by intros x w' [-> ->].
Qed.

Lemma wpi_read_any {X} Q fd n w st rest :
  w_fds w !! fd = Some (Input st rest) -> 0 <= n ->
  (forall len, (Z.of_nat len <= n) -> (len <= length rest)%nat -> (len = 0%nat -> n = 0 \/ rest = []) ->
    Q (Z.of_nat len, take len rest) (with_fds (<[fd := Input st (drop len rest)]>) w)) ->
  wpi X Q (sys (Read fd n)) w.
Proof.
  intros E Hn H. apply wpi_sys; unfold os_step, stdio; simpl; rewrite E.
  - eexists _, _. exists (Nat.min (Z.to_nat n) (length rest)). split_and!; [lia|lia| |done|done].
    intros E'. destruct rest; [by right|left]. simpl in E'. lia.
  - intros x w' (len & H1 & H2 & H3 & -> & ->). apply H; [lia|done|]. intros E'. destruct (H3 E'); [left; lia|by right].
Qed.

Lemma wpi_read {X} Q fd n w st rest :
  w_fds w !! fd = Some (Input st rest) -> 0 < n ->
  (forall len, (Z.of_nat len <= n) -> (len <= length rest)%nat -> (len = 0%nat -> rest = []) ->
    Q (Z.of_nat len, take len rest) (with_fds (<[fd := Input st (drop len rest)]>) w)) ->
  wpi X Q (sys (Read fd n)) w.
Proof.
  intros E Hn H. eapply wpi_read_any; [done|lia|]. intros len H1 H2 H3. apply H; [done|done|].
  intros E'. by destruct (H3 E'); [lia|].
Qed.

Lemma wpi_open {X} Q path w st data fd :
  w_files w !! path = Some (st, data) -> lowest_fd (w_fds w) = Some fd ->
  Q fd (with_fds (<[fd := Input st data]>) w) -> wpi X Q (sys (Open path O_RDONLY)) w.
Proof.
  intros E1 E2 H. apply wpi_sys; unfold os_step, stdio; simpl; rewrite E1, E2; [by eexists _, _|]. by intros x w' [-> ->].
Qed.

Lemma wpi_open_missing {X} Q path mode w :
  w_files w !! path = None -> Q (-1) w -> wpi X Q (sys (Open path mode)) w.
Proof.
  intros E H. apply wpi_sys; unfold os_step, stdio; simpl; rewrite E; [by eexists _, _|]. by intros x w' [-> ->].
Qed.

Lemma wpi_close {X} Q fd w d :
  w_fds w !! fd = Some d -> Q 0 (with_fds (delete fd) w) -> wpi X Q (sys (Close fd)) w.
Proof.
  intros E H. apply wpi_sys; unfold os_step, stdio; simpl; rewrite E; [by eexists _, _|]. by intros x w' [-> ->].
Qed.

Lemma wpi_fstat {X} Q fd w st rest :
  w_fds w !! fd = Some (Input st rest) -> Q (0, st) w -> wpi X Q (sys (Fstat fd)) w.
Proof.
  intros E H. apply wpi_sys; unfold os_step, stdio; simpl; rewrite E; [by eexists _, _|]. by intros x w' [-> ->].
Qed.

End calls.

(** ** Example

    A file of two lines, and the standard descriptors. *)
Definition sample_text : list Z := bytes_of "one two" ++ [10] ++ bytes_of "two" ++ [10].
Definition sample_world : world :=
  mk_world {[bytes_of "f" := (mk_stat 1 2 T_FILE 1 12, sample_text)]}
    {[0 := Input (mk_stat 1 3 T_DEVICE 1 0) sample_text; 1 := Output; 2 := Output]} [].

Lemma sample_files s st data : w_files sample_world !! s = Some (st, data) -> data = sample_text.
Proof. cbn [sample_world w_files]. by intros [_ [= _ <-]]%lookup_singleton_Some. Qed.
