(* ===== verification/Ulib.v ===== *)
(** * [user/ulib.c] and [user/printf.c]

    The memory of a process is a map from the addresses of its objects to
    bytes.  An access to an address outside of them has no result ([None]),
    which ends a program with [Fault].  The loops that run to the end of a
    string take the size of the memory as fuel: a string cannot be longer. *)

From ITree Require Import ITree.
From S2P Require Import Prelude Defs Memory User.

Notation mem := (gmap Z Z).

(** A store to a mapped address. *)
Definition st (m : mem) (a v : Z) : option mem :=
  match m !! a with Some _ => Some (<[a := v]> m) | None => None end.

Fixpoint for_mem (l : list Z) (f : Z -> mem -> option mem) (m : mem) : option mem :=
  match l with
  | [] => Some m
  | i :: l => m ← f i m; for_mem l f m
  end.

Definition lift {A} (x : option A) : prog A := match x with Some a => Ret a | None => fault end.

(** ** ulib.c *)

Fixpoint strcpy_loop (fuel : nat) (m : mem) (s t : Z) : option mem :=
  match fuel with
  | O => None
  | S fuel =>
      c ← m !! t;
      m ← st m s c;
      if c =? 0 then Some m else strcpy_loop fuel m (s + 1) (t + 1)
  end.
Definition strcpy (m : mem) (s t : Z) : option mem := strcpy_loop (size m) m s t.

Fixpoint strcmp_loop (fuel : nat) (m : mem) (p q : Z) : option Z :=
  match fuel with
  | O => None
  | S fuel =>
      a ← m !! p;
      b ← m !! q;
      if c_true a && (a =? b) then strcmp_loop fuel m (p + 1) (q + 1) else Some (a - b)
  end.
Definition strcmp (m : mem) (p q : Z) : option Z := strcmp_loop (size m) m p q.

Fixpoint strlen_loop (fuel : nat) (m : mem) (s n : Z) : option Z :=
  match fuel with
  | O => None
  | S fuel =>
      c ← m !! (s + n);
      if c_true c then strlen_loop fuel m s (n + 1) else Some n
  end.
Definition strlen (m : mem) (s : Z) : option Z := strlen_loop (size m) m s 0.

Definition memset (m : mem) (dst c n : Z) : option mem :=
  for_mem (seqZ 0 n) (fun i m => st m (dst + i) (u8 c)) m.

(** The address of the byte, or 0. *)
Fixpoint strchr_loop (fuel : nat) (m : mem) (s c : Z) : option Z :=
  match fuel with
  | O => None
  | S fuel =>
      b ← m !! s;
      if negb (c_true b) then Some 0
      else if b =? c then Some s
      else strchr_loop fuel m (s + 1) c
  end.
Definition strchr (m : mem) (s c : Z) : option Z := strchr_loop (size m) m s c.

(** The memory and [i] after the loop of [gets]. *)
Definition gets_loop (m : mem) (buf max : Z) : prog (mem * Z) :=
  ITree.iter (fun '(m, i) =>
    if i + 1 <? max then
      '(cc, l) ← sys (Read 0 1);
      if cc <? 1 then Ret (inr (m, i)) else
      let c := hd 0 l in
      m ← lift (st m (buf + i) c);
      if (c =? 10) || (c =? 13) then Ret (inr (m, i + 1)) else Ret (inl (m, i + 1))
    else Ret (inr (m, i))) (m, 0).
Definition gets (m : mem) (buf max : Z) : prog mem :=
  '(m, i) ← gets_loop m buf max;
  lift (st m (buf + i) 0).

Definition ustat (n : list Z) : prog (Z * stat) :=
  fd ← sys (Open n O_RDONLY);
  if fd <? 0 then Ret (-1, mk_stat 0 0 0 0 0) else
  r ← sys (Fstat fd);
  sys (Close fd);;
  Ret r.

Fixpoint atoi_loop (fuel : nat) (m : mem) (s n : Z) : option Z :=
  match fuel with
  | O => None
  | S fuel =>
      c ← m !! s;
      if (48 <=? c) && (c <=? 57) then atoi_loop fuel m (s + 1) (s32 (n * 10 + c - 48)) else Some n
  end.
Definition atoi (m : mem) (s : Z) : option Z := atoi_loop (size m) m s 0.

Definition move_byte (dst src i : Z) (m : mem) : option mem := c ← m !! (src + i); st m (dst + i) c.
Definition memmove (m : mem) (dst src n : Z) : option mem :=
  if src >? dst then for_mem (seqZ 0 n) (move_byte dst src) m
  else for_mem (reverse (seqZ 0 n)) (move_byte dst src) m.

Fixpoint memcmp_loop (n : nat) (m : mem) (p1 p2 : Z) : option Z :=
  match n with
  | O => Some 0
  | S n =>
      a ← m !! p1;
      b ← m !! p2;
      if negb (a =? b) then Some (a - b) else memcmp_loop n m (p1 + 1) (p2 + 1)
  end.
Definition memcmp (m : mem) (s1 s2 n : Z) : option Z := memcmp_loop (Z.to_nat n) m s1 s2.

Definition memcpy (m : mem) (dst src n : Z) : option mem := memmove m dst src (s32 n).

(** ** printf.c *)

Definition digits : list Z := bytes_of "0123456789ABCDEF".

Definition putc (fd c : Z) : prog unit := sys (Write fd [u8 c]);; mret ().

(** [buf[i] = c] in a local array. *)
Definition put_buf (buf : list Z) (i : nat) (c : Z) : option (list Z) :=
  if decide (i < length buf)%nat then Some (<[i := c]> buf) else None.

(** The [do] loop; a [uint] has at most 32 digits. *)
Fixpoint print_digits (fuel : nat) (x base : Z) (buf : list Z) (i : nat) : option (list Z * nat) :=
  match fuel with
  | O => None
  | S fuel =>
      c ← digits !! Z.to_nat (x mod base);
      buf ← put_buf buf i c;
      if x / base =? 0 then Some (buf, S i) else print_digits fuel (x / base) base buf (S i)
  end.

(** [buf] and [i] when [printint] starts to print. *)
Definition printint_buf (xx base : Z) (sgn : bool) : option (list Z * nat) :=
  let neg := sgn && (xx <? 0) in
  let x := if neg then u32 (- xx) else u32 xx in
  '(buf, i) ← print_digits 32 x base (repeat 0 16) 0;
  if neg : bool then buf ← put_buf buf i 45; Some (buf, S i) else Some (buf, i).

Fixpoint for_prog {A} (l : list A) (f : A -> prog unit) : prog unit :=
  match l with
  | [] => mret ()
  | a :: l => f a;; for_prog l f
  end.

Definition printint (fd xx base : Z) (sgn : bool) : prog unit :=
  '(buf, i) ← lift (printint_buf xx base sgn);
  for_prog (reverse (take i buf)) (putc fd).

Fixpoint printptr_loop (n : nat) (fd x : Z) : prog unit :=
  match n with
  | O => mret ()
  | S n =>
      c ← lift (digits !! Z.to_nat (Z.shiftr x 60));
      putc fd c;;
      printptr_loop n fd (u64 (Z.shiftl x 4))
  end.
Definition printptr (fd x : Z) : prog unit :=
  putc fd 48;; putc fd 120;; printptr_loop 16 fd x.

(** The variable arguments, with the type they are taken at. *)
Inductive va_arg :=
| A_int (x : Z)
| A_uint64 (x : Z)
| A_str (s : Z).

(** [while( *s != 0){ putc(fd, *s); s++; }] *)
Fixpoint print_str (fuel : nat) (m : mem) (fd s : Z) : prog unit :=
  match fuel with
  | O => fault
  | S fuel =>
      c ← lift (m !! s);
      if c =? 0 then mret () else putc fd c;; print_str fuel m fd (s + 1)
  end.

Definition c_percent : Z := 37.

(** A conversion: what it prints, and the arguments after it. *)
Definition print_conv (m : mem) (fd c : Z) (ap : list va_arg) : prog (list va_arg) :=
  if c =? 100 then match ap with A_int x :: ap => printint fd x 10 true;; mret ap | _ => fault end
  else if c =? 108 then match ap with A_uint64 x :: ap => printint fd (s32 x) 10 false;; mret ap | _ => fault end
  else if c =? 120 then match ap with A_int x :: ap => printint fd x 16 false;; mret ap | _ => fault end
  else if c =? 112 then match ap with A_uint64 x :: ap => printptr fd x;; mret ap | _ => fault end
  else if c =? 115 then
    match ap with
    | A_str s :: ap =>
        (if s =? 0 then for_prog (bytes_of "(null)") (putc fd) else print_str (size m) m fd s);; mret ap
    | _ => fault
    end
  else if c =? 99 then match ap with A_int x :: ap => putc fd x;; mret ap | _ => fault end
  else if c =? c_percent then putc fd c;; mret ap
  else putc fd c_percent;; putc fd c;; mret ap.

Fixpoint vprintf_loop (m : mem) (fd : Z) (fmt : list Z) (state : Z) (ap : list va_arg) : prog unit :=
  match fmt with
  | [] => mret ()
  | c :: fmt =>
      if state =? 0 then
        if c =? c_percent then vprintf_loop m fd fmt c_percent ap
        else putc fd c;; vprintf_loop m fd fmt state ap
      else if state =? c_percent then
        ap ← print_conv m fd c ap;
        vprintf_loop m fd fmt 0 ap
      else vprintf_loop m fd fmt state ap
  end.

Definition vprintf (m : mem) (fd : Z) (fmt : list Z) (ap : list va_arg) : prog unit := vprintf_loop m fd fmt 0 ap.
Definition fprintf (m : mem) (fd : Z) (fmt : list Z) (ap : list va_arg) : prog unit := vprintf m fd fmt ap.
Definition printf (m : mem) (fmt : list Z) (ap : list va_arg) : prog unit := vprintf m 1 fmt ap.
