(* ===== verification/UlibSpec.v ===== *)
(** * The user library: strings, memory and numbers

    [is_str m a s] says that the bytes [s] and a NUL are at [a].  The string
    functions compute on it what their names say; [memmove] is right for all
    overlaps; [printint] prints the canonical numeral without overrunning its
    buffer and [atoi] reads it back; [vprintf] prints what [render] says. *)

From stdpp Require Import pretty.
From ITree Require Import ITree.
From S2P Require Import Prelude Defs Memory User Ulib.

(** ** Strings in memory *)

Fixpoint is_str (m : mem) (a : Z) (s : list Z) : Prop :=
  match s with
  | [] => m !! a = Some 0
  | c :: s => m !! a = Some c /\ c <> 0 /\ is_str m (a + 1) s
  end.

(** [n] bytes at [a] are mapped. *)
Definition mapped (m : mem) (a n : Z) : Prop := forall i, 0 <= i < n -> is_Some (m !! (a + i)).

Lemma is_str_lookup m a s i : is_str m a s -> (i < length s)%nat -> m !! (a + Z.of_nat i) = s !! i.
Proof.
  revert a i. induction s as [|c s IH]; intros a i H Hi; simpl in *; [lia|]. destruct H as (H1 & _ & H2).
  destruct i as [|i]; simpl; [by rewrite Z.add_0_r|]. rewrite <- (IH (a + 1)) by (done || lia). f_equal. lia.
Qed.

Lemma is_str_end m a s : is_str m a s -> m !! (a + Z.of_nat (length s)) = Some 0.
Proof.
  revert a. induction s as [|c s IH]; intros a H; simpl in *; [by rewrite Z.add_0_r|]. destruct H as (_ & _ & H).
  rewrite <- (IH _ H). f_equal. lia.
Qed.

Lemma is_str_mapped m a s : is_str m a s -> mapped m a (Z.of_nat (length s) + 1).
Proof.
  intros H i Hi. destruct (decide (i = Z.of_nat (length s))) as [->|]; [rewrite (is_str_end _ _ _ H); by eexists|].
  replace i with (Z.of_nat (Z.to_nat i)) by lia. rewrite (is_str_lookup _ _ _ _ H) by lia. apply lookup_lt_is_Some. lia.
Qed.

Lemma mapped_size m a n : mapped m a n -> (Z.to_nat n <= size m)%nat.
Proof.
  intros H. transitivity (size (list_to_set (seqZ a n) : gset Z)).
  - rewrite size_list_to_set by apply NoDup_seqZ. by rewrite length_seqZ.
  - rewrite <- (size_dom (D := gset Z) m). apply subseteq_size. intros x Hx%elem_of_list_to_set%elem_of_seqZ.
    apply elem_of_dom. replace x with (a + (x - a)) by lia. apply H. lia.
Qed.

Lemma is_str_size m a s : is_str m a s -> (length s < size m)%nat.
Proof. intros H%is_str_mapped%mapped_size. lia. Qed.

Lemma is_str_ext m m' a s :
  (forall i, 0 <= i <= Z.of_nat (length s) -> m' !! (a + i) = m !! (a + i)) -> is_str m a s -> is_str m' a s.
Proof.
  revert a. induction s as [|c s IH]; intros a E H; simpl in *.
  - specialize (E 0). rewrite Z.add_0_r in E. rewrite E; [done|lia].
  - destruct H as (H1 & H2 & H3). split_and!; [|done|].
    + specialize (E 0). rewrite Z.add_0_r in E. rewrite E; [done|lia].
    + apply IH; [|done]. intros i Hi. rewrite <- !Z.add_assoc. apply E. lia.
Qed.

(** Strings are determined by their address. *)
Lemma is_str_inj m a s s' : is_str m a s -> is_str m a s' -> s = s'.
Proof.
  revert a s'. induction s as [|c s IH]; intros a [|c' s'] H H'; simpl in *.
  - done.
  - destruct H' as (H1 & H2 & _). congruence.
  - destruct H as (H1 & H2 & _). congruence.
  - destruct H as (H1 & H2 & H3), H' as (H1' & H2' & H3'). f_equal; [congruence|]. by eapply IH.
Qed.

Lemma strlen_loop_spec fuel m a s n : is_str m (a + n) s -> (length s < fuel)%nat ->
  strlen_loop fuel m a n = Some (n + Z.of_nat (length s)).
Proof.
  revert n s. induction fuel as [|fuel IH]; intros n s H Hf; [lia|]. destruct s as [|c s]; simpl in *.
  - rewrite H. simpl. f_equal. lia.
  - destruct H as (H1 & H2 & H3). rewrite H1. simpl. unfold c_true. destruct (Z.eqb_spec c 0); [done|]. simpl.
    rewrite (IH (n + 1) s); [f_equal; lia| |lia]. by rewrite Z.add_assoc.
Qed.

Lemma strlen_str m a s : is_str m a s -> strlen m a = Some (Z.of_nat (length s)).
Proof.
  intros H. unfold strlen. rewrite (strlen_loop_spec _ _ _ s); [done|by rewrite Z.add_0_r|by eapply is_str_size].
Qed.

(** ** Stores *)

Lemma lookup_wr_out m a l b : b < a \/ a + Z.of_nat (length l) <= b -> wr m a l !! b = m !! b.
Proof. intros H. rewrite lookup_wr. destruct (Z.leb_spec a b), (Z.ltb_spec b (a + Z.of_nat (length l))); try done; lia. Qed.

Lemma lookup_wr_in m a l i : (i < length l)%nat -> wr m a l !! (a + Z.of_nat i) = l !! i.
Proof.
  intros H. rewrite lookup_wr. destruct (Z.leb_spec a (a + Z.of_nat i)), (Z.ltb_spec (a + Z.of_nat i) (a + Z.of_nat (length l))); try lia.
  simpl. f_equal. lia.
Qed.

Lemma wr_cons m a c l : wr m a (c :: l) = wr (<[a := c]> m) (a + 1) l.
Proof. done. Qed.

Lemma st_mapped m a v : is_Some (m !! a) -> st m a v = Some (<[a := v]> m).
Proof. intros [x H]. unfold st. by rewrite H. Qed.

Lemma mapped_wr m a n b l : mapped m a n -> mapped (wr m b l) a n.
Proof.
  intros H i Hi. rewrite lookup_wr. destruct (Z.leb_spec b (a + i)), (Z.ltb_spec (a + i) (b + Z.of_nat (length l))); simpl; try by apply H.
  apply lookup_lt_is_Some. lia.
Qed.

Lemma mapped_insert m a n b v : mapped m a n -> mapped (<[b := v]> m) a n.
Proof. intros H. exact (mapped_wr m a n b [v] H). Qed.

(** The string [wr] stores. *)
Lemma is_str_wr m a s : Forall (fun c => c <> 0) s -> is_str (wr m a (s ++ [0])) a s.
Proof.
  induction 1 as [|c s Hc Hs IH] in m, a |- *; simpl; rewrite wr_cons; [apply lookup_insert_eq|]. split_and!; [|done|apply IH].
  rewrite lookup_wr_out by lia. by rewrite lookup_insert_eq.
Qed.

(** [strcpy] between strings that do not overlap. *)
Lemma strcpy_loop_spec fuel m s t l : is_str m t l -> (length l < fuel)%nat ->
  mapped m s (Z.of_nat (length l) + 1) ->
  (s + Z.of_nat (length l) < t \/ t + Z.of_nat (length l) < s) ->
  strcpy_loop fuel m s t = Some (wr m s (l ++ [0])).
Proof.
  revert m s t l. induction fuel as [|fuel IH]; intros m s t l H Hf Hm Hd; [lia|].
  assert (Hs : is_Some (m !! s)) by (rewrite <- (Z.add_0_r s); apply Hm; lia).
  destruct l as [|c l]; simpl in *.
  - rewrite H. simpl. by rewrite st_mapped.
  - destruct H as (H1 & H2 & H3). rewrite H1. simpl. rewrite st_mapped by done. simpl.
    destruct (Z.eqb_spec c 0); [done|]. apply IH; [|lia| |lia].
    + eapply is_str_ext; [|done]. intros i Hi. apply lookup_insert_ne. lia.
    + intros i Hi. rewrite <- Z.add_assoc. apply mapped_insert with (n := Z.of_nat (S (length l)) + 1); [done|lia].
Qed.

Lemma strcpy_str m s t l : is_str m t l -> mapped m s (Z.of_nat (length l) + 1) ->
  (s + Z.of_nat (length l) < t \/ t + Z.of_nat (length l) < s) ->
  strcpy m s t = Some (wr m s (l ++ [0])).
Proof. intros H. apply strcpy_loop_spec; [done|]. by eapply is_str_size. Qed.

Lemma mapped_sub m a n b k : mapped m a n -> a <= b -> b + k <= a + n -> mapped m b k.
Proof. intros H H1 H2 i Hi. replace (b + i) with (a + (b - a + i)) by lia. apply H. lia. Qed.

Lemma is_Some_rd m a : is_Some (m !! a) -> m !! a = Some (rd m a).
Proof. intros [x H]. unfold rd. by rewrite H. Qed.

(** ** [memset], [memmove] *)

Lemma seqZ_succ i k : seqZ i (Z.of_nat (S k)) = i :: seqZ (i + 1) (Z.of_nat k).
Proof. rewrite seqZ_cons by lia. f_equal. f_equal; lia. Qed.

Lemma memset_spec m dst c n : 0 <= n -> mapped m dst n -> memset m dst c n = Some (wr m dst (repeat (u8 c) (Z.to_nat n))).
Proof.
  intros Hn Hm. unfold memset. assert (G : forall k i m', mapped m' dst n -> i + Z.of_nat k <= n -> 0 <= i ->
    for_mem (seqZ i (Z.of_nat k)) (fun i m => st m (dst + i) (u8 c)) m' = Some (wr m' (dst + i) (repeat (u8 c) k))).
  { induction k as [|k IH]; intros i m' H Hk Hi; [done|]. rewrite seqZ_succ. cbn [for_mem].
    rewrite st_mapped by (apply H; lia). simpl.
    rewrite IH; [|by apply mapped_insert|lia|lia]. rewrite wr_cons. do 2 f_equal. lia. }
  pose proof (G (Z.to_nat n) 0 m) as E. rewrite Z2Nat.id, Z.add_0_r in E by done. apply E; [done|lia|lia].
Qed.

Lemma move_byte_spec dst src i m m0 : is_Some (m !! (dst + i)) -> m !! (src + i) = m0 !! (src + i) -> is_Some (m0 !! (src + i)) ->
  move_byte dst src i m = Some (<[dst + i := rd m0 (src + i)]> m).
Proof. intros H1 E H2. unfold move_byte. rewrite E, (is_Some_rd _ _ H2). simpl. by apply st_mapped. Qed.

Lemma rdn_snoc m a k : rdn m a (Z.of_nat (S k)) = rdn m a (Z.of_nat k) ++ [rd m (a + Z.of_nat k)].
Proof. unfold rdn. by rewrite seqZ_S, map_app. Qed.

Lemma for_mem_app l l' f m : for_mem (l ++ l') f m = m' ← for_mem l f m; for_mem l' f m'.
Proof. revert m. induction l as [|i l IH]; intros m; simpl; [done|]. destruct (f i m); simpl; [apply IH|done]. Qed.

Lemma move_forward m dst src n k : dst < src -> mapped m dst n -> mapped m src n -> Z.of_nat k <= n ->
  for_mem (seqZ 0 (Z.of_nat k)) (move_byte dst src) m = Some (wr m dst (rdn m src (Z.of_nat k))).
Proof.
  intros Hlt Hd Hs. induction k as [|k IH]; intros Hk; [done|].
  rewrite seqZ_S, for_mem_app, IH by lia. rewrite rdn_snoc, wr_snoc, length_rdn, Nat2Z.id by lia. simpl.
  rewrite (move_byte_spec _ _ _ _ m); [done|apply mapped_wr with (n := n); [done|lia]| |apply Hs; lia].
  apply lookup_wr_out. rewrite length_rdn by lia. lia.
Qed.

Lemma move_backward m dst src n k : src <= dst -> mapped m dst n -> mapped m src n -> Z.of_nat k <= n ->
  for_mem (reverse (seqZ (n - Z.of_nat k) (Z.of_nat k))) (move_byte dst src) m =
    Some (wr m (dst + (n - Z.of_nat k)) (rdn m (src + (n - Z.of_nat k)) (Z.of_nat k))).
Proof.
  intros Hle Hd Hs. induction k as [|k IH]; intros Hk; [done|].
  rewrite seqZ_succ, reverse_cons, for_mem_app. set (i := n - Z.of_nat (S k)).
  replace (i + 1) with (n - Z.of_nat k) by lia. rewrite IH by lia. cbn [mbind option_bind for_mem].
  assert (E : forall b, b < dst + (n - Z.of_nat k) -> wr m (dst + (n - Z.of_nat k)) (rdn m (src + (n - Z.of_nat k)) (Z.of_nat k)) !! b = m !! b)
    by (intros b Hb; apply lookup_wr_out; lia).
  rewrite (move_byte_spec _ _ _ _ m); [|rewrite E by lia; apply Hd; lia|apply E; lia|apply Hs; lia]. simpl. f_equal.
  rewrite <- rdn_cons, wr_cons. replace (src + i + 1) with (src + (n - Z.of_nat k)) by lia. replace (dst + i + 1) with (dst + (n - Z.of_nat k)) by lia.
  apply map_eq. intros a. destruct (decide (a = dst + i)) as [->|Hne].
  - rewrite lookup_insert_eq. rewrite lookup_wr_out by lia. by rewrite lookup_insert_eq.
  - rewrite lookup_insert_ne by done. rewrite !lookup_wr. by rewrite lookup_insert_ne by done.
Qed.

(** The user library's [memmove] copies the bytes as they were before the
    call, for every overlap of source and destination, and changes nothing
    else. *)
Lemma memmove_spec m dst src n : 0 <= n -> mapped m dst n -> mapped m src n ->
  memmove m dst src n = Some (wr m dst (rdn m src n)).
Proof.
  intros Hn Hd Hs. unfold memmove. rewrite Z.gtb_ltb. destruct (Z.ltb_spec dst src).
  - pose proof (move_forward m dst src n (Z.to_nat n)) as E. rewrite Z2Nat.id in E by done. apply E; done || lia.
  - pose proof (move_backward m dst src n (Z.to_nat n)) as E. rewrite Z2Nat.id, Z.sub_diag, !Z.add_0_r in E by done.
    apply E; done || lia.
Qed.

(** The bytes of a string. *)
Lemma is_str_rdn m a s : is_str m a s -> rdn m a (Z.of_nat (length s)) = s.
Proof.
  revert a. induction s as [|c s IH]; intros a H; simpl in *; [done|]. destruct H as (H1 & _ & H2).
  change (Z.pos (Pos.of_succ_nat (length s))) with (Z.of_nat (S (length s))). rewrite <- rdn_cons, IH by done. unfold rd. by rewrite H1.
Qed.

(** ** Comparison and search *)

(** The sign of the difference at the first byte where the strings differ,
    NUL being less than every byte. *)
Fixpoint str_cmp (s t : list Z) : Z :=
  match s, t with
  | [], [] => 0
  | [], b :: _ => - b
  | a :: _, [] => a
  | a :: s, b :: t => if a =? b then str_cmp s t else a - b
  end.

Lemma strcmp_loop_spec fuel m p q s t : is_str m p s -> is_str m q t -> (length s < fuel)%nat ->
  strcmp_loop fuel m p q = Some (str_cmp s t).
Proof.
  revert p q s t. induction fuel as [|fuel IH]; intros p q s t Hs Ht Hf; [lia|].
  destruct s as [|a s], t as [|b t]; simpl in *.
  - by rewrite Hs, Ht.
  - destruct Ht as (Ht & Hb & _). rewrite Hs, Ht. simpl. done.
  - destruct Hs as (Hs & Ha & _). rewrite Hs, Ht. simpl. unfold c_true. destruct (Z.eqb_spec a 0); [done|]. simpl. f_equal. lia.
  - destruct Hs as (Hs & Ha & Hs'), Ht as (Ht & Hb & Ht'). rewrite Hs, Ht. simpl. unfold c_true.
    destruct (Z.eqb_spec a 0); [done|]. simpl. destruct (Z.eqb_spec a b); [|done]. apply IH; [done..|lia].
Qed.

Lemma str_cmp_eq s t : Forall (fun c => 0 < c) s -> Forall (fun c => 0 < c) t -> str_cmp s t = 0 <-> s = t.
Proof.
  intros Hs. revert t. induction Hs as [|a s Ha Hs IH]; intros [|b t] Ht; simpl; inversion Ht; subst; try (split; [lia|done]); [done|].
  destruct (Z.eqb_spec a b) as [->|]; [rewrite IH by done|]; split; intros; simplify_eq; done || lia.
Qed.

Lemma strcmp_str m p q s t : is_str m p s -> is_str m q t -> strcmp m p q = Some (str_cmp s t).
Proof. intros Hs Ht. apply strcmp_loop_spec; [done..|]. by eapply is_str_size. Qed.

Lemma strchr_loop_spec fuel m a s c : is_str m a s -> (length s < fuel)%nat -> c <> 0 ->
  strchr_loop fuel m a c = Some (match list_find (eq c) s with Some (i, _) => a + Z.of_nat i | None => 0 end).
Proof.
  revert a s. induction fuel as [|fuel IH]; intros a s H Hf Hc; [lia|]. destruct s as [|b s]; simpl in *.
  - by rewrite H.
  - destruct H as (H1 & H2 & H3). rewrite H1. simpl. unfold c_true. destruct (Z.eqb_spec b 0); [done|]. simpl.
    destruct (Z.eqb_spec b c) as [->|Hn]; [rewrite decide_True by done; f_equal; lia|]. rewrite decide_False by congruence.
    rewrite (IH (a + 1) s) by (done || lia). destruct (list_find (eq c) s) as [[i x]|]; simpl; f_equal; lia.
Qed.

Lemma strchr_str m a s c : is_str m a s -> c <> 0 ->
  strchr m a c = Some (match list_find (eq c) s with Some (i, _) => a + Z.of_nat i | None => 0 end).
Proof. intros H. apply strchr_loop_spec; [done|]. by eapply is_str_size. Qed.

Lemma memcmp_loop_eq n m p q : mapped m p (Z.of_nat n) -> mapped m q (Z.of_nat n) ->
  exists r, memcmp_loop n m p q = Some r /\ (r = 0 <-> rdn m p (Z.of_nat n) = rdn m q (Z.of_nat n)).
Proof.
  revert p q. induction n as [|n IH]; intros p q Hp Hq; [by exists 0|]. cbn [memcmp_loop].
  assert (E : forall a, mapped m a (Z.of_nat (S n)) -> m !! a = Some (rd m a)).
  { intros a Ha. apply is_Some_rd. rewrite <- (Z.add_0_r a). apply Ha. lia. }
  rewrite (E p Hp), (E q Hq), <- !rdn_cons. simpl. destruct (Z.eqb_spec (rd m p) (rd m q)) as [Hpq|Hpq]; simpl.
  - rewrite Hpq. destruct (IH (p + 1) (q + 1)) as (r & Hr & Hr').
    + apply (mapped_sub m p (Z.of_nat (S n))); [done|lia|lia].
    + apply (mapped_sub m q (Z.of_nat (S n))); [done|lia|lia].
    + exists r. split; [done|]. rewrite Hr'. split; [by intros ->|by intros [=]].
  - eexists. split; [done|]. split; [lia|]. by intros [= ? _].
Qed.

(** ** Numbers *)

(** The value of digits, most significant first. *)
Definition val (base : Z) (ds : list Z) : Z := foldl (fun a d => a * base + d) 0 ds.

(** The numeral of [x]: no digit of it is superfluous. *)
Definition numeral (base x : Z) (ds : list Z) : Prop :=
  Forall (fun d => 0 <= d < base) ds /\ val base ds = x /\ (ds = [0] \/ exists d ds', ds = d :: ds' /\ d <> 0).

Definition digit (d : Z) : Z := nth (Z.to_nat d) digits 0.

Lemma val_snoc base ds d : val base (ds ++ [d]) = val base ds * base + d.
Proof. unfold val. by rewrite foldl_app. Qed.

Lemma digit_lookup d : 0 <= d < 16 -> digits !! Z.to_nat d = Some (digit d).
Proof.
  intros H. unfold digit. rewrite nth_lookup. destruct (lookup_lt_is_Some_2 digits (Z.to_nat d)) as [c E]; [|by rewrite E].
  change (length digits) with 16%nat. lia.
Qed.

Lemma put_buf_take buf i c : (i < length buf)%nat ->
  put_buf buf i c = Some (<[i := c]> buf) /\ take (S i) (<[i := c]> buf) = take i buf ++ [c].
Proof.
  intros H. unfold put_buf. rewrite decide_True by done. split; [done|].
  rewrite (take_S_r _ _ c) by by apply list_lookup_insert_eq. by rewrite take_insert_ge.
Qed.

(** The digits of a number below [base ^ k] fill at most [k] places. *)
Lemma print_digits_spec base k fuel x buf i :
  2 <= base <= 16 -> (0 < k <= fuel)%nat -> 0 <= x < base ^ Z.of_nat k -> (i + k <= length buf)%nat ->
  exists ds buf', print_digits fuel x base buf i = Some (buf', (i + length ds)%nat) /\
    length buf' = length buf /\ (0 < length ds <= k)%nat /\
    take (i + length ds) buf' = take i buf ++ (digit <$> ds) /\ numeral base x (reverse ds).
Proof.
  intros Hb. revert fuel x buf i. induction k as [|k IH]; intros fuel x buf i Hk Hx Hi; [lia|].
  destruct fuel as [|fuel]; [lia|]. cbn [print_digits]. pose proof (Z.mod_pos_bound x base ltac:(lia)) as Hmod.
  rewrite digit_lookup by lia. cbn [mbind option_bind].
  destruct (put_buf_take buf i (digit (x mod base)) ltac:(lia)) as [-> Et]. cbn [mbind option_bind].
  pose proof (Z.div_mod x base ltac:(lia)) as Hdm. assert (0 <= x / base) by (apply Z.div_pos; lia).
  destruct (Z.eqb_spec (x / base) 0) as [E0|E0].
  - exists [x mod base], (<[i := digit (x mod base)]> buf). rewrite length_insert. simpl. rewrite Nat.add_1_r.
    split; [done|]. split; [done|]. split; [lia|]. split; [exact Et|]. split; [by constructor|]. split.
    + unfold val. simpl. lia.
    + destruct (decide (x mod base = 0)) as [->|]; [by left|right; by eexists _, _].
  - rewrite Nat2Z.inj_succ, Z.pow_succ_r in Hx by lia.
    assert (Hlt : x / base < base ^ Z.of_nat k) by (apply Z.div_lt_upper_bound; lia).
    assert ((0 < k)%nat) by (destruct k; [simpl in Hlt; lia|lia]).
    destruct (IH fuel (x / base) (<[i := digit (x mod base)]> buf) (S i)) as (ds & buf' & H1 & H2 & H3 & H4 & H5 & H6 & H7);
      rewrite ?length_insert in *; try lia.
    exists (x mod base :: ds), buf'. rewrite H1. simpl. rewrite Nat.add_succ_r. split; [done|]. split; [done|]. split; [lia|]. split.
    + change (S (i + length ds)) with (S i + length ds)%nat. rewrite H4, Et, <- app_assoc. done.
    + rewrite reverse_cons. unfold numeral. rewrite val_snoc, H6. split_and!; [|lia|].
      * apply Forall_app. split; [done|]. by constructor.
      * right. destruct H7 as [H7|(d & ds' & H7 & Hd)]; rewrite H7 in *.
        { unfold val in H6. simpl in H6. lia. }
        by eexists _, _.
Qed.

(** The text [printint] prints. *)
Definition int_text (xx base : Z) (sgn : bool) : list Z :=
  match printint_buf xx base sgn with Some (buf, i) => reverse (take i buf) | None => [] end.

Lemma printint_buf_spec xx base sgn : 10 <= base <= 16 ->
  let neg := sgn && (xx <? 0) in
  exists ds buf i, printint_buf xx base sgn = Some (buf, i) /\ (length ds <= 10)%nat /\
    int_text xx base sgn = (if neg then [45] else []) ++ (digit <$> ds) /\
    numeral base (if neg then u32 (- xx) else u32 xx) ds.
Proof.
  intros Hb neg. unfold int_text, printint_buf. fold neg. set (x := if neg then u32 (- xx) else u32 xx).
  assert (Hx : 0 <= x < 2 ^ 32) by (unfold x; destruct neg; apply u32_range).
  destruct (print_digits_spec base 10 32 x (repeat 0 16) 0) as (ds & buf & -> & Hl & Hn & Ht & Hv); [lia|lia| |by simpl; lia|].
  { split; [lia|]. apply Z.lt_le_trans with (10 ^ 10); [lia|]. apply Z.pow_le_mono_l. lia. }
  simpl in Ht, Hl. cbn [mbind option_bind Nat.add]. exists (reverse ds). destruct neg.
  - destruct (put_buf_take buf (length ds) 45 ltac:(lia)) as [-> Et]. cbn [mbind option_bind]. eexists _, _. split; [done|].
    split; [rewrite length_reverse; lia|]. split; [|done]. by rewrite Et, Ht, reverse_app, fmap_reverse.
  - eexists _, _. split; [done|]. split; [rewrite length_reverse; lia|]. split; [|done]. by rewrite Ht, fmap_reverse.
Qed.

(** The decimal numeral of a number. *)
Definition decimal (x : Z) : list Z := bytes_of (pretty (Z.to_N x)).

Lemma digit_char d : 0 <= d < 10 -> digit d = Z.of_N (Ascii.N_of_ascii (pretty_N_char (Z.to_N d))).
Proof.
  intros H. assert (d = 0 \/ d = 1 \/ d = 2 \/ d = 3 \/ d = 4 \/ d = 5 \/ d = 6 \/ d = 7 \/ d = 8 \/ d = 9) as Hd by lia.
  by repeat (destruct Hd as [->|Hd]); [..|subst d].
Qed.

Lemma pretty_digits ds s :
  Forall (fun d => 0 <= d < 10) ds -> hd 1 ds <> 0 ->
  0 <= val 10 ds /\ (ds <> [] -> 0 < val 10 ds) /\
  bytes_of (pretty_N_go (Z.to_N (val 10 ds)) s) = (digit <$> ds) ++ bytes_of s.
Proof.
  revert s. induction ds as [|d ds IH] using rev_ind; intros s; [done|].
  intros [Hds Hd%Forall_inv]%Forall_app Hh. rewrite val_snoc.
  destruct (IH (String (pretty_N_char (Z.to_N d)) s) Hds) as (H1 & H2 & H3); [by destruct ds|].
  assert (0 < val 10 ds * 10 + d) by (destruct ds as [|d' ds]; [cbn in *; lia|specialize (H2 ltac:(done)); lia]).
  split; [lia|]. split; [done|]. rewrite pretty_N_go_step by lia.
  replace (Z.to_N (val 10 ds * 10 + d) `div` 10)%N with (Z.to_N (val 10 ds))
    by (apply (N.div_unique _ _ _ (Z.to_N d)); lia).
  replace (Z.to_N (val 10 ds * 10 + d) `mod` 10)%N with (Z.to_N d)
    by (apply (N.mod_unique _ _ (Z.to_N (val 10 ds))); lia).
  rewrite H3, fmap_app, <- app_assoc. cbn [bytes_of]. by rewrite <- digit_char.
Qed.

Lemma int_text_decimal x : 0 <= x < 2 ^ 31 -> int_text x 10 true = decimal x.
Proof.
  intros Hx. destruct (printint_buf_spec x 10 true) as (ds & _ & _ & _ & _ & -> & Hf & Hv & Hh); [lia|].
  rewrite (proj2 (Z.ltb_ge x 0)) in * by lia. cbn [andb app] in *. rewrite u32_id in Hv by lia.
  unfold decimal, pretty, pretty_N. destruct Hh as [->|(d & ds' & -> & Hd)].
  - cbn in Hv. subst x. done.
  - destruct (pretty_digits (d :: ds') "" Hf Hd) as (_ & H1 & H2). rewrite Hv, app_nil_r in H2. specialize (H1 ltac:(done)).
    rewrite decide_False by lia. done.
Qed.

(** ** Printing *)

Definition is_byte (c : Z) : Prop := 0 <= c < 256.

Lemma emit_emit fd a b w : emit fd b (emit fd a w) = emit fd (a ++ b) w.
Proof. unfold emit. simpl. by rewrite <- app_assoc, <- map_app. Qed.

Lemma emit_nil fd w : emit fd [] w = w.
Proof. unfold emit. simpl. rewrite app_nil_r. by destruct w. Qed.

(** The hexadecimal digits of a pointer. *)
Fixpoint hex_text (n : nat) (x : Z) : list Z :=
  match n with
  | O => []
  | S n => digit (Z.shiftr x 60) :: hex_text n (u64 (Z.shiftl x 4))
  end.

(** The program prints [l] on [fd], byte by byte, does nothing else, and
    returns [a]. *)
Inductive prints {A} (fd : Z) (a : A) (t : prog A) : list Z -> Prop :=
| prints_ret' : observe t = RetF a -> prints fd a t []
| prints_tau' u l : observe t = TauF u -> prints fd a u l -> prints fd a t l
| prints_byte' c k l : observe t = VisF (Write fd [c]) k -> (forall x, prints fd a (k x) l) -> prints fd a t (c :: l).

Section printing.
Context (fd : Z).

Lemma prints_observe {A} (a : A) t u l : observe t = observe u -> prints fd a u l -> prints fd a t l.
Proof.
  intros E H. destruct H.
  - apply prints_ret'. by rewrite E.
  - eapply prints_tau'; [by rewrite E|done].
  - eapply prints_byte'; [by rewrite E|done].
Qed.

Lemma prints_bind {A B} (a : A) (b : B) t k l l' :
  prints fd a t l -> prints fd b (k a) l' -> prints fd b (t ≫= k) (l ++ l').
Proof.
  intros H Hk. induction H as [t E|t u l E _ IH|t c k' l E _ IH]; simpl.
  - eapply prints_observe; [|done]. by rewrite observe_bind, E.
  - eapply prints_tau'; [by rewrite observe_bind, E|done].
  - eapply prints_byte'; [by rewrite observe_bind, E|done].
Qed.

Lemma prints_ret {A} (a : A) : prints fd a (mret a) [].
Proof. by apply prints_ret'. Qed.

Lemma prints_putc c : prints fd () (putc fd c) [u8 c].
Proof. eapply prints_byte'; [unfold putc; by rewrite observe_bind|]. intros x. by apply prints_ret'. Qed.

(** [t] then [k]. *)
Lemma prints_then {A B} (a : A) (b : B) t k l l' L :
  prints fd a t l -> prints fd b (k a) l' -> L = l ++ l' -> prints fd b (t ≫= k) L.
Proof. intros H H' ->. by eapply prints_bind. Qed.

Lemma prints_seq {A B} (a : A) (b : B) t k l : prints fd a t l -> k a = mret b -> prints fd b (t ≫= k) l.
Proof. intros H E. eapply prints_then; [done|rewrite E; apply prints_ret|by rewrite app_nil_r]. Qed.

Lemma prints_puts l : Forall is_byte l -> prints fd () (for_prog l (putc fd)) l.
Proof.
  induction 1 as [|c l Hc Hl IH]; simpl; [apply prints_ret|].
  eapply prints_then; [apply prints_putc|done|]. by rewrite u8_id.
Qed.

Lemma digit_byte d : 0 <= d < 16 -> is_byte (digit d).
Proof.
  intros H%digit_lookup. unfold is_byte. assert (Hf : Forall (fun c => 0 <= c < 256) digits) by (repeat constructor; done).
  rewrite Forall_lookup in Hf. by eapply Hf.
Qed.

Lemma digits_bytes base ds : base <= 16 -> Forall (fun d => 0 <= d < base) ds -> Forall is_byte (digit <$> ds).
Proof. intros Hb H. apply Forall_fmap. eapply Forall_impl; [done|]. intros d Hd. cbv beta in Hd. apply digit_byte. lia. Qed.

Lemma prints_int xx base sgn : 10 <= base <= 16 -> prints fd () (printint fd xx base sgn) (int_text xx base sgn).
Proof.
  intros Hb. destruct (printint_buf_spec xx base sgn Hb) as (ds & buf & i & E & _ & Et & Hn & _).
  unfold printint, int_text in *. rewrite E in *. eapply prints_then; [by apply prints_ret'|apply prints_puts|done].
  rewrite Et. apply Forall_app. split; [|eapply digits_bytes; [|done]; lia].
  destruct (sgn && (xx <? 0)); by repeat constructor.
Qed.

Lemma prints_str fuel m s l : is_str m s l -> Forall is_byte l -> (length l < fuel)%nat -> prints fd () (print_str fuel m fd s) l.
Proof.
  revert s l. induction fuel as [|fuel IH]; intros s l Hs Hl Hf; [lia|]. destruct l as [|c l]; simpl in *.
  - rewrite Hs. eapply prints_then; [by apply prints_ret'|apply prints_ret|done].
  - destruct Hs as (H1 & H2 & H3). rewrite H1. eapply prints_then; [by apply prints_ret'| |done]. simpl.
    destruct (Z.eqb_spec c 0); [done|]. inversion Hl; subst.
    eapply prints_then; [apply prints_putc|apply IH; [done|done|lia]|]. by rewrite u8_id.
Qed.

Lemma prints_hex n x : 0 <= x < 2 ^ 64 -> prints fd () (printptr_loop n fd x) (hex_text n x).
Proof.
  revert x. induction n as [|n IH]; intros x Hx; cbn [printptr_loop hex_text]; [apply prints_ret|].
  assert (Hd : 0 <= Z.shiftr x 60 < 16).
  { rewrite Z.shiftr_div_pow2 by lia. split; [apply Z.div_pos; lia|apply Z.div_lt_upper_bound; lia]. }
  rewrite digit_lookup by done. eapply prints_then; [by apply prints_ret'| |done].
  eapply prints_then; [apply prints_putc|apply IH, u64_range|]. by rewrite u8_id by by apply digit_byte.
Qed.

End printing.

(** What a conversion prints of its argument. *)
Inductive shows (m : mem) : Z -> va_arg -> list Z -> Prop :=
| shows_d x : shows m 100 (A_int x) (int_text x 10 true)
| shows_l x : shows m 108 (A_uint64 x) (int_text (s32 x) 10 false)
| shows_x x : shows m 120 (A_int x) (int_text x 16 false)
| shows_p x : 0 <= x < 2 ^ 64 -> shows m 112 (A_uint64 x) ([48; 120] ++ hex_text 16 x)
| shows_s p s : p <> 0 -> is_str m p s -> Forall is_byte s -> shows m 115 (A_str p) s
| shows_null : shows m 115 (A_str 0) (bytes_of "(null)")
| shows_c x : shows m 99 (A_int x) [u8 x].

Definition conversions : list Z := bytes_of "dlxpsc".

(** The text of a format string and its arguments. *)
Inductive formats (m : mem) : list Z -> list va_arg -> list Z -> Prop :=
| formats_nil ap : formats m [] ap []
| formats_open ap : formats m [c_percent] ap []
| formats_char c fmt ap t : c <> c_percent -> is_byte c -> formats m fmt ap t -> formats m (c :: fmt) ap (c :: t)
| formats_conv c a fmt ap t t' : shows m c a t -> formats m fmt ap t' -> formats m (c_percent :: c :: fmt) (a :: ap) (t ++ t')
| formats_percent fmt ap t : formats m fmt ap t -> formats m (c_percent :: c_percent :: fmt) ap (c_percent :: t)
| formats_other c fmt ap t : c <> c_percent -> is_byte c -> c ∉ conversions -> formats m fmt ap t ->
    formats m (c_percent :: c :: fmt) ap (c_percent :: c :: t).

Lemma prints_conv fd m c a ap t : shows m c a t -> prints fd ap (print_conv m fd c (a :: ap)) t.
Proof.
  intros Hs. destruct Hs; unfold print_conv; cbn [Z.eqb Pos.eqb]; eapply prints_seq; try done.
  - by apply prints_int.
  - by apply prints_int.
  - by apply prints_int.
  - eapply prints_then; [apply prints_putc| |done]. eapply prints_then; [apply prints_putc|by apply prints_hex|done].
  - destruct (Z.eqb_spec p 0); [done|]. apply prints_str; [done|done|by eapply is_str_size].
  - apply prints_puts. apply (bool_decide_unpack _). vm_compute. done.
  - apply prints_putc.
Qed.

Lemma prints_conv_other fd m c ap : is_byte c -> c ∉ conversions ->
  prints fd ap (print_conv m fd c ap) (if c =? c_percent then [c] else [c_percent; c]).
Proof.
  intros Hc Hn. unfold print_conv.
  assert (E : forall d, d ∈ conversions -> (c =? d) = false) by (intros d Hd; apply Z.eqb_neq; congruence).
  rewrite !E by (apply (bool_decide_unpack _); vm_compute; done). destruct (c =? c_percent).
  - rewrite <- (u8_id c Hc) at 2. eapply prints_seq; [apply prints_putc|done].
  - eapply prints_then; [apply prints_putc| |reflexivity]. rewrite <- (u8_id c Hc) at 2. eapply prints_seq; [apply prints_putc|done].
Qed.

(** [vprintf] prints the text of its format and arguments, in order, and
    does nothing else. *)
Lemma prints_vprintf fd m fmt ap t : formats m fmt ap t -> prints fd () (vprintf m fd fmt ap) t.
Proof.
  unfold vprintf. induction 1; simpl; try apply prints_ret.
  - destruct (Z.eqb_spec c c_percent); [done|]. eapply prints_then; [apply prints_putc|done|]. by rewrite u8_id.
  - eapply prints_then; [by apply prints_conv|done|done].
  - eapply prints_then; [apply prints_conv_other; [done|by apply (bool_decide_unpack _); vm_compute]|done|done].
  - eapply prints_then; [by apply prints_conv_other|done|]. destruct (Z.eqb_spec c c_percent); done.
Qed.

(** Printing with [stdio]. *)
Lemma wpi_prints {A} X fd (a : A) t l (Q : A -> world -> Prop) w :
  prints fd a t l -> w_fds w !! fd = Some Output -> Q a (emit fd l w) -> wpi X Q t w.
Proof.
  intros H. revert w. induction H as [t E|t u l E _ IH|t c k l E _ IH]; intros w Hw HQ.
  - eapply wpi_ret'; [done|]. by rewrite emit_nil in HQ.
  - eapply wpi_tau'; [done|]. by apply IH.
  - eapply wpi_vis'; [done|..]; unfold os_step, stdio; simpl; rewrite Hw; [by eexists _, _|].
    intros x w' [-> ->]. apply IH; [done|]. by rewrite emit_emit.
Qed.

Lemma wpi_vprintf X m fd fmt ap t (Q : unit -> world -> Prop) w :
  formats m fmt ap t -> w_fds w !! fd = Some Output -> Q () (emit fd t w) -> wpi X Q (vprintf m fd fmt ap) w.
Proof. intros Hf. by eapply wpi_prints, prints_vprintf. Qed.

Lemma wpi_printint X fd (Q : unit -> world -> Prop) xx base sgn w :
  10 <= base <= 16 -> w_fds w !! fd = Some Output -> Q () (emit fd (int_text xx base sgn) w) ->
  wpi X Q (printint fd xx base sgn) w.
Proof. intros Hb. by eapply wpi_prints, prints_int. Qed.

(** ** [printint] and [atoi] *)

(** [printint] stays within its buffer of 16 bytes, of which it uses at
    most 11, for every integer in base 10 or 16; what it prints is a minus
    sign for a negative number printed with a sign, and the digits of the
    magnitude without superfluous ones. *)
Theorem printint_numeral X fd xx base sgn w :
  base = 10 \/ base = 16 -> - 2 ^ 31 <= xx < 2 ^ 31 -> w_fds w !! fd = Some Output ->
  let neg := sgn && (xx <? 0) in
  wpi X (fun _ w' => exists ds, numeral base (if neg then - xx else xx mod 2 ^ 32) ds /\ (length ds <= 10)%nat /\
    w' = emit fd ((if neg then [45] else []) ++ (digit <$> ds)) w) (printint fd xx base sgn) w.
Proof.
  intros Hb Hx Hw neg. destruct (printint_buf_spec xx base sgn) as (ds & buf & i & E & Hi & Et & Hn); [destruct Hb; lia|].
  fold neg in Et, Hn. apply wpi_printint; [destruct Hb; lia|done|]. exists ds. rewrite Et. split; [|done].
  unfold neg in *. destruct (Z.ltb_spec xx 0); rewrite ?andb_false_r, ?andb_true_r in *; destruct sgn; try done.
  by rewrite u32_id in Hn by lia.
Qed.

Lemma digit_val d : 0 <= d < 10 -> digit d = d + 48.
Proof.
  intros H. unfold digit. assert (Hall : forallb (fun i => nth (Z.to_nat i) digits 0 =? i + 48) (seqZ 0 10) = true) by (vm_compute; done).
  rewrite forallb_forall in Hall. apply Z.eqb_eq, Hall, list_elem_of_In, elem_of_seqZ. lia.
Qed.

Lemma val_ge ds n : 0 <= n -> Forall (fun d => 0 <= d < 10) ds -> n <= foldl (fun a d => a * 10 + d) n ds.
Proof.
  intros Hn H. revert n Hn. induction H as [|d ds Hd _ IH]; intros n Hn; simpl; [lia|]. etrans; [|apply IH; lia]. lia.
Qed.

Lemma atoi_loop_spec fuel m a ds n : is_str m a (digit <$> ds) -> Forall (fun d => 0 <= d < 10) ds -> 0 <= n ->
  foldl (fun a d => a * 10 + d) n ds < 2 ^ 31 -> (length ds < fuel)%nat ->
  atoi_loop fuel m a n = Some (foldl (fun a d => a * 10 + d) n ds).
Proof.
  intros Hs Hd. revert fuel a n Hs. induction Hd as [|d ds Hd Hds IH]; intros fuel a n Hs Hn Hv Hf; (destruct fuel as [|fuel]; [lia|]); simpl in *.
  - by rewrite Hs.
  - destruct Hs as (H1 & _ & H3). rewrite H1, digit_val by done. simpl.
    destruct (Z.leb_spec 48 (d + 48)), (Z.leb_spec (d + 48) 57); try lia. simpl.
    pose proof (val_ge ds (n * 10 + d) ltac:(lia) Hds). replace (n * 10 + (d + 48) - 48) with (n * 10 + d) by lia.
    unfold s32. rewrite swrap_id by lia. apply IH; done || lia.
Qed.

(** What [printint] prints of an integer in base 10, as a string, [atoi]
    reads as that integer, and as 0 when it is negative ([atoi] does not know
    signs). *)
Theorem printint_atoi X fd xx w :
  - 2 ^ 31 <= xx < 2 ^ 31 -> w_fds w !! fd = Some Output ->
  wpi X (fun _ w' => exists t, w' = emit fd t w /\ forall m a, is_str m a t -> atoi m a = Some (Z.max 0 xx)) (printint fd xx 10 true) w.
Proof.
  intros Hx Hw. destruct (printint_buf_spec xx 10 true) as (ds & buf & i & E & Hi & Et & Hn & Hv & _); [lia|].
  apply wpi_printint; [lia|done|]. exists (int_text xx 10 true). split; [done|]. intros m a Hs.
  assert (Hf := is_str_size _ _ _ Hs). unfold atoi. rewrite Et in *. simpl in Et, Hs, Hv. destruct (Z.ltb_spec xx 0); simpl in *.
  - destruct (size m); [lia|]. simpl. destruct Hs as (H1 & _). rewrite H1. simpl. f_equal. lia.
  - rewrite length_fmap in Hf. rewrite u32_id in Hv by lia. unfold val in Hv.
    rewrite (atoi_loop_spec _ _ _ ds) by (done || lia). f_equal. lia.
Qed.

(** ** [gets] *)

(** The bytes to the end of the first line, at most [n]. *)
Fixpoint get_line (n : nat) (rest : list Z) : list Z :=
  match n, rest with
  | S n, c :: rest => if (c =? 10) || (c =? 13) then [c] else c :: get_line n rest
  | _, _ => []
  end.

Lemma get_line_length n rest : (length (get_line n rest) <= n)%nat.
Proof.
  revert rest. induction n as [|n IH]; intros [|c rest]; simpl; try lia.
  destruct ((c =? 10) || (c =? 13)); simpl; [lia|]. specialize (IH rest). lia.
Qed.

Lemma wpi_gets_loop X (Q : mem * Z -> world -> Prop) m buf n i st rest w :
  mapped m buf (i + Z.of_nat n + 1) -> 0 <= i -> w_fds w !! 0 = Some (Input st rest) ->
  Q (wr m (buf + i) (get_line n rest), i + Z.of_nat (length (get_line n rest)))
    (with_fds <[0 := Input st (drop (length (get_line n rest)) rest)]> w) ->
  wpi X Q (ITree.iter (fun '(m, i') =>
    if i' + 1 <? i + Z.of_nat n + 1 then
      '(cc, l) ← sys (Read 0 1);
      if cc <? 1 then Ret (inr (m, i')) else
      let c := hd 0 l in
      m ← lift (Ulib.st m (buf + i') c);
      if (c =? 10) || (c =? 13) then Ret (inr (m, i' + 1)) else Ret (inl (m, i' + 1))
    else Ret (inr (m, i'))) (m, i)) w.
Proof.
  revert m i rest w Q. induction n as [|n IH]; intros m i rest w Q Hm Hi Hfd HQ; apply wpi_iter.
  { destruct (Z.ltb_spec (i + 1) (i + Z.of_nat 0 + 1)); [lia|]. apply wpi_ret. simpl in HQ. rewrite Z.add_0_r in HQ.
    unfold with_fds in HQ. rewrite drop_0, insert_id in HQ by done. by destruct w. }
  destruct (Z.ltb_spec (i + 1) (i + Z.of_nat (S n) + 1)); [|lia]. apply wpi_bind. eapply wpi_read; [done|lia|].
  intros len H1 H2 H3. destruct rest as [|c rest].
  { assert (len = 0%nat) as -> by (simpl in H2; lia). apply wpi_ret. simpl in HQ. by rewrite Z.add_0_r in HQ. }
  assert (len = 1%nat) as -> by (destruct len as [|[|len]]; [by specialize (H3 eq_refl)|done|lia]).
  cbn [take hd]. change (Z.of_nat 1 <? 1) with false. cbv iota.
  rewrite st_mapped by (apply Hm; lia). apply wpi_bind, wpi_ret. cbn [get_line] in HQ.
  destruct ((c =? 10) || (c =? 13)) eqn:Ec; apply wpi_ret; [done|].
  replace (i + Z.of_nat (S n)) with (i + 1 + Z.of_nat n) by lia. apply (IH _ _ rest); [|lia|apply lookup_insert_eq|].
  - apply mapped_insert. by replace (i + 1 + Z.of_nat n + 1) with (i + Z.of_nat (S n) + 1) by lia.
  - cbn [length] in HQ. rewrite wr_cons in HQ. unfold with_fds in *. simpl in *. rewrite insert_insert_eq.
    replace (buf + (i + 1)) with (buf + i + 1) by lia.
    replace (i + 1 + Z.of_nat (length (get_line n rest))) with (i + Z.pos (Pos.of_succ_nat (length (get_line n rest)))) by lia. done.
Qed.

(** [gets] reads one line, a byte at a time, to its newline or carriage
    return, to the end of the input, or to the end of the buffer; it stores
    the line and a NUL, never more than [max] bytes, and leaves what follows
    the line unread. *)
Theorem gets_line X m buf max st rest w :
  1 <= max -> mapped m buf max -> w_fds w !! 0 = Some (Input st rest) ->
  let l := get_line (Z.to_nat (max - 1)) rest in
  Z.of_nat (length l) + 1 <= max /\
  wpi X (fun m' w' => m' = wr m buf (l ++ [0]) /\ w' = with_fds <[0 := Input st (drop (length l) rest)]> w) (gets m buf max) w.
Proof.
  intros Hmax Hm Hfd l. pose proof (get_line_length (Z.to_nat (max - 1)) rest) as Hl. fold l in Hl. split; [lia|].
  apply wpi_bind. unfold gets_loop. pose proof (wpi_gets_loop X) as G.
  specialize (G (fun r w' => r = (wr m buf l, Z.of_nat (length l)) /\ w' = with_fds <[0 := Input st (drop (length l) rest)]> w)
    m buf (Z.to_nat (max - 1)) 0 st rest w).
  replace (0 + Z.of_nat (Z.to_nat (max - 1)) + 1) with max in G by lia. eapply wpi_mono; [apply G|done|].
  - done.
  - done.
  - done.
  - fold l. by rewrite Z.add_0_r, Z.add_0_l.
  - intros [m' i] w' [[= -> ->] ->]. rewrite st_mapped by (apply mapped_wr with (n := max); [done|lia]). apply wpi_ret.
    by rewrite wr_snoc.
Qed.

(** ** Examples *)

Lemma printint_numeral_witness : wpi (fun _ _ => False)
  (fun _ w' => exists ds, numeral 10 2147483648 ds /\ (length ds <= 10)%nat /\ w' = emit 1 ([45] ++ (digit <$> ds)) sample_world)
  (printint 1 (-2147483648) 10 true) sample_world.
Proof. apply (printint_numeral (fun _ _ => False) 1 (-2147483648) 10 true sample_world); [by left|lia|reflexivity]. Defined.

Lemma printint_atoi_witness : wpi (fun _ _ => False)
  (fun _ w' => exists t, w' = emit 1 t sample_world /\ forall m a, is_str m a t -> atoi m a = Some 42) (printint 1 42 10 true) sample_world.
Proof. apply (printint_atoi (fun _ _ => False) 1 42 sample_world); [lia|reflexivity]. Defined.

Lemma gets_line_witness :
  wpi (fun _ _ => False) (fun m' _ => is_str m' 64 (bytes_of "one two" ++ [10])) (gets (wr ∅ 64 (repeat 0 100)) 64 100) sample_world.
Proof.
  eapply (wpi_mono (fun _ _ => False)); [|intros n w' []|].
  - apply (gets_line (fun _ _ => False) (wr ∅ 64 (repeat 0 100)) 64 100 (mk_stat 1 3 T_DEVICE 1 0) sample_text sample_world); [lia| |reflexivity].
    intros i Hi. replace (64 + i) with (64 + Z.of_nat (Z.to_nat i)) by lia. rewrite lookup_wr_in; [|rewrite repeat_length; lia].
    apply lookup_lt_is_Some. rewrite repeat_length. lia.
  - intros m' w' [-> _]. apply is_str_wr. apply (bool_decide_unpack _). vm_compute. done.
Defined.
