(* ===== verification/Uprogs.v ===== *)
(** * The user programs

    [main] of a program gets the memory of its process and the addresses of
    its arguments, the name of the program first.  A buffer that is filled by
    [read] and then only used up to the number of bytes read is the list of
    these bytes; the buffers of [ls], in which names are put together, are in
    memory. *)

From ITree Require Import ITree.
From S2P Require Import Prelude Defs Memory User Ulib Grep.

(** The string the kernel finds at an address. *)
Fixpoint cstring_loop (fuel : nat) (m : mem) (a : Z) : option (list Z) :=
  match fuel with
  | O => None
  | S fuel =>
      c ← m !! a;
      if c =? 0 then Some [] else s ← cstring_loop fuel m (a + 1); Some (c :: s)
  end.
Definition cstring (m : mem) (a : Z) : option (list Z) := cstring_loop (size m) m a.

Definition open (m : mem) (path mode : Z) : prog Z := s ← lift (cstring m path); sys (Open s mode).

(** A string constant that ends in a newline. *)
Definition line (s : string) : list Z := bytes_of s ++ [10].

(** ** cat.c *)

Definition cat_loop (m : mem) (fd : Z) : prog Z :=
  ITree.iter (fun _ : unit =>
    '(n, buf) ← sys (Read fd 512);
    if n >? 0 then
      r ← sys (Write 1 (take (Z.to_nat n) buf));
      if negb (r =? n) then fprintf m 2 (line "cat: write error") [];; exit 1
      else mret (inl ())
    else mret (inr n)) ().

Definition cat (m : mem) (fd : Z) : prog unit :=
  n ← cat_loop m fd;
  if n <? 0 then fprintf m 2 (line "cat: read error") [];; exit 1 else mret ().

Definition cat_main (m : mem) (argv : list Z) : prog void :=
  match tail argv with
  | [] => cat m 0;; exit 0
  | files =>
      for_prog files (fun arg =>
        fd ← open m arg 0;
        if fd <? 0 then fprintf m 2 (line "cat: cannot open %s") [A_str arg];; exit 1
        else cat m fd;; sys (Close fd);; mret ());;
      exit 0
  end.

(** ** echo.c *)

Fixpoint echo_loop (m : mem) (args : list Z) : prog unit :=
  match args with
  | [] => mret ()
  | arg :: args =>
      n ← lift (strlen m arg);
      sys (Write 1 (rdn m arg n));;
      match args with
      | [] => sys (Write 1 [10]);; mret ()
      | _ => sys (Write 1 [32]);; mret ()
      end;;
      echo_loop m args
  end.
Definition echo_main (m : mem) (argv : list Z) : prog void := echo_loop m (tail argv);; exit 0.

(** ** wc.c *)

Definition wc_space : list Z := [32; 13; 9; 10; 11].

(** [l], [w], [c] and [inword] *)
Definition counts : Type := Z * Z * Z * bool.

Definition wc_byte (s : counts) (b : Z) : counts :=
  let '(l, w, c, inword) := s in
  let c := s32 (c + 1) in
  let l := if b =? 10 then s32 (l + 1) else l in
  if existsb (Z.eqb b) wc_space then (l, w, c, false)
  else if negb inword then (l, s32 (w + 1), c, true)
  else (l, w, c, inword).

Definition wc (m : mem) (fd name : Z) : prog unit :=
  '(n, s) ← ITree.iter (fun s : counts =>
    '(n, buf) ← sys (Read fd 512);
    if n >? 0 then mret (inl (foldl wc_byte s (take (Z.to_nat n) buf))) else mret (inr (n, s))) (0, 0, 0, false);
  if n <? 0 then printf m (line "wc: read error") [];; exit 1 else
  let '(l, w, c, _) := s in
  printf m (line "%d %d %d %s") [A_int l; A_int w; A_int c; A_str name].

(** [empty] is the address of the empty string. *)
Definition wc_main (empty : Z) (m : mem) (argv : list Z) : prog void :=
  match tail argv with
  | [] => wc m 0 empty;; exit 0
  | files =>
      for_prog files (fun arg =>
        fd ← open m arg 0;
        if fd <? 0 then printf m (line "wc: cannot open %s") [A_str arg];; exit 1
        else wc m fd arg;; sys (Close fd);; mret ());;
      exit 0
  end.

(** ** grep.c *)

(** The inner loop: the rest of the buffer from [p] on.  Every line shortens
    it. *)
Fixpoint grep_buf (fuel : nat) (re p : list Z) : prog (list Z) :=
  match fuel with
  | O => mret p
  | S fuel =>
      match strchr_nl p with
      | None => mret p
      | Some (q, rest) =>
          (if grep_match re q then sys (Write 1 (q ++ [NL]));; mret () else mret ());;
          grep_buf fuel re rest
      end
  end.

Definition grep_fd (re : list Z) (fd : Z) : prog unit :=
  ITree.iter (fun buf : list Z =>
    '(n, l) ← sys (Read fd (Z.of_nat (GREP_BUF - length buf - 1)));
    if n >? 0 then
      let buf := buf ++ take (Z.to_nat n) l in
      rest ← grep_buf (S (length buf)) re buf;
      mret (inl rest)
    else mret (inr ())) [].

Definition grep_main (m : mem) (argv : list Z) : prog void :=
  match tail argv with
  | [] => fprintf m 2 (line "usage: grep pattern [file ...]") [];; exit 1
  | p :: files =>
      pattern ← lift (cstring m p);
      match files with
      | [] => grep_fd pattern 0;; exit 0
      | _ =>
          for_prog files (fun arg =>
            fd ← open m arg 0;
            if fd <? 0 then printf m (line "grep: cannot open %s") [A_str arg];; exit 1
            else grep_fd pattern fd;; sys (Close fd);; mret ());;
          exit 0
      end
  end.

(** ** rm.c, mkdir.c, ln.c, kill.c, zombie.c *)

(** The loop of [rm] and [mkdir]: it stops at the first failure. *)
Fixpoint each_path (m : mem) (call : list Z -> sysE Z) (msg : list Z) (files : list Z) : prog unit :=
  match files with
  | [] => mret ()
  | arg :: files =>
      path ← lift (cstring m arg);
      r ← sys (call path);
      if r <? 0 then fprintf m 2 msg [A_str arg] else each_path m call msg files
  end.

Definition rm_main (m : mem) (argv : list Z) : prog void :=
  match tail argv with
  | [] => fprintf m 2 (line "Usage: rm files...") [];; exit 1
  | files => each_path m Unlink (line "rm: %s failed to delete") files;; exit 0
  end.

Definition mkdir_main (m : mem) (argv : list Z) : prog void :=
  match tail argv with
  | [] => fprintf m 2 (line "Usage: mkdir files...") [];; exit 1
  | files => each_path m Mkdir (line "mkdir: %s failed to create") files;; exit 0
  end.

Definition ln_main (m : mem) (argv : list Z) : prog void :=
  match argv with
  | [_; old; new] =>
      s ← lift (cstring m old);
      t ← lift (cstring m new);
      r ← sys (Link s t);
      (if r <? 0 then fprintf m 2 (line "link %s %s: failed") [A_str old; A_str new] else mret ());;
      exit 0
  | _ => fprintf m 2 (line "Usage: ln old new") [];; exit 1
  end.

Definition kill_main (m : mem) (argv : list Z) : prog void :=
  match tail argv with
  | [] => fprintf m 2 (line "usage: kill pid...") [];; exit 1
  | pids => for_prog pids (fun arg => pid ← lift (atoi m arg); sys (Kill pid);; mret ());; exit 0
  end.

Definition zombie_main : prog void :=
  pid ← sys Fork;
  (if pid >? 0 then sys (Sleep 5);; mret () else mret ());;
  exit 0.

(** ** init.c *)

(** The loop that waits for the shell: it ends when the shell has exited. *)
Definition init_wait (m : mem) (pid : Z) : prog unit :=
  ITree.iter (fun _ : unit =>
    wpid ← sys Wait;
    if wpid =? pid then mret (inr ())
    else if wpid <? 0 then printf m (line "init: wait returned an error") [];; exit 1
    else mret (inl ())) ().

Definition init_main (m : mem) : prog void :=
  let console := bytes_of "console" in
  fd ← sys (Open console O_RDWR);
  (if fd <? 0 then sys (Mknod console CONSOLE 0);; sys (Open console O_RDWR);; mret () else mret ());;
  sys (Dup 0);;
  sys (Dup 0);;
  ITree.iter (fun _ : unit =>
    printf m (line "init: starting sh") [];;
    pid ← sys Fork;
    if pid <? 0 then printf m (line "init: fork failed") [];; exit 1
    else if pid =? 0 then
      sys (Exec (bytes_of "sh") [bytes_of "sh"]);;
      printf m (line "init: exec sh failed") [];;
      exit 1
    else
      init_wait m pid;;
      mret (inl ())) ().

(** ** ls.c *)

Section ls.
(** The addresses of the static buffer of [fmtname], and of [buf] and [de] of
    [ls]. *)
Context (fmtbuf lsbuf de : Z).

(** [for(p = ...; p >= path && *p != '/'; p--)], from [path + n]. *)
Fixpoint last_slash (n : nat) (m : mem) (path : Z) : option Z :=
  c ← m !! (path + Z.of_nat n);
  if c =? 47 then Some (path + Z.of_nat n)
  else match n with O => Some (path - 1) | S n => last_slash n m path end.

Definition fmtname (m : mem) (path : Z) : option (mem * Z) :=
  n ← strlen m path;
  p ← last_slash (Z.to_nat n) m path;
  let p := p + 1 in
  len ← strlen m p;
  if len >=? DIRSIZ then Some (m, p) else
  m ← memmove m fmtbuf p len;
  len ← strlen m p;
  m ← memset m (fmtbuf + len) 32 (DIRSIZ - len);
  Some (m, fmtbuf).

(** [st.size] has 64 bits; [%d] takes it as an [int]. *)
Definition ls_entry (m : mem) (p : Z) : prog mem :=
  m ← lift (memmove m p (de + 2) DIRSIZ);
  m ← lift (Ulib.st m (p + DIRSIZ) 0);
  path ← lift (cstring m lsbuf);
  '(r, s) ← ustat path;
  if r <? 0 then printf m (line "ls: cannot stat %s") [A_str lsbuf];; mret m else
  '(m, name) ← lift (fmtname m lsbuf);
  printf m (line "%s %d %d %d") [A_str name; A_int (st_type s); A_int (s32 (st_ino s)); A_int (s32 (st_size s))];;
  mret m.

Definition ls_dir (m : mem) (fd path : Z) : prog mem :=
  len ← lift (strlen m path);
  if len + 1 + DIRSIZ + 1 >? 512 then printf m (line "ls: path too long") [];; mret m else
  m ← lift (strcpy m lsbuf path);
  len ← lift (strlen m lsbuf);
  m ← lift (Ulib.st m (lsbuf + len) 47);
  let p := lsbuf + len + 1 in
  ITree.iter (fun m =>
    '(n, l) ← sys (Read fd sizeof_dirent);
    let m := wr m de (take (Z.to_nat n) l) in
    if negb (n =? sizeof_dirent) then mret (inr m)
    else if getn 2 l 0 =? 0 then mret (inl m)
    else m ← ls_entry m p; mret (inl m)) m.

Definition ls (m : mem) (path : Z) : prog mem :=
  fd ← open m path 0;
  if fd <? 0 then fprintf m 2 (line "ls: cannot open %s") [A_str path];; mret m else
  '(r, s) ← sys (Fstat fd);
  if r <? 0 then fprintf m 2 (line "ls: cannot stat %s") [A_str path];; sys (Close fd);; mret m else
  m ← (if st_type s =? T_FILE then
         '(m, name) ← lift (fmtname m path);
         printf m (line "%s %d %d %l") [A_str name; A_int (st_type s); A_int (s32 (st_ino s)); A_uint64 (st_size s)];;
         mret m
       else if st_type s =? T_DIR then ls_dir m fd path
       else mret m);
  sys (Close fd);;
  mret m.

Fixpoint ls_all (m : mem) (args : list Z) : prog unit :=
  match args with
  | [] => mret ()
  | arg :: args => m ← ls m arg; ls_all m args
  end.

(** [dot] is the address of the string of one dot. *)
Definition ls_main (dot : Z) (m : mem) (argv : list Z) : prog void :=
  match tail argv with
  | [] => ls m dot;; exit 0
  | args => ls_all m args;; exit 0
  end.

End ls.
