(* ===== verification/UprogsSpec.v ===== *)
(** * The user programs: what they print

    [cat], [wc] and [grep] over the files they are given, however the reads
    are cut up, up to the first file that cannot be opened. *)

From ITree Require Import ITree.
From S2P Require Import Prelude Defs Memory User Ulib UlibSpec Grep Uprogs.

(** ** Strings as arguments *)

Lemma cstring_str m a s : is_str m a s -> cstring m a = Some s.
Proof.
  intros H. unfold cstring. pose proof (is_str_size _ _ _ H) as Hf. revert H Hf. generalize (size m) as fuel. revert a.
  induction s as [|c s IH]; intros a [|fuel] H Hf; simpl in *; try lia.
  - by rewrite H.
  - destruct H as (H1 & H2 & H3). rewrite H1. simpl. destruct (Z.eqb_spec c 0); [done|]. by rewrite IH by (done || lia).
Qed.

(** A name in memory: its address is not null and it has no NUL inside. *)
Definition is_name (m : mem) (a : Z) (s : list Z) : Prop := a <> 0 /\ is_str m a s /\ Forall is_byte s.

(** ** The loop over the files *)

(** Standard output and standard error are open. *)
Definition outs (w : world) : Prop := w_fds w !! 1 = Some Output /\ w_fds w !! 2 = Some Output.

(** The output, and the status of the exit. *)
Fixpoint files_out (txt : list Z -> list Z -> list Z) (err : list Z -> list (Z * Z))
    (files : gmap (list Z) (stat * list Z)) (names : list (list Z)) : list (Z * Z) * Z :=
  match names with
  | [] => ([], 0)
  | s :: names =>
      match files !! s with
      | None => (err s, 1)
      | Some (_, data) =>
          let '(out, n) := files_out txt err files names in
          (map (pair 1) (txt s data) ++ out, n)
      end
  end.

Lemma lowest_fd_spec {A} (fds : gmap Z A) fd : lowest_fd fds = Some fd -> 0 <= fd /\ fds !! fd = None.
Proof.
  intros ([i x] & (E & Ef & _)%list_find_Some & ->)%fmap_Some. apply lookup_seqZ in E. split; [simpl; lia|done].
Qed.

Section files.
Context (m : mem) (txt : list Z -> list Z -> list Z) (err : list Z -> list (Z * Z)).
Context (body : Z -> Z -> prog unit) (fail : Z -> prog unit).
Context (files : gmap (list Z) (stat * list Z)) (fds : gmap Z fdesc).

(** The body prints the text of a file on the standard output. *)
Hypothesis body_ok : forall X (Q : unit -> world -> Prop) fd arg s st data w,
  is_name m arg s -> files !! s = Some (st, data) -> w_fds w !! fd = Some (Input st data) -> outs w ->
  (forall rest, Q () (emit 1 (txt s data) (with_fds (<[fd := Input st rest]>) w))) -> wpi X Q (body fd arg) w.

(** The error message goes where [err] says, and the program exits. *)
Hypothesis fail_ok : forall (X : Z -> world -> Prop) (Q : unit -> world -> Prop) arg s w,
  is_name m arg s -> outs w -> X 1 (mk_world (w_files w) (w_fds w) (w_out w ++ err s)) -> wpi X Q (fail arg) w.

Lemma wpi_files args names (X : Z -> world -> Prop) (Q : unit -> world -> Prop) out :
  Forall2 (is_name m) args names -> outs (mk_world files fds out) -> is_Some (lowest_fd fds) ->
  (forall w, w_out w = out ++ (files_out txt err files names).1 ->
    let n := (files_out txt err files names).2 in if n =? 0 then Q () w else X n w) ->
  wpi X Q (for_prog args (fun arg =>
    fd ← open m arg 0;
    if fd <? 0 then fail arg else body fd arg;; sys (Close fd);; mret ())) (mk_world files fds out).
Proof.
  intros Ha Ho [fd Hfd]. destruct (lowest_fd_spec _ _ Hfd) as [Hge Hfree].
  revert out Ho. induction Ha as [|arg s args names Hn _ IH]; intros out Ho HX; simpl in *.
  - apply wpi_ret. apply (HX (mk_world files fds out)). by rewrite app_nil_r.
  - apply wpi_bind, wpi_bind. unfold open. rewrite (cstring_str _ _ s) by apply Hn. apply wpi_bind, wpi_ret.
    destruct (files !! s) as [[st data]|] eqn:Ef.
    + eapply wpi_open; [done|done|]. destruct (Z.ltb_spec fd 0); [lia|].
      assert (outs (with_fds <[fd := Input st data]> (mk_world files fds out))).
      { destruct Ho as [H1 H2]. split; simpl; rewrite lookup_insert_ne; try done; intros ->; simpl in *; congruence. }
      apply wpi_bind. eapply body_ok; [done..|simpl; by rewrite lookup_insert_eq|done|]. intros rest.
      apply wpi_bind. eapply wpi_close; [simpl; by rewrite lookup_insert_eq|]. apply wpi_ret.
      destruct (files_out txt err files names) as [o n] eqn:Eo. simpl in *.
      unfold with_fds, emit. simpl. rewrite insert_insert_eq, delete_insert_id by done.
      apply IH; [done|]. intros w Hw. apply HX. by rewrite Hw, app_assoc.
    + eapply wpi_open_missing; [done|]. simpl. apply fail_ok with (s := s); [done|done|]. by apply HX.
Qed.

End files.

(** ** cat *)

Lemma with_fds_insert fd st l l' w :
  with_fds <[fd := Input st l]> (with_fds <[fd := Input st l']> w) = with_fds <[fd := Input st l]> w.
Proof. unfold with_fds. simpl. by rewrite insert_insert_eq. Qed.

Lemma with_fds_id fd d w : w_fds w !! fd = Some d -> with_fds <[fd := d]> w = w.
Proof. intros H. unfold with_fds. rewrite insert_id by done. by destruct w. Qed.

Lemma emit_with_fds fd t f w : emit fd t (with_fds f w) = with_fds f (emit fd t w).
Proof. done. Qed.

Lemma outs_with_fds fd d d' w : outs w -> w_fds w !! fd = Some d -> d <> Output -> outs (with_fds <[fd := d']> w).
Proof. intros [H1 H2] H Hd. split; simpl; rewrite lookup_insert_ne; try done; intros ->; congruence. Qed.

Lemma wpi_cat_loop X (Q : Z -> world -> Prop) m fd st rest w :
  w_fds w !! fd = Some (Input st rest) -> outs w ->
  Q 0 (emit 1 rest (with_fds <[fd := Input st []]> w)) -> wpi X Q (cat_loop m fd) w.
Proof.
  revert w. remember (length rest) as k eqn:Ek. revert rest Ek. induction k as [k IH] using lt_wf_ind.
  intros rest -> w Hfd Ho HQ. apply wpi_iter, wpi_bind. eapply wpi_read; [done|lia|]. intros len H1 H2 H3.
  cbv beta iota. destruct (decide (len = 0%nat)) as [->|Hlen].
  { rewrite H3 in * by done. apply wpi_ret. by rewrite emit_nil in HQ. }
  assert ((Z.of_nat len >? 0) = true) as -> by (apply Z.gtb_lt; lia). rewrite Nat2Z.id, take_take, Nat.min_id.
  pose proof (outs_with_fds _ _ (Input st (drop len rest)) _ Ho Hfd ltac:(done)) as Ho'.
  apply wpi_bind, wpi_write; [apply Ho'|]. rewrite length_take_le, Z.eqb_refl by done. simpl. apply wpi_ret.
  apply (IH (length (drop len rest)) ltac:(rewrite length_drop; lia) (drop len rest)); [done| |done|].
  - apply lookup_insert_eq.
  - by rewrite <- emit_with_fds, with_fds_insert, emit_emit, take_drop.
Qed.

Lemma wpi_cat X (Q : unit -> world -> Prop) m fd st rest w :
  w_fds w !! fd = Some (Input st rest) -> outs w ->
  Q () (emit 1 rest (with_fds <[fd := Input st []]> w)) -> wpi X Q (cat m fd) w.
Proof. intros H Ho HQ. apply wpi_bind. eapply wpi_cat_loop; [done|done|]. by apply wpi_ret. Qed.

(** The message for a file that cannot be opened. *)
Lemma formats_cannot_open m arg s pre :
  is_name m arg s -> Forall (fun c => c <> c_percent /\ is_byte c) pre ->
  formats m (pre ++ [c_percent; 115; 10]) [A_str arg] (pre ++ s ++ [10]).
Proof.
  intros (H1 & H2 & H3). induction 1 as [|c pre [Hc Hb] _ IH]; simpl.
  - apply formats_conv; [by constructor|]. by repeat constructor.
  - by constructor.
Qed.

Definition cat_err (s : list Z) : list (Z * Z) := map (pair 2) (bytes_of "cat: cannot open " ++ s ++ [10]).

(** [cat] with file arguments copies the files to its standard output one
    after the other, byte for byte, however the reads are cut up; at a file
    it cannot open it writes a message to the standard error and exits with
    status 1. *)
Theorem cat_copies m prg args names w :
  Forall2 (is_name m) args names -> args <> [] -> outs w -> is_Some (lowest_fd (w_fds w)) ->
  let r := files_out (fun _ data => data) cat_err (w_files w) names in
  wpi (fun n w' => n = r.2 /\ w_out w' = w_out w ++ r.1) (fun _ _ => False) (cat_main m (prg :: args)) w.
Proof.
  intros Ha Hne Ho Hfd r. unfold cat_main. cbn [tail]. destruct args as [|a args]; [done|]. destruct w as [files fds out].
  apply wpi_bind. eapply (wpi_files m (fun _ data => data) cat_err (fun fd _ => cat m fd)); [| |done..|].
  - intros X Q fd arg s st data w Hn _ Hw Ho' HQ. eapply wpi_cat; [done|done|]. apply HQ.
  - intros X Q arg s w Hn Ho' HX. apply wpi_bind. eapply wpi_vprintf; [|apply Ho'|by apply wpi_exit].
    apply (formats_cannot_open m arg s (bytes_of "cat: cannot open ")); [done|].
    apply (bool_decide_unpack _). vm_compute. done.
  - intros w Hw. simpl in *. fold r in Hw |- *. destruct (Z.eqb_spec r.2 0) as [E|E]; [|done]. by apply wpi_exit.
Qed.

(** ** wc *)

Definition is_space (b : Z) : bool := existsb (Z.eqb b) wc_space.

(** The pieces of a text between its white space; the words are those that
    are not empty. *)
Fixpoint pieces (d : list Z) : list (list Z) :=
  match d with
  | [] => [[]]
  | b :: d =>
      if is_space b then [] :: pieces d
      else match pieces d with p :: ps => (b :: p) :: ps | [] => [[b]] end
  end.
Definition words (d : list Z) : nat := length (filter (fun p => p <> []) (pieces d)).
Definition newlines (d : list Z) : nat := length (filter (fun b => b = 10) d).

(** The words that begin in a text which comes after a byte of a word, or
    after white space. *)
Definition begun (inword : bool) (d : list Z) : nat :=
  match pieces d with
  | (_ :: _) :: ps => ((if inword then 0 else 1) + length (filter (fun p => p <> []) ps))%nat
  | ps => length (filter (fun p => p <> []) ps)
  end.

Lemma pieces_cons d : exists p ps, pieces d = p :: ps.
Proof. destruct d as [|b d]; simpl; [by eexists _, _|]. destruct (is_space b); [by eexists _, _|]. destruct (pieces d); by eexists _, _. Qed.

Lemma words_begun d : words d = begun false d.
Proof. unfold words, begun. destruct (pieces d) as [|[|b p] ps]; done. Qed.

Lemma begun_cons b d inword : begun inword (b :: d) =
  if is_space b then begun false d else ((if inword then 0 else 1) + begun true d)%nat.
Proof.
  unfold begun. simpl. destruct (is_space b).
  - by destruct (pieces d) as [|[|c p] ps].
  - destruct (pieces_cons d) as (p & ps & ->). by destruct p as [|c p].
Qed.

Lemma begun_le inword d : (begun inword d <= length d)%nat.
Proof.
  revert inword. induction d as [|b d IH]; intros inword; [done|]. rewrite begun_cons. simpl.
  destruct (is_space b), inword; pose proof (IH false); pose proof (IH true); lia.
Qed.

Lemma newlines_cons b d : newlines (b :: d) = ((if (b =? 10)%Z then 1 else 0) + newlines d)%nat.
Proof. unfold newlines. destruct (Z.eqb_spec b 10); [by rewrite filter_cons_True|by rewrite filter_cons_False]. Qed.

Lemma newlines_le d : (newlines d <= length d)%nat.
Proof. induction d as [|b d IH]; [done|]. rewrite newlines_cons. simpl. destruct (b =? 10); lia. Qed.

Lemma wc_byte_small l w c inword b : 0 <= l < 2 ^ 31 - 1 -> 0 <= w < 2 ^ 31 - 1 -> 0 <= c < 2 ^ 31 - 1 ->
  wc_byte (l, w, c, inword) b =
    (l + (if b =? 10 then 1 else 0), w + (if is_space b || inword then 0 else 1), c + 1, negb (is_space b)).
Proof.
  intros Hl Hw Hc. unfold wc_byte, s32. fold (is_space b). rewrite !swrap_id by lia.
  destruct (b =? 10), (is_space b), inword; simpl; by rewrite ?Z.add_0_r.
Qed.

Lemma wc_fold d l w c inword : 0 <= l -> 0 <= w -> 0 <= c ->
  l + Z.of_nat (length d) < 2 ^ 31 -> w + Z.of_nat (length d) < 2 ^ 31 -> c + Z.of_nat (length d) < 2 ^ 31 ->
  exists b, foldl wc_byte (l, w, c, inword) d =
    (l + Z.of_nat (newlines d), w + Z.of_nat (begun inword d), c + Z.of_nat (length d), b).
Proof.
  revert l w c inword. induction d as [|b d IH]; intros l w c inword Hl Hw Hc Hl' Hw' Hc'.
  { exists inword. cbn. by rewrite !Z.add_0_r. }
  cbn [foldl]. cbn [length] in *. rewrite wc_byte_small by lia. rewrite newlines_cons, begun_cons.
  edestruct IH as [b' ->]; cycle 6; [exists b'|destruct (b =? 10), (is_space b), inword; simpl; lia..].
  repeat apply (f_equal2 pair); [..|done]; destruct (b =? 10), (is_space b), inword; simpl; lia.
Qed.

(** What [wc] prints for a file. *)
Definition wc_text (s data : list Z) : list Z :=
  decimal (Z.of_nat (newlines data)) ++ [32] ++ decimal (Z.of_nat (words data)) ++ [32] ++
  decimal (Z.of_nat (length data)) ++ [32] ++ s ++ [10].

Definition wc_err (s : list Z) : list (Z * Z) := map (pair 1) (bytes_of "wc: cannot open " ++ s ++ [10]).

Lemma formats_wc m l w c arg s : is_name m arg s -> 0 <= l < 2 ^ 31 -> 0 <= w < 2 ^ 31 -> 0 <= c < 2 ^ 31 ->
  formats m (line "%d %d %d %s") [A_int l; A_int w; A_int c; A_str arg]
    (decimal l ++ [32] ++ decimal w ++ [32] ++ decimal c ++ [32] ++ s ++ [10]).
Proof.
  intros (H1 & H2 & H3) Hl Hw Hc. rewrite <- !int_text_decimal by done. unfold line. simpl.
  do 3 (apply formats_conv; [constructor|]; apply formats_char; [done|done|]).
  apply formats_conv; [by constructor|]. by repeat constructor.
Qed.

Lemma wpi_wc X (Q : unit -> world -> Prop) m fd arg s st data w :
  Z.of_nat (length data) < 2 ^ 31 -> is_name m arg s -> w_fds w !! fd = Some (Input st data) -> outs w ->
  Q () (emit 1 (wc_text s data) (with_fds <[fd := Input st []]> w)) -> wpi X Q (wc m fd arg) w.
Proof.
  intros Hd Hn Hfd Ho HQ. unfold wc. apply wpi_bind.
  assert (G : forall rest seen w', data = seen ++ rest -> w' = with_fds <[fd := Input st rest]> w ->
    wpi X (fun r w'' => r = (0, foldl wc_byte (0, 0, 0, false) data) /\ w'' = with_fds <[fd := Input st []]> w)
      (ITree.iter (fun s : counts => '(n, buf) ← sys (Read fd 512);
         if n >? 0 then mret (inl (foldl wc_byte s (take (Z.to_nat n) buf))) else mret (inr (n, s)))
       (foldl wc_byte (0, 0, 0, false) seen)) w').
  { intros rest. remember (length rest) as k eqn:Ek. revert rest Ek. induction k as [k IH] using lt_wf_ind.
    intros rest -> seen w' Hs ->. apply wpi_iter, wpi_bind. eapply wpi_read; [apply lookup_insert_eq|lia|]. intros len H1 H2 H3.
    cbv beta iota. rewrite with_fds_insert. destruct (decide (len = 0%nat)) as [->|Hlen].
    { rewrite H3 in * by done. apply wpi_ret. rewrite app_nil_r in Hs. by subst. }
    assert ((Z.of_nat len >? 0) = true) as -> by (apply Z.gtb_lt; lia). rewrite Nat2Z.id, take_take, Nat.min_id.
    apply wpi_ret. rewrite <- foldl_app. apply (IH (length (drop len rest)) ltac:(rewrite length_drop; lia) (drop len rest)); [done| |done].
    by rewrite <- app_assoc, take_drop. }
  eapply wpi_mono; [apply (G data [] w); [done|by rewrite with_fds_id]|done|]. intros [n c] w' [[= -> ->] ->]. simpl.
  destruct (wc_fold data 0 0 0 false) as [b ->]; [lia..|]. rewrite !Z.add_0_l, <- words_begun.
  eapply wpi_vprintf; [apply formats_wc; [done|..]; pose proof (newlines_le data); pose proof (begun_le false data); rewrite <- ?words_begun in *; lia| |done]. apply (outs_with_fds _ (Input st data) (Input st []) w); done.
Qed.

(** C31: [wc] with file arguments prints, for each file, the numbers of its
    newlines, words and bytes and its name, however the reads are cut up; a
    word is a longest piece without white space.  At a file it cannot open it
    prints a message and exits with status 1. *)
Theorem wc_counts empty m prg args names w :
  Forall2 (is_name m) args names -> args <> [] -> outs w -> is_Some (lowest_fd (w_fds w)) ->
  (forall s st data, w_files w !! s = Some (st, data) -> Z.of_nat (length data) < 2 ^ 31) ->
  let r := files_out wc_text wc_err (w_files w) names in
  wpi (fun n w' => n = r.2 /\ w_out w' = w_out w ++ r.1) (fun _ _ => False) (wc_main empty m (prg :: args)) w.
Proof.
  intros Ha Hne Ho Hfd Hlen r. unfold wc_main. cbn [tail]. destruct args as [|a args]; [done|]. destruct w as [files fds out].
  apply wpi_bind. eapply (wpi_files m wc_text wc_err (fun fd arg => wc m fd arg)); [| |done..|].
  - intros X Q fd arg s st data w Hn Hf Hw Ho' HQ. eapply wpi_wc; [by eapply Hlen|done|done|done|]. apply HQ.
  - intros X Q arg s w Hn Ho' HX. apply wpi_bind. eapply wpi_vprintf; [|apply Ho'|by apply wpi_exit].
    apply (formats_cannot_open m arg s (bytes_of "wc: cannot open ")); [done|].
    apply (bool_decide_unpack _). vm_compute. done.
  - intros w Hw. simpl in *. fold r in Hw |- *. destruct (Z.eqb_spec r.2 0) as [E|E]; [|done]. by apply wpi_exit.
Qed.

(** ** grep *)

(** The inner loop prints the complete lines of the buffer. *)
Lemma wpi_grep_buf X (Q : list Z -> world -> Prop) fuel re p file w :
  outs w -> (length p < fuel)%nat -> no_nul p -> (length p < GREP_BUF)%nat ->
  (forall out rest, no_nl rest -> no_nul rest -> (length rest < GREP_BUF)%nat ->
    printed re (lines_of [] (p ++ file)) = out ++ printed re (lines_of rest file) -> Q rest (emit 1 out w)) ->
  wpi X Q (grep_buf fuel re p) w.
Proof.
  revert p w Q. induction fuel as [|fuel IH]; intros p w Q Ho Hf H0 Hl HQ; [lia|]. cbn [grep_buf].
  destruct (strchr_nl p) as [[line rest]|] eqn:E.
  - apply strchr_nl_some in E as [-> Hn]. rewrite length_app in Hf, Hl. cbn in Hf, Hl.
    unfold no_nul in H0. rewrite not_elem_of_app, not_elem_of_cons in H0. destruct H0 as (_ & _ & H0).
    set (t := if grep_match re line then line ++ [NL] else []). apply wpi_bind.
    assert (wpi X (fun _ => wpi X Q (grep_buf fuel re rest)) (mret ()) (emit 1 t w)) as Ht.
    { apply wpi_ret, IH; [done|lia|done|lia|]. intros out r H1 H2 H3 HE. rewrite emit_emit. apply HQ; [done..|].
      rewrite <- app_assoc, lines_of_app by done. cbn [lines_of app].
      rewrite Z.eqb_refl, printed_cons by (unfold GREP_BUF in *; lia). by rewrite HE, app_assoc. }
    unfold t in Ht. destruct (grep_match re line).
    + apply wpi_bind, wpi_write; [apply Ho|done].
    + by rewrite emit_nil in Ht.
  - apply strchr_nl_none in E; [|done]. apply wpi_ret. rewrite <- (emit_nil 1 w). apply HQ; [done..|]. by rewrite lines_of_app.
Qed.

Lemma wpi_grep_fd X (Q : unit -> world -> Prop) re fd st data w :
  no_nul data -> w_fds w !! fd = Some (Input st data) -> outs w ->
  (forall rest, Q () (emit 1 (printed re (lines_of [] data)) (with_fds <[fd := Input st rest]> w))) -> wpi X Q (grep_fd re fd) w.
Proof.
  intros H0 Hfd Ho HQ. unfold grep_fd.
  assert (H0' : no_nul ([] ++ data)) by done. assert (Hb : (length ([] : list Z) < GREP_BUF)%nat) by (unfold GREP_BUF; simpl; lia).
  assert (Hn : no_nl []) by apply not_elem_of_nil. clear H0. revert H0' Hb Hn w Hfd Ho HQ. generalize ([] : list Z) as buf.
  remember (length data) as k eqn:Ek. revert data Ek. induction k as [k IH] using lt_wf_ind.
  intros data -> buf H0 Hb Hn w Hfd Ho HQ. apply wpi_iter, wpi_bind. eapply wpi_read_any; [done|lia|]. intros len H1 H2 H3.
  cbv beta iota. destruct (decide (len = 0%nat)) as [->|Hlen].
  { apply wpi_ret. specialize (HQ data). rewrite drop_0. destruct (H3 eq_refl) as [Hfull| ->].
    - rewrite printed_full, emit_nil in HQ by lia. done.
    - by rewrite emit_nil in HQ. }
  assert ((Z.of_nat len >? 0) = true) as -> by (apply Z.gtb_lt; lia). rewrite Nat2Z.id, take_take, Nat.min_id.
  assert (Hlines : lines_of buf data = lines_of [] ((buf ++ take len data) ++ drop len data))
    by (rewrite <- app_assoc, lines_of_app, take_drop; done).
  rewrite <- (take_drop len data), app_assoc in H0. unfold no_nul in H0. rewrite not_elem_of_app in H0. destruct H0 as [H0 H0'].
  pose proof (outs_with_fds _ _ (Input st (drop len data)) _ Ho Hfd ltac:(done)) as Ho'.
  apply wpi_bind, (wpi_grep_buf _ _ _ _ _ (drop len data)); [done|lia|done|rewrite length_app, length_take_le; lia|].
  intros out r Hr1 Hr2 Hr3 HE. apply wpi_ret.
  apply (IH (length (drop len data)) ltac:(rewrite length_drop; lia) (drop len data)); [done| |done|done|apply lookup_insert_eq|done|].
  - unfold no_nul. by rewrite not_elem_of_app.
  - intros rest. rewrite <- emit_with_fds, with_fds_insert, emit_emit, <- HE, <- Hlines. apply HQ.
Qed.

Definition grep_err (s : list Z) : list (Z * Z) := map (pair 1) (bytes_of "grep: cannot open " ++ s ++ [10]).

(** C30: on files without NUL bytes, and however [read] splits them into
    pieces, [grep] terminates and writes exactly the complete lines that
    match, each once and in order; in each file it stops at the first line of
    1023 bytes or more, and a last line without newline is not looked at.
    At a file it cannot open it prints a message and exits with status 1. *)
Theorem grep_prints_matching_lines m prg pat re args names w :
  is_name m pat re -> Forall2 (is_name m) args names -> args <> [] -> outs w -> is_Some (lowest_fd (w_fds w)) ->
  (forall s st data, w_files w !! s = Some (st, data) -> no_nul data) ->
  let r := files_out (fun _ data => printed re (lines_of [] data)) grep_err (w_files w) names in
  wpi (fun n w' => n = r.2 /\ w_out w' = w_out w ++ r.1) (fun _ _ => False) (grep_main m (prg :: pat :: args)) w.
Proof.
  intros Hp Ha Hne Ho Hfd H0 r. unfold grep_main. cbn [tail]. rewrite (cstring_str _ _ re) by apply Hp. apply wpi_bind, wpi_ret.
  destruct args as [|a args]; [done|]. destruct w as [files fds out].
  apply wpi_bind. eapply (wpi_files m (fun _ data => printed re (lines_of [] data)) grep_err (fun fd _ => grep_fd re fd)); [| |done..|].
  - intros X Q fd arg s st data w Hn Hf Hw Ho' HQ. eapply wpi_grep_fd; [by eapply H0|done|done|]. apply HQ.
  - intros X Q arg s w Hn Ho' HX. apply wpi_bind. eapply wpi_vprintf; [|apply Ho'|by apply wpi_exit].
    apply (formats_cannot_open m arg s (bytes_of "grep: cannot open ")); [done|].
    apply (bool_decide_unpack _). vm_compute. done.
  - intros w Hw. simpl in *. fold r in Hw |- *. destruct (Z.eqb_spec r.2 0) as [E|E]; [|done]. by apply wpi_exit.
Qed.

(** ** Examples *)

(** The arguments [f], [two] and [g], of which only [f] is a file. *)
Definition sample_args : mem := wr ∅ 64 (bytes_of "f" ++ [0] ++ bytes_of "two" ++ [0] ++ bytes_of "g" ++ [0]).

Lemma sample_names : is_name sample_args 64 (bytes_of "f") /\ is_name sample_args 66 (bytes_of "two") /\ is_name sample_args 70 (bytes_of "g").
Proof.
  assert (Hb : forall l, bool_decide (Forall (fun c => 0 <= c < 256) l) = true -> Forall is_byte l) by (intros l H; by apply bool_decide_eq_true in H).
  split_and!; (split; [done|]; split; [vm_compute; repeat split; discriminate|apply Hb; vm_compute; done]).
Qed.

Lemma cat_copies_witness :
  wpi (fun n w' => n = 1 /\ w_out w' = map (pair 1) sample_text ++ map (pair 2) (bytes_of "cat: cannot open g" ++ [10]))
    (fun _ _ => False) (cat_main sample_args [0; 64; 70]) sample_world.
Proof.
  apply (cat_copies sample_args 0 [64; 70] [bytes_of "f"; bytes_of "g"] sample_world).
  - do 2 (constructor; [apply sample_names|]). constructor.
  - done.
  - done.
  - by eexists.
Defined.

Lemma wc_counts_witness :
  wpi (fun n w' => n = 0 /\ w_out w' = map (pair 1) (bytes_of "2 3 12 f" ++ [10])) (fun _ _ => False) (wc_main 0 sample_args [0; 64]) sample_world.
Proof.
  apply (wc_counts 0 sample_args 0 [64] [bytes_of "f"] sample_world).
  - constructor; [apply sample_names|constructor].
  - done.
  - done.
  - by eexists.
  - intros s st data ->%sample_files. done.
Defined.

Lemma grep_prints_matching_lines_witness :
  wpi (fun n w' => n = 0 /\ w_out w' = map (pair 1) sample_text) (fun _ _ => False) (grep_main sample_args [0; 66; 64]) sample_world.
Proof.
  apply (grep_prints_matching_lines sample_args 0 66 (bytes_of "two") [64] [bytes_of "f"] sample_world).
  - apply sample_names.
  - constructor; [apply sample_names|constructor].
  - done.
  - done.
  - by eexists.
  - intros s st data ->%sample_files. apply (bool_decide_unpack _). vm_compute. done.
Defined.
