(* ===== verification/LsSpec.v ===== *)
(** * [user/ls.c]: the buffers of [ls]

    [fmtname] pads the last component of a path to 14 bytes in its static
    buffer.  [ls] puts the names of a directory's entries together in a
    buffer of 512 bytes on its stack; whatever the files and directories are,
    it accesses nothing outside its buffers. *)

From ITree Require Import ITree.
From S2P Require Import Prelude Defs Memory User Ulib UlibSpec Uprogs UprogsSpec.

(** ** Strings *)

Lemma is_str_drop m a s n : is_str m a s -> (n <= length s)%nat -> is_str m (a + Z.of_nat n) (drop n s).
Proof.
  revert a n. induction s as [|c s IH]; intros a n H Hn; simpl in *.
  - destruct n; [|lia]. by rewrite Z.add_0_r.
  - destruct n as [|n]; [by rewrite Z.add_0_r|]. destruct H as (_ & _ & H). replace (a + Z.of_nat (S n)) with (a + 1 + Z.of_nat n) by lia.
    simpl. apply IH; [done|lia].
Qed.

(** Bytes that end in a NUL are a string. *)
Lemma is_str_exists m a n : mapped m a (Z.of_nat n) -> m !! (a + Z.of_nat n) = Some 0 ->
  exists s, is_str m a s /\ (length s <= n)%nat.
Proof.
  revert a. induction n as [|n IH]; intros a Hm H0.
  { exists []. simpl. by rewrite Z.add_0_r in H0. }
  destruct (Hm 0 ltac:(lia)) as [c Hc]. rewrite Z.add_0_r in Hc. destruct (decide (c = 0)) as [->|Hne].
  { exists []. split; [done|simpl; lia]. }
  destruct (IH (a + 1)) as (s & Hs & Hl).
  - apply (mapped_sub m a (Z.of_nat (S n))); [done|lia|lia].
  - by replace (a + 1 + Z.of_nat n) with (a + Z.of_nat (S n)) by lia.
  - exists (c :: s). simpl. split; [done|lia].
Qed.

Lemma is_str_app m a s t : Forall (fun c => c <> 0) s -> is_str m (a + Z.of_nat (length s)) t ->
  (forall i, (i < length s)%nat -> m !! (a + Z.of_nat i) = s !! i) -> is_str m a (s ++ t).
Proof.
  intros Hs. revert a. induction Hs as [|c s Hc Hs IH]; intros a Ht E; simpl in *; [by rewrite Z.add_0_r in Ht|].
  split_and!; [|done|].
  - specialize (E 0%nat). rewrite Z.add_0_r in E. apply E. lia.
  - apply IH; [by replace (a + 1 + Z.of_nat (length s)) with (a + Z.of_nat (S (length s))) by lia|].
    intros i Hi. transitivity (m !! (a + Z.of_nat (S i))); [f_equal; lia|]. apply E. lia.
Qed.

Lemma is_str_nonzero m a s : is_str m a s -> Forall (fun c => c <> 0) s.
Proof. revert a. induction s as [|c s IH]; intros a H; [constructor|]. destruct H as (_ & H1 & H2). constructor; [done|by eapply IH]. Qed.

(** Every byte of the memory is one. *)
Definition bytes (m : mem) : Prop := forall a v, m !! a = Some v -> is_byte v.

Lemma bytes_str m a s : bytes m -> is_str m a s -> Forall is_byte s.
Proof. intros Hb. revert a. induction s as [|c s IH]; intros a H; [constructor|]. destruct H as (H1 & _ & H2). constructor; [by eapply Hb|by eapply IH]. Qed.

Lemma bytes_wr m a l : bytes m -> Forall is_byte l -> bytes (wr m a l).
Proof.
  intros Hb Hl. revert m a Hb. induction Hl as [|c l Hc Hl IH]; intros m a Hb; [done|]. rewrite wr_cons. apply IH.
  intros b v [[<- <-]|[_ H]]%lookup_insert_Some; [done|by eapply Hb].
Qed.

Lemma bytes_rdn m a n : bytes m -> Forall is_byte (rdn m a n).
Proof.
  intros Hb. unfold rdn. apply Forall_forall. intros x (i & <- & _)%list_elem_of_In%in_map_iff. unfold rd.
  destruct (m !! (a + i)) eqn:E; simpl; [by eapply Hb|done].
Qed.

(** ** [fmtname] *)

(** The last component of a path. *)
Definition is_base (s b : list Z) : Prop := 47 ∉ b /\ (s = b \/ exists pre, s = pre ++ 47 :: b).

Definition padded (b : list Z) : list Z := b ++ repeat 32 (Z.to_nat DIRSIZ - length b).

Lemma last_slash_spec n m path s : is_str m path s -> (n <= length s)%nat ->
  exists i, last_slash n m path = Some (path + i) /\ -1 <= i <= Z.of_nat n /\ (i = -1 \/ s !! Z.to_nat i = Some 47) /\
    forall j, i < Z.of_nat j <= Z.of_nat n -> s !! j <> Some 47.
Proof.
  intros Hs. induction n as [|n IH]; intros Hn.
  - assert (E : exists c, m !! (path + Z.of_nat 0) = Some c /\ (c = 47 <-> s !! 0%nat = Some 47)).
    { destruct s as [|c s]; simpl in *; rewrite Z.add_0_r; [by eexists|]. destruct Hs as (-> & _). exists c. split; [done|]. split; congruence. }
    destruct E as (c & E & Hc). cbn [last_slash]. rewrite E. cbn [mbind option_bind]. destruct (Z.eqb_spec c 47) as [Ec|Ec].
    + exists 0. split_and!; [done|lia|lia|right; by apply Hc|]. intros j Hj. lia.
    + exists (-1). split_and!; [f_equal; lia|lia|lia|by left|]. intros j Hj. assert (j = 0%nat) as -> by lia. by rewrite <- Hc.
  - assert (E : exists c, m !! (path + Z.of_nat (S n)) = Some c /\ (c = 47 <-> s !! S n = Some 47)).
    { destruct (decide (S n = length s)) as [El|].
      - exists 0. rewrite El, (is_str_end _ _ _ Hs). split; [done|]. rewrite lookup_ge_None_2 by lia. done.
      - destruct (lookup_lt_is_Some_2 s (S n)) as [c Ec]; [lia|]. exists c.
        rewrite (is_str_lookup _ _ _ _ Hs) by lia. rewrite Ec. split; [done|]. split; congruence. }
    destruct E as (c & E & Hc). cbn [last_slash]. rewrite E. cbn [mbind option_bind]. destruct (Z.eqb_spec c 47) as [Ec|Ec].
    + exists (Z.of_nat (S n)). rewrite Nat2Z.id. split_and!; [done|lia|lia|right; by apply Hc|]. intros j Hj. lia.
    + destruct IH as (i & Hi & H1 & H2 & H3); [lia|]. exists i. split_and!; [done|lia|lia|done|].
      intros j Hj. destruct (decide (j = S n)) as [->|]; [by rewrite <- Hc|]. apply H3. lia.
Qed.

Lemma is_base_drop s i : -1 <= i -> (i = -1 \/ s !! Z.to_nat i = Some 47) -> (forall j, i < Z.of_nat j <= Z.of_nat (length s) -> s !! j <> Some 47) ->
  is_base s (drop (Z.to_nat (i + 1)) s).
Proof.
  intros Hi H Hj. split.
  - intros (j & Hx)%list_elem_of_lookup. rewrite lookup_drop in Hx. pose proof (lookup_lt_Some _ _ _ Hx). eapply Hj; [|done]. lia.
  - destruct (decide (i = -1)) as [->|Hne]; [by left|right]. destruct H as [->|H]; [done|]. exists (take (Z.to_nat i) s).
    replace (Z.to_nat (i + 1)) with (S (Z.to_nat i)) by lia. symmetry. by apply take_drop_middle.
Qed.

Lemma fmtname_result fmtbuf m path s :
  is_str m path s -> mapped m fmtbuf 15 -> m !! (fmtbuf + 14) = Some 0 ->
  (fmtbuf + 15 <= path \/ path + Z.of_nat (length s) < fmtbuf) ->
  exists b p, is_base s b /\
    fmtname fmtbuf m path = Some (if decide (length b < 14)%nat then (wr m fmtbuf (padded b), fmtbuf) else (m, p)) /\
    is_str m p b /\ path <= p.
Proof.
  intros Hs Hm H0 Hd. unfold fmtname. rewrite (strlen_str _ _ _ Hs). cbn [mbind option_bind]. rewrite Nat2Z.id.
  destruct (last_slash_spec (length s) m path s Hs ltac:(lia)) as (i & -> & Hi & H1 & H2). cbn [mbind option_bind].
  set (b := drop (Z.to_nat (i + 1)) s). assert (Hb : is_base s b) by (apply is_base_drop; [lia|done|done]).
  assert (Hi' : (Z.to_nat (i + 1) <= length s)%nat).
  { destruct H1 as [->|H1]; [simpl; lia|]. apply lookup_lt_Some in H1. lia. }
  assert (Hp : is_str m (path + i + 1) b).
  { replace (path + i + 1) with (path + Z.of_nat (Z.to_nat (i + 1))) by lia. by apply is_str_drop. }
  assert (Hl : (length b + Z.to_nat (i + 1) = length s)%nat) by (unfold b; rewrite length_drop; lia).
  exists b, (path + i + 1). split; [done|]. split; [|split; [done|lia]]. rewrite (strlen_str _ _ _ Hp). cbn [mbind option_bind].
  change DIRSIZ with 14. rewrite Z.geb_leb. destruct (Z.leb_spec 14 (Z.of_nat (length b))); [rewrite decide_False by lia; done|].
  rewrite decide_True by lia.
  rewrite memmove_spec; [|lia|apply (mapped_sub m fmtbuf 15); [done|lia|lia]|eapply mapped_sub; [by apply is_str_mapped|lia|lia]].
  cbn [mbind option_bind]. rewrite (is_str_rdn _ _ _ Hp). rewrite (strlen_str _ _ b). 2: { eapply is_str_ext; [|exact Hp]. intros j Hj. apply lookup_wr_out. lia. }
  cbn [mbind option_bind]. rewrite memset_spec; [|lia|apply mapped_wr, (mapped_sub m fmtbuf 15); [done|lia|lia]]. cbn [mbind option_bind].
  rewrite <- wr_app. unfold padded. do 3 f_equal. do 2 f_equal. unfold DIRSIZ. lia.
Qed.

(** ** The buffers *)

Definition apart (a n b k : Z) : Prop := a + n <= b \/ b + k <= a.

Section safe.
Context (fmtbuf lsbuf de : Z).
Context (Hpos : 0 < fmtbuf /\ 0 < lsbuf) (Hap : apart fmtbuf 15 lsbuf 512 /\ apart fmtbuf 15 de 16 /\ apart lsbuf 512 de 16).

Record ls_mem (m : mem) : Prop := {
  lm_fmt : mapped m fmtbuf 15;
  lm_end : m !! (fmtbuf + 14) = Some 0;
  lm_buf : mapped m lsbuf 512;
  lm_de : mapped m de 16;
  lm_bytes : bytes m }.

(** The bytes the buffers of [ls] do not occupy. *)
Definition outside (a : Z) : Prop := apart fmtbuf 15 a 1 /\ apart lsbuf 512 a 1 /\ apart de 16 a 1.
Definition same (m m' : mem) : Prop := forall a, outside a -> m' !! a = m !! a.

#[local] Instance same_preorder : PreOrder same.
Proof. split; [by intros m a|]. intros m m' m'' H H' a Ha. by rewrite H', H. Qed.

(** The places the program writes to. *)
Definition inside (a n : Z) : Prop :=
  lsbuf <= a /\ a + n <= lsbuf + 512 \/ de <= a /\ a + n <= de + 16 \/ fmtbuf <= a /\ a + n <= fmtbuf + 14.

Lemma ls_mem_wr m a l : ls_mem m -> Forall is_byte l -> inside a (Z.of_nat (length l)) ->
  ls_mem (wr m a l) /\ same m (wr m a l).
Proof.
  intros [H1 H2 H3 H4 H5] Hl Hi. unfold inside, apart in *. split; [split|].
  - by apply mapped_wr.
  - rewrite lookup_wr_out; [done|]. lia.
  - by apply mapped_wr.
  - by apply mapped_wr.
  - by apply bytes_wr.
  - intros b Hb. unfold outside, apart in Hb. apply lookup_wr_out. lia.
Qed.

(** A string the program may print: one outside the buffers. *)
Definition arg_ok (m : mem) (a : Z) (s : list Z) : Prop :=
  is_name m a s /\ 0 < a /\ apart fmtbuf 15 a (Z.of_nat (length s) + 1) /\ apart lsbuf 512 a (Z.of_nat (length s) + 1) /\
  apart de 16 a (Z.of_nat (length s) + 1).

Lemma arg_ok_same m m' a s : same m m' -> arg_ok m a s -> arg_ok m' a s.
Proof.
  intros H [(H1 & H2 & H3) H4]. split; [split_and!; [done| |done]|done].
  eapply is_str_ext; [|done]. intros i Hi. apply H. unfold outside, apart in *. lia.
Qed.

Lemma fmtname_safe m path s :
  ls_mem m -> is_str m path s -> 0 < path -> apart fmtbuf 15 path (Z.of_nat (length s) + 1) ->
  exists m' p b, fmtname fmtbuf m path = Some (m', p) /\ ls_mem m' /\ same m m' /\ is_name m' p b.
Proof.
  intros Hm Hs Hp Ha. destruct (fmtname_result fmtbuf m path s) as (b & p & _ & E & Hb & Hle);
    [done|apply Hm|apply Hm|unfold apart in Ha; lia|].
  rewrite E. case_decide as Hl.
  - assert (Hlen : length (padded b) = 14%nat) by (unfold padded, DIRSIZ; rewrite length_app, repeat_length; lia).
    assert (Hbb : Forall is_byte (padded b)).
    { apply Forall_app. split; [eapply bytes_str; [apply Hm|done]|]. apply Forall_forall. intros x Hx%list_elem_of_In%repeat_spec. by subst. }
    destruct (ls_mem_wr m fmtbuf (padded b) Hm Hbb) as [H1 H2]; [unfold inside; rewrite Hlen; lia|].
    exists (wr m fmtbuf (padded b)), fmtbuf, (padded b). split; [done|]. split; [done|]. split; [done|].
    split; [lia|]. split; [|done]. rewrite <- (app_nil_r (padded b)) at 2. apply is_str_app.
    + apply Forall_app. split; [by eapply is_str_nonzero|]. apply Forall_forall. intros x Hx%list_elem_of_In%repeat_spec. by subst.
    + simpl. rewrite Hlen. rewrite lookup_wr_out by lia. apply Hm.
    + intros i Hi. by apply lookup_wr_in.
  - exists m, p, b. split; [done|]. split; [done|]. split; [reflexivity|]. split; [lia|]. split; [done|]. eapply bytes_str; [apply Hm|done].
Qed.

(** ** System calls *)

Lemma wpi_open_any {X} (Q : Z -> world -> Prop) path w :
  Q (-1) w ->
  (forall st data fd, w_files w !! path = Some (st, data) -> 0 <= fd -> w_fds w !! fd = None ->
    Q fd (with_fds <[fd := Input st data]> w)) -> wpi X Q (sys (Open path O_RDONLY)) w.
Proof.
  intros H1 H2. destruct (w_files w !! path) as [[st data]|] eqn:Ef; [|by apply wpi_open_missing].
  destruct (lowest_fd (w_fds w)) as [fd|] eqn:El.
  - eapply wpi_open; [done|done|]. destruct (lowest_fd_spec _ _ El). by eapply H2.
  - apply wpi_sys; unfold os_step, stdio; simpl; rewrite Ef, El; [by eexists _, _|]. by intros x w' [-> ->].
Qed.

Lemma wpi_ustat {X} (Q : Z * stat -> world -> Prop) path w : (forall r, Q r w) -> wpi X Q (ustat path) w.
Proof.
  intros HQ. apply wpi_bind, wpi_open_any; [by apply wpi_ret|]. intros st data fd _ Hfd Hfree.
  destruct (Z.ltb_spec fd 0); [lia|]. apply wpi_bind. eapply wpi_fstat; [apply lookup_insert_eq|].
  apply wpi_bind. eapply wpi_close; [apply lookup_insert_eq|]. apply wpi_ret.
  unfold with_fds. simpl. rewrite delete_insert_id by done. destruct w. apply HQ.
Qed.

Lemma formats_plain m s : Forall (fun c => c <> c_percent /\ is_byte c) s -> formats m s [] s.
Proof. induction 1 as [|c s [H1 H2] _ IH]; by constructor. Qed.

Lemma formats_entry m a s x y z :
  is_name m a s -> exists t, formats m (line "%s %d %d %d") [A_str a; A_int x; A_int y; A_int z] t.
Proof.
  intros (H1 & H2 & H3). eexists. unfold line. simpl. apply formats_conv; [by constructor|]. apply formats_char; [done|done|].
  do 2 (apply formats_conv; [constructor|]; apply formats_char; [done|done|]).
  apply formats_conv; [constructor|]. apply formats_char; [done|done|]. constructor.
Qed.

Lemma formats_file m a s x y z :
  is_name m a s -> exists t, formats m (line "%s %d %d %l") [A_str a; A_int x; A_int y; A_uint64 z] t.
Proof.
  intros (H1 & H2 & H3). eexists. unfold line. simpl. apply formats_conv; [by constructor|]. apply formats_char; [done|done|].
  do 2 (apply formats_conv; [constructor|]; apply formats_char; [done|done|]).
  apply formats_conv; [constructor|]. apply formats_char; [done|done|]. constructor.
Qed.

(** ** Safety *)

Lemma wpi_ls_entry X (Q : mem -> world -> Prop) m p w :
  ls_mem m -> lsbuf <= p -> p + 15 <= lsbuf + 512 -> outs w ->
  (forall m' t, ls_mem m' -> same m m' -> Q m' (emit 1 t w)) -> wpi X Q (ls_entry fmtbuf lsbuf de m p) w.
Proof.
  intros Hm Hp Hp' Ho HQ. unfold ls_entry. change DIRSIZ with 14.
  rewrite memmove_spec; [|lia|apply (mapped_sub _ _ _ _ _ (lm_buf _ Hm)); lia|apply (mapped_sub _ _ _ _ _ (lm_de _ Hm)); lia]. apply wpi_bind, wpi_ret.
  set (m1 := wr m p (rdn m (de + 2) 14)). assert (Hlen : length (rdn m (de + 2) 14) = 14%nat) by by rewrite length_rdn.
  destruct (ls_mem_wr m p (rdn m (de + 2) 14)) as [Hm1 Hs1]; [done|apply bytes_rdn, Hm|unfold inside; lia|]. fold m1 in Hm1, Hs1.
  rewrite st_mapped by (replace (p + 14) with (lsbuf + (p + 14 - lsbuf)) by lia; apply (lm_buf _ Hm1); lia). apply wpi_bind, wpi_ret.
  destruct (ls_mem_wr m1 (p + 14) [0]) as [Hm2 Hs2]; [done|by repeat constructor|unfold inside; simpl; lia|].
  change (wr m1 (p + 14) [0]) with (<[p + 14 := 0]> m1) in *. set (m2 := <[p + 14 := 0]> m1) in *.
  destruct (is_str_exists m2 lsbuf (Z.to_nat (p + 14 - lsbuf))) as (s & Hs & Hl).
  { apply (mapped_sub _ _ _ _ _ (lm_buf _ Hm2)); lia. }
  { replace (lsbuf + _) with (p + 14) by lia. apply lookup_insert_eq. }
  rewrite (cstring_str _ _ _ Hs). apply wpi_bind, wpi_ret, wpi_bind, wpi_ustat. intros [r st0].
  assert (H02 : same m m2) by by etransitivity.
  destruct (r <? 0).
  - apply wpi_bind. eapply wpi_vprintf; [|apply Ho|by apply wpi_ret, HQ].
    apply (formats_cannot_open m2 lsbuf s (bytes_of "ls: cannot stat ")); [|apply (bool_decide_unpack _); vm_compute; done].
    split; [lia|]. split; [done|]. eapply bytes_str; [apply Hm2|done].
  - destruct (fmtname_safe m2 lsbuf s) as (m3 & q & b & -> & Hm3 & Hs3 & Hb); [done|done|lia|unfold apart in *; lia|].
    apply wpi_bind, wpi_ret, wpi_bind. destruct (formats_entry m3 q b (st_type st0) (s32 (st_ino st0)) (s32 (st_size st0)) Hb) as [t Ht].
    eapply wpi_vprintf; [exact Ht|apply Ho|]. apply wpi_ret, HQ; [done|]. by etransitivity.
Qed.

Lemma wpi_ls_loop X (Q : mem -> world -> Prop) fd p st data m w :
  lsbuf <= p -> p + 15 <= lsbuf + 512 -> ls_mem m -> Forall is_byte data -> w_fds w !! fd = Some (Input st data) -> outs w ->
  (forall m' t rest, ls_mem m' -> same m m' -> Q m' (emit 1 t (with_fds <[fd := Input st rest]> w))) ->
  wpi X Q (ITree.iter (fun m =>
    '(n, l) ← sys (Read fd sizeof_dirent);
    let m := wr m de (take (Z.to_nat n) l) in
    if negb (n =? sizeof_dirent) then mret (inr m)
    else if getn 2 l 0 =? 0 then mret (inl m)
    else m ← ls_entry fmtbuf lsbuf de m p; mret (inl m)) m) w.
Proof.
  intros Hp Hp'. remember (length data) as k eqn:Ek. revert data Ek m w. induction k as [k IH] using lt_wf_ind.
  intros data -> m w Hm Hd Hfd Ho HQ. apply wpi_iter, wpi_bind. eapply wpi_read; [done|done|]. intros len H1 H2 H3.
  cbv beta iota zeta. rewrite Nat2Z.id, take_take, Nat.min_id. change sizeof_dirent with 16 in *.
  destruct (ls_mem_wr m de (take len data)) as [Hm1 Hs1]; [done|by apply Forall_take|unfold inside; rewrite length_take; lia|].
  pose proof (outs_with_fds _ _ (Input st (drop len data)) _ Ho Hfd ltac:(done)) as Ho'.
  assert (Hnext : Z.of_nat len = 16 -> forall m' t, ls_mem m' -> same m m' ->
    wpi X Q (ITree.iter (fun m =>
      '(n, l) ← sys (Read fd 16);
      let m := wr m de (take (Z.to_nat n) l) in
      if negb (n =? 16) then mret (inr m)
      else if getn 2 l 0 =? 0 then mret (inl m)
      else m ← ls_entry fmtbuf lsbuf de m p; mret (inl m)) m') (emit 1 t (with_fds <[fd := Input st (drop len data)]> w))).
  { intros H16 m' t Hm' Hs'. apply (IH (length (drop len data)) ltac:(rewrite length_drop; lia) (drop len data)); [done|done|by apply Forall_drop| |done|].
    - apply lookup_insert_eq.
    - intros m'' t' rest Hm'' Hs''. rewrite <- emit_with_fds, with_fds_insert, emit_emit. apply HQ; [done|]. by etransitivity. }
  destruct (Z.eqb_spec (Z.of_nat len) 16) as [H16|H16]; simpl negb; cbv iota.
  - destruct (getn 2 (take len data) 0 =? 0).
    + apply wpi_ret. rewrite <- (emit_nil 1). by apply Hnext.
    + apply wpi_bind, wpi_ls_entry; [done..|]. intros m' t Hm' Hs'. apply wpi_ret. apply Hnext; [done|done|]. by etransitivity.
  - apply wpi_ret. rewrite <- (emit_nil 1). by apply HQ.
Qed.

Lemma wpi_ls_dir X (Q : mem -> world -> Prop) fd path s st data m w :
  arg_ok m path s -> ls_mem m -> Forall is_byte data -> w_fds w !! fd = Some (Input st data) -> outs w ->
  (forall m' t rest, ls_mem m' -> same m m' -> Q m' (emit 1 t (with_fds <[fd := Input st rest]> w))) ->
  wpi X Q (ls_dir fmtbuf lsbuf de m fd path) w.
Proof.
  intros [(Hp0 & Hs & Hsb) (Hpos' & Ha1 & Ha2 & Ha3)] Hm Hd Hfd Ho HQ. unfold ls_dir. rewrite (strlen_str _ _ _ Hs). apply wpi_bind, wpi_ret.
  change DIRSIZ with 14. rewrite Z.gtb_ltb. destruct (Z.ltb_spec 512 (Z.of_nat (length s) + 1 + 14 + 1)) as [Hlong|Hlong].
  { apply wpi_bind. eapply wpi_vprintf; [|apply Ho|].
    - apply formats_plain. apply (bool_decide_unpack _). vm_compute. done.
    - apply wpi_ret. specialize (HQ m (line "ls: path too long") data Hm ltac:(reflexivity)). by rewrite with_fds_id in HQ. }
  rewrite (strcpy_str m lsbuf path s Hs); [|apply (mapped_sub _ _ _ _ _ (lm_buf _ Hm)); lia|unfold apart in Ha2; lia]. apply wpi_bind, wpi_ret.
  set (m1 := wr m lsbuf (s ++ [0])). assert (Hs1 : is_str m1 lsbuf s) by (apply is_str_wr; by eapply is_str_nonzero).
  destruct (ls_mem_wr m lsbuf (s ++ [0])) as [Hm1 Hsm1]; [done| |unfold inside; rewrite length_app; simpl; lia|].
  { apply Forall_app. split; [done|]. by repeat constructor. }
  fold m1 in Hm1, Hsm1. rewrite (strlen_str _ _ _ Hs1). apply wpi_bind, wpi_ret.
  rewrite st_mapped by (apply (lm_buf _ Hm1); lia). apply wpi_bind, wpi_ret.
  destruct (ls_mem_wr m1 (lsbuf + Z.of_nat (length s)) [47]) as [Hm2 Hsm2]; [done|by repeat constructor|unfold inside; simpl; lia|].
  change (wr m1 _ [47]) with (<[lsbuf + Z.of_nat (length s) := 47]> m1) in Hm2, Hsm2.
  eapply wpi_ls_loop; [lia|lia|done|done|done|done|]. intros m' t rest Hm' Hs'. apply HQ; [done|].
  etransitivity; [done|]. by etransitivity.
Qed.

Lemma wpi_ls X (Q : mem -> world -> Prop) path s m w :
  arg_ok m path s -> ls_mem m -> (forall n st data, w_files w !! n = Some (st, data) -> Forall is_byte data) -> outs w ->
  (forall m' w', ls_mem m' -> same m m' -> w_files w' = w_files w -> outs w' -> Q m' w') ->
  wpi X Q (ls fmtbuf lsbuf de m path) w.
Proof.
  intros Harg Hm Hf Ho HQ. unfold ls, open. destruct Harg as [Hn Harg]. rewrite (cstring_str _ _ s) by apply Hn. apply wpi_bind, wpi_bind, wpi_ret.
  apply wpi_open_any.
  { apply wpi_bind. eapply wpi_vprintf; [|apply Ho|by apply wpi_ret, HQ].
    apply (formats_cannot_open m path s (bytes_of "ls: cannot open ")); [done|apply (bool_decide_unpack _); vm_compute; done]. }
  intros st data fd Hfile Hfd Hfree. destruct (Z.ltb_spec fd 0); [lia|].
  assert (Ho' : outs (with_fds <[fd := Input st data]> w)).
  { destruct Ho as [H1 H2]. split; simpl; rewrite lookup_insert_ne; try done; intros ->; congruence. }
  apply wpi_bind. eapply wpi_fstat; [apply lookup_insert_eq|]. cbv beta iota. change (0 <? 0) with false. cbv iota. apply wpi_bind.
  assert (Hclose : forall m' t rest, ls_mem m' -> same m m' ->
    wpi X Q (sys (Close fd);; mret m') (emit 1 t (with_fds <[fd := Input st rest]> (with_fds <[fd := Input st data]> w)))).
  { intros m' t rest Hm' Hs'. apply wpi_bind. eapply wpi_close; [apply lookup_insert_eq|]. apply wpi_ret, HQ; [done|done|done|].
    destruct Ho as [H1 H2]. unfold outs. simpl. rewrite insert_insert_eq, delete_insert_id by done. done. }
  destruct (st_type st =? T_FILE); [|destruct (st_type st =? T_DIR)].
  - destruct (fmtname_safe m path s) as (m' & q & b & -> & Hm' & Hs' & Hb); [done|apply Hn|lia|apply Harg|].
    apply wpi_bind, wpi_ret, wpi_bind. destruct (formats_file m' q b (st_type st) (s32 (st_ino st)) (st_size st) Hb) as [t Ht].
    eapply wpi_vprintf; [exact Ht|apply Ho'|]. apply wpi_ret. specialize (Hclose m' t data Hm' Hs'). rewrite with_fds_insert in Hclose. done.
  - eapply wpi_ls_dir; [by split|done|by eapply Hf|apply lookup_insert_eq|done|]. intros m' t rest Hm' Hs'. by apply Hclose.
  - apply wpi_ret. specialize (Hclose m [] data Hm ltac:(reflexivity)). by rewrite emit_nil, with_fds_insert in Hclose.
Qed.

Lemma wpi_ls_all X (Q : unit -> world -> Prop) args names m w :
  Forall2 (arg_ok m) args names -> ls_mem m -> (forall n st data, w_files w !! n = Some (st, data) -> Forall is_byte data) -> outs w ->
  (forall w', Q () w') -> wpi X Q (ls_all fmtbuf lsbuf de m args) w.
Proof.
  revert w m names. induction args as [|arg args IH]; intros w m names Ha Hm Hf Ho HQ; cbn [ls_all]; [by apply wpi_ret|].
  inversion Ha as [|? s ? names' Hs Hrest]; subst. apply wpi_bind. eapply wpi_ls; [done..|]. intros m' w' Hm' Hs' Ef Ho'.
  apply (IH w' m' names'); [|done|by rewrite Ef|done|done]. eapply Forall2_impl; [done|]. intros a t. by apply arg_ok_same.
Qed.

(** C32: [ls] never accesses memory outside its buffers: whatever its
    arguments are, and whatever the files and directories hold (names of 14
    bytes without a NUL, paths too long for its buffer, reads cut up anyhow),
    it stays within the 15, 512 and 16 bytes of its buffers, ends, and exits
    with status 0. *)
Theorem ls_safe dot m prg args names w :
  Forall2 (arg_ok m) args names -> arg_ok m dot [46] -> ls_mem m ->
  (forall n st data, w_files w !! n = Some (st, data) -> Forall is_byte data) -> outs w ->
  wpi (fun n _ => n = 0) (fun _ _ => False) (ls_main fmtbuf lsbuf de dot m (prg :: args)) w.
Proof.
  intros Ha Hdot Hm Hf Ho. unfold ls_main. cbn [tail]. destruct args as [|arg args].
  - apply wpi_bind. eapply wpi_ls; [done..|]. intros m' w' _ _ _ _. by apply wpi_exit.
  - apply wpi_bind. eapply wpi_ls_all; [done..|]. intros w'. by apply wpi_exit.
Qed.

End safe.

(** The buffers at 1000, 2000 and 3000, and a dot at 64. *)
Definition sample_ls : mem := wr (wr (wr (wr ∅ 1000 (repeat 0 15)) 2000 (repeat 0 512)) 3000 (repeat 0 16)) 64 [46; 0].

Lemma mapped_repeat m a n : mapped (wr m a (repeat 0 n)) a (Z.of_nat n).
Proof.
  intros i Hi. replace (a + i) with (a + Z.of_nat (Z.to_nat i)) by lia. rewrite lookup_wr_in; [|rewrite repeat_length; lia].
  apply lookup_lt_is_Some. rewrite repeat_length. lia.
Qed.

Lemma sample_ls_mem : ls_mem 1000 2000 3000 sample_ls.
Proof.
  assert (Hr : forall n, Forall is_byte (repeat 0 n)) by (intros n; apply Forall_forall; intros x Hx%list_elem_of_In%repeat_spec; by subst).
  split; unfold sample_ls.
  - do 3 apply mapped_wr. apply (mapped_repeat _ 1000 15).
  - reflexivity.
  - do 2 apply mapped_wr. apply (mapped_repeat _ 2000 512).
  - apply mapped_wr. apply (mapped_repeat _ 3000 16).
  - apply bytes_wr; [|by repeat constructor]. do 3 (apply bytes_wr; [|apply Hr]). intros a v H. by rewrite lookup_empty in H.
Qed.

(** The directory [.] has two entries: itself, and a file whose name of 14
    bytes has no NUL behind it. *)
Definition sample_ls_dir : list Z := [1; 0; 46] ++ repeat 0 13 ++ [2; 0] ++ bytes_of "fourteen-bytes".
Definition sample_ls_world : world :=
  mk_world {[ [46] := (mk_stat 1 1 T_DIR 1 32, sample_ls_dir);
              bytes_of "./fourteen-bytes" := (mk_stat 1 2 T_FILE 1 3, bytes_of "abc") ]} (w_fds sample_world) [].

Lemma ls_safe_witness :
  wpi (fun n _ => n = 0) (fun _ _ => False) (ls_main 1000 2000 3000 64 sample_ls [0; 64]) sample_ls_world.
Proof.
  assert (Hdot : arg_ok 1000 2000 3000 sample_ls 64 [46]).
  { split; [|unfold apart; simpl; lia]. split; [done|]. split; [vm_compute; repeat split; discriminate|by repeat constructor]. }
  apply (ls_safe 1000 2000 3000 ltac:(lia) ltac:(unfold apart; lia) 64 sample_ls 0 [64] [[46]] sample_ls_world).
  - by repeat constructor.
  - exact Hdot.
  - exact sample_ls_mem.
  - intros n st data. cbn [w_files sample_ls_world]. rewrite lookup_insert_Some, lookup_singleton_Some.
    intros [[_ [= <- <-]]|[_ [_ [= <- <-]]]]; unfold is_byte; apply (bool_decide_unpack _); vm_compute; done.
  - done.
Defined.
