(* ===== verification/Utests.v ===== *)
(** * [user/forktest.c], [user/stressfs.c], [user/grind.c]

    Programs that put the kernel under load, as interaction trees of their
    system calls. *)

From ITree Require Import ITree.
From S2P Require Import Prelude Defs Memory User Ulib Uprogs.

(** ** forktest.c *)

Module Forktest.

Definition forktest_N : Z := 1000.

Definition forktest_print (s : string) : prog unit := sys (Write 1 (line s));; mret ().

(** The loop that forks until it fails; the number of children. *)
Definition forktest_fork : prog Z :=
  ITree.iter (fun n =>
    if n <? forktest_N then
      pid ← sys Fork;
      if pid <? 0 then mret (inr n)
      else if pid =? 0 then exit 0
      else mret (inl (n + 1))
    else mret (inr n)) 0.

Definition forktest_wait (n : Z) : prog unit :=
  ITree.iter (fun n =>
    if n >? 0 then
      r ← sys Wait;
      if r <? 0 then forktest_print "wait stopped early";; exit 1
      else mret (inl (n - 1))
    else mret (inr ())) n.

Definition forktest : prog unit :=
  forktest_print "fork test";;
  n ← forktest_fork;
  if n =? forktest_N then forktest_print "fork claimed to work N times!";; exit 1 else
  forktest_wait n;;
  r ← sys Wait;
  if negb (r =? -1) then forktest_print "wait got too many";; exit 1 else
  forktest_print "fork test OK".

Definition forktest_main : prog void := forktest;; exit 0.

End Forktest.

(** ** stressfs.c *)

Module Stressfs.

(** [for(i = 0; i < 4; i++) if(fork() > 0) break;] *)
Fixpoint stressfs_fork (n : nat) (i : Z) : prog Z :=
  match n with
  | O => mret i
  | S n => pid ← sys Fork; if pid >? 0 then mret i else stressfs_fork n (i + 1)
  end.

(** [path], after [path[8] += i;] *)
Definition stressfs_file (i : Z) : list Z := alter (fun c => u8 (c + i)) 8%nat (bytes_of "stressfs0").

Definition stressfs_main (m : mem) : prog void :=
  let data := repeat 97 512 in
  printf m (line "stressfs starting") [];;
  i ← stressfs_fork 4 0;
  printf m (line "write %d") [A_int i];;
  fd ← sys (Open (stressfs_file i) (Z.lor O_CREATE O_RDWR));
  for_prog (seq 0 20) (fun _ => sys (Write fd data);; mret ());;
  sys (Close fd);;
  printf m (line "read") [];;
  fd ← sys (Open (stressfs_file i) O_RDONLY);
  for_prog (seq 0 20) (fun _ => sys (Read fd 512);; mret ());;
  sys (Close fd);;
  sys Wait;;
  exit 0.

End Stressfs.

(** ** grind.c *)

Module Grind.

(** The number and the next state of the generator. *)
Definition do_rand (ctx : Z) : Z * Z :=
  let x := ctx mod 0x7ffffffe + 1 in
  let hi := Z.quot x 127773 in
  let lo := Z.rem x 127773 in
  let x := 16807 * lo - 2836 * hi in
  let x := if x <? 0 then x + 0x7fffffff else x in
  let x := x - 1 in
  (s32 x, u64 x).

(** The variables of the loop of [go]: the number of rounds, [fd], the bytes
    of [buf], and [rand_next]. *)
Record grind_vars := mk_grind_vars { v_iters : Z; v_fd : Z; v_buf : list Z; v_rand : Z }.
Definition set_v_fd (fd : Z) (v : grind_vars) : grind_vars := mk_grind_vars (v_iters v) fd (v_buf v) (v_rand v).

Definition grind_mode : Z := Z.lor O_CREATE O_RDWR.

Section grind.
(** The memory, and the addresses in it of [buf] of the last branch and of
    the constant ["hi"]. *)
Context (m : mem) (buf hi : Z).

(** Abbreviations for repeated pieces of code: calls whose results are
    dropped, and the error exits. *)
Definition call {T} (e : sysE T) : prog unit := sys e;; mret ().
Definition close_open (path : string) : prog unit := fd ← sys (Open (bytes_of path) grind_mode); call (Close fd).
Definition grind_unlink (path : string) : prog unit := call (Unlink (bytes_of path)).
Definition grind_fail {A} (msg : string) : prog A := printf m (line msg) [];; exit 1.
Definition grind_fail2 {A} (msg : string) (status : Z) : prog A := fprintf m 2 (line msg) [];; exit status.

(** [pid = fork(); if(pid == 0){ child; exit(0); } else if(pid < 0){ ... }] *)
Definition fork_child (child : prog unit) : prog Z :=
  pid ← sys Fork;
  if pid =? 0 then child;; exit 0
  else if pid <? 0 then grind_fail "grind: fork failed"
  else mret pid.

(** Branch 19 *)
Definition pipe_child : prog unit :=
  '(r, fd0, fd1) ← sys User.Pipe;
  if r <? 0 then grind_fail "grind: pipe failed" else
  fork_child (
    call Fork;;
    call Fork;;
    r ← sys (Write fd1 (bytes_of "x"));
    (if negb (r =? 1) then printf m (line "grind: pipe write failed") [] else mret ());;
    '(r, _) ← sys (Read fd0 1);
    (if negb (r =? 1) then printf m (line "grind: pipe read failed") [] else mret ()));;
  call (Close fd0);;
  call (Close fd1);;
  call Wait.

(** Branch 21 *)
Definition create_c : prog unit :=
  grind_unlink "c";;
  fd1 ← sys (Open (bytes_of "c") grind_mode);
  if fd1 <? 0 then grind_fail "grind: create c failed" else
  r ← sys (Write fd1 (bytes_of "x"));
  if negb (r =? 1) then grind_fail "grind: write c failed" else
  '(r, st) ← sys (Fstat fd1);
  if negb (r =? 0) then grind_fail "grind: fstat failed" else
  if negb (st_size st =? 1) then
    printf m (line "grind: fstat reports wrong size %d") [A_int (s32 (st_size st))];; exit 1
  else if st_ino st >? 200 then
    printf m (line "grind: fstat reports crazy i-number %d") [A_int (s32 (st_ino st))];; exit 1
  else
    call (Close fd1);;
    grind_unlink "c".

(** Branch 22: [echo hi | cat] *)
Definition echo_child (aa0 aa1 bb0 bb1 : Z) : prog unit :=
  call (Close bb0);;
  call (Close bb1);;
  call (Close aa0);;
  call (Close 1);;
  r ← sys (Dup aa1);
  if negb (r =? 1) then grind_fail2 "grind: dup failed" 1 else
  call (Close aa1);;
  call (Exec (bytes_of "grindir/../echo") [bytes_of "echo"; bytes_of "hi"]);;
  grind_fail2 "grind: echo: not found" 2.

Definition cat_child (aa0 aa1 bb0 bb1 : Z) : prog unit :=
  call (Close aa1);;
  call (Close bb0);;
  call (Close 0);;
  r ← sys (Dup aa0);
  if negb (r =? 0) then grind_fail2 "grind: dup failed" 4 else
  call (Close aa0);;
  call (Close 1);;
  r ← sys (Dup bb1);
  if negb (r =? 1) then grind_fail2 "grind: dup failed" 5 else
  call (Close bb1);;
  call (Exec (bytes_of "/cat") [bytes_of "cat"]);;
  grind_fail2 "grind: cat: not found" 6.

(** A byte read into [buf + i]. *)
Definition read_byte (m : mem) (fd a : Z) : prog mem :=
  '(r, bytes) ← sys (Read fd 1);
  mret (wr m a bytes).

Definition exec_pipeline : prog unit :=
  '(r, aa0, aa1) ← sys User.Pipe;
  if r <? 0 then grind_fail2 "grind: pipe failed" 1 else
  '(r, bb0, bb1) ← sys User.Pipe;
  if r <? 0 then grind_fail2 "grind: pipe failed" 1 else
  pid1 ← sys Fork;
  if pid1 =? 0 then echo_child aa0 aa1 bb0 bb1
  else if pid1 <? 0 then grind_fail2 "grind: fork failed" 3 else
  pid2 ← sys Fork;
  if pid2 =? 0 then cat_child aa0 aa1 bb0 bb1
  else if pid2 <? 0 then grind_fail2 "grind: fork failed" 7 else
  call (Close aa0);;
  call (Close aa1);;
  call (Close bb1);;
  m ← read_byte (wr m buf [0; 0; 0]) bb0 buf;
  m ← read_byte m bb0 (buf + 1);
  call (Close bb0);;
  '(_, st1) ← sys WaitStatus;
  '(_, st2) ← sys WaitStatus;
  st1 ← lift st1;
  st2 ← lift st2;
  bad ← (if negb (st1 =? 0) || negb (st2 =? 0) then mret true
         else c ← lift (strcmp m buf hi); mret (negb (c =? 0)));
  if bad : bool then
    printf m (bytes_of "grind: exec pipeline failed %d %d " ++ [34] ++ bytes_of "%s" ++ [34; 10])
      [A_int st1; A_int st2; A_str buf];;
    exit 1
  else mret ().

(** What a round does, by the random number [what]. *)
Definition grind_act (break0 what : Z) (v : grind_vars) : prog grind_vars :=
  let keep (t : prog unit) : prog grind_vars := t;; mret v in
  match what with
  | 1 => keep (close_open "grindir/../a")
  | 2 => keep (close_open "grindir/../grindir/../b")
  | 3 => keep (grind_unlink "grindir/../a")
  | 4 =>
      keep (r ← sys (Chdir (bytes_of "grindir"));
            (if negb (r =? 0) then grind_fail "grind: chdir grindir failed" else mret ());;
            grind_unlink "../b";;
            call (Chdir (bytes_of "/")))
  | 5 => call (Close (v_fd v));; fd ← sys (Open (bytes_of "/grindir/../a") grind_mode); mret (set_v_fd fd v)
  | 6 => call (Close (v_fd v));; fd ← sys (Open (bytes_of "/./grindir/./../b") grind_mode); mret (set_v_fd fd v)
  | 7 => keep (call (Write (v_fd v) (v_buf v)))
  | 8 =>
      '(_, bytes) ← sys (Read (v_fd v) 999);
      mret (mk_grind_vars (v_iters v) (v_fd v) (splice (v_buf v) 0 bytes) (v_rand v))
  | 9 => keep (call (Mkdir (bytes_of "grindir/../a"));; close_open "a/../a/./a";; grind_unlink "a/a")
  | 10 => keep (call (Mkdir (bytes_of "/../b"));; close_open "grindir/../b/b";; grind_unlink "b/b")
  | 11 => keep (grind_unlink "b";; call (Link (bytes_of "../grindir/./../a") (bytes_of "../b")))
  | 12 => keep (grind_unlink "../grindir/../a";; call (Link (bytes_of ".././b") (bytes_of "/grindir/../a")))
  | 13 => keep (fork_child (mret ());; call Wait)
  | 14 => keep (fork_child (call Fork;; call Fork);; call Wait)
  | 15 => keep (call (Sbrk 6011))
  | 16 => keep (b ← sys (Sbrk 0); if u64 b >? u64 break0 then b ← sys (Sbrk 0); call (Sbrk (s32 (- (b - break0)))) else mret ())
  | 17 =>
      keep (pid ← fork_child (close_open "a");
            r ← sys (Chdir (bytes_of "../grindir/.."));
            (if negb (r =? 0) then grind_fail "grind: chdir failed" else mret ());;
            call (Kill pid);;
            call Wait)
  | 18 => keep (fork_child (pid ← sys Getpid; call (Kill pid));; call Wait)
  | 19 => keep pipe_child
  | 20 =>
      keep (fork_child (grind_unlink "a";; call (Mkdir (bytes_of "a"));; call (Chdir (bytes_of "a"));; grind_unlink "../a";;
              call (Open (bytes_of "x") grind_mode);; grind_unlink "x");;
            call Wait)
  | 21 => keep create_c
  | 22 => keep exec_pipeline
  | _ => mret v
  end.

(** The body of the loop. *)
Definition grind_round (which_child break0 : Z) (v : grind_vars) : prog grind_vars :=
  let iters := u64 (v_iters v + 1) in
  (if iters mod 500 =? 0 then call (Write 1 (bytes_of (if c_true which_child then "B" else "A"))) else mret ());;
  let '(r, next) := do_rand (v_rand v) in
  grind_act break0 (Z.rem r 23) (mk_grind_vars iters (v_fd v) (v_buf v) next).

Definition grind_go (which_child rand_next : Z) : prog void :=
  break0 ← sys (Sbrk 0);
  call (Mkdir (bytes_of "grindir"));;
  r ← sys (Chdir (bytes_of "grindir"));
  if negb (r =? 0) then grind_fail "grind: chdir grindir failed" else
  call (Chdir (bytes_of "/"));;
  ITree.iter (fun v => v ← grind_round which_child break0 v; mret (inl v)) (mk_grind_vars 0 (-1) (repeat 0 999) rand_next).

Definition grind_iter : prog void :=
  grind_unlink "a";;
  grind_unlink "b";;
  pid1 ← sys Fork;
  if pid1 <? 0 then grind_fail "grind: fork failed" else
  if pid1 =? 0 then grind_go 0 31 else
  pid2 ← sys Fork;
  if pid2 <? 0 then grind_fail "grind: fork failed" else
  if pid2 =? 0 then grind_go 1 7177 else
  '(_, st1) ← sys WaitStatus;
  (if negb (default (-1) st1 =? 0) then call (Kill pid1);; call (Kill pid2) else mret ());;
  call WaitStatus;;
  exit 0.

Definition grind_main : prog void :=
  ITree.iter (fun _ : unit =>
    pid ← sys Fork;
    if pid =? 0 then v ← grind_iter; match v : void with end else
    (if pid >? 0 then call Wait else mret ());;
    call (Sleep 20);;
    mret (inl ())) ().

End grind.
End Grind.
