(* ===== verification/UtestsSpec.v ===== *)
(** * The load programs

    The generator of grind is the minimal standard generator of Park and
    Miller, and forktest succeeds on a system whose process table it can
    fill. *)

From ITree Require Import ITree.
From S2P Require Import Prelude Defs Memory User Ulib Uprogs Utests.

(** ** grind.c: the generator *)

Module GrindSpec.
Import Grind.

(** The modulus, 2^31 - 1. *)
Definition M : Z := 0x7fffffff.

(** The reference: multiplication by 7^5 modulo 2^31 - 1 on 1 .. 2^31 - 2. *)
Definition minimal_standard (x : Z) : Z := (7 ^ 5 * x) mod M.

(** Schrage's method: the product without its overflow. *)
Lemma schrage x : 1 <= x < M ->
  let r := 16807 * (x mod 127773) - 2836 * (x / 127773) in
  - M < r < M /\ 0 <= 16807 * (x mod 127773) < 2 ^ 31 /\ 0 <= 2836 * (x / 127773) < 2 ^ 31 /\ r = 16807 * x - M * (x / 127773).
Proof.
  intros Hx r. unfold M in *. pose proof (Z.div_mod x 127773 ltac:(lia)). pose proof (Z.mod_pos_bound x 127773 ltac:(lia)).
  subst r. lia.
Qed.

(** 1407677000 is the inverse of 16807. *)
Lemma standard_inverse x : 0 <= x < M -> (1407677000 * minimal_standard x) mod M = x.
Proof.
  intros Hx. unfold minimal_standard. rewrite Z.mul_mod_idemp_r by done.
  replace (1407677000 * (7 ^ 5 * x)) with (x + 11017 * x * M) by (change (7 ^ 5) with 16807; unfold M; lia). rewrite Z.mod_add by done. by apply Z.mod_small.
Qed.

Lemma standard_range x : 1 <= x < M -> 1 <= minimal_standard x < M.
Proof.
  intros Hx. pose proof (Z.mod_pos_bound (7 ^ 5 * x) M ltac:(done)). fold (minimal_standard x) in *.
  destruct (decide (minimal_standard x = 0)) as [E|]; [|lia]. pose proof (standard_inverse x ltac:(lia)) as I. rewrite E in I.
  rewrite Z.mul_0_r in I. rewrite Z.mod_0_l in I by done. lia.
Qed.

Lemma do_rand_eq ctx : let x := ctx mod (M - 1) + 1 in
  do_rand ctx = (minimal_standard x - 1, minimal_standard x - 1) /\ 1 <= x < M.
Proof.
  intros x. pose proof (Z.mod_pos_bound ctx (M - 1) ltac:(done)) as Hm. assert (Hx : 1 <= x < M) by (subst x; lia). split; [|done].
  destruct (schrage x Hx) as (R1 & _ & _ & R2). pose proof (standard_range x Hx) as Hs.
  unfold do_rand. change 0x7ffffffe with (M - 1). change 0x7fffffff with M. fold x.
  rewrite Z.quot_div_nonneg, Z.rem_mod_nonneg by lia. set (r := 16807 * (x mod 127773) - 2836 * (x / 127773)) in *.
  assert (E : (if r <? 0 then r + M else r) = minimal_standard x).
  { unfold minimal_standard. change (7 ^ 5) with 16807. destruct (Z.ltb_spec r 0).
    - apply Z.mod_unique with (q := x / 127773 - 1); lia.
    - apply Z.mod_unique with (q := x / 127773); lia. }
  rewrite E. unfold s32. rewrite swrap_id by (unfold M in *; lia). by rewrite u64_id by (unfold M in *; lia).
Qed.

(** C33: the generator of grind, which never needs more than 31 bits, computes
    the minimal standard generator: it multiplies by 7^5 modulo the prime
    2^31 - 1, on the numbers from 1; its results are between 0 and
    2^31 - 3, and different states give different results. *)
Theorem do_rand_standard ctx : let x := ctx mod (M - 1) + 1 in
  do_rand ctx = (minimal_standard x - 1, minimal_standard x - 1) /\
  0 <= fst (do_rand ctx) < M - 1 /\
  0 <= 16807 * (x mod 127773) < 2 ^ 31 /\ 0 <= 2836 * (x / 127773) < 2 ^ 31 /\
  (forall ctx', do_rand ctx' = do_rand ctx -> ctx' mod (M - 1) = ctx mod (M - 1)).
Proof.
  intros x. destruct (do_rand_eq ctx) as [E Hx]. fold x in E, Hx. pose proof (standard_range x Hx). destruct (schrage x Hx) as (_ & S1 & S2 & _).
  rewrite E. cbn [fst]. split_and!; try done; try lia. intros ctx'. destruct (do_rand_eq ctx') as [-> Hx']. intros [= E1].
  pose proof (standard_inverse x ltac:(lia)). pose proof (standard_inverse (ctx' mod (M - 1) + 1) ltac:(lia)) as E2.
  replace (minimal_standard (ctx' mod (M - 1) + 1)) with (minimal_standard x) in E2 by lia. subst x. lia.
Qed.

End GrindSpec.

(** ** forktest.c *)

Module ForktestSpec.
Import Forktest.

(** A process: whether it is a child of forktest, the children it has not
    waited for, and what was written to the console. *)
Record family := mk_family { fa_child : bool; fa_kids : nat; fa_out : list Z }.

Section family.
(** The processes there is room for. *)
Context (room : nat).

(** A fork succeeds, in both processes, only when there is room, and may fail
    at any time; a wait succeeds exactly when there is a child. *)
Definition family_step {T} (e : sysE T) : family -> T -> family -> Prop :=
  match e in sysE T return family -> T -> family -> Prop with
  | Fork => fun w x w' =>
      (fa_kids w < room)%nat /\ 0 < x /\ w' = mk_family (fa_child w) (S (fa_kids w)) (fa_out w) \/
      (fa_kids w < room)%nat /\ x = 0 /\ w' = mk_family true 0 (fa_out w) \/
      x = -1 /\ w' = w
  | Wait => fun w x w' =>
      match fa_kids w with
      | O => x = -1 /\ w' = w
      | S n => 0 < x /\ w' = mk_family (fa_child w) n (fa_out w)
      end
  | Write fd bytes => fun w x w' =>
      fd = 1 /\ x = Z.of_nat (length bytes) /\ w' = mk_family (fa_child w) (fa_kids w) (fa_out w ++ bytes)
  | _ => fun _ _ _ => False
  end.
#[local] Instance family_os : OS family := @family_step.

Lemma print_rule {X} (Q : unit -> family -> Prop) s w :
  Q () (mk_family (fa_child w) (fa_kids w) (fa_out w ++ line s)) -> wpi X Q (forktest_print s) w.
Proof.
  intros H. apply wpi_bind, wpi_sys; [by eexists _, _|]. intros x w' (_ & _ & ->). by apply wpi_ret.
Qed.

(** The outcome of every process. *)
Definition passed (status : Z) (w : family) : Prop :=
  status = 0 /\ (fa_child w = true \/ fa_kids w = 0%nat /\ fa_out w = line "fork test" ++ line "fork test OK").

Lemma fork_loop_rule (Q : Z -> family -> Prop) n out :
  (n <= room)%nat -> (Z.of_nat room < forktest_N) ->
  (forall n' : nat, (n' <= room)%nat -> Q (Z.of_nat n') (mk_family false n' out)) ->
  wpi passed Q (ITree.iter (fun n =>
    if n <? forktest_N then
      pid ← sys Fork;
      if pid <? 0 then mret (inr n)
      else if pid =? 0 then exit 0
      else mret (inl (n + 1))
    else mret (inr n)) (Z.of_nat n)) (mk_family false n out).
Proof.
  intros Hn Hr HQ. remember (room - n)%nat as d eqn:Hd. revert n Hn Hd. induction d as [|d IH]; intros n Hn Hd;
    apply wpi_iter; rewrite (proj2 (Z.ltb_lt _ _)) by lia; apply wpi_bind, wpi_sys;
    (try by exists (-1), (mk_family false n out); right; right); cbn [fa_kids fa_child fa_out].
  all: intros x w' [(H1 & H2 & ->)|[(H1 & -> & ->)|[-> ->]]]; cbn [fa_kids fa_child fa_out] in *.
  all: try (rewrite (proj2 (Z.ltb_ge _ _)), (proj2 (Z.eqb_neq _ _)) by lia).
  all: try (apply wpi_exit; by split; [|left]).
  all: apply wpi_ret; try (apply HQ; lia); try lia.
  replace (Z.of_nat n + 1) with (Z.of_nat (S n)) by lia. apply IH; lia.
Qed.

Lemma wait_loop_rule (Q : unit -> family -> Prop) n out :
  Q () (mk_family false 0 out) -> wpi passed Q (forktest_wait (Z.of_nat n)) (mk_family false n out).
Proof.
  intros HQ. unfold forktest_wait. induction n as [|n IH]; apply wpi_iter.
  - by apply wpi_ret.
  - rewrite Z.gtb_ltb, (proj2 (Z.ltb_lt _ _)) by lia. apply wpi_bind, wpi_sys; [by exists 1; eexists|].
    intros x w' [Hx ->]. rewrite (proj2 (Z.ltb_ge _ _)) by lia. apply wpi_ret.
    replace (Z.of_nat (S n) - 1) with (Z.of_nat n) by lia. exact IH.
Qed.

(** Forktest ends with status 0 in all its processes on every system with room
    for fewer than 1000 of them, having waited for all its children and
    written that it is OK. *)
Theorem forktest_passes : Z.of_nat room < forktest_N -> wpi passed (fun _ _ => False) forktest_main (mk_family false 0 []).
Proof.
  intros Hr. unfold forktest_main, forktest. do 2 apply wpi_bind. apply print_rule. cbn [fa_child fa_kids fa_out app].
  apply wpi_bind, (fork_loop_rule _ 0); [lia|done|]. intros n Hn. cbv beta. rewrite (proj2 (Z.eqb_neq _ _)) by lia.
  apply wpi_bind, wait_loop_rule, wpi_bind, wpi_sys; [by eexists _, _|]. intros x w' [-> ->]. cbn [Z.eqb negb].
  apply print_rule, wpi_exit. by split; [|right].
Qed.

End family.
End ForktestSpec.
