(* ===== verification/Sh.v ===== *)
(** * [user/sh.c]: the command parser

    The input is the line as [parsecmd] gets it, the list of its bytes before
    the NUL; a pointer into it is an index, and [es] is its length.  A parsed
    word is the pair of its pointers [q] and [eq].  [panic] ends the parse
    with its message.  The fuel bounds the recursion of the parsing
    functions; [parsecmd] takes enough for every input. *)

From S2P Require Import Prelude Defs.

(** ** Results *)

Inductive res (A : Type) :=
| Ok (a : A)
| Err (msg : string)
| NoFuel.
Arguments Ok {A} _.
Arguments Err {A} _.
Arguments NoFuel {A}.

#[export] Instance res_ret : MRet res := fun A a => Ok a.
#[export] Instance res_bind : MBind res := fun A B f m =>
  match m with Ok a => f a | Err s => Err s | NoFuel => NoFuel end.

(** ** Commands *)

Definition MAXARGS : nat := 10.

Inductive cmd :=
| EXEC (argv : list (nat * nat))
| REDIR (c : cmd) (file efile : nat) (mode fd : Z)
| PIPE (left right : cmd)
| LIST (left right : cmd)
| BACK (c : cmd).

(** ** Tokens *)

Definition whitespace : list Z := [32; 9; 13; 10; 11].
Definition symbols : list Z := bytes_of "<|>&;()".

Definition c_lt : Z := 60.
Definition c_gt : Z := 62.
Definition c_plus : Z := 43.
Definition c_a : Z := 97.

(** [strchr(set, c)], for [c] other than NUL. *)
Definition strchr (set : list Z) (c : Z) : bool := existsb (Z.eqb c) set.
Definition is_ws (c : Z) : bool := strchr whitespace c.
Definition is_word (c : Z) : bool := negb (is_ws c) && negb (strchr symbols c).

Definition char_at (b : list Z) (s : nat) : Z := nth s b 0.

(** [while(s < es && p( *s)) s++]; [n] is [es - s]. *)
Fixpoint skip_n (n : nat) (p : Z -> bool) (b : list Z) (s : nat) : nat :=
  match n with
  | O => s
  | S n => if p (char_at b s) then skip_n n p b (S s) else s
  end.
Definition skip (p : Z -> bool) (b : list Z) (s : nat) : nat := skip_n (length b - s) p b s.

(** The token, [*q], [*eq] and [*ps]. *)
Definition gettoken (b : list Z) (s : nat) : Z * nat * nat * nat :=
  let q := skip is_ws b s in
  let c := char_at b q in
  let '(ret, eq) :=
    if c =? 0 then (0, q)
    else if strchr (bytes_of "|();&<") c then (c, S q)
    else if c =? c_gt then if char_at b (S q) =? c_gt then (c_plus, S (S q)) else (c, S q)
    else (c_a, skip is_word b q) in
  (ret, q, eq, skip is_ws b eq).

(** Whether the next byte is one of [toks], and [*ps]. *)
Definition peek (b : list Z) (s : nat) (toks : string) : bool * nat :=
  let s := skip is_ws b s in
  (negb (char_at b s =? 0) && strchr (bytes_of toks) (char_at b s), s).

(** ** Parsing *)

(** A redirection: [q], [eq], [mode] and [fd] of [redircmd]. *)
Definition redir : Type := nat * nat * Z * Z.
Definition redircmd (c : cmd) (r : redir) : cmd :=
  let '(q, eq, mode, fd) := r in REDIR c q eq mode fd.

Definition redir_of (tok : Z) (q eq : nat) : list redir :=
  if tok =? c_lt then [(q, eq, O_RDONLY, 0)]
  else if tok =? c_gt then [(q, eq, Z.lor (Z.lor O_WRONLY O_CREATE) O_TRUNC, 1)]
  else if tok =? c_plus then [(q, eq, Z.lor O_WRONLY O_CREATE, 1)]
  else [].

(** The redirections [parseredirs] wraps around its command, first one
    innermost; each iteration consumes input. *)
Fixpoint parseredirs_loop (n : nat) (b : list Z) (s : nat) : res (list redir * nat) :=
  match n with
  | O => NoFuel
  | S n =>
      let '(p, s) := peek b s "<>" in
      if p then
        let '(tok, _, _, s) := gettoken b s in
        let '(tok2, q, eq, s) := gettoken b s in
        if negb (tok2 =? c_a) then Err "missing file for redirection" else
        '(l, s) ← parseredirs_loop n b s;
        Ok (redir_of tok q eq ++ l, s)
      else Ok ([], s)
  end.
Definition parseredirs (b : list Z) (s : nat) : res (list redir * nat) :=
  parseredirs_loop (S (length b - s)) b s.

(** The loop of [parseexec]: [argv] and the redirections. *)
Fixpoint parseargs (n : nat) (b : list Z) (s : nat) (argv : list (nat * nat)) (l : list redir)
    : res (list (nat * nat) * list redir * nat) :=
  match n with
  | O => NoFuel
  | S n =>
      let '(p, s) := peek b s "|)&;" in
      if p then Ok (argv, l, s) else
      let '(tok, q, eq, s) := gettoken b s in
      if tok =? 0 then Ok (argv, l, s) else
      if negb (tok =? c_a) then Err "syntax" else
      let argv := argv ++ [(q, eq)] in
      if decide (MAXARGS <= length argv)%nat then Err "too many args" else
      '(l', s) ← parseredirs b s;
      parseargs n b s argv (l ++ l')
  end.

(** The [while] loop of [parseline]. *)
Fixpoint parseback (n : nat) (b : list Z) (s : nat) (c : cmd) : res (cmd * nat) :=
  match n with
  | O => NoFuel
  | S n =>
      let '(p, s) := peek b s "&" in
      if p then let '(_, _, _, s) := gettoken b s in parseback n b s (BACK c)
      else Ok (c, s)
  end.

Fixpoint parseline (fuel : nat) (b : list Z) (s : nat) : res (cmd * nat) :=
  match fuel with
  | O => NoFuel
  | S fuel =>
      '(c, s) ← parsepipe fuel b s;
      '(c, s) ← parseback (S (length b - s)) b s c;
      let '(p, s) := peek b s ";" in
      if p then
        let '(_, _, _, s) := gettoken b s in
        '(c', s) ← parseline fuel b s;
        Ok (LIST c c', s)
      else Ok (c, s)
  end
with parsepipe (fuel : nat) (b : list Z) (s : nat) : res (cmd * nat) :=
  match fuel with
  | O => NoFuel
  | S fuel =>
      '(c, s) ← parseexec fuel b s;
      let '(p, s) := peek b s "|" in
      if p then
        let '(_, _, _, s) := gettoken b s in
        '(c', s) ← parsepipe fuel b s;
        Ok (PIPE c c', s)
      else Ok (c, s)
  end
with parseexec (fuel : nat) (b : list Z) (s : nat) : res (cmd * nat) :=
  match fuel with
  | O => NoFuel
  | S fuel =>
      let '(p, s) := peek b s "(" in
      if p then parseblock fuel b s else
      '(l, s) ← parseredirs b s;
      '(argv, l, s) ← parseargs (S (length b - s)) b s [] l;
      Ok (foldl redircmd (EXEC argv) l, s)
  end
with parseblock (fuel : nat) (b : list Z) (s : nat) : res (cmd * nat) :=
  match fuel with
  | O => NoFuel
  | S fuel =>
      let '(p, s) := peek b s "(" in
      if negb p then Err "parseblock" else
      let '(_, _, _, s) := gettoken b s in
      '(c, s) ← parseline fuel b s;
      let '(p, s) := peek b s ")" in
      if negb p then Err "syntax - missing )" else
      let '(_, _, _, s) := gettoken b s in
      '(l, s) ← parseredirs b s;
      Ok (foldl redircmd c l, s)
  end.

(** The writes of [nulterminate]; one at [es] changes nothing, since the NUL
    is there. *)
Fixpoint nulterminate (c : cmd) (b : list Z) : list Z :=
  match c with
  | EXEC argv => foldl (fun b (w : nat * nat) => <[w.2 := 0]> b) b argv
  | REDIR c _ efile _ _ => <[efile := 0]> (nulterminate c b)
  | PIPE l r => nulterminate r (nulterminate l b)
  | LIST l r => nulterminate r (nulterminate l b)
  | BACK c => nulterminate c b
  end.

(** The command and the line with its words terminated. *)
Definition parsecmd (b : list Z) : res (cmd * list Z) :=
  '(c, s) ← parseline (4 * length b + 4) b 0;
  let '(_, s) := peek b s "" in
  if negb (Nat.eqb s (length b)) then Err "syntax" else
  Ok (c, nulterminate c b).
