(* ===== verification/ShTotal.v ===== *)
(** * The shell's parser is total

    Every parsing function makes progress, so the fuel [parsecmd] starts with
    is enough for any line, and the words of the result are inside the
    line. *)

From S2P Require Import Prelude Defs Sh.

Definition nul_free (b : list Z) : Prop := 0 ∉ b.

(** ** Scanning *)

Lemma skip_n_bounds n p b s : (s <= skip_n n p b s <= s + n)%nat.
Proof.
  revert s. induction n as [|n IH]; intros s; cbn; [lia|]. destruct (p _); [|lia].
  specialize (IH (S s)). lia.
Qed.

Lemma skip_bounds p b s : (s <= length b)%nat -> (s <= skip p b s <= length b)%nat.
Proof. intros H. unfold skip. pose proof (skip_n_bounds (length b - s) p b s). lia. Qed.

(** It stops at the end or at a byte that is not to be skipped. *)
Lemma skip_stop p b s :
  (s <= length b)%nat -> skip p b s = length b \/ p (char_at b (skip p b s)) = false.
Proof.
  unfold skip. intros H. assert (Hn : (length b - s + s = length b)%nat) by lia.
  generalize dependent (length b - s)%nat. intros n. revert s H.
  induction n as [|n IH]; intros s H Hn; cbn; [left; lia|].
  destruct (p (char_at b s)) eqn:E; [|by right]. apply IH; lia.
Qed.

Lemma skip_advances p b s :
  (s < length b)%nat -> p (char_at b s) = true -> (s < skip p b s)%nat.
Proof.
  intros H Hp. unfold skip. destruct (length b - s)%nat eqn:E; [lia|]. cbn. rewrite Hp.
  pose proof (skip_n_bounds n p b (S s)). lia.
Qed.

Lemma skip_id p b s : p (char_at b s) = false -> skip p b s = s.
Proof. intros H. unfold skip. destruct (length b - s)%nat; cbn; [done|]. by rewrite H. Qed.

Lemma char_at_nul b s : nul_free b -> char_at b s = 0 -> (length b <= s)%nat.
Proof.
  intros Hb H. destruct (decide (s < length b)%nat) as [Hs|]; [|lia]. destruct Hb.
  rewrite <- H. apply list_elem_of_In. by apply nth_In.
Qed.

Lemma char_at_nonzero b s : char_at b s <> 0 -> (s < length b)%nat.
Proof.
  intros H. destruct (decide (s < length b)%nat); [done|]. destruct H. apply nth_overflow. lia.
Qed.

Lemma word_start c :
  is_ws c = false -> strchr (bytes_of "|();&<") c = false -> (c =? c_gt) = false -> is_word c = true.
Proof.
  unfold is_word. intros -> H1 H2. change symbols with [60; 124; 62; 38; 59; 40; 41].
  change (bytes_of "|();&<") with [124; 40; 41; 59; 38; 60] in H1. change c_gt with 62 in H2.
  unfold strchr in *. cbn [existsb] in *. repeat (apply orb_false_iff in H1 as [? H1]).
  repeat match goal with H : (c =? _) = false |- _ => rewrite H; clear H end. done.
Qed.

Lemma gettoken_bounds b s ret q eq s' :
  nul_free b -> (s <= length b)%nat -> gettoken b s = (ret, q, eq, s') ->
  (s <= q)%nat /\ (eq <= s' <= length b)%nat /\ (ret <> 0 -> (q < eq)%nat) /\ (q <= eq)%nat.
Proof.
  intros Hb Hs. unfold gettoken.
  pose proof (skip_bounds is_ws b s Hs) as H1. pose proof (skip_stop is_ws b s Hs) as H2.
  set (p := skip is_ws b s) in *.
  assert (Hfin : forall e, (p <= e <= length b)%nat -> (skip is_ws b e <= length b /\ e <= skip is_ws b e)%nat).
  { intros e He. pose proof (skip_bounds is_ws b e ltac:(lia)). lia. }
  destruct (Z.eqb_spec (char_at b p) 0) as [E0|E0].
  - intros [= <- <- <- <-]. specialize (Hfin p ltac:(lia)). done || lia.
  - apply char_at_nonzero in E0 as Hp. destruct H2 as [H2|H2]; [lia|].
    destruct (strchr _ (char_at b p)) eqn:E1.
    { intros [= <- <- <- <-]. specialize (Hfin (S p) ltac:(lia)). lia. }
    destruct (char_at b p =? c_gt) eqn:E2.
    { destruct (Z.eqb_spec (char_at b (S p)) c_gt) as [E3|].
      - pose proof (char_at_nonzero b (S p) ltac:(rewrite E3; done)).
        intros [= <- <- <- <-]. specialize (Hfin (S (S p)) ltac:(lia)). lia.
      - intros [= <- <- <- <-]. specialize (Hfin (S p) ltac:(lia)). lia. }
    intros [= <- <- <- <-]. pose proof (skip_advances is_word b p Hp (word_start _ H2 E1 E2)).
    pose proof (skip_bounds is_word b p ltac:(lia)). specialize (Hfin (skip is_word b p) ltac:(lia)). lia.
Qed.

Lemma peek_bounds b s toks p s' :
  (s <= length b)%nat -> peek b s toks = (p, s') ->
  (s <= s' <= length b)%nat /\ (p = true -> char_at b s' <> 0).
Proof.
  intros Hs [= <- <-]. pose proof (skip_bounds is_ws b s Hs). split; [lia|].
  intros [H1%negb_true_iff _]%andb_true_iff. by apply Z.eqb_neq in H1.
Qed.

(** The token after a successful [peek] is not empty. *)
Lemma peek_gettoken b s toks s1 ret q eq s2 :
  nul_free b -> (s <= length b)%nat -> peek b s toks = (true, s1) ->
  gettoken b s1 = (ret, q, eq, s2) -> (s1 < s2 <= length b)%nat.
Proof.
  intros Hb Hs Hp Hg. destruct (peek_bounds b s toks true s1 Hs Hp) as [B1 B2].
  specialize (B2 eq_refl). apply char_at_nonzero in B2 as B3.
  destruct (gettoken_bounds b s1 _ _ _ _ Hb ltac:(lia) Hg) as (G1 & G2 & G3 & G4).
  assert (Hq : q = s1).
  { unfold peek in Hp. injection Hp as _ Hp. destruct (skip_stop is_ws b s Hs) as [E|E]; [lia|].
    rewrite Hp in E. unfold gettoken in Hg.
    rewrite (skip_id is_ws b s1 E) in Hg.
    repeat (case_match; simplify_eq); done. }
  assert (ret <> 0); [|lia]. intros ->. unfold gettoken in Hg.
  destruct (skip_stop is_ws b s Hs) as [E|E]; [unfold peek in Hp; injection Hp as _ Hp; lia|].
  unfold peek in Hp. injection Hp as _ Hp. rewrite Hp in E. rewrite (skip_id is_ws b s1 E) in Hg.
  destruct (Z.eqb_spec (char_at b s1) 0); [done|].
  repeat (case_match; simplify_eq; try done).
Qed.

(** ** Totality *)

(** Neither out of fuel nor outside [P]. *)
Definition total {A} (P : A -> Prop) (m : res A) : Prop :=
  match m with Ok a => P a | Err _ => True | NoFuel => False end.

Lemma total_bind {A B} (P : A -> Prop) (Q : B -> Prop) (m : res A) (f : A -> res B) :
  total P m -> (forall a, P a -> total Q (f a)) -> total Q (m ≫= f).
Proof. destruct m; cbn; auto. Qed.

Definition word_ok (n : nat) (w : nat * nat) : Prop := (w.1 < w.2 <= n)%nat.
Definition redir_ok (n : nat) (r : redir) : Prop := word_ok n (r.1.1.1, r.1.1.2).
Fixpoint cmd_ok (n : nat) (c : cmd) : Prop :=
  match c with
  | EXEC argv => (length argv < MAXARGS)%nat /\ Forall (word_ok n) argv
  | REDIR c q eq _ _ => word_ok n (q, eq) /\ cmd_ok n c
  | PIPE l r => cmd_ok n l /\ cmd_ok n r
  | LIST l r => cmd_ok n l /\ cmd_ok n r
  | BACK c => cmd_ok n c
  end.

Lemma cmd_ok_redirs n c l : cmd_ok n c -> Forall (redir_ok n) l -> cmd_ok n (foldl redircmd c l).
Proof.
  intros Hc Hl. revert c Hc. induction Hl as [|[[[q eq] m] fd] l H Hl IH]; [done|].
  intros c Hc. by apply IH.
Qed.

Section total.
Variable b : list Z.
Hypothesis Hb : nul_free b.

Lemma parseredirs_loop_total n s :
  (s <= length b)%nat -> (length b - s < n)%nat ->
  total (fun r => (s <= r.2 <= length b)%nat /\ Forall (redir_ok (length b)) r.1) (parseredirs_loop n b s).
Proof.
  revert s. induction n as [|n IH]; intros s Hs Hn; [lia|]. cbn [parseredirs_loop].
  destruct (peek b s "<>") as [[] s1] eqn:Ep.
  - destruct (gettoken b s1) as [[[t q1] eq1] s2] eqn:E1.
    pose proof (peek_gettoken b s _ _ _ _ _ _ Hb Hs Ep E1).
    destruct (peek_bounds b s _ _ _ Hs Ep) as [B _].
    destruct (gettoken b s2) as [[[t2 q] eq] s3] eqn:E2.
    destruct (gettoken_bounds b s2 _ _ _ _ Hb ltac:(lia) E2) as (G1 & G2 & G3 & _).
    destruct (Z.eqb_spec t2 c_a) as [->|]; [|done]. cbn [negb]. specialize (G3 ltac:(done)).
    eapply total_bind; [apply IH; lia|]. intros [l s4] [H1 H2]. cbn in *. split; [lia|].
    apply Forall_app. split; [|done]. unfold redir_of, redir_ok, word_ok.
    repeat case_match; repeat constructor; cbn; lia.
  - destruct (peek_bounds b s _ _ _ Hs Ep) as [B _]. done.
Qed.

Lemma parseredirs_total s :
  (s <= length b)%nat ->
  total (fun r => (s <= r.2 <= length b)%nat /\ Forall (redir_ok (length b)) r.1) (parseredirs b s).
Proof. intros Hs. apply parseredirs_loop_total; lia. Qed.

Lemma parseargs_total n s argv l :
  (s <= length b)%nat -> (length b - s < n)%nat ->
  (length argv < MAXARGS)%nat -> Forall (word_ok (length b)) argv -> Forall (redir_ok (length b)) l ->
  total (fun r => (s <= r.2 <= length b)%nat /\ (length r.1.1 < MAXARGS)%nat /\
    Forall (word_ok (length b)) r.1.1 /\ Forall (redir_ok (length b)) r.1.2) (parseargs n b s argv l).
Proof.
  revert s argv l. induction n as [|n IH]; intros s argv l Hs Hn Ha1 Ha2 Hl; [lia|]. cbn [parseargs].
  destruct (peek b s "|)&;") as [p s1] eqn:Ep. destruct (peek_bounds b s _ _ _ Hs Ep) as [B _].
  destruct p; [done|]. destruct (gettoken b s1) as [[[t q] eq] s2] eqn:E.
  destruct (gettoken_bounds b s1 _ _ _ _ Hb ltac:(lia) E) as (G1 & G2 & G3 & G4).
  destruct (Z.eqb_spec t 0) as [->|H0]; [split; [cbn; lia|done]|].
  specialize (G3 H0). destruct (t =? c_a); [|done]. cbn [negb]. case_decide as Hm; [done|].
  eapply total_bind; [apply parseredirs_total; lia|]. intros [l' s3] [H1 H2]. cbn in H1, H2.
  specialize (IH s3 (argv ++ [(q, eq)]) (l ++ l') ltac:(lia) ltac:(lia) ltac:(lia)).
  cbn beta iota. destruct (parseargs n b s3 (argv ++ [(q, eq)]) (l ++ l')) as [[[a x] s4]| |]; [|done|].
  - cbn in *. destruct IH as (I1 & I2); [apply Forall_app; split; [done|]; repeat constructor; cbn; lia| by apply Forall_app|].
    split; [lia|done].
  - apply IH; [apply Forall_app; split; [done|]; repeat constructor; cbn; lia| by apply Forall_app].
Qed.

Definition good (s : nat) (r : cmd * nat) : Prop :=
  (s <= r.2 <= length b)%nat /\ cmd_ok (length b) r.1.

Lemma parseback_total n s c :
  (s <= length b)%nat -> (length b - s < n)%nat -> cmd_ok (length b) c ->
  total (good s) (parseback n b s c).
Proof.
  revert s c. induction n as [|n IH]; intros s c Hs Hn Hc; [lia|]. cbn [parseback].
  destruct (peek b s "&") as [[] s1] eqn:Ep; destruct (peek_bounds b s _ _ _ Hs Ep) as [B _].
  - destruct (gettoken b s1) as [[[t q] eq] s2] eqn:E.
    pose proof (peek_gettoken b s _ _ _ _ _ _ Hb Hs Ep E).
    specialize (IH s2 (BACK c) ltac:(lia) ltac:(lia) Hc).
    destruct (parseback n b s2 (BACK c)) as [[]| |]; try done.
    destruct IH as [I1 I2]. split; [cbn in *; lia|done].
  - done.
Qed.

(** What each parsing function does with enough fuel. *)
Definition total_at (f : nat) : Prop := forall s, (s <= length b)%nat ->
  ((4 * (length b - s) + 4 <= f)%nat -> total (good s) (parseline f b s)) /\
  ((4 * (length b - s) + 3 <= f)%nat -> total (good s) (parsepipe f b s)) /\
  ((4 * (length b - s) + 2 <= f)%nat -> total (good s) (parseexec f b s)) /\
  ((4 * (length b - s) + 1 <= f)%nat -> total (good s) (parseblock f b s)).

Lemma good_bind s (m : res (cmd * nat)) (f : cmd * nat -> res (cmd * nat)) :
  total (good s) m ->
  (forall c s', (s <= s' <= length b)%nat -> cmd_ok (length b) c -> total (good s') (f (c, s'))) ->
  total (good s) (m ≫= f).
Proof.
  intros Hm Hf. eapply total_bind; [exact Hm|]. intros [c s'] [H1 H2]. cbn in H1, H2.
  specialize (Hf c s' H1 H2). destruct (f (c, s')) as [[c' s'']| |]; [|done|done].
  destruct Hf. split; [cbn in *; lia|done].
Qed.

(** A [peek] for one symbol, and the token. *)
Lemma peek_step s toks p s1 ret q eq s2 :
  (s <= length b)%nat -> peek b s toks = (p, s1) -> gettoken b s1 = (ret, q, eq, s2) ->
  (s <= s1 <= length b)%nat /\ (p = true -> (s1 < s2 <= length b)%nat).
Proof.
  intros Hs Hp Hg. destruct (peek_bounds b s _ _ _ Hs Hp) as [B _]. split; [done|].
  intros ->. by eapply peek_gettoken.
Qed.

Ltac peeking s toks :=
  let p := fresh "p" in let s1 := fresh "s" in let s2 := fresh "s" in let Hp := fresh "Hp" in
  let Hg := fresh "Hg" in let B := fresh "B" in let G := fresh "G" in
  destruct (peek b s toks) as [p s1] eqn:Hp; destruct (gettoken b s1) as [[[? ?] ?] s2] eqn:Hg;
  destruct (peek_step s toks p s1 _ _ _ s2 ltac:(lia) Hp Hg) as [B G];
  destruct p; [specialize (G eq_refl)|clear G].

Lemma total_step f : total_at f -> total_at (S f).
Proof.
  intros IH s Hs. split; [|split; [|split]]; intros Hf.
  - cbn [parseline]. eapply good_bind; [apply IH; lia|]. intros c s1 H1 Hc.
    eapply good_bind; [apply parseback_total; [lia|lia|done]|]. intros c1 s2 H2 Hc1.
    peeking s2 ";".
    + eapply total_bind; [apply IH; lia|]. intros [c2 s5] [I1 I2]. cbn in I1, I2.
      split; [cbn; lia|]. by split.
    + by split.
  - cbn [parsepipe]. eapply good_bind; [apply IH; lia|]. intros c s1 H1 Hc. peeking s1 "|".
    + eapply total_bind; [apply IH; lia|]. intros [c2 s5] [I1 I2]. cbn in I1, I2.
      split; [cbn; lia|]. by split.
    + by split.
  - cbn [parseexec]. peeking s "(".
    + destruct (IH s0) as (_ & _ & _ & H4); [lia|]. specialize (H4 ltac:(lia)).
      destruct (parseblock f b s0) as [[c s5]| |]; [|done|done].
      destruct H4 as [I1 I2]. split; [cbn in *; lia|done].
    + eapply total_bind; [apply parseredirs_total; lia|]. intros [l s3] [I1 I2]. cbn in I1, I2.
      eapply total_bind; [apply parseargs_total; [lia|lia|unfold MAXARGS; cbn; lia|constructor|done]|].
      intros [[argv l'] s4] (J1 & J2 & J3 & J4). cbn in J1, J2, J3, J4. split; [cbn; lia|].
      by apply cmd_ok_redirs.
  - cbn [parseblock]. peeking s "("; [|done]. cbn [negb].
    eapply total_bind; [apply IH; lia|]. intros [c s5] [I1 I2]. cbn in I1, I2.
    peeking s5 ")"; [|done]. cbn [negb].
    eapply total_bind; [apply parseredirs_total; lia|]. intros [l s6] [J1 J2]. cbn in J1, J2.
    split; [cbn; lia|]. by apply cmd_ok_redirs.
Qed.

Lemma total_all f : total_at f.
Proof.
  induction f as [|f IH]; [|by apply total_step]. intros s Hs. split; [|split; [|split]]; lia.
Qed.

End total.

Lemma nulterminate_length c b : length (nulterminate c b) = length b.
Proof.
  revert b. induction c as [argv| | | |]; intros b; cbn [nulterminate].
  - revert b. induction argv as [|w argv IH]; intros b; [done|]. cbn [foldl].
    by rewrite IH, length_insert.
  - by rewrite length_insert.
  - by rewrite IHc2, IHc1.
  - by rewrite IHc2, IHc1.
  - done.
Qed.

(** C26: [parsecmd] returns for every line: it gives a command or one of the
    shell's error messages, with recursion bounded by the length of the
    line.  Every word of the command is a nonempty part of the line, every
    argument list fits in [argv] with its null pointer, and [nulterminate]
    writes within the line. *)
Theorem parsecmd_total (b : list Z) :
  nul_free b ->
  match parsecmd b with
  | Ok (c, b') => cmd_ok (length b) c /\ length b' = length b
  | Err _ => True
  | NoFuel => False
  end.
Proof.
  intros Hb. unfold parsecmd.
  assert (H : total (good b 0) (parseline (4 * length b + 4) b 0)) by (apply total_all; [done|lia|lia]).
  destruct (parseline _ b 0) as [[c s]| |]; [|done|done]. cbn [mbind res_bind].
  destruct (peek b s "") as [p s']. destruct (negb _); [done|]. destruct H as [_ H].
  split; [done|]. apply nulterminate_length.
Qed.

Lemma parsecmd_total_witness :
  exists c b', parsecmd (bytes_of "(ls a; wc <f) | cat >> o &") = Ok (c, b') /\ cmd_ok 26 c.
Proof.
  pose proof (parsecmd_total (bytes_of "(ls a; wc <f) | cat >> o &")) as H.
  assert (nul_free (bytes_of "(ls a; wc <f) | cat >> o &")) as H0.
  { unfold nul_free. apply (bool_decide_unpack _). vm_compute. done. }
  specialize (H H0). destruct (parsecmd (bytes_of "(ls a; wc <f) | cat >> o &")) as [[c b']|m|] eqn:E.
  - exists c, b'. split; [done|]. apply H.
  - vm_compute in E. discriminate E.
  - destruct H.
Defined.
