(* ===== verification/ShRound.v ===== *)
(** * The shell's parser reads command trees

    [layout a s] says that [s] writes the command tree [a] in the shell's
    grammar, with white space after any token and parentheses where the
    grammar needs them; [show] is one such text.  [parsecmd] gives the tree
    back, as seen through the strings its pointers lead to after
    [nulterminate]. *)

From S2P Require Import Prelude Defs Sh ShTotal.

(** ** Command trees and their text *)

Inductive rkind := R_in | R_out | R_append.
Inductive ast :=
| A_exec (args : list (list Z))
| A_redir (a : ast) (w : list Z) (k : rkind)
| A_pipe (l r : ast)
| A_list (l r : ast)
| A_back (a : ast).

Definition level (a : ast) : nat :=
  match a with
  | A_exec _ | A_redir _ _ _ => 0
  | A_pipe _ _ => 1
  | A_back _ => 2
  | A_list _ _ => 3
  end.

Definition c_bar : Z := 124.
Definition c_amp : Z := 38.
Definition c_semi : Z := 59.
Definition c_open : Z := 40.
Definition c_close : Z := 41.
Definition c_space : Z := 32.

Definition paren (n : nat) (a : ast) (s : list Z) : list Z :=
  if decide (level a <= n)%nat then s else c_open :: s ++ [c_close].

Definition op (k : rkind) : list Z :=
  match k with R_in => [c_lt] | R_out => [c_gt] | R_append => [c_gt; c_gt] end.
Definition show_word (w : list Z) : list Z := w ++ [c_space].
Definition show_redir (r : list Z * rkind) : list Z := op r.2 ++ show_word r.1.

Fixpoint show (a : ast) : list Z :=
  match a with
  | A_exec args => concat (map show_word args)
  | A_redir a w k => paren 0 a (show a) ++ show_redir (w, k)
  | A_pipe l r => paren 0 l (show l) ++ c_bar :: paren 1 r (show r)
  | A_list l r => paren 2 l (show l) ++ c_semi :: show r
  | A_back a => paren 2 a (show a) ++ [c_amp]
  end.

(** Space, tab, carriage return, newline and vertical tab, and the symbols
    of the grammar; a word has other bytes. *)
Definition blanks : list Z := [32; 9; 13; 10; 11].
Definition marks : list Z := bytes_of "<|>&;()".
Definition word_byte (c : Z) : Prop := c <> 0 /\ c ∉ blanks /\ c ∉ marks.
Definition word (w : list Z) : Prop := w <> [] /\ Forall word_byte w.
Fixpoint wf (a : ast) : Prop :=
  match a with
  | A_exec args => Forall word args /\ (length args < MAXARGS)%nat
  | A_redir a w _ => wf a /\ word w
  | A_pipe l r => wf l /\ wf r
  | A_list l r => wf l /\ wf r
  | A_back a => wf a
  end.

(** *** Any layout *)

Definition gap (g : list Z) : Prop := Forall (fun c => c ∈ blanks) g.

(** Words, each with white space behind it, which only the last can do
    without. *)
Fixpoint words_text (args : list (list Z)) (s : list Z) : Prop :=
  match args with
  | [] => s = []
  | w :: args => exists g s', gap g /\ (args <> [] -> g <> []) /\ s = w ++ g ++ s' /\ words_text args s'
  end.

Definition redir_text (r : list Z * rkind) (s : list Z) : Prop :=
  exists g g', gap g /\ gap g' /\ s = op r.2 ++ g ++ r.1 ++ g'.
Fixpoint redirs_text (rs : list (list Z * rkind)) (s : list Z) : Prop :=
  match rs with
  | [] => s = []
  | r :: rs => exists s1 s2, s = s1 ++ s2 /\ redir_text r s1 /\ redirs_text rs s2
  end.

(** In parentheses where the level asks for them. *)
Definition paren_text (n : nat) (a : ast) (P : list Z -> Prop) (s : list Z) : Prop :=
  if decide (level a <= n)%nat then P s
  else exists g s1 g', gap g /\ gap g' /\ P s1 /\ s = c_open :: g ++ s1 ++ c_close :: g'.

Fixpoint layout (a : ast) (s : list Z) : Prop :=
  match a with
  | A_exec args => words_text args s
  | A_redir a w k => exists s1 s2, s = s1 ++ s2 /\ paren_text 0 a (layout a) s1 /\ redir_text (w, k) s2
  | A_pipe l r => exists s1 g s2, gap g /\ s = s1 ++ c_bar :: g ++ s2 /\
      paren_text 0 l (layout l) s1 /\ paren_text 1 r (layout r) s2
  | A_list l r => exists s1 g s2, gap g /\ s = s1 ++ c_semi :: g ++ s2 /\
      paren_text 2 l (layout l) s1 /\ layout r s2
  | A_back a => exists s1 g, gap g /\ s = s1 ++ c_amp :: g /\ paren_text 2 a (layout a) s1
  end.

(** A line as it is typed: white space may come first, and the newline is
    white space at the end. *)
Definition typed (a : ast) (s : list Z) : Prop := exists g s', gap g /\ layout a s' /\ s = g ++ s'.

(** The classes of bytes of the tokenizer. *)
Lemma strchr_in l c : strchr l c = true <-> c ∈ l.
Proof.
  unfold strchr. rewrite existsb_exists, list_elem_of_In. split; [by intros (x & Hx & ->%Z.eqb_eq)|].
  intros H. exists c. by rewrite Z.eqb_refl.
Qed.

Lemma gap_ws g : gap g -> Forall (fun c => is_ws c = true) g.
Proof. intros Hg. eapply Forall_impl; [exact Hg|]. intros c Hc. by apply strchr_in. Qed.

Lemma word_bytes w : word w -> Forall (fun c => is_word c = true /\ c <> 0) w.
Proof.
  intros [_ Hw]. eapply Forall_impl; [exact Hw|]. intros c (H0 & H1 & H2). split; [|done].
  unfold is_word, is_ws. apply andb_true_iff. split; apply negb_true_iff, not_true_is_false; by rewrite strchr_in.
Qed.

(** ** What a parsed command stands for *)

Fixpoint until_nul (l : list Z) : list Z :=
  match l with
  | [] => []
  | c :: l => if c =? 0 then [] else c :: until_nul l
  end.
(** The C string at index [q]. *)
Definition string_at (b : list Z) (q : nat) : list Z := until_nul (drop q b).

Definition rmode (k : rkind) : Z * Z :=
  match k with
  | R_in => (O_RDONLY, 0)
  | R_out => (Z.lor (Z.lor O_WRONLY O_CREATE) O_TRUNC, 1)
  | R_append => (Z.lor O_WRONLY O_CREATE, 1)
  end.

(** [c] is the tree [a] when a word is related to its pointers by [W]. *)
Fixpoint tree (W : nat * nat -> list Z -> Prop) (c : cmd) (a : ast) : Prop :=
  match c, a with
  | EXEC argv, A_exec args => Forall2 W argv args
  | REDIR c q eq m fd, A_redir a w k => tree W c a /\ W (q, eq) w /\ (m, fd) = rmode k
  | PIPE l r, A_pipe l' r' => tree W l l' /\ tree W r r'
  | LIST l r, A_list l' r' => tree W l l' /\ tree W r r'
  | BACK c, A_back a => tree W c a
  | _, _ => False
  end.

Definition denotes (b : list Z) : cmd -> ast -> Prop := tree (fun w s => string_at b w.1 = s).

(** The line ends at [e], or has a byte there that is in no word. *)
Definition stop (b : list Z) (e : nat) : Prop := (length b <= e)%nat \/ is_word (char_at b e) = false.

(** Before [nulterminate]: the word lies between its pointers, and what
    follows is not part of a word. *)
Definition span (b : list Z) (w : nat * nat) (s : list Z) : Prop :=
  word s /\ take (length s) (drop w.1 b) = s /\ w.2 = (w.1 + length s)%nat /\ stop b w.2.

(** ** [nulterminate] *)

Definition zeros (b : list Z) (E : list nat) : list Z := foldl (fun b e => <[e := 0]> b) b E.
Fixpoint ends (c : cmd) : list nat :=
  match c with
  | EXEC argv => map snd argv
  | REDIR c _ efile _ _ => ends c ++ [efile]
  | PIPE l r => ends l ++ ends r
  | LIST l r => ends l ++ ends r
  | BACK c => ends c
  end.

Lemma nulterminate_zeros c b : nulterminate c b = zeros b (ends c).
Proof.
  unfold zeros. revert b. induction c as [argv| | | |]; intros b; cbn [nulterminate ends];
    rewrite ?foldl_app, ?IHc, ?IHc1, ?IHc2; try done.
  revert b. induction argv as [|w argv IH]; intros b; [done|]. apply IH.
Qed.

Lemma zeros_lookup b E i :
  zeros b E !! i = if decide (i ∈ E /\ (i < length b)%nat) then Some 0 else b !! i.
Proof.
  unfold zeros. revert b. induction E as [|e E IH]; intros b; cbn [foldl].
  - rewrite decide_False; [done|]. by intros [?%not_elem_of_nil _].
  - rewrite IH, length_insert. destruct (decide (i ∈ E /\ (i < length b)%nat)) as [[H1 H2]|H].
    + rewrite decide_True; [done|]. split; [by apply elem_of_cons; right|done].
    + destruct (decide (i = e)) as [->|He].
      * destruct (decide (e < length b)%nat).
        -- rewrite list_lookup_insert_eq by done. rewrite decide_True; [done|].
           split; [by apply elem_of_cons; left|done].
        -- rewrite list_insert_ge by lia. rewrite decide_False by tauto. done.
      * rewrite list_lookup_insert_ne by done. rewrite decide_False; [done|].
        rewrite elem_of_cons. tauto.
Qed.

Lemma until_nul_app w l : Forall (fun c => c <> 0) w -> hd 0 l = 0 -> until_nul (w ++ l) = w.
Proof.
  intros Hw Hl. induction Hw as [|c w Hc Hw IH]; cbn.
  - destruct l as [|x l]; [done|]. cbn in *. by rewrite Hl.
  - destruct (Z.eqb_spec c 0); [done|]. by rewrite IH.
Qed.

Lemma char_at_lookup b i : char_at b i = default 0 (b !! i).
Proof. unfold char_at. rewrite nth_lookup. done. Qed.

(** Terminating words at bytes that are in no word leaves the words. *)
Lemma span_zeros b w s E :
  span b w s -> w.2 ∈ E -> Forall (stop b) E ->
  string_at (zeros b E) w.1 = s.
Proof.
  intros (Hw & Ht & He & Hn) Hin HE. destruct w as [q eq]. cbn in *. subst eq.
  unfold string_at. rewrite <- (take_drop (length s) (drop q (zeros b E))), drop_drop.
  assert (take (length s) (drop q (zeros b E)) = s) as ->.
  { rewrite <- Ht at 2. apply list_eq. intros i.
    destruct (decide (i < length s)%nat) as [Hi|]; [|by rewrite !lookup_take_ge by lia].
    rewrite !lookup_take_lt, !lookup_drop, zeros_lookup by lia.
    rewrite decide_False; [done|]. intros [Hin' Hlt]. eapply Forall_forall in HE; [|exact Hin'].
    destruct HE as [HE|HE]; [lia|].
    rewrite char_at_lookup, <- lookup_drop, <- (lookup_take_lt _ (length s)), Ht in HE by lia.
    destruct (lookup_lt_is_Some_2 s i Hi) as [c Hc]. rewrite Hc in HE. cbn in HE.
    apply word_bytes in Hw. eapply Forall_lookup_1 in Hw as [Hw _]; [|exact Hc]. congruence. }
  apply until_nul_app.
  - apply word_bytes in Hw. eapply Forall_impl; [exact Hw|]. by intros c [_ ?].
  - destruct (drop (q + length s) (zeros b E)) as [|c l] eqn:E1; [done|].
    assert (drop (q + length s) (zeros b E) !! 0%nat = Some c) as Hc by by rewrite E1.
    rewrite lookup_drop, zeros_lookup in Hc.
    replace (q + length s + 0)%nat with (q + length s)%nat in Hc by lia.
    case_decide as Hd; [by injection Hc as <-|]. destruct Hd. split; [done|].
    by apply lookup_lt_Some in Hc.
Qed.

Lemma tree_ends b c a :
  tree (span b) c a -> Forall (stop b) (ends c).
Proof.
  revert a. induction c as [argv| | | |]; intros a; destruct a; try done; cbn [tree ends].
  - intros H. induction H as [|w s ? ? (_ & _ & _ & H) _ IH]; by constructor.
  - intros (H1 & (_ & _ & _ & H2) & _). apply Forall_app. split; [by eapply IHc|]. constructor; [exact H2|constructor].
  - intros [H1 H2]. apply Forall_app. split; [by eapply IHc1|by eapply IHc2].
  - intros [H1 H2]. apply Forall_app. split; [by eapply IHc1|by eapply IHc2].
  - apply IHc.
Qed.

Lemma tree_zeros b c a E :
  tree (span b) c a -> ends c ⊆ E -> Forall (stop b) E ->
  denotes (zeros b E) c a.
Proof.
  unfold denotes. intros H Hs HE. revert a H Hs.
  induction c as [argv| | | |]; intros a; destruct a; try done; cbn [tree ends].
  - intros H. induction H as [|w s argv args H _ IH]; [by constructor|]. cbn [map]. intros Hs.
    constructor; [|apply IH; set_solver]. eapply span_zeros; [done|set_solver|done].
  - intros (H1 & H2 & H3) Hs. split; [apply IHc; [done|set_solver]|]. split; [|done].
    eapply (span_zeros b (file, efile)); [done|set_solver|done].
  - intros [H1 H2] Hs. split; [apply IHc1; [done|set_solver]|apply IHc2; [done|set_solver]].
  - intros [H1 H2] Hs. split; [apply IHc1; [done|set_solver]|apply IHc2; [done|set_solver]].
  - intros H1 Hs. by apply IHc.
Qed.

Lemma nulterminate_denotes b c a : tree (span b) c a -> denotes (nulterminate c b) c a.
Proof.
  intros H. rewrite nulterminate_zeros. apply tree_zeros; [done|done|]. by eapply tree_ends.
Qed.

(** ** Tokens at a place in the line *)

(** The text does not start with white space. *)
Definition starts (l : list Z) : Prop := match l with [] => True | c :: _ => is_ws c = false end.
Definition next_in (toks : string) (l : list Z) : bool :=
  match l with [] => false | c :: _ => negb (c =? 0) && strchr (bytes_of toks) c end.

Lemma char_at_app pre l : char_at (pre ++ l) (length pre) = hd 0 l.
Proof. unfold char_at. rewrite app_nth2, Nat.sub_diag by lia. by destruct l. Qed.

Lemma skip_app p pre w post :
  Forall (fun c => p c = true) w -> match post with [] => True | c :: _ => p c = false end ->
  skip p (pre ++ w ++ post) (length pre) = (length pre + length w)%nat.
Proof.
  intros Hw Hp. revert pre. induction Hw as [|c w Hc Hw IH]; intros pre; cbn [app length].
  - rewrite Nat.add_0_r. destruct post as [|x post].
    + unfold skip. rewrite length_app. cbn. by rewrite Nat.add_0_r, Nat.sub_diag.
    + apply skip_id. by rewrite char_at_app.
  - specialize (IH (pre ++ [c])). rewrite <- app_assoc, length_app in IH. cbn in IH.
    unfold skip in *. rewrite !length_app in *. cbn [length] in *. rewrite length_app in *.
    replace (length pre + S (length w + length post) - length pre)%nat
      with (S (length w + length post)) by lia.
    cbn [skip_n]. rewrite char_at_app. cbn [hd]. rewrite Hc.
    replace (S (length pre)) with (length pre + 1)%nat by lia.
    replace (length pre + (1 + (length w + length post)) - (length pre + 1))%nat
      with (length w + length post)%nat in IH by lia.
    replace (length pre + S (length w + length post) - (length pre + 1))%nat
      with (length w + length post)%nat in IH by lia.
    rewrite IH. lia.
Qed.

Lemma skip_ws_app pre l : starts l -> skip is_ws (pre ++ l) (length pre) = length pre.
Proof. intros H. pose proof (skip_app is_ws pre [] l ltac:(constructor) H) as E. cbn in E. lia. Qed.

Lemma peek_app pre l toks :
  starts l -> peek (pre ++ l) (length pre) toks = (next_in toks l, length pre).
Proof.
  intros H. unfold peek. rewrite skip_ws_app, char_at_app by done. by destruct l.
Qed.

Lemma gettoken_end pre : gettoken (pre ++ []) (length pre) = (0, length pre, length pre, length pre).
Proof.
  unfold gettoken. rewrite (skip_ws_app pre []), char_at_app by done. cbn.
  by rewrite (skip_ws_app pre []).
Qed.

Lemma snoc_app (pre : list Z) c l : pre ++ c :: l = (pre ++ [c]) ++ l.
Proof. by rewrite <- app_assoc. Qed.
Lemma snoc_length (pre : list Z) c : length (pre ++ [c]) = S (length pre).
Proof. rewrite length_app. cbn. lia. Qed.

(** The text does not go on with a byte of a word. *)
Definition nonword (l : list Z) : Prop := match l with [] => True | c :: _ => is_word c = false end.

Lemma gap_nonword g l : gap g -> (g = [] -> nonword l) -> nonword (g ++ l).
Proof.
  intros Hg Hl. destruct g as [|c g]; [by apply Hl|]. apply gap_ws, Forall_inv in Hg. cbn. unfold is_word. by rewrite Hg.
Qed.

(** The place behind a token [t] and the white space [g] after it. *)
Lemma skip_gap pre t g l :
  gap g -> starts l -> skip is_ws (pre ++ t ++ g ++ l) (length pre + length t) = (length pre + length t + length g)%nat.
Proof. intros Hg%gap_ws Hl. rewrite app_assoc, <- length_app. by apply skip_app. Qed.

Lemma gettoken_symbol b pre c g l :
  b = pre ++ c :: g ++ l -> c <> 0 -> is_ws c = false -> strchr (bytes_of "|();&<") c = true -> gap g -> starts l ->
  gettoken b (length pre) = (c, length pre, S (length pre), length (pre ++ c :: g)).
Proof.
  intros -> H0 H1 H2 Hg Hl. unfold gettoken. rewrite (skip_ws_app pre (c :: g ++ l)), char_at_app by done.
  cbn [hd]. apply Z.eqb_neq in H0. rewrite H0, H2. pose proof (skip_gap pre [c] g l Hg Hl) as E. cbn in E.
  rewrite Nat.add_1_r in E. rewrite E. rewrite length_app. cbn [length]. f_equal. lia.
Qed.

Lemma word_char c : is_word c = true -> is_ws c = false /\ strchr (bytes_of "|();&<") c = false /\ (c =? c_gt) = false.
Proof.
  unfold is_word. intros [H1%negb_true_iff H2%negb_true_iff]%andb_true_iff. split; [done|].
  change symbols with [60; 124; 62; 38; 59; 40; 41] in H2.
  change (bytes_of "|();&<") with [124; 40; 41; 59; 38; 60]. change c_gt with 62.
  unfold strchr in *. cbn [existsb] in *. repeat (apply orb_false_iff in H2 as [? H2]).
  repeat match goal with H : (c =? _) = false |- _ => rewrite H; clear H end. done.
Qed.

Lemma word_starts w l : word w -> starts (w ++ l).
Proof.
  intros Hw. pose proof (word_bytes _ Hw) as H2. destruct w as [|c w]; [by destruct Hw|]. inversion_clear H2 as [|? ? [H _] _].
  by apply word_char in H as [? _].
Qed.

Lemma gettoken_word b pre w g l :
  b = pre ++ w ++ g ++ l -> word w -> gap g -> nonword (g ++ l) -> starts l ->
  gettoken b (length pre) = (c_a, length pre, length pre + length w, length (pre ++ w ++ g))%nat.
Proof.
  intros -> Hw Hg Hn Hl. unfold gettoken. rewrite skip_ws_app, char_at_app by by apply word_starts.
  destruct w as [|c w]; [by destruct Hw|]. cbn [hd app]. apply word_bytes in Hw.
  destruct (Forall_inv Hw) as [Hc H0]. apply Z.eqb_neq in H0. rewrite H0.
  destruct (word_char c Hc) as (_ & -> & ->).
  change (pre ++ c :: w ++ g ++ l) with (pre ++ (c :: w) ++ g ++ l).
  rewrite (skip_app is_word pre (c :: w) (g ++ l)); [|by eapply Forall_impl; [exact Hw|]; intros ? []|exact Hn].
  rewrite skip_gap by done. f_equal. rewrite !length_app. cbn. rewrite length_app. lia.
Qed.

Lemma span_app b pre w l : b = pre ++ w ++ l -> word w -> nonword l -> span b (length pre, length pre + length w)%nat w.
Proof.
  intros -> Hw Hn. split; [done|]. cbn [fst snd]. split; [|split; [done|]].
  - by rewrite drop_app_length, take_app_length.
  - rewrite app_assoc. replace (length pre + length w)%nat with (length (pre ++ w)) by by rewrite length_app.
    destruct l as [|c l]; [left; by rewrite app_nil_r|right]. by rewrite char_at_app.
Qed.

Lemma peek_at b pre l toks :
  b = pre ++ l -> starts l -> peek b (length pre) toks = (next_in toks l, length pre).
Proof. intros ->. apply peek_app. Qed.

(** ** Redirections *)

Definition redir_span (b : list Z) (r : redir) (s : list Z * rkind) : Prop :=
  span b (r.1.1.1, r.1.1.2) s.1 /\ (r.1.2, r.2) = rmode s.2.
Definition op_token (k : rkind) : Z := match k with R_in => c_lt | R_out => c_gt | R_append => c_plus end.

Lemma redir_op r s : redir_text r s -> exists c s', s = c :: s' /\ (c = c_lt \/ c = c_gt).
Proof. intros (g & g' & _ & _ & ->). destruct r as [w []]; cbn; eauto. Qed.

Lemma redirs_start rs s post : redirs_text rs s -> starts post -> starts (s ++ post).
Proof.
  destruct rs as [|r rs]; [by intros ->|]. intros (s1 & s2 & -> & (c & s' & -> & Hc)%redir_op & _) _.
  by destruct Hc as [-> | ->].
Qed.

Lemma redirs_nonword rs s post : redirs_text rs s -> (rs = [] -> nonword post) -> nonword (s ++ post).
Proof.
  destruct rs as [|r rs]; [intros -> H; by apply H|]. intros (s1 & s2 & -> & (c & s' & -> & Hc)%redir_op & _) _.
  by destruct Hc as [-> | ->].
Qed.

Lemma gettoken_op b pre k g w l :
  b = pre ++ op k ++ g ++ w ++ l -> word w -> gap g ->
  gettoken b (length pre) = (op_token k, length pre, length pre + length (op k), length (pre ++ op k ++ g))%nat.
Proof.
  intros Hb Hw Hg. assert (Hs : starts (w ++ l)) by by apply word_starts.
  assert (Hn : hd 0 (g ++ w ++ l) <> c_gt).
  { destruct g as [|c g]; cbn.
    - destruct w as [|c w]; [by destruct Hw|]. cbn. intros ->. apply word_bytes in Hw. by apply Forall_inv in Hw as [Hw _].
    - intros ->. by apply gap_ws, Forall_inv in Hg. }
  destruct k; cbn [op app op_token length] in *.
  - rewrite (gettoken_symbol b pre _ g _ Hb) by done. by rewrite Nat.add_1_r.
  - subst b. unfold gettoken. rewrite (skip_ws_app pre (c_gt :: _)), char_at_app by done.
    cbn [hd]. change (c_gt =? 0) with false. change (strchr (bytes_of "|();&<") c_gt) with false.
    change (c_gt =? c_gt) with true. cbn iota.
    pose proof (skip_gap pre [c_gt] g (w ++ l) Hg Hs) as E. cbn in E. rewrite Nat.add_1_r in *.
    rewrite (snoc_app pre c_gt), <- (snoc_length pre c_gt), char_at_app, (snoc_length pre c_gt), <- snoc_app.
    rewrite (proj2 (Z.eqb_neq _ _) Hn), E. rewrite length_app. cbn [length]. f_equal. lia.
  - subst b. unfold gettoken. rewrite (skip_ws_app pre (c_gt :: _)), char_at_app by done.
    cbn [hd]. change (c_gt =? 0) with false. change (strchr (bytes_of "|();&<") c_gt) with false.
    change (c_gt =? c_gt) with true. cbn iota.
    pose proof (skip_gap pre [c_gt; c_gt] g (w ++ l) Hg Hs) as E. cbn in E.
    rewrite (snoc_app pre c_gt), <- (snoc_length pre c_gt), char_at_app, (snoc_length pre c_gt), <- snoc_app.
    cbn [hd]. change (c_gt =? c_gt) with true. cbn iota. replace (S (S (length pre))) with (length pre + 2)%nat by lia.
    rewrite E, length_app. cbn [length]. f_equal. lia.
Qed.

Lemma parseredirs_loop_text rs n b pre s post :
  b = pre ++ s ++ post -> redirs_text rs s -> Forall (fun r => word r.1) rs ->
  starts post -> (rs <> [] -> nonword post) -> next_in "<>" post = false -> (length rs < n)%nat ->
  exists l, parseredirs_loop n b (length pre) = Ok (l, length (pre ++ s)) /\ Forall2 (redir_span b) l rs.
Proof.
  revert n pre s. induction rs as [|[w k] rs IH]; intros n pre s Hb Ht Hrs Hs Hnw Hn Hl;
    (destruct n as [|n]; [cbn in Hl; lia|]); cbn [parseredirs_loop].
  - cbn in Ht. subst s. rewrite (peek_at b pre post), Hn by done. exists []. rewrite app_nil_r. by split; [|constructor].
  - inversion_clear Hrs as [|? ? Hw Hrs']. cbn in Hw. destruct Ht as (s1 & s2 & -> & (g & g' & Hg & Hg' & ->) & Ht).
    cbn [fst snd] in *. rewrite <- !app_assoc in Hb.
    rewrite (peek_at b pre _ _ Hb) by by destruct k.
    assert (next_in "<>" (op k ++ g ++ w ++ g' ++ s2 ++ post) = true) as -> by by destruct k.
    rewrite (gettoken_op b pre k g w _ Hb Hw Hg).
    assert (Hb2 : b = (pre ++ op k ++ g) ++ w ++ g' ++ s2 ++ post) by by rewrite <- !app_assoc.
    assert (Hnw2 : nonword (g' ++ s2 ++ post)).
    { apply gap_nonword; [done|]. intros _. eapply redirs_nonword; [exact Ht|]. intros _. by apply Hnw. }
    rewrite (gettoken_word b _ w g' (s2 ++ post) Hb2 Hw Hg' Hnw2) by by eapply redirs_start.
    change (c_a =? c_a) with true. cbn [negb].
    destruct (IH n ((pre ++ op k ++ g) ++ w ++ g') s2) as (l & E & Hl2);
      [by rewrite Hb2, <- !app_assoc|done|done|done|by intros _; apply Hnw|done|cbn in Hl; lia|].
    rewrite E. cbn [mbind res_bind]. eexists. split; [do 2 f_equal; by rewrite <- !app_assoc|].
    pose proof (span_app b _ w _ Hb2 Hw Hnw2) as Hsp. destruct k; constructor; done.
Qed.

Lemma redirs_length rs s : redirs_text rs s -> (length rs <= length s)%nat.
Proof.
  revert s. induction rs as [|r rs IH]; intros s; cbn [redirs_text length]; [lia|].
  intros (s1 & s2 & -> & (c & s' & -> & _)%redir_op & H%IH). rewrite length_app. cbn. lia.
Qed.

Lemma parseredirs_text rs b pre s post :
  b = pre ++ s ++ post -> redirs_text rs s -> Forall (fun r => word r.1) rs ->
  starts post -> (rs <> [] -> nonword post) -> next_in "<>" post = false ->
  exists l, parseredirs b (length pre) = Ok (l, length (pre ++ s)) /\ Forall2 (redir_span b) l rs.
Proof.
  intros Hb Ht Hrs Hs Hnw Hn. unfold parseredirs. eapply parseredirs_loop_text; [done..|].
  rewrite Hb, !length_app. apply redirs_length in Ht. lia.
Qed.

(** ** Arguments *)

(** What may follow a command: the end, or one of [toks]. *)
Definition follow (toks : string) (post : list Z) : Prop := post = [] \/ next_in toks post = true.

Lemma follow_in toks post (P : Z -> Prop) :
  Forall P (bytes_of toks) -> follow toks post -> match post with [] => True | c :: _ => P c end.
Proof.
  intros HP [->|H]; [done|]. destruct post as [|c post]; [done|]. cbn in H.
  apply andb_true_iff in H as [_ H]. apply existsb_exists in H as (x & Hx & ->%Z.eqb_eq).
  eapply Forall_forall; [exact HP|]. by apply list_elem_of_In.
Qed.

Lemma follow_starts toks post :
  forallb (fun c => negb (is_ws c)) (bytes_of toks) = true -> follow toks post -> starts post.
Proof.
  intros H. apply (follow_in toks post (fun c => is_ws c = false)).
  apply Is_true_true_2, forallb_True in H. eapply Forall_impl; [exact H|].
  by intros c Hc%Is_true_true_1%negb_true_iff.
Qed.

(** A byte that may follow is not one of [toks']. *)
Lemma follow_not toks toks' post :
  forallb (fun c => negb (strchr (bytes_of toks') c)) (bytes_of toks) = true ->
  follow toks post -> next_in toks' post = false.
Proof.
  intros H Hf. assert (H' : match post with [] => True | c :: _ => strchr (bytes_of toks') c = false end).
  { apply (follow_in toks post (fun c => strchr (bytes_of toks') c = false)); [|done].
    apply Is_true_true_2, forallb_True in H. eapply Forall_impl; [exact H|].
    by intros c Hc%Is_true_true_1%negb_true_iff. }
  destruct post as [|c post]; [done|]. cbn. by rewrite H', andb_false_r.
Qed.

Lemma follow_weaken toks toks' post :
  forallb (strchr (bytes_of toks')) (bytes_of toks) = true -> follow toks post -> follow toks' post.
Proof.
  intros H [->|Hf]; [by left|]. right. destruct post as [|c post]; [done|]. cbn in *.
  apply andb_true_iff in Hf as [-> Hf]. apply existsb_exists in Hf as (x & Hx & ->%Z.eqb_eq).
  rewrite forallb_forall in H. by rewrite (H x Hx).
Qed.

Lemma follow_nonword toks post :
  forallb (strchr symbols) (bytes_of toks) = true -> follow toks post -> nonword post.
Proof.
  intros H. apply (follow_in toks post (fun c => is_word c = false)).
  apply Is_true_true_2, forallb_True in H. eapply Forall_impl; [exact H|].
  intros c Hc%Is_true_true_1. unfold is_word. by rewrite Hc, andb_false_r.
Qed.

(** A word does not start with a symbol. *)
Lemma word_next toks w l :
  forallb (strchr symbols) (bytes_of toks) = true -> word w -> next_in toks (w ++ l) = false.
Proof.
  intros H Hwd. pose proof (word_bytes _ Hwd) as Hw. destruct w as [|c w]; [by destruct Hwd|]. cbn. destruct (Forall_inv Hw) as [Hc _].
  apply andb_true_iff in Hc as [_ Hc%negb_true_iff]. destruct (strchr (bytes_of toks) c) eqn:E.
  - apply existsb_exists in E as (x & Hx & ->%Z.eqb_eq). rewrite forallb_forall in H.
    by rewrite (H x Hx) in Hc.
  - apply andb_false_r.
Qed.

Lemma words_start args s post : words_text args s -> Forall word args -> (args = [] -> starts post) -> starts (s ++ post).
Proof.
  destruct args as [|w args]; [intros -> _ H; by apply H|]. intros (g & s' & _ & _ & -> & _) Hw _.
  rewrite <- app_assoc. apply word_starts. by inversion Hw.
Qed.

Lemma words_length args s : words_text args s -> Forall word args -> (length args <= length s)%nat.
Proof.
  intros H Hw. revert s H. induction Hw as [|w args [Hw _] _ IH]; intros s; cbn [words_text length]; [lia|].
  intros (g & s' & _ & _ & -> & H%IH). rewrite !length_app. destruct w; [done|]. cbn. lia.
Qed.

(** The arguments from a place on, with the redirections after the last. *)
Lemma parseargs_text args rs n b pre s1 s2 post argv l :
  b = pre ++ s1 ++ s2 ++ post -> words_text args s1 -> redirs_text (match args with [] => [] | _ => rs end) s2 ->
  Forall word args -> Forall (fun r => word r.1) rs -> follow "|)&;" post ->
  (length argv + length args < MAXARGS)%nat -> (length args < n)%nat ->
  exists argv' l', parseargs n b (length pre) argv l = Ok (argv ++ argv', l ++ l', length (pre ++ s1 ++ s2)) /\
    Forall2 (span b) argv' args /\ Forall2 (redir_span b) l' (match args with [] => [] | _ => rs end).
Proof.
  revert n pre s1 s2 argv l. induction args as [|w args IH]; intros n pre s1 s2 argv l Hb Ht1 Ht2 Hw Hrs Hf Hm Hn;
    (destruct n as [|n]; [lia|]); cbn [parseargs].
  - cbn in Ht1, Ht2. subst s1 s2. cbn [app] in Hb. exists [], []. rewrite !app_nil_r.
    split; [|by split; constructor].
    rewrite (peek_at b pre post) by (try done; by eapply (follow_starts "|)&;")).
    rewrite Hb. destruct Hf as [-> | ->]; [|done]. cbn [next_in]. by rewrite gettoken_end.
  - inversion_clear Hw as [|? ? Hw1 Hw2]. cbn [length] in Hm, Hn.
    destruct Ht1 as (g & s' & Hg & Hgne & -> & Ht1). rewrite <- !app_assoc in Hb.
    assert (Hsp : starts post) by by eapply (follow_starts "|)&;").
    assert (Hs0 : starts (s' ++ s2 ++ post)) by (eapply words_start; [done|done|]; intros _; by eapply redirs_start).
    rewrite (peek_at b pre _ _ Hb) by by apply word_starts. rewrite word_next by done.
    assert (Hnw : nonword (g ++ s' ++ s2 ++ post)).
    { apply gap_nonword; [done|]. intros ->. destruct args; [|by destruct Hgne]. cbn in Ht1. subst s'. cbn [app].
      eapply redirs_nonword; [exact Ht2|]. intros _. by eapply (follow_nonword "|)&;"). }
    rewrite (gettoken_word b pre w g _ Hb Hw1 Hg Hnw Hs0).
    change (c_a =? 0) with false. change (c_a =? c_a) with true. cbn [negb].
    rewrite decide_False by (rewrite length_app; cbn; lia).
    pose proof (span_app b pre w _ Hb Hw1 Hnw) as Hspan.
    assert (Hb2 : b = (pre ++ w ++ g) ++ s' ++ s2 ++ post) by by rewrite <- !app_assoc.
    destruct args as [|w' args].
    + cbn in Ht1. subst s'. cbn [app] in Hb2.
      destruct (parseredirs_text rs b (pre ++ w ++ g) s2 post Hb2 Ht2 Hrs Hsp) as (l1 & E1 & Hl1).
      { intros _. by eapply (follow_nonword "|)&;"). } { by eapply (follow_not "|)&;"). }
      rewrite E1. cbn [mbind res_bind].
      destruct (IH n ((pre ++ w ++ g) ++ s2) [] [] (argv ++ [(length pre, length pre + length w)%nat]) (l ++ l1))
        as (argv' & l' & E2 & Ha & Hl2); [by rewrite Hb2, <- !app_assoc|done|done|done|done|done|rewrite length_app; cbn; lia|lia|].
      rewrite E2. inversion Ha; inversion Hl2; subst argv' l'.
      exists [(length pre, length pre + length w)%nat], l1. rewrite !app_nil_r, <- !app_assoc.
      split; [done|]. split; [by constructor|done].
    + destruct (parseredirs_text [] b (pre ++ w ++ g) [] (s' ++ s2 ++ post)) as (l1 & E1 & Hl1);
        [done|done|done|done|done| |].
      { destruct Ht1 as (g' & s3 & _ & _ & -> & _). rewrite <- app_assoc. apply word_next; [done|]. by inversion Hw2. }
      rewrite E1. cbn [mbind res_bind]. inversion Hl1; subst l1. rewrite !app_nil_r.
      destruct (IH n (pre ++ w ++ g) s' s2 (argv ++ [(length pre, length pre + length w)%nat]) l)
        as (argv' & l' & E2 & Ha & Hl2); [done|done|done|done|done|done|rewrite length_app; cbn in *; lia|cbn in *; lia|].
      rewrite E2. exists ((length pre, length pre + length w)%nat :: argv'), l'. rewrite <- !app_assoc.
      split; [done|]. split; [by constructor|done].
Qed.

(** ** Commands *)

(** With enough fuel [f] reads a text of [P] as [a], when one of [toks] or
    the end follows. *)
Definition parses (f : nat -> list Z -> nat -> res (cmd * nat)) (P : list Z -> Prop) (toks : string)
    (a : ast) : Prop :=
  forall str, P str -> exists f0, forall fuel b pre post,
    (f0 <= fuel)%nat -> b = pre ++ str ++ post -> follow toks post ->
    exists c, f fuel b (length pre) = Ok (c, length (pre ++ str)) /\ tree (span b) c a.

Definition add_redirs (a : ast) (rs : list (list Z * rkind)) : ast :=
  foldl (fun a r => A_redir a r.1 r.2) a rs.
Fixpoint base (a : ast) : ast := match a with A_redir a _ _ => base a | _ => a end.
Fixpoint redirs_of (a : ast) : list (list Z * rkind) :=
  match a with A_redir a w k => redirs_of a ++ [(w, k)] | _ => [] end.

Lemma add_redirs_base a : add_redirs (base a) (redirs_of a) = a.
Proof.
  induction a; try done. cbn [base redirs_of]. unfold add_redirs in *. by rewrite foldl_app, IHa.
Qed.

Lemma redirs_snoc rs r s1 s2 : redirs_text rs s1 -> redir_text r s2 -> redirs_text (rs ++ [r]) (s1 ++ s2).
Proof.
  intros H1 H2. revert s1 H1. induction rs as [|r' rs IH]; intros s1; cbn [redirs_text app].
  - intros ->. exists s2, []. by rewrite app_nil_r.
  - intros (s3 & s4 & -> & H3 & H4). exists s3, (s4 ++ s2). rewrite app_assoc. auto.
Qed.

Lemma text_base a s :
  paren_text 0 a (layout a) s -> exists s1 s2, s = s1 ++ s2 /\
    paren_text 0 (base a) (layout (base a)) s1 /\ redirs_text (redirs_of a) s2.
Proof.
  revert s. induction a as [args|a IH w k|l _ r _|l _ r _|a _]; intros s; cbn [base redirs_of];
    try by (intros H; exists s, []; rewrite app_nil_r).
  unfold paren_text at 1. rewrite decide_True by (cbn; lia). cbn [layout]. intros (s1 & s2 & -> & H1 & H2).
  destruct (IH s1 H1) as (s3 & s4 & -> & H3 & H4). exists s3, (s4 ++ s2). rewrite app_assoc.
  split_and!; [done|done|]. by apply redirs_snoc.
Qed.

Lemma wf_base a : wf a -> wf (base a) /\ Forall (fun r => word r.1) (redirs_of a).
Proof.
  induction a; cbn [base redirs_of]; try (intros H; split; [exact H|constructor]).
  intros [H1 H2]. destruct (IHa H1). split; [done|]. apply Forall_app. split; [done|]. constructor; [done|constructor].
Qed.

Lemma tree_redirs b c a l rs :
  tree (span b) c a -> Forall2 (redir_span b) l rs ->
  tree (span b) (foldl redircmd c l) (add_redirs a rs).
Proof.
  intros Hc Hl. revert c a Hc. induction Hl as [|[[[q eq] m] fd] [w k] l rs [H1 H2] Hl IH]; [done|].
  intros c a Hc. cbn. apply IH. cbn. cbn in H1, H2. done.
Qed.

Lemma paren_start n a s post :
  (layout a s -> starts (s ++ post)) -> paren_text n a (layout a) s -> starts (s ++ post).
Proof. unfold paren_text. case_decide; [auto|]. by intros _ (g & s1 & g' & _ & _ & _ & ->). Qed.

Lemma text_starts a s post : wf a -> layout a s -> starts post -> starts (s ++ post).
Proof.
  revert s post. induction a as [args|a IH w k|l IHl r IHr|l IHl r IHr|a IH]; intros s post; cbn [wf layout].
  - intros [Hw _] Ht Hs. by eapply words_start.
  - intros [Ha _] (s1 & s2 & -> & H1 & (c & s' & -> & Hc)%redir_op) _. rewrite <- app_assoc.
    eapply paren_start; [|exact H1]. intros H. apply IH; [done|done|]. by destruct Hc as [-> | ->].
  - intros [Ha _] (s1 & g & s2 & _ & -> & H1 & _) _. rewrite <- app_assoc. eapply paren_start; [|exact H1].
    intros H. by apply IHl.
  - intros [Ha _] (s1 & g & s2 & _ & -> & H1 & _) _. rewrite <- app_assoc. eapply paren_start; [|exact H1].
    intros H. by apply IHl.
  - intros Ha (s1 & g & _ & -> & H1) _. rewrite <- app_assoc. eapply paren_start; [|exact H1].
    intros H. by apply IH.
Qed.

Lemma parses_exec args rs :
  Forall word args -> (length args < MAXARGS)%nat -> Forall (fun r => word r.1) rs ->
  parses parseexec (fun s => exists s1 s2, s = s1 ++ s2 /\ words_text args s1 /\ redirs_text rs s2) "|)&;"
    (add_redirs (A_exec args) rs).
Proof.
  intros Hw Hm Hrs str (s1 & s2 & -> & Ht1 & Ht2). exists 1%nat. intros [|fuel] b pre post Hf Hb Hp; [lia|]. cbn [parseexec].
  rewrite <- app_assoc in Hb. assert (Hsp : starts post) by by eapply (follow_starts "|)&;").
  assert (Hs : starts (s1 ++ s2 ++ post)) by (eapply words_start; [done|done|]; intros _; by eapply redirs_start).
  rewrite (peek_at b pre _ _ Hb Hs).
  destruct args as [|w args].
  - cbn in Ht1. subst s1. cbn [app] in *.
    assert (next_in "(" (s2 ++ post) = false) as ->.
    { destruct rs as [|r rs]; [cbn in Ht2; subst s2; by eapply (follow_not "|)&;")|].
      destruct Ht2 as (s3 & s4 & -> & (c & s' & -> & Hc)%redir_op & _). by destruct Hc as [-> | ->]. }
    destruct (parseredirs_text rs b pre s2 post Hb Ht2 Hrs Hsp) as (l1 & E1 & Hl1).
    { intros _. by eapply (follow_nonword "|)&;"). } { by eapply (follow_not "|)&;"). }
    rewrite E1. cbn [mbind res_bind].
    destruct (parseargs_text [] rs (S (length b - length (pre ++ s2))) b (pre ++ s2) [] [] post [] l1)
      as (argv & l2 & E2 & Ha & Hl2); [by rewrite Hb, <- app_assoc|done|done|done|done|done|done|cbn; lia|].
    rewrite E2. inversion Ha; inversion Hl2; subst. cbn [mbind res_bind app]. rewrite !app_nil_r.
    eexists. split; [done|]. by apply tree_redirs.
  - destruct Ht1 as (g & s3 & Ht1). assert (Hw1 : word w) by by inversion Hw.
    assert (next_in "(" (s1 ++ s2 ++ post) = false) as ->.
    { destruct Ht1 as (_ & _ & -> & _). rewrite <- app_assoc. by apply word_next. }
    destruct (parseredirs_text [] b pre [] (s1 ++ s2 ++ post)) as (l1 & E1 & Hl1); [done|done|constructor|done|done| |].
    { destruct Ht1 as (_ & _ & -> & _). rewrite <- app_assoc. by apply word_next. }
    rewrite app_nil_r in E1. rewrite E1. cbn [mbind res_bind]. inversion Hl1; subst l1.
    assert (Htw : words_text (w :: args) s1) by by exists g, s3.
    destruct (parseargs_text (w :: args) rs (S (length b - length pre)) b pre s1 s2 post [] [])
      as (argv & l2 & E2 & Ha & Hl2); [done|done|done|done|done|done|cbn in *; lia| |].
    { rewrite Hb, !length_app. pose proof (words_length _ _ Htw Hw). lia. }
    rewrite E2. cbn [mbind res_bind app]. eexists. split; [done|]. by apply tree_redirs.
Qed.

(** A block. *)
Lemma parses_block a rs :
  wf a -> parses parseline (layout a) ")" a -> Forall (fun r => word r.1) rs ->
  parses parseexec (fun s => exists g s1 g' s2, s = (c_open :: g ++ s1 ++ c_close :: g') ++ s2 /\
    gap g /\ gap g' /\ layout a s1 /\ redirs_text rs s2) "|)&;" (add_redirs a rs).
Proof.
  intros Hwf HL Hrs str (g & s1 & g' & s2 & -> & Hg & Hg' & Ht & Htr). destruct (HL s1 Ht) as [f0 HL1].
  exists (S (S f0)). intros [|[|fuel]] b pre post Hf Hb Hp; [lia|lia|].
  assert (Hsp : starts post) by by eapply (follow_starts "|)&;").
  repeat (rewrite <- app_assoc in Hb; cbn [app] in Hb).
  cbn [parseexec]. rewrite (peek_at b pre _ _ Hb) by done. cbn [parseblock].
  assert (next_in "(" (c_open :: g ++ s1 ++ c_close :: g' ++ s2 ++ post) = true) as -> by done.
  rewrite (peek_at b pre _ _ Hb) by done.
  assert (next_in "(" (c_open :: g ++ s1 ++ c_close :: g' ++ s2 ++ post) = true) as -> by done. cbn [negb].
  rewrite (gettoken_symbol b pre _ g _ Hb) by (try done; by eapply text_starts).
  assert (Hb2 : b = (pre ++ c_open :: g) ++ s1 ++ c_close :: g' ++ s2 ++ post) by by rewrite Hb, <- app_assoc.
  destruct (HL1 fuel b (pre ++ c_open :: g) (c_close :: g' ++ s2 ++ post)) as (c & E & Hc); [lia|done|by right|].
  rewrite E. cbn [mbind res_bind]. rewrite (app_assoc (pre ++ c_open :: g)) in Hb2.
  rewrite (peek_at b _ _ _ Hb2) by done.
  assert (next_in ")" (c_close :: g' ++ s2 ++ post) = true) as -> by done. cbn [negb].
  rewrite (gettoken_symbol b _ _ g' _ Hb2) by (try done; by eapply redirs_start).
  assert (Hb3 : b = (((pre ++ c_open :: g) ++ s1) ++ c_close :: g') ++ s2 ++ post) by by rewrite Hb2, <- (app_assoc _ (c_close :: g')).
  destruct (parseredirs_text rs b _ s2 post Hb3 Htr Hrs Hsp) as (l & E2 & Hl).
  { intros _. by eapply (follow_nonword "|)&;"). } { by eapply (follow_not "|)&;"). }
  rewrite E2. cbn [mbind res_bind]. eexists. split; [|by apply tree_redirs].
  do 2 f_equal. repeat (rewrite !length_app; cbn [length]). lia.
Qed.

(** ** The levels of the grammar *)

Definition at_exec (a : ast) : Prop := parses parseexec (paren_text 0 a (layout a)) "|)&;" a.
Definition at_pipe (a : ast) : Prop := parses parsepipe (paren_text 1 a (layout a)) ")&;" a.
Definition at_line (a : ast) : Prop := parses parseline (layout a) ")" a.
(** [parsepipe], and then [j] turns of the loop over ampersands. *)
Definition at_back (a : ast) : Prop :=
  forall str, paren_text 2 a (layout a) str -> exists f0, forall fuel b pre post,
    (f0 <= fuel)%nat -> b = pre ++ str ++ post -> follow ")&;" post ->
    exists c c0 s0 j, parsepipe fuel b (length pre) = Ok (c0, s0) /\ tree (span b) c a /\
      (s0 + j <= length (pre ++ str))%nat /\
      forall n, parseback (j + n) b s0 c0 = parseback n b (length (pre ++ str)) c.

Lemma paren_same n m a P s :
  (level a <= n)%nat <-> (level a <= m)%nat -> paren_text n a P s -> paren_text m a P s.
Proof. intros H. unfold paren_text. repeat case_decide; tauto. Qed.

Lemma paren_open n a s : (level a <= n)%nat -> paren_text n a (layout a) s <-> layout a s.
Proof. intros H. unfold paren_text. by rewrite decide_True. Qed.

Lemma paren_starts n a s post : wf a -> paren_text n a (layout a) s -> starts post -> starts (s ++ post).
Proof. intros. eapply paren_start; [|done]. intros. by eapply text_starts. Qed.

Lemma at_exec_intro a : wf a -> (level (base a) <> 0%nat -> at_line (base a)) -> at_exec a.
Proof.
  intros Hwf HL str (s1 & s2 & -> & Ht1 & Ht2)%text_base. destruct (wf_base a Hwf) as [Hb Hr].
  rewrite <- (add_redirs_base a). destruct (decide (level (base a) = 0)%nat) as [E|E].
  - rewrite paren_open in Ht1 by lia. destruct (base a) as [args|a' w k| | |] eqn:Ea; try done.
    + destruct Hb. apply (parses_exec args); [done|done|done|]. by exists s1, s2.
    + exfalso. clear -Ea. revert w k a' Ea. by induction a.
  - unfold paren_text in Ht1. rewrite decide_False in Ht1 by lia. destruct Ht1 as (g & s3 & g' & Hg & Hg' & Ht & ->).
    apply (parses_block (base a)); [done|by apply HL|done|]. by exists g, s3, g', s2.
Qed.

Lemma at_pipe_exec a : level a <> 1%nat -> at_exec a -> at_pipe a.
Proof.
  intros Hl HA str Ht. destruct (HA str) as [f0 HA0]; [eapply paren_same; [|exact Ht]; lia|].
  exists (S f0). intros [|fuel] b pre post Hf Hb Hp; [lia|]. cbn [parsepipe].
  destruct (HA0 fuel b pre post) as (c & E & Hc); [lia|done|by eapply (follow_weaken ")&;")|].
  rewrite E. cbn [mbind res_bind]. rewrite app_assoc in Hb.
  rewrite (peek_at b _ _ _ Hb) by by eapply (follow_starts ")&;").
  rewrite (follow_not ")&;" "|") by done. by exists c.
Qed.

Lemma at_pipe_pipe l r : wf r -> at_exec l -> at_pipe r -> at_pipe (A_pipe l r).
Proof.
  intros Hwf HA HP str Ht. rewrite paren_open in Ht by (cbn; lia).
  destruct Ht as (s1 & g & s2 & Hg & -> & H1 & H2). destruct (HA s1 H1) as [f0 HA0]. destruct (HP s2 H2) as [f1 HP0].
  exists (S (Nat.max f0 f1)). intros [|fuel] b pre post Hf Hb Hp; [lia|]. cbn [parsepipe].
  repeat (rewrite <- app_assoc in Hb; cbn [app] in Hb).
  destruct (HA0 fuel b pre (c_bar :: g ++ s2 ++ post)) as (c & E & Hc); [lia|done|by right|].
  rewrite E. cbn [mbind res_bind]. rewrite app_assoc in Hb. rewrite (peek_at b _ _ _ Hb) by done.
  change (next_in "|" (c_bar :: g ++ s2 ++ post)) with true. cbn iota.
  rewrite (gettoken_symbol b _ _ g _ Hb)
    by first [done | eapply paren_starts; [done|done|by eapply (follow_starts ")&;")]].
  assert (Hb2 : b = ((pre ++ s1) ++ c_bar :: g) ++ s2 ++ post) by by rewrite Hb, <- (app_assoc _ (c_bar :: g)).
  destruct (HP0 fuel b _ post ltac:(lia) Hb2 Hp) as (c2 & E2 & Hc2). rewrite E2. cbn [mbind res_bind].
  exists (PIPE c c2). split; [|done]. do 2 f_equal. repeat (rewrite !length_app; cbn [length]). lia.
Qed.

Lemma at_back_pipe a : level a <> 2%nat -> at_pipe a -> at_back a.
Proof.
  intros Hl HP str Ht. destruct (HP str) as [f0 HP0]; [eapply paren_same; [|exact Ht]; lia|].
  exists f0. intros fuel b pre post Hf Hb Hp. destruct (HP0 fuel b pre post Hf Hb Hp) as (c & E & Hc).
  exists c, c, (length (pre ++ str)), 0%nat. split; [done|]. split; [done|]. split; [lia|done].
Qed.

Lemma at_back_back a : at_back a -> at_back (A_back a).
Proof.
  intros HB str Ht. rewrite paren_open in Ht by (cbn; lia). destruct Ht as (s1 & g & Hg & -> & H1).
  destruct (HB s1 H1) as [f0 HB0]. exists f0. intros fuel b pre post Hf Hb Hp.
  repeat (rewrite <- app_assoc in Hb; cbn [app] in Hb).
  destruct (HB0 fuel b pre (c_amp :: g ++ post) Hf Hb) as (c & c0 & s0 & j & E & Hc & Hj & Hn); [by right|].
  exists (BACK c), c0, s0, (j + 1)%nat. split; [done|]. split; [done|].
  split; [rewrite app_assoc, length_app; cbn; lia|]. intros n.
  rewrite <- Nat.add_assoc, Hn. cbn [Nat.add parseback]. rewrite app_assoc in Hb.
  rewrite (peek_at b _ _ _ Hb) by done. change (next_in "&" (c_amp :: g ++ post)) with true. cbn iota.
  rewrite (gettoken_symbol b _ _ g _ Hb) by (try done; by eapply (follow_starts ")&;")).
  by rewrite app_assoc.
Qed.

(** The part of [parseline] up to the semicolon. *)
Lemma at_back_loop str fuel b pre post c c0 s0 j :
  b = pre ++ str ++ post -> starts post -> next_in "&" post = false ->
  parsepipe fuel b (length pre) = Ok (c0, s0) ->
  (s0 + j <= length (pre ++ str))%nat ->
  (forall n, parseback (j + n) b s0 c0 = parseback n b (length (pre ++ str)) c) ->
  parseback (S (length b - s0)) b s0 c0 = Ok (c, length (pre ++ str)).
Proof.
  intros Hb Hs Hn E Hj Hl. rewrite app_assoc in Hb.
  assert (length (pre ++ str) <= length b)%nat by (rewrite Hb, (length_app (pre ++ _)); lia).
  replace (S (length b - s0)) with (j + S (length b - s0 - j))%nat by lia.
  rewrite Hl. cbn [parseback]. by rewrite (peek_at b _ _ _ Hb Hs), Hn.
Qed.

Lemma at_line_back a : level a <> 3%nat -> at_back a -> at_line a.
Proof.
  intros Hl HB str Ht. destruct (HB str) as [f0 HB0]; [apply paren_open; [destruct a; cbn in *; lia|done]|].
  exists (S f0). intros [|fuel] b pre post Hf Hb Hp; [lia|]. cbn [parseline].
  assert (Hs : starts post) by by eapply (follow_starts ")").
  destruct (HB0 fuel b pre post) as (c & c0 & s0 & j & E & Hc & Hj & Hn);
    [lia|done|by eapply (follow_weaken ")")|].
  rewrite E. cbn [mbind res_bind].
  rewrite (at_back_loop str fuel b pre post c c0 s0 j Hb Hs (follow_not ")" "&" post eq_refl Hp) E Hj Hn).
  cbn [mbind res_bind]. rewrite app_assoc in Hb. rewrite (peek_at b _ _ _ Hb Hs).
  rewrite (follow_not ")" ";") by done. by exists c.
Qed.

Lemma at_line_list l r : wf r -> at_back l -> at_line r -> at_line (A_list l r).
Proof.
  intros Hwf HB HL str (s1 & g & s2 & Hg & -> & H1 & H2).
  destruct (HB s1 H1) as [f0 HB0]. destruct (HL s2 H2) as [f1 HL0].
  exists (S (Nat.max f0 f1)). intros [|fuel] b pre post Hf Hb Hp; [lia|]. cbn [parseline].
  repeat (rewrite <- app_assoc in Hb; cbn [app] in Hb).
  assert (Hs : starts post) by by eapply (follow_starts ")").
  destruct (HB0 fuel b pre (c_semi :: g ++ s2 ++ post)) as (c & c0 & s0 & j & E & Hc & Hj & Hn);
    [lia|done|by right|].
  rewrite E. cbn [mbind res_bind].
  rewrite (at_back_loop s1 fuel b pre (c_semi :: g ++ s2 ++ post) c c0 s0 j Hb) by done.
  cbn [mbind res_bind]. rewrite app_assoc in Hb. rewrite (peek_at b _ _ _ Hb) by done.
  change (next_in ";" (c_semi :: g ++ s2 ++ post)) with true. cbn iota.
  rewrite (gettoken_symbol b _ _ g _ Hb) by (try done; by eapply text_starts).
  assert (Hb2 : b = ((pre ++ s1) ++ c_semi :: g) ++ s2 ++ post) by by rewrite Hb, <- (app_assoc _ (c_semi :: g)).
  destruct (HL0 fuel b _ post ltac:(lia) Hb2 Hp) as (c2 & E2 & Hc2). rewrite E2. cbn [mbind res_bind].
  exists (LIST c c2). split; [|done]. do 2 f_equal. repeat (rewrite !length_app; cbn [length]). lia.
Qed.

(** Every well-formed tree is read back at every level. *)
Lemma text_parses a :
  wf a -> at_exec a /\ at_pipe a /\ at_back a /\ at_line a /\ (level (base a) <> 0%nat -> at_line (base a)).
Proof.
  induction a as [args|a IH w k|l IHl r IHr|l IHl r IHr|a IH]; intros Hwf.
  - assert (HA : at_exec (A_exec args)) by by apply at_exec_intro.
    assert (HP : at_pipe (A_exec args)) by by apply at_pipe_exec.
    assert (HB : at_back (A_exec args)) by by apply at_back_pipe.
    split_and!; [done|done|done|by apply at_line_back|done].
  - destruct (IH (proj1 Hwf)) as (_ & _ & _ & _ & Hb).
    assert (HA : at_exec (A_redir a w k)) by by apply at_exec_intro.
    assert (HP : at_pipe (A_redir a w k)) by by apply at_pipe_exec.
    assert (HB : at_back (A_redir a w k)) by by apply at_back_pipe.
    split_and!; [done|done|done|by apply at_line_back|done].
  - destruct Hwf as [W1 W2]. destruct (IHl W1) as (HA & _). destruct (IHr W2) as (_ & HP & _).
    assert (HP' : at_pipe (A_pipe l r)) by by apply at_pipe_pipe.
    assert (HB : at_back (A_pipe l r)) by by apply at_back_pipe.
    assert (HL : at_line (A_pipe l r)) by by apply at_line_back.
    split_and!; [by apply at_exec_intro|done|done|done|done].
  - destruct Hwf as [W1 W2]. destruct (IHl W1) as (_ & _ & HB & _). destruct (IHr W2) as (_ & _ & _ & HL & _).
    assert (HL' : at_line (A_list l r)) by by apply at_line_list.
    assert (HA : at_exec (A_list l r)) by by apply at_exec_intro.
    assert (HP : at_pipe (A_list l r)) by by apply at_pipe_exec.
    split_and!; [done|done|by apply at_back_pipe|done|done].
  - destruct (IH Hwf) as (_ & _ & HB & _).
    assert (HB' : at_back (A_back a)) by by apply at_back_back.
    assert (HL : at_line (A_back a)) by by apply at_line_back.
    assert (HA : at_exec (A_back a)) by by apply at_exec_intro.
    split_and!; [done|by apply at_pipe_exec|done|done|done].
Qed.

(** ** More fuel does not change a result *)

Lemma bind_mono {A B} (m m' : res A) (f f' : A -> res B) :
  m ≫= f <> NoFuel -> (m <> NoFuel -> m' = m) ->
  (forall a, m = Ok a -> f a <> NoFuel -> f' a = f a) -> m' ≫= f' = m ≫= f.
Proof.
  intros H H1 H2. destruct m as [a|msg|]; cbn in H |- *.
  - rewrite H1 by done. cbn. by apply H2.
  - by rewrite H1.
  - done.
Qed.

Lemma fuel_mono f f' b s :
  (f <= f')%nat ->
  (parseline f b s <> NoFuel -> parseline f' b s = parseline f b s) /\
  (parsepipe f b s <> NoFuel -> parsepipe f' b s = parsepipe f b s) /\
  (parseexec f b s <> NoFuel -> parseexec f' b s = parseexec f b s) /\
  (parseblock f b s <> NoFuel -> parseblock f' b s = parseblock f b s).
Proof.
  revert f' s. induction f as [|f IH]; intros [|f'] s Hf; [done..|lia|].
  assert (Hf' : (f <= f')%nat) by lia.
  split; [|split; [|split]]; cbn [parseline parsepipe parseexec parseblock].
  - intros H. apply bind_mono; [done|apply IH; lia|]. intros [c s1] _ H1.
    apply bind_mono; [done|done|]. intros [c2 s2] _. destruct (peek b s2 ";") as [[] s3]; [|done].
    destruct (gettoken b s3) as [[[? ?] ?] s4]. intros H2. apply bind_mono; [done|apply IH; lia|done].
  - intros H. apply bind_mono; [done|apply IH; lia|]. intros [c s1] _.
    destruct (peek b s1 "|") as [[] s3]; [|done].
    destruct (gettoken b s3) as [[[? ?] ?] s4]. intros H2. apply bind_mono; [done|apply IH; lia|done].
  - destruct (peek b s "(") as [[] s1]; [|done]. apply IH; lia.
  - destruct (peek b s "(") as [[] s1]; [|done]. cbn [negb].
    destruct (gettoken b s1) as [[[? ?] ?] s2]. intros H. by apply bind_mono; [|apply IH; lia|].
Qed.

Lemma gap_nul_free g : gap g -> 0 ∉ g.
Proof. intros Hg%gap_ws H0. eapply Forall_forall in Hg; [|exact H0]. done. Qed.

Lemma word_nul_free w : word w -> 0 ∉ w.
Proof. intros Hw%word_bytes H0. eapply Forall_forall in Hw as [_ Hw]; [|exact H0]. done. Qed.

Lemma text_nul_free a s : wf a -> layout a s -> nul_free s.
Proof.
  pose proof gap_nul_free as Hgap. pose proof word_nul_free as Hword.
  assert (Hpar : forall n a s, (forall s, layout a s -> 0 ∉ s) -> paren_text n a (layout a) s -> 0 ∉ s).
  { intros n x s' H. unfold paren_text. case_decide; [auto|]. intros (g & s1 & g' & Hg & Hg' & Ht & ->).
    rewrite not_elem_of_cons, !not_elem_of_app, not_elem_of_cons. split_and!; [done|auto|auto|done|auto]. }
  unfold nul_free. revert s. induction a as [args|a IH w k|l IHl r IHr|l IHl r IHr|a IH]; intros s; cbn [wf layout].
  - intros [Hw _]. revert s. induction Hw as [|w args H _ IHa]; intros s; cbn [words_text].
    { intros ->. apply not_elem_of_nil. }
    intros (g & s' & Hg & _ & -> & Ht). rewrite !not_elem_of_app. auto.
  - intros [H1 H2] (s1 & s2 & -> & Ht1 & (g & g' & Hg & Hg' & ->)). rewrite !not_elem_of_app.
    split; [by eauto|]. split; [|by auto]. destruct k; cbn; rewrite ?not_elem_of_cons, elem_of_nil; naive_solver.
  - intros [H1 H2] (s1 & g & s2 & Hg & -> & Ht1 & Ht2). rewrite not_elem_of_app, not_elem_of_cons, not_elem_of_app.
    split_and!; [eauto|done|auto|eauto].
  - intros [H1 H2] (s1 & g & s2 & Hg & -> & Ht1 & Ht2). rewrite not_elem_of_app, not_elem_of_cons, not_elem_of_app.
    split_and!; [eauto|done|auto|eauto].
  - intros H1 (s1 & g & Hg & -> & Ht1). rewrite not_elem_of_app, not_elem_of_cons.
    split_and!; [eauto|done|auto].
Qed.

(** *** The printed text is one of the layouts *)

Lemma paren_show n a : layout a (show a) -> paren_text n a (layout a) (paren n a (show a)).
Proof.
  intros H. unfold paren_text, paren. case_decide; [done|]. exists [], (show a), []. split_and!; by try constructor.
Qed.

Lemma text_show a : layout a (show a).
Proof.
  assert (Hsp : gap [c_space]) by by repeat constructor. assert (Hnil : gap []) by constructor.
  induction a as [args|a IH w k|l IHl r IHr|l IHl r IHr|a IH]; cbn [layout show].
  - induction args as [|w args IH]; [done|]. exists [c_space], (concat (map show_word args)).
    split_and!; [done|done| |done]. cbn. unfold show_word. by rewrite <- app_assoc.
  - eexists _, _. split; [done|]. split; [by apply paren_show|]. by exists [], [c_space].
  - eexists _, [], _. split_and!; [done|done|by apply paren_show|by apply paren_show].
  - eexists _, [], _. split_and!; [done|done|by apply paren_show|done].
  - eexists _, []. split_and!; [done|done|by apply paren_show].
Qed.

Lemma typed_show a : typed a (show a).
Proof. exists [], (show a). split_and!; [constructor|apply text_show|done]. Qed.

(** *** White space before a command *)

Lemma skip_leading g l : gap g -> starts l -> skip is_ws (g ++ l) 0 = skip is_ws (g ++ l) (length g).
Proof. intros Hg%gap_ws Hl. rewrite skip_ws_app by done. exact (skip_app is_ws [] g l Hg Hl). Qed.

Lemma parseline_leading fuel g l :
  gap g -> starts l -> parseline fuel (g ++ l) 0 = parseline fuel (g ++ l) (length g).
Proof.
  intros Hg Hl. destruct fuel as [|[|[|fuel]]]; [done|done|done|]. cbn [parseline parsepipe parseexec].
  unfold peek. by rewrite (skip_leading g l).
Qed.

(** A typed line is read as its tree. *)
Lemma parses_line (a : ast) s :
  wf a -> typed a s -> exists c b, parsecmd s = Ok (c, b) /\ denotes b c a.
Proof.
  intros Hwf (g & s' & Hg & Ht & ->). destruct (text_parses a Hwf) as (_ & _ & _ & HL & _).
  destruct (HL s' Ht) as [f0 HL0]. set (s := g ++ s').
  set (F := (4 * length s + 4)%nat). set (f1 := Nat.max f0 F).
  assert (Hs : starts s') by (rewrite <- (app_nil_r s'); by eapply text_starts).
  destruct (HL0 f1 s g []) as (c & E & Hc); [lia|by rewrite app_nil_r|by left|].
  unfold s in E. rewrite <- parseline_leading in E by done. fold s in E.
  assert (Hn : nul_free s).
  { unfold nul_free, s. rewrite not_elem_of_app. split; [by apply gap_nul_free|by apply (text_nul_free a)]. }
  assert (Hnf : parseline F s 0 <> NoFuel).
  { pose proof (total_all s Hn F 0%nat ltac:(lia)) as [H _]. specialize (H ltac:(lia)). by destruct (parseline F s 0). }
  destruct (fuel_mono F f1 s 0 ltac:(lia)) as [Hm _]. rewrite Hm in E by done.
  exists c, (nulterminate c s). split; [|by apply nulterminate_denotes].
  unfold parsecmd. fold F. rewrite E. cbn [mbind res_bind].
  pose proof (peek_app s [] "" I) as Hp. rewrite app_nil_r in Hp. rewrite Hp.
  by rewrite Nat.eqb_refl.
Qed.

(** C25: parsing inverts printing.  For every well-formed command tree (words
    of word bytes, fewer than [MAXARGS] arguments), [parsecmd] accepts its
    text and builds a command of the same shape, in which, after
    [nulterminate], every pointer leads to exactly the word of the tree, with
    the mode and descriptor of each redirection. *)
Theorem parsecmd_show (a : ast) :
  wf a -> exists c b, parsecmd (show a) = Ok (c, b) /\ denotes b c a.
Proof. intros Hwf. apply parses_line; [done|apply typed_show]. Qed.

(** [(ls >f ; wc) | cat &] *)
Definition sample_ast : ast :=
  A_back (A_pipe (A_list (A_redir (A_exec [bytes_of "ls"]) (bytes_of "f") R_out) (A_exec [bytes_of "wc"]))
            (A_exec [bytes_of "cat"])).

Lemma parsecmd_show_witness :
  exists c b, parsecmd (bytes_of "(ls >f ;wc )|cat &") = Ok (c, b) /\ denotes b c sample_ast.
Proof.
  change (bytes_of "(ls >f ;wc )|cat &") with (show sample_ast).
  apply (parsecmd_show sample_ast).
  assert (Hw : forall w, bool_decide (word w) = true -> word w).
  { intros w H. by apply bool_decide_eq_true in H. }
  repeat split; try (constructor; [apply Hw; vm_compute; reflexivity|constructor]);
    try (apply Hw; vm_compute; reflexivity); cbn; unfold MAXARGS; lia.
Defined.
