(* ===== verification/ShRun.v ===== *)
(** * [user/sh.c]: running commands

    The memory of the shell holds the line it has read at [buf]; the pointers
    of a parsed command are indices into it.  [behave] runs a program with
    the descriptors of a process and follows both sides of a [fork]: the
    behaviour of the shell is a tree of processes, in which each program that
    is executed, and each [wait], comes with the open descriptors. *)

From ITree Require Import ITree.
From S2P Require Import Prelude Defs Memory User Ulib Uprogs Sh.

(** ** The program *)

(** [fprintf(2, "%s\n", s)] of a string constant, and [exit(1)]. *)
Definition sh_panic {A} (s : string) : prog A :=
  for_prog (bytes_of s) (putc 2);; putc 2 10;; exit 1.

Definition fork1 : prog Z :=
  pid ← sys Fork;
  if pid =? -1 then sh_panic "fork" else mret pid.

Section shell.
Context (buf : Z).

Fixpoint runcmd (m : mem) (c : cmd) : prog void :=
  match c with
  | EXEC [] => exit 1
  | EXEC (w :: argv) =>
      path ← lift (cstring m (buf + Z.of_nat w.1));
      args ← lift (mapM (fun w => cstring m (buf + Z.of_nat w.1)) (w :: argv));
      sys (Exec path args);;
      fprintf m 2 (line "exec %s failed") [A_str (buf + Z.of_nat w.1)];;
      exit 0
  | REDIR c file _ mode fd =>
      sys (Close fd);;
      r ← open m (buf + Z.of_nat file) mode;
      if r <? 0 then fprintf m 2 (line "open %s failed") [A_str (buf + Z.of_nat file)];; exit 1
      else runcmd m c
  | LIST lc rc =>
      pid ← fork1;
      if pid =? 0 then runcmd m lc
      else sys Wait;; runcmd m rc
  | PIPE lc rc =>
      '(r, p0, p1) ← sys User.Pipe;
      if r <? 0 then sh_panic "pipe" else
      pid ← fork1;
      if pid =? 0 then
        sys (Close 1);; sys (Dup p1);; sys (Close p0);; sys (Close p1);; runcmd m lc
      else
        pid ← fork1;
        if pid =? 0 then
          sys (Close 0);; sys (Dup p0);; sys (Close p0);; sys (Close p1);; runcmd m rc
        else
          sys (Close p0);; sys (Close p1);; sys Wait;; sys Wait;; exit 0
  | BACK c =>
      pid ← fork1;
      if pid =? 0 then runcmd m c else exit 0
  end.

(** Where [parsecmd] stops before the end of the line. *)
Definition leftovers (b : list Z) : option nat :=
  match parseline (4 * length b + 4) b 0 with
  | Ok (_, s) => let '(_, s) := peek b s "" in if Nat.eqb s (length b) then None else Some s
  | _ => None
  end.

(** [runcmd(parsecmd(buf))] *)
Definition runline (m : mem) : prog void :=
  b ← lift (cstring m buf);
  match parsecmd b with
  | Ok (c, b) => runcmd (wr m buf b) c
  | Err msg =>
      match leftovers b with
      | Some s => fprintf m 2 (Uprogs.line "leftovers: %s") [A_str (buf + Z.of_nat s)]
      | None => mret ()
      end;;
      sh_panic msg
  | NoFuel => fault
  end.

Definition getcmd (m : mem) (nbuf : Z) : prog (mem * Z) :=
  fprintf m 2 (bytes_of "$ ") [];;
  m ← lift (memset m buf 0 nbuf);
  m ← gets m buf nbuf;
  c ← lift (m !! buf);
  mret (m, if c =? 0 then -1 else 0).

(** Ensure that three file descriptors are open. *)
Definition open_console : prog unit :=
  ITree.iter (fun _ : unit =>
    fd ← sys (Open (bytes_of "console") O_RDWR);
    if fd >=? 0 then
      if fd >=? 3 then sys (Close fd);; mret (inr ()) else mret (inl ())
    else mret (inr ())) ().

Definition sh_main (m : mem) : prog void :=
  open_console;;
  ITree.iter (fun m =>
    '(m, r) ← getcmd m 100;
    if r <? 0 then exit 0 else
    c0 ← lift (m !! buf);
    c1 ← lift (m !! (buf + 1));
    c2 ← lift (m !! (buf + 2));
    if (c0 =? 99) && (c1 =? 100) && (c2 =? 32) then
      n ← lift (strlen m buf);
      m ← lift (Ulib.st m (buf + n - 1) 0);
      dir ← lift (cstring m (buf + 3));
      r ← sys (Chdir dir);
      (if r <? 0 then fprintf m 2 (line "cannot cd %s") [A_str (buf + 3)] else mret ());;
      mret (inl m)
    else
      pid ← fork1;
      if pid =? 0 then v ← runline m; match v : void with end
      else sys Wait;; mret (inl m)) m.

End shell.
