(* ===== verification/ShRunSpec.v ===== *)
(** * [user/sh.c]: what a command line does

    [plan] says what processes a command tree stands for: which programs are
    executed, with which standard input, output and error, who waits for
    whom.  [runcmd] behaves so, and every program it executes has just these
    three descriptors open, whatever pipes and redirections are around it. *)

From ITree Require Import ITree.
From S2P Require Import Prelude Defs Memory User Ulib UlibSpec Uprogs UprogsSpec Sh ShRound ShRun.

(** ** Processes and their descriptors *)

(** A process is named by the forks that lead to it, a pipe by the process
    that made it and how many it had made. *)
Definition pipe_id : Type := list bool * nat.

Inductive desc :=
| D_std (n : Z)
| D_file (path : list Z) (mode : Z)
| D_pipe_r (id : pipe_id)
| D_pipe_w (id : pipe_id).

Record pstate := mk_ps { ps_id : list bool; ps_pipes : nat; ps_fds : gmap Z desc }.

Definition ps_with (f : gmap Z desc -> gmap Z desc) (p : pstate) : pstate := mk_ps (ps_id p) (ps_pipes p) (f (ps_fds p)).
Definition ps_child (p : pstate) : pstate := mk_ps (ps_id p ++ [true]) (ps_pipes p) (ps_fds p).
Definition ps_parent (p : pstate) : pstate := mk_ps (ps_id p ++ [false]) (ps_pipes p) (ps_fds p).

(** What a process does: it executes a program, exits, forks, waits for a
    child, or writes. *)
Inductive beh :=
| B_exec (argv : list (list Z)) (fds : gmap Z desc)
| B_exit (n : Z)
| B_fork (child parent : beh)
| B_wait (fds : gmap Z desc) (rest : beh)
| B_write (d : option desc) (bytes : list Z) (rest : beh)
| B_stuck
| B_runs.

(** Which programs and files there are, and what [fork] and [wait] return. *)
Record senv := mk_senv { can_exec : list Z -> bool; can_open : list Z -> Z -> bool; se_pid : Z; se_wait : Z }.

(** The answer of the kernel to a call: [open], [dup] and [pipe] give out the
    lowest free descriptors. *)
Definition answer (E : senv) {T} (e : sysE T) (p : pstate) : (T -> pstate -> beh) -> beh :=
  match e in sysE T return (T -> pstate -> beh) -> beh with
  | Fork => fun k => B_fork (k 0 (ps_child p)) (k (se_pid E) (ps_parent p))
  | Exit n => fun _ => B_exit n
  | Wait => fun k => B_wait (ps_fds p) (k (se_wait E) p)
  | User.Pipe => fun k =>
      match lowest_fd (ps_fds p) with
      | None => k (-1, 0, 0) p
      | Some r =>
          let fds := <[r := D_pipe_r (ps_id p, ps_pipes p)]> (ps_fds p) in
          match lowest_fd fds with
          | None => k (-1, 0, 0) p
          | Some w => k (0, r, w) (mk_ps (ps_id p) (S (ps_pipes p)) (<[w := D_pipe_w (ps_id p, ps_pipes p)]> fds))
          end
      end
  | Write fd bytes => fun k => B_write (ps_fds p !! fd) bytes (k (Z.of_nat (length bytes)) p)
  | Close fd => fun k => k (match ps_fds p !! fd with Some _ => 0 | None => -1 end) (ps_with (delete fd) p)
  | Dup fd => fun k =>
      match ps_fds p !! fd, lowest_fd (ps_fds p) with
      | Some d, Some fd' => k fd' (ps_with <[fd' := d]> p)
      | _, _ => k (-1) p
      end
  | Open path mode => fun k =>
      match lowest_fd (ps_fds p) with
      | Some fd => if can_open E path mode then k fd (ps_with <[fd := D_file path mode]> p) else k (-1) p
      | None => k (-1) p
      end
  | Exec path argv => fun k => if can_exec E path then B_exec argv (ps_fds p) else k (-1) p
  | _ => fun _ => B_stuck
  end.

Fixpoint behave (E : senv) (fuel : nat) (t : prog void) (p : pstate) : beh :=
  match fuel with
  | O => B_runs
  | S fuel =>
      match observe t with
      | RetF v => match v with end
      | TauF u => behave E fuel u p
      | VisF e k => answer E e p (fun x p => behave E fuel (k x) p)
      end
  end.

(** ** The meaning of a command *)

Definition std_fds (i o r : desc) : gmap Z desc := <[0 := i]> (<[1 := o]> (<[2 := r]> ∅)).

Definition b_writes (d : desc) (l : list Z) (b : beh) : beh := foldr (fun c b => B_write (Some d) [c] b) b l.

(** [i], [o] and [r] are the standard input, output and error; [id] and [n]
    name the process and its next pipe. *)
Fixpoint plan (E : senv) (a : ast) (id : list bool) (n : nat) (i o r : desc) : beh :=
  match a with
  | A_exec [] => B_exit 1
  | A_exec (w :: args) =>
      if can_exec E w then B_exec (w :: args) (std_fds i o r)
      else b_writes r (bytes_of "exec " ++ w ++ bytes_of " failed" ++ [10]) (B_exit 0)
  | A_redir a w k =>
      let '(mode, fd) := rmode k in
      if can_open E w mode then
        if fd =? 0 then plan E a id n (D_file w mode) o r else plan E a id n i (D_file w mode) r
      else b_writes r (bytes_of "open " ++ w ++ bytes_of " failed" ++ [10]) (B_exit 1)
  | A_list a b =>
      B_fork (plan E a (id ++ [true]) n i o r)
        (B_wait (std_fds i o r) (plan E b (id ++ [false]) n i o r))
  | A_pipe a b =>
      B_fork (plan E a (id ++ [true]) (S n) i (D_pipe_w (id, n)) r)
        (B_fork (plan E b ((id ++ [false]) ++ [true]) (S n) (D_pipe_r (id, n)) o r)
           (B_wait (std_fds i o r) (B_wait (std_fds i o r) (B_exit 0))))
  | A_back a => B_fork (plan E a (id ++ [true]) n i o r) (B_exit 0)
  end.

(** ** Rules *)

(** With enough fuel the behaviour is [b]. *)
Definition ev (E : senv) (t : prog void) (p : pstate) (b : beh) : Prop :=
  exists N, forall n, (N <= n)%nat -> behave E n t p = b.

Section rules.
Context (E : senv).

Lemma behave_observe n t u p : observe t = observe u -> behave E n t p = behave E n u p.
Proof. intros H. destruct n; simpl; [done|]. by rewrite H. Qed.

Lemma ev_observe t u p b : observe t = observe u -> ev E u p b -> ev E t p b.
Proof. intros H [N HN]. exists N. intros n Hn. rewrite (behave_observe _ _ _ _ H). auto. Qed.

Lemma behave_sys {T} n (e : sysE T) (k : T -> prog void) p :
  behave E (S n) (sys e ≫= k) p = answer E e p (fun x p => behave E n (Ret x ≫= k) p).
Proof. cbn [behave]. by rewrite observe_bind. Qed.

Lemma behave_ret {A} n (x : A) (k : A -> prog void) p : behave E n (Ret x ≫= k) p = behave E n (k x) p.
Proof. apply behave_observe. by rewrite observe_bind. Qed.

Lemma ev_ret {A} (x : A) (k : A -> prog void) p b : ev E (k x) p b -> ev E (mret x ≫= k) p b.
Proof. apply ev_observe. by rewrite observe_bind. Qed.

Lemma ev_exit n p : ev E (exit n) p (B_exit n).
Proof. exists 1%nat. intros [|m] Hm; [lia|done]. Qed.

(** A call after which the process goes on with one answer. *)
Lemma ev_call {T} (e : sysE T) (k : T -> prog void) p x p' (f : beh -> beh) b :
  (forall K, answer E e p K = f (K x p')) -> ev E (k x) p' b -> ev E (sys e ≫= k) p (f b).
Proof.
  intros He [N HN]. exists (S N). intros [|n] Hn; [lia|]. rewrite behave_sys, He, behave_ret. f_equal. apply HN. lia.
Qed.

Lemma ev_step {T} (e : sysE T) (k : T -> prog void) p x p' b :
  (forall K, answer E e p K = K x p') -> ev E (k x) p' b -> ev E (sys e ≫= k) p b.
Proof. exact (ev_call e k p x p' (fun b => b) b). Qed.

Lemma ev_prints {A} (a : A) t l (k : A -> prog void) p d b :
  prints 2 a t l -> ps_fds p !! 2 = Some d -> ev E (k a) p b -> ev E (t ≫= k) p (b_writes d l b).
Proof.
  intros H Hd Hk. induction H as [t Et|t u l Et _ IH|t c k' l Et _ IH]; simpl.
  - eapply ev_observe; [|done]. by rewrite observe_bind, Et.
  - destruct IH as [N HN]. exists (S N). intros [|n] Hn; [lia|]. cbn [behave]. rewrite observe_bind, Et. apply HN. lia.
  - destruct (IH 1) as [N HN]. exists (S N). intros [|n] Hn; [lia|]. cbn [behave]. rewrite observe_bind, Et. simpl. rewrite Hd.
    f_equal. apply HN. lia.
Qed.

Lemma ev_fork1 (k : Z -> prog void) p bc bp :
  0 < se_pid E -> ev E (k 0) (ps_child p) bc -> ev E (k (se_pid E)) (ps_parent p) bp -> ev E (fork1 ≫= k) p (B_fork bc bp).
Proof.
  intros Hp [N1 H1] [N2 H2]. exists (S (N1 + N2)). intros [|n] Hn; [lia|]. cbn [behave]. unfold fork1. rewrite !observe_bind. simpl.
  f_equal.
  - rewrite (behave_observe _ _ (k 0)) by (rewrite !observe_bind; done). apply H1. lia.
  - rewrite (behave_observe _ _ (k (se_pid E))).
    + apply H2. lia.
    + rewrite !observe_bind. simpl. destruct (Z.eqb_spec (se_pid E) (-1)); [lia|]. done.
Qed.

End rules.

(** ** Descriptors *)

Lemma fds_redir0 i o r d : lowest_fd (delete 0 (std_fds i o r)) = Some 0 /\ <[0 := d]> (delete 0 (std_fds i o r)) = std_fds d o r.
Proof. split; vm_compute; reflexivity. Qed.

Lemma fds_redir1 i o r d : lowest_fd (delete 1 (std_fds i o r)) = Some 1 /\ <[1 := d]> (delete 1 (std_fds i o r)) = std_fds i d r.
Proof. split; vm_compute; reflexivity. Qed.

(** The descriptors after [pipe]. *)
Definition pipe_fds (i o r rd wr : desc) : gmap Z desc := <[4 := wr]> (<[3 := rd]> (std_fds i o r)).

Lemma fds_pipe i o r rd : lowest_fd (std_fds i o r) = Some 3 /\ lowest_fd (<[3 := rd]> (std_fds i o r)) = Some 4.
Proof. split; vm_compute; reflexivity. Qed.

Lemma fds_left i o r rd wr : lowest_fd (delete 1 (pipe_fds i o r rd wr)) = Some 1 /\ delete 1 (pipe_fds i o r rd wr) !! 4 = Some wr /\
  delete 4 (delete 3 (<[1 := wr]> (delete 1 (pipe_fds i o r rd wr)))) = std_fds i wr r.
Proof. split_and!; vm_compute; reflexivity. Qed.

Lemma fds_right i o r rd wr : lowest_fd (delete 0 (pipe_fds i o r rd wr)) = Some 0 /\ delete 0 (pipe_fds i o r rd wr) !! 3 = Some rd /\
  delete 4 (delete 3 (<[0 := rd]> (delete 0 (pipe_fds i o r rd wr)))) = std_fds rd o r.
Proof. split_and!; vm_compute; reflexivity. Qed.

Lemma fds_close i o r rd wr : delete 4 (delete 3 (pipe_fds i o r rd wr)) = std_fds i o r.
Proof. vm_compute. reflexivity. Qed.

(** ** [runcmd] *)

Section runcmd.
Context (E : senv) (buf : Z) (m : mem).

(** A word of the command is a string of the line. *)
Definition word_at (w : nat * nat) (s : list Z) : Prop := is_name m (buf + Z.of_nat w.1) s.

Lemma mapM_words argv args : Forall2 word_at argv args -> mapM (fun w => cstring m (buf + Z.of_nat w.1)) argv = Some args.
Proof.
  induction 1 as [|w s argv args Hw _ IH]; simpl; [done|]. rewrite (cstring_str _ _ s) by apply Hw. simpl. by rewrite IH.
Qed.

Lemma prints_failed (pre : list Z) w s : word_at w s -> Forall (fun c => c <> c_percent /\ is_byte c) pre ->
  prints 2 () (fprintf m 2 (pre ++ [c_percent; 115] ++ bytes_of " failed" ++ [10]) [A_str (buf + Z.of_nat w.1)])
    (pre ++ s ++ bytes_of " failed" ++ [10]).
Proof.
  intros (H1 & H2 & H3) Hpre. apply prints_vprintf. induction Hpre as [|c pre [Hc Hb] _ IH]; simpl; [|by constructor].
  apply formats_conv; [by constructor|]. by repeat constructor.
Qed.

Lemma ev_open path s mode (k : Z -> prog void) p b :
  is_str m path s -> ev E (sys (Open s mode) ≫= k) p b -> ev E (open m path mode ≫= k) p b.
Proof. intros Hs. apply ev_observe. unfold open. rewrite (cstring_str _ _ _ Hs), !observe_bind. done. Qed.

Lemma runcmd_exec argv args id n i o r : Forall2 word_at argv args ->
  ev E (runcmd buf m (EXEC argv)) (mk_ps id n (std_fds i o r)) (plan E (A_exec args) id n i o r).
Proof.
  intros H. destruct H as [|w s argv args Hw Hargs]; [apply ev_exit|]. cbn [runcmd].
  rewrite (mapM_words (w :: argv) (s :: args)) by by constructor. rewrite (cstring_str _ _ s) by apply Hw. apply ev_ret, ev_ret. cbn [plan].
  destruct (can_exec E s) eqn:Ex.
  - exists 1%nat. intros [|k] Hk; [lia|]. rewrite behave_sys. simpl. by rewrite Ex.
  - eapply ev_step; [intros K; simpl; by rewrite Ex|].
    eapply ev_prints; [by apply (prints_failed (bytes_of "exec ")); [|apply (bool_decide_unpack _); vm_compute]|done|apply ev_exit].
Qed.

Lemma runcmd_redir c q e k a w id n i o r :
  (forall i o, ev E (runcmd buf m c) (mk_ps id n (std_fds i o r)) (plan E a id n i o r)) -> word_at (q, e) w ->
  ev E (runcmd buf m (REDIR c q e (rmode k).1 (rmode k).2)) (mk_ps id n (std_fds i o r)) (plan E (A_redir a w k) id n i o r).
Proof.
  intros IH Hw. cbn [runcmd plan]. destruct (rmode k) as [mode fd] eqn:Ek. cbn [fst snd].
  assert (Hfail : forall fd, fd <> 2 -> ev E (fprintf m 2 (line "open %s failed") [A_str (buf + Z.of_nat q)];; exit 1)
    (mk_ps id n (delete fd (std_fds i o r))) (b_writes r (bytes_of "open " ++ w ++ bytes_of " failed" ++ [10]) (B_exit 1))).
  { intros fd' Hfd. eapply ev_prints; [by apply (prints_failed (bytes_of "open ") (q, e)); [|apply (bool_decide_unpack _); vm_compute]| |apply ev_exit].
    simpl. by rewrite lookup_delete_ne. }
  assert (Hfd : fd = 0 \/ fd = 1) by (destruct k; injection Ek as <- <-; auto).
  destruct Hfd as [-> | ->]; (eapply ev_step; [done|]); apply (ev_open _ w); try apply Hw.
  - destruct (fds_redir0 i o r (D_file w mode)) as [F1 F2]. destruct (can_open E w mode) eqn:Eo.
    + eapply ev_step; [intros K; simpl; by rewrite F1, Eo|]. simpl. unfold ps_with. simpl. rewrite F2. apply IH.
    + eapply ev_step; [intros K; simpl; by rewrite F1, Eo|]. by apply Hfail.
  - destruct (fds_redir1 i o r (D_file w mode)) as [F1 F2]. destruct (can_open E w mode) eqn:Eo.
    + eapply ev_step; [intros K; simpl; by rewrite F1, Eo|]. simpl. unfold ps_with. simpl. rewrite F2. apply IH.
    + eapply ev_step; [intros K; simpl; by rewrite F1, Eo|]. by apply Hfail.
Qed.

Lemma runcmd_pipe c1 c2 a1 a2 id n i o r :
  0 < se_pid E ->
  (forall id n i o r, ev E (runcmd buf m c1) (mk_ps id n (std_fds i o r)) (plan E a1 id n i o r)) ->
  (forall id n i o r, ev E (runcmd buf m c2) (mk_ps id n (std_fds i o r)) (plan E a2 id n i o r)) ->
  ev E (runcmd buf m (PIPE c1 c2)) (mk_ps id n (std_fds i o r)) (plan E (A_pipe a1 a2) id n i o r).
Proof.
  intros Hp IH1 IH2. cbn [runcmd plan]. set (rd := D_pipe_r (id, n)). set (w := D_pipe_w (id, n)).
  destruct (fds_pipe i o r rd) as [F1 F2].
  eapply ev_step; [intros K; simpl; rewrite F1; fold rd; by rewrite F2|]. cbv beta iota. change (0 <? 0) with false. cbv iota.
  cbn [ps_id ps_pipes ps_fds]. fold w. fold (pipe_fds i o r rd w). apply ev_fork1; [done| |].
  - destruct (fds_left i o r rd w) as (G1 & G2 & G3). change (0 =? 0) with true. cbv iota.
    eapply ev_step; [done|]. eapply ev_step; [intros K; unfold answer, ps_with; cbn [ps_fds ps_child ps_parent]; by rewrite G2, G1|]. eapply ev_step; [done|]. eapply ev_step; [done|].
    unfold ps_with, ps_child. simpl. rewrite G3. apply IH1.
  - destruct (Z.eqb_spec (se_pid E) 0); [lia|]. apply ev_fork1; [done| |].
    + destruct (fds_right i o r rd w) as (G1 & G2 & G3). change (0 =? 0) with true. cbv iota.
      eapply ev_step; [done|]. eapply ev_step; [intros K; unfold answer, ps_with; cbn [ps_fds ps_child ps_parent]; by rewrite G2, G1|]. eapply ev_step; [done|]. eapply ev_step; [done|].
      unfold ps_with, ps_child. simpl. rewrite G3. apply IH2.
    + destruct (Z.eqb_spec (se_pid E) 0); [lia|]. eapply ev_step; [done|]. eapply ev_step; [done|].
      unfold ps_with. simpl. rewrite fds_close.
      eapply (ev_call _ _ _ _ _ _ (B_wait (std_fds i o r))); [done|]. eapply (ev_call _ _ _ _ _ _ (B_wait (std_fds i o r))); [done|]. apply ev_exit.
Qed.

Lemma runcmd_plan c a id n i o r :
  0 < se_pid E -> tree word_at c a ->
  ev E (runcmd buf m c) (mk_ps id n (std_fds i o r)) (plan E a id n i o r).
Proof.
  intros Hp. revert a id n i o r.
  induction c as [argv|c IH q e mode fd|c1 IH1 c2 IH2|c1 IH1 c2 IH2|c IH]; intros a id n i o r Ht; destruct a as [args|a w k|a1 a2|a1 a2|a]; try done; simpl in Ht.
  - by apply runcmd_exec.
  - destruct Ht as (Ht & Hw & Hk). assert (mode = (rmode k).1 /\ fd = (rmode k).2) as [-> ->] by by rewrite <- Hk.
    apply runcmd_redir; [|done]. intros i' o'. by apply IH.
  - destruct Ht as [H1 H2]. apply runcmd_pipe; [done| |]; intros; [by apply IH1|by apply IH2].
  - destruct Ht as [H1 H2]. cbn [runcmd plan]. apply ev_fork1; [done|by apply IH1|].
    destruct (Z.eqb_spec (se_pid E) 0); [lia|]. eapply (ev_call _ _ _ _ _ _ (B_wait (std_fds i o r))); [done|]. by apply IH2.
  - cbn [runcmd plan]. apply ev_fork1; [done|by apply IH|]. destruct (Z.eqb_spec (se_pid E) 0); [lia|]. apply ev_exit.
Qed.

End runcmd.

(** ** A line *)

Lemma is_str_at m buf b q : Forall is_byte b -> m !! (buf + Z.of_nat (length b)) = Some 0 -> (q <= length b)%nat ->
  is_str (wr m buf b) (buf + Z.of_nat q) (string_at b q) /\ Forall is_byte (string_at b q).
Proof.
  intros Hb H0. unfold string_at. remember (length b - q)%nat as k eqn:Ek. revert q Ek. induction k as [|k IH]; intros q Ek Hq.
  - assert (q = length b) as -> by lia. rewrite drop_ge by lia. simpl. split; [|constructor]. by rewrite lookup_wr_out by lia.
  - destruct (lookup_lt_is_Some_2 b q) as [c Hc]; [lia|]. rewrite (drop_S _ _ _ Hc). simpl.
    assert (Hm : wr m buf b !! (buf + Z.of_nat q) = Some c) by (rewrite lookup_wr_in; [done|lia]).
    destruct (Z.eqb_spec c 0) as [->|Hne]; [split; [done|constructor]|]. destruct (IH (S q) ltac:(lia) ltac:(lia)) as [H1 H2].
    split; [|constructor; [|done]].
    + simpl. split_and!; [done|done|]. by replace (buf + Z.of_nat q + 1) with (buf + Z.of_nat (S q)) by lia.
    + rewrite Forall_lookup in Hb. by eapply Hb.
Qed.

Lemma string_at_lt b q : string_at b q <> [] -> (q < length b)%nat.
Proof. intros H. destruct (decide (q < length b)%nat); [done|]. unfold string_at in H. by rewrite drop_ge in H by lia. Qed.

(** The strings of a parsed line are in memory. *)
Lemma denotes_words buf m b c a : 0 < buf -> wf a -> Forall is_byte b -> m !! (buf + Z.of_nat (length b)) = Some 0 ->
  denotes b c a -> tree (word_at buf (wr m buf b)) c a.
Proof.
  intros Hbuf Hwf Hb H0. assert (Hw : forall w s, word s -> string_at b w.1 = s -> word_at buf (wr m buf b) w s).
  { intros w s [Hs _] E. destruct (is_str_at m buf b w.1 Hb H0) as [H1 H2]; [pose proof (string_at_lt b w.1); rewrite E in *; naive_solver lia|].
    rewrite E in H1, H2. split; [lia|done]. }
  revert a Hwf. unfold denotes.
  induction c as [argv|c IH q e mode fd|c1 IH1 c2 IH2|c1 IH1 c2 IH2|c IH]; intros [args|a w k|a1 a2|a1 a2|a] Hwf; try done; simpl in *.
  - intros H. destruct Hwf as [Hwf _]. revert Hwf. induction H as [|w s argv args Hws _ IH]; [constructor|].
    intros Hf. inversion Hf; subst. constructor; [by apply Hw|by apply IH].
  - intros (H1 & H2 & H3). destruct Hwf as [Hwf1 Hwf2]. split_and!; [by apply IH|by apply Hw|done].
  - intros [H1 H2]. destruct Hwf. split; [by apply IH1|by apply IH2].
  - intros [H1 H2]. destruct Hwf. split; [by apply IH1|by apply IH2].
  - intros H. by apply IH.
Qed.

Lemma zeros_bytes b l : Forall is_byte b -> length (zeros b l) = length b /\ Forall is_byte (zeros b l).
Proof.
  unfold zeros. revert b. induction l as [|e l IH]; intros b Hb; simpl; [done|].
  destruct (IH (<[e := 0]> b)) as [H1 H2]; [by apply Forall_insert|]. split; [|done]. by rewrite H1, length_insert.
Qed.

Lemma parsecmd_line l c b : parsecmd l = Ok (c, b) -> b = nulterminate c l.
Proof.
  unfold parsecmd. destruct (parseline _ l 0) as [[c' s]| |]; simpl; try done. destruct (peek l s "") as [p s'].
  destruct (negb _); [done|]. by intros [= <- <-].
Qed.

Lemma shell_runs E buf m a s id n i o r :
  wf a -> typed a s -> is_str m buf s -> Forall is_byte s -> 0 < buf -> 0 < se_pid E ->
  exists N, forall fuel, (N <= fuel)%nat ->
    behave E fuel (runline buf m) (mk_ps id n (std_fds i o r)) = plan E a id n i o r.
Proof.
  intros Hwf Hl Hs Hb Hbuf Hp. destruct (parses_line a s Hwf Hl) as (c & b & Hc & Hd).
  apply (ev_observe _ _ (runcmd buf (wr m buf b) c)).
  { unfold runline. rewrite (cstring_str _ _ _ Hs), observe_bind. simpl. by rewrite Hc. }
  apply runcmd_plan; [done|]. pose proof (parsecmd_line _ _ _ Hc) as Eb. rewrite nulterminate_zeros in Eb.
  destruct (zeros_bytes s (ends c) Hb) as [H1 H2]. rewrite <- Eb in H1, H2.
  apply denotes_words; [done|done|done| |done]. rewrite H1. by apply is_str_end.
Qed.


Definition sample_senv : senv := mk_senv (fun _ => true) (fun _ _ => true) 7 7.


(** ** Who holds the ends of a pipe *)

(** Some process of the tree has [d] open while it waits or when it executes
    a program. *)
Fixpoint holds (d : desc) (b : beh) : Prop :=
  match b with
  | B_exec _ fds => exists fd, fds !! fd = Some d
  | B_fork c p => holds d c \/ holds d p
  | B_wait fds rest => (exists fd, fds !! fd = Some d) \/ holds d rest
  | B_write _ _ rest => holds d rest
  | _ => False
  end.

(** The pipes made by a process and its descendants. *)
Definition below (id : list bool) (n : nat) (p : pipe_id) : Prop := id `prefix_of` p.1 /\ (p.1 = id -> (n <= p.2)%nat).

Lemma below_fork id n n' l p : l <> [] -> below (id ++ l) n' p -> below id n p.
Proof.
  intros Hl [[k Hk] _]. split.
  - rewrite Hk, <- app_assoc. by eexists.
  - intros E. rewrite Hk, <- app_assoc in E. apply (f_equal length) in E. rewrite !length_app in E. destruct l; [done|simpl in E; lia].
Qed.

Lemma below_S id n p : below id (S n) p -> below id n p.
Proof. intros [H1 H2]. split; [done|]. intros E. specialize (H2 E). lia. Qed.

(** The pipe a descriptor belongs to. *)
Definition pipe_of (d : desc) : option pipe_id :=
  match d with D_pipe_r p | D_pipe_w p => Some p | _ => None end.

Lemma holds_writes d r l b : holds d (b_writes r l b) <-> holds d b.
Proof. induction l as [|c l IH]; simpl; [done|exact IH]. Qed.

Lemma std_fds_in i o r d : (exists fd, std_fds i o r !! fd = Some d) -> d = i \/ d = o \/ d = r.
Proof. intros [fd H]. unfold std_fds in H. rewrite !lookup_insert_Some, lookup_empty in H. naive_solver. Qed.

Lemma plan_holds E a id n i o r d : holds d (plan E a id n i o r) ->
  d = i \/ d = o \/ d = r \/ match pipe_of d with Some p => below id n p | None => True end.
Proof.
  revert id n i o r. induction a as [args|a IH w k|a1 IH1 a2 IH2|a1 IH1 a2 IH2|a IH]; intros id n i o r; cbn [plan].
  - destruct args as [|w args]; [done|]. destruct (can_exec E w); [|by rewrite holds_writes]. intros H%std_fds_in. tauto.
  - destruct (rmode k) as [mode fd]. destruct (can_open E w mode); [|by rewrite holds_writes].
    destruct (fd =? 0); intros H%IH; naive_solver.
  - intros [H%IH1|[H%IH2|[H%std_fds_in|[H%std_fds_in|[]]]]]; try tauto.
    + destruct H as [->|[->|[->|H]]]; [tauto| |tauto|]; do 3 right; simpl; [split; simpl; [done|lia]|].
      destruct (pipe_of d); [|done]. by eapply below_fork in H.
    + destruct H as [->|[->|[->|H]]]; [|tauto|tauto|]; do 3 right; simpl; [split; simpl; [done|lia]|].
      destruct (pipe_of d); [|done]. rewrite <- app_assoc in H. by eapply below_fork in H.
  - intros [H%IH1|[H%std_fds_in|H%IH2]]; try tauto.
    + destruct H as [?|[?|[?|H]]]; try tauto. do 3 right. destruct (pipe_of d); [|done]. by eapply below_fork in H.
    + destruct H as [?|[?|[?|H]]]; try tauto. do 3 right. destruct (pipe_of d); [|done]. by eapply below_fork in H.
  - intros [H%IH|[]]. destruct H as [?|[?|[?|H]]]; try tauto. do 3 right. destruct (pipe_of d); [|done]. by eapply below_fork in H.
Qed.

Lemma below_own id n l p : l <> [] -> below (id ++ l) n p -> p.1 <> id.
Proof.
  intros Hl [[k Hk] _] E. rewrite E, <- app_assoc in Hk. apply (f_equal length) in Hk. rewrite !length_app in Hk. destruct l; [done|simpl in Hk; lia].
Qed.

(** C28: the ends of a pipe are where they belong.  When the shell runs
    [a | b], only processes of [a] keep the write end open and only
    processes of [b] the read end, however complex [a] and [b] are; the
    shell process that waits for both has neither.  So [b] sees the end of
    its input as soon as the processes of [a] are gone. *)
Theorem pipe_ends_closed E buf m a b s id n i o r :
  wf (A_pipe a b) -> typed (A_pipe a b) s -> is_str m buf s -> Forall is_byte s -> 0 < buf -> 0 < se_pid E ->
  (forall d, d = i \/ d = o \/ d = r -> pipe_of d <> Some (id, n)) ->
  exists L R W N, (forall fuel, (N <= fuel)%nat ->
      behave E fuel (runline buf m) (mk_ps id n (std_fds i o r)) = B_fork L (B_fork R W)) /\
    ~ holds (D_pipe_w (id, n)) R /\ ~ holds (D_pipe_w (id, n)) W /\
    ~ holds (D_pipe_r (id, n)) L /\ ~ holds (D_pipe_r (id, n)) W.
Proof.
  intros Hwf Hl Hs Hb Hbuf Hp Hio. destruct (shell_runs E buf m _ s id n i o r Hwf Hl Hs Hb Hbuf Hp) as [N HN].
  eexists _, _, _, N. split; [exact HN|].
  assert (Hown : forall d, d = i \/ d = o \/ d = r -> d <> D_pipe_w (id, n) /\ d <> D_pipe_r (id, n)).
  { intros d Hd%Hio. split; intros ->; by apply Hd. }
  destruct (Hown i) as [Hi1 Hi2]; [tauto|]. destruct (Hown o) as [Ho1 Ho2]; [tauto|]. destruct (Hown r) as [Hr1 Hr2]; [tauto|].
  assert (HW : forall d, (d = D_pipe_w (id, n) \/ d = D_pipe_r (id, n)) ->
    ~ holds d (B_wait (std_fds i o r) (B_wait (std_fds i o r) (B_exit 0)))).
  { intros d Hd [H%std_fds_in|[H%std_fds_in|[]]]; naive_solver. }
  split_and!; [|apply HW; tauto| |apply HW; tauto].
  - intros [H|[H|[H|H]]]%plan_holds; try congruence. simpl in H. rewrite <- app_assoc in H. apply (below_own _ _ _ (id, n)) in H; [by apply H|done].
  - intros [H|[H|[H|H]]]%plan_holds; try congruence. simpl in H. apply (below_own _ _ _ (id, n)) in H; [by apply H|done].
Qed.

(** [ls | wc] *)
Lemma pipe_ends_closed_witness :
  let a := A_pipe (A_exec [bytes_of "ls"]) (A_exec [bytes_of "wc"]) in
  exists L R W N, (forall fuel, (N <= fuel)%nat ->
      behave sample_senv fuel (runline 4096 (wr ∅ 4096 (show a ++ [0]))) (mk_ps [] 0 (std_fds (D_std 0) (D_std 1) (D_std 2))) =
        B_fork L (B_fork R W)) /\
    ~ holds (D_pipe_w ([], 0%nat)) R /\ ~ holds (D_pipe_w ([], 0%nat)) W /\
    ~ holds (D_pipe_r ([], 0%nat)) L /\ ~ holds (D_pipe_r ([], 0%nat)) W.
Proof.
  apply (pipe_ends_closed sample_senv 4096 _ (A_exec [bytes_of "ls"]) (A_exec [bytes_of "wc"]) (show (A_pipe (A_exec [bytes_of "ls"]) (A_exec [bytes_of "wc"]))) [] 0 (D_std 0) (D_std 1) (D_std 2)).
  - assert (Hw : forall w, bool_decide (word w) = true -> word w).
    { intros w H. by apply bool_decide_eq_true in H. }
    repeat split; try (constructor; [apply Hw; vm_compute; reflexivity|constructor]); cbn; unfold MAXARGS; lia.
  - apply typed_show.
  - apply is_str_wr. apply (bool_decide_unpack _). vm_compute. done.
  - unfold is_byte. apply (bool_decide_unpack _). vm_compute. done.
  - lia.
  - reflexivity.
  - intros d [->|[->| ->]]; discriminate.
Defined.
