(* ===== verification/Umalloc.v ===== *)
(** * [user/umalloc.c]: the memory allocator of user programs

    The heap is the memory that holds [Header]s, a pointer and a size per
    address; the contents of the blocks do not matter to the allocator.  A
    [Header] has 16 bytes.  [sbrk] is a parameter: from the current break and
    an increment, its result and the new break. *)

From S2P Require Import Prelude.

Definition sizeof_Header : Z := 16.

(** [p + n] for [Header *p] *)
Definition hplus (p n : Z) : Z := p + sizeof_Header * n.

Record heap := mk_heap {
  h_ptr : gmap Z Z;
  h_size : gmap Z Z;
  h_freep : Z;
  h_brk : Z }.

Definition get_ptr (h : heap) (p : Z) : Z := default 0 (h_ptr h !! p).
Definition get_size (h : heap) (p : Z) : Z := default 0 (h_size h !! p).
Definition put_ptr (p x : Z) (h : heap) : heap := mk_heap (<[p := x]> (h_ptr h)) (h_size h) (h_freep h) (h_brk h).
Definition put_size (p x : Z) (h : heap) : heap := mk_heap (h_ptr h) (<[p := x]> (h_size h)) (h_freep h) (h_brk h).
Definition put_freep (p : Z) (h : heap) : heap := mk_heap (h_ptr h) (h_size h) p (h_brk h).
Definition put_brk (b : Z) (h : heap) : heap := mk_heap (h_ptr h) (h_size h) (h_freep h) b.

(** The [for] loop of [free]: the block to put [bp] after. *)
Fixpoint free_place (fuel : nat) (h : heap) (bp p : Z) : option Z :=
  match fuel with
  | O => None
  | S fuel =>
      let nx := get_ptr h p in
      if (bp >? p) && (bp <? nx) then Some p
      else if (p >=? nx) && ((bp >? p) || (bp <? nx)) then Some p
      else free_place fuel h bp nx
  end.

(** The loops go around the list of blocks at most twice. *)
Definition heap_fuel (h : heap) : nat := (2 * size (h_ptr h) + 4)%nat.

Definition free (ap : Z) (h : heap) : option heap :=
  let bp := ap - sizeof_Header in
  match free_place (heap_fuel h) h bp (h_freep h) with
  | None => None
  | Some p =>
      let nx := get_ptr h p in
      let h :=
        if hplus bp (get_size h bp) =? nx
        then put_ptr bp (get_ptr h nx) (put_size bp (u32 (get_size h bp + get_size h nx)) h)
        else put_ptr bp nx h in
      let h :=
        if hplus p (get_size h p) =? bp
        then put_ptr p (get_ptr h bp) (put_size p (u32 (get_size h p + get_size h bp)) h)
        else put_ptr p bp h in
      Some (put_freep p h)
  end.

Section umalloc.
(** [&base], and the system call. *)
Context (base : Z) (sbrk : Z -> Z -> Z * Z).

(** The result, 0 on failure, and the heap; [None] when out of fuel. *)
Definition morecore (nu : Z) (h : heap) : option (Z * heap) :=
  let nu := if nu <? 4096 then 4096 else nu in
  let '(p, brk) := sbrk (h_brk h) (s32 (nu * sizeof_Header)) in
  let h := put_brk brk h in
  if p =? -1 then Some (0, h) else
  match free (hplus p 1) (put_size p nu h) with
  | None => None
  | Some h => Some (h_freep h, h)
  end.

Fixpoint malloc_loop (fuel : nat) (nunits prevp p : Z) (h : heap) : option (Z * heap) :=
  match fuel with
  | O => None
  | S fuel =>
      if get_size h p >=? nunits then
        if get_size h p =? nunits then
          Some (hplus p 1, put_freep prevp (put_ptr prevp (get_ptr h p) h))
        else
          let h := put_size p (u32 (get_size h p - nunits)) h in
          let q := hplus p (get_size h p) in
          Some (hplus q 1, put_freep prevp (put_size q nunits h))
      else if p =? h_freep h then
        match morecore nunits h with
        | None => None
        | Some (p, h) =>
            if p =? 0 then Some (0, h) else malloc_loop fuel nunits p (get_ptr h p) h
        end
      else malloc_loop fuel nunits p (get_ptr h p) h
  end.

Definition malloc_units (nbytes : Z) : Z := u32 ((nbytes + sizeof_Header - 1) / sizeof_Header + 1).

(** The heap with the list made at the first call. *)
Definition malloc_init (h : heap) : heap :=
  if h_freep h =? 0 then put_size base 0 (put_freep base (put_ptr base base h)) else h.

Definition malloc (nbytes : Z) (h : heap) : option (Z * heap) :=
  let nunits := malloc_units nbytes in
  let h := malloc_init h in
  let prevp := h_freep h in
  malloc_loop (2 * heap_fuel h + 4) nunits prevp (get_ptr h prevp) h.

End umalloc.
