(* ===== verification/UmallocSpec.v ===== *)
(** * The user allocator hands out disjoint blocks

    The free list is a ring through [base] in the order of the addresses; its
    blocks neither overlap nor touch.  [free] puts a block back and merges it
    with its neighbours, [malloc] takes one out or grows the heap. *)

From S2P Require Import Prelude Umalloc.

Lemma hplus_eq p n : hplus p n = p + 16 * n.
Proof. done. Qed.

(** ** The free list *)

(** Free blocks, with their number of units. *)
Definition blocks := list (Z * Z).

(** The last node of a path from [p] through [fl]. *)
Fixpoint endp (p : Z) (fl : blocks) : Z :=
  match fl with [] => p | (a, _) :: fl => endp a fl end.

(** The memory links [p] to the blocks of [fl], one after the other. *)
Fixpoint links (h : heap) (p : Z) (fl : blocks) : Prop :=
  match fl with
  | [] => True
  | (a, s) :: fl => h_ptr h !! p = Some a /\ h_size h !! a = Some s /\ links h a fl
  end.

(** The blocks of [fl] are in order, without overlap or contact, after [lo]. *)
Fixpoint sorted (lo : Z) (fl : blocks) : Prop :=
  match fl with
  | [] => True
  | (a, s) :: fl => lo < a /\ 1 <= s /\ sorted (hplus a s) fl
  end.

(** The end of the last block. *)
Fixpoint endx (lo : Z) (fl : blocks) : Z :=
  match fl with [] => lo | (a, s) :: fl => endx (hplus a s) fl end.

(** The addresses of the free blocks. *)
Definition covers (fl : blocks) (x : Z) : Prop := exists a s, (a, s) ∈ fl /\ a <= x < hplus a s.

Lemma endp_app p f1 f2 : endp p (f1 ++ f2) = endp (endp p f1) f2.
Proof. revert p. induction f1 as [|[a s] f1 IH]; intros p; simpl; auto. Qed.

Lemma links_app h p f1 f2 : links h p (f1 ++ f2) <-> links h p f1 /\ links h (endp p f1) f2.
Proof. revert p. induction f1 as [|[a s] f1 IH]; intros p; simpl; [tauto|]. rewrite IH. tauto. Qed.

Lemma sorted_app lo f1 f2 : sorted lo (f1 ++ f2) <-> sorted lo f1 /\ sorted (endx lo f1) f2.
Proof. revert lo. induction f1 as [|[a s] f1 IH]; intros lo; simpl; [tauto|]. rewrite IH. tauto. Qed.

Lemma sorted_weaken lo lo' fl : lo' <= lo -> sorted lo fl -> sorted lo' fl.
Proof. destruct fl as [|[a s] fl]; simpl; [done|]. intros ? (? & ? & ?). split_and!; [lia|done..]. Qed.

Lemma sorted_lt lo fl a s : sorted lo fl -> (a, s) ∈ fl -> lo < a /\ 1 <= s.
Proof.
  revert lo. induction fl as [|[b t] fl IH]; intros lo H Hin; [by apply not_elem_of_nil in Hin|].
  destruct H as (H1 & H2 & H3). apply elem_of_cons in Hin as [[= -> ->]|Hin]; [done|].
  apply (IH _ H3) in Hin as [H4 H5]. split; [|done]. unfold hplus, sizeof_Header in H4. lia.
Qed.

Lemma endp_elem p fl : endp p fl ∈ p :: fl.*1.
Proof.
  revert p. induction fl as [|[a s] fl IH]; intros p; simpl; [by left|]. right. apply IH.
Qed.

Lemma sorted_nodup lo fl : sorted lo fl -> NoDup (lo :: fl.*1).
Proof.
  revert lo. induction fl as [|[a s] fl IH]; intros lo H; simpl.
  - apply NoDup_singleton.
  - destruct H as (H1 & H2 & H3). assert (H4 : sorted a fl).
    { eapply sorted_weaken; [|exact H3]. unfold hplus, sizeof_Header. lia. }
    apply NoDup_cons. split; [|by apply IH].
    intros [->|Hin]%elem_of_cons; [lia|]. apply list_elem_of_fmap in Hin as ([b t] & E & Hb). simpl in E. subst b.
    apply (sorted_lt _ _ _ _ H4) in Hb. lia.
Qed.

Lemma endx_ge lo fl : sorted lo fl -> lo <= endx lo fl.
Proof.
  revert lo. induction fl as [|[a s] fl IH]; intros lo H; simpl; [lia|].
  destruct H as (H1 & H2 & H3). apply IH in H3. unfold hplus, sizeof_Header in *. lia.
Qed.

Lemma covers_app f1 f2 x : covers (f1 ++ f2) x <-> covers f1 x \/ covers f2 x.
Proof.
  unfold covers. setoid_rewrite elem_of_app. split.
  - intros (a & s & [H|H] & ?); [left|right]; eauto.
  - intros [(a & s & H & ?)|(a & s & H & ?)]; exists a, s; auto.
Qed.

Lemma covers_cons a s fl x : covers ((a, s) :: fl) x <-> a <= x < hplus a s \/ covers fl x.
Proof.
  unfold covers. setoid_rewrite elem_of_cons. split.
  - intros (b & t & [[= -> ->]|H] & ?); [by left|right; eauto].
  - intros [H|(b & t & H & ?)]; [exists a, s|exists b, t]; auto.
Qed.

(** Every block lies between the last bound and the end. *)
Lemma covers_range lo fl x : sorted lo fl -> covers fl x -> lo < x < endx lo fl.
Proof.
  revert lo. induction fl as [|[a s] fl IH]; intros lo H Hc.
  - destruct Hc as (a & s & Hin & _). by apply not_elem_of_nil in Hin.
  - destruct H as (H1 & H2 & H3). simpl. apply covers_cons in Hc as [Hc|Hc].
    + pose proof (endx_ge _ _ H3). lia.
    + apply (IH _ H3) in Hc. unfold hplus, sizeof_Header in *. lia.
Qed.

(** ** Changes of the memory *)

(** [h'] has the headers of [h] at the nodes of the path, up to the pointer of
    the last. *)
Lemma links_ext h h' p fl :
  NoDup (p :: fl.*1) -> links h p fl ->
  (forall x, x ∈ p :: fl.*1 -> x <> endp p fl -> h_ptr h' !! x = h_ptr h !! x) ->
  (forall x, x ∈ fl.*1 -> h_size h' !! x = h_size h !! x) -> links h' p fl.
Proof.
  revert p. induction fl as [|[a s] fl IH]; intros p Hnd H Hp Hs; [done|].
  destruct H as (H1 & H2 & H3). simpl in *. apply NoDup_cons in Hnd as [Hn Hnd]. split_and!.
  - rewrite Hp; [done|by left|]. intros ->. apply Hn, endp_elem.
  - rewrite Hs; [done|by left].
  - apply IH; [done|done|intros x Hx; apply Hp; by right|intros x Hx; apply Hs; by right].
Qed.

Lemma get_ptr_Some h p x : h_ptr h !! p = Some x -> get_ptr h p = x.
Proof. unfold get_ptr. by intros ->. Qed.

Lemma get_size_Some h p x : h_size h !! p = Some x -> get_size h p = x.
Proof. unfold get_size. by intros ->. Qed.

(** The pointers of the nodes are in the memory. *)
Lemma links_dom h p fl y x :
  links h p fl -> h_ptr h !! endp p fl = Some y -> x ∈ p :: fl.*1 -> is_Some (h_ptr h !! x).
Proof.
  revert p. induction fl as [|[a s] fl IH]; intros p H He Hx; simpl in *.
  - apply list_elem_of_singleton in Hx as ->. by eexists.
  - destruct H as (H1 & H2 & H3). apply elem_of_cons in Hx as [->|Hx]; [by eexists|by apply (IH a)].
Qed.

Lemma nodes_fuel h p fl y :
  NoDup (p :: fl.*1) -> links h p fl -> h_ptr h !! endp p fl = Some y -> (S (length fl) <= size (h_ptr h))%nat.
Proof.
  intros Hnd Hl He. rewrite <- (length_fmap fst fl). change (S (length fl.*1)) with (length (p :: fl.*1)).
  rewrite <- (size_list_to_set (C := gset Z)), <- size_dom by done. apply subseteq_size.
  intros x Hx. apply elem_of_list_to_set in Hx. apply elem_of_dom. by eapply links_dom.
Qed.

(** ** The search of [free] *)

Lemma place_before base h bp q g nx n :
  sorted q g -> links h q g -> h_ptr h !! endp q g = Some nx -> base <= q ->
  q < bp -> Forall (fun b => b.1 < bp) g -> (bp < nx \/ nx = base) ->
  free_place (S (length g) + n) h bp q = Some (endp q g).
Proof.
  revert q. induction g as [|[a s] g IH]; intros q Hs Hl He Hb Hq Hall Hnx.
  - simpl in He. cbn [length Nat.add free_place]. rewrite (get_ptr_Some _ _ _ He). simpl.
    rewrite Z.gtb_ltb, (proj2 (Z.ltb_lt q bp)) by lia. simpl. destruct (Z.ltb_spec bp nx); [done|].
    destruct Hnx as [ | ->]; [lia|]. rewrite Z.geb_leb, (proj2 (Z.leb_le base q)) by lia. done.
  - destruct Hs as (S1 & S2 & S3), Hl as (L1 & L2 & L3). apply Forall_cons in Hall as [Ha Hall]. simpl in Ha.
    change (S (length ((a, s) :: g)) + n)%nat with (S (S (length g) + n)). cbn [free_place].
    rewrite (get_ptr_Some _ _ _ L1). destruct (Z.ltb_spec bp a); [lia|]. rewrite andb_false_r.
    rewrite Z.geb_leb, (proj2 (Z.leb_gt a q)) by lia. simpl endp in *. simpl.
    apply IH; try done; [|lia]. eapply sorted_weaken; [|done]. unfold hplus, sizeof_Header. lia.
Qed.

Lemma place_after base h bp q g n :
  sorted q g -> links h q g -> h_ptr h !! endp q g = Some base -> base < bp -> bp < q ->
  free_place (S (length g) + n) h bp q = free_place n h bp base.
Proof.
  revert q. induction g as [|[a s] g IH]; intros q Hs Hl He Hb Hq.
  - simpl in He. cbn [length Nat.add free_place]. rewrite (get_ptr_Some _ _ _ He).
    rewrite Z.gtb_ltb, (proj2 (Z.ltb_ge q bp)) by lia. simpl.
    rewrite Z.geb_leb, (proj2 (Z.leb_le base q)), (proj2 (Z.ltb_ge bp base)) by lia. done.
  - destruct Hs as (S1 & S2 & S3), Hl as (L1 & L2 & L3).
    change (S (length ((a, s) :: g)) + n)%nat with (S (S (length g) + n)). cbn [free_place].
    rewrite (get_ptr_Some _ _ _ L1). rewrite Z.gtb_ltb, (proj2 (Z.ltb_ge q bp)) by lia. simpl.
    rewrite Z.geb_leb, (proj2 (Z.leb_gt a q)) by lia. simpl.
    apply IH; try done; [|lia]. eapply sorted_weaken; [|done]. unfold hplus, sizeof_Header. lia.
Qed.

(** The blocks before and after an address that is not a node. *)
Lemma split_at lo fl bp :
  sorted lo fl -> bp ∉ fl.*1 -> exists f1 f2, fl = f1 ++ f2 /\
    Forall (fun b => b.1 < bp) f1 /\ Forall (fun b => bp < b.1) f2.
Proof.
  revert lo. induction fl as [|[a s] fl IH]; intros lo Hs Hn; [by exists [], []|].
  destruct Hs as (S1 & S2 & S3). simpl in Hn. apply not_elem_of_cons in Hn as [Hne Hn].
  destruct (decide (a < bp)).
  - destruct (IH _ S3 Hn) as (f1 & f2 & -> & H1 & H2). exists ((a, s) :: f1), f2. split_and!; [done| |done].
    by constructor.
  - exists [], ((a, s) :: fl). split_and!; [done|constructor|]. constructor; [simpl; lia|].
    apply Forall_forall. intros [b t] Hb. apply (sorted_lt _ _ _ _ S3) in Hb. unfold hplus, sizeof_Header in Hb. simpl. lia.
Qed.

Lemma node_split p fl q : q ∈ p :: fl.*1 -> exists g1 g2, fl = g1 ++ g2 /\ endp p g1 = q.
Proof.
  revert p. induction fl as [|[a s] fl IH]; intros p Hq; simpl in Hq.
  - apply list_elem_of_singleton in Hq as ->. by exists [], [].
  - apply elem_of_cons in Hq as [->|Hq]; [by exists [], ((a, s) :: fl)|].
    destruct (IH a Hq) as (g1 & g2 & -> & E). by exists ((a, s) :: g1), g2.
Qed.

Lemma endp_ge lo fl : sorted lo fl -> lo <= endp lo fl.
Proof.
  revert lo. induction fl as [|[a s] fl IH]; intros lo H; simpl; [lia|].
  destruct H as (H1 & H2 & H3). enough (a <= endp a fl) by lia. apply IH.
  eapply sorted_weaken; [|exact H3]. unfold hplus, sizeof_Header. lia.
Qed.

Lemma endp_le_endx p lo fl : p <= lo -> sorted lo fl -> endp p fl <= endx lo fl.
Proof.
  revert p lo. induction fl as [|[a s] fl IH]; intros p lo Hp H; simpl; [done|].
  destruct H as (H1 & H2 & H3). apply IH; [|done]. unfold hplus, sizeof_Header. lia.
Qed.

(** ** The invariant *)

Definition ring (base : Z) (h : heap) (fl : blocks) : Prop :=
  links h base fl /\ h_ptr h !! endp base fl = Some base /\ sorted base fl.

Lemma ring_same base h h' fl : h_ptr h' = h_ptr h -> h_size h' = h_size h -> ring base h fl -> ring base h' fl.
Proof.
  intros E1 E2 (H1 & H2 & H3). split_and!; [|by rewrite E1|done].
  apply (links_ext h); [by apply sorted_nodup|done|by intros; rewrite E1|by intros; rewrite E2].
Qed.

(** The first node after the blocks [f1] of the list [f1 ++ f2]. *)
Definition next_of (base : Z) (f2 : blocks) : Z := match f2 with [] => base | (b, _) :: _ => b end.

Lemma ring_split base h f1 f2 :
  ring base h (f1 ++ f2) -> links h base f1 /\ links h (endp base f1) f2 /\
    h_ptr h !! endp base f1 = Some (next_of base f2) /\ h_ptr h !! endp (endp base f1) f2 = Some base /\
    sorted base f1 /\ sorted (endx base f1) f2.
Proof.
  intros (H1 & H2 & H3). apply links_app in H1 as [H1 H4]. apply sorted_app in H3 as [H3 H5].
  rewrite endp_app in H2. split_and!; try done. destruct f2 as [|[b t] f2]; [done|apply H4].
Qed.

Lemma free_place_ok base h f1 f2 bp q :
  ring base h (f1 ++ f2) -> Forall (fun b => b.1 < bp) f1 -> Forall (fun b => bp < b.1) f2 -> base < bp ->
  q ∈ base :: (f1 ++ f2).*1 -> free_place (heap_fuel h) h bp q = Some (endp base f1).
Proof.
  intros Hr Hf1 Hf2 Hb Hq. destruct (ring_split _ _ _ _ Hr) as (L1 & L2 & N1 & N2 & S1 & S2).
  destruct Hr as (Hl & He & Hs).
  pose proof (nodes_fuel h base (f1 ++ f2) base (sorted_nodup _ _ Hs) Hl He) as Hfuel. rewrite length_app in Hfuel.
  assert (Hnx : bp < next_of base f2 \/ next_of base f2 = base).
  { destruct f2 as [|[b t] f2]; [by right|left]. by apply Forall_cons in Hf2 as [? _]. }
  rewrite fmap_app, app_comm_cons in Hq. apply elem_of_app in Hq as [Hq|Hq].
  - destruct (node_split base f1 q Hq) as (g1 & g2 & -> & Eq). apply links_app in L1 as [_ L1].
    apply sorted_app in S1 as [S1a S1b]. rewrite Eq in L1. rewrite endp_app, Eq in *.
    pose proof (endp_le_endx base base g1 ltac:(lia) S1a) as Hle. pose proof (endp_ge _ _ S1a) as Hge. rewrite Eq in Hle, Hge.
    rewrite length_app in Hfuel. unfold heap_fuel.
    replace (2 * size (h_ptr h) + 4)%nat with (S (length g2) + (2 * size (h_ptr h) + 3 - length g2))%nat by lia.
    apply (place_before base h bp q g2 (next_of base f2)); try done.
    + eapply sorted_weaken; [|done]. lia.
    + destruct g1 as [|[a s] g1] using rev_ind; [simpl in Eq; lia|].
      rewrite endp_app in Eq. simpl in Eq. subst a. rewrite Forall_app, Forall_app in Hf1.
      destruct Hf1 as [[_ Hf1] _]. by apply Forall_cons in Hf1 as [? _].
    + by apply Forall_app in Hf1 as [_ ?].
  - assert (Hbq : bp < q).
    { apply list_elem_of_fmap in Hq as ([a s] & -> & Hin). rewrite Forall_forall in Hf2. by apply Hf2 in Hin. }
    destruct (node_split (endp base f1) f2 q) as (g1 & g2 & -> & Eq); [by right|].
    apply links_app in L2 as [_ L2]. rewrite endp_app, Eq in N2. rewrite Eq in L2.
    apply sorted_app in S2 as [S2a S2b]. rewrite length_app in Hfuel. unfold heap_fuel.
    assert (Hsq : sorted q g2).
    { eapply sorted_weaken; [|exact S2b]. rewrite <- Eq. apply endp_le_endx; [|done].
      by apply endp_le_endx. }
    replace (2 * size (h_ptr h) + 4)%nat with (S (length g2) + (S (length f1) + (2 * size (h_ptr h) + 2 - length g2 - length f1)))%nat by lia.
    rewrite (place_after base) by done. by apply (place_before base h bp base f1 (next_of base (g1 ++ g2))).
Qed.

(** [fl] are the free blocks, [al] the blocks handed out, with their units. *)
Record heap_ok (base : Z) (h : heap) (fl : blocks) (al : gmap Z Z) : Prop := {
  ok_ring : ring base h fl;
  ok_base : h_size h !! base = Some 0;
  ok_freep : h_freep h ∈ base :: fl.*1;
  ok_alloc a s : al !! a = Some s -> h_size h !! a = Some s /\ base < a /\ 1 <= s /\ hplus a s <= h_brk h;
  ok_free x : covers fl x -> x < h_brk h;
  ok_sep a s x : al !! a = Some s -> covers fl x -> ~ (a <= x < hplus a s);
  ok_disj a s b t : al !! a = Some s -> al !! b = Some t -> a <> b -> hplus a s <= b \/ hplus b t <= a;
  ok_lim : 0 < base /\ base < h_brk h <= 2 ^ 36 }.

(** ** Putting a block back *)

(** The path of [p] taken over by [q]. *)
Lemma links_move h h' p q f y :
  links h p f -> h_ptr h !! endp p f = Some y -> h_ptr h' !! q = h_ptr h !! p ->
  (forall x, x ∈ f.*1 -> h_ptr h' !! x = h_ptr h !! x /\ h_size h' !! x = h_size h !! x) ->
  links h' q f /\ h_ptr h' !! endp q f = Some y.
Proof.
  intros Hl He Hq Hx. revert p q Hl He Hq. induction f as [|[a s] f IH]; intros p q Hl He Hq; simpl in *.
  - by rewrite Hq.
  - destruct Hl as (L1 & L2 & L3). destruct (Hx a) as [Ha1 Ha2]; [by left|].
    destruct (IH ltac:(intros x H; apply Hx; by right) a a L3 He Ha1) as [I1 I2].
    rewrite Hq, Ha2. auto.
Qed.

(** The block [bp] with its [s] units, joined with what follows. *)
Definition join_right (base bp : Z) (f2 : blocks) (h : heap) : heap :=
  if hplus bp (get_size h bp) =? next_of base f2
  then put_ptr bp (get_ptr h (next_of base f2))
         (put_size bp (u32 (get_size h bp + get_size h (next_of base f2))) h)
  else put_ptr bp (next_of base f2) h.

Lemma join_right_ok base h f1 f2 bp s :
  ring base h (f1 ++ f2) -> h_size h !! bp = Some s -> 1 <= s -> 0 < base -> base < bp ->
  bp ∉ f2.*1 -> endp base f1 <> bp -> sorted (hplus bp s - 1) f2 -> (forall x, covers f2 x -> x < 2 ^ 36) ->
  let h' := join_right base bp f2 h in
  exists s' r, h_size h' !! bp = Some s' /\ links h' bp r /\ h_ptr h' !! endp bp r = Some base /\
    s <= s' /\ sorted (hplus bp s') r /\ bp ∉ r.*1 /\ (forall x, x ∈ r.*1 -> x ∈ f2.*1) /\
    (forall x, covers ((bp, s') :: r) x <-> bp <= x < hplus bp s \/ covers f2 x) /\
    (forall x, x <> bp -> h_ptr h' !! x = h_ptr h !! x /\ h_size h' !! x = h_size h !! x) /\
    h_freep h' = h_freep h /\ h_brk h' = h_brk h.
Proof.
  intros Hr Hsz Hs Hb0 Hb Hnin Hp Hso Hlim h'. destruct (ring_split _ _ _ _ Hr) as (L1 & L2 & N1 & N2 & _ & _).
  unfold h', join_right. rewrite (get_size_Some _ _ _ Hsz). pose proof (hplus_eq bp s) as Ebp.
  destruct (Z.eqb_spec (hplus bp s) (next_of base f2)) as [E|E].
  - destruct f2 as [|[b t] f2]; simpl in E; [lia|]. destruct L2 as (M1 & M2 & M3). destruct Hso as (O1 & O2 & O3).
    simpl in *. apply not_elem_of_cons in Hnin as [Hbn Hnin].
    assert (Ht : b + 16 * t - 1 < 2 ^ 36).
    { apply Hlim. exists b, t. split; [by left|]. rewrite hplus_eq. lia. }
    rewrite (get_size_Some _ _ _ M2), u32_id by lia.
    assert (Hframe : forall x, x <> bp -> h_ptr (put_ptr bp (get_ptr h b) (put_size bp (s + t) h)) !! x = h_ptr h !! x /\
      h_size (put_ptr bp (get_ptr h b) (put_size bp (s + t) h)) !! x = h_size h !! x).
    { intros x Hx. simpl. by rewrite !lookup_insert_ne by done. }
    exists (s + t), f2. destruct (links_move h (put_ptr bp (get_ptr h b) (put_size bp (s + t) h)) b bp f2 base) as [I1 I2]; try done.
    { simpl. rewrite lookup_insert_eq. destruct (links_dom h b f2 base b M3 N2) as [y Hy]; [by left|].
      by rewrite (get_ptr_Some _ _ _ Hy), Hy. }
    { intros x Hx. apply Hframe. by intros ->. }
    split_and!; try done.
    + apply lookup_insert_eq.
    + lia.
    + replace (hplus bp (s + t)) with (hplus b t) by (rewrite !hplus_eq; lia). done.
    + intros x Hx. by right.
    + intros x. rewrite !covers_cons, !hplus_eq.
      assert (bp <= x < bp + 16 * (s + t) <-> bp <= x < bp + 16 * s \/ b <= x < b + 16 * t) by lia. tauto.
  - assert (Hframe : forall x, x <> bp -> h_ptr (put_ptr bp (next_of base f2) h) !! x = h_ptr h !! x /\
      h_size (put_ptr bp (next_of base f2) h) !! x = h_size h !! x).
    { intros x Hx. simpl. by rewrite !lookup_insert_ne by done. }
    destruct (links_move h (put_ptr bp (next_of base f2) h) (endp base f1) bp f2 base) as [I1 I2]; try done.
    { simpl. by rewrite lookup_insert_eq. }
    { intros x Hx. apply Hframe. by intros ->. }
    exists s, f2. split_and!; try done.
    + destruct f2 as [|[b t] f2]; [done|]. destruct Hso as (O1 & O2 & O3). simpl in *. split_and!; [lia|done..].
    + intros x. rewrite covers_cons. done.
Qed.

(** The block [bp] joined with the block [p] before it. *)
Definition join_left (p bp : Z) (h : heap) : heap :=
  if hplus p (get_size h p) =? bp
  then put_ptr p (get_ptr h bp) (put_size p (u32 (get_size h p + get_size h bp)) h)
  else put_ptr p bp h.

Section left.
Context (base : Z) (h : heap) (f1 : blocks) (bp s : Z) (r : blocks).
Hypothesis (Hb0 : 0 < base) (Hb : base < bp).
Hypothesis (L1 : links h base f1) (S1 : sorted base f1) (Z1 : h_size h !! base = Some 0).
Hypothesis (Hf1 : Forall (fun b => b.1 < bp) f1) (Hend : endx base f1 <= bp).
Hypothesis (Z2 : h_size h !! bp = Some s) (Hs : 1 <= s) (L2 : links h bp r).
Hypothesis (E2 : h_ptr h !! endp bp r = Some base) (S2 : sorted (hplus bp s) r).
Hypothesis (Hlim : forall x, covers ((bp, s) :: r) x -> x < 2 ^ 36).

Lemma left_node_lt x : x ∈ base :: f1.*1 -> x < bp.
Proof using Hb Hf1.
  intros [->|Hx]%elem_of_cons; [done|]. apply list_elem_of_fmap in Hx as ([a t] & -> & Hin).
  rewrite Forall_forall in Hf1. by apply Hf1 in Hin.
Qed.

Lemma left_node_gt x : x ∈ r.*1 -> bp < x.
Proof using S2 Hs.
  intros Hx. apply list_elem_of_fmap in Hx as ([a t] & -> & Hin). apply (sorted_lt _ _ _ _ S2) in Hin.
  rewrite hplus_eq in Hin. simpl. lia.
Qed.

(** What [join_left] leaves behind, for the case that it does not join. *)
Lemma left_apart : endx base f1 < bp -> ring base (put_ptr (endp base f1) bp h) (f1 ++ (bp, s) :: r).
Proof using All.
  intros Hlt. set (p := endp base f1). set (h' := put_ptr p bp h).
  assert (Hp : p < bp) by apply left_node_lt, endp_elem.
  destruct (links_move h h' bp bp r base) as [I1 I2]; [done|done| | |].
  { simpl. by rewrite lookup_insert_ne by lia. }
  { intros x Hx%left_node_gt. simpl. by rewrite lookup_insert_ne by lia. }
  split_and!.
  - apply links_app. split.
    + apply (links_ext h); [by apply sorted_nodup|done| |done]. intros x _ Hx. simpl. by rewrite lookup_insert_ne.
    + simpl. rewrite lookup_insert_eq. done.
  - by rewrite endp_app.
  - apply sorted_app. split; [done|]. simpl. split_and!; [lia|done..].
Qed.

Lemma left_joined f p u :
  f1 = f ++ [(p, u)] -> hplus p u = bp ->
  ring base (put_ptr p (get_ptr h bp) (put_size p (u + s) h)) (f ++ (p, u + s) :: r).
Proof using All.
  intros E Hpu. set (h' := put_ptr _ _ _). rewrite E in *. apply links_app in L1 as [L1a (P1 & P2 & _)].
  pose proof (sorted_nodup _ _ S1) as Hnd. apply sorted_app in S1 as [S1a (O1 & O2 & _)].
  assert (Hp : p < bp) by (rewrite hplus_eq in Hpu; lia).
  assert (Hpf : p ∉ base :: f.*1).
  { rewrite fmap_app, app_comm_cons in Hnd. apply NoDup_app in Hnd as (_ & Hnd & _). intros Hin.
    apply (Hnd _ Hin). by left. }
  destruct (links_move h h' bp p r base) as [I1 I2]; [done|done| | |].
  { simpl. rewrite lookup_insert_eq. destruct (links_dom h bp r base bp L2 E2) as [y Hy]; [by left|].
    by rewrite (get_ptr_Some _ _ _ Hy), Hy. }
  { intros x Hx%left_node_gt. simpl. by rewrite !lookup_insert_ne by lia. }
  assert (Hq : endp base f <> p) by (intros Eq; apply Hpf; rewrite <- Eq; apply endp_elem).
  split_and!.
  - apply links_app. split.
    + apply (links_ext h); [by apply sorted_nodup|done|intros x Hx _|intros x Hx]; simpl;
        rewrite lookup_insert_ne; try done; intros <-; apply Hpf; [done|by right].
    + simpl. rewrite lookup_insert_ne, lookup_insert_eq by done. done.
  - by rewrite endp_app.
  - apply sorted_app. split; [done|]. simpl. split_and!; [done|lia|].
    replace (hplus p (u + s)) with (hplus bp s) by (rewrite !hplus_eq in *; lia). done.
Qed.

Lemma join_left_ok :
  let p := endp base f1 in
  let h' := join_left p bp h in
  exists fl t, ring base h' fl /\ p ∈ base :: fl.*1 /\ t ∈ fl.*2 /\ s <= t /\
    (forall x, covers fl x <-> covers f1 x \/ covers ((bp, s) :: r) x) /\
    (forall x, x <> p -> h_size h' !! x = h_size h !! x) /\ h_size h' !! base = Some 0 /\
    h_freep h' = h_freep h /\ h_brk h' = h_brk h.
Proof using All.
  intros p h'. unfold h', join_left.
  assert (Hpp : base <= p < bp) by (split; [by apply endp_ge|apply left_node_lt, endp_elem]).
  assert (Hcase : (f1 = [] /\ p = base /\ get_size h p = 0) \/
    (exists f u, f1 = f ++ [(p, u)] /\ get_size h p = u /\ h_size h !! p = Some u /\ 1 <= u /\ endx base f1 = hplus p u /\ p <> base)).
  { destruct f1 as [|[a u] f] using rev_ind; [left; split_and!; try done; by apply get_size_Some|right; exists f, u].
    assert (Ep : p = a) by (unfold p; by rewrite endp_app). rewrite Ep. apply links_app in L1 as [_ (P1 & P2 & _)].
    assert (Hx : endx base (f ++ [(a, u)]) = hplus a u) by (clear; generalize base; induction f as [|[c w] f IH]; intros lo; simpl; auto).
    apply sorted_app in S1 as [S1a (O1 & O2 & _)]. pose proof (endx_ge _ _ S1a).
    split_and!; try done; [by apply get_size_Some|lia]. }
  destruct (Z.eqb_spec (hplus p (get_size h p)) bp) as [E|E].
  - destruct Hcase as [(-> & -> & Eu)|(f & u & Ef & Eu & Ep & Hu & _ & Hpb)]; [rewrite Eu, hplus_eq in E; lia|].
    rewrite Eu in *. rewrite (get_size_Some _ _ _ Z2).
    assert (hplus bp s - 1 < 2 ^ 36).
    { apply Hlim, covers_cons. left. rewrite hplus_eq in *. lia. }
    rewrite u32_id by (rewrite hplus_eq in *; lia).
    exists (f ++ (p, u + s) :: r), (u + s). split_and!; try done.
    + by apply left_joined.
    + right. rewrite fmap_app. apply elem_of_app. right. by left.
    + rewrite fmap_app. apply elem_of_app. right. by left.
    + lia.
    + intros x. rewrite Ef, !covers_app, !covers_cons, !hplus_eq in *.
      assert (Hi : p <= x < p + 16 * (u + s) <-> p <= x < p + 16 * u \/ bp <= x < bp + 16 * s) by lia.
      assert (Hn : ~ covers [] x) by (intros (? & ? & ?%not_elem_of_nil & _); done). tauto.
    + intros x Hx. simpl. by rewrite lookup_insert_ne by done.
    + simpl. by rewrite lookup_insert_ne by done.
  - exists (f1 ++ (bp, s) :: r), s. split_and!; try done.
    + apply left_apart. destruct Hcase as [(-> & _ & _)|(f & u & Ef & Eu & Ep & Hu & Hx & _)]; [simpl; lia|].
      rewrite Hx, <- Eu in *. lia.
    + rewrite fmap_app, app_comm_cons. apply elem_of_app. left. apply endp_elem.
    + rewrite fmap_app. apply elem_of_app. right. by left.
    + intros x. apply covers_app.
Qed.

End left.

(** Bounds on the blocks around a block that is not free. *)
Lemma around base f1 f2 bp s :
  sorted base (f1 ++ f2) -> 1 <= s -> base < bp ->
  (forall x, covers (f1 ++ f2) x -> ~ (bp <= x < hplus bp s)) ->
  Forall (fun b => b.1 < bp) f1 -> Forall (fun b => bp < b.1) f2 ->
  endx base f1 <= bp /\ sorted (hplus bp s - 1) f2.
Proof.
  intros Hs H1 Hb Hc Hf1 Hf2. apply sorted_app in Hs as [S1 S2]. setoid_rewrite covers_app in Hc. split.
  - destruct f1 as [|[a u] f _] using rev_ind; [simpl; lia|]. apply Forall_app in Hf1 as [_ Ha].
    apply Forall_cons in Ha as [Ha _]. simpl in Ha. apply sorted_app in S1 as [_ (O1 & O2 & _)].
    assert (E : endx base (f ++ [(a, u)]) = hplus a u) by (clear; generalize base; induction f as [|[c w] f IH]; intros lo; simpl; auto).
    rewrite E. destruct (decide (hplus a u <= bp)); [done|exfalso]. apply (Hc bp).
    + left. apply covers_app. right. exists a, u. split; [by left|]. lia.
    + rewrite hplus_eq. lia.
  - destruct f2 as [|[b t] f2]; [done|]. destruct S2 as (O1 & O2 & O3). apply Forall_cons in Hf2 as [Hbb _]. simpl in *.
    split_and!; [|done..]. destruct (decide (hplus bp s <= b)); [lia|exfalso]. apply (Hc b); [|lia].
    right. exists b, t. split; [by left|]. rewrite hplus_eq. lia.
Qed.

(** A block that nobody has becomes free. *)
Lemma heap_ok_put base h h' fl fl' al bp s :
  heap_ok base h fl al -> ring base h' fl' -> h_size h' !! base = Some 0 -> h_freep h' ∈ base :: fl'.*1 ->
  (forall x, covers fl' x <-> covers fl x \/ bp <= x < hplus bp s) -> hplus bp s <= h_brk h ->
  (forall a t, al !! a = Some t -> hplus a t <= bp \/ hplus bp s <= a) ->
  (forall a t, al !! a = Some t -> h_size h' !! a = h_size h !! a) -> h_brk h' = h_brk h ->
  heap_ok base h' fl' al.
Proof.
  intros [K1 K2 K3 K4 K5 K6 K7 K8] Hr Hb Hf Hcov Hbrk Hal Hsz E. split; rewrite ?E; try done.
  - intros a u Ha. rewrite (Hsz a u Ha). by apply K4.
  - intros x Hx. apply Hcov in Hx as [Hx|Hx]; [auto|lia].
  - intros a u x Ha Hx Hin. apply Hcov in Hx as [Hx|Hx]; [by apply (K6 a u x)|]. destruct (Hal a u Ha); lia.
Qed.

Lemma free_block base h fl al bp s :
  heap_ok base h fl al -> h_size h !! bp = Some s -> 1 <= s -> base < bp -> hplus bp s <= h_brk h ->
  (forall x, covers fl x -> ~ (bp <= x < hplus bp s)) ->
  (forall a t, al !! a = Some t -> hplus a t <= bp \/ hplus bp s <= a) ->
  exists h' fl' t, free (hplus bp 1) h = Some h' /\ heap_ok base h' fl' al /\ t ∈ fl'.*2 /\ s <= t /\
    (forall x, covers fl' x <-> covers fl x \/ bp <= x < hplus bp s) /\ h_brk h' = h_brk h.
Proof.
  intros Hok Hz Hs Hb Hbrk Hc Hal. pose proof Hok as [K1 K2 K3 K4 K5 K6 K7 K8]. pose proof K1 as (_ & _ & Hso).
  assert (Hnode : bp ∉ fl.*1).
  { intros Hin. apply list_elem_of_fmap in Hin as ([a u] & E & Hin). simpl in E. subst a. apply (Hc bp); [|rewrite hplus_eq; lia].
    exists bp, u. split; [done|]. apply (sorted_lt _ _ _ _ Hso) in Hin. rewrite hplus_eq. lia. }
  destruct (split_at base fl bp Hso Hnode) as (f1 & f2 & -> & Hf1 & Hf2).
  destruct (around base f1 f2 bp s Hso Hs Hb Hc Hf1 Hf2) as [A1 A2].
  destruct (ring_split _ _ _ _ K1) as (L1 & L2 & N1 & N2 & S1 & S2).
  unfold free. replace (hplus bp 1 - sizeof_Header) with bp by (unfold hplus, sizeof_Header; lia).
  rewrite (free_place_ok base h f1 f2) by done. rewrite (get_ptr_Some _ _ _ N1). cbv zeta.
  set (p := endp base f1) in *. change (if hplus bp (get_size h bp) =? next_of base f2 then _ else _) with (join_right base bp f2 h).
  rewrite fmap_app, not_elem_of_app in Hnode. destruct Hnode as [Hn1 Hn2].
  assert (Hpb : p <> bp).
  { intros E. assert (Hin : p ∈ base :: f1.*1) by apply endp_elem. rewrite E in Hin.
    apply elem_of_cons in Hin as [->|Hin]; [lia|done]. }
  destruct (join_right_ok base h f1 f2 bp s) as (s' & r & R1 & R2 & R3 & R4 & R5 & R6 & R7 & R8 & R9 & R10 & R11); try done; try lia.
  { intros x Hx. specialize (K5 x). rewrite covers_app in K5. assert (x < h_brk h) by auto. lia. }
  set (h1 := join_right base bp f2 h) in *.
  change (if hplus p (get_size h1 p) =? bp then _ else _) with (join_left p bp h1).
  assert (Hcb : forall x, covers ((bp, s') :: r) x -> x < h_brk h).
  { intros x Hx. apply R8 in Hx as [Hx|Hx]; [lia|]. apply K5, covers_app. by right. }
  destruct (join_left_ok base h1 f1 bp s' r) as (fl' & t & J1 & J2 & J3 & J4 & J5 & J6 & J7 & J8 & J9); try done; try lia.
  { apply (links_ext h); [by apply sorted_nodup|done| |]; intros x Hx; intros; apply R9; intros ->;
      [apply elem_of_cons in Hx as [->|Hx]; [lia|done]|done]. }
  { destruct (R9 base) as [_ ->]; [lia|done]. }
  { intros x Hx%Hcb. lia. }
  exists (put_freep p (join_left p bp h1)), fl', t.
  assert (Hcov : forall x, covers fl' x <-> covers (f1 ++ f2) x \/ bp <= x < hplus bp s).
  { intros x. rewrite J5, R8, covers_app. tauto. }
  assert (Ebrk : h_brk (put_freep p (join_left p bp h1)) = h_brk h).
  { change (h_brk (join_left p bp h1) = h_brk h). unfold p. congruence. }
  split_and!; [done| |done|lia|done|done].
  apply (heap_ok_put base h _ (f1 ++ f2) fl' al bp s); try done; [by apply (ring_same base (join_left p bp h1))|].
  intros a u Ha. change (h_size (join_left p bp h1) !! a = h_size h !! a).
  destruct (K4 a u Ha) as (_ & Q2 & Q3 & _). rewrite J6; [apply R9|].
  - destruct (Hal a u Ha); rewrite !hplus_eq in *; lia.
  - intros ->. assert (Hin : p ∈ base :: f1.*1) by apply endp_elem. apply elem_of_cons in Hin as [Hin|Hin]; [lia|].
    apply list_elem_of_fmap in Hin as ([a w] & E & Hin). simpl in E. subst a. apply (K6 p u p Ha); [|rewrite hplus_eq; lia].
    apply covers_app. left. exists p, w. split; [done|]. apply (sorted_lt _ _ _ _ S1) in Hin. rewrite hplus_eq. lia.
Qed.

(** ** Taking a block out *)

(** The part of [malloc] that found the block [p] after [prevp]. *)
Definition take_block (nunits prevp p : Z) (h : heap) : Z * heap :=
  if get_size h p =? nunits then
    (hplus p 1, put_freep prevp (put_ptr prevp (get_ptr h p) h))
  else
    let h := put_size p (u32 (get_size h p - nunits)) h in
    let q := hplus p (get_size h p) in
    (hplus q 1, put_freep prevp (put_size q nunits h)).

Section take.
Context (base : Z) (h : heap) (f1 f2 : blocks) (a t n : Z) (al : gmap Z Z).
Hypothesis (Hok : heap_ok base h (f1 ++ (a, t) :: f2) al) (Hn : 1 <= n <= t).

Lemma take_facts :
  base < a /\ t < 2 ^ 32 /\ h_size h !! a = Some t /\ endp base f1 < a /\
  (forall x, a <= x < hplus a t -> covers (f1 ++ (a, t) :: f2) x) /\
  (forall x, covers f1 x \/ covers f2 x -> ~ (a <= x < hplus a t)).
Proof using Hok Hn.
  destruct Hok as [K1 K2 K3 K4 K5 K6 K7 K8]. destruct (ring_split _ _ _ _ K1) as (L1 & L2 & N1 & N2 & S1 & S2).
  destruct L2 as (P1 & P2 & P3). destruct S2 as (O1 & O2 & O3). pose proof (endx_ge _ _ S1).
  assert (Hcov : forall x, a <= x < hplus a t -> covers (f1 ++ (a, t) :: f2) x).
  { intros x Hx. apply covers_app. right. apply covers_cons. by left. }
  assert (hplus a t - 1 < h_brk h) by (apply K5, Hcov; rewrite hplus_eq; lia). rewrite hplus_eq in *.
  pose proof (endp_le_endx base base f1 ltac:(lia) S1).
  split_and!; try done; try lia. intros x [Hx|Hx].
  - apply (covers_range _ _ _ S1) in Hx. lia.
  - apply (covers_range _ _ _ O3) in Hx. lia.
Qed.

(** The whole block is taken. *)
Lemma take_whole : t = n ->
  ring base (put_ptr (endp base f1) (get_ptr h a) h) (f1 ++ f2).
Proof using Hok Hn.
  intros E. destruct take_facts as (T1 & T2 & T3 & T4 & _). destruct Hok as [K1 _ _ _ _ _ _ _].
  destruct (ring_split _ _ _ _ K1) as (L1 & (P1 & P2 & P3) & N1 & N2 & S1 & (O1 & O2 & O3)).
  set (p := endp base f1) in *. set (h' := put_ptr p (get_ptr h a) h). simpl in N2.
  assert (Hlt : forall x, x ∈ f2.*1 -> a < x).
  { intros x Hx. apply list_elem_of_fmap in Hx as ([b u] & -> & Hin). apply (sorted_lt _ _ _ _ O3) in Hin.
    rewrite hplus_eq in Hin. simpl. lia. }
  destruct (links_move h h' a p f2 base) as [I1 I2]; [done|done| | |].
  { simpl. rewrite lookup_insert_eq. destruct (links_dom h a f2 base a P3 N2) as [y Hy]; [by left|].
    by rewrite (get_ptr_Some _ _ _ Hy), Hy. }
  { intros x Hx%Hlt. simpl. by rewrite lookup_insert_ne by lia. }
  split_and!.
  - apply links_app. split; [|done]. apply (links_ext h); [by apply sorted_nodup|done| |done].
    intros x _ Hx. simpl. by rewrite lookup_insert_ne.
  - by rewrite endp_app.
  - apply sorted_app. split; [done|]. eapply sorted_weaken; [|exact O3]. rewrite hplus_eq. lia.
Qed.

(** The end of the block is taken. *)
Lemma take_part : n < t ->
  ring base (put_size (hplus a (t - n)) n (put_size a (t - n) h)) (f1 ++ (a, t - n) :: f2).
Proof using Hok Hn.
  intros E. destruct take_facts as (T1 & T2 & T3 & T4 & _ & T6). destruct Hok as [K1 _ _ _ _ _ _ _].
  destruct (ring_split _ _ _ _ K1) as (L1 & (P1 & P2 & P3) & N1 & N2 & S1 & (O1 & O2 & O3)).
  assert (Hq : forall x u, (x, u) ∈ f1 \/ (x, u) ∈ f2 -> x <> hplus a (t - n) /\ x <> a).
  { intros x u Hx. assert (Hc : covers f1 x \/ covers f2 x).
    { destruct Hx as [Hx|Hx]; [left|right]; exists x, u; (split; [done|]); rewrite hplus_eq;
        [apply (sorted_lt _ _ _ _ S1) in Hx|apply (sorted_lt _ _ _ _ O3) in Hx]; lia. }
    apply T6 in Hc. rewrite !hplus_eq in *. lia. }
  set (h' := put_size _ _ _).
  assert (Hsz : forall x u, (x, u) ∈ f1 \/ (x, u) ∈ f2 -> h_size h' !! x = h_size h !! x).
  { intros x u Hx. apply Hq in Hx as [Hx1 Hx2]. simpl. by rewrite !lookup_insert_ne by done. }
  split_and!.
  - apply links_app. split; [|simpl; split_and!; [done| |]].
    + apply (links_ext h); [by apply sorted_nodup|done|done|]. intros x Hx.
      apply list_elem_of_fmap in Hx as ([b u] & -> & Hin). apply (Hsz b u). by left.
    + rewrite lookup_insert_ne, lookup_insert_eq by (rewrite hplus_eq; lia). done.
    + apply (links_ext h); [|done|done|].
      * apply sorted_nodup. eapply sorted_weaken; [|exact O3]. rewrite hplus_eq. lia.
      * intros x Hx. apply list_elem_of_fmap in Hx as ([b u] & -> & Hin). apply (Hsz b u). by right.
  - rewrite endp_app in *. done.
  - apply sorted_app. split; [done|]. simpl. split_and!; [done|lia|].
    eapply sorted_weaken; [|exact O3]. rewrite !hplus_eq. lia.
Qed.

End take.

(** A free range becomes a block that is handed out. *)
Lemma heap_ok_take base h h' fl fl' al p n :
  heap_ok base h fl al -> ring base h' fl' -> h_size h' !! base = Some 0 -> h_freep h' ∈ base :: fl'.*1 ->
  (forall x, covers fl' x <-> covers fl x /\ ~ (p <= x < hplus p n)) ->
  (forall x, p <= x < hplus p n -> covers fl x) -> 1 <= n -> base < p -> h_size h' !! p = Some n ->
  (forall b u, al !! b = Some u -> h_size h' !! b = h_size h !! b) -> h_brk h' = h_brk h ->
  al !! p = None /\ heap_ok base h' fl' (<[p := n]> al).
Proof.
  intros [K1 K2 K3 K4 K5 K6 K7 K8] Hr Hb Hf Hc Hin Hn Hp Hsz Hal Hbrk.
  assert (Hout : forall b u x, al !! b = Some u -> b <= x < hplus b u -> ~ (p <= x < hplus p n)).
  { intros b u x Hbu Hx Hx'. by apply (K6 b u x Hbu (Hin x Hx')). }
  assert (Hnone : al !! p = None).
  { destruct (al !! p) as [u|] eqn:E; [|done]. exfalso. destruct (K4 p u E) as (_ & _ & ? & _).
    apply (Hout p u p E); rewrite hplus_eq; lia. }
  assert (Hdis : forall b u, al !! b = Some u -> hplus p n <= b \/ hplus b u <= p).
  { intros b u Hbu. destruct (K4 b u Hbu) as (_ & _ & Hu & _). pose proof (Hout b u b Hbu) as H1.
    pose proof (Hout b u p Hbu) as H2. rewrite !hplus_eq in *. lia. }
  split; [done|]. split; rewrite ?Hbrk; try done.
  - intros b u Hbu. destruct (decide (b = p)) as [->|Hne].
    + rewrite lookup_insert_eq in Hbu. injection Hbu as <-. split_and!; try done.
      assert (hplus p n - 1 < h_brk h) by (apply K5, Hin; rewrite hplus_eq; lia). lia.
    + rewrite lookup_insert_ne in Hbu by done. rewrite (Hal b u Hbu). by apply K4.
  - intros x Hx. apply K5. by apply Hc.
  - intros b u x Hbu Hx. apply Hc in Hx as [Hx1 Hx2]. destruct (decide (b = p)) as [->|Hne].
    + rewrite lookup_insert_eq in Hbu. by injection Hbu as <-.
    + rewrite lookup_insert_ne in Hbu by done. by apply (K6 b u x).
  - intros b u c w Hb1 Hc1 Hne. destruct (decide (b = p)) as [->|Hbp], (decide (c = p)) as [->|Hcp]; [done|..];
      rewrite ?lookup_insert_eq, ?lookup_insert_ne in * by done; simplify_eq; auto.
    destruct (Hdis b u Hb1); auto.
Qed.

Lemma take_ok base h f1 f2 a t n al :
  heap_ok base h (f1 ++ (a, t) :: f2) al -> 1 <= n <= t ->
  exists p fl' h', take_block n (endp base f1) a h = (hplus p 1, h') /\ al !! p = None /\
    heap_ok base h' fl' (<[p := n]> al) /\ h_brk h' = h_brk h /\
    (forall x, covers fl' x \/ p <= x < hplus p n <-> covers (f1 ++ (a, t) :: f2) x).
Proof.
  intros Hok Hn. destruct (take_facts base h f1 f2 a t n al Hok Hn) as (T1 & T2 & T3 & T4 & T5 & T6).
  unfold take_block. rewrite (get_size_Some _ _ _ T3).
  assert (Hal : forall b u, al !! b = Some u -> b <> a /\ b <> hplus a (t - n)).
  { intros b u Hbu. destruct (ok_alloc _ _ _ _ Hok b u Hbu) as (_ & _ & ? & _).
    pose proof (ok_sep _ _ _ _ Hok b u b Hbu) as H1. rewrite hplus_eq in *.
    split; intros ->; apply H1; try lia; apply T5; lia. }
  assert (Hbase : h_size h !! base = Some 0) by apply Hok.
  destruct (Z.eqb_spec t n) as [E|E].
  - set (h' := put_freep _ _). exists a, (f1 ++ f2), h'.
    assert (Hcov : forall x, covers (f1 ++ f2) x <-> covers (f1 ++ (a, t) :: f2) x /\ ~ (a <= x < hplus a n)).
    { intros x. rewrite !covers_app, covers_cons, <- E. specialize (T6 x). tauto. }
    destruct (heap_ok_take base h h' (f1 ++ (a, t) :: f2) (f1 ++ f2) al a n) as [H1 H2]; try done; try lia.
    + apply (ring_same base (put_ptr (endp base f1) (get_ptr h a) h)); [done|done|]. by apply (take_whole base h f1 f2 a t n al).
    + rewrite fmap_app, app_comm_cons. apply elem_of_app. left. apply endp_elem.
    + rewrite <- E. done.
    + by rewrite <- E.
    + split_and!; try done. intros x. rewrite Hcov. specialize (T5 x). rewrite <- E. destruct (decide (a <= x < hplus a t)); tauto.
  - rewrite u32_id by lia. cbv zeta.
    assert (Eg : get_size (put_size a (t - n) h) a = t - n) by (apply get_size_Some; apply lookup_insert_eq). rewrite Eg.
    set (q := hplus a (t - n)). set (h' := put_freep _ _). exists q, (f1 ++ (a, t - n) :: f2), h'.
    assert (Eq : hplus q n = hplus a t) by (unfold q; rewrite !hplus_eq; lia).
    assert (Hq : a < q) by (unfold q; rewrite hplus_eq; lia).
    assert (Hcov : forall x, covers (f1 ++ (a, t - n) :: f2) x <-> covers (f1 ++ (a, t) :: f2) x /\ ~ (q <= x < hplus q n)).
    { intros x. rewrite !covers_app, !covers_cons, Eq. specialize (T6 x). fold q.
      assert (a <= x < hplus a t <-> a <= x < q \/ q <= x < hplus a t) by (unfold q in *; rewrite !hplus_eq in *; lia).
      assert (~ (a <= x < q /\ q <= x < hplus a t)) by lia. tauto. }
    assert (Hblk : forall x, q <= x < hplus q n -> covers (f1 ++ (a, t) :: f2) x) by (intros x Hx; apply T5; lia).
    destruct (heap_ok_take base h h' (f1 ++ (a, t) :: f2) (f1 ++ (a, t - n) :: f2) al q n) as [H1 H2]; try done; try lia.
    + apply (ring_same base (put_size q n (put_size a (t - n) h))); [done|done|].
      apply (take_part base h f1 f2 a t n al); [done|done|lia].
    + simpl. by rewrite !lookup_insert_ne by lia.
    + rewrite fmap_app, app_comm_cons. apply elem_of_app. left. apply endp_elem.
    + apply lookup_insert_eq.
    + intros b u Hbu. apply Hal in Hbu as [? ?]. simpl. by rewrite !lookup_insert_ne by done.
    + split_and!; try done. intros x. rewrite Hcov. specialize (Hblk x). destruct (decide (q <= x < hplus q n)); tauto.
Qed.

(** ** The search of [malloc] *)

(** What [malloc] needs of [sbrk]: below 2 GiB it fails without effect, or
    returns the old break and moves it. *)
Class SbrkGrows (sbrk : Z -> Z -> Z * Z) : Prop :=
  sbrk_grows b n : 0 < b -> 0 < n -> b + n <= 2 ^ 31 -> sbrk b n = (-1, b) \/ sbrk b n = (b, b + n).

Section search.
Context (sbrk : Z -> Z -> Z * Z) `{!SbrkGrows sbrk} (base n : Z).

Lemma loop_take m q h :
  n <= get_size h (get_ptr h q) ->
  malloc_loop sbrk (S m) n q (get_ptr h q) h = Some (take_block n q (get_ptr h q) h).
Proof using.
  intros Hn. cbn [malloc_loop]. rewrite Z.geb_leb, (proj2 (Z.leb_le _ _)) by done.
  unfold take_block. by destruct (_ =? n).
Qed.

Lemma loop_next m q h :
  get_size h (get_ptr h q) < n -> get_ptr h q <> h_freep h ->
  malloc_loop sbrk (S m) n q (get_ptr h q) h = malloc_loop sbrk m n (get_ptr h q) (get_ptr h (get_ptr h q)) h.
Proof using.
  intros Hn Hne. cbn [malloc_loop]. rewrite Z.geb_leb, (proj2 (Z.leb_gt _ _)) by done.
  by rewrite (proj2 (Z.eqb_neq _ _)).
Qed.

(** The call of [morecore] and the rest of the loop. *)
Definition refill (m : nat) (h : heap) : option (Z * heap) :=
  match morecore sbrk n h with
  | None => None
  | Some (p, h) => if p =? 0 then Some (0, h) else malloc_loop sbrk m n p (get_ptr h p) h
  end.

Lemma loop_refill m q h :
  get_size h (get_ptr h q) < n -> get_ptr h q = h_freep h ->
  malloc_loop sbrk (S m) n q (get_ptr h q) h = refill m h.
Proof using.
  intros Hn He. cbn [malloc_loop]. rewrite Z.geb_leb, (proj2 (Z.leb_gt _ _)) by done.
  by rewrite (proj2 (Z.eqb_eq _ _)).
Qed.

(** Along the blocks of [g], none of them [freep]: the first that fits, or none. *)
Lemma walk h q g m :
  links h q g -> h_freep h ∉ g.*1 ->
  (exists g1 a t g2, g = g1 ++ (a, t) :: g2 /\ n <= t /\
     malloc_loop sbrk (length g + m) n q (get_ptr h q) h = Some (take_block n (endp q g1) a h)) \/
  (Forall (fun b => b.2 < n) g /\
     malloc_loop sbrk (length g + m) n q (get_ptr h q) h =
     malloc_loop sbrk m n (endp q g) (get_ptr h (endp q g)) h).
Proof using.
  revert q. induction g as [|[a t] g IH]; intros q Hl Hf; [by right|].
  destruct Hl as (L1 & L2 & L3). simpl in Hf. apply not_elem_of_cons in Hf as [Hf1 Hf2].
  apply get_ptr_Some in L1. apply get_size_Some in L2. cbn [length Nat.add].
  destruct (decide (n <= t)) as [Hn|Hn].
  - left. exists [], a, t, g. split_and!; [done|done|]. rewrite loop_take by (rewrite L1, L2; done). by rewrite L1.
  - rewrite loop_next by (rewrite L1, ?L2; first [lia|done]). rewrite L1.
    destruct (IH a L3 Hf2) as [(g1 & b & u & g2 & -> & Hu & E)|[Hall E]]; rewrite E.
    + left. by exists ((a, t) :: g1), b, u, g2.
    + right. split; [|done]. constructor; [simpl; lia|done].
Qed.

(** Once around the ring: a block that fits, or [morecore]. *)
Definition pass_result (h : heap) (fl : blocks) (m : nat) (r : option (Z * heap)) : Prop :=
  (exists f1 a t f2, fl = f1 ++ (a, t) :: f2 /\ n <= t /\ r = Some (take_block n (endp base f1) a h)) \/
  (Forall (fun b => b.2 < n) fl /\ r = refill m h).

Lemma pass h fl al m :
  heap_ok base h fl al -> 1 <= n ->
  pass_result h fl m (malloc_loop sbrk (S (length fl) + m) n (h_freep h) (get_ptr h (h_freep h)) h).
Proof using.
  intros [K1 K2 K3 _ _ _ _ _] Hn. pose proof K1 as (_ & _ & Hs). apply sorted_nodup in Hs.
  destruct (node_split _ _ _ K3) as (g1 & g2 & -> & Eq).
  destruct (ring_split _ _ _ _ K1) as (L1 & L2 & N1 & N2 & _ & _). rewrite Eq in L2, N1, N2.
  apply get_size_Some in K2. apply get_ptr_Some in N2. rewrite fmap_app, app_comm_cons in Hs.
  apply NoDup_app in Hs as (D1 & D2 & _).
  assert (Hf2 : h_freep h ∉ g2.*1) by (rewrite <- Eq; apply D2, endp_elem).
  rewrite length_app. replace (S (length g1 + length g2) + m)%nat with (length g2 + S (length g1 + m))%nat by lia.
  destruct (walk h (h_freep h) g2 (S (length g1 + m)) L2 Hf2) as [(f & a & t & f2 & -> & Ht & E)|[Hall2 E]]; rewrite E.
  { left. exists (g1 ++ f), a, t, f2. rewrite <- app_assoc, endp_app, Eq. auto. }
  destruct g1 as [|[c u] g1 _] using rev_ind.
  { simpl in Eq. cbn [length Nat.add app]. right. rewrite loop_refill; [done|rewrite N2, K2; lia|by rewrite N2]. }
  rewrite endp_app in Eq. simpl in Eq. subst c. apply links_app in L1 as [L1 (P1 & P2 & _)].
  apply get_ptr_Some in P1. apply get_size_Some in P2.
  rewrite fmap_app, app_comm_cons in D1. apply NoDup_app in D1 as (_ & D1 & _).
  assert (Hf1 : h_freep h ∉ base :: g1.*1) by (intros Hin; apply (D1 _ Hin); by left).
  apply not_elem_of_cons in Hf1 as [Hne Hf1].
  rewrite loop_next by (rewrite N2, ?K2; first [lia|done]). rewrite N2, length_app, <- Nat.add_assoc. cbn [length Nat.add].
  destruct (walk h base g1 (S m) L1 Hf1) as [(f & a & t & f2 & -> & Ht & E1)|[Hall1 E1]]; rewrite E1.
  { left. exists f, a, t, (f2 ++ (h_freep h, u) :: g2). by rewrite <- !app_assoc. }
  destruct (decide (n <= u)) as [Hu|Hu].
  - left. exists g1, (h_freep h), u, g2. rewrite <- app_assoc. split_and!; [done|done|].
    rewrite loop_take by (rewrite P1, P2; done). by rewrite P1.
  - right. split; [|rewrite loop_refill; [done|rewrite P1, P2; lia|done]].
    apply Forall_app. split; [|done]. apply Forall_app. split; [done|]. constructor; [simpl; lia|constructor].
Qed.

(** The headers of the heap lie below the break. *)
Lemma nodes_below h fl al x : heap_ok base h fl al -> x ∈ base :: fl.*1 -> 0 < x < h_brk h.
Proof using.
  intros [(_ & _ & Hs) _ _ _ K5 _ _ K8] Hx. apply elem_of_cons in Hx as [->|Hx]; [lia|].
  apply list_elem_of_fmap in Hx as ([a t] & -> & Hin). simpl. pose proof (sorted_lt _ _ _ _ Hs Hin).
  split; [lia|]. apply K5. exists a, t. rewrite hplus_eq. split; [done|lia].
Qed.

(** The header of a new block above the break. *)
Lemma heap_ok_grow h fl al s b' :
  heap_ok base h fl al -> h_brk h <= b' <= 2 ^ 36 ->
  heap_ok base (put_size (h_brk h) s (put_brk b' h)) fl al.
Proof using.
  intros Hok Hb. pose proof (nodes_below h fl al) as Hnb. pose proof Hok as [K1 K2 K3 K4 K5 K6 K7 K8].
  assert (Hne : forall x, x < h_brk h -> <[h_brk h := s]> (h_size h) !! x = h_size h !! x).
  { intros x Hx. apply lookup_insert_ne. lia. }
  split; simpl; try done; try lia.
  - destruct K1 as (R1 & R2 & R3). split_and!; try done. apply (links_ext h); try done; [by apply sorted_nodup|].
    intros x Hx. apply Hne. apply (Hnb x Hok). by right.
  - rewrite Hne by lia. done.
  - intros a t Ha. destruct (K4 a t Ha) as (? & ? & ? & ?). rewrite Hne; [split_and!; auto; lia|].
    rewrite hplus_eq in *. lia.
  - intros x Hx%K5. lia.
Qed.

Lemma free_size ap h h' : free ap h = Some h' -> (size (h_ptr h') <= size (h_ptr h) + 2)%nat.
Proof using.
  assert (Hi : forall (m : gmap Z Z) i x, (size (<[i := x]> m) <= S (size m))%nat).
  { intros m i x. rewrite map_size_insert. destruct (m !! i); simpl; lia. }
  unfold free. destruct (free_place _ _ _ _) as [p|]; [|done]. cbv zeta. intros [= <-].
  cbn [put_freep h_ptr]. repeat case_match; cbn [put_ptr put_size h_ptr];
    (etransitivity; [apply Hi|]); match goal with |- context [<[?i := ?x]> (h_ptr h)] => pose proof (Hi (h_ptr h) i x); lia end.
Qed.

(** The bytes [morecore] asks for. *)
Definition more_bytes : Z := 16 * Z.max 4096 n.

Lemma morecore_ok h fl al :
  heap_ok base h fl al -> 1 <= n -> h_brk h + more_bytes <= 2 ^ 31 ->
  morecore sbrk n h = Some (0, h) \/
  exists h' fl' t, morecore sbrk n h = Some (h_freep h', h') /\ heap_ok base h' fl' al /\ t ∈ fl'.*2 /\ n <= t /\
    (size (h_ptr h') <= size (h_ptr h) + 2)%nat /\ h_brk h < h_brk h' /\
    (forall x, covers fl' x <-> covers fl x \/ h_brk h <= x < h_brk h').
Proof using All.
  intros Hok Hn Hlim. pose proof (ok_lim _ _ _ _ Hok) as [? ?]. unfold morecore.
  assert (Enu : (if n <? 4096 then 4096 else n) = Z.max 4096 n) by (destruct (Z.ltb_spec n 4096); lia).
  rewrite Enu. set (nu := Z.max 4096 n) in *. unfold more_bytes in Hlim. fold nu in Hlim.
  replace (s32 (nu * sizeof_Header)) with (16 * nu) by (unfold sizeof_Header, s32; rewrite swrap_id; lia).
  destruct (sbrk_grows (h_brk h) (16 * nu)) as [-> | ->]; [lia..|left|right].
  - by destruct h.
  - rewrite (proj2 (Z.eqb_neq _ _)) by lia. set (h1 := put_size _ _ _).
    assert (Hok1 : heap_ok base h1 fl al) by (apply heap_ok_grow; [done|lia]).
    destruct (free_block base h1 fl al (h_brk h) nu Hok1) as (h' & fl' & t & E & F1 & F2 & F3 & F4 & F5).
    + apply lookup_insert_eq.
    + lia.
    + lia.
    + rewrite hplus_eq. simpl. lia.
    + intros x Hx%(ok_free _ _ _ _ Hok). lia.
    + intros a u Ha. left. by apply (ok_alloc _ _ _ _ Hok).
    + rewrite E. exists h', fl', t. apply free_size in E. simpl in F5.
      split_and!; [done|done|done|lia|exact E|lia|]. intros x. by rewrite F4, F5, hplus_eq.
Qed.

(** A new block, from the free ones or from the memory that [sbrk] added. *)
Definition allocated (h : heap) (fl : blocks) (al : gmap Z Z) (r : Z) (h' : heap) : Prop :=
  exists p fl', r = hplus p 1 /\ al !! p = None /\ heap_ok base h' fl' (<[p := n]> al) /\ h_brk h <= h_brk h' /\
    (h_brk h < h_brk h' -> Forall (fun b => b.2 < n) fl) /\
    (forall x, covers fl' x \/ p <= x < hplus p n <-> covers fl x \/ h_brk h <= x < h_brk h').

Lemma loop_ok h fl al m :
  heap_ok base h fl al -> 1 <= n -> h_brk h + more_bytes <= 2 ^ 31 -> (2 * size (h_ptr h) + 2 <= m)%nat ->
  malloc_loop sbrk m n (h_freep h) (get_ptr h (h_freep h)) h = Some (0, h) /\ Forall (fun b => b.2 < n) fl \/
  exists r h', malloc_loop sbrk m n (h_freep h) (get_ptr h (h_freep h)) h = Some (r, h') /\ allocated h fl al r h'.
Proof using All.
  intros Hok Hn Hlim Hm. pose proof (ok_ring _ _ _ _ Hok) as (Hl & He & Hs).
  pose proof (nodes_fuel h base fl base (sorted_nodup _ _ Hs) Hl He) as Hfuel.
  replace m with (S (length fl) + (m - S (length fl)))%nat by lia.
  destruct (pass h fl al (m - S (length fl)) Hok Hn) as [(f1 & a & t & f2 & E & Ht & ->)|[Hall ->]].
  { right. destruct (take_ok base h f1 f2 a t n al) as (p & fl' & h' & -> & T1 & T2 & T3 & T4); [by rewrite <- E|lia|].
    exists (hplus p 1), h'. split; [done|]. exists p, fl'. split_and!; try done; try lia.
    intros x. rewrite T4, E. assert (~ (h_brk h <= x < h_brk h')) by lia. tauto. }
  unfold refill. destruct (morecore_ok h fl al Hok Hn Hlim) as [->|(h1 & fl1 & u & -> & M1 & M2 & M3 & M4 & M5 & M6)].
  { left. by rewrite Z.eqb_refl. }
  right. pose proof (nodes_below h1 fl1 al _ M1 (ok_freep _ _ _ _ M1)).
  rewrite (proj2 (Z.eqb_neq _ _)) by lia. pose proof (ok_ring _ _ _ _ M1) as (Hl1 & He1 & Hs1).
  pose proof (nodes_fuel h1 base fl1 base (sorted_nodup _ _ Hs1) Hl1 He1) as Hfuel1.
  replace (m - S (length fl))%nat with (S (length fl1) + (m - S (length fl) - S (length fl1)))%nat by lia.
  destruct (pass h1 fl1 al (m - S (length fl) - S (length fl1)) M1 Hn) as [(f1 & a & t & f2 & E & Ht & ->)|[Hall1 _]].
  - destruct (take_ok base h1 f1 f2 a t n al) as (p & fl' & h' & -> & T1 & T2 & T3 & T4); [by rewrite <- E|lia|].
    exists (hplus p 1), h'. split; [done|]. exists p, fl'. split_and!; try done; try lia.
    intros x. by rewrite T4, <- E, M6, T3.
  - apply list_elem_of_fmap in M2 as (b & -> & Hin). rewrite Forall_forall in Hall1. apply Hall1 in Hin. lia.
Qed.

End search.

(** ** [malloc] and [free] *)

(** Before the first [malloc] there is no list. *)
Definition heap_inv (base : Z) (h : heap) (fl : blocks) (al : gmap Z Z) : Prop :=
  heap_ok base h fl al \/
  h_freep h = 0 /\ fl = [] /\ al = ∅ /\ 0 < base /\ base < h_brk h <= 2 ^ 36.

Lemma malloc_init_ok base h fl al :
  heap_inv base h fl al -> heap_ok base (malloc_init base h) fl al /\ h_brk (malloc_init base h) = h_brk h.
Proof.
  unfold malloc_init. intros [Hok|(Hf & -> & -> & Hb & Hlim)].
  - pose proof (nodes_below base h fl al _ Hok (ok_freep _ _ _ _ Hok)).
    by rewrite (proj2 (Z.eqb_neq _ _)) by lia.
  - rewrite Hf. split; [|done]. split; simpl; try done.
    + split_and!; simpl; [done|apply lookup_insert_eq|done].
    + apply lookup_insert_eq.
    + by left.
    + intros x (a & s & Hin & _). by apply not_elem_of_nil in Hin.
Qed.

Lemma malloc_units_ok nbytes :
  0 <= nbytes < 2 ^ 32 -> 1 <= malloc_units nbytes /\ nbytes <= 16 * (malloc_units nbytes - 1) < nbytes + 16.
Proof.
  intros H. unfold malloc_units, sizeof_Header. rewrite u32_id; [|split; [|apply Z.lt_add_lt_sub_r, Z.div_lt_upper_bound]]; try lia;
    Z.to_euclidean_division_equations; lia.
Qed.

Lemma malloc_rule sbrk `{!SbrkGrows sbrk} base h fl al nbytes :
  heap_inv base h fl al -> 0 <= nbytes < 2 ^ 32 -> h_brk h + more_bytes (malloc_units nbytes) <= 2 ^ 31 ->
  malloc base sbrk nbytes h = Some (0, malloc_init base h) /\ Forall (fun b => b.2 < malloc_units nbytes) fl \/
  exists r h', malloc base sbrk nbytes h = Some (r, h') /\ allocated base (malloc_units nbytes) h fl al r h'.
Proof.
  intros Hinv Hnb Hlim. destruct (malloc_init_ok _ _ _ _ Hinv) as [Hok Hbrk]. unfold malloc.
  destruct (loop_ok sbrk base (malloc_units nbytes) (malloc_init base h) fl al (2 * heap_fuel (malloc_init base h) + 4))
    as [[E H]|(r & h' & E & H)]; [done|by apply malloc_units_ok|by rewrite Hbrk|unfold heap_fuel; lia|by left|].
  right. exists r, h'. split; [exact E|]. unfold allocated in *. by rewrite Hbrk in H.
Qed.

Lemma heap_ok_delete base h fl al p : heap_ok base h fl al -> heap_ok base h fl (delete p al).
Proof.
  intros [K1 K2 K3 K4 K5 K6 K7 K8].
  assert (Hd : forall a s, delete p al !! a = Some s -> al !! a = Some s) by (intros a s [_ H]%lookup_delete_Some; done).
  split; eauto.
Qed.

Lemma free_rule base h fl al p s :
  heap_ok base h fl al -> al !! p = Some s ->
  exists h' fl', free (hplus p 1) h = Some h' /\ heap_ok base h' fl' (delete p al) /\ h_brk h' = h_brk h /\
    (forall x, covers fl' x <-> covers fl x \/ p <= x < hplus p s) /\ (exists t, t ∈ fl'.*2 /\ s <= t).
Proof.
  intros Hok Hp. destruct (ok_alloc _ _ _ _ Hok p s Hp) as (H1 & H2 & H3 & H4).
  destruct (free_block base h fl (delete p al) p s) as (h' & fl' & t & F1 & F2 & F3 & F4 & F5 & F6); try done.
  - by apply heap_ok_delete.
  - intros x Hx. by apply (ok_sep _ _ _ _ Hok p s).
  - intros a t [Hne Ha]%lookup_delete_Some. apply (ok_disj _ _ _ _ Hok a t p s); done.
  - exists h', fl'. eauto 7.
Qed.
