(* ===== verification/UmallocSafe.v ===== *)
(** * User programs with [malloc] and [free]

    The allocator over a run of a program that allocates, frees and writes to
    its blocks, and the system call under it: [sbrk] as [syscall] runs it. *)

From S2P Require Import Prelude Defs State Logic Memory Spinlock Sched Sleeplock Kalloc Vm PageTable UserMem Copy Uart Printf Console Bio Virtio VirtioSpec Log Fs Pipe File Csr Proc Exec Sysproc Sysfile Trap TrapSpec Umalloc UmallocSpec.

(** ** Runs of a program *)

Section run.
Context (sbrk : Z -> Z -> Z * Z) `{!SbrkGrows sbrk} (base : Z).

(** A call for [nbytes] that keeps the heap below 2 GiB. *)
Definition request_ok (h : heap) (nbytes : Z) : Prop :=
  0 <= nbytes < 2 ^ 32 /\ h_brk h + more_bytes (malloc_units nbytes) <= 2 ^ 31.

(** The heap and the blocks the program has, by the address of the header. *)
Inductive ustep : heap * gmap Z Z -> heap * gmap Z Z -> Prop :=
  | u_malloc h al nbytes r h' :
      request_ok h nbytes -> malloc base sbrk nbytes h = Some (r, h') -> r <> 0 ->
      ustep (h, al) (h', <[r - 16 := malloc_units nbytes]> al)
  | u_malloc_fails h al nbytes h' :
      request_ok h nbytes -> malloc base sbrk nbytes h = Some (0, h') -> ustep (h, al) (h', al)
  | u_free h al a s h' :
      al !! a = Some s -> free (hplus a 1) h = Some h' -> ustep (h, al) (h', delete a al)
  | u_write h al a s h' :
      al !! a = Some s -> h_freep h' = h_freep h -> h_brk h' = h_brk h ->
      (forall x, ~ (a < x < hplus a s) -> h_ptr h' !! x = h_ptr h !! x /\ h_size h' !! x = h_size h !! x) ->
      ustep (h, al) (h', al).

(** Every byte that [sbrk] added is free or in one block of the program. *)
Definition accounted (b0 : Z) (h : heap) (fl : blocks) (al : gmap Z Z) : Prop :=
  b0 <= h_brk h /\
  forall x, covers fl x \/ (exists a s, al !! a = Some s /\ a <= x < hplus a s) <-> b0 <= x < h_brk h.

Definition run_ok (b0 : Z) (st : heap * gmap Z Z) : Prop :=
  exists fl, heap_inv base st.1 fl st.2 /\ accounted b0 st.1 fl st.2.

(** Writes to a block change no header of the allocator. *)
Lemma write_ok h h' fl al a s :
  heap_ok base h fl al -> al !! a = Some s -> h_freep h' = h_freep h -> h_brk h' = h_brk h ->
  (forall x, ~ (a < x < hplus a s) -> h_ptr h' !! x = h_ptr h !! x /\ h_size h' !! x = h_size h !! x) ->
  heap_ok base h' fl al.
Proof using.
  intros [K1 K2 K3 K4 K5 K6 K7 K8] Ha Ef Eb Hx. destruct (K4 a s Ha) as (_ & Hba & Hs & _).
  pose proof K1 as (L1 & N1 & S1).
  assert (Hnode : forall x, x ∈ base :: fl.*1 -> ~ (a < x < hplus a s)).
  { intros x [->|Hin]%elem_of_cons Hax; [lia|]. apply list_elem_of_fmap in Hin as ([b t] & -> & Hin). simpl in *.
    apply (K6 a s b Ha); [|lia]. apply (sorted_lt _ _ _ _ S1) in Hin as Hlt. exists b, t. rewrite hplus_eq. split; [done|lia]. }
  split; rewrite ?Eb, ?Ef; try done.
  - split_and!; [|by destruct (Hx _ (Hnode _ (endp_elem base fl))) as [-> _]|done].
    apply (links_ext h); [by apply sorted_nodup|done| |]; intros x Hin; intros; apply Hx, Hnode; [done|by right].
  - destruct (Hx base) as [_ ->]; [lia|done].
  - intros b t Hb. destruct (K4 b t Hb) as (Q1 & Q2 & Q3 & Q4). split_and!; try done.
    destruct (Hx b) as [_ ->]; [|done]. destruct (decide (b = a)) as [->|Hne]; [lia|].
    destruct (K7 a s b t Ha Hb); [done|lia|]. rewrite hplus_eq in *. lia.
Qed.

Lemma malloc_accounted b0 h h' fl al n r :
  accounted b0 h fl al -> allocated base n h fl al r h' ->
  exists fl', heap_ok base h' fl' (<[r - 16 := n]> al) /\ accounted b0 h' fl' (<[r - 16 := n]> al).
Proof using.
  intros [Hb0 Hacc] (p & fl' & -> & Hp & Hok & Hbrk & _ & Hcov). exists fl'.
  replace (hplus p 1 - 16) with p by (rewrite hplus_eq; lia). split; [done|]. split; [lia|]. intros x.
  assert (E : (exists a s, <[p := n]> al !! a = Some s /\ a <= x < hplus a s) <->
              p <= x < hplus p n \/ exists a s, al !! a = Some s /\ a <= x < hplus a s).
  { split.
    - intros (a & s & [[<- <-]|[Hne Ha]]%lookup_insert_Some & Hx); [by left|right; eauto].
    - intros [Hx|(a & s & Ha & Hx)]; [exists p, n|exists a, s]; [by rewrite lookup_insert_eq|].
      rewrite lookup_insert_ne by congruence. done. }
  rewrite E. specialize (Hcov x). specialize (Hacc x).
  assert (b0 <= x < h_brk h' <-> b0 <= x < h_brk h \/ h_brk h <= x < h_brk h') as H by lia.
  clear -Hcov Hacc H. tauto.
Qed.

Lemma free_accounted b0 h h' fl fl' al p s :
  heap_ok base h fl al -> accounted b0 h fl al -> al !! p = Some s -> h_brk h' = h_brk h ->
  (forall x, covers fl' x <-> covers fl x \/ p <= x < hplus p s) -> accounted b0 h' fl' (delete p al).
Proof using.
  intros Hok [Hb0 Hacc] Hp Hbrk Hcov. split; [lia|]. intros x. rewrite Hcov, Hbrk, <- Hacc. split.
  - intros [[Hx|Hx]|(a & t & [_ Ha]%lookup_delete_Some & Hx)]; [by left|right; by exists p, s|right; by exists a, t].
  - intros [Hx|(a & t & Ha & Hx)]; [by left; left|]. destruct (decide (a = p)) as [->|Hne].
    + left; right. by simplify_eq.
    + right. exists a, t. by rewrite lookup_delete_ne.
Qed.

Lemma ustep_ok b0 st st' : run_ok b0 st -> ustep st st' -> run_ok b0 st'.
Proof using All.
  intros (fl & Hinv & Hacc) Hst. unfold run_ok.
  destruct Hst as [h al nb r h' [Hnb Hlim] E Hr|h al nb h' [Hnb Hlim] E|h al a s h' Ha E|h al a s h' Ha Ef Eb Hx]; simpl in *.
  - destruct (malloc_rule sbrk base h fl al nb Hinv Hnb Hlim) as [[E' _]|(r' & h1 & E' & H)]; simplify_eq.
    destruct (malloc_accounted b0 h h' fl al _ r Hacc H) as (fl' & H1 & H2). exists fl'. split; [by left|done].
  - destruct (malloc_rule sbrk base h fl al nb Hinv Hnb Hlim) as [[E' _]|(r' & h1 & E' & p & fl' & -> & H)].
    + simplify_eq. exists fl. destruct (malloc_init_ok _ _ _ _ Hinv) as [Hok Hbrk]. split; [by left|].
      destruct Hacc as [H1 H2]. split; by rewrite Hbrk.
    + destruct H as (_ & Hok & _). destruct (ok_alloc _ _ _ _ Hok p (malloc_units nb)) as (_ & ? & _); [apply lookup_insert_eq|].
      pose proof (ok_lim _ _ _ _ Hok). rewrite E' in E. simplify_eq. rewrite hplus_eq in *. lia.
  - destruct Hinv as [Hok|(_ & _ & -> & _)]; [|by rewrite lookup_empty in Ha].
    destruct (free_rule base h fl al a s Hok Ha) as (h1 & fl' & E' & H1 & H2 & H3 & _). simplify_eq.
    exists fl'. split; [by left|]. by eapply free_accounted.
  - destruct Hinv as [Hok|(_ & _ & -> & _)]; [|by rewrite lookup_empty in Ha].
    exists fl. split; [left; by eapply write_ok|]. destruct Hacc as [H1 H2]. split; by rewrite Eb.
Qed.

Lemma run_ok_rtc b0 st st' : rtc ustep st st' -> run_ok b0 st -> run_ok b0 st'.
Proof using All. induction 1; eauto using ustep_ok. Qed.

Lemma run_ok_start h0 :
  h_freep h0 = 0 -> 0 < base -> base < h_brk h0 <= 2 ^ 36 -> run_ok (h_brk h0) (h0, ∅).
Proof using.
  intros Hf Hb Hlim. exists []. split; [by right|]. split; [done|]. intros x.
  split; [intros [(a & s & Hin & _)|(a & s & Ha & _)]|simpl; lia]; [by apply not_elem_of_nil in Hin|done].
Qed.

(** With no block out, the ring is [base] and one block. *)
Lemma accounted_one b0 h fl :
  heap_ok base h fl ∅ -> accounted b0 h fl ∅ -> b0 < h_brk h ->
  h_ptr h !! base = Some b0 /\ 16 * get_size h b0 = h_brk h - b0.
Proof using.
  intros Hok [_ Hacc] Hb. destruct (ok_ring _ _ _ _ Hok) as (L1 & _ & S1).
  assert (Hc : forall x, covers fl x <-> b0 <= x < h_brk h).
  { intros x. rewrite <- Hacc. split; [by left|]. intros [Hx|(a & s & Ha & _)]; [done|by rewrite lookup_empty in Ha]. }
  destruct fl as [|[a s] fl].
  { destruct (proj2 (Hc b0)) as (a & s & Hin & _); [lia|by apply not_elem_of_nil in Hin]. }
  destruct S1 as (S1 & S2 & S3), L1 as (P1 & P2 & _). setoid_rewrite covers_cons in Hc.
  assert (Hrest : forall x, covers fl x -> hplus a s < x) by (intros x Hx; apply (covers_range _ _ _ S3 Hx)).
  assert (Ha : a = b0).
  { destruct (proj1 (Hc a)) as [H1 _]; [left; rewrite hplus_eq; lia|].
    destruct (proj2 (Hc b0)) as [H|H%Hrest]; [lia|lia|]. rewrite hplus_eq in *. lia. }
  subst a. split; [done|]. rewrite (get_size_Some _ _ _ P2).
  assert (Hlast : hplus b0 s - 1 < h_brk h) by (apply Hc; left; rewrite hplus_eq; lia).
  destruct (decide (hplus b0 s < h_brk h)) as [Hlt|]; [|rewrite hplus_eq in *; lia].
  destruct (proj2 (Hc (hplus b0 s))) as [?|H%Hrest]; rewrite ?hplus_eq in *; lia.
Qed.

(** [malloc] terminates on every well-formed heap, from the first call on.
    It returns null only when no free block is big enough and [sbrk] failed,
    and then the heap is as it was.  Otherwise the [nbytes] after the result
    lie in a new block, which was free or is new from [sbrk], and so the other
    blocks of the program keep their memory; the heap only grows when no free
    block is big enough. *)
Theorem malloc_spec h fl al nbytes :
  heap_inv base h fl al -> request_ok h nbytes ->
  exists r h', malloc base sbrk nbytes h = Some (r, h') /\
    (r = 0 /\ heap_ok base h' fl al /\ h_brk h' = h_brk h /\ Forall (fun b => b.2 < malloc_units nbytes) fl \/
     exists p fl', r = hplus p 1 /\ r + nbytes <= hplus p (malloc_units nbytes) /\ al !! p = None /\
       heap_ok base h' fl' (<[p := malloc_units nbytes]> al) /\
       (h_brk h' = h_brk h \/ Forall (fun b => b.2 < malloc_units nbytes) fl) /\
       (forall x, covers fl' x \/ p <= x < hplus p (malloc_units nbytes) <->
                  covers fl x \/ h_brk h <= x < h_brk h')).
Proof using All.
  intros Hinv [Hnb Hlim]. pose proof (malloc_units_ok nbytes Hnb) as [_ Hu].
  destruct (malloc_rule sbrk base h fl al nbytes Hinv Hnb Hlim) as [[E Hall]|(r & h' & E & H)].
  - exists 0, (malloc_init base h). split; [done|left]. destruct (malloc_init_ok _ _ _ _ Hinv). auto.
  - exists r, h'. split; [done|right]. destruct H as (p & fl' & -> & H1 & H2 & H3 & H4 & H5). exists p, fl'.
    split_and!; try done; [rewrite !hplus_eq; lia|].
    destruct (decide (h_brk h' = h_brk h)); [by left|right; apply H4; lia].
Qed.

(** C34: in every run of a program from its start in which the heap stays
    below 2 GiB, the blocks it has are
    disjoint, keep their size and lie below the break; a block can always be
    freed; a request ends with null or with a block apart from all others.
    When the program has freed everything, all the memory from [sbrk] is again
    one free block. *)
Theorem allocator_safe h0 h al :
  h_freep h0 = 0 -> 0 < base -> base < h_brk h0 <= 2 ^ 36 -> rtc ustep (h0, ∅) (h, al) ->
  (forall a s b t, al !! a = Some s -> al !! b = Some t -> a <> b -> hplus a s <= b \/ hplus b t <= a) /\
  (forall a s, al !! a = Some s -> h_size h !! a = Some s /\ h_brk h0 <= a /\ hplus a s <= h_brk h) /\
  (forall a s, al !! a = Some s -> exists h', free (hplus a 1) h = Some h') /\
  (forall nbytes, request_ok h nbytes -> exists r h', malloc base sbrk nbytes h = Some (r, h') /\
     (r = 0 \/ forall a s, al !! a = Some s -> hplus a s <= r - 16 \/ r + nbytes <= a)) /\
  (al = ∅ -> h_brk h0 < h_brk h ->
     h_ptr h !! base = Some (h_brk h0) /\ 16 * get_size h (h_brk h0) = h_brk h - h_brk h0).
Proof using All.
  intros Hf Hb Hlim Hrun. assert (run_ok (h_brk h0) (h, al)) as (fl & Hinv & Hacc).
  { apply (run_ok_rtc _ (h0, ∅)); [done|by apply run_ok_start]. }
  simpl in *. split_and!.
  - intros a s b t Ha. destruct Hinv as [Hok|(_ & _ & -> & _)]; [by apply Hok|by rewrite lookup_empty in Ha].
  - intros a s Ha. destruct Hinv as [Hok|(_ & _ & -> & _)]; [|by rewrite lookup_empty in Ha].
    destruct (ok_alloc _ _ _ _ Hok a s Ha) as (? & ? & ? & ?). split_and!; try done.
    apply (proj2 Hacc a). right. exists a, s. rewrite hplus_eq. split; [done|lia].
  - intros a s Ha. destruct Hinv as [Hok|(_ & _ & -> & _)]; [|by rewrite lookup_empty in Ha].
    destruct (free_rule base h fl al a s Hok Ha) as (h' & _ & E & _). by exists h'.
  - intros nb [Hnb Hlim']. pose proof (malloc_units_ok nb Hnb) as [Hu1 Hu].
    destruct (malloc_rule sbrk base h fl al nb Hinv Hnb Hlim') as [[E _]|(r & h' & E & p & fl' & -> & Hp & Hok & _)].
    + eexists _, _. split; [exact E|by left].
    + exists (hplus p 1), h'. split; [done|right]. intros a s Ha.
      destruct (ok_disj _ _ _ _ Hok a s p (malloc_units nb)) as [|]; rewrite ?lookup_insert_eq; try done;
        [by rewrite lookup_insert_ne by congruence|congruence|..]; rewrite !hplus_eq in *; lia.
  - intros -> Hlt. destruct Hinv as [Hok|(Hf' & -> & _)]; [by apply (accounted_one (h_brk h0) h fl)|].
    destruct (proj2 (proj2 Hacc (h_brk h0))) as [(a & s & Hin & _)|(a & s & Ha & _)]; [lia|by apply not_elem_of_nil in Hin|done].
Qed.

(** Memory that is freed can be had again: after [free] of a block, a
    request that fits in it succeeds without growing the heap, and what is
    free afterwards is what was free or in the old block, less the new one. *)
Theorem free_malloc_reuse h fl al p s nbytes :
  heap_ok base h fl al -> al !! p = Some s -> request_ok h nbytes -> malloc_units nbytes <= s ->
  exists h1 q h2 fl2, free (hplus p 1) h = Some h1 /\ malloc base sbrk nbytes h1 = Some (hplus q 1, h2) /\
    h_brk h2 = h_brk h /\ heap_ok base h2 fl2 (<[q := malloc_units nbytes]> (delete p al)) /\
    (forall x, covers fl2 x \/ q <= x < hplus q (malloc_units nbytes) <-> covers fl x \/ p <= x < hplus p s).
Proof using All.
  intros Hok Hp [Hnb Hlim] Hs. destruct (free_rule base h fl al p s Hok Hp) as (h1 & fl1 & E1 & F1 & F2 & F3 & t & Ht & Hst).
  assert (Hfit : ~ Forall (fun b => b.2 < malloc_units nbytes) fl1).
  { apply list_elem_of_fmap in Ht as (b & -> & Hin). rewrite Forall_forall. intros H. apply H in Hin. lia. }
  rewrite <- F2 in Hlim. exists h1.
  destruct (malloc_rule sbrk base h1 fl1 _ nbytes (or_introl F1) Hnb Hlim) as [[_ H]|(r & h2 & E2 & q & fl2 & -> & H)]; [done|].
  destruct H as (_ & H2 & H3 & H4 & H5). exists q, h2, fl2.
  assert (Hbrk : h_brk h2 = h_brk h1) by (destruct (decide (h_brk h1 < h_brk h2)); [exfalso; auto|lia]).
  split_and!; try done; [lia|]. intros x. rewrite H5, F3.
  assert (~ (h_brk h1 <= x < h_brk h2)) by lia. tauto.
Qed.

End run.

(** ** The system call *)

(** [sbrk] for a positive [n], as user code sees it: the result, and the
    new size of the process.  The result is the size cut to an [int]. *)
Definition sbrk_up (b n : Z) : Z * Z := (s32 b, u64 (b + n)).

#[export] Instance sbrk_up_grows : SbrkGrows sbrk_up.
Proof.
  intros b n Hb Hn Hlim. right. unfold sbrk_up, s32. rewrite swrap_id by lia. by rewrite u64_id by lia.
Qed.

Section syscall.
Context {D : DiskDriver} {L : Linker}.

(** The registers of the process are in RAM. *)
Definition tf_ok (p : nat) (k : kernel) : Prop :=
  (p < length (procs k))%nat /\ KERNBASE <= p_trapframe (proc_at k p) /\ p_trapframe (proc_at k p) + PGSIZE <= PHYSTOP.

Definition tf_reg (k : kernel) (p : nat) (f : trapframe) : Z :=
  rd64 (ram k) (p_trapframe (proc_at k p) + tf_offset f).

Lemma tf_load_rule {tn} p f (Q : Z -> kernel -> Prop) k : tf_ok p k -> Q (tf_reg k p f) k -> wp tn (tf_load p f) Q k.
Proof.
  intros (_ & H1 & H2) HQ. unfold tf_load. unfold PGSIZE in H2. apply wp_bind, wp_gets, wp_load64; [destruct f; simpl; lia..|done].
Qed.

Lemma tf_store_rule {tn} p f v (Q : unit -> kernel -> Prop) k :
  tf_ok p k -> Q tt (with_ram (wr64 (ram k) (p_trapframe (proc_at k p) + tf_offset f) v) k) -> wp tn (tf_store p f v) Q k.
Proof.
  intros (_ & H1 & H2) HQ. unfold tf_store. unfold PGSIZE in H2. apply wp_bind, wp_gets, wp_store64; [destruct f; simpl; lia..|done].
Qed.

(** States that differ in the interrupt state saved on the cpu only. *)
Definition same_procs (k k' : kernel) : Prop :=
  exists s, k' = set_sy s k /\ quiet (k_sy k) s /\ sy_procs s = sy_procs (k_sy k).

Lemma curproc_rule {tn} p (Q : nat -> kernel -> Prop) k k0 :
  sync_ok (k_sy k0) -> c_proc (sy_cpu (k_sy k0)) = Some p -> same_procs k0 k ->
  (forall k', same_procs k0 k' -> Q p k') -> wp tn curproc Q k.
Proof.
  intros Hok Hp (s & -> & Hq & Hs) HQ. apply (wp_curproc p); [eauto with kern|kproj; by rewrite (q_proc _ _ Hq)|].
  intros s' Hq' Hs'. apply HQ. exists s'. kproj. kproj_in Hq'. kproj_in Hs'.
  split_and!; [done|by etransitivity|congruence].
Qed.

Lemma same_procs_tf k k' p : same_procs k k' -> tf_ok p k ->
  tf_ok p k' /\ proc_at k' p = proc_at k p /\ forall f, tf_reg k' p f = tf_reg k p f.
Proof.
  intros (s & -> & _ & Hs) H. assert (E : procs (set_sy s k) = procs k) by exact Hs.
  unfold tf_ok, tf_reg, proc_at in *. by rewrite E.
Qed.

(** [p->sz += n] *)
Lemma sz_grown k p n : tf_ok p k ->
  let k' := set_sy (set_procs (alter (fun x => set_p_sz (u64 (p_sz x + n)) x) p (procs k)) (k_sy k)) k in
  tf_ok p k' /\ p_trapframe (proc_at k' p) = p_trapframe (proc_at k p) /\
  procs k' = alter (set_p_sz (u64 (p_sz (proc_at k p) + n))) p (procs k).
Proof.
  intros (H1 & H2 & H3) k'. destruct (lookup_lt_is_Some_2 _ _ H1) as [x Hx].
  assert (Ep : p_trapframe (proc_at k' p) = p_trapframe (proc_at k p)).
  { unfold proc_at, k', procs at 1. kproj. by rewrite list_lookup_alter_eq, Hx. }
  split_and!; [|done|].
  - unfold tf_ok. rewrite Ep. unfold procs, k'. kproj. by rewrite length_alter.
  - apply list_alter_ext; [|done]. intros y Hy. unfold proc_at. by rewrite Hy.
Qed.

(** C35: the system call [sbrk] with a positive argument: the register [a0]
    becomes the old size of the process cut to an [int], the size grows by the
    argument, and no other process, no lock and no other memory changes; no
    page is allocated. *)
Theorem syscall_sbrk p k :
  sync_ok (k_sy k) -> c_proc (sy_cpu (k_sy k)) = Some p -> tf_ok p k ->
  s32 (tf_reg k p TF_a7) = 12 -> 0 < s32 (tf_reg k p TF_a0) ->
  let '(r, sz) := sbrk_up (p_sz (proc_at k p)) (s32 (tf_reg k p TF_a0)) in
  exists s, (forall e, syscall e k =
      Ret tt e (with_ram (wr64 (ram k) (p_trapframe (proc_at k p) + tf_offset TF_a0) (u64 r)) (set_sy s k))) /\
    sy_procs s = alter (set_p_sz sz) p (procs k) /\ sy_locks s = sy_locks (k_sy k) /\ sy_sie s = sy_sie (k_sy k).
Proof.
  intros Hok Hp Htf H7 Hn. unfold sbrk_up. set (n := s32 (tf_reg k p TF_a0)) in *.
  assert (H0 : same_procs k k) by (exists (k_sy k); split_and!; [by destruct k|reflexivity|done]).
  destruct (wp_exact (syscall (D := D) (L := L)) (fun _ k' => exists s,
    k' = with_ram (wr64 (ram k) (p_trapframe (proc_at k p) + tf_offset TF_a0) (u64 (s32 (p_sz (proc_at k p))))) (set_sy s k) /\
    sy_procs s = alter (set_p_sz (u64 (p_sz (proc_at k p) + n))) p (procs k) /\
    sy_locks s = sy_locks (k_sy k) /\ sy_sie s = sy_sie (k_sy k)) k) as ([] & k' & E & s & -> & Hs); [|by exists s].
  unfold syscall. apply wp_bind, (curproc_rule p _ _ k); [done..|]. intros k1 S1.
  destruct (same_procs_tf _ _ _ S1 Htf) as (T1 & P1 & R1). apply wp_bind, tf_load_rule; [done|]. rewrite R1, H7. cbn [syscalls].
  apply wp_bind. unfold sys_sbrk, argint, argraw. apply wp_bind, wp_bind, wp_bind, (curproc_rule p _ _ k); [done..|].
  intros k2 S2. destruct (same_procs_tf _ _ _ S2 Htf) as (T2 & P2 & R2). apply tf_load_rule; [done|]. apply wp_ret.
  rewrite R2. fold n. apply wp_bind, (curproc_rule p _ _ k); [done..|]. intros k3 S3.
  destruct (same_procs_tf _ _ _ S3 Htf) as (T3 & P3 & R3). apply wp_bind, wp_gets. rewrite P3, Z.gtb_ltb, (proj2 (Z.ltb_lt 0 n)) by lia.
  apply wp_bind, (curproc_rule p _ _ k); [done..|]. intros k4 S4.
  destruct (same_procs_tf _ _ _ S4 Htf) as (T4 & P4 & R4). destruct S4 as (s & -> & Hq & Es).
  apply wp_bind, wp_upd_proc, wp_ret.
  destruct (sz_grown (set_sy s k) p n T4) as (T5 & P5 & G). rewrite P4 in P5, G.
  apply tf_store_rule; [exact T5|]. rewrite P5. eexists. split; [reflexivity|]. split_and!; [|apply Hq..].
  etransitivity; [exact G|]. change (procs (set_sy s k)) with (sy_procs s). by rewrite Es.
Qed.

End syscall.

(** ** Instances *)

(** The heap of a program that starts with a size of 8 KiB. *)
Definition sample_heap : heap := mk_heap ∅ ∅ 0 8192.
Definition sample_h1 : heap := snd (default (0, sample_heap) (malloc 4000 sbrk_up 100 sample_heap)).
Definition sample_h2 : heap := default sample_heap (free 73616 sample_h1).

Lemma sample_request h : h_brk h = 8192 \/ h_brk h = 73728 -> request_ok h 100.
Proof. intros H. split; [lia|]. change (more_bytes (malloc_units 100)) with 65536. lia. Qed.

Lemma sample_malloc : malloc 4000 sbrk_up 100 sample_heap = Some (73616, sample_h1).
Proof. vm_compute. reflexivity. Qed.

Lemma malloc_spec_witness :
  exists p h' fl', malloc 4000 sbrk_up 100 sample_heap = Some (hplus p 1, h') /\
    hplus p 1 + 100 <= hplus p 8 /\ heap_ok 4000 h' fl' {[p := 8]}.
Proof.
  destruct (malloc_spec sbrk_up 4000 sample_heap [] ∅ 100) as (r & h' & E & [(-> & _)|(p & fl' & -> & H1 & _ & H2 & _)]).
  - right. split_and!; [reflexivity..|simpl; lia|simpl; lia|simpl; lia].
  - apply sample_request. by left.
  - rewrite sample_malloc in E. discriminate.
  - exists p, h', fl'. split; [exact E|]. split; [exact H1|exact H2].
Defined.

(** One block, and its [free]: the 64 KiB from [sbrk] are one block again. *)
Lemma allocator_safe_witness :
  h_ptr sample_h2 !! 4000 = Some 8192 /\ 16 * get_size sample_h2 8192 = 65536 /\
  exists r h', malloc 4000 sbrk_up 100 sample_h2 = Some (r, h').
Proof.
  destruct (allocator_safe sbrk_up 4000 sample_heap sample_h2 (delete 73600 {[73616 - 16 := malloc_units 100]})) as (_ & _ & _ & H1 & H2).
  - reflexivity.
  - lia.
  - simpl. lia.
  - eapply rtc_l; [apply (u_malloc sbrk_up 4000 sample_heap ∅ 100 73616 sample_h1)|].
    + apply sample_request. by left.
    + apply sample_malloc.
    + discriminate.
    + apply rtc_once. apply (u_free sbrk_up 4000 sample_h1 _ 73600 8 sample_h2); vm_compute; reflexivity.
  - destruct H2 as [H2 H3]; [vm_compute; reflexivity..|]. split; [exact H2|]. split; [exact H3|].
    destruct (H1 100) as (r & h' & E & _); [|by exists r, h'].
    apply sample_request. right. vm_compute. reflexivity.
Defined.

Lemma free_malloc_reuse_witness :
  exists q h2 fl2, malloc 4000 sbrk_up 100 sample_h2 = Some (hplus q 1, h2) /\ h_brk h2 = 73728 /\
    heap_ok 4000 h2 fl2 {[q := 8]}.
Proof.
  destruct (malloc_rule sbrk_up 4000 sample_heap [] ∅ 100) as [[E _]|(r & h' & E & p & fl' & -> & _ & Hok & _)].
  - right. split_and!; [reflexivity..|simpl; lia|simpl; lia|simpl; lia].
  - lia.
  - change (more_bytes (malloc_units 100)) with 65536. simpl. lia.
  - rewrite sample_malloc in E. discriminate.
  - rewrite sample_malloc in E. injection E as Ep <-. assert (p = 73600) as -> by (rewrite hplus_eq in Ep; lia).
    destruct (free_malloc_reuse sbrk_up 4000 sample_h1 fl' {[73600 := 8]} 73600 8 100)
      as (h1 & q & h2 & fl2 & F & M & B & K & _).
    + exact Hok.
    + reflexivity.
    + apply sample_request. right. vm_compute. reflexivity.
    + change (malloc_units 100) with 8. lia.
    + assert (h1 = sample_h2) as -> by (unfold sample_h2; change 73616 with (hplus 73600 1); by rewrite F).
      exists q, h2, fl2. split; [exact M|]. split; [exact B|]. exact K.
Defined.

#[local] Existing Instance sample_linker.

(** Process 0 calls [sbrk(4096)]. *)
Definition sample_call : kernel :=
  with_ram (wr64 (wr64 (ram sample_lazy) (0x87ff4000 + tf_offset TF_a7) 12) (0x87ff4000 + tf_offset TF_a0) 4096) sample_lazy.

Lemma syscall_sbrk_witness :
  exists s, (forall e, syscall (D := virtio_driver) e sample_call =
      Ret tt e (with_ram (wr64 (ram sample_call) (0x87ff4000 + tf_offset TF_a0) 8192) (set_sy s sample_call))) /\
    sy_procs s = alter (set_p_sz 12288) 0%nat (procs sample_call).
Proof.
  destruct (syscall_sbrk (D := virtio_driver) 0 sample_call) as (s & H1 & H2 & _).
  - apply sample_sync_ok.
  - reflexivity.
  - split; [vm_compute; lia|split; vm_compute; discriminate].
  - vm_compute. reflexivity.
  - vm_compute. reflexivity.
  - exists s. split; [exact H1|exact H2].
Defined.
