(* ===== verification/Mkfs.v ===== *)
(** * [mkfs/mkfs.c]: the initial file system

    The image is a map from sector numbers to sectors, beside the counters of
    the program; an error of the host's [read] or [lseek] and a failed
    [assert] end the program ([None]).  A [struct dinode] in memory is its 64
    bytes.  The files to copy are given by their paths and the pieces in which
    the host's [read] returns their contents. *)

From S2P Require Import Prelude Defs State Memory Fs.

Definition NINODES : Z := 200.

Definition nbitmap : Z := FSSIZE / (BSIZE * 8) + 1.
Definition ninodeblocks : Z := NINODES / IPB + 1.
Definition nlog : Z := LOGSIZE.
Definition nmeta : Z := 2 + nlog + ninodeblocks + nbitmap.
Definition nblocks : Z := FSSIZE - nmeta.

(** The conversions to the byte order of the disk, on a little-endian host. *)
Definition xshort (x : Z) : Z := le_val (le_bytes 2 x).
Definition xint (x : Z) : Z := le_val (le_bytes 4 x).

Definition mkfs_sb : superblock :=
  mk_superblock FSMAGIC (xint FSSIZE) (xint nblocks) (xint NINODES) (xint nlog) (xint 2)
    (xint (2 + nlog)) (xint (2 + nlog + ninodeblocks)).

(** The bytes of [struct superblock]. *)
Definition sb_bytes (sb : superblock) : list Z :=
  concat (map (le_bytes 4) [sb_magic sb; sb_size sb; sb_nblocks sb; sb_ninodes sb; sb_nlog sb; sb_logstart sb;
                            sb_inodestart sb; sb_bmapstart sb]).

Record mkfs_st := mk_mkfs { sect : gmap Z (list Z); freeinode : Z; freeblock : Z }.

Definition zeroes : list Z := repeat 0 (Z.to_nat BSIZE).

Definition wsect (sec : Z) (buf : list Z) (s : mkfs_st) : mkfs_st :=
  mk_mkfs (<[sec := buf]> (sect s)) (freeinode s) (freeblock s).
Definition rsect (sec : Z) (s : mkfs_st) : option (list Z) := sect s !! sec.

Definition winode (inum : Z) (din : list Z) (s : mkfs_st) : option mkfs_st :=
  let bn := IBLOCK inum mkfs_sb in
  buf ← rsect bn s;
  Some (wsect bn (splice buf (Z.to_nat (dinode_off inum)) din) s).

Definition rinode (inum : Z) (s : mkfs_st) : option (list Z) :=
  let bn := IBLOCK inum mkfs_sb in
  buf ← rsect bn s;
  Some (take 64 (drop (Z.to_nat (dinode_off inum)) buf)).

Definition mk_ialloc (type : Z) (s : mkfs_st) : option (Z * mkfs_st) :=
  let inum := freeinode s in
  let s := mk_mkfs (sect s) (u32 (inum + 1)) (freeblock s) in
  let din := repeat 0 64 in
  let din := putn 2 din 0 (xshort type) in
  let din := putn 2 din 6 (xshort 1) in
  let din := putn 4 din 8 (xint 0) in
  s ← winode inum din s;
  Some (inum, s).

Definition mk_balloc (used : Z) (s : mkfs_st) : option mkfs_st :=
  if negb (used <? BSIZE * 8) then None else
  let buf := foldl (fun buf i => mark_bit i buf) zeroes (seqZ 0 used) in
  Some (wsect (sb_bmapstart mkfs_sb) buf s).

(** [freeblock++] *)
Definition next_block (s : mkfs_st) : Z * mkfs_st :=
  (xint (freeblock s), mk_mkfs (sect s) (freeinode s) (u32 (freeblock s + 1))).

(** The block of the file in which offset [fbn * BSIZE] is, allocated if need
    be. *)
Definition file_sector (din : list Z) (fbn : Z) (s : mkfs_st) : option (Z * list Z * mkfs_st) :=
  if fbn <? NDIRECT then
    let '(din, s) :=
      if xint (getn 4 din (12 + 4 * fbn)) =? 0
      then let '(b, s) := next_block s in (putn 4 din (12 + 4 * fbn) b, s)
      else (din, s) in
    Some (xint (getn 4 din (12 + 4 * fbn)), din, s)
  else
    let '(din, s) :=
      if xint (getn 4 din (12 + 4 * NDIRECT)) =? 0
      then let '(b, s) := next_block s in (putn 4 din (12 + 4 * NDIRECT) b, s)
      else (din, s) in
    let ind := xint (getn 4 din (12 + 4 * NDIRECT)) in
    indirect ← rsect ind s;
    let '(indirect, s) :=
      if getn 4 indirect (4 * (fbn - NDIRECT)) =? 0
      then let '(b, s) := next_block s in
           let indirect := putn 4 indirect (4 * (fbn - NDIRECT)) b in
           (indirect, wsect ind indirect s)
      else (indirect, s) in
    Some (xint (getn 4 indirect (4 * (fbn - NDIRECT))), din, s).

(** The [while] loop of [iappend]; every iteration consumes bytes. *)
Fixpoint iappend_loop (fuel : nat) (din : list Z) (off : Z) (p : list Z) (s : mkfs_st) : option (list Z * Z * mkfs_st) :=
  match fuel with
  | O => None
  | S fuel =>
      match p with
      | [] => Some (din, off, s)
      | _ =>
          let fbn := off / BSIZE in
          if negb (fbn <? MAXFILE) then None else
          '(x, din, s) ← file_sector din fbn s;
          let n1 := Z.min (Z.of_nat (length p)) ((fbn + 1) * BSIZE - off) in
          buf ← rsect x s;
          let s := wsect x (splice buf (Z.to_nat (off - fbn * BSIZE)) (take (Z.to_nat n1) p)) s in
          iappend_loop fuel din (u32 (off + n1)) (drop (Z.to_nat n1) p) s
      end
  end.

Definition iappend (inum : Z) (p : list Z) (s : mkfs_st) : option mkfs_st :=
  din ← rinode inum s;
  '(din, off, s) ← iappend_loop (S (length p)) din (xint (getn 4 din 8)) p s;
  winode inum (putn 4 din 8 (xint off)) s.

(** A directory entry, after [bzero]. *)
Definition mk_dirent (inum : Z) (name : list Z) : list Z :=
  le_bytes 2 (xshort inum) ++ strncpy_bytes name (Z.to_nat DIRSIZ).

Fixpoint iappend_all (inum : Z) (pieces : list (list Z)) (s : mkfs_st) : option mkfs_st :=
  match pieces with
  | [] => Some s
  | p :: pieces => s ← iappend inum p s; iappend_all inum pieces s
  end.

(** The name of a file in the image: without [user/], which is in front of
    the names of the build, and without a leading underscore. *)
Definition shortname (path : list Z) : option (list Z) :=
  let name := if strncmp path (bytes_of "user/") 5 =? 0 then drop 5 path else path in
  if existsb (Z.eqb 47) name then None else
  Some (if hd 0 name =? 95 then tl name else name).

Definition add_file (rootino : Z) (f : list Z * list (list Z)) (s : mkfs_st) : option mkfs_st :=
  let '(path, pieces) := f in
  name ← shortname path;
  '(inum, s) ← mk_ialloc T_FILE s;
  s ← iappend rootino (mk_dirent inum name) s;
  iappend_all inum pieces s.

Fixpoint add_files (rootino : Z) (files : list (list Z * list (list Z))) (s : mkfs_st) : option mkfs_st :=
  match files with
  | [] => Some s
  | f :: files => s ← add_file rootino f s; add_files rootino files s
  end.

Definition mkfs_main (files : list (list Z * list (list Z))) : option mkfs_st :=
  let s := mk_mkfs ∅ 1 nmeta in
  let s := foldl (fun s i => wsect i zeroes s) s (seqZ 0 FSSIZE) in
  let s := wsect 1 (splice zeroes 0 (sb_bytes mkfs_sb)) s in
  '(rootino, s) ← mk_ialloc T_DIR s;
  if negb (rootino =? ROOTINO) then None else
  s ← iappend rootino (mk_dirent rootino (bytes_of ".")) s;
  s ← iappend rootino (mk_dirent rootino (bytes_of "..")) s;
  s ← add_files rootino files s;
  din ← rinode rootino s;
  let off := xint (getn 4 din 8) in
  let off := u32 ((off / BSIZE + 1) * BSIZE) in
  s ← winode rootino (putn 4 din 8 (xint off)) s;
  mk_balloc (freeblock s) s.
