(* ===== verification/MkfsSpec.v ===== *)
(** * [mkfs]: the image is a file system

    [core] is the invariant of the image while [mkfs] builds it: every block
    handed out belongs to one place of one file ([own]), the blocks of a file
    hold its bytes, and the blocks not handed out are zero.  The theorem says
    that [mkfs] succeeds when the files fit, and what the kernel finds in the
    image it leaves. *)

From S2P Require Import Prelude Defs State Memory Fs FsOps FsRead FsWrite FsDir Mkfs.

(** ** The image *)

Definition blk (g : gmap Z (list Z)) (n : Z) : list Z := default zeroes (g !! n).

Definition d_addr (din : list Z) (i : Z) : Z := getn 4 din (12 + 4 * i).

(** The block of a file at [fbn], 0 if there is none. *)
Definition fblk (g : gmap Z (list Z)) (din : list Z) (fbn : Z) : Z :=
  if fbn <? NDIRECT then d_addr din fbn
  else if d_addr din NDIRECT =? 0 then 0 else getn 4 (blk g (d_addr din NDIRECT)) (4 * (fbn - NDIRECT)).

(** The blocks of a file of [n] bytes, and the blocks it takes with its
    indirect block. *)
Definition nb (n : Z) : Z := (n + BSIZE - 1) / BSIZE.
Definition cost (n : Z) : Z := nb n + (if NDIRECT * BSIZE <? n then 1 else 0).
Definition flen (f : Z * list Z) : Z := Z.of_nat (length f.2).
Fixpoint total (F : list (Z * list Z)) : Z := match F with [] => 0 | f :: F => cost (flen f) + total F end.

(** The place of a block: the file it belongs to and its number in it, -1 for
    the indirect block. *)
Definition owner : Type := Z -> option (nat * Z).

(** Inode [i + 1] has the dinode [dn i], and is of the type and has the bytes
    of [F !! i]. *)
Record core (s : mkfs_st) (dn : nat -> list Z) (F : list (Z * list Z)) (own : owner) : Prop := {
  co_sect n : 0 <= n < FSSIZE -> exists b, sect s !! n = Some b /\ length b = Z.to_nat BSIZE;
  co_din i f : F !! i = Some f -> length (dn i) = 64%nat /\ getn 2 (dn i) 0 = f.1 /\ getn 2 (dn i) 6 = 1;
  co_max i f : F !! i = Some f -> flen f <= MAXFILE * BSIZE;
  co_addr i f fbn : F !! i = Some f -> 0 <= fbn < MAXFILE ->
    if fbn <? nb (flen f) then own (fblk (sect s) (dn i) fbn) = Some (i, fbn) else fblk (sect s) (dn i) fbn = 0;
  co_ind i f : F !! i = Some f ->
    if NDIRECT * BSIZE <? flen f then own (d_addr (dn i) NDIRECT) = Some (i, -1) else d_addr (dn i) NDIRECT = 0;
  co_own b o : own b = Some o -> nmeta <= b < freeblock s;
  co_zero b : freeblock s <= b < FSSIZE -> sect s !! b = Some zeroes;
  co_free : freeblock s = nmeta + total F /\ freeblock s <= FSSIZE;
  co_bytes i f fbn j : F !! i = Some f -> 0 <= fbn < nb (flen f) -> (j < Z.to_nat BSIZE)%nat ->
    nth j (blk (sect s) (fblk (sect s) (dn i) fbn)) 0 = default 0 (f.2 !! (Z.to_nat (fbn * BSIZE) + j)%nat) }.

(** ** Arithmetic *)

Ltac consts := change BSIZE with 1024 in *; change NDIRECT with 12 in *; change MAXFILE with 268 in *;
  change FSSIZE with 1000 in *; change nmeta with 46 in *.

Lemma xint_id x : 0 <= x < 2 ^ 32 -> xint x = x.
Proof. intros H. apply le_val_bytes. lia. Qed.

Lemma xshort_id x : 0 <= x < 2 ^ 16 -> xshort x = x.
Proof. intros H. apply le_val_bytes. lia. Qed.

Lemma nb_div n : 0 <= n -> nb n = n / 1024 + (if n mod 1024 =? 0 then 0 else 1).
Proof.
  intros H. unfold nb. consts. pose proof (Z.div_mod n 1024 ltac:(lia)) as E. pose proof (Z.mod_pos_bound n 1024 ltac:(lia)).
  destruct (Z.eqb_spec (n mod 1024) 0) as [E0|E0].
  - rewrite Z.add_0_r. symmetry. apply Z.div_unique with (r := 1023); lia.
  - symmetry. apply Z.div_unique with (r := n mod 1024 - 1); lia.
Qed.

Lemma nb_block n k : 0 <= n -> n < k <= (n / 1024 + 1) * 1024 -> nb k = n / 1024 + 1.
Proof.
  intros H Hk. unfold nb. consts. pose proof (Z.div_mod n 1024 ltac:(lia)). pose proof (Z.mod_pos_bound n 1024 ltac:(lia)).
  symmetry. apply Z.div_unique with (r := k + 1023 - 1024 * (n / 1024 + 1)); lia.
Qed.

(** The blocks the next byte needs. *)
Lemma cost_next n : 0 <= n -> cost (n + 1) = cost n + (if n mod 1024 =? 0 then 1 + (if n / 1024 =? 12 then 1 else 0) else 0).
Proof.
  intros H. unfold cost. rewrite (nb_block n (n + 1)), nb_div; [|done|done|]; consts;
    pose proof (Z.div_mod n 1024 ltac:(lia)); pose proof (Z.mod_pos_bound n 1024 ltac:(lia)); [|lia].
  destruct (Z.eqb_spec (n mod 1024) 0), (Z.eqb_spec (n / 1024) 12), (Z.ltb_spec (12 * 1024) (n + 1)), (Z.ltb_spec (12 * 1024) n); lia.
Qed.

Lemma cost_block n k : 0 <= n -> n < k <= (n / 1024 + 1) * 1024 -> cost k = cost (n + 1).
Proof.
  intros H Hk. unfold cost. rewrite (nb_block n k), (nb_block n (n + 1)); consts;
    pose proof (Z.div_mod n 1024 ltac:(lia)); pose proof (Z.mod_pos_bound n 1024 ltac:(lia)); try lia.
  destruct (Z.ltb_spec (12 * 1024) (n + 1)), (Z.ltb_spec (12 * 1024) k); lia.
Qed.

(** ** Allocating the block of an offset *)

Record adv (s : mkfs_st) (din : list Z) (own : owner) (i : nat) (c : list Z) (fbn x : Z)
    (s1 : mkfs_st) (din1 : list Z) (own1 : owner) : Prop := {
  ad_own : own1 x = Some (i, fbn);
  ad_blk : fblk (sect s1) din1 fbn = x;
  ad_other fbn' : 0 <= fbn' < MAXFILE -> fbn' <> fbn -> fblk (sect s1) din1 fbn' = fblk (sect s) din fbn';
  ad_ind : if fbn <? NDIRECT then d_addr din1 NDIRECT = 0 else own1 (d_addr din1 NDIRECT) = Some (i, -1);
  ad_sub b o : own b = Some o -> own1 b = Some o;
  ad_new b o : own1 b = Some o -> own b = Some o \/ freeblock s <= b < freeblock s1 /\ o.1 = i;
  ad_sect b : own b <> Some (i, -1) -> b < freeblock s \/ freeblock s1 <= b -> sect s1 !! b = sect s !! b;
  ad_len n : 0 <= n < FSSIZE -> exists b, sect s1 !! n = Some b /\ length b = Z.to_nat BSIZE;
  ad_free : freeblock s1 = freeblock s + (cost (Z.of_nat (length c) + 1) - cost (Z.of_nat (length c))) /\
            freeinode s1 = freeinode s;
  ad_din : length din1 = 64%nat /\ getn 2 din1 0 = getn 2 din 0 /\ getn 2 din1 6 = getn 2 din 6;
  ad_data j : (j < Z.to_nat BSIZE)%nat ->
    nth j (blk (sect s1) x) 0 = default 0 (c !! (Z.to_nat (fbn * BSIZE) + j)%nat) }.

Lemma blk_sect g n b : g !! n = Some b -> blk g n = b.
Proof. unfold blk. by intros ->. Qed.

Lemma nth_zeroes j : nth j zeroes 0 = 0.
Proof. apply nth_repeat. Qed.

Section adv.
Context (s : mkfs_st) (dn : nat -> list Z) (F : list (Z * list Z)) (own : owner) (HC : core s dn F own).
Context (i : nat) (f : Z * list Z) (Hf : F !! i = Some f).
Context (Hmax : flen f < MAXFILE * BSIZE).

#[local] Notation sz := (flen f).
#[local] Notation fbn := (flen f / BSIZE).

Lemma free_range : 46 <= freeblock s <= 1000.
Proof.
  pose proof (co_free _ _ _ _ HC) as [E1 E2]. consts. split; [|lia]. rewrite E1.
  assert (0 <= total F); [|lia]. clear. induction F as [|g F' IH]; simpl; [lia|].
  assert (0 <= cost (flen g)); [|lia]. unfold cost, nb, flen. consts.
  assert (0 <= (Z.of_nat (length g.2) + 1024 - 1) / 1024) by (apply Z.div_pos; lia). destruct (_ <? _); lia.
Qed.

Lemma fbn_range : 0 <= sz /\ 0 <= fbn < 268 /\ sz = 1024 * fbn + sz mod 1024 /\ 0 <= sz mod 1024 < 1024.
Proof.
  unfold flen in *. consts. pose proof (Z.div_mod (Z.of_nat (length f.2)) 1024 ltac:(lia)).
  pose proof (Z.mod_pos_bound (Z.of_nat (length f.2)) 1024 ltac:(lia)).
  assert (0 <= Z.of_nat (length f.2) / 1024) by (apply Z.div_pos; lia). lia.
Qed.

(** The block is there. *)
Lemma adv_old : sz mod 1024 <> 0 -> adv s (dn i) own i f.2 fbn (fblk (sect s) (dn i) fbn) s (dn i) own.
Proof.
  intros Hr. destruct fbn_range as (H0 & H1 & H2 & H3). pose proof (nb_div sz H0) as Hnb. destruct (Z.eqb_spec (sz mod 1024) 0) as [|_]; [done|].
  pose proof (co_addr _ _ _ _ HC i f fbn Hf) as Ha. pose proof (co_ind _ _ _ _ HC i f Hf) as Hi. consts.
  destruct (Z.ltb_spec (sz / 1024) (nb sz)); [|lia].
  split; consts; try done.
  - by apply Ha.
  - destruct (Z.ltb_spec (sz / 1024) 12), (Z.ltb_spec (12 * 1024) sz); done || lia.
  - auto.
  - intros m Hm. by apply (co_sect _ _ _ _ HC).
  - fold sz. rewrite cost_next by done. destruct (Z.eqb_spec (sz mod 1024) 0) as [|_]; [done|]. lia.
  - split; [|done]. by apply (co_din _ _ _ _ HC i f).
  - intros j Hj. by apply (co_bytes _ _ _ _ HC i f); [|lia|].
Qed.

Definition own_add (x : Z) (o : nat * Z) (w : owner) : owner := fun b => if b =? x then Some o else w b.

Lemma own_fresh b : freeblock s <= b -> own b = None.
Proof. intros Hb. destruct (own b) eqn:E; [|done]. apply (co_own _ _ _ _ HC) in E. lia. Qed.

(** A new block holds no byte of the file yet. *)
Lemma data_new j : sz mod 1024 = 0 -> f.2 !! (Z.to_nat (fbn * BSIZE) + j)%nat = None.
Proof. intros Hr. destruct fbn_range as (H0 & H1 & H2 & H3). apply lookup_ge_None_2. unfold flen in *. consts. lia. Qed.

Lemma adv_direct : sz mod 1024 = 0 -> fbn < 12 -> freeblock s < 1000 ->
  adv s (dn i) own i f.2 fbn (freeblock s)
    (mk_mkfs (sect s) (freeinode s) (freeblock s + 1)) (putn 4 (dn i) (12 + 4 * fbn) (freeblock s))
    (own_add (freeblock s) (i, fbn) own).
Proof.
  intros Hr Hd Hfr. destruct fbn_range as (H0 & H1 & H2 & H3). pose proof free_range as Hfree.
  destruct (co_din _ _ _ _ HC i f Hf) as (Hl & _ & _). pose proof (co_ind _ _ _ _ HC i f Hf) as Hi. consts.
  destruct (Z.ltb_spec (12 * 1024) sz); [lia|].
  assert (E12 : d_addr (putn 4 (dn i) (12 + 4 * (sz / 1024)) (freeblock s)) 12 = 0).
  { unfold d_addr. rewrite getn_putn_ne by lia. exact Hi. }
  split; consts; cbn [sect freeblock freeinode].
  - unfold own_add. by rewrite Z.eqb_refl.
  - unfold fblk. consts. destruct (Z.ltb_spec (sz / 1024) 12); [|lia]. apply getn_putn_eq; lia.
  - intros fbn' Hb Hne. unfold fblk. consts. rewrite E12, Hi. destruct (Z.ltb_spec fbn' 12); [|done]. apply getn_putn_ne; lia.
  - destruct (Z.ltb_spec (sz / 1024) 12); [done|lia].
  - intros b o Ho. unfold own_add. destruct (Z.eqb_spec b (freeblock s)) as [->|]; [|done]. by rewrite own_fresh in Ho by lia.
  - intros b o. unfold own_add. destruct (Z.eqb_spec b (freeblock s)) as [->|]; [|by left]. intros [= <-]. right. split; [lia|done].
  - done.
  - intros m Hm. by apply (co_sect _ _ _ _ HC).
  - fold sz. rewrite cost_next, Hr by done. simpl. destruct (Z.eqb_spec (sz / 1024) 12); [lia|]. split; [lia|done].
  - rewrite length_putn. split; [done|]. rewrite !getn_putn_ne by lia. done.
  - intros j Hj. rewrite data_new by done. rewrite (blk_sect _ _ zeroes) by (apply (co_zero _ _ _ _ HC); consts; lia). apply nth_zeroes.
Qed.

(** A new entry [x] of the indirect block [q] with the bytes [B]. *)
Lemma adv_indirect q B x din1 own0 fb :
  sz mod 1024 = 0 -> 12 <= fbn ->
  length B = Z.to_nat BSIZE -> 0 < q < 1000 -> x = fb - 1 -> 0 <= x < 1000 -> q <> x -> freeblock s <= x ->
  (forall fbn', 12 <= fbn' < 268 -> getn 4 B (4 * (fbn' - 12)) = fblk (sect s) (dn i) fbn') ->
  length din1 = 64%nat -> (forall k, 0 <= k < 12 -> d_addr din1 k = d_addr (dn i) k) -> d_addr din1 12 = q ->
  getn 2 din1 0 = getn 2 (dn i) 0 -> getn 2 din1 6 = getn 2 (dn i) 6 ->
  own0 q = Some (i, -1) -> (forall b o, own b = Some o -> own0 b = Some o) ->
  (forall b o, own0 b = Some o -> own b = Some o \/ freeblock s <= b < x /\ o.1 = i) ->
  (own q = Some (i, -1) \/ freeblock s <= q < x) ->
  fb = freeblock s + (cost (sz + 1) - cost sz) ->
  adv s (dn i) own i f.2 fbn x
    (mk_mkfs (<[q := putn 4 B (4 * (fbn - 12)) x]> (sect s)) (freeinode s) fb) din1 (own_add x (i, fbn) own0).
Proof.
  intros Hr Hd HB Hq Hx Hx' Hqx Hfx HBe Hl1 Hda Hq1 Ht0 Ht6 Hoq Hsub Hnew Hqo Hfb.
  destruct fbn_range as (H0 & H1 & H2 & H3). pose proof free_range as Hfree. consts.
  assert (HE : forall fbn', 12 <= fbn' < 268 -> getn 4 (putn 4 B (4 * (sz / 1024 - 12)) x) (4 * (fbn' - 12)) =
    if fbn' =? sz / 1024 then x else getn 4 B (4 * (fbn' - 12))).
  { intros fbn' Hb. destruct (Z.eqb_spec fbn' (sz / 1024)) as [->|]; [apply getn_putn_eq; lia|apply getn_putn_ne; lia]. }
  assert (HF : forall fbn', 0 <= fbn' < 268 -> fblk (<[q := putn 4 B (4 * (sz / 1024 - 12)) x]> (sect s)) din1 fbn' =
    if fbn' =? sz / 1024 then x else fblk (sect s) (dn i) fbn').
  { intros fbn' Hb. unfold fblk at 1. consts. rewrite Hq1. destruct (Z.ltb_spec fbn' 12).
    - destruct (Z.eqb_spec fbn' (sz / 1024)); [lia|]. rewrite Hda by lia. unfold fblk. consts. by destruct (Z.ltb_spec fbn' 12); [|lia].
    - destruct (Z.eqb_spec q 0); [lia|]. rewrite (blk_sect _ _ (putn 4 B (4 * (sz / 1024 - 12)) x)) by apply lookup_insert_eq.
      rewrite HE by lia. destruct (fbn' =? sz / 1024); [done|]. apply HBe. lia. }
  split; consts; cbn [sect freeblock freeinode].
  - unfold own_add. by rewrite Z.eqb_refl.
  - rewrite HF by lia. by rewrite Z.eqb_refl.
  - intros fbn' Hb Hne. rewrite HF by lia. by destruct (Z.eqb_spec fbn' (sz / 1024)).
  - destruct (Z.ltb_spec (sz / 1024) 12); [lia|]. rewrite Hq1. unfold own_add. by destruct (Z.eqb_spec q x).
  - intros b o Ho. unfold own_add. destruct (Z.eqb_spec b x) as [->|]; [by rewrite own_fresh in Ho by lia|auto].
  - intros b o. unfold own_add. destruct (Z.eqb_spec b x) as [->|].
    + intros [= <-]. right. split; [lia|done].
    + intros [?|[??]]%Hnew; [by left|right]. split; [lia|done].
  - intros b Hb Hb'. apply lookup_insert_ne. intros <-. destruct Hqo as [?|?]; [done|lia].
  - intros m Hm. destruct (decide (m = q)) as [->|]; [|rewrite lookup_insert_ne by done; by apply (co_sect _ _ _ _ HC)].
    rewrite lookup_insert_eq. eexists. split; [done|]. by rewrite length_putn.
  - done.
  - done.
  - intros j Hj. rewrite data_new by done. rewrite (blk_sect _ _ zeroes); [apply nth_zeroes|].
    rewrite lookup_insert_ne by done. apply (co_zero _ _ _ _ HC). consts. lia.
Qed.

Lemma addr_value fbn' : 0 <= fbn' < 268 -> 0 <= fblk (sect s) (dn i) fbn' < 1000 /\
  (fblk (sect s) (dn i) fbn' = 0 <-> nb sz <= fbn').
Proof.
  intros Hb. pose proof (co_addr _ _ _ _ HC i f fbn' Hf) as Ha. pose proof free_range as Hfree. consts. specialize (Ha Hb).
  destruct (Z.ltb_spec fbn' (nb sz)); [apply (co_own _ _ _ _ HC) in Ha; consts|]; lia.
Qed.

Lemma ind_value : 0 <= d_addr (dn i) 12 < 1000 /\ (d_addr (dn i) 12 = 0 <-> sz <= 12 * 1024).
Proof.
  pose proof (co_ind _ _ _ _ HC i f Hf) as Hi. pose proof free_range as Hfree. consts.
  destruct (Z.ltb_spec (12 * 1024) sz); [apply (co_own _ _ _ _ HC) in Hi; consts|]; lia.
Qed.

(** The entries of the indirect block. *)
Lemma ind_entries : 12 * 1024 < sz -> exists B, sect s !! d_addr (dn i) 12 = Some B /\ length B = Z.to_nat BSIZE /\
  forall fbn', 12 <= fbn' < 268 -> getn 4 B (4 * (fbn' - 12)) = fblk (sect s) (dn i) fbn'.
Proof.
  intros Hi. destruct ind_value as [H1 H2]. destruct (co_sect _ _ _ _ HC (d_addr (dn i) 12)) as (B & HB & HBl); [consts; lia|].
  exists B. split; [done|]. split; [done|]. intros fbn' Hb. unfold fblk. consts. destruct (Z.ltb_spec fbn' 12); [lia|].
  destruct (Z.eqb_spec (d_addr (dn i) 12) 0); [lia|]. by rewrite (blk_sect _ _ _ HB).
Qed.

Lemma file_sector_old : sz mod 1024 <> 0 -> file_sector (dn i) (sz / 1024) s = Some (fblk (sect s) (dn i) (sz / 1024), dn i, s).
Proof.
  intros Hr. destruct fbn_range as (H0 & H1 & H2 & H3). destruct ind_value as [I1 I2]. pose proof (nb_div sz H0) as Hnb.
  destruct (addr_value (sz / 1024) H1) as [A1 A2]. destruct (Z.eqb_spec (sz mod 1024) 0); [done|].
  assert (Hx0 : fblk (sect s) (dn i) (sz / 1024) <> 0) by lia.
  unfold file_sector, fblk in *. consts. fold (d_addr (dn i) 12) (d_addr (dn i) (sz / 1024)). destruct (Z.ltb_spec (sz / 1024) 12).
  - rewrite xint_id by lia. destruct (Z.eqb_spec (d_addr (dn i) (sz / 1024)) 0); [done|]. cbv beta iota zeta.
    fold (d_addr (dn i) (sz / 1024)). by rewrite xint_id by lia.
  - rewrite xint_id by lia. destruct (Z.eqb_spec (d_addr (dn i) 12) 0); [done|]. cbv beta iota zeta.
    fold (d_addr (dn i) 12). rewrite xint_id by lia. unfold rsect.
    destruct (co_sect _ _ _ _ HC (d_addr (dn i) 12)) as (B & HB & HBl); [consts; lia|]. rewrite HB. cbn [mbind option_bind].
    rewrite (blk_sect _ _ _ HB) in *. destruct (Z.eqb_spec (getn 4 B (4 * (sz / 1024 - 12))) 0); [done|]. by rewrite xint_id by lia.
Qed.

Lemma file_sector_adv : freeblock s + (cost (sz + 1) - cost sz) <= FSSIZE ->
  exists x din1 s1 own1, file_sector (dn i) fbn s = Some (x, din1, s1) /\ adv s (dn i) own i f.2 fbn x s1 din1 own1 /\
    0 <= x < FSSIZE.
Proof.
  intros Hroom. destruct fbn_range as (H0 & H1 & H2 & H3). pose proof free_range as Hfree. destruct ind_value as [I1 I2].
  destruct (addr_value fbn) as [A1 A2]; [consts; lia|]. pose proof (nb_div sz H0) as Hnb. destruct (co_din _ _ _ _ HC i f Hf) as (Hl & _ & _).
  rewrite cost_next in Hroom by done. consts.
  assert (Hxf : xint (freeblock s) = freeblock s) by (apply xint_id; lia).
  assert (Hxi : xint (d_addr (dn i) 12) = d_addr (dn i) 12) by (apply xint_id; lia).
  destruct (Z.eqb_spec (sz mod 1024) 0) as [Hr|Hr].
  - unfold file_sector, next_block. consts. fold (d_addr (dn i) 12) (d_addr (dn i) (sz / 1024)). destruct (Z.ltb_spec (sz / 1024) 12) as [Hd|Hd].
    + assert (E0 : d_addr (dn i) (sz / 1024) = 0).
      { unfold fblk in A2. consts. destruct (Z.ltb_spec (sz / 1024) 12); [|lia]. apply A2. lia. }
      destruct (Z.eqb_spec (sz / 1024) 12); [lia|]. rewrite E0. simpl. rewrite Hxf, getn_putn_eq, Hxf, u32_id by lia.
      eexists _, _, _, _. split; [done|]. split; [|lia]. apply adv_direct; consts; lia.
    + destruct (Z.eqb_spec (sz / 1024) 12) as [E12|E12].
      * assert (E0 : d_addr (dn i) 12 = 0) by (apply I2; lia). rewrite E0. simpl. rewrite Hxf, getn_putn_eq, Hxf, !u32_id by lia.
        unfold rsect. cbn [sect freeblock freeinode]. rewrite (co_zero _ _ _ _ HC) by (consts; lia). cbn [mbind option_bind].
        change zeroes with zeros. rewrite getn_zeros. simpl. assert (Hz : length zeros = 1024%nat) by apply repeat_length.
        rewrite !(xint_id (freeblock s + 1)) by lia. rewrite getn_putn_eq, !(xint_id (freeblock s + 1)) by lia.
        eexists _, _, _, (own_add _ _ (own_add (freeblock s) (i, -1) own)). split; [done|]. split; [|lia]. unfold wsect. cbn [sect freeblock freeinode].
        apply adv_indirect; consts; try lia.
        { intros fbn' Hb. rewrite getn_zeros. symmetry. apply addr_value; lia. }
        { by rewrite length_putn. }
        { intros k Hk. unfold d_addr. apply getn_putn_ne; lia. }
        { unfold d_addr. apply getn_putn_eq; lia. }
        { apply getn_putn_ne; lia. }
        { apply getn_putn_ne; lia. }
        { unfold own_add. by rewrite Z.eqb_refl. }
        { intros b o Ho. unfold own_add. destruct (Z.eqb_spec b (freeblock s)) as [->|]; [|done]. by rewrite own_fresh in Ho by lia. }
        { intros b o. unfold own_add. destruct (Z.eqb_spec b (freeblock s)) as [->|]; [|by left]. intros [= <-]. right. split; [lia|done]. }
        { rewrite cost_next by done. rewrite Hr, E12. simpl. lia. }
      * destruct (ind_entries ltac:(lia)) as (B & HB & HBl & HBe). rewrite Hxi. destruct (Z.eqb_spec (d_addr (dn i) 12) 0); [lia|]. cbv beta iota zeta.
        fold (d_addr (dn i) 12). rewrite Hxi.
        unfold rsect. rewrite HB. cbn [mbind option_bind]. rewrite HBe by lia. rewrite (proj2 A2) by lia. simpl.
        rewrite Hxf, getn_putn_eq, Hxf, u32_id by (consts; lia).
        eexists _, _, _, _. split; [done|]. split; [|lia]. unfold wsect. cbn [sect freeblock freeinode].
        pose proof (co_ind _ _ _ _ HC i f Hf) as Hi. consts. destruct (Z.ltb_spec (12 * 1024) sz); [|lia]. pose proof (co_own _ _ _ _ HC _ _ Hi) as Hio. consts.
        apply (adv_indirect _ _ _ _ own); consts; try lia; try done.
        { intros b o Ho. by left. }
        { by left. }
        { rewrite cost_next by done. rewrite Hr. simpl. destruct (Z.eqb_spec (sz / 1024) 12); lia. }
  - rewrite file_sector_old by done. eexists _, _, _, _. split; [done|]. split; [by apply adv_old|done].
Qed.

End adv.

(** ** Appending to a file *)

Definition dn_set (i : nat) (din : list Z) (dn : nat -> list Z) : nat -> list Z := fun k => if decide (k = i) then din else dn k.

Lemma dn_set_eq i din dn : dn_set i din dn i = din.
Proof. unfold dn_set. by rewrite decide_True. Qed.

Lemma dn_set_ne i k din dn : k <> i -> dn_set i din dn k = dn k.
Proof. intros H. unfold dn_set. by rewrite decide_False. Qed.

Lemma total_insert F i f f' : F !! i = Some f -> total (<[i := f']> F) = total F - cost (flen f) + cost (flen f').
Proof.
  revert i. induction F as [|g F IH]; intros [|i] H; simplify_eq/=; [lia|]. rewrite (IH i H). lia.
Qed.

Lemma nth_default (l : list Z) j : nth j l 0 = default 0 (l !! j).
Proof. apply nth_lookup. Qed.

Section append.
Context (s : mkfs_st) (dn : nat -> list Z) (F : list (Z * list Z)) (own : owner) (HC : core s dn F own).
Context (i : nat) (f : Z * list Z) (Hf : F !! i = Some f) (d : list Z).
Context (Hd : 0 < Z.of_nat (length d) <= (flen f / BSIZE + 1) * BSIZE - flen f) (Hmax : flen f < MAXFILE * BSIZE).
Context (x : Z) (s1 : mkfs_st) (din1 : list Z) (own1 : owner) (HA : adv s (dn i) own i f.2 (flen f / BSIZE) x s1 din1 own1).
Context (Hroom : freeblock s1 <= FSSIZE).

#[local] Notation sz := (flen f).
#[local] Notation g2 := (<[x := splice (blk (sect s1) x) (Z.to_nat (flen f - flen f / BSIZE * BSIZE)) d]> (sect s1)).

(** A block of another place is as it was. *)
Lemma sect_kept b o : own b = Some o -> o <> (i, -1) -> o <> (i, sz / BSIZE) -> g2 !! b = sect s !! b.
Proof.
  intros Hb Ho1 Ho2. rewrite lookup_insert_ne.
  - apply (ad_sect _ _ _ _ _ _ _ _ _ _ HA); [congruence|]. apply (co_own _ _ _ _ HC) in Hb. lia.
  - intros <-. apply (ad_sub _ _ _ _ _ _ _ _ _ _ HA) in Hb. rewrite (ad_own _ _ _ _ _ _ _ _ _ _ HA) in Hb. congruence.
Qed.

Lemma blk_kept b o : own b = Some o -> o <> (i, -1) -> o <> (i, sz / BSIZE) -> blk g2 b = blk (sect s) b.
Proof. intros Hb H1 H2. unfold blk at 1. by rewrite (sect_kept _ _ Hb). Qed.

Lemma free_mono : freeblock s <= freeblock s1.
Proof.
  destruct (ad_free _ _ _ _ _ _ _ _ _ _ HA) as [Efr _]. destruct (fbn_range f Hmax) as (H0 & _).
  change (Z.of_nat (length f.2)) with sz in Efr. rewrite (cost_next sz) in Efr by done.
  destruct (sz mod 1024 =? 0), (sz / 1024 =? 12); lia.
Qed.

Lemma own_range b o : own1 b = Some o -> nmeta <= b < freeblock s1.
Proof.
  intros Ho. pose proof free_mono. destruct (ad_new _ _ _ _ _ _ _ _ _ _ HA _ _ Ho) as [Ho'|[Ho' _]].
  - apply (co_own _ _ _ _ HC) in Ho'. lia.
  - pose proof (free_range s dn F own HC). consts. lia.
Qed.

Lemma fblk_other k h fbn' : F !! k = Some h -> k <> i -> 0 <= fbn' < MAXFILE -> fblk g2 (dn k) fbn' = fblk (sect s) (dn k) fbn'.
Proof.
  intros Hk Hne Hb. unfold fblk. destruct (fbn' <? NDIRECT); [done|]. destruct (Z.eqb_spec (d_addr (dn k) NDIRECT) 0); [done|].
  pose proof (co_ind _ _ _ _ HC k h Hk) as Hi. destruct (NDIRECT * BSIZE <? flen h); [|done].
  by rewrite (blk_kept _ _ Hi) by congruence.
Qed.

Lemma fblk_own fbn' : 0 <= fbn' < MAXFILE -> fblk g2 din1 fbn' = if fbn' =? sz / BSIZE then x else fblk (sect s) (dn i) fbn'.
Proof.
  intros Hb. transitivity (fblk (sect s1) din1 fbn').
  - unfold fblk. destruct (Z.ltb_spec fbn' NDIRECT); [done|]. destruct (Z.eqb_spec (d_addr din1 NDIRECT) 0); [done|].
    unfold blk at 1. rewrite lookup_insert_ne; [done|]. intros Ex. pose proof (ad_ind _ _ _ _ _ _ _ _ _ _ HA) as Hi.
    destruct (sz / BSIZE <? NDIRECT); [done|]. rewrite <- Ex in Hi. rewrite (ad_own _ _ _ _ _ _ _ _ _ _ HA) in Hi. injection Hi as Hi.
    destruct (fbn_range f Hmax). lia.
  - destruct (Z.eqb_spec fbn' (sz / BSIZE)) as [->|]; [apply HA|by apply HA].
Qed.

Lemma nb_new : nb (flen (f.1, f.2 ++ d)) = sz / 1024 + 1 /\ cost (flen (f.1, f.2 ++ d)) = cost (sz + 1) /\
  flen (f.1, f.2 ++ d) = sz + Z.of_nat (length d).
Proof.
  destruct (fbn_range f Hmax) as (H0 & _). unfold flen in *. cbn [snd]. rewrite length_app, Nat2Z.inj_add. consts.
  split; [apply nb_block; lia|]. split; [|done]. apply cost_block; lia.
Qed.

(** The block that gets the bytes. *)
Lemma bytes_new j : (j < Z.to_nat BSIZE)%nat ->
  nth j (splice (blk (sect s1) x) (Z.to_nat (sz - sz / BSIZE * BSIZE)) d) 0 =
  default 0 ((f.2 ++ d) !! (Z.to_nat (sz / BSIZE * BSIZE) + j)%nat).
Proof.
  intros Hj. pose proof (ad_data _ _ _ _ _ _ _ _ _ _ HA j Hj) as Hold. destruct (fbn_range f Hmax) as (H0 & H1 & H2 & H3).
  assert (Hl : length (blk (sect s1) x) = Z.to_nat BSIZE).
  { destruct (ad_len _ _ _ _ _ _ _ _ _ _ HA x) as (b & Hb & Hbl); [|by rewrite (blk_sect _ _ _ Hb)].
    pose proof (own_range x _ (ad_own _ _ _ _ _ _ _ _ _ _ HA)). pose proof (free_range s dn F own HC). consts. lia. }
  rewrite nth_default in *. unfold flen in *. consts. set (r := Z.to_nat (Z.of_nat (length f.2) - _)).
  destruct (decide (j < r)%nat); [|destruct (decide (j < r + length d)%nat)].
  - rewrite splice_lookup_lt, Hold by lia. by rewrite lookup_app_l by lia.
  - rewrite splice_lookup_in by lia. rewrite lookup_app_r by lia. do 2 f_equal. lia.
  - rewrite splice_lookup_ge, Hold by lia. rewrite !lookup_ge_None_2; [done|rewrite length_app; lia|lia].
Qed.

Lemma core_append : core (mk_mkfs g2 (freeinode s1) (freeblock s1)) (dn_set i din1 dn) (<[i := (f.1, f.2 ++ d)]> F) own1.
Proof.
  destruct (fbn_range f Hmax) as (H0 & H1 & H2 & H3). destruct nb_new as (N1 & N2 & N3). pose proof (nb_div sz H0) as Hnb.
  pose proof (ad_own _ _ _ _ _ _ _ _ _ _ HA) as Hx. assert (Hi : (i < length F)%nat) by by eapply lookup_lt_Some.
  assert (Hcase : forall k h, <[i := (f.1, f.2 ++ d)]> F !! k = Some h -> k = i /\ h = (f.1, f.2 ++ d) \/ k <> i /\ F !! k = Some h).
  { intros k h. destruct (decide (k = i)) as [->|]; [rewrite list_lookup_insert_eq by done; intros [= <-]; auto|].
    rewrite list_lookup_insert_ne by done. auto. }
  pose proof (own_range _ _ Hx) as Hx1. pose proof free_mono as Hmono.
  split; cbn [sect freeinode freeblock].
  - intros n Hn. destruct (ad_len _ _ _ _ _ _ _ _ _ _ HA n Hn) as (b & Hb & Hl). destruct (decide (n = x)) as [->|].
    + rewrite lookup_insert_eq. eexists. split; [done|]. rewrite length_splice. by rewrite (blk_sect _ _ _ Hb).
    + rewrite lookup_insert_ne by done. eauto.
  - intros k h [[-> ->]|[Hk Hh]]%Hcase; [rewrite dn_set_eq|rewrite dn_set_ne by done; by apply (co_din _ _ _ _ HC)].
    destruct (ad_din _ _ _ _ _ _ _ _ _ _ HA) as (E1 & -> & ->). split; [done|]. by apply (co_din _ _ _ _ HC i f).
  - intros k h [[-> ->]|[Hk Hh]]%Hcase; [|by eapply (co_max _ _ _ _ HC)]. rewrite N3. consts. lia.
  - intros k h fbn' [[-> ->]|[Hk Hh]]%Hcase Hb.
    + rewrite dn_set_eq, N1, fblk_own by done. pose proof (co_addr _ _ _ _ HC i f fbn' Hf Hb) as Ha. consts.
      destruct (Z.eqb_spec fbn' (sz / 1024)) as [->|Hne]; [by destruct (Z.ltb_spec (sz / 1024) (sz / 1024 + 1)); [|lia]|].
      destruct (Z.ltb_spec fbn' (sz / 1024 + 1)), (Z.ltb_spec fbn' (nb sz)); try done; [by apply HA| |]; destruct (sz mod 1024 =? 0); lia.
    + rewrite dn_set_ne by done. rewrite (fblk_other k h) by done. pose proof (co_addr _ _ _ _ HC k h fbn' Hh Hb) as Ha.
      destruct (fbn' <? nb (flen h)); [|done]. by apply HA.
  - intros k h [[-> ->]|[Hk Hh]]%Hcase.
    + rewrite dn_set_eq, N3. pose proof (ad_ind _ _ _ _ _ _ _ _ _ _ HA) as Ha. consts.
      destruct (Z.ltb_spec (sz / 1024) 12), (Z.ltb_spec (12 * 1024) (sz + Z.of_nat (length d))); done || lia.
    + rewrite dn_set_ne by done. pose proof (co_ind _ _ _ _ HC k h Hh) as Ha. destruct (NDIRECT * BSIZE <? flen h); [|done]. by apply HA.
  - exact own_range.
  - intros b Hb. rewrite lookup_insert_ne by lia. rewrite (ad_sect _ _ _ _ _ _ _ _ _ _ HA); [apply (co_zero _ _ _ _ HC); lia| |lia].
    rewrite (own_fresh s dn F own HC) by lia. done.
  - rewrite (total_insert _ _ f) by done. destruct (ad_free _ _ _ _ _ _ _ _ _ _ HA) as [-> _].
    destruct (co_free _ _ _ _ HC) as [-> _]. rewrite N2. change (Z.of_nat (length f.2)) with sz. split; [lia|].
    destruct (ad_free _ _ _ _ _ _ _ _ _ _ HA) as [E _]. destruct (co_free _ _ _ _ HC) as [E' _]. change (Z.of_nat (length f.2)) with sz in E. lia.
  - intros k h fbn' j [[-> ->]|[Hk Hh]]%Hcase Hb Hj.
    + rewrite dn_set_eq. rewrite N1 in Hb. rewrite fblk_own by (consts; lia). cbn [snd].
      destruct (Z.eqb_spec fbn' (sz / BSIZE)) as [->|Hne].
      * rewrite (blk_sect _ _ _ (lookup_insert_eq _ _ _)). apply bytes_new; done.
      * assert (Hlt : fbn' < nb sz) by (rewrite Hnb; consts; destruct (sz mod 1024 =? 0); lia).
        assert (Ha : own (fblk (sect s) (dn i) fbn') = Some (i, fbn')).
        { pose proof (co_addr _ _ _ _ HC i f fbn' Hf) as Ha. consts. destruct (Z.ltb_spec fbn' (nb sz)); [apply Ha|]; lia. }
        rewrite (blk_kept _ _ Ha) by (intros [= ?]; lia). rewrite (co_bytes _ _ _ _ HC i f) by (done || lia).
        consts. f_equal. symmetry. apply lookup_app_l. unfold flen in *. lia.
    + rewrite dn_set_ne by done. assert (Hbm : 0 <= fbn' < MAXFILE).
      { pose proof (co_max _ _ _ _ HC k h Hh). assert (nb (flen h) <= 268); [|consts; lia].
        unfold nb. consts. apply Z.lt_succ_r, Z.div_lt_upper_bound; lia. }
      rewrite (fblk_other k h) by done. pose proof (co_addr _ _ _ _ HC k h fbn' Hh Hbm) as Ha.
      destruct (Z.ltb_spec fbn' (nb (flen h))); [|lia]. rewrite (blk_kept _ _ Ha) by congruence. by apply (co_bytes _ _ _ _ HC).
Qed.

End append.

Lemma cost_mono n k : 0 <= n <= k -> cost n <= cost k.
Proof.
  intros H. unfold cost, nb. consts. assert ((n + 1024 - 1) / 1024 <= (k + 1024 - 1) / 1024) by (apply Z.div_le_mono; lia).
  destruct (Z.ltb_spec (12 * 1024) n), (Z.ltb_spec (12 * 1024) k); lia.
Qed.

(** The dinodes other than that of [i] are the same. *)
Definition dn_same (i : nat) (dn dn' : nat -> list Z) : Prop := forall k, k <> i -> dn' k = dn k.
Definition meta_same (s s' : mkfs_st) : Prop := (forall b, b < nmeta -> sect s' !! b = sect s !! b) /\ freeinode s' = freeinode s.

Lemma iappend_loop_ok fuel s dn F own i f p :
  core s dn F own -> F !! i = Some f -> flen f + Z.of_nat (length p) <= MAXFILE * BSIZE ->
  freeblock s + (cost (flen f + Z.of_nat (length p)) - cost (flen f)) <= FSSIZE -> (length p < fuel)%nat ->
  exists s' dn' own', iappend_loop fuel (dn i) (flen f) p s = Some (dn' i, flen f + Z.of_nat (length p), s') /\
    core s' dn' (<[i := (f.1, f.2 ++ p)]> F) own' /\ dn_same i dn dn' /\ meta_same s s'.
Proof.
  revert s dn F own f p. induction fuel as [|fuel IH]; intros s dn F own f p HC Hf Hmax Hroom Hfuel; [lia|].
  assert (H0 : 0 <= flen f) by (unfold flen; lia).
  destruct p as [|c p].
  { exists s, dn, own. simpl. rewrite Z.add_0_r, app_nil_r. split; [done|]. split; [|done].
    assert ((f.1, f.2) = f) as -> by by destruct f. by rewrite list_insert_id. }
  set (d := c :: p) in *. assert (Hd0 : 0 < Z.of_nat (length d)) by (simpl; lia).
  pose proof (fbn_range f ltac:(consts; lia)) as (_ & H1 & H2 & H3).
  assert (Hroom1 : freeblock s + (cost (flen f + 1) - cost (flen f)) <= FSSIZE).
  { pose proof (cost_mono (flen f + 1) (flen f + Z.of_nat (length d)) ltac:(lia)). lia. }
  destruct (file_sector_adv s dn F own HC i f Hf ltac:(consts; lia) Hroom1) as (x & din1 & s1 & own1 & E & HA & Hx).
  set (n1 := Z.min (Z.of_nat (length d)) ((flen f / BSIZE + 1) * BSIZE - flen f)).
  assert (Hn1 : 0 < n1 <= Z.of_nat (length d)) by (unfold n1; consts; lia).
  set (d1 := take (Z.to_nat n1) d). assert (Hd1 : Z.of_nat (length d1) = n1) by (unfold d1; rewrite length_take; lia).
  assert (Hfr1 : freeblock s1 = freeblock s + (cost (flen f + 1) - cost (flen f))) by apply (ad_free _ _ _ _ _ _ _ _ _ _ HA).
  pose proof (core_append s dn F own HC i f Hf d1 ltac:(rewrite Hd1; unfold n1 in *; lia) ltac:(consts; lia) x s1 din1 own1 HA ltac:(lia)) as HC2.
  cbn [iappend_loop]. fold d. change (match d with [] => _ | _ :: _ => ?b end) with b. cbv zeta.
  destruct (Z.ltb_spec (flen f / BSIZE) MAXFILE); [|consts; lia]. cbn [negb]. rewrite E. cbn [mbind option_bind]. fold n1.
  destruct (ad_len _ _ _ _ _ _ _ _ _ _ HA x Hx) as (b & Hb & Hbl). unfold rsect. rewrite Hb. cbn [mbind option_bind]. fold d1.
  set (s2 := wsect x _ s1). change (mk_mkfs _ _ _) with s2 in HC2 || idtac.
  assert (Es2 : s2 = mk_mkfs (<[x := splice (blk (sect s1) x) (Z.to_nat (flen f - flen f / BSIZE * BSIZE)) d1]> (sect s1)) (freeinode s1) (freeblock s1))
    by (unfold s2, wsect; by rewrite (blk_sect _ _ _ Hb)).
  rewrite <- Es2 in HC2. set (f1 := (f.1, f.2 ++ d1)).
  assert (Hf1 : flen f1 = flen f + n1) by (unfold flen, f1 in *; cbn [snd]; rewrite length_app; lia).
  assert (Hl : (i < length F)%nat) by by eapply lookup_lt_Some.
  assert (Hrest : Z.of_nat (length (drop (Z.to_nat n1) d)) = Z.of_nat (length d) - n1) by (rewrite length_drop; lia).
  destruct (IH s2 (dn_set i din1 dn) (<[i := f1]> F) own1 f1 (drop (Z.to_nat n1) d)) as (s' & dn' & own' & E' & HC' & Hdn & Hm).
  { done. }
  { by apply list_lookup_insert_eq. }
  { rewrite Hf1, Hrest. lia. }
  { rewrite Hf1, Hrest. replace (flen f + n1 + (Z.of_nat (length d) - n1)) with (flen f + Z.of_nat (length d)) by lia.
    rewrite (cost_block (flen f) (flen f + n1)) by (unfold n1 in *; consts; lia). rewrite Es2. cbn [freeblock]. lia. }
  { rewrite length_drop. lia. }
  rewrite dn_set_eq, Hf1, Hrest in E'. rewrite u32_id by (consts; lia). rewrite E'.
  exists s', dn', own'. split; [do 3 f_equal; lia|]. split; [|split].
  - rewrite list_insert_insert_eq in HC'. unfold f1, d1 in HC'. cbn [fst snd] in HC'. by rewrite <- app_assoc, take_drop in HC'.
  - intros k Hk. rewrite Hdn by done. by apply dn_set_ne.
  - destruct Hm as [Hm1 Hm2]. split.
    + intros b' Hb'. rewrite Hm1, Es2 by done. cbn [sect].
      pose proof (own_range s dn F own HC i f d1 ltac:(consts; lia) x s1 din1 own1 HA x _ (ad_own _ _ _ _ _ _ _ _ _ _ HA)) as Hxr.
      rewrite lookup_insert_ne by lia. pose proof (free_range s dn F own HC). apply (ad_sect _ _ _ _ _ _ _ _ _ _ HA); [|consts; lia].
      intros Ho%(co_own _ _ _ _ HC). lia.
    + rewrite Hm2, Es2. apply (ad_free _ _ _ _ _ _ _ _ _ _ HA).
Qed.
