(* ===== verification/MkfsImage.v ===== *)
(** * [mkfs]: the image and what the kernel finds in it

    The blocks of the inodes, [ialloc], [iappend] and the main program on top
    of the invariant of the blocks of the files; then the image as the
    kernel's file system reads it. *)

From S2P Require Import Prelude Defs State Memory Bio BioCache Fs FsOps FsRead FsWrite FsDir Mkfs MkfsSpec.

(** ** Changes that keep the invariant of the blocks *)

(** The dinodes have the same type, links and addresses. *)
Definition din_same (d d' : list Z) : Prop :=
  length d' = length d /\ getn 2 d' 0 = getn 2 d 0 /\ getn 2 d' 6 = getn 2 d 6 /\ forall a, 0 <= a <= NDIRECT -> d_addr d' a = d_addr d a.

Lemma fblk_same g d d' fbn : din_same d d' -> 0 <= fbn -> fblk g d' fbn = fblk g d fbn.
Proof.
  intros (_ & _ & _ & H) Hn. unfold fblk. rewrite !(H NDIRECT) by (consts; lia).
  destruct (Z.ltb_spec fbn NDIRECT); [apply H; lia|done].
Qed.

Lemma nb_max n : 0 <= n <= MAXFILE * BSIZE -> 0 <= nb n <= MAXFILE.
Proof.
  intros H. unfold nb. consts. split; [apply Z.div_pos; lia|].
  assert ((n + 1024 - 1) / 1024 < 269) by (apply Z.div_lt_upper_bound; lia). lia.
Qed.

Lemma core_dn s dn dn' F own :
  core s dn F own -> (forall k f, F !! k = Some f -> din_same (dn k) (dn' k)) -> core s dn' F own.
Proof.
  intros HC H. split; try apply HC.
  - intros k f Hk. destruct (H k f Hk) as (-> & -> & -> & _). by apply (co_din _ _ _ _ HC).
  - intros k f fbn Hk Hn. rewrite (fblk_same _ _ _ _ (H k f Hk)) by lia. by apply (co_addr _ _ _ _ HC).
  - intros k f Hk. destruct (H k f Hk) as (_ & _ & _ & E). rewrite E by (consts; lia). by apply (co_ind _ _ _ _ HC).
  - intros k f fbn j Hk Hn Hj. rewrite (fblk_same _ _ _ _ (H k f Hk)) by lia. by apply (co_bytes _ _ _ _ HC).
Qed.

Lemma fblk_meta s dn F own b d k f fbn :
  core s dn F own -> b < nmeta -> F !! k = Some f -> fblk (<[b := d]> (sect s)) (dn k) fbn = fblk (sect s) (dn k) fbn.
Proof.
  intros HC Hb Hk. unfold fblk. destruct (fbn <? NDIRECT); [done|]. pose proof (co_ind _ _ _ _ HC k f Hk) as Hi.
  destruct (NDIRECT * BSIZE <? flen f); [|by rewrite Hi].
  apply (co_own _ _ _ _ HC) in Hi. unfold blk. by rewrite lookup_insert_ne by lia.
Qed.

Lemma core_meta s dn F own b d n :
  core s dn F own -> b < nmeta -> length d = Z.to_nat BSIZE -> core (mk_mkfs (<[b := d]> (sect s)) n (freeblock s)) dn F own.
Proof.
  intros HC Hb Hd. split; cbn [sect freeblock]; try apply HC.
  - intros m Hm. destruct (decide (m = b)) as [->|]; [rewrite lookup_insert_eq; eauto|].
    rewrite lookup_insert_ne by done. by apply (co_sect _ _ _ _ HC).
  - intros k f fbn Hk Hn. rewrite (fblk_meta _ _ _ _ _ _ _ _ _ HC Hb Hk). by apply (co_addr _ _ _ _ HC).
  - intros m Hm. pose proof (free_range _ _ _ _ HC). rewrite lookup_insert_ne by (consts; lia). by apply (co_zero _ _ _ _ HC).
  - intros k f fbn j Hk Hn Hj. rewrite (fblk_meta _ _ _ _ _ _ _ _ _ HC Hb Hk).
    rewrite <- (co_bytes _ _ _ _ HC k f fbn j Hk Hn Hj). unfold blk.
    pose proof (co_max _ _ _ _ HC k f Hk). pose proof (nb_max (flen f) ltac:(unfold flen in *; lia)).
    pose proof (co_addr _ _ _ _ HC k f fbn Hk ltac:(lia)) as Ho. rewrite (proj2 (Z.ltb_lt _ _)) in Ho by lia.
    apply (co_own _ _ _ _ HC) in Ho. by rewrite lookup_insert_ne by lia.
Qed.

Lemma total_app F G : total (F ++ G) = total F + total G.
Proof. induction F as [|f F IH]; simpl; [done|]. rewrite IH. lia. Qed.

Lemma flen_nil (t : Z) : flen (t, []) = 0.
Proof. done. Qed.

(** A file without blocks is added. *)
Lemma core_new s dn F own t :
  core s dn F own -> length (dn (length F)) = 64%nat -> getn 2 (dn (length F)) 0 = t -> getn 2 (dn (length F)) 6 = 1 ->
  (forall a, 0 <= a <= NDIRECT -> d_addr (dn (length F)) a = 0) -> core s dn (F ++ [(t, [])]) own.
Proof.
  intros HC H1 H2 H3 H4.
  assert (HF : forall k f, (F ++ [(t, [])]) !! k = Some f -> F !! k = Some f \/ k = length F /\ f = (t, [])).
  { intros k f. rewrite lookup_app. destruct (F !! k) eqn:E; [auto|]. apply lookup_ge_None in E.
    destruct (k - length F)%nat eqn:En; [|done]. intros [= <-]. right. split; [lia|done]. }
  assert (Hz : forall g fbn, 0 <= fbn -> fblk g (dn (length F)) fbn = 0).
  { intros g fbn Hn. unfold fblk. rewrite (H4 NDIRECT) by (consts; lia). destruct (Z.ltb_spec fbn NDIRECT); [by apply H4; lia|done]. }
  split; try apply HC.
  - intros k f [Hk|[-> ->]]%HF; [by apply (co_din _ _ _ _ HC)|done].
  - intros k f [Hk|[-> ->]]%HF; [by eapply (co_max _ _ _ _ HC)|done].
  - intros k f fbn [Hk|[-> ->]]%HF Hn; [by apply (co_addr _ _ _ _ HC)|]. rewrite flen_nil.
    change (nb 0) with 0. destruct (Z.ltb_spec fbn 0); [lia|]. apply Hz. lia.
  - intros k f [Hk|[-> ->]]%HF; [by apply (co_ind _ _ _ _ HC)|]. rewrite flen_nil. apply H4. consts. lia.
  - rewrite total_app. cbn [total]. rewrite flen_nil. change (cost 0) with 0. rewrite !Z.add_0_r. apply HC.
  - intros k f fbn j [Hk|[-> ->]]%HF Hn Hj; [by apply (co_bytes _ _ _ _ HC)|].
    rewrite flen_nil in Hn. change (nb 0) with 0 in Hn. lia.
Qed.

(** ** Inodes on the disk *)

Lemma IBLOCK_eq inum : 0 <= inum < NINODES -> IBLOCK inum mkfs_sb = inum / 16 + 32 /\ 32 <= inum / 16 + 32 < 45.
Proof.
  intros H. unfold NINODES in H. assert (0 <= inum / 16 < 13) by (split; [apply Z.div_pos; lia|apply Z.div_lt_upper_bound; lia]).
  split; [|lia]. unfold IBLOCK. change IPB with 16. change (sb_inodestart mkfs_sb) with 32. apply u32_id. lia.
Qed.

Lemma dinode_off_eq inum : 0 <= dinode_off inum <= 960 /\ dinode_off inum = 64 * (inum mod 16).
Proof. unfold dinode_off. change IPB with 16. change sizeof_dinode with 64. pose proof (Z.mod_pos_bound inum 16). lia. Qed.

Lemma winode_rule s dn F own inum din :
  core s dn F own -> 0 <= inum < NINODES -> length din = 64%nat ->
  exists b d, winode inum din s = Some (wsect b d s) /\ length d = Z.to_nat BSIZE /\ 32 <= b < 45 /\
    forall j, 0 <= j < NINODES -> rinode j (wsect b d s) = if decide (j = inum) then Some din else rinode j s.
Proof.
  intros HC Hi Hd. destruct (IBLOCK_eq inum Hi) as [Eb Hb]. pose proof (dinode_off_eq inum) as [Ho Eo].
  destruct (co_sect _ _ _ _ HC (IBLOCK inum mkfs_sb)) as (buf & Hbuf & Hl); [rewrite Eb; consts; lia|].
  exists (IBLOCK inum mkfs_sb), (splice buf (Z.to_nat (dinode_off inum)) din).
  split; [|split; [by rewrite length_splice|split; [by rewrite Eb|]]].
  { unfold winode, rsect. by rewrite Hbuf. }
  intros j Hj. destruct (IBLOCK_eq j Hj) as [Ej _]. pose proof (dinode_off_eq j) as [Hoj Eoj].
  unfold rinode, rsect, wsect. cbn [sect]. change (Z.to_nat BSIZE) with 1024%nat in *.
  destruct (decide (j = inum)) as [->|Hne].
  - rewrite lookup_insert_eq. cbn [mbind option_bind]. f_equal. apply list_eq. intros n.
    destruct (decide (n < 64)%nat).
    + rewrite lookup_take_lt, lookup_drop, splice_lookup_in by lia. f_equal. lia.
    + rewrite lookup_take_ge, lookup_ge_None_2 by lia. done.
  - destruct (decide (IBLOCK j mkfs_sb = IBLOCK inum mkfs_sb)) as [E|E]; [|by rewrite lookup_insert_ne].
    rewrite E, lookup_insert_eq, Hbuf. cbn [mbind option_bind]. f_equal. apply take_drop_ext. intros n Hn.
    assert (j mod 16 <> inum mod 16).
    { intros Em. apply Hne. rewrite Ej, Eb in E. rewrite (Z.div_mod j 16), (Z.div_mod inum 16), Em by lia. lia. }
    destruct (decide (n < Z.to_nat (dinode_off inum))%nat); [apply splice_lookup_lt; lia|apply splice_lookup_ge; lia].
Qed.

(** ** The image between two operations *)

(** The dinode of [inum] when there are [n] files. *)
Definition disk_din (dn : nat -> list Z) (n : nat) (inum : Z) : list Z :=
  if decide (1 <= inum <= Z.of_nat n) then dn (Z.to_nat (inum - 1)) else repeat 0 64.

(** The boot block, the superblock and the log. *)
Definition boot_blocks (g : gmap Z (list Z)) : Prop :=
  forall b, 0 <= b < 32 -> g !! b = Some (if b =? 1 then splice zeroes 0 (sb_bytes mkfs_sb) else zeroes).

Record image (s : mkfs_st) (dn : nat -> list Z) (F : list (Z * list Z)) : Prop := {
  im_core : exists own, core s dn F own;
  im_disk inum : 0 <= inum < NINODES -> rinode inum s = Some (disk_din dn (length F) inum);
  im_next : freeinode s = Z.of_nat (length F) + 1;
  im_boot : boot_blocks (sect s) }.

(** The sizes in the dinodes. *)
Definition sizes (dn : nat -> list Z) (F : list (Z * list Z)) : Prop := forall i f, F !! i = Some f -> getn 4 (dn i) 8 = flen f.

Lemma boot_insert g b d : boot_blocks g -> 32 <= b -> boot_blocks (<[b := d]> g).
Proof. intros H Hb n Hn. rewrite lookup_insert_ne by lia. by apply H. Qed.

(** The dinode of file [i] is written, whatever was there. *)
Lemma winode_image s dn F own i din :
  core s dn F own -> (forall j, 0 <= j < NINODES -> j <> Z.of_nat i + 1 -> rinode j s = Some (disk_din dn (length F) j)) ->
  freeinode s = Z.of_nat (length F) + 1 -> boot_blocks (sect s) ->
  (i < length F)%nat -> Z.of_nat (length F) < NINODES -> din_same (dn i) din ->
  exists s', winode (Z.of_nat i + 1) din s = Some s' /\ image s' (dn_set i din dn) F.
Proof.
  intros HC HD HN HB Hi HF Hs. destruct (lookup_lt_is_Some_2 F i Hi) as [f Hf].
  assert (Hl : length din = 64%nat) by (destruct Hs as [-> _]; by apply (co_din _ _ _ _ HC i f)).
  destruct (winode_rule s dn F own (Z.of_nat i + 1) din HC ltac:(lia) Hl) as (b & d & -> & Hd & Hb & Hr).
  exists (wsect b d s). split; [done|]. split; try done.
  - exists own. apply (core_dn _ dn); [apply core_meta; [done|consts; lia|done]|].
    intros k f' Hk. destruct (decide (k = i)) as [->|]; [by rewrite dn_set_eq|]. by rewrite dn_set_ne.
  - intros j Hj. rewrite Hr by done. unfold disk_din. destruct (decide (j = Z.of_nat i + 1)) as [->|Hne].
    + rewrite decide_True by lia. replace (Z.to_nat (Z.of_nat i + 1 - 1)) with i by lia. by rewrite dn_set_eq.
    + rewrite HD by done. unfold disk_din. case_decide; [|done]. by rewrite dn_set_ne by lia.
  - cbn [wsect sect]. apply boot_insert; [done|lia].
Qed.

Lemma put_size_same d v : length d = 64%nat -> din_same d (putn 4 d 8 v).
Proof.
  intros Hl. split; [apply length_putn|]. split; [apply getn_putn_ne; lia|]. split; [apply getn_putn_ne; lia|].
  intros a Ha. apply getn_putn_ne; lia.
Qed.

(** ** [ialloc] and [iappend] *)

Definition new_din (t : Z) : list Z := putn 4 (putn 2 (putn 2 (repeat 0 64) 0 t) 6 1) 8 0.

Lemma getn_repeat n m off : getn n (repeat 0 m) off = 0.
Proof.
  unfold getn. assert (H : Forall (fun z => z = 0) (take n (drop (Z.to_nat off) (repeat 0 m)))).
  { apply Forall_take, Forall_drop, Forall_forall. intros z Hz. by apply list_elem_of_In, repeat_spec in Hz. }
  induction H as [|z l -> Hl IH]; simpl; lia.
Qed.

Lemma new_din_spec t : 0 <= t < 2 ^ 16 ->
  length (new_din t) = 64%nat /\ getn 2 (new_din t) 0 = t /\ getn 2 (new_din t) 6 = 1 /\ getn 4 (new_din t) 8 = 0 /\
  forall a, 0 <= a <= NDIRECT -> d_addr (new_din t) a = 0.
Proof.
  intros Ht. unfold new_din. assert (H1 : length (putn 2 (repeat 0 64) 0 t) = 64%nat) by (by rewrite length_putn).
  assert (H2 : length (putn 2 (putn 2 (repeat 0 64) 0 t) 6 1) = 64%nat) by (by rewrite length_putn).
  split; [by rewrite length_putn|]. split; [rewrite !getn_putn_ne, getn_putn_eq by (try rewrite repeat_length; lia); done|].
  split; [rewrite getn_putn_ne, getn_putn_eq by lia; done|]. split; [rewrite getn_putn_eq by lia; done|].
  intros a Ha. unfold d_addr. rewrite !getn_putn_ne by lia. apply getn_repeat.
Qed.

Lemma ialloc_image s dn F t :
  image s dn F -> sizes dn F -> Z.of_nat (length F) + 1 < NINODES -> 0 <= t < 2 ^ 16 ->
  exists s' dn', mk_ialloc t s = Some (Z.of_nat (length F) + 1, s') /\ image s' dn' (F ++ [(t, [])]) /\ sizes dn' (F ++ [(t, [])]).
Proof.
  intros [[own HC] HD HN HB] HS HF Ht. destruct (new_din_spec t Ht) as (N1 & N2 & N3 & N4 & N5).
  set (dn1 := dn_set (length F) (new_din t) dn).
  assert (Hlt : forall k f, F !! k = Some f -> dn1 k = dn k).
  { intros k f Hk%lookup_lt_Some. apply dn_set_ne. lia. }
  assert (HC1 : core s dn1 (F ++ [(t, [])]) own).
  { apply core_new; unfold dn1; rewrite ?dn_set_eq; try done. apply (core_dn _ dn); [done|].
    intros k f Hk. rewrite <- (Hlt k f Hk). done. }
  set (s1 := mk_mkfs (sect s) (u32 (freeinode s + 1)) (freeblock s)).
  assert (HC2 : core s1 dn1 (F ++ [(t, [])]) own) by (destruct HC1; split; done).
  destruct (winode_image s1 dn1 (F ++ [(t, [])]) own (length F) (new_din t)) as (s' & E & HI); try done.
  - intros j Hj Hne. change (rinode j s1) with (rinode j s). rewrite HD by done. unfold disk_din. rewrite length_app. cbn [length].
    destruct (decide (1 <= j <= Z.of_nat (length F))).
    + rewrite decide_True by lia. unfold dn1. by rewrite dn_set_ne by lia.
    + by rewrite decide_False by lia.
  - rewrite length_app. cbn [length s1 freeinode]. rewrite HN, u32_id by (unfold NINODES in *; lia). lia.
  - rewrite length_app. simpl. lia.
  - rewrite length_app. simpl. lia.
  - unfold dn1. by rewrite dn_set_eq.
  - exists s', (dn_set (length F) (new_din t) dn1). split; [|split; [done|]].
    + unfold mk_ialloc. fold s1. rewrite HN, (xshort_id t) by lia. change (xshort 1) with 1. change (xint 0) with 0.
      fold (new_din t). by rewrite E.
    + intros k f. destruct (decide (k = length F)) as [->|Hne].
      * rewrite dn_set_eq, list_lookup_middle by done. by intros [= <-].
      * rewrite dn_set_ne, lookup_app by done. destruct (F !! k) eqn:Ek; [intros [= ->]; rewrite (Hlt k f Ek); by apply HS|].
        apply lookup_ge_None in Ek. destruct (k - length F)%nat eqn:En; [lia|done].
Qed.

Lemma iappend_image s dn F i f p :
  image s dn F -> sizes dn F -> F !! i = Some f -> Z.of_nat (length F) < NINODES ->
  flen f + Z.of_nat (length p) <= MAXFILE * BSIZE -> nmeta + total (<[i := (f.1, f.2 ++ p)]> F) <= FSSIZE ->
  exists s' dn', iappend (Z.of_nat i + 1) p s = Some s' /\ image s' dn' (<[i := (f.1, f.2 ++ p)]> F) /\
    sizes dn' (<[i := (f.1, f.2 ++ p)]> F).
Proof.
  intros [[own HC] HD HN HB] HS Hf HF Hmax Hroom. set (F' := <[i := _]> F) in *.
  pose proof (lookup_lt_Some _ _ _ Hf) as Hi. assert (Hl : length F' = length F) by apply length_insert.
  assert (Hlen : flen (f.1, f.2 ++ p) = flen f + Z.of_nat (length p)) by (unfold flen; cbn [snd]; rewrite length_app; lia).
  assert (H0 : 0 <= flen f) by (unfold flen; lia).
  destruct (iappend_loop_ok (S (length p)) s dn F own i f p HC Hf Hmax) as (s1 & dn1 & own1 & E & HC1 & Hdn & Hm1 & Hm2); [|lia|].
  { rewrite <- Hlen. unfold F' in Hroom. rewrite (total_insert F i f _ Hf) in Hroom. pose proof (co_free _ _ _ _ HC). lia. }
  assert (Hd1 : length (dn1 i) = 64%nat).
  { apply (co_din _ _ _ _ HC1 i (f.1, f.2 ++ p)). by apply list_lookup_insert_eq. }
  set (din := putn 4 (dn1 i) 8 (flen f + Z.of_nat (length p))).
  destruct (winode_image s1 dn1 F' own1 i din) as (s' & E' & HI); try done.
  - intros j Hj Hne. rewrite Hl. transitivity (rinode j s).
    { unfold rinode, rsect. rewrite Hm1; [done|]. destruct (IBLOCK_eq j Hj). consts. lia. }
    rewrite HD by done. unfold disk_din. case_decide; [|done]. by rewrite Hdn by lia.
  - by rewrite Hm2, Hl.
  - intros b Hb. rewrite Hm1 by (consts; lia). by apply HB.
  - by rewrite Hl.
  - by rewrite Hl.
  - by apply put_size_same.
  - exists s', (dn_set i din dn1). split; [|split; [done|]].
    + unfold iappend. rewrite HD by lia. cbn [mbind option_bind]. unfold disk_din. rewrite decide_True by lia.
      replace (Z.to_nat (Z.of_nat i + 1 - 1)) with i by lia. rewrite (HS i f Hf), xint_id by (consts; lia). rewrite E.
      cbn [mbind option_bind]. rewrite xint_id by (consts; lia). done.
    + intros k g. destruct (decide (k = i)) as [->|Hne].
      * unfold F'. rewrite dn_set_eq, list_lookup_insert_eq by done. intros [= <-]. rewrite Hlen.
        apply getn_putn_eq; [lia|lia|]. consts. lia.
      * unfold F'. rewrite dn_set_ne, list_lookup_insert_ne, Hdn by done. apply HS.
Qed.

(** ** Adding the files *)

Lemma cost_pos n : 0 <= n -> 0 <= cost n.
Proof. intros H. apply (cost_mono 0 n). lia. Qed.

Lemma total_pos F : 0 <= total F.
Proof. induction F as [|f F IH]; cbn [total]; [done|]. pose proof (cost_pos (flen f) ltac:(unfold flen; lia)). lia. Qed.

Lemma flen_app t l l' : flen (t, l ++ l') = flen (t, l) + Z.of_nat (length l').
Proof. unfold flen. cbn [snd]. rewrite length_app. lia. Qed.

Lemma iappend_all_image pieces s dn F i f :
  image s dn F -> sizes dn F -> F !! i = Some f -> Z.of_nat (length F) < NINODES ->
  let F' := <[i := (f.1, f.2 ++ concat pieces)]> F in
  flen f + Z.of_nat (length (concat pieces)) <= MAXFILE * BSIZE -> nmeta + total F' <= FSSIZE ->
  exists s' dn', iappend_all (Z.of_nat i + 1) pieces s = Some s' /\ image s' dn' F' /\ sizes dn' F'.
Proof.
  revert s dn F f. induction pieces as [|p pieces IH]; intros s dn F f HI HS Hf HF F' Hmax Hroom.
  { exists s, dn. subst F'. cbn [concat]. rewrite app_nil_r. assert ((f.1, f.2) = f) as -> by by destruct f.
    by rewrite list_insert_id. }
  subst F'. cbn [concat] in *. rewrite length_app in Hmax. rewrite app_assoc in *.
  rewrite (total_insert F i f _ Hf), flen_app in Hroom.
  assert (Hf1 : 0 <= flen (f.1, f.2 ++ p)) by (unfold flen; lia).
  pose proof (cost_mono (flen (f.1, f.2 ++ p)) (flen (f.1, f.2 ++ p) + Z.of_nat (length (concat pieces))) ltac:(lia)).
  destruct (iappend_image s dn F i f p HI HS Hf HF ltac:(lia)) as (s1 & dn1 & E1 & HI1 & HS1).
  { rewrite (total_insert F i f _ Hf). lia. }
  pose proof (lookup_lt_Some _ _ _ Hf) as Hi.
  destruct (IH s1 dn1 _ (f.1, f.2 ++ p) HI1 HS1) as (s' & dn' & E' & HI' & HS').
  - by apply list_lookup_insert_eq.
  - by rewrite length_insert.
  - rewrite flen_app. change (flen (f.1, f.2)) with (flen f). lia.
  - rewrite list_insert_insert_eq, (total_insert F i f _ Hf). cbn [fst snd]. rewrite flen_app. lia.
  - rewrite list_insert_insert_eq in HI', HS'. exists s', dn'. cbn [iappend_all]. by rewrite E1.
Qed.

(** The entries of the files in the root directory, the first of them for
    inode [n]. *)
Fixpoint dir_bytes (n : Z) (nms : list (list Z)) : list Z :=
  match nms with [] => [] | nm :: nms => mk_dirent n nm ++ dir_bytes (n + 1) nms end.

Definition file_of (f : list Z * list (list Z)) : Z * list Z := (T_FILE, concat f.2).

Lemma mk_dirent_length n nm : length (mk_dirent n nm) = 16%nat.
Proof. apply (new_entry_length nm 0). Qed.

Lemma dir_bytes_length n nms : length (dir_bytes n nms) = (16 * length nms)%nat.
Proof. revert n. induction nms as [|nm nms IH]; intros n; cbn [dir_bytes length]; [done|]. rewrite length_app, mk_dirent_length, IH. lia. Qed.

Lemma add_file_image s dn d G f nm :
  image s dn ((T_DIR, d) :: G) -> sizes dn ((T_DIR, d) :: G) -> shortname f.1 = Some nm ->
  Z.of_nat (length G) + 2 < NINODES -> flen (T_DIR, d) + 16 <= MAXFILE * BSIZE -> flen (file_of f) <= MAXFILE * BSIZE ->
  let F' := (T_DIR, d ++ mk_dirent (Z.of_nat (length G) + 2) nm) :: G ++ [file_of f] in
  nmeta + total F' <= FSSIZE ->
  exists s' dn', add_file ROOTINO f s = Some s' /\ image s' dn' F' /\ sizes dn' F'.
Proof.
  intros HI HS Hnm HG Hd Hf F' Hroom. destruct f as [path pieces]. cbn [fst snd file_of] in *.
  subst F'. set (de := mk_dirent _ nm) in *. cbn [total] in Hroom. rewrite total_app in Hroom. cbn [total] in Hroom.
  pose proof (cost_pos (flen (file_of (path, pieces))) ltac:(unfold flen; lia)).
  destruct (ialloc_image s dn _ T_FILE HI HS) as (s1 & dn1 & E1 & HI1 & HS1); [cbn [length]; lia|done|].
  destruct (iappend_image s1 dn1 _ 0 (T_DIR, d) de HI1 HS1) as (s2 & dn2 & E2 & HI2 & HS2); try done.
  { rewrite length_app. simpl. lia. }
  { unfold de. by rewrite mk_dirent_length. }
  { simpl. rewrite total_app. simpl. rewrite flen_nil. change (cost 0) with 0. lia. }
  simpl in HI2, HS2. change (Z.of_nat 0 + 1) with ROOTINO in E2.
  destruct (iappend_all_image pieces s2 dn2 _ (S (length G)) (T_FILE, []) HI2 HS2) as (s3 & dn3 & E3 & HI3 & HS3).
  { simpl. by rewrite list_lookup_middle. }
  { simpl. rewrite length_app. simpl. lia. }
  { simpl. rewrite flen_nil. unfold file_of, flen in Hf. simpl in Hf. lia. }
  { simpl. rewrite insert_app_r_alt, Nat.sub_diag, total_app by lia. simpl. unfold file_of in Hroom. simpl in Hroom. lia. }
  simpl in HI3, HS3. rewrite insert_app_r_alt, Nat.sub_diag in HI3, HS3 by lia. simpl in HI3, HS3.
  exists s3, dn3. split; [|done]. unfold add_file. rewrite Hnm. cbn [mbind option_bind]. rewrite E1. cbn [mbind option_bind length].
  replace (Z.of_nat (S (length G)) + 1) with (Z.of_nat (length G) + 2) by lia. fold de. rewrite E2. cbn [mbind option_bind].
  by replace (Z.of_nat (length G) + 2) with (Z.of_nat (S (length G)) + 1) by lia.
Qed.

Lemma add_files_image files nms s dn d G :
  image s dn ((T_DIR, d) :: G) -> sizes dn ((T_DIR, d) :: G) -> Forall2 (fun f nm => shortname f.1 = Some nm) files nms ->
  Z.of_nat (length G + length files) + 1 < NINODES -> flen (T_DIR, d) + 16 * Z.of_nat (length files) <= MAXFILE * BSIZE ->
  Forall (fun f => flen (file_of f) <= MAXFILE * BSIZE) files ->
  let F' := (T_DIR, d ++ dir_bytes (Z.of_nat (length G) + 2) nms) :: G ++ map file_of files in
  nmeta + total F' <= FSSIZE ->
  exists s' dn', add_files ROOTINO files s = Some s' /\ image s' dn' F' /\ sizes dn' F'.
Proof.
  intros HI HS Hn. revert s dn d G HI HS. induction Hn as [|f nm files nms Hnm Hn IH]; intros s dn d G HI HS HG Hd Hf F' Hroom; subst F'.
  { exists s, dn. simpl. by rewrite !app_nil_r. }
  apply Forall_cons in Hf as [Hf Hfs]. cbn [dir_bytes map length total] in *. rewrite app_assoc in *.
  rewrite total_app in Hroom. cbn [total] in Hroom. pose proof (total_pos (map file_of files)).
  set (de := mk_dirent _ nm) in *. assert (Hde : flen (T_DIR, d ++ de) = flen (T_DIR, d) + 16) by (rewrite flen_app; unfold de; by rewrite mk_dirent_length).
  pose proof (cost_mono (flen (T_DIR, d ++ de)) (flen (T_DIR, (d ++ de) ++ dir_bytes (Z.of_nat (length G) + 2 + 1) nms))) as Hc.
  rewrite (flen_app _ (d ++ de)) in *. specialize (Hc ltac:(unfold flen; lia)).
  destruct (add_file_image s dn d G f nm HI HS Hnm) as (s1 & dn1 & E1 & HI1 & HS1); [lia|lia|done| |].
  { cbn [total]. rewrite total_app. cbn [total]. fold de. lia. }
  fold de in HI1, HS1. destruct (IH s1 dn1 _ _ HI1 HS1) as (s' & dn' & E' & HI' & HS'); try done.
  - rewrite length_app. simpl. lia.
  - lia.
  - rewrite length_app. cbn [length total]. rewrite !total_app, flen_app. cbn [total].
    rewrite dir_bytes_length in *. lia.
  - exists s', dn'. cbn [add_files]. rewrite E1. cbn [mbind option_bind]. split; [done|].
    rewrite length_app, <- (app_assoc G) in HI', HS'. cbn [length app] in HI', HS'.
    replace (Z.of_nat (length G + 1) + 2) with (Z.of_nat (length G) + 2 + 1) in HI', HS' by lia. done.
Qed.

(** ** The whole program *)

Definition root_bytes (nms : list (list Z)) : list Z :=
  mk_dirent ROOTINO (bytes_of ".") ++ mk_dirent ROOTINO (bytes_of "..") ++ dir_bytes 2 nms.
Definition image_of (nms : list (list Z)) (files : list (list Z * list (list Z))) : list (Z * list Z) :=
  (T_DIR, root_bytes nms) :: map file_of files.

(** The files fit in the image, with the names [nms]. *)
Record fits (files : list (list Z * list (list Z))) (nms : list (list Z)) : Prop := {
  fit_names : Forall2 (fun f nm => shortname f.1 = Some nm) files nms;
  fit_inodes : Z.of_nat (length files) + 1 < NINODES;
  fit_sizes : Forall (fun f => flen (file_of f) <= MAXFILE * BSIZE) files;
  fit_blocks : nmeta + total (image_of nms files) <= FSSIZE }.

Lemma foldl_wsect l s b : sect (foldl (fun s i => wsect i zeroes s) s l) !! b = if decide (b ∈ l) then Some zeroes else sect s !! b.
Proof.
  revert s. induction l as [|i l IH]; intros s; cbn [foldl]; [by rewrite decide_False by apply not_elem_of_nil|].
  rewrite IH. cbn [wsect sect]. destruct (decide (b ∈ l)) as [Hl|Hl]; [by rewrite decide_True by by right|].
  destruct (decide (b = i)) as [->|Hne]; [rewrite lookup_insert_eq, decide_True by left; done|].
  rewrite lookup_insert_ne, decide_False by (rewrite ?elem_of_cons; naive_solver). done.
Qed.

Lemma foldl_wsect_free l b d s : let s' := wsect b d (foldl (fun s i => wsect i zeroes s) s l) in
  freeinode s' = freeinode s /\ freeblock s' = freeblock s.
Proof. cbn [wsect freeinode freeblock]. revert s. induction l as [|i l IH]; intros s; cbn [foldl]; [done|]. apply (IH (wsect i zeroes s)). Qed.

Definition mkfs_start : mkfs_st :=
  wsect 1 (splice zeroes 0 (sb_bytes mkfs_sb)) (foldl (fun s i => wsect i zeroes s) (mk_mkfs ∅ 1 nmeta) (seqZ 0 FSSIZE)).

Lemma start_sect b : 0 <= b < FSSIZE -> sect mkfs_start !! b = Some (if b =? 1 then splice zeroes 0 (sb_bytes mkfs_sb) else zeroes).
Proof.
  intros Hb. unfold mkfs_start. cbn [wsect sect]. destruct (Z.eqb_spec b 1) as [->|]; [apply lookup_insert_eq|].
  rewrite lookup_insert_ne, foldl_wsect, decide_True by (try apply elem_of_seqZ; lia). done.
Qed.

Lemma take_drop_repeat {A} (a : A) n m l : (m + n <= l)%nat -> take n (drop m (repeat a l)) = repeat a n.
Proof.
  intros H. replace l with (m + (n + (l - m - n)))%nat by lia. rewrite !repeat_app.
  rewrite drop_app_length', take_app_length' by (by rewrite repeat_length). done.
Qed.

Lemma empty_image s : (forall b, 0 <= b < FSSIZE -> sect s !! b = Some (if b =? 1 then splice zeroes 0 (sb_bytes mkfs_sb) else zeroes)) ->
  freeinode s = 1 -> freeblock s = nmeta -> image s (fun _ => []) [].
Proof.
  intros Hs Ei Eb. split; [exists (fun _ => None); split; try done| | |].
  - intros n Hn. rewrite Hs by done. eexists. split; [done|]. destruct (n =? 1); [rewrite length_splice|]; apply repeat_length.
  - intros b Hb. rewrite Hs by (rewrite Eb in Hb; consts; lia). rewrite (proj2 (Z.eqb_neq _ _)); [done|]. rewrite Eb in Hb. consts. lia.
  - rewrite Eb. done.
  - intros j Hj. destruct (IBLOCK_eq j Hj) as [E Hr]. unfold rinode, rsect. rewrite Hs by (rewrite E; consts; lia).
    rewrite (proj2 (Z.eqb_neq _ _)) by (rewrite E; lia). cbn [mbind option_bind]. f_equal. unfold disk_din. rewrite decide_False by (simpl; lia).
    pose proof (dinode_off_eq j) as [Ho _]. apply take_drop_repeat. consts. lia.
  - done.
  - intros b Hb. apply Hs. consts. lia.
Qed.

Lemma start_image : image mkfs_start (fun _ => []) [].
Proof.
  destruct (foldl_wsect_free (seqZ 0 FSSIZE) 1 (splice zeroes 0 (sb_bytes mkfs_sb)) (mk_mkfs ∅ 1 nmeta)) as [Ei Eb].
  apply empty_image; [exact start_sect|exact Ei|exact Eb].
Qed.

Lemma used_fold d n b : 0 <= b -> 0 <= n <= 8 * Z.of_nat (length d) -> 
  used (foldl (fun buf i => mark_bit i buf) d (seqZ 0 n)) b = (b <? n) || used d b /\
  length (foldl (fun buf i => mark_bit i buf) d (seqZ 0 n)) = length d.
Proof.
  intros Hb Hn. replace n with (Z.of_nat (Z.to_nat n)) in * by lia. revert Hn. generalize (Z.to_nat n) as m. clear n.
  induction m as [|m IH]; intros Hm; [by destruct (Z.ltb_spec b (Z.of_nat 0)); [lia|]|].
  rewrite seqZ_S, Z.add_0_l, foldl_app. cbn [foldl]. destruct IH as [IH1 IH2]; [lia|]. rewrite length_mark. split; [|done].
  rewrite used_mark, IH1, orb_assoc by (rewrite ?IH2; try apply Z.div_lt_upper_bound; lia). f_equal.
  case_bool_decide; destruct (Z.ltb_spec b (Z.of_nat m)), (Z.ltb_spec b (Z.of_nat (S m))); simpl; try done; lia.
Qed.

Lemma balloc_image s dn F :
  image s dn F -> exists s', mk_balloc (freeblock s) s = Some s' /\ image s' dn F /\
    exists d, sect s' !! 45 = Some d /\ forall b, 0 <= b -> used d b = (b <? nmeta + total F).
Proof.
  intros [[own HC] HD HN HB]. pose proof (free_range _ _ _ _ HC) as Hr. unfold mk_balloc.
  assert (Hz : Z.of_nat (length zeroes) = 1024) by done. change (BSIZE * 8) with 8192. rewrite (proj2 (Z.ltb_lt _ _)) by lia. cbn [negb].
  change (sb_bmapstart mkfs_sb) with 45. set (d := foldl _ _ _).
  assert (Hu : forall b, 0 <= b -> used d b = (b <? freeblock s) || used zeroes b /\ length d = length zeroes).
  { intros b Hb. apply used_fold; [done|lia]. }
  assert (Hd : length d = Z.to_nat BSIZE) by apply (Hu 0 ltac:(lia)).
  exists (wsect 45 d s). split; [done|]. split; [|exists d; split; [apply lookup_insert_eq|]].
  - split; [exists own; apply core_meta; done| |done|by apply boot_insert].
    intros j Hj. rewrite <- HD by done. unfold rinode, rsect. cbn [wsect sect]. destruct (IBLOCK_eq j Hj) as [E ?].
    by rewrite lookup_insert_ne by lia.
  - intros b Hb. destruct (Hu b Hb) as [-> _]. destruct (co_free _ _ _ _ HC) as [<- _].
    assert (Hb0 : used zeroes b = false); [|by rewrite Hb0, orb_false_r].
    unfold used, bit_byte, zeroes. rewrite nth_repeat. apply Z.bits_0.
Qed.

Lemma root_len nms : flen (T_DIR, root_bytes nms) = 32 + 16 * Z.of_nat (length nms).
Proof. unfold flen, root_bytes. cbn [snd]. rewrite !length_app, !mk_dirent_length, dir_bytes_length. lia. Qed.

(** The calls that build the directory and the files succeed. *)
Lemma mkfs_built files nms : fits files nms ->
  let F := image_of nms files in
  exists s1 s2 s3 s4 dn, mk_ialloc T_DIR mkfs_start = Some (ROOTINO, s1) /\ iappend ROOTINO (mk_dirent ROOTINO (bytes_of ".")) s1 = Some s2 /\
    iappend ROOTINO (mk_dirent ROOTINO (bytes_of "..")) s2 = Some s3 /\ add_files ROOTINO files s3 = Some s4 /\ image s4 dn F /\ sizes dn F.
Proof.
  intros [H1 H2 H3 H4] F. pose proof (Forall2_length _ _ _ H1) as Hlen. unfold NINODES in H2.
  pose proof (root_len nms) as Hroot. rewrite <- Hlen in Hroot.
  assert (Htot : total (image_of nms files) = cost (32 + 16 * Z.of_nat (length files)) + total (map file_of files)).
  { unfold image_of. cbn [total]. by rewrite Hroot. }
  pose proof (total_pos (map file_of files)). rewrite Htot in H4.
  assert (Hc : forall n, 0 <= n <= 32 -> nmeta + (cost n + 0) <= FSSIZE).
  { intros n Hn. pose proof (cost_mono n (32 + 16 * Z.of_nat (length files)) ltac:(lia)). lia. }
  destruct (ialloc_image _ _ _ T_DIR start_image) as (s1 & dn1 & E1 & HI1 & HS1); [done|done|done|].
  destruct (iappend_image s1 dn1 _ 0 (T_DIR, []) (mk_dirent ROOTINO (bytes_of ".")) HI1 HS1) as (s2 & dn2 & E2 & HI2 & HS2);
    [reflexivity|reflexivity|rewrite mk_dirent_length; done|apply (Hc 16); lia|].
  destruct (iappend_image s2 dn2 _ 0 _ (mk_dirent ROOTINO (bytes_of "..")) HI2 HS2 eq_refl) as (s3 & dn3 & E3 & HI3 & HS3);
    [reflexivity|rewrite mk_dirent_length; done|apply (Hc 32); lia|].
  cbn [app list_insert insert fst snd] in HI3, HS3.
  assert (EF : (T_DIR, (mk_dirent ROOTINO (bytes_of ".") ++ mk_dirent ROOTINO (bytes_of "..")) ++ dir_bytes 2 nms) :: map file_of files = F)
    by (unfold F, image_of, root_bytes; by rewrite <- app_assoc).
  destruct (add_files_image files nms s3 dn3 _ [] HI3 HS3 H1) as (s4 & dn4 & E4 & HI4 & HS4);
    [cbn [length Nat.add]; unfold NINODES; lia|change (flen _) with 32; consts; lia|done| |].
  { change (nmeta + total ((T_DIR, (mk_dirent ROOTINO (bytes_of ".") ++ mk_dirent ROOTINO (bytes_of "..")) ++ dir_bytes 2 nms) :: map file_of files) <= FSSIZE).
    rewrite EF. unfold F. rewrite Htot. lia. }
  cbn [app length] in HI4, HS4. change (Z.of_nat 0 + 2) with 2 in HI4, HS4. rewrite EF in HI4, HS4.
  change (Z.of_nat (length (@nil (Z * list Z))) + 1) with ROOTINO in E1. change (Z.of_nat 0 + 1) with ROOTINO in E2, E3.
  exists s1, s2, s3, s4, dn4. repeat (split; [assumption|]). assumption.
Qed.

(** The program succeeds, and its image holds the directory and the files. *)
Lemma mkfs_main_ok files nms : fits files nms ->
  let F := image_of nms files in
  exists s dn, mkfs_main files = Some s /\ image s dn F /\
    (forall i f, F !! S i = Some f -> getn 4 (dn (S i)) 8 = flen f) /\
    getn 4 (dn 0%nat) 8 = (flen (T_DIR, root_bytes nms) / BSIZE + 1) * BSIZE /\
    exists d, sect s !! 45 = Some d /\ forall b, 0 <= b -> used d b = (b <? nmeta + total F).
Proof.
  intros Hfit F. destruct (mkfs_built files nms Hfit) as (s1 & s2 & s3 & s4 & dn & E1 & E2 & E3 & E4 & HI & HS). fold F in HI, HS.
  destruct Hfit as [H1 H2 _ _]. pose proof (Forall2_length _ _ _ H1) as Hlen. pose proof (root_len nms) as Hroot. unfold NINODES in H2.
  assert (HF : length F = S (length files)) by (unfold F, image_of; cbn [length]; by rewrite length_map).
  pose proof (HS 0%nat _ eq_refl) as H0. destruct HI as [[own HC] HD HN HB].
  set (off := (flen (T_DIR, root_bytes nms) / BSIZE + 1) * BSIZE).
  assert (Hoff : 0 <= off < 2 ^ 32).
  { unfold off. rewrite Hroot. consts. assert (0 <= (32 + 16 * Z.of_nat (length nms)) / 1024 < 4) by (split; [apply Z.div_pos|apply Z.div_lt_upper_bound]; lia). lia. }
  assert (Hd0 : length (dn 0%nat) = 64%nat) by by apply (co_din _ _ _ _ HC 0 _ eq_refl).
  destruct (winode_image s4 dn F own 0 (putn 4 (dn 0%nat) 8 off) HC) as (s5 & E5 & HI5);
    [intros j Hj _; by apply HD|exact HN|exact HB|rewrite HF; lia|rewrite HF; unfold NINODES; lia|by apply put_size_same|].
  destruct (balloc_image _ _ _ HI5) as (s6 & E6 & HI6 & Hbm).
  exists s6, (dn_set 0 (putn 4 (dn 0%nat) 8 off) dn). split; [|split; [exact HI6|split; [|split; [|exact Hbm]]]].
  - unfold mkfs_main. cbv zeta. fold mkfs_start. rewrite E1. cbn [mbind option_bind]. change (negb (ROOTINO =? ROOTINO)) with false. cbv iota.
    rewrite E2. cbn [mbind option_bind]. rewrite E3. cbn [mbind option_bind]. rewrite E4. cbn [mbind option_bind].
    rewrite HD by (unfold ROOTINO, NINODES; lia). cbn [mbind option_bind]. unfold disk_din. rewrite decide_True by (rewrite HF; unfold ROOTINO; lia).
    change (Z.to_nat (ROOTINO - 1)) with 0%nat. rewrite H0. rewrite (xint_id (flen _)) by (rewrite Hroot; lia). fold off.
    rewrite (u32_id off), (xint_id off) by lia. change (Z.of_nat 0 + 1) with ROOTINO in E5. by rewrite E5.
  - intros i f Hi. rewrite dn_set_ne by lia. by apply HS.
  - rewrite dn_set_eq. apply getn_putn_eq; lia.
Qed.
