(* ===== verification/MkfsKernel.v ===== *)
(** * [mkfs]: the image as the kernel reads it

    The kernel that reads the image finds the superblock, an empty log, the
    bitmap of the blocks in use, the files with their contents and the names
    in the root directory.  The invariants that the operations of [fs.c] rely
    on hold of the image. *)

From S2P Require Import Prelude Defs State Memory Bio BioCache Log LogSpec Fs FsOps FsRead FsWrite FsDir Mkfs MkfsSpec MkfsImage.

(** The kernel has read the superblock of the image, and the blocks it sees
    are those of the image. *)
Record mounted (k : kernel) (s : mkfs_st) : Prop := {
  mo_view n : 0 <= n < FSSIZE -> view k n = blk (sect s) n;
  mo_sb : the_sb k = superblock_of (view k 1) }.

(** Inode [inum] as [ilock] loads it into [ip]. *)
Definition disk_inode (k : kernel) (inum : Z) (ip : inode) : inode :=
  load_dinode (view k (IBLOCK inum (the_sb k))) (dinode_off inum) ip.

(** What [mkfs_main_ok] says of the image. *)
Record made (files : list (list Z * list (list Z))) (nms : list (list Z)) (s : mkfs_st) (dn : nat -> list Z) : Prop := {
  ma_image : image s dn (image_of nms files);
  ma_len : Z.of_nat (length (image_of nms files)) < NINODES;
  ma_size i f : image_of nms files !! S i = Some f -> getn 4 (dn (S i)) 8 = flen f;
  ma_root : getn 4 (dn 0%nat) 8 = (flen (T_DIR, root_bytes nms) / BSIZE + 1) * BSIZE;
  ma_bitmap : exists d, sect s !! 45 = Some d /\ forall b, 0 <= b -> used d b = (b <? nmeta + total (image_of nms files)) }.

Lemma getn_sub n d off o m : (o + n <= m)%nat -> getn n (take m (drop off d)) (Z.of_nat o) = getn n d (Z.of_nat (off + o)).
Proof.
  intros H. unfold getn. f_equal. rewrite !Nat2Z.id. apply list_eq. intros i. destruct (decide (i < n)%nat).
  - rewrite !lookup_take_lt, !lookup_drop by done. rewrite lookup_take_lt, lookup_drop by lia. f_equal. lia.
  - by rewrite !lookup_take_ge by lia.
Qed.

(** A list from its bytes. *)
Lemma list_eq_bytes (f : Z -> Z) (l : list Z) :
  (forall j, 0 <= j < Z.of_nat (length l) -> f j = default 0 (l !! Z.to_nat j)) -> map f (seqZ 0 (Z.of_nat (length l))) = l.
Proof.
  intros H. apply list_eq. intros i. rewrite list_lookup_fmap. destruct (decide (i < length l)%nat) as [Hi|Hi].
  - rewrite lookup_seqZ_lt by lia. simpl. rewrite Z.add_0_l, H by lia. rewrite Nat2Z.id.
    by destruct (lookup_lt_is_Some_2 l i Hi) as [v ->].
  - rewrite lookup_seqZ_ge, lookup_ge_None_2 by lia. done.
Qed.

Section mounted.
Context (files : list (list Z * list (list Z))) (nms : list (list Z)) (s : mkfs_st) (dn : nat -> list Z) (k : kernel).
Hypothesis HM : made files nms s dn.
Hypothesis HK : mounted k s.

Let F := image_of nms files.

Lemma img_core : exists own, core s dn F own.
Proof. apply (im_core _ _ _ (ma_image _ _ _ _ HM)). Qed.

Lemma img_sb : superblock_of (view k 1) = mkfs_sb.
Proof.
  rewrite (mo_view _ _ HK) by (consts; lia). unfold blk. rewrite (im_boot _ _ _ (ma_image _ _ _ _ HM)) by lia.
  vm_compute. reflexivity.
Qed.

Lemma img_the_sb : the_sb k = mkfs_sb.
Proof. rewrite (mo_sb _ _ HK). apply img_sb. Qed.

Lemma img_log : getn 4 (view k 2) 0 = 0.
Proof.
  rewrite (mo_view _ _ HK) by (consts; lia). unfold blk. rewrite (im_boot _ _ _ (ma_image _ _ _ _ HM)) by lia. apply getn_repeat.
Qed.

Lemma img_used b : 0 <= b -> used (bitmap k) b = (b <? nmeta + total F).
Proof.
  intros Hb. unfold bitmap. rewrite img_the_sb. change (sb_bmapstart mkfs_sb) with 45.
  destruct (ma_bitmap _ _ _ _ HM) as (d & Hd & Hu). rewrite (mo_view _ _ HK) by (consts; lia). unfold blk. rewrite Hd. by apply Hu.
Qed.

(** The fields of a dinode, read by the kernel. *)
Lemma img_field inum n o : 0 <= inum < NINODES -> (o + n <= 64)%nat ->
  getn n (view k (IBLOCK inum (the_sb k))) (dinode_off inum + Z.of_nat o) = getn n (disk_din dn (length F) inum) (Z.of_nat o).
Proof.
  intros Hi Ho. rewrite img_the_sb. destruct (IBLOCK_eq inum Hi) as [Eb Hb]. pose proof (dinode_off_eq inum) as [Hoff _].
  pose proof (im_disk _ _ _ (ma_image _ _ _ _ HM) inum Hi) as Hr. fold F in Hr. unfold rinode, rsect in Hr.
  rewrite (mo_view _ _ HK) by (rewrite Eb; consts; lia). unfold blk.
  destruct (sect s !! IBLOCK inum mkfs_sb) as [buf|]; [|done]. apply (inj Some) in Hr. rewrite <- Hr, getn_sub by done. f_equal. lia.
Qed.

(** ** The inode of a file *)

Section file.
Context (i : nat) (f : Z * list Z) (ip : inode).
Hypothesis Hf : F !! i = Some f.
Hypothesis Ht : 0 <= f.1 < 2 ^ 15.
Hypothesis Hdev : i_dev ip = ROOTDEV.

Let inum := Z.of_nat i + 1.
Let x := disk_inode k inum ip.

Lemma img_inum : 0 <= inum < NINODES /\ disk_din dn (length F) inum = dn i.
Proof.
  pose proof (lookup_lt_Some _ _ _ Hf). pose proof (ma_len _ _ _ _ HM) as Hl. fold F in Hl. unfold inum. split; [lia|].
  unfold disk_din. rewrite decide_True by lia. f_equal. lia.
Qed.

Lemma img_get n o : (o + n <= 64)%nat -> getn n (view k (IBLOCK inum (the_sb k))) (dinode_off inum + Z.of_nat o) = getn n (dn i) (Z.of_nat o).
Proof. intros Ho. destruct img_inum as [Hi E]. rewrite img_field by done. by rewrite E. Qed.

Lemma img_attr : i_dev x = ROOTDEV /\ i_type x = f.1 /\ i_nlink x = 1 /\ i_size x = getn 4 (dn i) 8 /\ length (i_addrs x) = 13%nat.
Proof.
  destruct img_core as [own HC]. destruct (co_din _ _ _ _ HC i f Hf) as (_ & E1 & E2).
  unfold x, disk_inode, load_dinode. cbn [i_dev i_type i_nlink i_size i_addrs]. split; [done|].
  pose proof (img_get 2 0 ltac:(lia)) as G0. pose proof (img_get 2 6 ltac:(lia)) as G6. pose proof (img_get 4 8 ltac:(lia)) as G8.
  change (Z.of_nat 0) with 0 in G0. change (Z.of_nat 6) with 6 in G6. change (Z.of_nat 8) with 8 in G8. rewrite Z.add_0_r in G0.
  unfold dinode_type. rewrite G0, G6, G8, E1, E2. split; [apply swrap_id; lia|]. split; [done|]. split; [done|].
  unfold dinode_addrs. by rewrite length_map, length_seq.
Qed.

Lemma img_addr a : 0 <= a <= NDIRECT -> addr_at x a = d_addr (dn i) a.
Proof.
  intros Ha. unfold addr_at, x, disk_inode, load_dinode. cbn [i_addrs]. unfold dinode_addrs. consts.
  rewrite nth_lookup, list_lookup_fmap, lookup_seq_lt by lia. cbn [fmap option_fmap option_map default].
  unfold d_addr. replace (12 + 4 * a) with (Z.of_nat (Z.to_nat (12 + 4 * a))) by lia. rewrite <- img_get by lia. unfold id. f_equal. lia.
Qed.

Lemma img_block bn : 0 <= bn < MAXFILE -> fblock k x bn = fblk (sect s) (dn i) bn.
Proof.
  intros Hbn. destruct img_core as [own HC]. unfold fblock, fblk, ind. rewrite (img_addr NDIRECT) by (consts; lia).
  destruct (Z.ltb_spec bn NDIRECT) as [Hd|Hd]; [apply img_addr; lia|].
  destruct (Z.eqb_spec (d_addr (dn i) NDIRECT) 0) as [|Hne]; [done|].
  pose proof (co_ind _ _ _ _ HC i f Hf) as Hi. destruct (_ <? _); [|done]. apply (co_own _ _ _ _ HC) in Hi.
  pose proof (free_range _ _ _ _ HC). rewrite (mo_view _ _ HK) by (consts; lia). done.
Qed.

Lemma img_area own b o : core s dn F own -> own b = Some o -> area 2 (IBLOCK inum (the_sb k)) k b.
Proof.
  intros HC Ho. apply (co_own _ _ _ _ HC) in Ho. destruct (co_free _ _ _ _ HC) as [Ef Hfs].
  destruct img_inum as [Hi _]. destruct (IBLOCK_eq inum Hi) as [Eb Hb].
  split; rewrite ?img_the_sb; change (sb_size mkfs_sb) with 1000; change (sb_bmapstart mkfs_sb) with 45; try (consts; lia).
  - unfold in_log. change LOGSIZE with 30. consts. lia.
  - rewrite img_used by (consts; lia). apply Z.ltb_lt. lia.
Qed.

Lemma img_layout : layout 2 (IBLOCK inum (the_sb k)) k.
Proof.
  destruct img_core as [own HC]. destruct (co_free _ _ _ _ HC) as [Ef _]. pose proof (free_range _ _ _ _ HC).
  destruct img_inum as [Hi _]. destruct (IBLOCK_eq inum Hi) as [Eb Hb].
  assert (Hu : forall b, 0 <= b < 46 -> used (bitmap k) b = true) by (intros b Hb'; rewrite img_used by lia; apply Z.ltb_lt; consts; lia).
  split; [split; [..|intros b Hb0 Hb1; apply Hu; revert Hb0 Hb1]|apply Hu; lia|..|apply Hu]; rewrite ?img_the_sb, ?Eb; unfold in_log; try change LOGSIZE with 30;
    change (sb_size mkfs_sb) with 1000; change (sb_bmapstart mkfs_sb) with 45; consts; lia.
Qed.

(** The size in the dinode covers blocks that are there. *)
Hypothesis Hsz : 0 <= getn 4 (dn i) 8 <= nb (flen f) * BSIZE.

Lemma img_wf : file_wf 2 (IBLOCK inum (the_sb k)) k x.
Proof.
  destruct img_core as [own HC]. destruct img_attr as (A1 & _ & _ & A4 & A5).
  assert (Hlen : 0 <= flen f) by (unfold flen; lia). pose proof (co_max _ _ _ _ HC i f Hf). pose proof (nb_max (flen f) ltac:(lia)).
  assert (Hown : forall bn, 0 <= bn < MAXFILE -> fblock k x bn = 0 \/ own (fblock k x bn) = Some (i, bn)).
  { intros bn Hbn. rewrite img_block by done. pose proof (co_addr _ _ _ _ HC i f bn Hf Hbn) as Ha. destruct (_ <? _); auto. }
  assert (Hind : ind x = 0 \/ own (ind x) = Some (i, -1)).
  { unfold ind. rewrite img_addr by (consts; lia). pose proof (co_ind _ _ _ _ HC i f Hf) as Ha. destruct (_ <? _); auto. }
  split; [done|done|rewrite A4; consts; lia|..].
  - destruct Hind; [by left|right]. by eapply img_area.
  - intros bn Hbn. destruct (Hown bn Hbn) as [|Ho]; [by left|right]. split; [by eapply img_area|].
    intros E. rewrite E in Ho. destruct Hind as [E0|Ho']; [|rewrite Ho' in Ho; injection Ho; lia]. rewrite E0 in Ho. apply (co_own _ _ _ _ HC) in Ho. consts. lia.
  - intros bn bn' Hbn Hbn' Hne E. destruct (Hown bn Hbn) as [|Ho]; [done|]. destruct (Hown bn' Hbn') as [|Ho']; [congruence|].
    rewrite E in Ho. congruence.
  - intros bn Hbn Hs. rewrite A4 in Hs. rewrite img_block by (consts; lia).
    pose proof (co_addr _ _ _ _ HC i f bn Hf ltac:(consts; lia)) as Ha. rewrite (proj2 (Z.ltb_lt _ _)) in Ha by (consts; lia).
    apply (co_own _ _ _ _ HC) in Ha. consts. lia.
Qed.

Lemma img_byte j : 0 <= j < i_size x -> file_byte k x j = default 0 (f.2 !! Z.to_nat j).
Proof.
  intros Hj. destruct img_core as [own HC]. destruct img_attr as (_ & _ & _ & A4 & _).
  assert (Hlen : 0 <= flen f) by (unfold flen; lia). pose proof (co_max _ _ _ _ HC i f Hf). pose proof (nb_max (flen f) ltac:(lia)).
  pose proof (Z.div_mod j 1024 ltac:(lia)). pose proof (Z.mod_pos_bound j 1024 ltac:(lia)).
  assert (Hbn : 0 <= j / BSIZE < nb (flen f)).
  { consts. split; [apply Z.div_pos; lia|apply Z.div_lt_upper_bound; lia]. }
  rewrite <- (contents_byte 2 (IBLOCK inum (the_sb k)) k x j img_wf Hj). unfold cbyte, fdata. rewrite img_block by lia.
  pose proof (co_addr _ _ _ _ HC i f (j / BSIZE) Hf ltac:(lia)) as Ha. rewrite (proj2 (Z.ltb_lt _ _)) in Ha by lia.
  apply (co_own _ _ _ _ HC) in Ha. pose proof (free_range _ _ _ _ HC).
  rewrite (proj2 (Z.eqb_neq _ _)) by (consts; lia). rewrite (mo_view _ _ HK) by (consts; lia).
  rewrite (co_bytes _ _ _ _ HC i f (j / BSIZE) _ Hf Hbn) by (consts; lia). do 2 f_equal. consts. lia.
Qed.
End file.
End mounted.

(** ** The files *)

Lemma mkfs_makes files nms : fits files nms -> exists s dn, mkfs_main files = Some s /\ made files nms s dn.
Proof.
  intros H. destruct (mkfs_main_ok files nms H) as (s & dn & E & HI & H1 & H2 & H3). exists s, dn. split; [exact E|].
  split; [exact HI| |exact H1|exact H2|exact H3]. unfold image_of. cbn [length]. rewrite length_map. pose proof (fit_inodes _ _ H). lia.
Qed.

Lemma file_lookup files nms (i : nat) f : files !! i = Some f -> image_of nms files !! S i = Some (file_of f).
Proof. intros H. change ((file_of <$> files) !! i = Some (file_of f)). by rewrite list_lookup_fmap, H. Qed.

Lemma nb_covers n : 0 <= n -> n <= nb n * BSIZE.
Proof.
  intros H. rewrite nb_div by done. consts. pose proof (Z.div_mod n 1024 ltac:(lia)). pose proof (Z.mod_pos_bound n 1024 ltac:(lia)).
  destruct (Z.eqb_spec (n mod 1024) 0); lia.
Qed.

(** C9: when the files fit, [mkfs] makes an image in which the kernel finds
    the superblock, an empty log and every file: inode [i + 2] is that of the
    [i]-th file of the command line, satisfies the invariants the kernel's
    [readi] and [writei] rely on, and has the bytes of the file. *)
Theorem mkfs_files files nms :
  fits files nms ->
  exists s, mkfs_main files = Some s /\
  forall k, mounted k s ->
    superblock_of (view k 1) = mkfs_sb /\ getn 4 (view k (sb_logstart (the_sb k))) 0 = 0 /\
    forall i f ip, files !! i = Some f -> i_dev ip = ROOTDEV ->
      let inum := Z.of_nat i + 2 in
      let x := disk_inode k inum ip in
      layout 2 (IBLOCK inum (the_sb k)) k /\ file_wf 2 (IBLOCK inum (the_sb k)) k x /\
      i_type x = T_FILE /\ i_nlink x = 1 /\ i_size x = Z.of_nat (length (concat f.2)) /\
      map (file_byte k x) (seqZ 0 (i_size x)) = concat f.2.
Proof.
  intros Hfit. destruct (mkfs_makes files nms Hfit) as (s & dn & E & HM). exists s. split; [exact E|]. clear E. intros k HK.
  split; [by eapply img_sb|]. split; [rewrite (img_the_sb _ _ _ _ _ HM HK); by eapply img_log|].
  intros i f ip Hi Hdev. cbv zeta. replace (Z.of_nat i + 2) with (Z.of_nat (S i) + 1) by lia.
  pose proof (file_lookup files nms i f Hi) as Hf. pose proof (ma_size _ _ _ _ HM i _ Hf) as Hs.
  assert (Ht : 0 <= (file_of f).1 < 2 ^ 15) by done. pose proof (nb_covers (flen (file_of f)) ltac:(unfold flen; lia)) as Hc.
  assert (Hz : 0 <= getn 4 (dn (S i)) 8 <= nb (flen (file_of f)) * BSIZE) by (rewrite Hs; unfold flen in *; lia).
  destruct (img_attr _ _ _ _ _ HM HK _ _ _ Hf Ht Hdev) as (_ & A2 & A3 & A4 & _). rewrite Hs in A4.
  split; [by eapply img_layout|]. split; [by eapply img_wf|]. split; [done|]. split; [done|]. split; [done|].
  pose proof (img_byte _ _ _ _ _ HM HK _ _ _ Hf Ht Hdev Hz) as Hb. rewrite A4 in Hb |- *. apply list_eq_bytes. exact Hb.
Qed.

(** C10: the bitmap of the image marks exactly the blocks of the system and
    those handed out; no block belongs to two files or to two places of one
    file, the root directory included; and the inodes that no file has are
    free. *)
Theorem mkfs_blocks files nms :
  fits files nms ->
  exists s, mkfs_main files = Some s /\
  forall k, mounted k s ->
    (forall b, 0 <= b -> used (bitmap k) b = (b <? nmeta + total (image_of nms files))) /\
    (forall i j bn bn' ip ip', (i <= length files)%nat -> (j <= length files)%nat -> 0 <= bn < MAXFILE -> 0 <= bn' < MAXFILE ->
      i_dev ip = ROOTDEV -> i_dev ip' = ROOTDEV ->
      let x := disk_inode k (Z.of_nat i + 1) ip in let y := disk_inode k (Z.of_nat j + 1) ip' in
      fblock k x bn <> 0 -> used (bitmap k) (fblock k x bn) = true /\ (fblock k x bn = fblock k y bn' -> i = j /\ bn = bn')) /\
    (forall inum, Z.of_nat (length files) + 2 <= inum < NINODES ->
      dinode_type (view k (IBLOCK inum (the_sb k))) (dinode_off inum) = 0).
Proof.
  intros Hfit. destruct (mkfs_makes files nms Hfit) as (s & dn & E & HM). exists s. split; [exact E|]. clear E. intros k HK.
  assert (HF : length (image_of nms files) = S (length files)) by (unfold image_of; cbn [length]; by rewrite length_map).
  destruct (img_core _ _ _ _ HM) as [own HC]. split; [intros b Hb; by eapply img_used|].
  assert (Hown : forall i bn ip, (i <= length files)%nat -> 0 <= bn < MAXFILE -> 
    let b := fblock k (disk_inode k (Z.of_nat i + 1) ip) bn in b = 0 \/ own b = Some (i, bn)).
  { intros i bn ip Hi Hbn. destruct (lookup_lt_is_Some_2 (image_of nms files) i ltac:(lia)) as [f Hf]. cbv zeta.
    rewrite (img_block _ _ _ _ _ HM HK i f ip Hf bn Hbn). pose proof (co_addr _ _ _ _ HC i f bn Hf Hbn) as Ha. destruct (_ <? _); auto. }
  split.
  - intros i j bn bn' ip ip' Hi Hj Hbn Hbn' _ _ x y Hne. destruct (Hown i bn ip Hi Hbn) as [|Ho]; [done|]. fold x in Ho. split.
    + destruct (co_own _ _ _ _ HC _ _ Ho) as [H1 H2]. rewrite (img_used _ _ _ _ _ HM HK) by (consts; lia).
      apply Z.ltb_lt. destruct (co_free _ _ _ _ HC). lia.
    + intros Eb. unfold y in Eb. destruct (Hown j bn' ip' Hj Hbn') as [|Ho']; [congruence|]. rewrite Eb, Ho' in Ho. by injection Ho.
  - intros inum Hi. unfold dinode_type. rewrite <- (Z.add_0_r (dinode_off inum)). change 0 with (Z.of_nat 0) at 1.
    rewrite (img_field _ _ _ _ _ HM HK) by lia. unfold disk_din. rewrite decide_False by lia. by rewrite getn_repeat.
Qed.

(** ** The root directory *)

Fixpoint dir_entries (n : Z) (nms : list (list Z)) : list (list Z) :=
  match nms with [] => [] | nm :: nms => new_entry nm n :: dir_entries (n + 1) nms end.

Definition root_entries (nms : list (list Z)) : list (list Z) :=
  new_entry (bytes_of ".") ROOTINO :: new_entry (bytes_of "..") ROOTINO :: dir_entries 2 nms.

Lemma mk_dirent_entry n nm : 0 <= n < 2 ^ 16 -> mk_dirent n nm = new_entry nm n.
Proof. intros H. unfold mk_dirent, new_entry. rewrite xshort_id by lia. unfold u16. by rewrite Z.mod_small by lia. Qed.

Lemma root_concat nms : Z.of_nat (length nms) + 2 < 2 ^ 16 -> root_bytes nms = concat (root_entries nms).
Proof.
  intros H. unfold root_bytes, root_entries. cbn [concat]. rewrite !mk_dirent_entry by (unfold ROOTINO; lia). do 2 f_equal.
  assert (Hg : forall n, 0 <= n -> n + Z.of_nat (length nms) < 2 ^ 16 -> dir_bytes n nms = concat (dir_entries n nms)); [|apply Hg; lia].
  clear H. induction nms as [|nm nms IH]; intros n Hn Hl; cbn [dir_bytes dir_entries concat length] in *; [done|].
  by rewrite mk_dirent_entry, IH by lia.
Qed.

Lemma root_entries_len nms : Forall (fun e => length e = 16%nat) (root_entries nms) /\ length (root_entries nms) = (2 + length nms)%nat.
Proof.
  assert (H : forall n, Forall (fun e => length e = 16%nat) (dir_entries n nms) /\ length (dir_entries n nms) = length nms).
  { induction nms as [|nm nms IH]; intros n; [done|]. destruct (IH (n + 1)) as [H1 H2]. split; [|simpl; by rewrite H2].
    constructor; [apply new_entry_length|done]. }
  destruct (H 2) as [H1 H2]. split; [repeat (constructor; [apply new_entry_length|]); done|]. simpl. by rewrite H2.
Qed.

(** Entry [j] of a directory with the bytes [l]. *)
Definition entry_of (l : list Z) (j : Z) : list Z := map (fun i => default 0 (l !! Z.to_nat i)) (seqZ (16 * j) 16).

Lemma entry_of_app e l j : length e = 16%nat -> 0 <= j -> entry_of (e ++ l) j = if j =? 0 then e else entry_of l (j - 1).
Proof.
  intros He Hj. unfold entry_of. destruct (Z.eqb_spec j 0) as [->|Hne].
  - change 16 with (Z.of_nat 16) at 2. rewrite <- He. apply list_eq_bytes. intros i Hi. by rewrite lookup_app_l by lia.
  - apply map_seqZ_shift. intros i Hi. rewrite lookup_app_r by lia. do 2 f_equal. lia.
Qed.

Lemma entry_of_nil j : entry_of [] j = repeat 0 16.
Proof. unfold entry_of. apply (map_seqZ_shift _ (fun _ => 0) (16 * j) 0 16). done. Qed.

Lemma names_entries es n nm : Forall (fun e => length e = 16%nat) es -> (length es <= n)%nat ->
  names (map (entry_of (concat es)) (seqZ 0 (Z.of_nat n))) nm = names es nm.
Proof.
  intros H. revert n. induction H as [|e es He Hes IH]; intros n Hn.
  - cbn [concat]. rewrite (map_ext _ (fun _ => repeat 0 16)) by apply entry_of_nil.
    induction (seqZ 0 (Z.of_nat n)) as [|j l IHl]; [done|exact IHl].
  - destruct n as [|n]; [simpl in Hn; lia|]. rewrite seqZ_cons by lia. cbn [map names concat].
    rewrite entry_of_app by (done || lia). rewrite Z.eqb_refl.
    rewrite (map_seqZ_shift _ (entry_of (concat es)) (Z.succ 0) 0).
    + replace (Z.pred (Z.of_nat (S n))) with (Z.of_nat n) by lia. rewrite IH by (simpl in Hn; lia). done.
    + intros i Hi. rewrite entry_of_app by (done || lia). rewrite (proj2 (Z.eqb_neq _ _)) by lia. f_equal. lia.
Qed.

Lemma names_dir n nms nm : 0 < n -> n + Z.of_nat (length nms) < 2 ^ 16 ->
  names (dir_entries n nms) nm = (fun p => n + Z.of_nat p.1) <$> list_find (same_name nm) nms.
Proof.
  revert n. induction nms as [|nm' nms IH]; intros n H0 Hn; cbn [dir_entries names list_find length] in *; [done|].
  rewrite named_new, new_entry_inum by lia. case_bool_decide as E; [rewrite decide_True by done; simpl; f_equal; lia|].
  rewrite decide_False, IH by (done || lia). destruct (list_find _ nms) as [[j e]|]; simpl; [|done]. f_equal. lia.
Qed.

Lemma root_mod nms : flen (T_DIR, root_bytes nms) mod 1024 = 16 * ((Z.of_nat (length nms) + 2) mod 64).
Proof. rewrite <- Zmult_mod_distr_l, root_len. f_equal. lia. Qed.

(** The root directory ends with zeros up to the end of its last block. *)
Lemma img_root files nms s dn k ip :
  made files nms s dn -> mounted k s -> (Z.of_nat (length nms) + 2) mod 64 <> 0 -> i_dev ip = ROOTDEV ->
  let x := disk_inode k ROOTINO ip in let n := nb (flen (T_DIR, root_bytes nms)) * 64 in
  file_ok k x /\ i_type x = T_DIR /\ i_nlink x = 1 /\ i_size x = 16 * n /\ Z.of_nat (length nms) + 2 <= n /\
  forall j, 0 <= j < i_size x -> file_byte k x j = default 0 (root_bytes nms !! Z.to_nat j).
Proof.
  intros HM HK Hmod Hdev. cbv zeta. change ROOTINO with (Z.of_nat 0 + 1).
  set (f := (T_DIR, root_bytes nms)). assert (Hf : image_of nms files !! 0%nat = Some f) by done.
  pose proof (root_len nms) as Hroot. pose proof (ma_root _ _ _ _ HM) as Hs. pose proof (root_mod nms) as Hm. fold f in Hroot, Hs, Hm.
  assert (Hr : getn 4 (dn 0%nat) 8 = 16 * (nb (flen f) * 64)).
  { rewrite Hs, nb_div by lia. change BSIZE with 1024. rewrite (proj2 (Z.eqb_neq _ _)) by lia. lia. }
  assert (Ht : 0 <= f.1 < 2 ^ 15) by done. pose proof (nb_covers (flen f) ltac:(lia)) as Hc. change BSIZE with 1024 in Hc.
  assert (Hz : 0 <= getn 4 (dn 0%nat) 8 <= nb (flen f) * BSIZE) by (rewrite Hr; change BSIZE with 1024; lia).
  destruct (img_attr _ _ _ _ _ HM HK _ _ _ Hf Ht Hdev) as (_ & A2 & A3 & A4 & _). rewrite Hr in A4.
  split; [|split; [exact A2|split; [exact A3|split; [exact A4|split; [lia|]]]]].
  - apply (wf_file_ok _ _ _ _ (img_layout _ _ _ _ _ HM HK _ _ Hf) (img_wf _ _ _ _ _ HM HK _ _ _ Hf Ht Hdev Hz)).
  - apply (img_byte _ _ _ _ _ HM HK _ _ _ Hf Ht Hdev Hz).
Qed.

(** When the entries do not fill the last block of the root directory, it
    is a directory for the kernel's [dirlookup], and has under [.] and [..]
    the root inode, under a name of the command line the inode of the first
    file with that name, and no other name. *)
Theorem mkfs_directory files nms :
  fits files nms -> (Z.of_nat (length nms) + 2) mod 64 <> 0 ->
  exists s, mkfs_main files = Some s /\
  forall k ip, mounted k s -> i_dev ip = ROOTDEV ->
    let x := disk_inode k ROOTINO ip in
    dir_ok k x /\ i_nlink x = 1 /\
    forall nm, names (entries k x) nm =
      if decide (same_name nm (bytes_of ".")) then Some ROOTINO
      else if decide (same_name nm (bytes_of "..")) then Some ROOTINO
      else (fun p => 2 + Z.of_nat p.1) <$> list_find (same_name nm) nms.
Proof.
  intros Hfit Hmod. destruct (mkfs_makes files nms Hfit) as (s & dn & E & HM). exists s. split; [exact E|]. clear E. intros k ip HK Hdev x.
  pose proof (Forall2_length _ _ _ (fit_names _ _ Hfit)) as Hlen. pose proof (fit_inodes _ _ Hfit) as Hn. unfold NINODES in Hn.
  destruct (img_root files nms s dn k ip HM HK Hmod Hdev) as (R1 & R2 & R3 & R4 & R5 & HB). fold x in R1, R2, R3, R4, HB. set (n := nb _ * 64) in *.
  assert (Hsz : i_size x / sizeof_dirent = Z.of_nat (Z.to_nat n)).
  { change sizeof_dirent with 16. rewrite R4, Z.mul_comm, Z.div_mul by lia. lia. }
  split; [split; [exact R1|exact R2|]|split; [exact R3|]].
  { change sizeof_dirent with 16. rewrite R4, Z.mul_comm. apply Z.mod_mul. lia. }
  intros nm. destruct (root_entries_len nms) as [L1 L2]. transitivity (names (root_entries nms) nm).
  - rewrite <- (names_entries _ (Z.to_nat n) nm L1) by lia. unfold entries. rewrite Hsz. f_equal.
    apply map_ext_in. intros j Hj%list_elem_of_In%elem_of_seqZ. unfold dirent_at, entry_of. rewrite <- root_concat by lia.
    apply map_ext_in. intros b Hb%list_elem_of_In%elem_of_seqZ. apply HB. rewrite R4. lia.
  - unfold root_entries. cbn [names]. rewrite !named_new, !new_entry_inum, names_dir by (unfold ROOTINO; lia).
    by repeat case_bool_decide; repeat case_decide.
Qed.

(** C37: when the entries fill the last block, the size that [mkfs] gives to the
    root directory is a block too much: the last block of the directory is
    missing. *)
Theorem mkfs_root_hole files nms :
  fits files nms -> (Z.of_nat (length nms) + 2) mod 64 = 0 ->
  exists s, mkfs_main files = Some s /\
  forall k ip, mounted k s -> i_dev ip = ROOTDEV ->
    let x := disk_inode k ROOTINO ip in
    i_size x = 16 * (Z.of_nat (length nms) + 2) + BSIZE /\ fblock k x (i_size x / BSIZE - 1) = 0.
Proof.
  intros Hfit Hmod. destruct (mkfs_makes files nms Hfit) as (s & dn & E & HM). exists s. split; [exact E|]. clear E. intros k ip HK Hdev.
  pose proof (Forall2_length _ _ _ (fit_names _ _ Hfit)) as Hlen. pose proof (fit_inodes _ _ Hfit) as Hn. unfold NINODES in Hn.
  cbv zeta. change ROOTINO with (Z.of_nat 0 + 1). set (f := (T_DIR, root_bytes nms)).
  assert (Hf : image_of nms files !! 0%nat = Some f) by done. assert (Ht : 0 <= f.1 < 2 ^ 15) by done.
  pose proof (root_len nms) as Hroot. pose proof (ma_root _ _ _ _ HM) as Hs. pose proof (root_mod nms) as Hm. fold f in Hroot, Hs, Hm.
  rewrite Hmod in Hm. pose proof (Z.div_mod (flen f) 1024 ltac:(lia)) as Hd. rewrite Hm in Hd.
  destruct (img_attr _ _ _ _ _ HM HK _ _ _ Hf Ht Hdev) as (_ & _ & _ & A4 & _). rewrite Hs in A4. change BSIZE with 1024 in *.
  split; [rewrite A4; lia|]. rewrite A4, Z.div_mul by lia. rewrite Z.add_simpl_r.
  rewrite (img_block _ _ _ _ _ HM HK 0 f ip Hf) by (change MAXFILE with 268; lia).
  destruct (img_core _ _ _ _ HM) as [own HC]. pose proof (co_addr _ _ _ _ HC 0 f (flen f / 1024) Hf ltac:(change MAXFILE with 268; lia)) as Ha.
  rewrite nb_div, Hm, Z.eqb_refl, Z.add_0_r, Z.ltb_irrefl in Ha by lia. exact Ha.
Qed.

(** ** Example *)

(** A kernel that has just started on the image, with nothing in the buffer
    cache. *)
Definition mount (s : mkfs_st) : kernel :=
  let k := put_disk (mk_disk (sect s) []) sample in
  set_fs (set_sb (superblock_of (blk (sect s) 1)) (k_fs k)) k.

Lemma mount_view s n : view (mount s) n = blk (sect s) n.
Proof.
  assert (Hb : forall b, has_block n (buf_at (mount s) b) = false).
  { intros b. unfold buf_at.
    change (bufs (mount s)) with (repeat zero_buf (S NBUF)).
    destruct (repeat zero_buf (S NBUF) !! b) as [x|] eqn:E; [|apply andb_false_r].
    apply list_elem_of_lookup_2, list_elem_of_In, repeat_spec in E as ->. apply andb_false_r. }
  unfold view. replace (find _ _) with (@None nat); [done|]. symmetry.
  induction (seq 0 NBUF) as [|b l IH]; [done|]. cbn [find]. by rewrite Hb.
Qed.

Lemma mount_mounted s : mounted (mount s) s.
Proof. split; [intros n _; apply mount_view|]. by rewrite mount_view. Qed.

Definition sample_files : list (list Z * list (list Z)) :=
  [(bytes_of "user/_cat", [repeat 7 (Z.to_nat BSIZE); [1; 2]]); (bytes_of "README", [])].
Definition sample_nms : list (list Z) := [bytes_of "cat"; bytes_of "README"].
Definition sample_ip : inode := set_i_dev ROOTDEV zero_inode.

Lemma sample_fits : fits sample_files sample_nms.
Proof. split; [repeat constructor|done|repeat constructor; vm_compute; discriminate|vm_compute; discriminate]. Qed.

Lemma mkfs_files_witness : exists s, mkfs_main sample_files = Some s /\ mounted (mount s) s /\
  let x := disk_inode (mount s) 2 sample_ip in
  file_wf 2 (IBLOCK 2 (the_sb (mount s))) (mount s) x /\ i_type x = T_FILE /\
  map (file_byte (mount s) x) (seqZ 0 (i_size x)) = repeat 7 (Z.to_nat BSIZE) ++ [1; 2].
Proof.
  destruct (mkfs_files sample_files sample_nms sample_fits) as (s & E & H). exists s. split; [exact E|]. split; [apply mount_mounted|].
  destruct (H (mount s) (mount_mounted s)) as (_ & _ & Hf).
  destruct (Hf 0%nat (bytes_of "user/_cat", [repeat 7 (Z.to_nat BSIZE); [1; 2]]) sample_ip eq_refl eq_refl) as (_ & W & T & _ & _ & B).
  split; [exact W|]. split; [exact T|exact B].
Defined.

Lemma mkfs_blocks_witness : exists s, mkfs_main sample_files = Some s /\ mounted (mount s) s /\
  used (bitmap (mount s)) 48 = true /\ used (bitmap (mount s)) 49 = false /\
  dinode_type (view (mount s) (IBLOCK 4 (the_sb (mount s)))) (dinode_off 4) = 0.
Proof.
  destruct (mkfs_blocks sample_files sample_nms sample_fits) as (s & E & H). exists s. split; [exact E|]. split; [apply mount_mounted|].
  destruct (H (mount s) (mount_mounted s)) as (Hu & _ & Hi).
  split; [rewrite Hu by lia; vm_compute; reflexivity|]. split; [rewrite Hu by lia; vm_compute; reflexivity|].
  apply Hi. split; [vm_compute; discriminate|reflexivity].
Defined.

Lemma mkfs_directory_witness : exists s, mkfs_main sample_files = Some s /\ mounted (mount s) s /\
  let x := disk_inode (mount s) ROOTINO sample_ip in
  dir_ok (mount s) x /\ names (entries (mount s) x) (bytes_of "..") = Some ROOTINO /\
  names (entries (mount s) x) (bytes_of "README") = Some 3 /\ names (entries (mount s) x) (bytes_of "user") = None.
Proof.
  destruct (mkfs_directory sample_files sample_nms sample_fits) as (s & E & H); [vm_compute; discriminate|].
  exists s. split; [exact E|]. split; [apply mount_mounted|].
  destruct (H (mount s) sample_ip (mount_mounted s) eq_refl) as (D & _ & N).
  split; [exact D|]. rewrite !N. split; [reflexivity|]. split; reflexivity.
Defined.

(** 62 files, so that the root directory has 64 entries. *)
Definition sample_many : list (list Z * list (list Z)) := repeat (bytes_of "a", []) 62.

Lemma many_fits : fits sample_many (repeat (bytes_of "a") 62).
Proof. split; [repeat constructor|done|repeat constructor; vm_compute; discriminate|vm_compute; discriminate]. Qed.

Lemma mkfs_root_hole_witness : exists s, mkfs_main sample_many = Some s /\
  i_size (disk_inode (mount s) ROOTINO sample_ip) = 2048 /\ fblock (mount s) (disk_inode (mount s) ROOTINO sample_ip) 1 = 0.
Proof.
  destruct (mkfs_root_hole sample_many (repeat (bytes_of "a") 62) many_fits) as (s & E & H); [reflexivity|].
  exists s. split; [exact E|]. destruct (H (mount s) sample_ip (mount_mounted s) eq_refl) as (H1 & H2).
  split; [exact H1|]. rewrite H1 in H2. exact H2.
Defined.
