(* ===== verification/Asm.v ===== *)
(** * The machine below C: registers, instructions, address translation

    The part of the RISC-V privileged architecture that [start.c] and the
    assembly files use: integer and control registers, the three privilege
    modes, Sv39 translation by the page tables in memory, and the instructions
    that occur.  An instruction gives the next state, a jump with its target,
    a call of the environment, or a fault. *)

From S2P Require Import Prelude Defs State Memory Kalloc Vm Csr.

Inductive reg :=
| ra | sp | gp | tp | t0 | t1 | t2 | s0 | s1 | a0 | a1 | a2 | a3 | a4 | a5 | a6 | a7
| s2 | s3 | s4 | s5 | s6 | s7 | s8 | s9 | s10 | s11 | t3 | t4 | t5 | t6.

#[export] Instance reg_eq_dec : EqDecision reg.
Proof. solve_decision. Defined.

(** [sie] and [sip] are views of [mie] and [mip]. *)
Inductive csr :=
| mhartid | mstatus | medeleg | mideleg | mie | mip | mtvec | mscratch | mepc
| sscratch | sepc | satp | sie | sip.

#[export] Instance csr_eq_dec : EqDecision csr.
Proof. solve_decision. Defined.

Inductive mode := Umode | Smode | Mmode.

Record hart := mk_hart { h_reg : reg -> Z; h_csr : csr -> Z; h_mode : mode; h_mem : gmap Z Z }.

Definition upd {A} `{EqDecision A} (f : A -> Z) (a : A) (v : Z) (b : A) : Z := if decide (b = a) then v else f b.

Definition set_reg (r : reg) (v : Z) (h : hart) : hart := mk_hart (upd (h_reg h) r v) (h_csr h) (h_mode h) (h_mem h).
Definition set_csr (c : csr) (v : Z) (h : hart) : hart := mk_hart (h_reg h) (upd (h_csr h) c v) (h_mode h) (h_mem h).
Definition set_mode (p : mode) (h : hart) : hart := mk_hart (h_reg h) (h_csr h) p (h_mem h).
Definition set_mem (m : gmap Z Z) (h : hart) : hart := mk_hart (h_reg h) (h_csr h) (h_mode h) m.

(** ** Control registers *)

(** The lowest mode that has access. *)
Definition csr_level (c : csr) : mode :=
  match c with sscratch | sepc | satp | sie | sip => Smode | _ => Mmode end.

Definition mode_le (p q : mode) : bool :=
  match p, q with Umode, _ => true | Smode, Umode => false | Smode, _ => true | Mmode, Mmode => true | Mmode, _ => false end.

(** The interrupts that can be delegated: software, timer and external ones of
    supervisor mode.  An [ecall] of machine mode cannot be delegated. *)
Definition S_INTERRUPTS : Z := 0x222.
Definition ECALL_M : Z := Z.shiftl 1 11.
(** Supervisor software interrupt, the one bit of [sip] that can be written. *)
Definition SSIP : Z := Z.shiftl 1 1.

Definition csr_read (c : csr) (h : hart) : option Z :=
  if mode_le (csr_level c) (h_mode h) then
    Some (match c with
          | sie => Z.land (h_csr h mie) (h_csr h mideleg)
          | sip => Z.land (h_csr h mip) (h_csr h mideleg)
          | _ => h_csr h c
          end)
  else None.

(** The bits [w] of [x] are those of [v]. *)
Definition masked (x w v : Z) : Z := Z.lor (Z.ldiff x w) (Z.land v w).

Definition satp_mode (v : Z) : Z := Z.shiftr v 60.

Definition csr_write (c : csr) (v : Z) (h : hart) : option hart :=
  if mode_le (csr_level c) (h_mode h) then
    match c with
    | mhartid => None
    | sie => Some (set_csr mie (masked (h_csr h mie) (h_csr h mideleg) v) h)
    | sip => Some (set_csr mip (masked (h_csr h mip) (Z.land SSIP (h_csr h mideleg)) v) h)
    | mideleg => Some (set_csr mideleg (Z.land v S_INTERRUPTS) h)
    | medeleg => Some (set_csr medeleg (Z.ldiff v ECALL_M) h)
    | mepc | sepc => Some (set_csr c (Z.ldiff v 1) h)
    | satp => Some (if (satp_mode v =? 0) || (satp_mode v =? 8) then set_csr satp v h else h)
    | _ => Some (set_csr c v h)
    end
  else None.

(** ** Address translation *)

Inductive access := A_load | A_store | A_fetch.

Definition pte_allows (pte : Z) (acc : access) (p : mode) : bool :=
  pte_flag pte (match acc with A_load => PTE_R | A_store => PTE_W | A_fetch => PTE_X end) &&
  Bool.eqb (pte_flag pte PTE_U) (match p with Umode => true | _ => false end).

Definition pte_page (pte : Z) : Z := Z.shiftl (Z.land (Z.shiftr pte 10) (Z.ones 44)) 12.

(** The walk of the hardware from the table at [base]; a leaf at a level above
    0 maps a larger page. *)
Fixpoint sv39_walk (level : nat) (m : gmap Z Z) (base va : Z) (acc : access) (p : mode) : option Z :=
  let pte := rd64 m (base + 8 * PX (Z.of_nat level) va) in
  let size := Z.shiftl 1 (PXSHIFT (Z.of_nat level)) in
  if negb (pte_flag pte PTE_V) || negb (pte_flag pte PTE_R) && pte_flag pte PTE_W then None
  else if pte_flag pte PTE_R || pte_flag pte PTE_X then
    if pte_allows pte acc p && (pte_page pte mod size =? 0) then Some (pte_page pte + va mod size) else None
  else match level with
       | O => None
       | S level => sv39_walk level m (pte_page pte) va acc p
       end.

(** The upper bits of an address repeat bit 38. *)
Definition canonical (va : Z) : bool := (Z.shiftr va 38 =? 0) || (Z.shiftr va 38 =? Z.ones 26).

Definition translate (h : hart) (va : Z) (acc : access) : option Z :=
  match h_mode h with
  | Mmode => Some va
  | p =>
      let s := h_csr h satp in
      if satp_mode s =? 0 then Some va else
      if canonical va then sv39_walk 2 (h_mem h) (Z.shiftl (Z.land s (Z.ones 44)) 12) va acc p else None
  end.

(** Aligned accesses of 8 bytes. *)
Definition load_dw (va : Z) (h : hart) : option Z :=
  if va mod 8 =? 0 then pa ← translate h va A_load; Some (rd64 (h_mem h) pa) else None.
Definition store_dw (va v : Z) (h : hart) : option hart :=
  if va mod 8 =? 0 then pa ← translate h va A_store; Some (set_mem (wr64 (h_mem h) pa v) h) else None.

(** ** Instructions *)

(** The functions in C that assembly code calls. *)
Inductive cfun := C_start | C_kerneltrap.

Inductive instr :=
| sd (r : reg) (off : Z) (b : reg)
| ld (r : reg) (off : Z) (b : reg)
| li (r : reg) (v : Z)
| la (r : reg) (sym : Z)
| addi (r s : reg) (v : Z)
| add (r s t : reg)
| mul (r s t : reg)
| csrr (r : reg) (c : csr)
| csrw (c : csr) (r : reg)
| csrrw (r : reg) (c : csr) (s : reg)
| sfence_vma
| call (f : cfun)
| jr (r : reg)
| j_self
| i_ret
| i_sret
| i_mret.

(** What an instruction does: the next one, a jump to an address, a loop
    without end, or a fault. *)
Inductive res :=
| Next (h : hart)
| Jump (pc : Z) (h : hart)
| Spins
| Fault.

Definition next (o : option hart) : res := match o with Some h => Next h | None => Fault end.

Definition MIE_BIT : Z := 3.
Definition MPIE_BIT : Z := 7.
Definition SIE_BIT : Z := 1.
Definition SPIE_BIT : Z := 5.
Definition SPP_BIT : Z := 8.

Definition put_bit (x i : Z) (b : bool) : Z := if b then Z.setbit x i else Z.clearbit x i.

(** Return from a trap taken in supervisor mode. *)
Definition sret (h : hart) : res :=
  match h_mode h with
  | Umode => Fault
  | _ =>
      let s := h_csr h mstatus in
      let p := if Z.testbit s SPP_BIT then Smode else Umode in
      let s := put_bit (put_bit (put_bit s SIE_BIT (Z.testbit s SPIE_BIT)) SPIE_BIT true) SPP_BIT false in
      Jump (h_csr h sepc) (set_mode p (set_csr mstatus s h))
  end.

(** Return from a trap taken in machine mode; the previous mode is in bits 11
    and 12. *)
Definition mret (h : hart) : res :=
  match h_mode h with
  | Mmode =>
      let s := h_csr h mstatus in
      let p := if Z.testbit s 11 then (if Z.testbit s 12 then Mmode else Smode) else Umode in
      let s := put_bit (put_bit (put_bit (put_bit s MIE_BIT (Z.testbit s MPIE_BIT)) MPIE_BIT true) 11 false) 12 false in
      Jump (h_csr h mepc) (set_mode p (set_csr mstatus s h))
  | _ => Fault
  end.

Section exec.
(** The functions in C. *)
Context (callee : cfun -> hart -> res).

Definition exec_instr (i : instr) (h : hart) : res :=
  let x := h_reg h in
  match i with
  | sd r off b => next (store_dw (u64 (x b + off)) (x r) h)
  | ld r off b => next (v ← load_dw (u64 (x b + off)) h; Some (set_reg r v h))
  | li r v => Next (set_reg r (u64 v) h)
  | la r sym => Next (set_reg r sym h)
  | addi r s v => Next (set_reg r (u64 (x s + v)) h)
  | add r s t => Next (set_reg r (u64 (x s + x t)) h)
  | mul r s t => Next (set_reg r (u64 (x s * x t)) h)
  | csrr r c => next (v ← csr_read c h; Some (set_reg r v h))
  | csrw c r => next (csr_write c (x r) h)
  | csrrw r c s => next (v ← csr_read c h; h' ← csr_write c (x s) h; Some (set_reg r v h'))
  | sfence_vma => match h_mode h with Umode => Fault | _ => Next h end
  | call f => callee f h
  | jr r => Jump (x r) h
  | j_self => Spins
  | i_ret => Jump (x ra) h
  | i_sret => sret h
  | i_mret => mret h
  end.

(** The code runs in the page at the virtual address [va], which has to be the
    page [pa] of the code under the page table of the moment. *)
Fixpoint run (va pa : Z) (code : list instr) (h : hart) : res :=
  match code with
  | [] => Fault
  | i :: code =>
      if decide (translate h va A_fetch = Some pa) then
        match exec_instr i h with
        | Next h => run va pa code h
        | r => r
        end
      else Fault
  end.
End exec.
