(* ===== verification/Boot.v ===== *)
(** * From reset to [main]: [entry.S], [start.c] and the timer interrupt of
    [kernelvec.S]

    The C code of [start.c] runs in machine mode on the registers themselves;
    it is a state transformer of the machine that may fault. *)

From S2P Require Import Prelude Defs State Memory Csr Asm.

(** Addresses that the linker chooses. *)
Class BootSyms := {
  sym_stack0 : Z;
  sym_mscratch0 : Z;
  sym_main : Z;
  sym_timervec : Z }.

Section boot.
Context {B : BootSyms}.

Definition entry : list instr :=
  [la sp sym_stack0; li a0 (1024 * 4); csrr a1 mhartid; addi a1 a1 1; mul a0 a0 a1;
   add sp sp a0; call C_start; j_self].

(** ** [start.c] *)

Definition C (A : Type) : Type := hart -> option (A * hart).
Definition c_bind {A X} (m : C A) (f : A -> C X) : C X := fun h => '(a, h) ← m h; f a h.
Notation "'let+' x := m 'in' f" := (c_bind m (fun x => f))
  (at level 10, x pattern, m at level 100, f at level 200).
Notation "m ;+ f" := (c_bind m (fun _ => f)) (at level 100, f at level 200, right associativity).

(** [csrr] and [csrw] in the inline functions of [riscv.h]. *)
Definition r_csr (c : csr) : C Z := fun h => v ← csr_read c h; Some (v, h).
Definition w_csr (c : csr) (v : Z) : C unit := fun h => h ← csr_write c v h; Some (tt, h).

Definition r_mhartid : C Z := r_csr mhartid.
Definition r_mstatus : C Z := r_csr mstatus.
Definition w_mstatus (x : Z) : C unit := w_csr mstatus x.
Definition w_mepc (x : Z) : C unit := w_csr mepc x.
Definition w_satp (x : Z) : C unit := w_csr satp x.
Definition w_medeleg (x : Z) : C unit := w_csr medeleg x.
Definition w_mideleg (x : Z) : C unit := w_csr mideleg x.
Definition r_sie : C Z := r_csr sie.
Definition w_sie (x : Z) : C unit := w_csr sie x.
Definition r_mie : C Z := r_csr mie.
Definition w_mie (x : Z) : C unit := w_csr mie x.
Definition w_mscratch (x : Z) : C unit := w_csr mscratch x.
Definition w_mtvec (x : Z) : C unit := w_csr mtvec x.
Definition w_tp (x : Z) : C unit := fun h => Some (tt, set_reg tp x h).

(** [*(uint64* )a] *)
Definition c_load (a : Z) : C Z := fun h => v ← load_dw a h; Some (v, h).
Definition c_store (a v : Z) : C unit := fun h => h ← store_dw a v h; Some (tt, h).

Definition MSTATUS_MPP_MASK : Z := Z.shiftl 3 11.
Definition MSTATUS_MPP_S : Z := Z.shiftl 1 11.
Definition MSTATUS_MIE : Z := Z.shiftl 1 3.
Definition SIE_SEIE : Z := Z.shiftl 1 9.
Definition SIE_STIE : Z := Z.shiftl 1 5.
Definition SIE_SSIE : Z := Z.shiftl 1 1.
Definition MIE_MTIE : Z := Z.shiftl 1 7.
Definition CLINT_MTIMECMP (hartid : Z) : Z := CLINT + 0x4000 + 8 * hartid.
Definition CLINT_MTIME : Z := CLINT + 0xBFF8.

Definition timerinit : C unit :=
  let+ id := r_mhartid in
  let id := s32 id in
  let interval := 1000000 in
  let+ mtime := c_load CLINT_MTIME in
  c_store (CLINT_MTIMECMP id) (u64 (mtime + interval)) ;+
  let scratch := u64 (sym_mscratch0 + 8 * (32 * id)) in
  c_store (scratch + 8 * 4) (u64 (CLINT_MTIMECMP id)) ;+
  c_store (scratch + 8 * 5) interval ;+
  w_mscratch scratch ;+
  w_mtvec sym_timervec ;+
  let+ x := r_mstatus in
  w_mstatus (Z.lor x MSTATUS_MIE) ;+
  let+ x := r_mie in
  w_mie (Z.lor x MIE_MTIE).

(** [start] up to the [mret] at its end. *)
Definition start_body : C unit :=
  let+ x := r_mstatus in
  let x := Z.ldiff x MSTATUS_MPP_MASK in
  let x := Z.lor x MSTATUS_MPP_S in
  w_mstatus x ;+
  w_mepc sym_main ;+
  w_satp 0 ;+
  w_medeleg 0xffff ;+
  w_mideleg 0xffff ;+
  let+ x := r_sie in
  w_sie (Z.lor (Z.lor (Z.lor x SIE_SEIE) SIE_STIE) SIE_SSIE) ;+
  timerinit ;+
  let+ id := r_mhartid in
  w_tp (u64 (s32 id)).

Definition start (h : hart) : res :=
  match start_body h with
  | Some (_, h) => mret h
  | None => Fault
  end.

(** ** [timervec] *)

Definition timervec : list instr :=
  [csrrw a0 mscratch a0; sd a1 0 a0; sd a2 8 a0; sd a3 16 a0; ld a1 32 a0; ld a2 40 a0;
   ld a3 0 a1; add a3 a3 a2; sd a3 0 a1; li a1 2; csrw sip a1; ld a3 16 a0; ld a2 8 a0;
   ld a1 0 a0; csrrw a0 mscratch a0; i_mret].
End boot.
