(* ===== verification/AsmSpec.v ===== *)
(** * Rules for the machine

    The page tables of the kernel, as [pt_ok] and [leaf] describe them,
    translate as the hardware walks them; and a block of stores or loads of
    registers has the effect of all of them at once. *)

From S2P Require Import Prelude Defs State Logic Memory Kalloc Vm PageTable Csr Asm.

(** ** Translation *)

Lemma pte_page_make pa fl : 0 <= pa < 2 ^ 56 -> pa mod PGSIZE = 0 -> 0 <= fl < 1024 -> pte_page (Z.lor (PA2PTE pa) fl) = pa.
Proof.
  intros Hp Ha Hf. unfold pte_page. rewrite pte_val by done. rewrite Z.shiftr_div_pow2, Z.land_ones, Z.shiftl_mul_pow2 by lia.
  unfold PGSIZE in *. change (2 ^ 10) with 1024. rewrite Z.div_add_l, (Z.div_small fl) by lia. rewrite Z.add_0_r.
  pose proof (Z.div_mod pa 4096 ltac:(lia)). rewrite Z.mod_small; [lia|]. split; [apply Z.div_pos; lia|apply Z.div_lt_upper_bound; lia].
Qed.

Lemma pte_flag_make pa fl f : 0 <= pa < 2 ^ 56 -> pa mod PGSIZE = 0 -> 0 <= fl < 1024 -> 0 <= f < 1024 ->
  pte_flag (Z.lor (PA2PTE pa) fl) f = c_true (Z.land fl f).
Proof. intros Hp Ha Hf Hf'. unfold pte_flag. by rewrite land_small_flags, PTE_FLAGS_make by done. Qed.

Lemma MAKE_SATP_spec root : 0 <= root < 2 ^ 56 -> root mod PGSIZE = 0 ->
  satp_mode (MAKE_SATP root) = 8 /\ Z.shiftl (Z.land (MAKE_SATP root) (Z.ones 44)) 12 = root.
Proof.
  intros Hr Ha. unfold satp_mode, MAKE_SATP, SATP_SV39, PGSIZE in *. rewrite Z.shiftr_lor, Z.land_lor_distr_l.
  assert (0 <= Z.shiftr root 12 < 2 ^ 44).
  { rewrite Z.shiftr_div_pow2 by lia. split; [apply Z.div_pos; lia|apply Z.div_lt_upper_bound; lia]. }
  split.
  - rewrite (Z.shiftr_div_pow2 (Z.shiftr root 12)), (Z.div_small (Z.shiftr root 12)) by lia. done.
  - rewrite (Z.land_ones (Z.shiftr root 12)), Z.mod_small by lia. change (Z.land (Z.shiftl 8 60) (Z.ones 44)) with 0.
    rewrite Z.lor_0_l, Z.shiftl_mul_pow2, Z.shiftr_div_pow2 by lia. change (2 ^ 12) with 4096. pose proof (Z.div_mod root 4096 ltac:(lia)). lia.
Qed.

Section translation.
Context {L : Linker} {LO : LinkerOk L}.

(** One level of tables. *)
Lemma sv39_table m T root p c d level va acc q :
  pt_ok m T root -> T !! p = Some c -> (length p < 2)%nat -> T !! (p ++ [PX (Z.of_nat (S level)) va]) = Some d ->
  sv39_walk (S level) m c va acc q = sv39_walk level m d va acc q.
Proof.
  intros H Hp Hl Hd. pose proof (pt_link _ _ _ H p c (PX (Z.of_nat (S level)) va) Hp Hl (PX_range _ _)) as E. rewrite Hd in E.
  assert (Hpg : page_ok d) by by eapply pt_page. pose proof (page_ok_pos _ Hpg) as Hpos. destruct Hpg as [Ha _].
  cbn [sv39_walk]. rewrite E. rewrite !pte_flag_make, pte_page_make by (lia || done). done.
Qed.

(** A page that the table [T] maps with the permissions [fl]. *)
Lemma sv39_leaf m T root va pa fl acc q :
  pt_ok m T root -> leaf m T va = Z.lor (PA2PTE pa) fl -> 0 <= pa < 2 ^ 56 -> pa mod PGSIZE = 0 -> 0 <= fl < 1024 ->
  c_true (Z.land fl PTE_V) = true -> c_true (Z.land fl PTE_R) = true -> pte_allows fl acc q = true ->
  sv39_walk 2 m root va acc q = Some (pa + va mod PGSIZE).
Proof.
  intros H Hleaf Hpa Ha Hfl HV HR Hacc. unfold leaf, pte_addr in Hleaf.
  destruct (T !! [PX 2 va; PX 1 va]) as [c|] eqn:E2.
  2:{ rewrite pte_val in Hleaf by done. assert (fl = 0) as -> by (pose proof (Z.div_pos pa PGSIZE ltac:(lia) ltac:(done)); lia). done. }
  destruct (pt_up _ _ _ H [PX 2 va] (PX 1 va) c E2) as [d E1]. pose proof (pt_root _ _ _ H) as E0.
  rewrite (sv39_table m T root [] root d 1 va acc q H E0 ltac:(simpl; lia) E1).
  rewrite (sv39_table m T root [PX 2 va] d c 0 va acc q H E1 ltac:(simpl; lia) E2).
  cbn [sv39_walk]. change (Z.of_nat 0) with 0. rewrite Hleaf. unfold pte_allows in *.
  rewrite !pte_flag_make, pte_page_make by (try destruct acc; done). unfold pte_flag in Hacc. rewrite HV, HR, Hacc.
  change (Z.shiftl 1 (PXSHIFT 0)) with PGSIZE. by rewrite Ha, Z.eqb_refl.
Qed.
End translation.

(** ** Windows

    The code may change the bytes of [W]; whatever it stores there, the
    address [va] stays the physical address [pa] for loads and stores, and the
    page of the code stays where it is. *)

Definition agree_out (W : Z -> Prop) (m m' : gmap Z Z) : Prop := forall b, ~ W b -> rd m' b = rd m b.

(** What translation depends on. *)
Definition same_vm (h h' : hart) : Prop := h_mode h' = h_mode h /\ h_csr h' satp = h_csr h satp.

Definition window (h : hart) (W : Z -> Prop) (va pa : Z) : Prop :=
  forall h', same_vm h h' -> agree_out W (h_mem h) (h_mem h') ->
    translate h' va A_load = Some pa /\ translate h' va A_store = Some pa.

Definition code_at (h : hart) (W : Z -> Prop) (va pa : Z) : Prop :=
  forall h', same_vm h h' -> agree_out W (h_mem h) (h_mem h') -> translate h' va A_fetch = Some pa.

#[export] Instance agree_out_preorder W : PreOrder (agree_out W).
Proof. split; [done|]. intros m1 m2 m3 H1 H2 b Hb. by rewrite H2, H1. Qed.

#[export] Instance same_vm_preorder : PreOrder same_vm.
Proof. split; [done|]. intros h1 h2 h3 [A1 A2] [B1 B2]. split; congruence. Qed.

(** From [h] to [h'] only bytes of [W] changed, and translation is the same. *)
Definition within (W : Z -> Prop) (h h' : hart) : Prop := same_vm h h' /\ agree_out W (h_mem h) (h_mem h').

#[export] Instance within_preorder W : PreOrder (within W).
Proof. split; [done|]. intros h1 h2 h3 [A1 A2] [B1 B2]. split; by etransitivity. Qed.

Lemma window_within h h' W va pa : within W h h' -> window h W va pa -> window h' W va pa.
Proof. intros [H1 H2] Hw g G1 G2. apply Hw; by etransitivity. Qed.

Lemma code_within h h' W va pa : within W h h' -> code_at h W va pa -> code_at h' W va pa.
Proof. intros [H1 H2] Hw g G1 G2. apply Hw; by etransitivity. Qed.

Lemma window_sub h (W V : Z -> Prop) va pa : (forall b, V b -> W b) -> window h W va pa -> window h V va pa.
Proof. intros HV Hw g G1 G2. apply Hw; [done|]. intros b Hb. apply G2. auto. Qed.

Lemma code_sub h (W V : Z -> Prop) va pa : (forall b, V b -> W b) -> code_at h W va pa -> code_at h V va pa.
Proof. intros HV Hw g G1 G2. apply Hw; [done|]. intros b Hb. apply G2. auto. Qed.

Lemma within_reg W r v h : within W h (set_reg r v h).
Proof. done. Qed.

Lemma within_csr W c v h : c <> satp -> within W h (set_csr c v h).
Proof. intros Hc. split; [|done]. split; [done|]. simpl. unfold upd. by rewrite decide_False. Qed.

Lemma within_mem (W : Z -> Prop) h pa v : (forall b, pa <= b < pa + 8 -> W b) -> within W h (set_mem (wr64 (h_mem h) pa v) h).
Proof.
  intros HW. split; [done|]. intros b Hb. simpl. unfold wr64. apply rd_wr_out. rewrite length_le_bytes.
  destruct (decide (b < pa)); [by left|]. right. destruct (decide (pa + 8 <= b)); [lia|]. exfalso. apply Hb, HW. lia.
Qed.

(** *** Windows of a page table *)

Lemma PX_page level va o : 0 <= level -> 0 <= va -> va mod PGSIZE = 0 -> 0 <= o < PGSIZE -> PX level (va + o) = PX level va.
Proof.
  intros Hl Hv Ha Ho. unfold PX, PXSHIFT, PGSHIFT, PGSIZE in *. f_equal. rewrite !Z.shiftr_div_pow2 by lia.
  rewrite Z.pow_add_r by lia. change (2 ^ 12) with 4096. pose proof (Z.pow_pos_nonneg 2 (9 * level) ltac:(lia) ltac:(lia)).
  rewrite <- !Z.div_div by lia. f_equal. pose proof (Z.div_mod va 4096 ltac:(lia)). symmetry.
  apply Z.div_unique with (r := o); lia.
Qed.

Section page.
Context {L : Linker} {LO : LinkerOk L}.
Context (h : hart) (T : gmap (list Z) Z) (root : Z) (W : Z -> Prop) (va pa fl : Z).
Hypothesis Hpt : pt_ok (h_mem h) T root.
Hypothesis Hmode : h_mode h = Smode.
Hypothesis Hsatp : h_csr h satp = MAKE_SATP root.
Hypothesis HW : forall c b, is_table T c -> c <= b < c + PGSIZE -> ~ W b.
Hypothesis Hva : 0 <= va /\ va + PGSIZE <= MAXVA /\ va mod PGSIZE = 0.
Hypothesis Hpa : 0 <= pa < 2 ^ 56 /\ pa mod PGSIZE = 0.
Hypothesis Hleaf : leaf (h_mem h) T va = Z.lor (Z.lor (PA2PTE pa) fl) PTE_V.

(** The page is mapped under every change of the bytes of [W]. *)
Lemma page_translate h' o acc :
  0 <= fl < 1024 -> pte_flag fl PTE_R = true -> pte_allows fl acc Smode = true ->
  same_vm h h' -> agree_out W (h_mem h) (h_mem h') -> 0 <= o < PGSIZE -> translate h' (va + o) acc = Some (pa + o).
Proof.
  intros Hfl HR Hacc [E1 E2] Hag Ho. destruct (pt_ok_ext (h_mem h) (h_mem h') T root Hpt) as [Hpt' Hl].
  { intros c Hc b Hb. apply Hag. by apply (HW c). }
  assert (Hroot : page_ok root) by (eapply pt_page; [exact Hpt|apply (pt_root _ _ _ Hpt)]).
  pose proof (page_ok_pos _ Hroot) as Hrp. destruct (MAKE_SATP_spec root) as [S1 S2]; [lia|apply Hroot|].
  unfold translate. rewrite E1, E2, Hmode, Hsatp, S1, S2. cbn [Z.eqb].
  assert (canonical (va + o) = true) as ->.
  { unfold canonical. rewrite Z.shiftr_div_pow2 by lia. rewrite Z.div_small; [done|]. change MAXVA with (2 ^ 38) in Hva. unfold PGSIZE in *. lia. }
  destruct (pte_entry pa fl) as (Ee & Hr & _); [apply Hpa..|done|].
  rewrite (sv39_leaf (h_mem h') T root (va + o) pa (Z.lor fl PTE_V)); try apply Hpa; try done.
  - f_equal. f_equal. rewrite Z.add_mod by done. rewrite (proj2 (proj2 Hva)), Z.add_0_l, Z.mod_mod by done. by apply Z.mod_small.
  - rewrite <- Ee, <- Hleaf, <- Hl. unfold leaf, pte_addr. by rewrite !PX_page by (lia || apply Hva).
  - apply negb_true_iff, Z.eqb_neq. intros E. apply (f_equal (fun z => Z.testbit z 0)) in E.
    rewrite Z.land_spec, Z.lor_spec in E. change (Z.testbit PTE_V 0) with true in E. by rewrite orb_true_r in E.
  - unfold pte_flag in HR. rewrite Z.land_lor_distr_l. change (Z.land PTE_V PTE_R) with 0. by rewrite Z.lor_0_r.
  - unfold pte_allows, pte_flag in *. rewrite !Z.land_lor_distr_l. change (Z.land PTE_V PTE_U) with 0. rewrite Z.lor_0_r.
    destruct acc; [change (Z.land PTE_V PTE_R) with 0|change (Z.land PTE_V PTE_W) with 0|change (Z.land PTE_V PTE_X) with 0]; by rewrite Z.lor_0_r.
Qed.

Lemma page_window o : fl = Z.lor PTE_R PTE_W -> 0 <= o < PGSIZE -> window h W (va + o) (pa + o).
Proof. intros Hfl Ho h' H1 H2. rewrite !page_translate by (rewrite ?Hfl; done). done. Qed.

Lemma page_code : fl = Z.lor PTE_R PTE_X -> code_at h W va pa.
Proof. intros Hfl h' H1 H2. rewrite <- (Z.add_0_r va), <- (Z.add_0_r pa). by apply page_translate; rewrite ?Hfl. Qed.
End page.

(** ** Steps and blocks *)

Section blocks.
Context (callee : cfun -> hart -> res) (cva cpa : Z).

Lemma run_next i code h h' : translate h cva A_fetch = Some cpa -> exec_instr callee i h = Next h' ->
  run callee cva cpa (i :: code) h = run callee cva cpa code h'.
Proof. intros Hf E. cbn [run]. by rewrite decide_True, E. Qed.

Lemma run_jump i code h pc h' : translate h cva A_fetch = Some cpa -> exec_instr callee i h = Jump pc h' ->
  run callee cva cpa (i :: code) h = Jump pc h'.
Proof. intros Hf E. cbn [run]. by rewrite decide_True, E. Qed.

Lemma code_fetch h W : code_at h W cva cpa -> translate h cva A_fetch = Some cpa.
Proof. intros H. by apply H. Qed.

(** The registers of [l] are stored at offsets from the register [b]. *)
Definition saves (b : reg) (l : list (reg * Z)) : list instr := map (fun e => sd e.1 e.2 b) l.
Definition loads (b : reg) (l : list (reg * Z)) : list instr := map (fun e => ld e.1 e.2 b) l.

(** Offset [o] from [base] is the aligned physical address [pa + o], and may be
    written. *)
Definition slot (h : hart) (W : Z -> Prop) (base pa o : Z) : Prop :=
  u64 (base + o) mod 8 = 0 /\ window h W (u64 (base + o)) (pa + o).
Definition writable (W : Z -> Prop) (pa o : Z) : Prop := forall b, pa + o <= b < pa + o + 8 -> W b.

Definition store_all (x : reg -> Z) (pa : Z) (l : list (reg * Z)) (m : gmap Z Z) : gmap Z Z :=
  foldl (fun m e => wr64 m (pa + e.2) (x e.1)) m l.
Definition load_all (m : gmap Z Z) (pa : Z) (l : list (reg * Z)) (h : hart) : hart :=
  foldl (fun h e => set_reg e.1 (rd64 m (pa + e.2)) h) h l.

Lemma run_saves W b pa l code h :
  code_at h W cva cpa -> Forall (fun e => slot h W (h_reg h b) pa e.2 /\ writable W pa e.2) l ->
  run callee cva cpa (saves b l ++ code) h = run callee cva cpa code (set_mem (store_all (h_reg h) pa l (h_mem h)) h) /\
  within W h (set_mem (store_all (h_reg h) pa l (h_mem h)) h).
Proof.
  revert h. induction l as [|[r o] l IH]; intros h Hc Hl; [by destruct h|].
  apply Forall_cons in Hl as [[[Ha Hw] HW] Hl]. cbn [fst snd] in *. set (h1 := set_mem (wr64 (h_mem h) (pa + o) (h_reg h r)) h).
  assert (H1 : within W h h1) by (by apply within_mem).
  destruct (IH h1) as [IH1 IH2]; [by eapply code_within|..].
  { eapply Forall_impl; [exact Hl|]. intros e [[Ha' Hw'] HW']. split; [split; [done|by eapply window_within]|done]. }
  cbn [saves map app store_all foldl fst snd]. split; [|etransitivity; [exact H1|exact IH2]].
  rewrite (run_next _ _ h h1); [exact IH1|by eapply code_fetch|]. cbn [exec_instr]. unfold store_dw. rewrite Ha, Z.eqb_refl.
  destruct (Hw h) as [_ ->]; done.
Qed.

Lemma load_all_mem m pa l h : h_mem (load_all m pa l h) = h_mem h /\ h_mode (load_all m pa l h) = h_mode h /\
  h_csr (load_all m pa l h) = h_csr h.
Proof. revert h. induction l as [|e l IH]; intros h; [done|]. apply (IH (set_reg _ _ h)). Qed.

Lemma within_loads W m pa l h : within W h (load_all m pa l h).
Proof. destruct (load_all_mem m pa l h) as (E1 & E2 & E3). split; [split; [done|by rewrite E3]|by rewrite E1]. Qed.

Lemma run_loads W b pa l code h :
  code_at h W cva cpa -> Forall (fun e => slot h W (h_reg h b) pa e.2 /\ (e.1 = b -> rd64 (h_mem h) (pa + e.2) = h_reg h b)) l ->
  run callee cva cpa (loads b l ++ code) h = run callee cva cpa code (load_all (h_mem h) pa l h).
Proof.
  revert h. induction l as [|[r o] l IH]; intros h Hc Hl; [done|].
  apply Forall_cons in Hl as [[[Ha Hw] Hb] Hl]. cbn [fst snd] in *. set (h1 := set_reg r (rd64 (h_mem h) (pa + o)) h).
  assert (Eb : h_reg h1 b = h_reg h b).
  { simpl. unfold upd. case_decide as E; [|done]. apply Hb. done. }
  cbn [loads map app load_all foldl fst snd]. rewrite (run_next _ _ h h1); [|by eapply code_fetch|].
  - apply IH; [by eapply code_within|]. rewrite Eb. exact Hl.
  - cbn [exec_instr]. unfold load_dw. rewrite Ha, Z.eqb_refl. destruct (Hw h) as [-> _]; done.
Qed.
End blocks.

(** Offsets at least 8 apart. *)
Fixpoint apart (l : list Z) : bool :=
  match l with
  | [] => true
  | o :: l => forallb (fun o' => (o + 8 <=? o') || (o' + 8 <=? o)) l && apart l
  end.

Lemma apart_cons o l : apart (o :: l) = true -> (forall o', o' ∈ l -> o + 8 <= o' \/ o' + 8 <= o) /\ apart l = true.
Proof.
  cbn [apart]. intros [H1 H2]%andb_true_iff. split; [|done]. intros o' Ho. rewrite forallb_forall in H1.
  specialize (H1 o' ltac:(by apply list_elem_of_In)). apply orb_true_iff in H1 as [H1|H1]; apply Z.leb_le in H1; lia.
Qed.

Lemma store_all_out x pa l m a :
  (forall o, o ∈ map snd l -> a + 8 <= pa + o \/ pa + o + 8 <= a) -> rd64 (store_all x pa l m) a = rd64 m a.
Proof.
  revert m. induction l as [|[r o] l IH]; intros m H; [done|]. cbn [store_all foldl fst snd].
  fold (store_all x pa l (wr64 m (pa + o) (x r))). rewrite IH by (intros; apply H; by right).
  apply rd64_wr64_ne. apply (H o). left.
Qed.

Lemma store_all_get x pa l m r o :
  apart (map snd l) = true -> (r, o) ∈ l -> 0 <= x r < 2 ^ 64 -> rd64 (store_all x pa l m) (pa + o) = x r.
Proof.
  revert m. induction l as [|[r' o'] l IH]; intros m Ha Hin Hx; [by apply not_elem_of_nil in Hin|].
  cbn [map snd] in Ha. apply apart_cons in Ha as [Ha1 Ha2]. cbn [store_all foldl fst snd]. apply elem_of_cons in Hin as [[= -> ->]|Hin].
  - fold (store_all x pa l (wr64 m (pa + o') (x r'))). rewrite store_all_out; [by apply rd64_wr64_eq|].
    intros o Ho. specialize (Ha1 o Ho). lia.
  - by apply IH.
Qed.

Lemma load_all_out m pa l h r : r ∉ map fst l -> h_reg (load_all m pa l h) r = h_reg h r.
Proof.
  revert h. induction l as [|[r' o'] l IH]; intros h Hr; [done|]. cbn [map fst] in Hr. apply not_elem_of_cons in Hr as [H1 H2].
  cbn [load_all foldl fst snd]. fold (load_all m pa l (set_reg r' (rd64 m (pa + o')) h)). rewrite IH by done.
  simpl. unfold upd. by rewrite decide_False.
Qed.

Lemma load_all_get m pa l h r o : NoDup (map fst l) -> (r, o) ∈ l -> h_reg (load_all m pa l h) r = rd64 m (pa + o).
Proof.
  revert h. induction l as [|[r' o'] l IH]; intros h Hn Hin; [by apply not_elem_of_nil in Hin|].
  cbn [map fst] in Hn. apply NoDup_cons in Hn as [H1 H2]. cbn [load_all foldl fst snd]. apply elem_of_cons in Hin as [[= -> ->]|Hin].
  - fold (load_all m pa l (set_reg r' (rd64 m (pa + o')) h)). rewrite load_all_out by done. simpl. unfold upd. by rewrite decide_True.
  - by apply IH.
Qed.

(** ** Registers of 64 bits *)

Definition word64 (v : Z) : Prop := 0 <= v < 2 ^ 64.

(** A state of the machine: registers of 64 bits, memory of bytes. *)
Record hart_ok (h : hart) : Prop := {
  ho_reg r : word64 (h_reg h r);
  ho_csr c : word64 (h_csr h c);
  ho_mem b : 0 <= rd (h_mem h) b < 256 }.

Lemma word64_bits v : word64 v <-> 0 <= v /\ forall i, 64 <= i -> Z.testbit v i = false.
Proof.
  unfold word64. split.
  - intros [H0 H]. split; [done|]. intros i Hi. destruct (decide (v = 0)) as [->|]; [apply Z.bits_0|].
    apply Z.bits_above_log2; [done|]. assert (Z.log2 v < 64) by (apply Z.log2_lt_pow2; lia). lia.
  - intros [H0 H]. split; [done|]. destruct (decide (v = 0)) as [->|]; [done|].
    apply Z.log2_lt_pow2; [lia|]. apply Z.nle_gt. intros Hl. specialize (H _ Hl). by rewrite Z.bit_log2 in H by lia.
Qed.

Lemma word64_lor v w : word64 v -> word64 w -> word64 (Z.lor v w).
Proof. rewrite !word64_bits. intros [H1 H2] [H3 H4]. split; [by apply Z.lor_nonneg|]. intros i Hi. by rewrite Z.lor_spec, H2, H4. Qed.

Lemma word64_land v w : word64 v -> word64 (Z.land v w).
Proof.
  rewrite !word64_bits. intros [H1 H2]. split; [apply Z.land_nonneg; by left|]. intros i Hi. by rewrite Z.land_spec, H2.
Qed.

Lemma word64_ldiff v w : word64 v -> word64 (Z.ldiff v w).
Proof.
  rewrite !word64_bits. intros [H1 H2]. split; [apply Z.ldiff_nonneg; by left|]. intros i Hi. by rewrite Z.ldiff_spec, H2.
Qed.

Lemma word64_put_bit v i b : 0 <= i < 64 -> word64 v -> word64 (put_bit v i b).
Proof.
  intros Hi Hv. unfold put_bit, Z.setbit, Z.clearbit. destruct b; [|by apply word64_ldiff]. apply word64_lor; [done|].
  rewrite Z.shiftl_1_l. split; [lia|]. apply Z.pow_lt_mono_r; lia.
Qed.

Lemma word64_u64 v : word64 (u64 v).
Proof. unfold word64, u64. apply Z.mod_pos_bound. lia. Qed.

Lemma word64_masked x w v : word64 x -> word64 v -> word64 (masked x w v).
Proof. intros Hx Hv. apply word64_lor; [by apply word64_ldiff|by apply word64_land]. Qed.

Create HintDb mach.
#[export] Hint Resolve word64_lor word64_land word64_ldiff word64_u64 word64_masked ho_reg ho_csr : mach.

Lemma rd64_word h a : hart_ok h -> word64 (rd64 (h_mem h) a).
Proof.
  intros H. unfold word64, rd64. change (2 ^ 64) with (256 ^ Z.of_nat (Z.to_nat 8)). rewrite <- (length_rdn (h_mem h) a 8) by lia.
  apply le_val_range. apply Forall_lookup. intros i v Hv.
  assert (Hi : (i < Z.to_nat 8)%nat) by (apply lookup_lt_Some in Hv; by rewrite length_rdn in Hv by lia).
  rewrite <- (Nat2Z.id i), lookup_rdn in Hv by lia. injection Hv as <-. apply H.
Qed.

Lemma hart_ok_reg h r v : hart_ok h -> word64 v -> hart_ok (set_reg r v h).
Proof. intros [H1 H2 H3] Hv. split; [|done|done]. intros r'. simpl. unfold upd. by case_decide. Qed.

Lemma hart_ok_csr h c v : hart_ok h -> word64 v -> hart_ok (set_csr c v h).
Proof. intros [H1 H2 H3] Hv. split; [done| |done]. intros c'. simpl. unfold upd. by case_decide. Qed.

Lemma hart_ok_mem h a v : hart_ok h -> word64 v -> hart_ok (set_mem (wr64 (h_mem h) a v) h).
Proof.
  intros [H1 H2 H3] Hv. split; [done|done|]. intros b. simpl. unfold wr64.
  destruct (decide (a <= b < a + 8)) as [Hb|Hb]; [|rewrite rd_wr_out by (rewrite length_le_bytes; lia); apply H3].
  unfold rd. rewrite lookup_wr, length_le_bytes, (proj2 (Z.leb_le a b)), (proj2 (Z.ltb_lt b _)) by lia. cbn [andb].
  destruct (lookup_lt_is_Some_2 (le_bytes 8 v) (Z.to_nat (b - a))) as [y Hy]; [rewrite length_le_bytes; lia|]. rewrite Hy.
  apply (proj1 (Forall_lookup _ _) (le_bytes_range 8 v) _ _ Hy).
Qed.

(** What a step leaves. *)
Definition res_ok (r : res) : Prop :=
  match r with Next h => hart_ok h | Jump pc h => word64 pc /\ hart_ok h | _ => True end.

Definition instr_ok (i : instr) : Prop := match i with la _ sym => word64 sym | _ => True end.

Lemma csr_read_word c h v : hart_ok h -> csr_read c h = Some v -> word64 v.
Proof. intros H. unfold csr_read. destruct (mode_le _ _); [|done]. intros [= <-]. destruct c; auto with mach. Qed.

Lemma csr_write_ok c v h h' : hart_ok h -> word64 v -> csr_write c v h = Some h' -> hart_ok h'.
Proof.
  intros H Hv. unfold csr_write. destruct (mode_le _ _); [|done].
  assert (Hs : forall c x, word64 x -> Some (set_csr c x h) = Some h' -> hart_ok h').
  { intros c' x Hx E. apply (inj Some) in E as <-. by apply hart_ok_csr. }
  destruct c; try discriminate; try (apply Hs; auto with mach). destruct (_ || _); [by apply Hs|]. intros E. by apply (inj Some) in E as <-.
Qed.

Lemma hart_ok_mode h p : hart_ok h -> hart_ok (set_mode p h).
Proof. intros [H1 H2 H3]. by split. Qed.

Lemma sret_ok h : hart_ok h -> res_ok (sret h).
Proof.
  intros H. assert (word64 (h_csr h mstatus)) by apply H. unfold sret, SIE_BIT, SPIE_BIT, SPP_BIT.
  destruct (h_mode h); [done|..]; (split; [apply H|]); apply hart_ok_mode, hart_ok_csr; try done; repeat (apply word64_put_bit; [lia|]); done.
Qed.

Lemma mret_ok h : hart_ok h -> res_ok (mret h).
Proof.
  intros H. assert (word64 (h_csr h mstatus)) by apply H. unfold mret, MIE_BIT, MPIE_BIT.
  destruct (h_mode h); [done..|]; (split; [apply H|]); apply hart_ok_mode, hart_ok_csr; try done; repeat (apply word64_put_bit; [lia|]); done.
Qed.

Lemma exec_ok callee i h :
  (forall f h, hart_ok h -> res_ok (callee f h)) -> instr_ok i -> hart_ok h -> res_ok (exec_instr callee i h).
Proof.
  intros Hc Hi H. assert (Hx : forall r, word64 (h_reg h r)) by apply H.
  destruct i; cbn [exec_instr]; try (by apply Hc); try (by apply sret_ok); try (by apply mret_ok);
    try (by apply hart_ok_reg; auto with mach); try done; try (by split).
  - unfold store_dw. destruct (_ =? 0); [|done]. destruct (translate _ _ _); [|done]. by apply hart_ok_mem.
  - unfold load_dw. destruct (_ =? 0); [|done]. destruct (translate _ _ _); [|done]. apply hart_ok_reg; [done|]. by apply rd64_word.
  - destruct (csr_read c h) eqn:E; [|done]. apply hart_ok_reg; [done|]. by eapply csr_read_word.
  - destruct (csr_write c (h_reg h r) h) eqn:E; [|done]. by eapply csr_write_ok.
  - destruct (csr_read c h) eqn:E; [|done]. destruct (csr_write c (h_reg h s) h) eqn:E'; [|done]. apply hart_ok_reg; [by eapply csr_write_ok|by eapply csr_read_word].
  - by destruct (h_mode h).
Qed.

Lemma run_ok callee cva cpa code h :
  (forall f h, hart_ok h -> res_ok (callee f h)) -> Forall instr_ok code -> hart_ok h -> res_ok (run callee cva cpa code h).
Proof.
  intros Hc Hi. revert h. induction Hi as [|i code Hi Hcode IH]; intros h H; [done|]. cbn [run]. case_decide; [|done].
  pose proof (exec_ok callee i h Hc Hi H) as He. destruct (exec_instr callee i h); [by apply IH|done..].
Qed.
