(* ===== verification/TrampSpec.v ===== *)
(** * Switching between threads, and between user and kernel

    [uservec] stores the registers of the user program in its trapframe under
    the user page table, and [userret] brings them back; [swtch] stores the
    registers of a thread and continues another; [kernelvec] leaves the
    interrupted kernel code its registers. *)

From S2P Require Import Prelude Defs State Logic Memory Kalloc Vm PageTable Csr Asm Tramp AsmSpec.

(** ** The trampoline *)

(** The field of the trapframe for a register. *)
Definition tf_reg (r : reg) : trapframe :=
  match r with
  | ra => TF_ra | sp => TF_sp | gp => TF_gp | tp => TF_tp | t0 => TF_t0 | t1 => TF_t1 | t2 => TF_t2
  | s0 => TF_s0 | s1 => TF_s1 | a0 => TF_a0 | a1 => TF_a1 | a2 => TF_a2 | a3 => TF_a3 | a4 => TF_a4
  | a5 => TF_a5 | a6 => TF_a6 | a7 => TF_a7 | s2 => TF_s2 | s3 => TF_s3 | s4 => TF_s4 | s5 => TF_s5
  | s6 => TF_s6 | s7 => TF_s7 | s8 => TF_s8 | s9 => TF_s9 | s10 => TF_s10 | s11 => TF_s11
  | t3 => TF_t3 | t4 => TF_t4 | t5 => TF_t5 | t6 => TF_t6
  end.

(** The registers in the order in which the code saves them; [a0] comes
    separately. *)
Definition user_regs : list reg :=
  [ra; sp; gp; tp; t0; t1; t2; s0; s1; a1; a2; a3; a4; a5; a6; a7; s2; s3; s4; s5; s6; s7; s8; s9; s10; s11; t3; t4; t5; t6].
Definition user_saved : list (reg * Z) := map (fun r => (r, tf_offset (tf_reg r))) user_regs.

Lemma user_regs_all r : r <> a0 -> (r, tf_offset (tf_reg r)) ∈ user_saved.
Proof.
  intros Hr. unfold user_saved. apply list_elem_of_fmap. exists r. split; [done|].
  destruct r; try done; unfold user_regs; repeat (first [left | right]).
Qed.

Lemma tf_reg_range r : 40 <= tf_offset (tf_reg r) <= 280.
Proof. destruct r; simpl; lia. Qed.

Definition kernel_part : list (reg * Z) :=
  [(sp, tf_offset TF_kernel_sp); (tp, tf_offset TF_kernel_hartid); (t0, tf_offset TF_kernel_trap); (t1, tf_offset TF_kernel_satp)].

Lemma uservec_parts : uservec =
  csrrw a0 sscratch a0 :: saves a0 user_saved ++ csrr t0 sscratch :: saves a0 [(t0, tf_offset TF_a0)] ++
  loads a0 kernel_part ++ [csrw satp t1; sfence_vma; jr t0].
Proof. reflexivity. Qed.

Lemma userret_parts : userret =
  csrw satp a1 :: sfence_vma :: ld t0 (tf_offset TF_a0) a0 :: csrw sscratch t0 :: loads a0 user_saved ++
  [csrrw a0 sscratch a0; i_sret].
Proof. reflexivity. Qed.

(** ** [swtch] *)

(** The fields of [struct context]. *)
Definition context_regs : list (reg * Z) :=
  [(ra, 0); (sp, 8); (s0, 16); (s1, 24); (s2, 32); (s3, 40); (s4, 48); (s5, 56); (s6, 64); (s7, 72); (s8, 80); (s9, 88); (s10, 96); (s11, 104)].

Lemma swtch_parts : swtch = saves a0 context_regs ++ loads a1 context_regs ++ [i_ret].
Proof. reflexivity. Qed.

Lemma context_range e : e ∈ context_regs -> 0 <= e.2 <= 104.
Proof. revert e. apply Forall_forall. by repeat (constructor; [simpl; lia|]). Qed.

Lemma context_aligned e : e ∈ context_regs -> e.2 mod 8 = 0.
Proof. revert e. apply Forall_forall. by repeat (constructor; [done|]). Qed.

Definition in_context (c b : Z) : Prop := c <= b < c + 112.

(** The contexts at the addresses in [a0] and [a1], physical [old] and [new]. *)
Record contexts (h : hart) (cva cpa old new : Z) : Prop := {
  cx_code : code_at h (in_context old) cva cpa;
  cx_old e : e ∈ context_regs -> slot h (in_context old) (h_reg h a0) old e.2;
  cx_new e : e ∈ context_regs -> slot h (in_context old) (h_reg h a1) new e.2;
  cx_apart : old + 112 <= new \/ new + 112 <= old }.

(** [h'] is [h] after the switch. *)
Record switched (h : hart) (old new : Z) (h' : hart) : Prop := {
  sw_new r o : (r, o) ∈ context_regs -> h_reg h' r = rd64 (h_mem h) (new + o);
  sw_old r o : (r, o) ∈ context_regs -> rd64 (h_mem h') (old + o) = h_reg h r;
  sw_rest r : r ∉ map fst context_regs -> h_reg h' r = h_reg h r;
  sw_mem : agree_out (in_context old) (h_mem h) (h_mem h');
  sw_csr : h_csr h' = h_csr h /\ h_mode h' = h_mode h }.

Lemma swtch_switches callee cva cpa h old new :
  hart_ok h -> contexts h cva cpa old new ->
  exists h', run callee cva cpa swtch h = Jump (rd64 (h_mem h) new) h' /\ switched h old new h'.
Proof.
  intros Hok [Hc Ho Hn Hap]. rewrite swtch_parts. set (W := in_context old) in *.
  destruct (run_saves callee cva cpa W a0 old context_regs (loads a1 context_regs ++ [i_ret]) h Hc) as [-> W1].
  { apply Forall_forall. intros e He. split; [by apply Ho|]. intros b Hb. pose proof (context_range e He). unfold W, in_context. lia. }
  set (h1 := set_mem _ h) in *.
  rewrite (run_loads callee cva cpa W a1 new); [|by eapply code_within|].
  2:{ apply Forall_forall. intros e He. destruct (Hn e He) as [N1 N2]. split; [split; [done|by eapply window_within]|].
      intros E. exfalso. assert (Hf : e.1 ∈ map fst context_regs) by (by apply list_elem_of_fmap_2). rewrite E in Hf. revert Hf.
      apply (bool_decide_unpack _). vm_compute. done. }
  set (h2 := load_all _ _ _ h1). destruct (load_all_mem (h_mem h1) new context_regs h1) as (M1 & M2 & M3). fold h2 in M1, M2, M3.
  assert (Hmem : forall e, e ∈ context_regs -> rd64 (h_mem h1) (new + e.2) = rd64 (h_mem h) (new + e.2)).
  { intros e He. apply rd64_ext. intros b Hb. apply (proj2 W1). pose proof (context_range e He). unfold W, in_context. lia. }
  assert (Hr : forall r o, (r, o) ∈ context_regs -> h_reg h2 r = rd64 (h_mem h) (new + o)).
  { intros r o He. unfold h2. rewrite (load_all_get _ _ _ _ _ o); [by apply (Hmem (r, o))| |done]. apply (bool_decide_unpack _). vm_compute. done. }
  rewrite (run_jump callee cva cpa _ _ h2 (rd64 (h_mem h) new) h2).
  - exists h2. split; [done|]. split; [exact Hr|..].
    + intros r o He. rewrite M1. unfold h1. cbn [h_mem set_mem]. apply store_all_get; [vm_compute; reflexivity|done|apply Hok].
    + intros r Hr'. unfold h2. by rewrite load_all_out.
    + rewrite M1. apply (proj2 W1).
    + by rewrite M2, M3.
  - apply (code_fetch _ _ h2 W). eapply code_within; [|exact Hc]. etransitivity; [exact W1|apply within_loads].
  - cbn [exec_instr]. f_equal. rewrite (Hr ra 0) by left. by rewrite Z.add_0_r.
Qed.

(** C18: a thread that calls [swtch] continues where it called it, with its
    stack and its callee-saved registers, when some hart, in whatever state,
    calls [swtch] with the context of the thread as the one to load and no one
    has written to it. *)
Theorem swtch_resumes callee cva cpa h old new :
  hart_ok h -> contexts h cva cpa old new ->
  exists h1, run callee cva cpa swtch h = Jump (rd64 (h_mem h) new) h1 /\ switched h old new h1 /\
    forall cva2 cpa2 h2 other, hart_ok h2 -> contexts h2 cva2 cpa2 other old ->
      (forall e, e ∈ context_regs -> rd64 (h_mem h2) (old + e.2) = rd64 (h_mem h1) (old + e.2)) ->
      exists h3, run callee cva2 cpa2 swtch h2 = Jump (h_reg h ra) h3 /\
        forall r, r ∈ map fst context_regs -> h_reg h3 r = h_reg h r.
Proof.
  intros Hok Hcx. destruct (swtch_switches callee cva cpa h old new Hok Hcx) as (h1 & E & HS).
  exists h1. split; [exact E|]. split; [exact HS|]. intros cva2 cpa2 h2 other Hok2 Hcx2 Hkept.
  destruct (swtch_switches callee cva2 cpa2 h2 other old Hok2 Hcx2) as (h3 & E3 & HS3). exists h3. split.
  - rewrite E3. f_equal. rewrite <- (sw_old _ _ _ _ HS ra 0) by left. pose proof (Hkept (ra, 0) ltac:(left)) as Hk. cbn [snd] in Hk. by rewrite <- Hk, Z.add_0_r.
  - intros r Hr. apply list_elem_of_fmap in Hr as ([r' o] & -> & He). cbn [fst]. rewrite (sw_new _ _ _ _ HS3 r' o He).
    pose proof (Hkept (r', o) He) as Hk. cbn [snd] in Hk. rewrite Hk. by apply (sw_old _ _ _ _ HS).
Qed.

(** Two threads without address translation. *)
Definition sample_thread (x : Z) : hart :=
  mk_hart (fun r => match r with a0 => 0x80010000 + x | a1 => 0x80020000 - x | _ => x end) (fun _ => 0) Smode ∅.

Lemma bare_window h W va : h_mode h = Smode -> h_csr h satp = 0 -> window h W va va /\ code_at h W va va.
Proof. intros H1 H2. split; intros h' [E1 E2] _; unfold translate; rewrite E1, E2, H1, H2; done. Qed.

Lemma sample_thread_ok x : 0 <= x < 0x10000 -> hart_ok (sample_thread x).
Proof.
  intros Hx. split; [intros []; simpl; unfold word64; lia|done|]. intros b. simpl. unfold rd. by rewrite lookup_empty.
Qed.

Lemma bare_contexts h old new : h_mode h = Smode -> h_csr h satp = 0 -> h_reg h a0 = old -> h_reg h a1 = new ->
  0 <= old < 2 ^ 32 -> 0 <= new < 2 ^ 32 -> old mod 8 = 0 -> new mod 8 = 0 -> old + 112 <= new \/ new + 112 <= old ->
  contexts h 0x80000000 0x80000000 old new.
Proof.
  intros H1 H2 H3 H4 Ho Hn Ao An Hap.
  assert (Hs : forall a e, 0 <= a < 2 ^ 32 -> a mod 8 = 0 -> e ∈ context_regs -> slot h (in_context old) a a e.2).
  { intros a e Ha Hm He. pose proof (context_range e He). unfold slot. rewrite u64_id by lia. split; [|by apply bare_window].
    rewrite Z.add_mod, Hm, (context_aligned e He) by lia. done. }
  split; rewrite ?H3, ?H4; auto. by apply bare_window.
Qed.

Lemma swtch_resumes_witness :
  exists h1, run (fun _ _ => Fault) 0x80000000 0x80000000 swtch (sample_thread 16) = Jump 0 h1 /\ h_reg h1 sp = 0 /\
    exists h3, run (fun _ _ => Fault) 0x80000000 0x80000000 swtch (set_reg a0 0x80030000 (set_reg a1 0x80010010 h1)) = Jump 16 h3 /\ h_reg h3 sp = 16 /\ h_reg h3 s11 = 16.
Proof.
  destruct (swtch_resumes (fun _ _ => Fault) 0x80000000 0x80000000 (sample_thread 16) 0x80010010 0x8001fff0) as (h1 & E & HS & HR).
  - apply sample_thread_ok. lia.
  - apply bare_contexts; try reflexivity; lia.
  - exists h1. assert (Hz : forall a, rd64 (h_mem (sample_thread 16)) a = 0) by (intros a; apply rd64_empty). rewrite Hz in E.
    split; [exact E|]. split; [rewrite (sw_new _ _ _ _ HS sp 8) by (right; left); apply Hz|].
    assert (Hok1 : hart_ok h1).
    { pose proof (run_ok (fun _ _ => Fault) 0x80000000 0x80000000 swtch (sample_thread 16)) as Ho. rewrite E in Ho. apply Ho; [done| |].
      - by repeat (constructor; [done|]).
      - apply sample_thread_ok. lia. }
    destruct (sw_csr _ _ _ _ HS) as [C1 C2].
    destruct (HR 0x80000000 0x80000000 (set_reg a0 0x80030000 (set_reg a1 0x80010010 h1)) 0x80030000) as (h3 & E3 & H3).
    + apply hart_ok_reg; [apply hart_ok_reg; [exact Hok1|]|]; unfold word64; lia.
    + apply bare_contexts; try reflexivity; try lia; [exact C2|]. change (h_csr h1 satp = 0). rewrite C1. reflexivity.
    + intros e _. reflexivity.
    + exists h3. split; [exact E3|]. rewrite (H3 sp) by (right; left). rewrite (H3 s11) by (apply (bool_decide_unpack _); vm_compute; done).
      split; reflexivity.
Defined.

(** ** [kernelvec] *)

Definition kvec_saved : list (reg * Z) :=
  [(ra, 0); (sp, 8); (gp, 16); (tp, 24); (t0, 32); (t1, 40); (t2, 48); (s0, 56); (s1, 64); (a0, 72); (a1, 80); (a2, 88); (a3, 96); (a4, 104);
   (a5, 112); (a6, 120); (a7, 128); (s2, 136); (s3, 144); (s4, 152); (s5, 160); (s6, 168); (s7, 176); (s8, 184); (s9, 192); (s10, 200);
   (s11, 208); (t3, 216); (t4, 224); (t5, 232); (t6, 240)].
Definition kvec_restored : list (reg * Z) := filter (fun e => e.1 <> tp) kvec_saved.

Lemma kernelvec_parts : kernelvec =
  addi sp sp (-256) :: saves sp kvec_saved ++ call C_kerneltrap :: loads sp kvec_restored ++ [addi sp sp 256; i_sret].
Proof. reflexivity. Qed.

Lemma kvec_range e : e ∈ kvec_saved -> 0 <= e.2 <= 240 /\ e.2 mod 8 = 0.
Proof. revert e. apply Forall_forall. by repeat (constructor; [simpl; split; [lia|done]|]). Qed.

Lemma kvec_all r : exists o, (r, o) ∈ kvec_saved /\ (r <> tp -> (r, o) ∈ kvec_restored).
Proof.
  assert (H : forall o, (r, o) ∈ kvec_saved -> r <> tp -> (r, o) ∈ kvec_restored) by (intros o Ho Hr; by apply list_elem_of_filter).
  assert (E : exists o, (r, o) ∈ kvec_saved); [|destruct E as [o Ho]; eauto].
  destruct r; eexists; unfold kvec_saved; repeat (first [left | right]).
Qed.

Lemma kvec_sub e : e ∈ kvec_restored -> e ∈ kvec_saved /\ e.1 <> tp.
Proof. intros [H1 H2]%list_elem_of_filter. done. Qed.

Section kvec.
(** The frame is the 256 bytes from the physical address [pb] on. *)
Context (cva cpa pb : Z).

Definition in_frame (b : Z) : Prop := pb <= b < pb + 256.

(** A state in which the code can save registers below [sp]. *)
Record stack_ok (h : hart) : Prop := {
  st_mode : h_mode h = Smode;
  st_code : code_at h in_frame cva cpa;
  st_slot e : e ∈ kvec_saved -> slot h in_frame (h_reg h sp) pb e.2 }.

(** [kerneltrap] comes back with the stack pointer and the frame as they were,
    as the calling convention asks of it. *)
Record returns (h h' : hart) : Prop := {
  rt_sp : h_reg h' sp = h_reg h sp;
  rt_frame b : in_frame b -> rd (h_mem h') b = rd (h_mem h) b;
  rt_stack : stack_ok h' }.

Lemma stack_within h h' : within in_frame h h' -> h_reg h' sp = h_reg h sp -> stack_ok h -> stack_ok h'.
Proof.
  intros Hw Hsp [S1 S2 S3]. split; [by rewrite (proj1 (proj1 Hw))|by eapply code_within|].
  intros e He. rewrite Hsp. destruct (S3 e He) as [A B]. split; [done|by eapply window_within].
Qed.

Lemma sret_jump h : h_mode h = Smode -> exists p s, sret h = Jump (h_csr h sepc) (set_mode p (set_csr mstatus s h)) /\
  p = (if Z.testbit (h_csr h mstatus) SPP_BIT then Smode else Umode).
Proof. intros Hm. unfold sret. rewrite Hm. eauto. Qed.

(** C19: an interrupt of kernel code saves its registers below its stack
    pointer, and when [kerneltrap] has come back the interrupted code goes on
    with all of them, except [tp], which keeps the number of the hart it runs
    on, and in the mode it was in. *)
Theorem kernelvec_transparent callee h :
  let h1 := set_reg sp (u64 (h_reg h sp - 256)) h in
  hart_ok h -> stack_ok h1 -> translate h cva A_fetch = Some cpa ->
  (forall h2, within in_frame h1 h2 -> (forall r, h_reg h2 r = h_reg h1 r) -> h_csr h2 = h_csr h ->
    exists h3, callee C_kerneltrap h2 = Next h3 /\ returns h2 h3) ->
  exists h2 h3 h4, callee C_kerneltrap h2 = Next h3 /\ h_csr h2 = h_csr h /\ agree_out in_frame (h_mem h) (h_mem h2) /\
    run callee cva cpa kernelvec h = Jump (h_csr h3 sepc) h4 /\
    (forall r, r <> tp -> h_reg h4 r = h_reg h r) /\ h_reg h4 tp = h_reg h3 tp /\ h_mem h4 = h_mem h3 /\
    h_mode h4 = (if Z.testbit (h_csr h3 mstatus) SPP_BIT then Smode else Umode).
Proof.
  intros h1 Hok Hst Hf Hcall. assert (Hok1 : hart_ok h1) by (apply hart_ok_reg; [done|apply word64_u64]).
  rewrite kernelvec_parts. rewrite (run_next callee cva cpa _ _ h h1); [|done|done].
  destruct (run_saves callee cva cpa in_frame sp pb kvec_saved (call C_kerneltrap :: loads sp kvec_restored ++ [addi sp sp 256; i_sret]) h1) as [-> W2].
  { apply Hst. }
  { apply Forall_forall. intros e He. split; [by apply Hst|]. intros b Hb. pose proof (kvec_range e He). unfold in_frame. lia. }
  set (h2 := set_mem _ h1) in *. destruct (Hcall h2 W2 ltac:(done) ltac:(done)) as (h3 & E3 & [R1 R2 R3]).
  rewrite (run_next callee cva cpa _ _ h2 h3); [|apply (code_fetch _ _ h2 in_frame); eapply code_within; [exact W2|apply Hst]|done].
  assert (Hv : forall e, e ∈ kvec_saved -> rd64 (h_mem h3) (pb + e.2) = h_reg h1 e.1).
  { intros [r o] He. pose proof (kvec_range _ He). transitivity (rd64 (h_mem h2) (pb + o)).
    - apply rd64_ext. intros b Hb. apply R2. unfold in_frame. cbn [snd] in *. lia.
    - unfold h2. cbn [h_mem set_mem fst]. apply store_all_get; [vm_compute; reflexivity|done|apply Hok1]. }
  rewrite (run_loads callee cva cpa in_frame sp pb); [|apply R3|].
  2:{ apply Forall_forall. intros e He. apply kvec_sub in He as [He _]. split; [by apply R3|]. intros Esp. rewrite (Hv e He), Esp, R1. done. }
  set (h4 := load_all _ _ _ h3). set (h5 := set_reg sp (u64 (h_reg h4 sp + 256)) h4).
  destruct (load_all_mem (h_mem h3) pb kvec_restored h3) as (M1 & M2 & M3). fold h4 in M1, M2, M3.
  assert (Hr4 : forall r, r <> tp -> h_reg h4 r = h_reg h1 r).
  { intros r Hr. destruct (kvec_all r) as (o & H1 & H2). unfold h4. rewrite (load_all_get _ _ _ _ _ o); [by apply (Hv (r, o))| |by apply H2].
    apply (bool_decide_unpack _). vm_compute. done. }
  assert (C4 : forall g, within in_frame h3 g -> translate g cva A_fetch = Some cpa).
  { intros g Hg. apply (code_fetch _ _ g in_frame). eapply code_within; [exact Hg|apply R3]. }
  rewrite (run_next callee cva cpa _ _ h4 h5); [|apply C4, within_loads|done].
  destruct (sret_jump h5) as (p & s & Es & Ep); [change (h_mode h5) with (h_mode h4); rewrite M2; apply R3|].
  rewrite (run_jump callee cva cpa _ _ h5 (h_csr h5 sepc) (set_mode p (set_csr mstatus s h5))); [|apply C4; etransitivity; [apply within_loads|apply within_reg]|exact Es].
  exists h2, h3, (set_mode p (set_csr mstatus s h5)). split; [done|]. split; [done|]. split; [apply (proj2 W2)|].
  change (h_csr h5) with (h_csr h4) in *. rewrite M3 in *. split; [done|]. split; [|split; [|split; [exact M1|exact Ep]]].
  - intros r Hr. change (h_reg (set_mode p (set_csr mstatus s h5)) r) with (upd (h_reg h4) sp (u64 (h_reg h4 sp + 256)) r).
    unfold upd. case_decide as E; [subst r|rewrite Hr4 by done; simpl; unfold upd; by rewrite decide_False].
    rewrite Hr4 by done. change (h_reg h1 sp) with (u64 (h_reg h sp - 256)). pose proof (ho_reg _ Hok sp) as Hw. unfold word64 in Hw.
    unfold u64. rewrite Z.add_mod_idemp_l by lia. rewrite Z.sub_add. apply Z.mod_small. lia.
  - change (h_reg h4 tp = h_reg h3 tp). unfold h4. rewrite load_all_out; [done|]. apply (bool_decide_unpack _). vm_compute. done.
Qed.
End kvec.

(** A handler that changes registers. *)
Definition sample_handler (f : cfun) (h : hart) : res := Next (set_reg tp 3 (set_reg t0 99 (set_reg s4 98 h))).
Definition sample_kernel_hart : hart := mk_hart (fun r => match r with sp => 0x80040100 | _ => 7 end) (fun _ => 0) Smode ∅.

Lemma bare_stack h : h_mode h = Smode -> h_csr h satp = 0 -> h_reg h sp = 0x80040000 -> stack_ok 0x80000000 0x80000000 0x80040000 h.
Proof.
  intros H1 H2 H3. split; [done|by apply bare_window|]. intros e He. destruct (kvec_range e He) as [Hr Hm]. rewrite H3. unfold slot.
  rewrite u64_id by lia. split; [|by apply bare_window]. by rewrite Z.add_mod, Hm by lia.
Qed.

Lemma kernelvec_transparent_witness :
  exists h4, run sample_handler 0x80000000 0x80000000 kernelvec sample_kernel_hart = Jump 0 h4 /\
    h_reg h4 t0 = 7 /\ h_reg h4 s4 = 7 /\ h_reg h4 sp = 0x80040100 /\ h_reg h4 tp = 3.
Proof.
  destruct (kernelvec_transparent 0x80000000 0x80000000 0x80040000 sample_handler sample_kernel_hart)
    as (h2 & h3 & h4 & E3 & C2 & _ & E & Hr & Htp & _).
  - split; [intros []; split; reflexivity || discriminate|intros c; split; reflexivity || discriminate|].
    intros b. simpl. unfold rd. rewrite lookup_empty. split; reflexivity || discriminate.
  - apply bare_stack; reflexivity.
  - reflexivity.
  - intros h2 Hw Hregs Hcsr. eexists. split; [reflexivity|].
    assert (Hs2 : stack_ok 0x80000000 0x80000000 0x80040000 h2).
    { apply bare_stack; [exact (proj1 (proj1 Hw))|rewrite Hcsr; reflexivity|rewrite Hregs; reflexivity]. }
    split; [reflexivity|reflexivity|]. apply (stack_within 0x80000000 0x80000000 0x80040000 h2); [|reflexivity|exact Hs2]. split; [split; reflexivity|intros b _; reflexivity].
  - exists h4. injection E3 as <-. split; [rewrite E; change (h_csr (set_reg _ _ _) sepc) with (h_csr h2 sepc); rewrite C2; reflexivity|].
    rewrite (Hr t0), (Hr s4), (Hr sp), Htp by (intros Hx; discriminate Hx). split; [reflexivity|]. split; [reflexivity|]. split; reflexivity.
Defined.

Section tramp.
Context {L : Linker} {LO : LinkerOk L}.

(** The page tables of a process and of the kernel as [proc_pagetable] and
    [kvminit] make them: both map the page of the trampoline at [TRAMPOLINE],
    that of the process also its trapframe, the page [frame]. *)
Record trap_space (m : gmap Z Z) (Tu Tk : gmap (list Z) Z) (uroot kroot frame : Z) : Prop := {
  ts_user : pt_ok m Tu uroot;
  ts_kernel : pt_ok m Tk kroot;
  ts_tramp_u : leaf m Tu TRAMPOLINE = Z.lor (Z.lor (PA2PTE sym_trampoline) (Z.lor PTE_R PTE_X)) PTE_V;
  ts_tramp_k : leaf m Tk TRAMPOLINE = Z.lor (Z.lor (PA2PTE sym_trampoline) (Z.lor PTE_R PTE_X)) PTE_V;
  ts_frame : leaf m Tu TRAPFRAME = Z.lor (Z.lor (PA2PTE frame) (Z.lor PTE_R PTE_W)) PTE_V;
  ts_page : page_ok frame;
  ts_not_u : ~ is_table Tu frame;
  ts_not_k : ~ is_table Tk frame }.

Definition in_page (p b : Z) : Prop := p <= b < p + PGSIZE.

Lemma table_out T m root frame : pt_ok m T root -> page_ok frame -> ~ is_table T frame ->
  forall c b, is_table T c -> c <= b < c + PGSIZE -> ~ in_page frame b.
Proof.
  intros H Hf Hn c b Hc Hb Hin. assert (Hpc : page_ok c) by by eapply table_page. unfold in_page in Hin.
  destruct (page_disjoint c frame); [apply Hpc|apply Hf|intros ->; done|lia..].
Qed.

Lemma trampoline_pos : 0 <= sym_trampoline < 2 ^ 56 /\ sym_trampoline mod PGSIZE = 0.
Proof.
  pose proof trampoline_lo. pose proof trampoline_hi. pose proof etext_end. pose proof end_hi.
  unfold KERNBASE, PHYSTOP, PGSIZE in *. split; [|apply trampoline_aligned]. unfold KERNBASE in *. lia.
Qed.

Lemma satp_sv39 m T root : pt_ok m T root -> satp_mode (MAKE_SATP root) = 8.
Proof.
  intros H. assert (Hroot : page_ok root) by (eapply pt_page; [exact H|apply (pt_root _ _ _ H)]).
  pose proof (page_ok_pos _ Hroot). refine (proj1 (MAKE_SATP_spec root _ (proj1 Hroot))). lia.
Qed.

Section space.
Context (h : hart) (Tu Tk : gmap (list Z) Z) (uroot kroot frame : Z).
Hypothesis HT : trap_space (h_mem h) Tu Tk uroot kroot frame.
Hypothesis Hmode : h_mode h = Smode.

Lemma tramp_user : h_csr h satp = MAKE_SATP uroot -> code_at h (in_page frame) TRAMPOLINE sym_trampoline.
Proof.
  intros Hs. apply (page_code h Tu uroot (in_page frame) TRAMPOLINE sym_trampoline (Z.lor PTE_R PTE_X)); try apply HT; try done.
  - apply (table_out Tu (h_mem h) uroot frame); apply HT.
  - apply trampoline_pos.
Qed.

Lemma tramp_kernel : h_csr h satp = MAKE_SATP kroot -> code_at h (in_page frame) TRAMPOLINE sym_trampoline.
Proof.
  intros Hs. apply (page_code h Tk kroot (in_page frame) TRAMPOLINE sym_trampoline (Z.lor PTE_R PTE_X)); try apply HT; try done.
  - apply (table_out Tk (h_mem h) kroot frame); apply HT.
  - apply trampoline_pos.
Qed.

(** The fields of the trapframe. *)
Lemma frame_slot f : h_csr h satp = MAKE_SATP uroot -> slot h (in_page frame) TRAPFRAME frame (tf_offset f).
Proof.
  intros Hs. assert (Ho : 0 <= tf_offset f < PGSIZE /\ u64 (TRAPFRAME + tf_offset f) = TRAPFRAME + tf_offset f /\
                          u64 (TRAPFRAME + tf_offset f) mod 8 = 0) by (destruct f; done).
  destruct Ho as (Ho & Eu & Ha). split; [done|]. rewrite Eu. pose proof (page_ok_pos _ (ts_page _ _ _ _ _ _ HT)).
  apply (page_window h Tu uroot (in_page frame) TRAPFRAME frame (Z.lor PTE_R PTE_W)); try apply HT; try done.
  - apply (table_out Tu (h_mem h) uroot frame); apply HT.
  - split; [lia|apply HT].
Qed.
End space.

Lemma frame_writable frame f : writable (in_page frame) frame (tf_offset f).
Proof. intros b Hb. unfold in_page, PGSIZE. destruct f; simpl in Hb; lia. Qed.

Lemma trap_space_keep m m' Tu Tk uroot kroot frame :
  agree_out (in_page frame) m m' -> trap_space m Tu Tk uroot kroot frame -> trap_space m' Tu Tk uroot kroot frame.
Proof.
  intros Hag [H1 H2 H3 H4 H5 H6 H7 H8].
  destruct (pt_ok_ext m m' Tu uroot H1) as [U1 U2]; [intros c Hc b Hb; apply Hag; by eapply (table_out Tu)|].
  destruct (pt_ok_ext m m' Tk kroot H2) as [K1 K2]; [intros c Hc b Hb; apply Hag; by eapply (table_out Tk)|].
  split; rewrite ?U2, ?K2; done.
Qed.

(** The registers that the trapframe holds. *)
Definition frame_regs (m : gmap Z Z) (frame : Z) (r : reg) : Z := rd64 m (frame + tf_offset (tf_reg r)).

(** The bytes of the trapframe that hold the registers of the user. *)
Definition saved_part (frame b : Z) : Prop := frame + 40 <= b < frame + 288.

(** The state in which [usertrap] starts after a trap in the state [u]. *)
Record entered (u h : hart) (kroot frame : Z) : Prop := {
  en_mode : h_mode h = Smode;
  en_satp : h_csr h satp = MAKE_SATP kroot;
  en_sp : h_reg h sp = rd64 (h_mem u) (frame + tf_offset TF_kernel_sp);
  en_tp : h_reg h tp = rd64 (h_mem u) (frame + tf_offset TF_kernel_hartid);
  en_regs r : frame_regs (h_mem h) frame r = h_reg u r;
  en_mem : agree_out (saved_part frame) (h_mem u) (h_mem h);
  en_csr c : c <> satp -> c <> sscratch -> h_csr h c = h_csr u c }.

(** The states of [uservec]: with the address of the trapframe in [a0], after
    the user's registers have been stored, and at its end. *)
Definition vec_in (u : hart) : hart := set_reg a0 TRAPFRAME (set_csr sscratch (h_reg u a0) u).
Definition vec_saved (u : hart) (frame : Z) : hart :=
  let h := set_mem (store_all (h_reg (vec_in u)) frame user_saved (h_mem u)) (vec_in u) in
  let h := set_reg t0 (h_reg u a0) h in
  set_mem (store_all (h_reg h) frame [(t0, tf_offset TF_a0)] (h_mem h)) h.
Definition vec_out (u : hart) (frame kroot : Z) : hart :=
  let h := vec_saved u frame in set_csr satp (MAKE_SATP kroot) (load_all (h_mem h) frame kernel_part h).

Section vec.
Context (callee : cfun -> hart -> res) (u : hart) (Tu Tk : gmap (list Z) Z) (uroot kroot frame : Z).
Hypothesis Hok : hart_ok u.
Hypothesis HT : trap_space (h_mem u) Tu Tk uroot kroot frame.
Hypothesis Hmode : h_mode u = Smode.
Hypothesis Hsatp : h_csr u satp = MAKE_SATP uroot.
Hypothesis Hscr : h_csr u sscratch = TRAPFRAME.
Hypothesis Hk : rd64 (h_mem u) (frame + tf_offset TF_kernel_satp) = MAKE_SATP kroot.

Let W := in_page frame.
Abbreviation go := (run callee TRAMPOLINE sym_trampoline).

Lemma vec_slot f : slot (vec_in u) W (h_reg (vec_in u) a0) frame (tf_offset f).
Proof. by apply (frame_slot (vec_in u) Tu Tk uroot kroot frame). Qed.

Lemma vec_code h : within W (vec_in u) h -> code_at h W TRAMPOLINE sym_trampoline.
Proof. intros Hw. eapply code_within; [exact Hw|]. by apply (tramp_user (vec_in u) Tu Tk uroot kroot frame). Qed.

Lemma run_vec_save code :
  go (csrrw a0 sscratch a0 :: saves a0 user_saved ++ csrr t0 sscratch :: saves a0 [(t0, tf_offset TF_a0)] ++ code) u =
  go code (vec_saved u frame) /\ within W (vec_in u) (vec_saved u frame).
Proof.
  rewrite (run_next callee TRAMPOLINE sym_trampoline _ _ u (vec_in u)).
  2:{ apply (code_fetch _ _ u W). by apply (tramp_user u Tu Tk uroot kroot frame). }
  2:{ cbn [exec_instr]. unfold csr_read, csr_write. rewrite Hmode. cbn [csr_level mode_le]. rewrite Hscr. done. }
  destruct (run_saves callee TRAMPOLINE sym_trampoline W a0 frame user_saved
    (csrr t0 sscratch :: saves a0 [(t0, tf_offset TF_a0)] ++ code) (vec_in u)) as [-> W2]; [by apply vec_code|..].
  { apply Forall_forall. intros e (r & -> & _)%list_elem_of_fmap. split; [apply vec_slot|apply frame_writable]. }
  set (h2 := set_mem _ (vec_in u)) in *. set (h3 := set_reg t0 (h_reg u a0) h2).
  assert (W3 : within W (vec_in u) h3) by (etransitivity; [exact W2|apply within_reg]).
  rewrite (run_next callee TRAMPOLINE sym_trampoline _ _ h2 h3); [|by apply (code_fetch _ _ h2 W), vec_code|].
  2:{ cbn [exec_instr]. unfold csr_read. change (h_mode h2) with (h_mode u). rewrite Hmode. done. }
  destruct (run_saves callee TRAMPOLINE sym_trampoline W a0 frame [(t0, tf_offset TF_a0)] code h3) as [-> W4]; [by apply vec_code|..].
  { apply Forall_singleton. split; [|apply frame_writable]. destruct (vec_slot TF_a0) as [S1 S2]. split; [done|by eapply window_within]. }
  split; [done|]. etransitivity; [exact W3|exact W4].
Qed.

(** The bytes below the saved registers are the same. *)
Lemma vec_saved_low f : tf_offset f <= 32 -> rd64 (h_mem (vec_saved u frame)) (frame + tf_offset f) = rd64 (h_mem u) (frame + tf_offset f).
Proof.
  intros Hf. unfold vec_saved. cbn [h_mem set_mem]. rewrite store_all_out.
  - cbn [h_mem set_reg set_mem]. apply store_all_out. intros o Ho.
    apply list_elem_of_fmap in Ho as (e & -> & Ho). apply list_elem_of_fmap in Ho as (r & -> & _). pose proof (tf_reg_range r). cbn [snd]. lia.
  - intros o Ho. apply list_elem_of_singleton in Ho as ->. simpl. lia.
Qed.

Lemma vec_saved_regs r : frame_regs (h_mem (vec_saved u frame)) frame r = h_reg u r.
Proof.
  unfold frame_regs, vec_saved. cbn [h_mem set_mem]. destruct (decide (r = a0)) as [->|Hr].
  - rewrite store_all_get with (r := t0); [done|done|left|apply Hok].
  - rewrite store_all_out.
    2:{ intros o Ho. apply list_elem_of_singleton in Ho as ->. destruct r; try done; simpl; lia. }
    assert (E : h_reg (vec_in u) r = h_reg u r) by (simpl; unfold upd; by rewrite decide_False).
    cbn [h_mem set_reg set_mem]. rewrite store_all_get with (r := r); [done|vm_compute; reflexivity|by apply user_regs_all|rewrite E; apply Hok].
Qed.

Lemma vec_saved_mem : agree_out (saved_part frame) (h_mem u) (h_mem (vec_saved u frame)).
Proof.
  assert (Hs : forall x l m, Forall (fun e => 40 <= e.2 <= 280) l -> agree_out (saved_part frame) m (store_all x frame l m)).
  { intros x l. induction l as [|e l IH]; intros m HF; [done|]. apply Forall_cons in HF as [He HF]. cbn [store_all foldl].
    etransitivity; [|by apply IH]. intros b Hb. apply rd_wr_out. rewrite length_le_bytes. unfold saved_part in Hb. lia. }
  unfold vec_saved. cbn [h_mem set_mem set_reg]. etransitivity; apply Hs.
  - apply Forall_forall. intros e (r & -> & _)%list_elem_of_fmap. apply tf_reg_range.
  - apply Forall_singleton. simpl. lia.
Qed.

Lemma uservec_enters :
  exists h, go uservec u = Jump (rd64 (h_mem u) (frame + tf_offset TF_kernel_trap)) h /\ entered u h kroot frame.
Proof.
  rewrite uservec_parts. destruct (run_vec_save (loads a0 kernel_part ++ [csrw satp t1; sfence_vma; jr t0])) as [-> W4].
  set (h4 := vec_saved u frame) in *. rewrite (run_loads callee TRAMPOLINE sym_trampoline W a0 frame); [|by apply vec_code|].
  2:{ assert (Hs : forall f, slot h4 W (h_reg h4 a0) frame (tf_offset f)).
      { intros f. destruct (vec_slot f) as [S1 S2]. split; [done|by eapply window_within]. }
      repeat (constructor; [split; [apply Hs|done]|]); done. }
  set (h5 := load_all _ _ _ h4). assert (W5 : within W (vec_in u) h5) by (etransitivity; [exact W4|apply within_loads]).
  assert (E5 : forall r o, (r, o) ∈ kernel_part -> h_reg h5 r = rd64 (h_mem h4) (frame + o)).
  { intros r o Hin. apply load_all_get; [|done]. apply (bool_decide_unpack _). vm_compute. done. }
  assert (Et1 : h_reg h5 t1 = MAKE_SATP kroot).
  { rewrite (E5 t1 (tf_offset TF_kernel_satp)) by (do 3 right; left). unfold h4. by rewrite vec_saved_low, Hk. }
  set (h6 := set_csr satp (MAKE_SATP kroot) h5).
  destruct (load_all_mem (h_mem h4) frame kernel_part h4) as (M1 & M2 & M3). fold h5 in M1, M2, M3.
  assert (Hm5 : h_mode h5 = Smode) by (rewrite M2; exact Hmode).
  pose proof (satp_sv39 _ _ _ (ts_kernel _ _ _ _ _ _ HT)) as S8.
  rewrite (run_next callee TRAMPOLINE sym_trampoline _ _ h5 h6); [|by apply (code_fetch _ _ h5 W), vec_code|].
  2:{ cbn [exec_instr]. unfold csr_write. rewrite Hm5, Et1. cbn [csr_level mode_le]. by rewrite S8. }
  assert (C6 : translate h6 TRAMPOLINE A_fetch = Some sym_trampoline).
  { apply (code_fetch _ _ h6 W), (tramp_kernel h6 Tu Tk uroot kroot frame); [|exact Hm5|done].
    apply (trap_space_keep (h_mem u)); [|done]. change (h_mem h6) with (h_mem h5). apply (proj2 W5). }
  rewrite (run_next callee TRAMPOLINE sym_trampoline _ _ h6 h6); [|done|].
  2:{ cbn [exec_instr]. change (h_mode h6) with (h_mode h5). by rewrite Hm5. }
  rewrite (run_jump callee TRAMPOLINE sym_trampoline _ _ h6 (rd64 (h_mem u) (frame + tf_offset TF_kernel_trap)) h6); [|done|].
  2:{ cbn [exec_instr]. f_equal. change (h_reg h6 t0) with (h_reg h5 t0). rewrite (E5 t0 (tf_offset TF_kernel_trap)) by (do 2 right; left).
      unfold h4. by rewrite vec_saved_low. }
  exists h6. split; [done|]. split; try done.
  - change (h_reg h6 sp) with (h_reg h5 sp). rewrite (E5 sp (tf_offset TF_kernel_sp)) by left. unfold h4. by rewrite vec_saved_low.
  - change (h_reg h6 tp) with (h_reg h5 tp). rewrite (E5 tp (tf_offset TF_kernel_hartid)) by (right; left). unfold h4. by rewrite vec_saved_low.
  - intros r. change (h_mem h6) with (h_mem h5). rewrite M1. apply vec_saved_regs.
  - change (h_mem h6) with (h_mem h5). rewrite M1. apply vec_saved_mem.
  - intros c H1 H2. change (h_csr h6 c) with (upd (h_csr h5) satp (MAKE_SATP kroot) c). rewrite M3. unfold upd.
    rewrite decide_False by done. change (h_csr h4 c) with (upd (h_csr u) sscratch (h_reg u a0) c). unfold upd. by rewrite decide_False.
Qed.
End vec.

(** The user program goes on with the registers of its trapframe. *)
Record resumed (h u : hart) (uroot frame : Z) : Prop := {
  re_mode : h_mode u = Umode;
  re_satp : h_csr u satp = MAKE_SATP uroot;
  re_scratch : h_csr u sscratch = TRAPFRAME;
  re_regs r : h_reg u r = frame_regs (h_mem h) frame r;
  re_mem : h_mem u = h_mem h;
  re_intr : Z.testbit (h_csr u mstatus) SIE_BIT = Z.testbit (h_csr h mstatus) SPIE_BIT }.

Lemma sret_user h : h_mode h = Smode -> Z.testbit (h_csr h mstatus) SPP_BIT = false ->
  exists s, sret h = Jump (h_csr h sepc) (set_mode Umode (set_csr mstatus s h)) /\
    Z.testbit s SIE_BIT = Z.testbit (h_csr h mstatus) SPIE_BIT.
Proof.
  intros Hm Hs. unfold sret. rewrite Hm, Hs. eexists. split; [done|]. set (x := h_csr h mstatus).
  unfold put_bit at 1. rewrite Z.clearbit_neq by done. unfold put_bit at 1. rewrite Z.setbit_neq by done. unfold put_bit.
  destruct (Z.testbit x SPIE_BIT) eqn:E; [by apply Z.setbit_eq|by apply Z.clearbit_eq].
Qed.

Section ret.
Context (callee : cfun -> hart -> res) (h : hart) (Tu Tk : gmap (list Z) Z) (uroot kroot frame : Z).
Hypothesis HT : trap_space (h_mem h) Tu Tk uroot kroot frame.
Hypothesis Hmode : h_mode h = Smode.
Hypothesis Hsatp : h_csr h satp = MAKE_SATP kroot.
Hypothesis Ha0 : h_reg h a0 = TRAPFRAME.
Hypothesis Ha1 : h_reg h a1 = MAKE_SATP uroot.
Hypothesis Hspp : Z.testbit (h_csr h mstatus) SPP_BIT = false.

Let W := in_page frame.
Abbreviation go := (run callee TRAMPOLINE sym_trampoline).

Definition ret_in : hart := set_csr satp (MAKE_SATP uroot) h.

Lemma ret_code g : within W ret_in g -> code_at g W TRAMPOLINE sym_trampoline.
Proof. intros Hw. eapply code_within; [exact Hw|]. by apply (tramp_user ret_in Tu Tk uroot kroot frame). Qed.

Lemma ret_slot g f : within W ret_in g -> h_reg g a0 = TRAPFRAME -> slot g W (h_reg g a0) frame (tf_offset f).
Proof.
  intros Hw ->. destruct (frame_slot ret_in Tu Tk uroot kroot frame HT Hmode f eq_refl) as [S1 S2]. split; [done|by eapply window_within].
Qed.

(** The state before the registers are loaded. *)
Definition ret_mid : hart :=
  let v := rd64 (h_mem h) (frame + tf_offset TF_a0) in set_csr sscratch v (set_reg t0 v ret_in).

Lemma run_ret_in code :
  go (csrw satp a1 :: sfence_vma :: ld t0 (tf_offset TF_a0) a0 :: csrw sscratch t0 :: code) h = go code ret_mid /\ within W ret_in ret_mid.
Proof.
  rewrite (run_next callee TRAMPOLINE sym_trampoline _ _ h ret_in).
  2:{ apply (code_fetch _ _ h W). by apply (tramp_kernel h Tu Tk uroot kroot frame). }
  2:{ cbn [exec_instr]. unfold csr_write. rewrite Hmode, Ha1. cbn [csr_level mode_le]. by rewrite (satp_sv39 _ _ _ (ts_user _ _ _ _ _ _ HT)). }
  rewrite (run_next callee TRAMPOLINE sym_trampoline _ _ ret_in ret_in); [|by apply (code_fetch _ _ ret_in W), ret_code|].
  2:{ cbn [exec_instr]. change (h_mode ret_in) with (h_mode h). by rewrite Hmode. }
  set (v := rd64 (h_mem h) (frame + tf_offset TF_a0)). set (h2 := set_reg t0 v ret_in).
  assert (W2 : within W ret_in h2) by apply within_reg.
  rewrite (run_next callee TRAMPOLINE sym_trampoline _ _ ret_in h2); [|by apply (code_fetch _ _ ret_in W), ret_code|].
  2:{ destruct (ret_slot ret_in TF_a0 ltac:(done) Ha0) as [S1 S2]. cbn [exec_instr]. unfold load_dw. rewrite S1, Z.eqb_refl.
      by destruct (S2 ret_in) as [-> _]. }
  rewrite (run_next callee TRAMPOLINE sym_trampoline _ _ h2 ret_mid); [|by apply (code_fetch _ _ h2 W), ret_code|].
  2:{ cbn [exec_instr]. unfold csr_write. change (h_mode h2) with (h_mode h). by rewrite Hmode. }
  split; [done|]. etransitivity; [exact W2|]. by apply (within_csr W sscratch).
Qed.

Lemma userret_resumes : exists u, go userret h = Jump (h_csr h sepc) u /\ resumed h u uroot frame.
Proof.
  rewrite userret_parts. destruct (run_ret_in (loads a0 user_saved ++ [csrrw a0 sscratch a0; i_sret])) as [-> W3].
  rewrite (run_loads callee TRAMPOLINE sym_trampoline W a0 frame); [|by apply ret_code|].
  2:{ apply Forall_forall. intros e (r & -> & Hr)%list_elem_of_fmap. split; [by apply ret_slot|]. cbn [fst]. intros ->.
      exfalso. revert Hr. apply (bool_decide_unpack _). vm_compute. done. }
  set (v := rd64 (h_mem h) (frame + tf_offset TF_a0)). set (h4 := load_all _ _ _ ret_mid).
  assert (W4 : within W ret_in h4) by (etransitivity; [exact W3|apply within_loads]).
  destruct (load_all_mem (h_mem ret_mid) frame user_saved ret_mid) as (M1 & M2 & M3). fold h4 in M1, M2, M3.
  assert (Hm4 : h_mode h4 = Smode) by (rewrite M2; exact Hmode).
  assert (E0 : h_reg h4 a0 = TRAPFRAME).
  { unfold h4. rewrite load_all_out; [exact Ha0|]. apply (bool_decide_unpack _). vm_compute. done. }
  set (h5 := set_reg a0 v (set_csr sscratch TRAPFRAME h4)).
  assert (W5 : within W ret_in h5).
  { etransitivity; [exact W4|]. etransitivity; [by apply (within_csr W sscratch)|apply within_reg]. }
  rewrite (run_next callee TRAMPOLINE sym_trampoline _ _ h4 h5); [|by apply (code_fetch _ _ h4 W), ret_code|].
  2:{ cbn [exec_instr]. unfold csr_read, csr_write. rewrite Hm4, M3. cbn [csr_level mode_le mbind option_bind]. rewrite E0. done. }
  assert (E5 : h_csr h5 = upd (h_csr h4) sscratch TRAPFRAME) by done.
  destruct (sret_user h5) as (s & Es & Hs); [exact Hm4|rewrite E5, M3; exact Hspp|].
  rewrite (run_jump callee TRAMPOLINE sym_trampoline _ _ h5 (h_csr h sepc) (set_mode Umode (set_csr mstatus s h5))).
  2:{ by apply (code_fetch _ _ h5 W), ret_code. }
  2:{ cbn [exec_instr]. rewrite Es, E5, M3. done. }
  eexists. split; [done|]. split; try done.
  intros r. change (h_reg (set_mode Umode (set_csr mstatus s h5)) r) with (upd (h_reg h4) a0 v r). unfold upd. case_decide as Er; [by subst r|].
  unfold h4. rewrite (load_all_get _ _ _ _ _ (tf_offset (tf_reg r))); [done| |by apply user_regs_all].
  apply (bool_decide_unpack _). vm_compute. done.
Qed.
End ret.

(** C17: a trap from user space enters the kernel with the kernel's stack, hart
    number and page table and all registers of the user saved; and when the
    kernel comes to [userret], whatever else it did, even to the page tables,
    each register whose place in the trapframe it left alone is as it was, and
    the next trap finds its trapframe. *)
Theorem trap_round_trip callee u Tu Tk uroot kroot frame :
  hart_ok u -> trap_space (h_mem u) Tu Tk uroot kroot frame -> h_mode u = Smode ->
  h_csr u satp = MAKE_SATP uroot -> h_csr u sscratch = TRAPFRAME ->
  rd64 (h_mem u) (frame + tf_offset TF_kernel_satp) = MAKE_SATP kroot ->
  exists h, run callee TRAMPOLINE sym_trampoline uservec u = Jump (rd64 (h_mem u) (frame + tf_offset TF_kernel_trap)) h /\
    entered u h kroot frame /\
    forall h2 Tu2 Tk2, trap_space (h_mem h2) Tu2 Tk2 uroot kroot frame -> h_mode h2 = Smode -> h_csr h2 satp = MAKE_SATP kroot ->
      h_reg h2 a0 = TRAPFRAME -> h_reg h2 a1 = MAKE_SATP uroot -> Z.testbit (h_csr h2 mstatus) SPP_BIT = false ->
      exists u2, run callee TRAMPOLINE sym_trampoline userret h2 = Jump (h_csr h2 sepc) u2 /\
        resumed h2 u2 uroot frame /\
        forall r, frame_regs (h_mem h2) frame r = frame_regs (h_mem h) frame r -> h_reg u2 r = h_reg u r.
Proof.
  intros H1 H2 H3 H4 H5 H6. destruct (uservec_enters callee u Tu Tk uroot kroot frame H1 H2 H3 H4 H5 H6) as (h & E & HE).
  exists h. split; [exact E|]. split; [exact HE|]. intros h2 Tu2 Tk2 R1 R2 R3 R4 R5 R6.
  destruct (userret_resumes callee h2 Tu2 Tk2 uroot kroot frame R1 R2 R3 R4 R5 R6) as (u2 & E2 & HR).
  exists u2. split; [exact E2|]. split; [exact HR|]. intros r Hr. rewrite (re_regs _ _ _ _ HR), Hr. apply (en_regs _ _ _ _ HE).
Qed.
End tramp.

(** *** Example: one page table for both *)

#[local] Existing Instance sample_linker.
#[local] Existing Instance sample_linker_ok.

Definition tramp_T : gmap (list Z) Z := <[ [255; 511] := pg_l0 ]> (<[ [255] := pg_l1 ]> sample_T0).
Definition tramp_m1 : gmap Z Z := wr64 ∅ (pg_root + 8 * 255) (Z.lor (PA2PTE pg_l1) PTE_V).
Definition tramp_m2 : gmap Z Z := wr64 tramp_m1 (pg_l1 + 8 * 511) (Z.lor (PA2PTE pg_l0) PTE_V).
Definition tramp_m : gmap Z Z :=
  let m := wr64 tramp_m2 (pg_l0 + 8 * 511) (Z.lor (Z.lor (PA2PTE sym_trampoline) (Z.lor PTE_R PTE_X)) PTE_V) in
  let m := wr64 m (pg_l0 + 8 * 510) (Z.lor (Z.lor (PA2PTE pg_frame) (Z.lor PTE_R PTE_W)) PTE_V) in
  wr64 m (pg_frame + 8 * 0) (MAKE_SATP pg_root).

Lemma tramp_T1_cases p c : <[ [255] := pg_l1 ]> sample_T0 !! p = Some c -> p = [] /\ c = pg_root \/ p = [255] /\ c = pg_l1.
Proof.
  intros Hp. destruct (decide (p = [255])) as [->|Hne].
  - rewrite lookup_insert_eq in Hp. right. by simplify_eq.
  - rewrite add_lookup in Hp by done. unfold sample_T0 in Hp. apply lookup_singleton_Some in Hp as [<- <-]. by left.
Qed.

Lemma tramp_T_cases p c : tramp_T !! p = Some c ->
  p = [] /\ c = pg_root \/ p = [255] /\ c = pg_l1 \/ p = [255; 511] /\ c = pg_l0.
Proof.
  unfold tramp_T. intros Hp. destruct (decide (p = [255; 511])) as [->|Hne].
  - rewrite lookup_insert_eq in Hp. right. right. by simplify_eq.
  - rewrite add_lookup in Hp by done. apply tramp_T1_cases in Hp as [?|?]; auto.
Qed.

Lemma tramp_pt1 : pt_ok tramp_m1 (<[ [255] := pg_l1 ]> sample_T0) pg_root.
Proof.
  apply (pt_add ∅ tramp_m1 sample_T0 pg_root pg_root 255 pg_l1 []); try done.
  - apply sample_pt0.
  - simpl. lia.
  - intros [p Hp]. unfold sample_T0 in Hp. apply lookup_singleton_Some in Hp as [_ E]. done.
  - intros j Hj. unfold tramp_m1. rewrite rd64_wr64_word, decide_False by done. apply rd64_empty.
  - intros q e j Hq Hj Hne. unfold sample_T0 in Hq. apply lookup_singleton_Some in Hq as [_ <-].
    unfold tramp_m1. rewrite rd64_wr64_word by done. by rewrite decide_False by congruence.
Qed.

Lemma tramp_pt2 : pt_ok tramp_m2 tramp_T pg_root.
Proof.
  apply (pt_add tramp_m1 tramp_m2 _ pg_root pg_l1 511 pg_l0 [255]); try done.
  - apply tramp_pt1.
  - simpl. lia.
  - intros [p Hp]. apply tramp_T1_cases in Hp as [[_ E]|[_ E]]; done.
  - intros j Hj. unfold tramp_m2, tramp_m1. rewrite !rd64_wr64_word by done. rewrite !decide_False by done. apply rd64_empty.
  - intros q e j Hq Hj Hne. apply tramp_T1_cases in Hq as [[_ ->]|[_ ->]];
      unfold tramp_m2; rewrite rd64_wr64_word by done; by rewrite decide_False by congruence.
Qed.

(** The last level of a page table is not part of its tree. *)
Lemma tramp_pt : pt_ok tramp_m tramp_T pg_root.
Proof.
  split; [apply tramp_pt2..|]. intros p c i Hp Hl Hi. pose proof (pt_link _ _ _ tramp_pt2 p c i Hp Hl Hi) as Hk.
  assert (E : rd64 tramp_m (c + 8 * i) = rd64 tramp_m2 (c + 8 * i)); [|by rewrite E].
  unfold tramp_m. apply tramp_T_cases in Hp as [[-> ->]|[[-> ->]|[-> _]]]; [..|simpl in Hl; lia];
    rewrite !rd64_wr64_word by done; by rewrite !decide_False by done.
Qed.

Lemma tramp_space : trap_space tramp_m tramp_T tramp_T pg_root pg_root pg_frame.
Proof.
  assert (Hn : ~ is_table tramp_T pg_frame).
  { intros [p Hp]. apply tramp_T_cases in Hp as [[_ E]|[[_ E]|[_ E]]]; done. }
  split; try apply tramp_pt; try done; try (vm_compute; reflexivity).
Qed.

Definition sample_user_hart : hart :=
  mk_hart (fun r => match r with a0 => 5 | _ => 7 end)
    (fun c => match c with satp => MAKE_SATP pg_root | sscratch => TRAPFRAME | sepc => 0x1000 | _ => 0 end) Smode tramp_m.

Lemma sample_user_ok : hart_ok sample_user_hart.
Proof.
  set (h := mk_hart (h_reg sample_user_hart) (h_csr sample_user_hart) Smode ∅).
  assert (H0 : hart_ok h).
  { split; [intros []; done|intros []; done|]. intros b. simpl. unfold rd. by rewrite lookup_empty. }
  do 5 (eapply hart_ok_mem in H0; [|shelve]). exact H0.
  Unshelve. all: by vm_compute.
Qed.

Lemma entered_space u h Tu Tk uroot kroot frame :
  entered u h kroot frame -> trap_space (h_mem u) Tu Tk uroot kroot frame -> trap_space (h_mem h) Tu Tk uroot kroot frame.
Proof.
  intros HE. apply trap_space_keep. intros b Hb. apply (en_mem _ _ _ _ HE). intros Hs. apply Hb.
  unfold in_page, saved_part, PGSIZE in *. lia.
Qed.

Lemma trap_round_trip_witness :
  exists h, run (fun _ _ => Fault) TRAMPOLINE sym_trampoline uservec sample_user_hart = Jump 0 h /\
    h_csr h satp = MAKE_SATP pg_root /\
    exists u2, run (fun _ _ => Fault) TRAMPOLINE sym_trampoline userret (set_reg a1 (MAKE_SATP pg_root) (set_reg a0 TRAPFRAME h)) = Jump 0x1000 u2 /\
      h_mode u2 = Umode /\ h_reg u2 a0 = 5 /\ h_reg u2 s11 = 7.
Proof.
  destruct (trap_round_trip (fun _ _ => Fault) sample_user_hart tramp_T tramp_T pg_root pg_root pg_frame sample_user_ok tramp_space eq_refl eq_refl eq_refl)
    as (h & E & HE & HR); [vm_compute; reflexivity|].
  exists h. split; [exact E|]. split; [apply (en_satp _ _ _ _ HE)|].
  destruct (HR (set_reg a1 (MAKE_SATP pg_root) (set_reg a0 TRAPFRAME h)) tramp_T tramp_T) as (u2 & E2 & HU & Hregs).
  - exact (entered_space _ _ _ _ _ _ _ HE tramp_space).
  - exact (en_mode _ _ _ _ HE).
  - exact (en_satp _ _ _ _ HE).
  - reflexivity.
  - reflexivity.
  - change (Z.testbit (h_csr h mstatus) SPP_BIT = false). rewrite (en_csr _ _ _ _ HE mstatus) by discriminate. reflexivity.
  - exists u2. split.
    + rewrite E2. f_equal. change (h_csr h sepc = 0x1000). rewrite (en_csr _ _ _ _ HE sepc) by discriminate. reflexivity.
    + split; [apply (re_mode _ _ _ _ HU)|]. rewrite !Hregs by reflexivity. split; reflexivity.
Defined.
