(* ===== verification/BootSpec.v ===== *)
(** * Boot and the timer

    [entry] and [start] bring every hart from reset to [main] in supervisor
    mode, each with a stack of its own and its timer set; [timervec] sets the
    next tick and passes the interrupt on, and the code it interrupts does not
    notice. *)

From S2P Require Import Prelude Defs State Logic Memory Kalloc Vm PageTable Csr Asm Tramp Boot AsmSpec TrampSpec.

(** The arrays of [start.c] are aligned and in RAM. *)
Class BootSymsOk (B : BootSyms) : Prop := {
  stack0_aligned : sym_stack0 mod 16 = 0;
  stack0_ram : KERNBASE <= sym_stack0 /\ sym_stack0 + 4096 * NCPU <= PHYSTOP;
  mscratch0_aligned : sym_mscratch0 mod 8 = 0;
  mscratch0_ram : KERNBASE <= sym_mscratch0 /\ sym_mscratch0 + 8 * (32 * NCPU) <= PHYSTOP;
  main_even : sym_main mod 2 = 0;
  code_ram : word64 sym_main /\ word64 sym_timervec }.

Section boot.
Context {B : BootSyms} {BO : BootSymsOk B}.

(** ** Machine mode *)

Lemma machine_window h W va : h_mode h = Mmode -> window h W va va /\ code_at h W va va.
Proof. intros H. split; intros h' [E _] _; unfold translate; by rewrite E, H. Qed.

Lemma load_machine h a : h_mode h = Mmode -> a mod 8 = 0 -> load_dw a h = Some (rd64 (h_mem h) a).
Proof. intros H Ha. unfold load_dw, translate. by rewrite Ha, H. Qed.

Lemma store_machine h a v : h_mode h = Mmode -> a mod 8 = 0 -> store_dw a v h = Some (set_mem (wr64 (h_mem h) a v) h).
Proof. intros H Ha. unfold store_dw, translate. by rewrite Ha, H. Qed.

(** ** The timer of a hart *)

Definition scratch_of (id : Z) : Z := sym_mscratch0 + 256 * id.
Definition interval : Z := 1000000.

(** [timervec] finds the address of the timer and the interval in the scratch
    area of the hart, and may raise a software interrupt. *)
Record timer_ready (id : Z) (h : hart) : Prop := {
  tm_scratch : h_csr h mscratch = scratch_of id;
  tm_cmp : rd64 (h_mem h) (scratch_of id + 32) = CLINT_MTIMECMP id;
  tm_interval : rd64 (h_mem h) (scratch_of id + 40) = interval;
  tm_deleg : Z.testbit (h_csr h mideleg) 1 = true }.

Definition hart_id (id : Z) : Prop := 0 <= id < NCPU.

Lemma scratch_facts id : hart_id id ->
  KERNBASE <= scratch_of id /\ scratch_of id + 256 <= PHYSTOP /\ scratch_of id mod 8 = 0 /\
  0 <= CLINT_MTIMECMP id /\ CLINT_MTIMECMP id + 8 <= CLINT_MTIME /\ CLINT_MTIMECMP id mod 8 = 0.
Proof.
  intros Hi. unfold hart_id in Hi. change NCPU with 8 in Hi. pose proof mscratch0_ram as [H1 H2]. change NCPU with 8 in H2.
  pose proof mscratch0_aligned. unfold scratch_of, CLINT_MTIMECMP, CLINT_MTIME, CLINT. split; [lia|]. split; [lia|].
  split; [rewrite Z.add_mod, H, (Z.mul_mod 256) by lia; done|]. split; [lia|]. split; [lia|].
  replace (33554432 + 16384 + 8 * id) with ((4196352 + id) * 8) by lia. by apply Z.mod_mul.
Qed.

(** ** [timervec] *)

Definition timer_saved : list (reg * Z) := [(a1, 0); (a2, 8); (a3, 16)].
Definition timer_args : list (reg * Z) := [(a1, 32); (a2, 40)].
Definition timer_restored : list (reg * Z) := [(a3, 16); (a2, 8); (a1, 0)].

Lemma timervec_parts : timervec =
  csrrw a0 mscratch a0 :: saves a0 timer_saved ++ loads a0 timer_args ++
  ld a3 0 a1 :: add a3 a3 a2 :: sd a3 0 a1 :: li a1 2 :: csrw sip a1 :: loads a0 timer_restored ++ [csrrw a0 mscratch a0; i_mret].
Proof. reflexivity. Qed.

(** The bytes that [timervec] writes. *)
Definition timer_bytes (id b : Z) : Prop :=
  scratch_of id <= b < scratch_of id + 24 \/ CLINT_MTIMECMP id <= b < CLINT_MTIMECMP id + 8.

(** The tick has been handled: the next one is due after the interval, a
    software interrupt is pending, and registers and scratch area are as
    before. *)
Record ticked (id : Z) (h h' : hart) : Prop := {
  tk_regs r : h_reg h' r = h_reg h r;
  tk_cmp : rd64 (h_mem h') (CLINT_MTIMECMP id) = u64 (rd64 (h_mem h) (CLINT_MTIMECMP id) + interval);
  tk_mem : agree_out (timer_bytes id) (h_mem h) (h_mem h');
  tk_pending : Z.testbit (h_csr h' mip) 1 = true;
  tk_ready : timer_ready id h' }.

Section tick.
Context (callee : cfun -> hart -> res) (cva id : Z) (h : hart).
Hypothesis Hid : hart_id id.
Hypothesis Hok : hart_ok h.
Hypothesis Hmode : h_mode h = Mmode.
Hypothesis HR : timer_ready id h.

Let scr := scratch_of id.
Let cmp := CLINT_MTIMECMP id.
Abbreviation go := (run callee cva cva).

(** All accesses are to physical addresses. *)
Lemma tick_fetch g : h_mode g = Mmode -> translate g cva A_fetch = Some cva.
Proof. intros Hg. unfold translate. by rewrite Hg. Qed.

Lemma tick_slots g l : h_mode g = Mmode -> h_reg g a0 = scr -> Forall (fun e : reg * Z => 0 <= e.2 < 256 /\ e.2 mod 8 = 0) l ->
  Forall (fun e => slot g (fun _ => True) (h_reg g a0) scr e.2) l.
Proof.
  intros Hg Ha Hl. eapply Forall_impl; [exact Hl|]. intros e [He Hm]. rewrite Ha. destruct (scratch_facts id Hid) as (F1 & F2 & F3 & _). fold scr in F1, F2, F3.
  unfold slot. rewrite u64_id by (unfold PHYSTOP, KERNBASE in *; lia). split; [|by apply machine_window]. by rewrite Z.add_mod, F3, Hm by lia.
Qed.

(** The state in which the arguments have been loaded. *)
Definition tick_in : hart := set_reg a0 scr (set_csr mscratch (h_reg h a0) h).
Definition tick_mem : gmap Z Z := store_all (h_reg tick_in) scr timer_saved (h_mem h).
Definition tick_mid : hart := load_all tick_mem scr timer_args (set_mem tick_mem tick_in).

Lemma run_tick_in code : go (csrrw a0 mscratch a0 :: saves a0 timer_saved ++ loads a0 timer_args ++ code) h = go code tick_mid.
Proof.
  rewrite (run_next callee cva cva _ _ h tick_in); [|by apply tick_fetch|].
  2:{ cbn [exec_instr]. unfold csr_read, csr_write. rewrite Hmode. cbn [csr_level mode_le mbind option_bind]. rewrite (tm_scratch _ _ HR). done. }
  destruct (run_saves callee cva cva (fun _ => True) a0 scr timer_saved (loads a0 timer_args ++ code) tick_in) as [-> _].
  { by apply machine_window. }
  { assert (Hs := tick_slots tick_in timer_saved Hmode eq_refl ltac:(by repeat (constructor; [simpl; split; [lia|done]|]))).
    eapply Forall_impl; [exact Hs|]. intros e He. done. }
  rewrite (run_loads callee cva cva (fun _ => True) a0 scr timer_args code); [done|by apply machine_window|].
  assert (Hs := tick_slots (set_mem tick_mem tick_in) timer_args Hmode eq_refl ltac:(by repeat (constructor; [simpl; split; [lia|done]|]))).
  apply Forall_cons in Hs as [Hs1 Hs]. apply Forall_cons in Hs as [Hs2 _].
  constructor; [split; [exact Hs1|done]|]. constructor; [split; [exact Hs2|done]|constructor].
Qed.

Lemma tick_mem_at o : o = 32 \/ o = 40 -> rd64 tick_mem (scr + o) = rd64 (h_mem h) (scr + o).
Proof.
  intros Ho. unfold tick_mem. apply store_all_out. intros o' Ho'.
  assert (o' <= 16) by (revert o' Ho'; apply Forall_forall; repeat (constructor; [simpl; lia|]); constructor). lia.
Qed.

Lemma tick_mid_regs : h_reg tick_mid a0 = scr /\ h_reg tick_mid a1 = cmp /\ h_reg tick_mid a2 = interval /\
  h_mode tick_mid = Mmode /\ h_mem tick_mid = tick_mem /\ h_csr tick_mid = h_csr tick_in.
Proof.
  destruct (load_all_mem tick_mem scr timer_args (set_mem tick_mem tick_in)) as (M1 & M2 & M3). fold tick_mid in M1, M2, M3.
  split; [unfold tick_mid; rewrite load_all_out; [done|apply (bool_decide_unpack _); done]|].
  split; [unfold tick_mid; rewrite (load_all_get _ _ _ _ _ 32); [rewrite tick_mem_at by auto; apply HR|apply (bool_decide_unpack _); done|left]|].
  split; [unfold tick_mid; rewrite (load_all_get _ _ _ _ _ 40); [rewrite tick_mem_at by auto; apply HR|apply (bool_decide_unpack _); done|right; left]|].
  split; [rewrite M2; exact Hmode|]. split; [exact M1|exact M3].
Qed.

(** The saved registers. *)
Lemma tick_mem_saved e : e ∈ timer_saved -> rd64 tick_mem (scr + e.2) = h_reg h e.1.
Proof.
  intros He. destruct e as [r o]. unfold tick_mem. cbn [fst snd].
  assert (E : h_reg tick_in r = h_reg h r).
  { unfold tick_in. simpl. unfold upd. rewrite decide_False; [done|]. intros ->. revert He. apply (bool_decide_unpack _). vm_compute. done. }
  rewrite store_all_get with (r := r); [done|reflexivity|done|]. rewrite E. apply Hok.
Qed.

Definition tick_val : Z := u64 (rd64 tick_mem cmp + interval).

(** The state after the timer and the pending bit have been set. *)
Definition tick_set : hart :=
  let g := set_reg a1 2 (set_mem (wr64 tick_mem cmp tick_val) (set_reg a3 tick_val (set_reg a3 (rd64 tick_mem cmp) tick_mid))) in
  set_csr mip (masked (h_csr h mip) (Z.land SSIP (h_csr h mideleg)) 2) g.

Lemma run_tick_set code : go (ld a3 0 a1 :: add a3 a3 a2 :: sd a3 0 a1 :: li a1 2 :: csrw sip a1 :: code) tick_mid = go code tick_set.
Proof.
  destruct tick_mid_regs as (_ & R1 & R2 & RM & Rm & RC). destruct (scratch_facts id Hid) as (_ & _ & _ & F4 & F5 & F6). fold cmp in F4, F5, F6.
  assert (Ec : u64 (cmp + 0) = cmp) by (rewrite Z.add_0_r; apply u64_id; change CLINT_MTIME with 33603576 in F5; lia).
  set (g1 := set_reg a3 (rd64 tick_mem cmp) tick_mid).
  rewrite (run_next callee cva cva _ _ tick_mid g1); [|by apply tick_fetch|].
  2:{ cbn [exec_instr]. rewrite R1, Ec, load_machine by done. by rewrite Rm. }
  set (g2 := set_reg a3 tick_val g1).
  rewrite (run_next callee cva cva _ _ g1 g2); [|by apply tick_fetch|].
  2:{ cbn [exec_instr]. change (h_reg g1 a3) with (rd64 tick_mem cmp). change (h_reg g1 a2) with (h_reg tick_mid a2). by rewrite R2. }
  set (g3 := set_mem (wr64 tick_mem cmp tick_val) g2).
  rewrite (run_next callee cva cva _ _ g2 g3); [|by apply tick_fetch|].
  2:{ cbn [exec_instr]. change (h_reg g2 a1) with (h_reg tick_mid a1). rewrite R1, Ec, store_machine by done.
      change (h_mem g2) with (h_mem tick_mid). by rewrite Rm. }
  set (g4 := set_reg a1 2 g3).
  rewrite (run_next callee cva cva _ _ g3 g4); [|by apply tick_fetch|done].
  rewrite (run_next callee cva cva _ _ g4 tick_set); [done|by apply tick_fetch|].
  cbn [exec_instr]. unfold csr_write. change (h_mode g4) with (h_mode tick_mid). rewrite RM. cbn [csr_level mode_le].
  change (h_csr g4) with (h_csr tick_mid). rewrite RC. done.
Qed.

Lemma mret_jump g : h_mode g = Mmode -> exists p st, mret g = Jump (h_csr g mepc) (set_mode p (set_csr mstatus st g)).
Proof. intros Hg. unfold mret. rewrite Hg. eauto. Qed.

(** The registers and memory at the end. *)
Definition tick_regs : hart := load_all (h_mem tick_set) scr timer_restored tick_set.

Lemma tick_far a : a = cmp \/ (scr + 24 <= a) -> rd64 tick_mem a = rd64 (h_mem h) a.
Proof.
  intros Ha. destruct (scratch_facts id Hid) as (F1 & _ & _ & _ & F5 & _). fold scr in F1. fold cmp in F5. change CLINT_MTIME with 33603576 in F5.
  change KERNBASE with 2147483648 in F1. unfold tick_mem. apply store_all_out. intros o Ho.
  assert (0 <= o <= 16) by (revert o Ho; apply Forall_forall; repeat (constructor; [simpl; lia|]); constructor). lia.
Qed.

Lemma tick_set_far a : a + 8 <= cmp \/ cmp + 8 <= a -> rd64 (h_mem tick_set) a = rd64 tick_mem a.
Proof. intros Ha. apply rd64_wr64_ne. done. Qed.

Lemma tick_scr_far o : 0 <= o < 256 -> scr + o + 8 <= cmp \/ cmp + 8 <= scr + o.
Proof.
  intros Ho. destruct (scratch_facts id Hid) as (F1 & _ & _ & _ & F5 & _). fold scr in F1. fold cmp in F5. change CLINT_MTIME with 33603576 in F5.
  change KERNBASE with 2147483648 in F1. lia.
Qed.

Lemma tick_regs_get r : r <> a0 -> h_reg tick_regs r = h_reg h r.
Proof.
  intros Hr. unfold tick_regs. destruct (decide (r ∈ map fst timer_restored)) as [Hin|Hin].
  - apply list_elem_of_fmap in Hin as ([r' o] & -> & He). cbn [fst]. rewrite (load_all_get _ _ _ _ _ o); [|apply (bool_decide_unpack _); done|done].
    assert (He' : (r', o) ∈ timer_saved /\ 0 <= o < 256).
    { revert He. unfold timer_restored, timer_saved. rewrite !elem_of_cons, elem_of_nil. intros [[= -> ->]|[[= -> ->]|[[= -> ->]|[]]]]; split; try lia; naive_solver. }
    rewrite tick_set_far by (apply tick_scr_far, He'). apply (tick_mem_saved (r', o)), He'.
  - rewrite load_all_out by done. unfold timer_restored in Hin. cbn [map fst] in Hin. rewrite !elem_of_cons in Hin.
    change (h_reg tick_set r) with (upd (upd (upd (h_reg tick_mid) a3 (rd64 tick_mem cmp)) a3 tick_val) a1 2 r). unfold upd.
    rewrite !decide_False by naive_solver. unfold tick_mid. rewrite load_all_out.
    + simpl. unfold upd. by rewrite decide_False.
    + unfold timer_args. cbn [map fst]. rewrite !elem_of_cons. naive_solver.
Qed.

Lemma tick_mem_end : agree_out (timer_bytes id) (h_mem h) (h_mem tick_set).
Proof.
  assert (Hs : forall x l m, Forall (fun e : reg * Z => 0 <= e.2 <= 16) l -> agree_out (timer_bytes id) m (store_all x scr l m)).
  { intros x l. induction l as [|e l IH]; intros m HF; [done|]. apply Forall_cons in HF as [He HF]. cbn [store_all foldl].
    etransitivity; [|by apply IH]. intros b Hb. apply rd_wr_out. rewrite length_le_bytes. unfold timer_bytes in Hb. fold scr in Hb. lia. }
  etransitivity; [apply (Hs (h_reg tick_in) timer_saved); repeat (constructor; [simpl; lia|]); constructor|].
  intros b Hb. apply rd_wr_out. rewrite length_le_bytes. unfold timer_bytes in Hb. fold cmp in Hb. lia.
Qed.

Lemma masked_ssip x w : Z.testbit w 1 = true -> Z.testbit (masked x (Z.land SSIP w) 2) 1 = true.
Proof. intros Hw. unfold masked. rewrite Z.lor_spec, !Z.land_spec, Hw. by rewrite orb_true_r. Qed.

(** The last two instructions, from a state in which all is done but [a0]. *)
Lemma tick_finish g :
  h_mode g = Mmode -> (forall r, r <> a0 -> h_reg g r = h_reg h r) -> h_reg g a0 = scr ->
  (forall c, c <> mip -> h_csr g c = upd (h_csr h) mscratch (h_reg h a0) c) -> Z.testbit (h_csr g mip) 1 = true ->
  rd64 (h_mem g) cmp = u64 (rd64 (h_mem h) cmp + interval) -> agree_out (timer_bytes id) (h_mem h) (h_mem g) ->
  (forall o, o = 32 \/ o = 40 -> rd64 (h_mem g) (scr + o) = rd64 (h_mem h) (scr + o)) ->
  exists h', go [csrrw a0 mscratch a0; i_mret] g = Jump (h_csr h mepc) h' /\ ticked id h h'.
Proof.
  intros Hm Hr H0 Hc Hp H1 H2 H3. set (g1 := set_reg a0 (h_reg h a0) (set_csr mscratch scr g)).
  rewrite (run_next callee cva cva _ _ g g1); [|by apply tick_fetch|].
  2:{ cbn [exec_instr]. unfold csr_read, csr_write. rewrite Hm, H0. cbn [csr_level mode_le mbind option_bind]. rewrite (Hc mscratch) by done. done. }
  destruct (mret_jump g1 Hm) as (p & st & Es). assert (Ep : h_csr g1 mepc = h_csr h mepc) by exact (Hc mepc ltac:(done)).
  rewrite (run_jump callee cva cva _ _ g1 (h_csr h mepc) (set_mode p (set_csr mstatus st g1))); [|by apply tick_fetch|by rewrite <- Ep].
  eexists. split; [done|]. split.
  - intros r. change (upd (h_reg g) a0 (h_reg h a0) r = h_reg h r). unfold upd. case_decide as E; [by subst r|by apply Hr].
  - exact H1.
  - exact H2.
  - exact Hp.
  - split; [done|..].
    + change (rd64 (h_mem g) (scr + 32) = cmp). rewrite H3 by auto. apply HR.
    + change (rd64 (h_mem g) (scr + 40) = interval). rewrite H3 by auto. apply HR.
    + change (Z.testbit (h_csr g mideleg) 1 = true). rewrite (Hc mideleg) by done. apply HR.
Qed.

Lemma timervec_runs : exists h', go timervec h = Jump (h_csr h mepc) h' /\ ticked id h h'.
Proof.
  rewrite timervec_parts, run_tick_in, run_tick_set. destruct tick_mid_regs as (R0 & _ & _ & RM & Rm & RC).
  assert (Hm : h_mode tick_set = Mmode) by exact RM. assert (H0 : h_reg tick_set a0 = scr) by exact R0.
  rewrite (run_loads callee cva cva (fun _ => True) a0 scr timer_restored); [|by apply machine_window|].
  2:{ assert (Hs := tick_slots tick_set timer_restored Hm H0 ltac:(by repeat (constructor; [simpl; split; [lia|done]|]))).
      apply Forall_cons in Hs as [Hs1 Hs]. apply Forall_cons in Hs as [Hs2 Hs]. apply Forall_cons in Hs as [Hs3 _].
      constructor; [split; [exact Hs1|done]|]. constructor; [split; [exact Hs2|done]|]. constructor; [split; [exact Hs3|done]|constructor]. }
  fold tick_regs. destruct (load_all_mem (h_mem tick_set) scr timer_restored tick_set) as (M1 & M2 & M3). fold tick_regs in M1, M2, M3.
  apply tick_finish; rewrite ?M1, ?M2, ?M3.
  - exact Hm.
  - exact tick_regs_get.
  - unfold tick_regs. rewrite load_all_out, H0; [done|]. apply (bool_decide_unpack _). done.
  - intros c Hc. change (upd (h_csr tick_mid) mip (masked (h_csr h mip) (Z.land SSIP (h_csr h mideleg)) 2) c = upd (h_csr h) mscratch (h_reg h a0) c).
    rewrite RC. unfold upd at 1. by rewrite decide_False.
  - apply masked_ssip, HR.
  - change (h_mem tick_set) with (wr64 tick_mem cmp tick_val). rewrite rd64_wr64_eq by apply word64_u64. unfold tick_val. by rewrite tick_far by auto.
  - apply tick_mem_end.
  - intros o Ho. rewrite tick_set_far, tick_far by (try apply tick_scr_far; lia). done.
Qed.
End tick.

(** ** [start] *)

(** The bytes that [timerinit] writes. *)
Definition init_bytes (id b : Z) : Prop :=
  scratch_of id + 32 <= b < scratch_of id + 48 \/ CLINT_MTIMECMP id <= b < CLINT_MTIMECMP id + 8.

(** A hart in [main]: in supervisor mode without paging, its number in [tp],
    exceptions and supervisor interrupts delegated and enabled, the first tick
    set; the interrupt of the timer itself goes to [timervec]. *)
Record booted (id : Z) (h h' : hart) : Prop := {
  bo_mode : h_mode h' = Smode;
  bo_satp : h_csr h' satp = 0;
  bo_regs r : h_reg h' r = if decide (r = tp) then id else h_reg h r;
  bo_deleg : h_csr h' mideleg = S_INTERRUPTS /\ h_csr h' medeleg = Z.ldiff 0xffff ECALL_M;
  bo_sie i : i = 1 \/ i = 5 \/ i = 9 -> Z.testbit (h_csr h' mie) i = true;
  bo_timer : Z.testbit (h_csr h' mie) 7 = true /\ Z.testbit (h_csr h' mideleg) 7 = false /\ h_csr h' mtvec = sym_timervec;
  bo_ready : timer_ready id h';
  bo_cmp : rd64 (h_mem h') (CLINT_MTIMECMP id) = u64 (rd64 (h_mem h) CLINT_MTIME + interval);
  bo_mem : agree_out (init_bytes id) (h_mem h) (h_mem h') }.

Lemma c_bind_some {A X} (m : C A) (f : A -> C X) h a h' : m h = Some (a, h') -> c_bind m f h = f a h'.
Proof. intros E. unfold c_bind. by rewrite E. Qed.

Lemma c_load_machine h a : h_mode h = Mmode -> a mod 8 = 0 -> c_load a h = Some (rd64 (h_mem h) a, h).
Proof. intros H Ha. unfold c_load. by rewrite load_machine. Qed.

Lemma c_store_machine h a v : h_mode h = Mmode -> a mod 8 = 0 -> c_store a v h = Some (tt, set_mem (wr64 (h_mem h) a v) h).
Proof. intros H Ha. unfold c_store. by rewrite store_machine. Qed.

(** [timerinit] as a change of the state. *)
Definition timer_mem (id : Z) (m : gmap Z Z) : gmap Z Z :=
  wr64 (wr64 (wr64 m (CLINT_MTIMECMP id) (u64 (rd64 m CLINT_MTIME + interval))) (scratch_of id + 32) (CLINT_MTIMECMP id)) (scratch_of id + 40) interval.

Lemma timerinit_runs id h : hart_id id -> h_mode h = Mmode -> h_csr h mhartid = id ->
  timerinit h = Some (tt,
    let c := upd (upd (h_csr h) mscratch (scratch_of id)) mtvec sym_timervec in
    let c := upd c mstatus (Z.lor (h_csr h mstatus) MSTATUS_MIE) in
    mk_hart (h_reg h) (upd c mie (Z.lor (h_csr h mie) MIE_MTIE)) Mmode (timer_mem id (h_mem h))).
Proof.
  intros Hid Hm Hh. destruct (scratch_facts id Hid) as (F1 & F2 & F3 & F4 & F5 & F6).
  destruct h as [x c md m]. cbn [h_mode h_csr h_reg h_mem] in *. subst md. unfold hart_id in Hid. change NCPU with 8 in Hid.
  assert (Es : s32 id = id) by (apply swrap_id; lia). unfold timerinit.
  rewrite (c_bind_some _ _ _ id (mk_hart x c Mmode m)) by (unfold r_mhartid, r_csr, csr_read; cbn; by rewrite Hh). rewrite Es. cbv zeta.
  rewrite (c_bind_some _ _ _ _ _ (c_load_machine (mk_hart x c Mmode m) CLINT_MTIME eq_refl eq_refl)).
  rewrite (c_bind_some _ _ _ _ _ (c_store_machine (mk_hart x c Mmode m) _ _ eq_refl F6)).
  assert (Eu : u64 (sym_mscratch0 + 8 * (32 * id)) = scratch_of id).
  { unfold scratch_of in *. rewrite u64_id by (unfold PHYSTOP, KERNBASE in *; lia). lia. }
  rewrite Eu. assert (A4 : (scratch_of id + 8 * 4) mod 8 = 0) by (by rewrite Z.add_mod, F3 by lia).
  assert (A5 : (scratch_of id + 8 * 5) mod 8 = 0) by (by rewrite Z.add_mod, F3 by lia).
  rewrite (c_bind_some _ _ _ _ _ (c_store_machine (set_mem _ (mk_hart x c Mmode m)) _ _ eq_refl A4)).
  rewrite (c_bind_some _ _ _ _ _ (c_store_machine (set_mem _ (set_mem _ (mk_hart x c Mmode m))) _ _ eq_refl A5)).
  cbn [set_mem h_mem h_reg h_csr h_mode]. rewrite (u64_id (CLINT_MTIMECMP id)) by (change CLINT_MTIME with 33603576 in F5; lia). reflexivity.
Qed.

(** [start] up to [timerinit]. *)
Definition start_csrs (c : csr -> Z) : csr -> Z :=
  let c1 := upd c mstatus (Z.lor (Z.ldiff (c mstatus) MSTATUS_MPP_MASK) MSTATUS_MPP_S) in
  let c2 := upd (upd (upd (upd c1 mepc (Z.ldiff sym_main 1)) satp 0) medeleg (Z.ldiff 0xffff ECALL_M)) mideleg (Z.land 0xffff S_INTERRUPTS) in
  upd c2 mie (masked (c mie) S_INTERRUPTS (Z.lor (Z.lor (Z.lor (Z.land (c mie) S_INTERRUPTS) SIE_SEIE) SIE_STIE) SIE_SSIE)).

Lemma start_body_runs id h : hart_id id -> h_mode h = Mmode -> h_csr h mhartid = id ->
  exists h', start_body h = Some (tt, set_reg tp id h') /\ timerinit (mk_hart (h_reg h) (start_csrs (h_csr h)) Mmode (h_mem h)) = Some (tt, h') /\
    h_csr h' mhartid = id.
Proof.
  intros Hid Hm Hh. destruct h as [x c md m]. cbn [h_mode h_csr h_reg h_mem] in *. subst md.
  pose proof (timerinit_runs id (mk_hart x (start_csrs c) Mmode m) Hid eq_refl Hh) as Et. cbv zeta in Et. cbn [h_reg h_mem h_csr] in Et.
  eexists. split; [|split; [exact Et|exact Hh]]. unfold start_body.
  rewrite (c_bind_some _ _ _ (c mstatus) (mk_hart x c Mmode m)) by reflexivity. cbv zeta.
  do 6 (erewrite c_bind_some by reflexivity). erewrite c_bind_some by reflexivity.
  erewrite c_bind_some; [|exact Et].
  unfold hart_id in Hid. change NCPU with 8 in Hid.
  match goal with |- c_bind _ _ ?g = _ => assert (Er : r_mhartid g = Some (id, g)) end.
  { transitivity (Some (c mhartid, mk_hart x (upd (upd (upd (upd (start_csrs c) mscratch (scratch_of id)) mtvec sym_timervec)
      mstatus (Z.lor (start_csrs c mstatus) MSTATUS_MIE)) mie (Z.lor (start_csrs c mie) MIE_MTIE)) Mmode (timer_mem id m))); [reflexivity|].
    by rewrite Hh. }
  rewrite (c_bind_some _ _ _ _ _ Er).
  unfold w_tp. do 3 f_equal. replace (s32 id) with id by (symmetry; apply swrap_id; lia). rewrite u64_id by lia. done.
Qed.

Lemma timer_mem_spec id m : hart_id id ->
  rd64 (timer_mem id m) (scratch_of id + 32) = CLINT_MTIMECMP id /\ rd64 (timer_mem id m) (scratch_of id + 40) = interval /\
  rd64 (timer_mem id m) (CLINT_MTIMECMP id) = u64 (rd64 m CLINT_MTIME + interval) /\ agree_out (init_bytes id) m (timer_mem id m).
Proof.
  intros Hid. destruct (scratch_facts id Hid) as (F1 & F2 & _ & F4 & F5 & _). change CLINT_MTIME with 33603576 in F5.
  change KERNBASE with 2147483648 in F1. unfold timer_mem. split; [|split; [|split]].
  - rewrite rd64_wr64_ne by lia. apply rd64_wr64_eq. lia.
  - apply rd64_wr64_eq. done.
  - rewrite !rd64_wr64_ne by lia. apply rd64_wr64_eq. apply word64_u64.
  - intros b Hb. unfold init_bytes in Hb. unfold wr64. rewrite !rd_wr_out; [done|..]; rewrite length_le_bytes; lia.
Qed.

(** The bits of the constants in the goal. *)
Ltac const_bits :=
  repeat match goal with
         | |- context [Z.testbit ?c ?i] =>
             is_const c; let b := eval vm_compute in (Z.testbit c i) in change (Z.testbit c i) with b
         end.

(** Bits of the registers that [start] leaves. *)
Lemma start_bits x y :
  (forall i, i = 1 \/ i = 5 \/ i = 9 \/ i = 7 ->
    Z.testbit (Z.lor (masked y S_INTERRUPTS (Z.lor (Z.lor (Z.lor (Z.land y S_INTERRUPTS) SIE_SEIE) SIE_STIE) SIE_SSIE)) MIE_MTIE) i = true) /\
  Z.testbit (Z.lor (Z.lor (Z.ldiff x MSTATUS_MPP_MASK) MSTATUS_MPP_S) MSTATUS_MIE) 11 = true /\
  Z.testbit (Z.lor (Z.lor (Z.ldiff x MSTATUS_MPP_MASK) MSTATUS_MPP_S) MSTATUS_MIE) 12 = false.
Proof.
  split; [|split].
  - intros i Hi. unfold masked. rewrite !Z.lor_spec, !Z.land_spec, !Z.lor_spec.
    destruct Hi as [->|[->|[->| ->]]]; const_bits; rewrite ?orb_true_r, ?andb_true_r, ?orb_true_r; done.
  - rewrite !Z.lor_spec. const_bits. by rewrite orb_true_r.
  - rewrite !Z.lor_spec, Z.ldiff_spec. const_bits. by rewrite andb_false_r.
Qed.

Lemma start_runs id h : hart_id id -> h_mode h = Mmode -> h_csr h mhartid = id ->
  exists h', start h = Jump sym_main h' /\ booted id h h'.
Proof.
  intros Hid Hm Hh. destruct (start_body_runs id h Hid Hm Hh) as (h1 & E & Et & _).
  rewrite (timerinit_runs id) in Et; [|done|done|exact Hh]. cbv zeta in Et. cbn [h_reg h_mem h_csr] in Et. injection Et as Eh.
  destruct (timer_mem_spec id (h_mem h) Hid) as (T1 & T2 & T3 & T4). destruct (start_bits (h_csr h mstatus) (h_csr h mie)) as (B1 & B2 & B3).
  assert (Ec : forall c, h_csr h1 c = upd (upd (upd (upd (start_csrs (h_csr h)) mscratch (scratch_of id)) mtvec sym_timervec)
      mstatus (Z.lor (start_csrs (h_csr h) mstatus) MSTATUS_MIE)) mie (Z.lor (start_csrs (h_csr h) mie) MIE_MTIE) c) by (intros c; by rewrite <- Eh).
  assert (Emain : Z.ldiff sym_main 1 = sym_main).
  { apply Z.bits_inj'. intros i Hi. rewrite Z.ldiff_spec. destruct (decide (i = 0)) as [->|].
    - pose proof (Z.bit0_mod sym_main) as Hb. rewrite main_even in Hb. by destruct (Z.testbit sym_main 0).
    - change 1 with (2 ^ 0). rewrite Z.pow2_bits_false by lia. by rewrite andb_true_r. }
  unfold start. rewrite E. unfold mret. cbn [set_reg h_mode h_csr]. assert (Hm1 : h_mode h1 = Mmode) by (by rewrite <- Eh). rewrite Hm1.
  rewrite (Ec mstatus). change (upd _ mie _ mstatus) with (Z.lor (Z.lor (Z.ldiff (h_csr h mstatus) MSTATUS_MPP_MASK) MSTATUS_MPP_S) MSTATUS_MIE).
  rewrite B2, B3. eexists. split; [rewrite (Ec mepc); change (upd _ mie _ mepc) with (Z.ldiff sym_main 1); by rewrite Emain|].
  set (st := put_bit _ 12 false). clearbody st. assert (Eq : forall c, c <> mstatus -> upd (h_csr h1) mstatus st c = h_csr h1 c) by (intros c Hc; unfold upd; by rewrite decide_False).
  split; cbn [set_mode set_csr h_csr h_reg h_mem h_mode]; rewrite ?Eq, ?Ec by done; try done.
  - intros r. unfold upd. rewrite <- Eh. done.
  - intros i Hi. rewrite ?Eq, ?Ec by done. apply B1. tauto.
  - split; [apply B1; auto|done].
  - split; cbn [set_mode set_csr set_reg h_csr h_mem]; rewrite ?Eq, ?Ec by done; try done; rewrite <- Eh; done.
  - rewrite <- Eh. exact T3.
  - rewrite <- Eh. exact T4.
Qed.

(** The functions that [entry] calls. *)
Definition boot_callee (f : cfun) (h : hart) : res := match f with C_start => start h | _ => Fault end.

(** C20: every hart comes from reset to [main] in supervisor mode, having run
    [start] on a stack of its own, with its number in [tp], traps delegated,
    and its timer set up for [timervec].  The stack pointer starts at the top
    of the page of the hart, [stack0 + 4096 * (hartid + 1)]; the comment in
    [entry.S] gives the bottom. *)
Theorem boot_to_main id cva h :
  hart_id id -> h_mode h = Mmode -> h_csr h mhartid = id ->
  exists hs h', run boot_callee cva cva entry h = Jump sym_main h' /\
    h_reg hs sp = sym_stack0 + 4096 * (id + 1) /\ h_mem hs = h_mem h /\ booted id hs h'.
Proof.
  intros Hid Hm Hh. pose proof stack0_ram as [S1 S2]. assert (Hi := Hid). unfold hart_id in Hi. change NCPU with 8 in *.
  set (g1 := set_reg sp sym_stack0 h). set (g2 := set_reg a0 (u64 (1024 * 4)) g1). set (g3 := set_reg a1 id g2).
  set (g4 := set_reg a1 (u64 (id + 1)) g3). set (g5 := set_reg a0 (u64 (u64 (1024 * 4) * u64 (id + 1))) g4).
  set (g6 := set_reg sp (u64 (sym_stack0 + u64 (u64 (1024 * 4) * u64 (id + 1)))) g5).
  assert (Hf : forall g, h_mode g = Mmode -> translate g cva A_fetch = Some cva) by (intros g Hg; unfold translate; by rewrite Hg).
  destruct (start_runs id g6 Hid Hm Hh) as (h' & E & HB). exists g6, h'. split; [|split; [|split; [done|exact HB]]].
  - unfold entry. rewrite (run_next boot_callee cva cva _ _ h g1), (run_next boot_callee cva cva _ _ g1 g2) by (by apply Hf || done).
    rewrite (run_next boot_callee cva cva _ _ g2 g3); [|by apply Hf|].
    2:{ cbn [exec_instr]. unfold csr_read. change (h_mode g2) with (h_mode h). rewrite Hm. cbn [csr_level mode_le mbind option_bind].
        change (h_csr g2) with (h_csr h). by rewrite Hh. }
    rewrite (run_next boot_callee cva cva _ _ g3 g4), (run_next boot_callee cva cva _ _ g4 g5), (run_next boot_callee cva cva _ _ g5 g6) by (by apply Hf || done).
    apply run_jump; [by apply Hf|exact E].
  - change (h_reg g6 sp) with (u64 (sym_stack0 + u64 (u64 (1024 * 4) * u64 (id + 1)))). unfold PHYSTOP, KERNBASE in *.
    rewrite (u64_id (1024 * 4)), (u64_id (id + 1)) by lia. rewrite (u64_id (_ * _)) by lia. rewrite u64_id by lia. lia.
Qed.

(** C21: a timer interrupt, in whatever code it comes, sets the next tick one
    interval later, leaves a software interrupt for the supervisor, and returns
    with every register as it was and the timer ready for the next one. *)
Theorem timervec_ticks callee cva id h :
  hart_id id -> hart_ok h -> h_mode h = Mmode -> timer_ready id h ->
  exists h', run callee cva cva timervec h = Jump (h_csr h mepc) h' /\ ticked id h h'.
Proof. intros Hid Hok Hm HR. by apply timervec_runs. Qed.

Lemma word64_const v : (0 <=? v) && (v <? 2 ^ 64) = true -> word64 v.
Proof. intros [H1 H2]%andb_true_iff. split; [by apply Z.leb_le|by apply Z.ltb_lt]. Qed.
End boot.

(** ** Example *)

Definition sample_syms : BootSyms :=
  {| sym_stack0 := 0x80010000; sym_mscratch0 := 0x80020000; sym_main := 0x80000100; sym_timervec := 0x80000200 |}.
#[local] Existing Instance sample_syms.

#[local] Instance sample_syms_ok : BootSymsOk sample_syms.
Proof. split; try reflexivity; split; try (vm_compute; discriminate); by apply word64_const. Qed.

Definition reset_hart (id : Z) : hart := mk_hart (fun _ => 0) (fun c => match c with mhartid => id | _ => 0 end) Mmode ∅.

Lemma boot_to_main_witness :
  exists hs h', run boot_callee 0x80000000 0x80000000 entry (reset_hart 2) = Jump 0x80000100 h' /\
    h_reg hs sp = 0x80013000 /\ h_mode h' = Smode /\ h_reg h' tp = 2 /\ timer_ready 2 h'.
Proof.
  destruct (boot_to_main 2 0x80000000 (reset_hart 2)) as (hs & h' & E & Hsp & _ & HB); [split; reflexivity || discriminate|reflexivity|reflexivity|].
  exists hs, h'. split; [exact E|]. split; [exact Hsp|]. split; [apply (bo_mode _ _ _ HB)|].
  split; [rewrite (bo_regs _ _ _ HB); reflexivity|apply (bo_ready _ _ _ HB)].
Defined.

(** A hart interrupted by its timer. *)
Definition sample_tick : hart :=
  mk_hart (fun _ => 9) (fun c => match c with mscratch => scratch_of 1 | mideleg => S_INTERRUPTS | mepc => 0x1234 | _ => 0 end) Mmode (timer_mem 1 ∅).

Lemma sample_tick_ok : hart_ok sample_tick.
Proof.
  set (h := mk_hart (h_reg sample_tick) (h_csr sample_tick) Mmode ∅).
  assert (H0 : hart_ok h).
  { split; [intros r; by apply word64_const|intros []; by apply word64_const|]. intros b. simpl. unfold rd. by rewrite lookup_empty. }
  do 3 (eapply hart_ok_mem in H0; [|shelve]). exact H0.
  Unshelve. all: apply word64_const; vm_compute; reflexivity.
Qed.

Lemma sample_tick_ready : timer_ready 1 sample_tick.
Proof. destruct (timer_mem_spec 1 ∅) as (T1 & T2 & _); [done|]. split; [reflexivity|exact T1|exact T2|reflexivity]. Qed.

Lemma timervec_ticks_witness :
  exists h', run boot_callee 0x80000000 0x80000000 timervec sample_tick = Jump 0x1234 h' /\
    h_reg h' a0 = 9 /\ h_reg h' a3 = 9 /\ rd64 (h_mem h') (CLINT_MTIMECMP 1) = 2000000 /\ timer_ready 1 h'.
Proof.
  destruct (timervec_ticks boot_callee 0x80000000 1 sample_tick) as (h' & E & [T1 T2 _ _ T5]);
    [split; reflexivity || discriminate|exact sample_tick_ok|reflexivity|exact sample_tick_ready|].
  exists h'. split; [exact E|]. rewrite !T1. split; [reflexivity|]. split; [reflexivity|]. split; [rewrite T2; vm_compute; reflexivity|exact T5].
Defined.
