(* ===== verification/InitCode.v ===== *)
(** * The first user program: [user/initcode.S] and the bytes of [proc.c]

    [initcode_S] is the assembly source and [assemble] lays it out at address 0
    as the build does.  [userinit] does not load the result of the build but
    the array [initcode], which says of itself that it is this program: the
    lemmas show that it is, byte for byte, and what its machine code, which
    [ustep] runs, does.  It asks for [exec("/init", {"/init", 0})], and for
    [exit] for ever should that fail. *)

From S2P Require Import Prelude Defs State Memory Spinlock Sched Kalloc Vm Csr Proc Asm.

(** ** The source *)

Inductive label := l_start | l_exit | l_init | l_argv.

#[export] Instance label_eq_dec : EqDecision label.
Proof. solve_decision. Defined.

Inductive item :=
| i_label (l : label)
| i_la (r : reg) (l : label)
| i_li (r : reg) (v : Z)
| i_ecall
| i_jal (l : label)
| i_string (s : list Z)
| i_p2align (n : Z)
| i_long (l : label)
| i_long0.

#[export] Instance item_eq_dec : EqDecision item.
Proof. solve_decision. Defined.

Definition SYS_exit : Z := 2.
Definition SYS_exec : Z := 7.

Definition initcode_S : list item := [
  i_label l_start;
  i_la a0 l_init;
  i_la a1 l_argv;
  i_li a7 SYS_exec;
  i_ecall;
  i_label l_exit;
  i_li a7 SYS_exit;
  i_ecall;
  i_jal l_exit;
  i_label l_init;
  i_string (bytes_of "/init" ++ [0; 0]);
  i_p2align 2;
  i_label l_argv;
  i_long l_init;
  i_long0].

(** ** Machine code

    The number of a register, and the four formats that occur. *)
Definition regs : list reg :=
  [ra; sp; gp; tp; t0; t1; t2; s0; s1; a0; a1; a2; a3; a4; a5; a6; a7;
   s2; s3; s4; s5; s6; s7; s8; s9; s10; s11; t3; t4; t5; t6].

Fixpoint index_of (r : reg) (l : list reg) : Z :=
  match l with
  | [] => 0
  | r' :: l => if decide (r = r') then 0 else 1 + index_of r l
  end.

Definition regno (r : reg) : Z := 1 + index_of r regs.

(** Register 0 is the constant 0. *)
Definition regof (n : Z) : option reg :=
  if n =? 0 then None else regs !! Z.to_nat (n - 1).

Definition field (w lo n : Z) : Z := Z.land (Z.shiftr w lo) (2 ^ n - 1).

Definition enc_auipc (rd : reg) (imm : Z) : Z :=
  Z.lor 0x17 (Z.lor (Z.shiftl (regno rd) 7) (Z.shiftl (field imm 0 20) 12)).
Definition enc_addi (rd : reg) (rs imm : Z) : Z :=
  Z.lor 0x13 (Z.lor (Z.shiftl (regno rd) 7) (Z.lor (Z.shiftl rs 15) (Z.shiftl (field imm 0 12) 20))).
Definition enc_ecall : Z := 0x73.
Definition enc_jal (rd : reg) (imm : Z) : Z :=
  Z.lor 0x6f (Z.lor (Z.shiftl (regno rd) 7)
    (Z.lor (Z.shiftl (field imm 12 8) 12)
    (Z.lor (Z.shiftl (field imm 11 1) 20)
    (Z.lor (Z.shiftl (field imm 1 10) 21) (Z.shiftl (field imm 20 1) 31))))).

(** ** Layout *)

(** The program is code without compressed instructions ([-march=rv64g]).  In
    such code the assembler takes an alignment to at most 4 bytes as given, so
    that the [.p2align 2] behind the string of 7 bytes has no effect; the
    section ends at a multiple of 4. *)
Definition pad (n a : Z) : Z := if 2 ^ n <=? 4 then 0 else (- a) mod 2 ^ n.

Definition item_size (a : Z) (i : item) : Z :=
  match i with
  | i_label _ => 0
  | i_la _ _ => 8
  | i_li _ _ | i_ecall | i_jal _ | i_long _ | i_long0 => 4
  | i_string s => Z.of_nat (length s)
  | i_p2align n => pad n a
  end.

Fixpoint address (l : label) (a : Z) (its : list item) : Z :=
  match its with
  | [] => a
  | i :: its => if decide (i = i_label l) then a else address l (a + item_size a i) its
  end.

(** [la] is relative to the program counter: the upper part by [auipc], the
    rest, which is signed, by [addi]. *)
Definition item_bytes (at_ : label -> Z) (a : Z) (i : item) : list Z :=
  match i with
  | i_label _ => []
  | i_la r l =>
      let d := at_ l - a in
      le_bytes 4 (enc_auipc r ((d + 2048) / 4096)) ++ le_bytes 4 (enc_addi r (regno r) (swrap 12 d))
  | i_li r v => le_bytes 4 (enc_addi r 0 v)
  | i_ecall => le_bytes 4 enc_ecall
  | i_jal l => le_bytes 4 (enc_jal ra (at_ l - a))
  | i_string s => s
  | i_p2align n => replicate (Z.to_nat (pad n a)) 0
  | i_long l => le_bytes 4 (at_ l)
  | i_long0 => le_bytes 4 0
  end.

Fixpoint emit (at_ : label -> Z) (a : Z) (its : list item) : list Z :=
  match its with
  | [] => []
  | i :: its => item_bytes at_ a i ++ emit at_ (a + item_size a i) its
  end.

Definition assemble (its : list item) : list Z :=
  let b := emit (fun l => address l 0 its) 0 its in
  b ++ replicate (Z.to_nat ((- Z.of_nat (length b)) mod 4)) 0.

(** ** Running machine code in user mode *)

Record ucpu := mk_ucpu { u_pc : Z; u_x : reg -> Z }.

Definition x_get (s : ucpu) (n : Z) : Z := match regof n with Some r => u_x s r | None => 0 end.
Definition x_set (s : ucpu) (n v pc : Z) : ucpu :=
  mk_ucpu pc (match regof n with Some r => upd (u_x s) r (u64 v) | None => u_x s end).

Inductive ures := u_next (s : ucpu) | u_call (s : ucpu) | u_illegal.

(** One instruction; a system call leaves the program counter behind it, where
    [usertrap] makes the process return. *)
Definition ustep (m : Z -> Z) (s : ucpu) : ures :=
  let pc := u_pc s in
  let w := le_val [m pc; m (pc + 1); m (pc + 2); m (pc + 3)] in
  let op := field w 0 7 in
  let rd := field w 7 5 in
  if w =? enc_ecall then u_call (mk_ucpu (pc + 4) (u_x s))
  else if op =? 0x17 then u_next (x_set s rd (pc + swrap 32 (Z.shiftl (field w 12 20) 12)) (pc + 4))
  else if (op =? 0x13) && (field w 12 3 =? 0) then
    u_next (x_set s rd (x_get s (field w 15 5) + swrap 12 (field w 20 12)) (pc + 4))
  else if op =? 0x6f then
    let imm := Z.lor (Z.shiftl (field w 21 10) 1) (Z.lor (Z.shiftl (field w 20 1) 11)
                 (Z.lor (Z.shiftl (field w 12 8) 12) (Z.shiftl (field w 31 1) 20))) in
    u_next (x_set s rd (pc + 4) (pc + swrap 21 imm))
  else u_illegal.

(** Run to the next system call. *)
Fixpoint urun (fuel : nat) (m : Z -> Z) (s : ucpu) : option ucpu :=
  match fuel with
  | O => None
  | S fuel =>
      match ustep m s with
      | u_next s => urun fuel m s
      | u_call s => Some s
      | u_illegal => None
      end
  end.

(** The page at address 0 after [uvminit]. *)
Definition init_page (a : Z) : Z := nth (Z.to_nat a) initcode 0.

Definition page_bytes (a n : Z) : list Z := map init_page (seqZ a n).

(** ** The array is the program *)

(** From [epc = 0], with whatever in the registers, the first system call is
    [exec] with the path ["/init"] and the vector of the path and a null
    pointer. *)
Lemma initcode_execs x :
  ∃ s, urun 6 init_page (mk_ucpu 0 x) = Some s ∧ u_x s a7 = SYS_exec ∧
    page_bytes (u_x s a0) 6 = bytes_of "/init" ++ [0] ∧
    le_val (page_bytes (u_x s a1) 8) = u_x s a0 ∧ le_val (page_bytes (u_x s a1 + 8) 8) = 0.
Proof. eexists. split; [vm_compute; reflexivity|]. repeat split; vm_compute; reflexivity. Qed.

(** Should it return, all further system calls are [exit]. *)
Lemma initcode_exits x s :
  urun 6 init_page (mk_ucpu 0 x) = Some s ->
  ∀ n v, ∃ s', Nat.iter n (fun o => o ≫= urun 3 init_page) (urun 3 init_page (mk_ucpu (u_pc s) (upd (u_x s) a0 v))) = Some s'
    ∧ u_x s' a7 = SYS_exit.
Proof.
  intros Hs n v.
  assert (Hl : ∀ y p, p = 24 ∨ p = 32 -> ∃ s', urun 3 init_page (mk_ucpu p y) = Some s' ∧ u_x s' a7 = SYS_exit ∧ u_pc s' = 32).
  { intros y p [-> | ->]; eexists; (split; [vm_compute; reflexivity|]); split; vm_compute; reflexivity. }
  assert (Hn : ∃ s', Nat.iter n (fun o => o ≫= urun 3 init_page) (urun 3 init_page (mk_ucpu (u_pc s) (upd (u_x s) a0 v))) = Some s'
    ∧ u_x s' a7 = SYS_exit ∧ u_pc s' = 32).
  { induction n as [|n IH].
    - apply Hl. left. revert Hs. vm_compute. intros [= <-]. reflexivity.
    - destruct IH as ([pc y] & E & _ & Hpc). rewrite Nat.iter_succ, E. apply Hl. right. exact Hpc. }
  destruct Hn as (s' & ? & ? & ?). eauto.
Qed.

(** The array is [initcode.S], assembled. *)
Lemma initcode_assembled : assemble initcode_S = initcode.
Proof. vm_compute. reflexivity. Qed.
